(* ===== verification/_CoqProject ===== *)
-Q . S2P
Prelude.v
Calendar.v
OrderedMap.v
Streams.v
Bytes.v
CxxText.v
FilterValue.v
Parquet.v
Scalars.v
Types.v
ScanTypes.v
Layering.v
PosDelOptimizer.v
Dangling.v
PartitionKey.v
PartitionSpecs.v
TableMetadata.v
ScanBuilder.v
PartitionRules.v
ScanSpec.v
Planner.v
Stats.v
StatsFilter.v
StatsGetter.v
ParquetStats.v
ManifestFilter.v
TemporalOps.v
RowFilter.v
RowFilterSemantics.v
RowFilterExample.v
Entries.v
Segments.v
SelectionVector.v
PositionalDelete.v
DeleteAppliers.v
DeletionVector.v
DeletionVectorEdits.v
FileReading.v
EqualityDelete.v
MemoryAccounting.v
DeleteTables.v
EqualityDeleteHandler.v
Json.v
FilterSerializer.v
Puffin.v
Literals.v
MetadataJson.v
ColumnReading.v
StreamAssembly.v
Execution.v
Driver.v
ScanExample.v
Url.v
PartitionTransforms.v
SchemaValidation.v
Uuid.v
Writing.v
Avro.v
AvroSchema.v
AvroFacts.v
ManifestAvro.v
ManifestRoundtrip.v
AvroExample.v
ManifestList.v
ManifestExample.v
ManifestScan.v
FileWriting.v
ScanFilesExample.v
ThreadPool.v
MultiThreaded.v
MultiThreadedExample.v
MetadataValidation.v
MetadataTree.v
