(* ===== verification/Prelude.v ===== *)
(** * Verification of the iceberg-cxx table reader

    iceberg-cxx reads Apache Iceberg tables.  A scan has two halves.  Planning
    ([iceberg/tea_scan.cpp]) reads the manifests of a snapshot and produces a
    [ScanMetadata]: partitions, each a list of layers in order of sequence
    number, each layer with data files and delete files; a delete file of a
    layer applies to the data files of its own and of older layers.  Execution
    ([iceberg/streams], [iceberg/positional_delete], [iceberg/equality_delete],
    [iceberg/deletion_vector.cpp])
    reads the row groups of the data files and takes deleted rows out of the
    selection of each batch.  Both halves prune by statistics
    ([iceberg/filter/stats_filter]).  The files themselves are Avro
    ([iceberg/manifest_entry.cpp], [iceberg/tea_manifest_metadata.cpp]), JSON
    ([iceberg/table_metadata.cpp]) and Puffin ([iceberg/puffin.cpp]), and can be
    written as well ([iceberg/write.cpp], [iceberg/parquet/io.cpp],
    [iceberg/transaction.cpp]).

    ** Files

    - [Prelude]: errors ([result], for exceptions and [arrow::Status]), loops that
      can fail, machine integers with explicit wrap-around, lemmas on lists.
    - [Calendar]: days and dates of the Gregorian calendar, as [std::chrono] counts them.
    - [OrderedMap]: [std::map] as the sorted list of its entries; the class
      [KeyOrd] of the comparisons, with instances for strings, integers,
      optionals, pairs and lists; [std::set] as the sorted list of its elements.
    - [Streams]: pull streams ([IStream]) as the sequence of elements they deliver,
      and what it means that a class with a [ReadNext] delivers a sequence.
    - [Bytes]: little-endian encodings.  [CxxText]: numbers read from text
      ([std::stoull], [std::stoi], extraction from a stream).
    - [Scalars]: Arrow data types and scalars.  [Parquet]: metadata of Parquet files.
    - [Types]: [iceberg/type.h], [type.cpp], [nested_field.h], [schema.h].
    - [ScanTypes]: the data of manifests and plans ([manifest_entry.h],
      [manifest_file.h], [tea_scan.h]).
    - [TableMetadata]: [TableMetadataV2], its getters, checkers and builder.
    - [PartitionKey]: [SerializePartitionTuple].  [PartitionSpecs]:
      [GetFieldsFromPartitionSpec], [MatchesSpecification],
      [CheckPartitionTupleIsCorrect].
    - [Layering]: the specification side of plans, that is when a delete file
      applies to a data file, before and after planning.
    - [PosDelOptimizer]: class [PositonalDeleteOptimizer], the scanline that splits
      partitions into buckets.  [Dangling]: [RemoveDanglingDeletes].
    - [ScanBuilder]: class [ScanMetadataBuilder], every handler; [PartitionRules] states
      the rules of deletes on partition tuples, [ScanSpec] has the end-to-end theorems.
    - [Planner]: class [ReferencedDataFileAwareScanPlanner] and its multi-threaded
      variant, as interleavings of critical sections.
    - [FilterValue], [Stats], [StatsFilter]: filter expressions, interval
      statistics, the registry of evaluators and [StatsFilter::ApplyFilter],
      against a three-valued semantics of expressions on rows.
    - [StatsGetter]: statistics of manifest entries from serialized bounds.
      [ManifestFilter]: statistics of manifests from partition summaries, and
      [FilterManifests].  [ParquetStats]: statistics of row groups,
      [ParquetStatsGetter] and [RowGroupFilter].
    - [RowFilter]: [iceberg/filter/row_filter], the visitor that builds an expression of
      Gandiva of a filter, its registry of functions and class [RowFilter].
      [TemporalOps]: the functions of timestamps and the checked arithmetic that are
      registered with Gandiva ([extend_gandiva]).  [RowFilterSemantics]: the value of
      the expression on a row.  [RowFilterExample]: a model of Gandiva and filters.
    - [Entries]: [AllEntriesStream], [EntryStream] and the loop [GetScanMetadata].
    - [Segments]: [UniteSegments], addition of data entries, and the comparison of
      plans of [experimental_representations.cpp].
    - [SelectionVector]: [common/selection_vector.h].
    - [PositionalDelete]: class [PositionalDeleteStream], the merge of position
      delete files.  [DeleteAppliers]: class [PositionalDeleteApplier].
    - [DeletionVector]: class [DeletionVector], its blob format, and
      [DeletionVectorApplier].  [DeletionVectorEdits]: the operations that change a
      vector, and that a changed vector is read back as its changes say.
    - [FileReading]: [GetRowGroupsToRetrieve] and [FilteringStream].
      [ColumnReading]: the columns of a data file by field id, with name mapping and
      default values.  [StreamAssembly]: [FileReaderBuilder], [DataScanner] and
      [MakeIcebergStream].  [Execution]: the contract of the whole chain.
      [Driver]: [iceberg/streams/main.cpp], from a plan to the stream of its rows.
      [ScanExample]: a table planned and read.
    - [EqualityDelete]: the tables of deleted rows of [iceberg/equality_delete],
      generic and specialized, as to their contents.  [MemoryAccounting]:
      [iceberg/equality_delete/utils.h], the bytes of the tables counted against a
      limit.  [DeleteTables]: the operations of the tables under the limit, on which
      [EqualityDeleteHandler] builds the classes [EqualityDeleteHandler],
      [EqualityDeleteApplier] and [FieldIdMapper].
    - [Json]: JSON trees, the accessors of [common/json_parse.cpp].
      [FilterSerializer]: filters as JSON.  [Puffin]: Puffin files.  [Literals]:
      literals as JSON.  [MetadataJson]: table metadata as JSON.  [Uuid]: UUIDs.
    - [Avro]: what the Avro library documents, as a class.  [AvroSchema]:
      [iceberg/avro_schema.cpp], schemas as JSON text.  [AvroFacts]: reading back
      data of a schema.  [AvroExample]: an instance of the class.
    - [ManifestAvro]: [iceberg/manifest_entry.cpp], manifests as Avro files;
      [ManifestRoundtrip] has its theorems, [ManifestExample] an example.
      [ManifestList]: [iceberg/tea_manifest_metadata.cpp], lists of manifests.
      [ManifestScan]: the entry stream of [Entries] over the contents of files;
      [ScanFilesExample]: a table in files, planned.
    - [ThreadPool]: [common/threadpool.h], the critical sections of the pool as steps.
      [MultiThreaded]: [GetScanMetadataMultiThreaded] and its tasks over the pool and
      the planner; [MultiThreadedExample]: scheduled runs of it.
    - [Url]: the functions that split URLs ([iceberg/common/fs/url.cpp],
      [iceberg/tea_scan.cpp]).
    - [PartitionTransforms]: [iceberg/transforms.cpp], [iceberg/hash_utils.h].
      [Writing]: [iceberg/parquet/io.cpp] and [iceberg/transaction.cpp], tables to
      data files.  [FileWriting]: [iceberg/write.cpp], metadata files.
    - [SchemaValidation]: [iceberg/schema.cpp], columns by name and the validator of
      Parquet schemas.
    - [MetadataValidation]: [tools/validation.cpp], restrictions on tables.
      [MetadataTree]: [tools/metadata_tree.cpp], the metadata files of a table loaded,
      cut to one snapshot and moved.

    State is passed explicitly: a class is a record, a method a function from the
    record to a [result] of the new record.  Names follow the source; a loop of a
    method has a definition of its own where its invariant is proved.

    ** Theorems

    - The whole scan ([Driver], [Execution]): for the entries of the manifests, the
      stream over their plan delivers exactly the rows of the live data files that
      pass the row filter and that no delete of the table removes, on the conditions
      that each theorem lists: the tables and files on which the code fails or departs
      from the format are outside.
    - Plans ([ScanSpec], [Planner], [Entries]): the data files of the plan are the
      live entries; the position and equality deletes that apply to each are
      those the rules of the table format require; results exist unless
      deletion vectors meet other deletes; reading the manifests terminates.
    - Threads ([ThreadPool], [MultiThreaded]): the pool runs every task that was
      submitted, in order and once, and no wake-up is lost; in every interleaving the
      multi-threaded planning comes to its result, and a plan that it returns keeps the
      contract for all entries; the release of the pool afterwards is not modelled.
    - Stages of planning ([PosDelOptimizer], [Dangling], [ScanBuilder]): the
      optimizer and the removal of dangling deletes keep what applies to what;
      deletion vectors go to the files they reference.
    - Pruning ([StatsFilter], [ManifestFilter], [StatsGetter], [ParquetStats], [Entries]): a manifest
      or row group that the filter rejects holds no matching row; rows with NaN excepted.
    - Row filters ([RowFilterSemantics], [TemporalOps]): the expression of Gandiva has
      the value that the filter has on a row in SQL, so that pruning drops no row that the
      row filter would select when the two are given opposite settings; truncation of timestamps is a floor to the unit, weeks
      are those of ISO 8601, and the parts of a timestamp make the timestamp.
    - Grouping ([PartitionKey], [PartitionSpecs]): when keys identify partitions.
    - Execution ([PositionalDelete], [DeleteAppliers], [DeletionVector],
      [SelectionVector], [FileReading], [DeleteTables],
      [EqualityDeleteHandler]): the rows taken out of a batch are exactly
      the deleted ones, and equality deletes fail only where the memory limit is enforced; row groups are read exactly once; blobs of deletion
      vectors round-trip and malformed ones are rejected.
    - Formats ([FilterSerializer], [Puffin], [Literals], [MetadataJson], [Uuid],
      [AvroSchema], [ManifestRoundtrip], [ManifestList]): what is written is read back;
      what is read is well-formed; a manifest of other partition fields is refused.
    - Planning from files ([ManifestScan]): for a table whose manifest list and
      manifests were written by the program, the plan is that of the entries that
      were written.
    - Writing ([Writing], [PartitionTransforms], [FileWriting]): an append succeeds exactly
      when the file is opened and written; tables whose files are closed as well are
      found whole under different paths and are committed once; partition values are
      those of the transforms; metadata files can be planned from.
    - Schemas and URLs ([SchemaValidation], [Url]): the validator accepts exactly the
      representations that the types require; the two functions that split URLs agree.
    - Memory ([MemoryAccounting]): the state counts the live blocks and refuses exactly
      the blocks that do not fit; what an insertion into a table does near the limit.
    - Tools ([MetadataValidation], [MetadataTree]): the validator accepts exactly the
      tables and manifests that keep the restrictions; a loaded tree is whole, metadata of
      one snapshot is about that snapshot alone, and a moved table has the new path
      everywhere the tool replaces it, with the renames recorded.
    - Behaviour that departs from what the code means to do is proved too:
      [PartitionKey.partition_key_collision],
      [StatsFilter.stats_filter_if_null_unsound], the nulls, long keys and values
      of fixed size in [EqualityDelete],
      [EqualityDeleteHandler.equality_applier_missing_column],
      [Segments.representation_ignores_same_layer_deletes],
      [ParquetStats.nested_column_skips_matching_rows], [ParquetStats.nan_row_skipped],
      [ScanExample.unrequested_column_delivered],
      [MetadataJson.empty_blob_properties_unreadable],
      [Writing.partitioned_rows_lost], [Writing.close_failure_unnoticed], [ManifestExample.fixed_partition_unwritable],
      [FileWriting.partitioned_manifest_refused],
      [MultiThreadedExample.thread_releases_pool],
      [MemoryAccounting.limit_raised], [MetadataValidation.decimal_column_refused],
      [MetadataTree.branch_snapshot_invalid],
      [RowFilterExample.shift_sign_disagrees] and others, named in the
      comments of the files.

    ** Fuel

    [Entries.drain] and [PositionalDelete.merge_loop] take fuel, since the loops
    they model read streams.  [Entries.get_scan_metadata_terminates] gives the
    fuel that suffices for a list of manifests; a call of
    [PositionalDelete.get_deleted] has one more unit than the rows and row groups
    its readers have left, and is proved to return.  The search for an unused
    column name ([EqualityDeleteHandler.GenerateNameForUnnamedColumn]) has one
    step per known name, and is proved to end at an unused one.  Reading a filter
    from a JSON tree takes the depth of the tree ([Json.json_depth]), which is
    proved to suffice.  The loop over the query of an URL ([Url.params_loop]) has one
    step more than the query has characters and is proved to end, and so is the
    clock of [Uuid.timestamp_loop] for clocks that advance.  The threads of
    [MultiThreaded] take no fuel: their steps decrease [MultiThreaded.measure].  All other recursion is
    structural.

    ** Parameters

    The Avro library ([Avro]; [Entries] takes any decoder of manifests, and
    [ManifestScan] gives it the one of the program), open Parquet files and their record batches
    ([DeleteAppliers], [EqualityDeleteHandler], [ColumnReading]), the order
    [std::sort] gives columns of one width ([EqualityDelete]) or data files of one
    path ([Driver]), the row filter of a scan ([FileReading], [StreamAssembly]), the
    functions of Gandiva ([RowFilterSemantics]), the date library of Arrow
    ([TemporalOps]), rapidjson's
    printer and parser ([Json]), Arrow's text of scalars ([Literals]), random
    access files ([Puffin]), the Roaring bitmap and CRC-32
    ([DeletionVector]), the hash functions of SMHasher and Arrow
    ([PartitionTransforms]), record batches, the file system and the Parquet writers, the
    text and equality of Arrow scalars and the order of an unordered map ([Writing]), the clock of the UUID generator
    ([Uuid]), the growth of Abseil's hash map ([MemoryAccounting]) and the choice among equal elements of a priority queue
    ([PositionalDelete]) are parameters or classes with the documented laws the
    proofs use; each class has an instance.

    ** Not modelled

    File systems and their failures (except those that [Writing] meets), catalogs (clients of Hive, Nessie and SQL
    services), logging, the compilation of expressions by Gandiva, the split offsets taken
    from Parquet files, and the programs around the library (data generators, collection of
    statistics and the command line programs; of the tools, the validation of metadata and
    the metadata tree are modelled). *)

From stdpp Require Import base list sorting strings gmap sets.
From Stdlib Require Import ZArith Lia.

(** ** Errors: exceptions and statuses *)

(** A C++ computation either returns, or leaves by an exception
    ([std::runtime_error] thrown by [Ensure]), or returns an error
    [arrow::Status].  Messages are kept as the fixed part of their text. *)
Inductive failure :=
| Exn (msg : string)
| StatusError (msg : string).

Inductive result (A : Type) :=
| Ok (a : A)
| Err (e : failure).
Arguments Ok {A} _.
Arguments Err {A} _.

#[export] Instance failure_eq_dec : EqDecision failure.
Proof. solve_decision. Defined.
#[export] Instance result_eq_dec `{EqDecision A} : EqDecision (result A).
Proof. solve_decision. Defined.

Definition rbind {A B} (m : result A) (k : A → result B) : result B :=
  match m with Ok a => k a | Err e => Err e end.

Declare Scope cxx_scope.
Delimit Scope cxx_scope with cxx.
Notation "'let!' x ':=' m 'in' k" := (rbind m (fun x => k))
  (at level 10, x name, m at level 100, k at level 200) : cxx_scope.
Notation "'let!' ' x ':=' m 'in' k" := (rbind m (fun x => k))
  (at level 10, x strict pattern, m at level 100, k at level 200) : cxx_scope.
Open Scope cxx_scope.

(** [iceberg::Ensure]: throw unless the condition holds. *)
Definition Ensure (condition : bool) (message : string) : result unit :=
  if condition then Ok () else Err (Exn message).

Definition is_ok {A} (r : result A) : bool :=
  match r with Ok _ => true | Err _ => false end.

Lemma rbind_Ok_inv {A B} (m : result A) (k : A → result B) b :
  rbind m k = Ok b → ∃ a, m = Ok a ∧ k a = Ok b.
Proof. destruct m; simpl; [eauto|discriminate]. Qed.

Lemma Ensure_Ok_inv c msg u : Ensure c msg = Ok u → c = true.
Proof. by destruct c. Qed.

Lemma Ensure_true c msg : c = true → Ensure c msg = Ok ().
Proof. by intros ->. Qed.

(** Invert a hypothesis that a monadic computation returned. *)
Ltac inv_ok :=
  repeat match goal with
  | H : rbind _ _ = Ok _ |- _ =>
      let a := fresh "a" in let Ha := fresh "Ha" in
      apply rbind_Ok_inv in H as (a & Ha & H); simpl in H
  | H : Ensure _ _ = Ok _ |- _ => apply Ensure_Ok_inv in H
  | H : Ok _ = Ok _ |- _ => injection H as H; try subst
  | H : Err _ = Ok _ |- _ => discriminate H
  end.

(** A fold whose body can fail, left to right, as a range [for] loop whose
    body can throw. *)
Fixpoint fold_ok {A S} (f : S → A → result S) (s : S) (l : list A) : result S :=
  match l with
  | [] => Ok s
  | x :: l => let! s := f s x in fold_ok f s l
  end.

(** A loop that converts each element, the first failure ending it. *)
Section map_ok.
Context {A B : Type} (f : A → result B).

Fixpoint map_ok (l : list A) : result (list B) :=
  match l with
  | [] => Ok []
  | x :: l => let! y := f x in let! ys := map_ok l in Ok (y :: ys)
  end.

Lemma map_ok_Forall2 l l' : map_ok l = Ok l' → Forall2 (λ x y, f x = Ok y) l l'.
Proof.
  revert l'. induction l as [|x l IH]; intros l' H; simpl in H; inv_ok; [constructor|].
  constructor; [done|by apply IH].
Qed.

Lemma map_ok_ok_iff l : is_ok (map_ok l) = true ↔ ∀ x, x ∈ l → is_ok (f x) = true.
Proof.
  induction l as [|x l IH]; simpl.
  { split; [|done]. by intros _ x ?%elem_of_nil. }
  setoid_rewrite elem_of_cons. destruct (f x) as [y|e] eqn:E; simpl.
  - destruct (map_ok l); simpl in *; rewrite IH || (rewrite <- IH); split; try naive_solver.
    intros H z [->|Hz]; [by rewrite E|]. by apply IH.
  - split; [done|]. intros H. specialize (H x (or_introl eq_refl)). by rewrite E in H.
Qed.

Lemma map_ok_elem l l' y : map_ok l = Ok l' → y ∈ l' ↔ ∃ x, x ∈ l ∧ f x = Ok y.
Proof.
  intros H%map_ok_Forall2. induction H as [|x z l l' Hx _ IH].
  - split; [by intros ?%elem_of_nil|]. by intros (? & ?%elem_of_nil & _).
  - setoid_rewrite elem_of_cons. rewrite IH. split.
    + intros [->|(x' & Hx' & E)]; eauto.
    + intros (x' & [->|Hx'] & E); [|by eauto]. rewrite Hx in E. injection E as ->. by left.
Qed.

Lemma map_ok_exists l : (∀ x, x ∈ l → ∃ y, f x = Ok y) → ∃ l', map_ok l = Ok l'.
Proof.
  intros H. assert (is_ok (map_ok l) = true) as Hok.
  { apply map_ok_ok_iff. intros x Hx. by destruct (H x Hx) as [y ->]. }
  destruct (map_ok l); [by eauto|done].
Qed.
End map_ok.

Lemma fold_ok_app {A S} (f : S → A → result S) s l1 l2 :
  fold_ok f s (l1 ++ l2) = (let! s := fold_ok f s l1 in fold_ok f s l2).
Proof.
  revert s. induction l1 as [|x l1 IH]; intros s; simpl; [done|].
  destruct (f s x); simpl; auto.
Qed.

Lemma fold_ok_inv_prefix {A S} (I : list A → S → Prop) (f : S → A → result S) l s0 s :
  I [] s0 →
  (∀ p x st st', I p st → f st x = Ok st' → I (p ++ [x]) st') →
  fold_ok f s0 l = Ok s → I l s.
Proof.
  intros H0 Hstep.
  assert (∀ l p st, I p st → fold_ok f st l = Ok s → I (p ++ l) s) as Hgen.
  { clear l s0 H0. induction l as [|x l IH]; intros p st Hp Hf; simpl in Hf.
    - inv_ok. by rewrite app_nil_r.
    - apply rbind_Ok_inv in Hf as (st' & Hx & Hf).
      rewrite (app_assoc p [x] l : p ++ x :: l = _). eauto. }
  intros Hf. by apply (Hgen l [] s0).
Qed.

(** ** Machine integers *)

Open Scope Z_scope.

Definition int16_min : Z := -32768.
Definition int16_max : Z := 32767.
Definition int32_min : Z := -2147483648.
Definition int32_max : Z := 2147483647.
Definition int64_min : Z := -9223372036854775808.
Definition int64_max : Z := 9223372036854775807.
Definition uint32_max : Z := 4294967295.
Definition uint64_max : Z := 18446744073709551615.

(** Two's complement wrap-around at a width of [w] bits. *)
Definition wrap_s (w v : Z) : Z :=
  let m := 2 ^ w in let r := v mod m in if r <? m / 2 then r else r - m.
Definition wrap_u (w v : Z) : Z := v mod 2 ^ w.

Definition in_i16 (v : Z) : Prop := int16_min ≤ v ≤ int16_max.
Definition in_i32 (v : Z) : Prop := int32_min ≤ v ≤ int32_max.
Definition in_i64 (v : Z) : Prop := int64_min ≤ v ≤ int64_max.
Definition in_u64 (v : Z) : Prop := 0 ≤ v ≤ uint64_max.

Ltac unfold_ints :=
  unfold in_i16, in_i32, in_i64, in_u64, int16_min, int16_max, int32_min, int32_max,
    int64_min, int64_max, uint32_max, uint64_max in *.

Lemma wrap_s_32_id v : in_i32 v → wrap_s 32 v = v.
Proof.
  intros H. unfold wrap_s. unfold_ints. change (2 ^ 32 / 2) with 2147483648.
  change (2 ^ 32) with 4294967296.
  destruct (decide (0 ≤ v)).
  - rewrite Z.mod_small by lia. case_match; lia.
  - replace (v mod 4294967296) with (v + 4294967296).
    + case_match; lia.
    + apply Z.mod_unique with (-1); lia.
Qed.

Lemma wrap_s_16_id v : in_i16 v → wrap_s 16 v = v.
Proof.
  intros H. unfold wrap_s. unfold_ints. change (2 ^ 16 / 2) with 32768. change (2 ^ 16) with 65536.
  destruct (decide (0 ≤ v)).
  - rewrite Z.mod_small by lia. case_match; lia.
  - replace (v mod 65536) with (v + 65536).
    + case_match; lia.
    + apply Z.mod_unique with (-1); lia.
Qed.

Lemma wrap_s_64_id v : in_i64 v → wrap_s 64 v = v.
Proof.
  intros H. unfold wrap_s. unfold_ints. change (2 ^ 64 / 2) with 9223372036854775808.
  change (2 ^ 64) with 18446744073709551616.
  destruct (decide (0 ≤ v)).
  - rewrite Z.mod_small by lia. case_match; lia.
  - replace (v mod 18446744073709551616) with (v + 18446744073709551616).
    + case_match; lia.
    + apply Z.mod_unique with (-1); lia.
Qed.

Lemma wrap_s_64_range v : in_i64 (wrap_s 64 v).
Proof.
  unfold wrap_s. unfold_ints. change (2 ^ 64 / 2) with 9223372036854775808.
  change (2 ^ 64) with 18446744073709551616.
  pose proof (Z.mod_pos_bound v 18446744073709551616). case_match; lia.
Qed.

Lemma wrap_s_32_range v : in_i32 (wrap_s 32 v).
Proof.
  unfold wrap_s. unfold_ints. change (2 ^ 32 / 2) with 2147483648.
  change (2 ^ 32) with 4294967296.
  pose proof (Z.mod_pos_bound v 4294967296). case_match; lia.
Qed.

Close Scope Z_scope.

(** ** Lists *)

Lemma SSorted_cons {A} (R : relation A) x l :
  StronglySorted R (x :: l) ↔ (∀ y, y ∈ l → R x y) ∧ StronglySorted R l.
Proof. by rewrite StronglySorted_cons, Forall_forall. Qed.

(** Number of elements that satisfy a boolean predicate. *)
Definition count {A} (p : A → bool) (l : list A) : nat := length (List.filter p l).

Lemma count_nil {A} (p : A → bool) : count p [] = 0.
Proof. done. Qed.

Lemma count_cons {A} (p : A → bool) x l :
  count p (x :: l) = (if p x then 1 else 0) + count p l.
Proof. unfold count. simpl. by destruct (p x). Qed.

Lemma count_app {A} (p : A → bool) l1 l2 : count p (l1 ++ l2) = count p l1 + count p l2.
Proof. induction l1 as [|x l1 IH]; [done|]. simpl. rewrite !count_cons, IH. lia. Qed.

Lemma count_perm {A} (p : A → bool) l1 l2 : l1 ≡ₚ l2 → count p l1 = count p l2.
Proof. induction 1; rewrite ?count_cons; lia. Qed.

Lemma count_le {A} (p q : A → bool) l :
  (∀ x, x ∈ l → p x = true → q x = true) → count p l ≤ count q l.
Proof.
  induction l as [|x l IH]; intros Himp; [done|]. rewrite !count_cons.
  assert (count p l ≤ count q l) by (apply IH; intros; apply Himp; [by right|done]).
  destruct (p x) eqn:E; [|destruct (q x); lia].
  rewrite Himp by (by left || done). lia.
Qed.

Lemma count_andb_l {A} (p q : A → bool) l : count (λ x, p x && q x) l ≤ count p l.
Proof. apply count_le. by intros x _ [? _]%andb_true_iff. Qed.

Lemma count_lt {A} (p q : A → bool) l y :
  (∀ x, x ∈ l → p x = true → q x = true) →
  y ∈ l → p y = false → q y = true → count p l < count q l.
Proof.
  intros Himp (l1 & l2 & ->)%list_elem_of_split Hp Hq.
  rewrite !count_app, !count_cons, Hp, Hq.
  assert (count p l1 ≤ count q l1) by (apply count_le; set_solver).
  assert (count p l2 ≤ count q l2) by (apply count_le; set_solver). lia.
Qed.

Lemma count_zero {A} (p : A → bool) l : (∀ x, x ∈ l → p x = false) → count p l = 0.
Proof.
  induction l as [|x l IH]; intros Hf; [done|].
  rewrite count_cons, Hf by by left. apply IH. set_solver.
Qed.

Lemma count_flat_map {A B} (f : A → list B) (p : B → bool) l :
  count p (flat_map f l) = sum_list_with (λ x, count p (f x)) l.
Proof. induction l as [|x l IH]; [done|]. simpl. by rewrite count_app, IH. Qed.

(** Two elements in order of occurrence, as a two-element subsequence. *)
Lemma sublist_pair {A} (x y : A) l :
  [x; y] `sublist_of` l ↔ ∃ l1 l2 l3, l = l1 ++ x :: l2 ++ y :: l3.
Proof.
  split.
  - intros (l1 & k & -> & Hs)%sublist_cons_l.
    apply sublist_cons_l in Hs as (l2 & l3 & -> & _). by eauto.
  - intros (l1 & l2 & l3 & ->). apply sublist_inserts_l, sublist_skip.
    apply sublist_inserts_l, sublist_skip, sublist_nil_l.
Qed.

Lemma sublist_pair_app {A} (x y : A) l1 l2 :
  [x; y] `sublist_of` (l1 ++ l2) ↔
  [x; y] `sublist_of` l1 ∨ (x ∈ l1 ∧ y ∈ l2) ∨ [x; y] `sublist_of` l2.
Proof.
  rewrite sublist_app_r. split.
  - intros ([|a [|b [|c k]]] & k2 & Heq & H1 & H2); simplify_eq/=.
    + by right; right.
    + right; left. by rewrite <- !singleton_sublist_l.
    + by left.
  - intros [H|[[Hx Hy]|H]].
    + exists [x; y], []. split_and!; [done|done|apply sublist_nil_l].
    + exists [x], [y]. rewrite !singleton_sublist_l. done.
    + exists [], [x; y]. split_and!; [done|apply sublist_nil_l|done].
Qed.

(** A boolean filter keeps every subsequence whose elements it keeps. *)
Lemma sublist_filter {A} (p : A → bool) k l :
  k `sublist_of` List.filter p l ↔ k `sublist_of` l ∧ Forall (λ x, p x = true) k.
Proof.
  split.
  - intros Hk. split.
    + trans (List.filter p l); [done|]. clear Hk. induction l as [|x l IH]; simpl; [done|].
      destruct (p x); [by apply sublist_skip|by apply sublist_cons].
    + apply Forall_forall. intros x Hx.
      assert (x ∈ List.filter p l) as Hin
        by (rewrite <- singleton_sublist_l in *; by trans k).
      rewrite list_elem_of_In, filter_In in Hin. tauto.
  - intros [Hs Hall]. induction Hs as [|x l1 l2 Hs IH|x l1 l2 Hs IH]; simpl.
    + done.
    + apply Forall_cons in Hall as [-> Hall]. by apply sublist_skip, IH.
    + destruct (p x); [by apply sublist_cons, IH|by apply IH].
Qed.

Lemma elem_of_flat_map {A B} (f : A → list B) l y : y ∈ flat_map f l ↔ ∃ x, x ∈ l ∧ y ∈ f x.
Proof. rewrite list_elem_of_In, in_flat_map. by setoid_rewrite list_elem_of_In. Qed.

Lemma existsb_false {A} (f : A → bool) l : existsb f l = false ↔ ∀ x, x ∈ l → f x = false.
Proof.
  rewrite <- not_true_iff_false, existsb_exists. setoid_rewrite <- list_elem_of_In.
  split; intros H.
  - intros x Hx. apply not_true_iff_false. naive_solver.
  - intros (x & Hx & Hf). rewrite H in Hf; done.
Qed.

Lemma sum_list_with_le {A} (f g : A → nat) l :
  (∀ x, x ∈ l → f x ≤ g x) → sum_list_with f l ≤ sum_list_with g l.
Proof.
  induction l as [|x l IH]; intros H; simpl; [done|].
  pose proof (H x ltac:(by left)). specialize (IH ltac:(intros; apply H; by right)). lia.
Qed.

Lemma sum_list_with_lt {A} (f g : A → nat) l y :
  (∀ x, x ∈ l → f x ≤ g x) → y ∈ l → f y < g y → sum_list_with f l < sum_list_with g l.
Proof.
  intros Hle (l1 & l2 & ->)%list_elem_of_split Hlt. rewrite !sum_list_with_app. simpl.
  pose proof (sum_list_with_le f g l1 ltac:(intros; apply Hle; set_solver)).
  pose proof (sum_list_with_le f g l2 ltac:(intros; apply Hle; set_solver)). lia.
Qed.

Lemma flat_map_app_perm {A B} (f h : A → list B) l :
  flat_map (λ a, f a ++ h a) l ≡ₚ flat_map f l ++ flat_map h l.
Proof.
  induction l as [|a l IH]; simpl; [done|]. rewrite IH, <- !app_assoc.
  apply Permutation_app_head. rewrite !app_assoc. apply Permutation_app_tail, Permutation_app_comm.
Qed.

Lemma flat_map_ext_in {A B} (f h : A → list B) l :
  (∀ a, a ∈ l → f a = h a) → flat_map f l = flat_map h l.
Proof.
  induction l as [|a l IH]; intros H; simpl; [done|].
  rewrite (H a), IH; [done| |by left]. intros. apply H. by right.
Qed.

Lemma flat_map_hit {B} k (x : B) n s :
  s ≤ k < s + n → flat_map (λ g, if bool_decide (k = g) then [x] else []) (seq s n) = [x].
Proof.
  revert s. induction n as [|n IH]; intros s H; [lia|]. simpl.
  destruct (decide (k = s)) as [->|Hne].
  - rewrite bool_decide_true by done. simpl. f_equal.
    rewrite (flat_map_ext_in _ (λ _, [])).
    + induction (seq (S s) n); done.
    + intros a Ha%elem_of_seq. rewrite bool_decide_false; [done|lia].
  - rewrite bool_decide_false by done. simpl. apply IH. lia.
Qed.

(** Grouping a list by a bounded key permutes it. *)
Lemma group_perm {A} (f : A → nat) n l :
  (∀ x, x ∈ l → f x < n) →
  flat_map (λ g, List.filter (λ x, bool_decide (f x = g)) l) (seq 0 n) ≡ₚ l.
Proof.
  induction l as [|x l IH]; intros H.
  - rewrite (flat_map_ext_in _ (λ _, [])) by done. by induction (seq 0 n).
  - trans (flat_map (λ g, (if bool_decide (f x = g) then [x] else []) ++
        List.filter (λ x, bool_decide (f x = g)) l) (seq 0 n)).
    { apply reflexive_eq, flat_map_ext_in. intros g _. simpl. by case_bool_decide. }
    rewrite flat_map_app_perm, flat_map_hit by (pose proof (H x ltac:(by left)); lia).
    simpl. constructor. apply IH. intros. apply H. by right.
Qed.

Lemma sublist_pair_elem {A} (x y : A) l : [x; y] `sublist_of` l → x ∈ l ∧ y ∈ l.
Proof. intros (l1 & l2 & l3 & ->)%sublist_pair. set_solver. Qed.
