(* ===== verification/Calendar.v ===== *)
(** * Calendar: days of the proleptic Gregorian calendar

    [std::chrono] and the date library of Arrow count days from 1970-01-01: the day of a
    date, the date of a day, and that they are inverse to each other. *)

From stdpp Require Import base list.
From Stdlib Require Import ZArith Lia.
From S2P Require Import Prelude.

Local Open Scope Z_scope.

(** [std::chrono::sys_days] of a [year_month_day]. *)
Definition days_from_civil (y m d : Z) : Z :=
  let y := if m <=? 2 then y - 1 else y in
  let era := y / 400 in
  let yoe := y - era * 400 in
  let doy := (153 * (if 2 <? m then m - 3 else m + 9) + 2) / 5 + d - 1 in
  let doe := yoe * 365 + yoe / 4 - yoe / 100 + doy in
  era * 146097 + doe - 719468.

(** [std::chrono::year]. *)
Definition chrono_year (y : Z) : Z := wrap_s 16 y.

(** A day of the proleptic Gregorian calendar: year, month and day of the month. *)
Definition civil_from_days (z : Z) : Z * Z * Z :=
  let z := z + 719468 in
  let era := z / 146097 in
  let doe := z - era * 146097 in
  let yoe := (doe - doe / 1460 + doe / 36524 - doe / 146096) / 365 in
  let doy := doe - (365 * yoe + yoe / 4 - yoe / 100) in
  let mp := (5 * doy + 2) / 153 in
  let d := doy - (153 * mp + 2) / 5 + 1 in
  let m := if mp <? 10 then mp + 3 else mp - 9 in
  (yoe + era * 400 + (if m <=? 2 then 1 else 0), m, d).

(** ** The calendar is increasing *)

Lemma step_mono (f : Z → Z) x y : (∀ z, f z ≤ f (z + 1)) → x ≤ y → f x ≤ f y.
Proof.
  intros Hf Hxy. replace y with (x + Z.of_nat (Z.to_nat (y - x))) by lia.
  induction (Z.to_nat (y - x)) as [|n IH]; [by rewrite Z.add_0_r|].
  rewrite Nat2Z.inj_succ. etrans; [exact IH|]. replace (x + Z.succ (Z.of_nat n)) with (x + Z.of_nat n + 1) by lia.
  apply Hf.
Qed.

(** Days before March 1 of a year. *)
Definition year_days (y : Z) : Z :=
  y / 400 * 146097 + ((y - y / 400 * 400) * 365 + (y - y / 400 * 400) / 4 - (y - y / 400 * 400) / 100).

Lemma year_days_step y : year_days y + 365 ≤ year_days (y + 1) ≤ year_days y + 366.
Proof. unfold year_days. Z.to_euclidean_division_equations. lia. Qed.

Lemma days_from_civil_eq y m d :
  days_from_civil y m d
  = year_days (if m <=? 2 then y - 1 else y) + ((153 * (if 2 <? m then m - 3 else m + 9) + 2) / 5 + d - 1) - 719468.
Proof. unfold days_from_civil, year_days. lia. Qed.

(** ** Dates and days *)

Fixpoint all_from (f : Z → bool) (n : nat) (z : Z) : bool :=
  match n with O => true | S n => f z && all_from f n (z + 1) end.

Lemma all_from_elim f n z : all_from f n z = true → ∀ i, z ≤ i < z + Z.of_nat n → f i = true.
Proof.
  revert z. induction n as [|n IH]; intros z E i Hi; [lia|]. cbn [all_from] in E. apply andb_true_iff in E as [E1 E2].
  destruct (decide (i = z)) as [->|]; [done|]. apply (IH (z + 1)); [done|lia].
Qed.

Definition leap (y : Z) : bool := (y mod 4 =? 0) && (negb (y mod 100 =? 0) || (y mod 400 =? 0)).

Definition days_in_month (y m : Z) : Z :=
  if m =? 2 then if leap y then 29 else 28
  else if (m =? 4) || (m =? 6) || (m =? 9) || (m =? 11) then 30 else 31.

Definition valid_date (y m d : Z) : Prop := 1 ≤ m ≤ 12 ∧ 1 ≤ d ≤ days_in_month y m.

(** The years of an era start in March: the month of the calendar for the [mp]-th. *)
Definition month_of (mp : Z) : Z := if mp <? 10 then mp + 3 else mp - 9.
Definition year_of (yoe mp : Z) : Z := yoe + (if month_of mp <=? 2 then 1 else 0).

(** The day of an era as year, month and day, and back. *)
Definition year_start (yoe : Z) : Z := yoe * 365 + yoe / 4 - yoe / 100.
Definition year_length (yoe : Z) : Z := if leap (yoe + 1) then 366 else 365.
Definition month_start (mp : Z) : Z := (153 * mp + 2) / 5.
Definition day_of_era (yoe mp d : Z) : Z := year_start yoe + (month_start mp + d - 1).
Definition era_year (doe : Z) : Z := (doe - doe / 1460 + doe / 36524 - doe / 146096) / 365.
Definition year_month (doy : Z) : Z := (5 * doy + 2) / 153.
Definition era_doy (doe : Z) : Z := doe - year_start (era_year doe).
Definition era_month (doe : Z) : Z := year_month (era_doy doe).
Definition era_day (doe : Z) : Z := era_doy doe - month_start (era_month doe) + 1.

(** *** The years of an era *)

Lemma era_year_mono a b : a ≤ b → era_year a ≤ era_year b.
Proof.
  intros Hab. unfold era_year. apply Z.div_le_mono; [lia|].
  apply (step_mono (λ doe, doe - doe / 1460 + doe / 36524 - doe / 146096)); [|done]. intros z.
  Z.to_euclidean_division_equations. lia.
Qed.

Definition year_ok (yoe : Z) : bool :=
  (era_year (year_start yoe) =? yoe) && (era_year (year_start yoe + year_length yoe - 1) =? yoe) &&
  ((yoe =? 399) || (year_start (yoe + 1) =? year_start yoe + year_length yoe)) &&
  (0 <=? year_start yoe) && (year_start yoe + year_length yoe <=? 146097).
Lemma years_checked : all_from year_ok 400 0 = true.
Proof. vm_compute. reflexivity. Qed.

Lemma year_checked yoe :
  0 ≤ yoe < 400 →
  era_year (year_start yoe) = yoe ∧ era_year (year_start yoe + year_length yoe - 1) = yoe ∧
  (yoe = 399 ∨ year_start (yoe + 1) = year_start yoe + year_length yoe) ∧
  0 ≤ year_start yoe ∧ year_start yoe + year_length yoe ≤ 146097.
Proof.
  intros Hy. pose proof (all_from_elim _ _ _ years_checked yoe ltac:(lia)) as H. unfold year_ok in H.
  rewrite !andb_true_iff, orb_true_iff, !Z.eqb_eq, !Z.leb_le in H. tauto.
Qed.

Lemma era_year_eq yoe doy : 0 ≤ yoe < 400 → 0 ≤ doy < year_length yoe → era_year (year_start yoe + doy) = yoe.
Proof.
  intros Hy Hd. destruct (year_checked yoe Hy) as (E1 & E2 & _).
  pose proof (era_year_mono (year_start yoe) (year_start yoe + doy) ltac:(lia)).
  pose proof (era_year_mono (year_start yoe + doy) (year_start yoe + year_length yoe - 1) ltac:(lia)). lia.
Qed.

(** Every day of an era falls in one of its years. *)
Lemma year_found doe : 0 ≤ doe < 146097 → ∃ yoe doy, 0 ≤ yoe < 400 ∧ 0 ≤ doy < year_length yoe ∧ doe = year_start yoe + doy.
Proof.
  assert (∀ n : nat, (n < 400)%nat → ∀ doe, 0 ≤ doe < year_start (Z.of_nat n) + year_length (Z.of_nat n) →
    ∃ yoe doy, 0 ≤ yoe < 400 ∧ 0 ≤ doy < year_length yoe ∧ doe = year_start yoe + doy) as Hn.
  { induction n as [|n IH]; intros Hlt d Hd.
    - exists 0, d. split; [lia|]. split; [exact Hd|done].
    - destruct (year_checked (Z.of_nat n) ltac:(lia)) as (_ & _ & [?|E] & _); [lia|]. rewrite Nat2Z.inj_succ, <- Z.add_1_r in Hd.
      destruct (decide (d < year_start (Z.of_nat n + 1))); [apply IH; lia|].
      exists (Z.of_nat n + 1), (d - year_start (Z.of_nat n + 1)). lia. }
  intros Hd. apply (Hn 399%nat); [lia|]. exact Hd.
Qed.

(** *** The months of a year *)

Lemma days_in_month_of yoe mp :
  0 ≤ mp < 12 →
  days_in_month (year_of yoe mp) (month_of mp) =
  if mp =? 11 then (if leap (yoe + 1) then 29 else 28) else days_in_month 1 (month_of mp).
Proof.
  intros Hm. assert (mp = 0 ∨ mp = 1 ∨ mp = 2 ∨ mp = 3 ∨ mp = 4 ∨ mp = 5 ∨ mp = 6 ∨ mp = 7 ∨ mp = 8 ∨ mp = 9 ∨ mp = 10 ∨ mp = 11)
    as Hc by lia.
  repeat (destruct Hc as [->|Hc]; [reflexivity|]). by subst mp.
Qed.

(** A year of 365 days, and the last day of a leap year. *)
Definition doy_ok (doy : Z) : bool :=
  let mp := year_month doy in let d := doy - month_start mp + 1 in
  (0 <=? mp) && (mp <? 12) && (1 <=? d) &&
  (if doy =? 365 then (mp =? 11) && (d =? 29) else d <=? (if mp =? 11 then 28 else days_in_month 1 (month_of mp))).
Lemma doys_checked : all_from doy_ok 366 0 = true.
Proof. vm_compute. reflexivity. Qed.

Definition date_ok (mp d : Z) : bool :=
  let doy := month_start mp + d - 1 in
  (year_month doy =? mp) && (0 <=? doy) && (doy <? 366) && (if doy =? 365 then (mp =? 11) && (d =? 29) else true).
Lemma dates_checked :
  all_from (λ mp, all_from (date_ok mp) (if mp =? 11 then 29 else Z.to_nat (days_in_month 1 (month_of mp))) 1) 12 0 = true.
Proof. vm_compute. reflexivity. Qed.

(** Every day of an era is a date, and every date of an era is its day. *)
Lemma era_day_valid doe :
  0 ≤ doe < 146097 →
  0 ≤ era_year doe < 400 ∧ 0 ≤ era_month doe < 12 ∧
  1 ≤ era_day doe ≤ days_in_month (year_of (era_year doe) (era_month doe)) (month_of (era_month doe)).
Proof.
  intros Hd. destruct (year_found doe Hd) as (yoe & doy & Hy & Hdoy & ->).
  assert (era_doy (year_start yoe + doy) = doy) as E by (unfold era_doy; rewrite era_year_eq by done; lia).
  unfold era_day, era_month. rewrite E, era_year_eq by done.
  assert (0 ≤ doy < 366) as Hr by (unfold year_length in Hdoy; case_match; lia).
  pose proof (all_from_elim _ _ _ doys_checked doy ltac:(lia)) as Hok. unfold doy_ok in Hok. cbv zeta in Hok.
  rewrite !andb_true_iff, !Z.leb_le, Z.ltb_lt in Hok. destruct Hok as (((? & ?) & ?) & Hl).
  split; [done|]. split; [done|]. split; [done|]. rewrite days_in_month_of by done. unfold year_length in Hdoy.
  destruct (Z.eqb_spec doy 365) as [->|].
  - apply andb_true_iff in Hl as [-> Hl]. apply Z.eqb_eq in Hl. destruct (leap (yoe + 1)); lia.
  - apply Z.leb_le in Hl. destruct (year_month doy =? 11), (leap (yoe + 1)); lia.
Qed.

Lemma day_of_era_inv yoe mp d :
  0 ≤ yoe < 400 → 0 ≤ mp < 12 → 1 ≤ d ≤ days_in_month (year_of yoe mp) (month_of mp) →
  let doe := day_of_era yoe mp d in
  0 ≤ doe < 146097 ∧ era_year doe = yoe ∧ era_month doe = mp ∧ era_day doe = d.
Proof.
  intros Hy Hm Hd. rewrite days_in_month_of in Hd by done.
  assert (1 ≤ d < 1 + Z.of_nat (if mp =? 11 then 29 else Z.to_nat (days_in_month 1 (month_of mp)))) as Hr.
  { destruct (mp =? 11); [destruct (leap (yoe + 1)); lia|lia]. }
  pose proof (all_from_elim _ _ _ dates_checked mp ltac:(lia)) as Hok. cbv beta in Hok.
  pose proof (all_from_elim _ _ _ Hok d Hr) as Hdok. unfold date_ok in Hdok. cbv zeta in Hdok.
  rewrite !andb_true_iff, Z.eqb_eq, Z.leb_le, Z.ltb_lt in Hdok. destruct Hdok as (((E & ?) & ?) & Hl).
  set (doy := month_start mp + d - 1) in *.
  assert (0 ≤ doy < year_length yoe) as Hdoy.
  { unfold year_length. destruct (Z.eqb_spec doy 365) as [->|]; [|destruct (leap (yoe + 1)); lia].
    apply andb_true_iff in Hl as [Hmp Hl]. rewrite Hmp in Hd. apply Z.eqb_eq in Hl as ->. destruct (leap (yoe + 1)); lia. }
  destruct (year_checked yoe Hy) as (_ & _ & _ & ? & ?). cbv zeta.
  change (day_of_era yoe mp d) with (year_start yoe + doy).
  assert (era_doy (year_start yoe + doy) = doy) as Ed by (unfold era_doy; rewrite era_year_eq by done; lia).
  unfold era_day, era_month. rewrite Ed, E, era_year_eq by done. unfold doy. lia.
Qed.

Lemma civil_from_days_eq z era doe :
  z + 719468 = era * 146097 + doe → 0 ≤ doe < 146097 →
  civil_from_days z = (year_of (era_year doe) (era_month doe) + era * 400, month_of (era_month doe), era_day doe).
Proof.
  intros Hz Hd. unfold civil_from_days. replace ((z + 719468) / 146097) with era by (apply (Z.div_unique _ _ _ doe); lia).
  replace (z + 719468 - era * 146097) with doe by lia. fold (era_year doe). cbv zeta.
  replace (doe - (365 * era_year doe + era_year doe / 4 - era_year doe / 100)) with (era_doy doe)
    by (unfold era_doy, year_start; lia).
  fold (year_month (era_doy doe)). fold (era_month doe). fold (month_of (era_month doe)).
  f_equal. f_equal. unfold year_of. lia.
Qed.

Lemma days_from_civil_era era yoe mp d :
  0 ≤ yoe < 400 → 0 ≤ mp < 12 →
  days_from_civil (year_of yoe mp + era * 400) (month_of mp) d = era * 146097 + day_of_era yoe mp d - 719468.
Proof.
  intros Hy Hm. unfold days_from_civil, year_of. set (y' := if month_of mp <=? 2 then _ - 1 else _).
  assert (y' = yoe + era * 400) as -> by (unfold y'; destruct (month_of mp <=? 2); lia).
  replace ((yoe + era * 400) / 400) with era by (apply (Z.div_unique _ _ _ yoe); lia).
  replace (yoe + era * 400 - era * 400) with yoe by lia.
  assert ((if 2 <? month_of mp then month_of mp - 3 else month_of mp + 9) = mp) as ->.
  { unfold month_of. destruct (Z.ltb_spec mp 10).
    - replace (2 <? mp + 3) with true by (symmetry; apply Z.ltb_lt; lia). lia.
    - replace (2 <? mp - 9) with false by (symmetry; apply Z.ltb_ge; lia). lia. }
  unfold day_of_era, year_start, month_start. lia.
Qed.

Lemma leap_era y era : leap (y + era * 400) = leap y.
Proof.
  unfold leap. rewrite Z_mod_plus_full. replace (era * 400) with (era * 4 * 100) at 2 by lia. rewrite Z_mod_plus_full.
  replace (era * 400) with (era * 100 * 4) by lia. by rewrite Z_mod_plus_full.
Qed.
Lemma days_in_month_era y era m : days_in_month (y + era * 400) m = days_in_month y m.
Proof. unfold days_in_month. by rewrite leap_era. Qed.

(** A day is the day of the date it falls on, which is a valid one. *)
Lemma civil_of_day z :
  let '(y, m, d) := civil_from_days z in valid_date y m d ∧ days_from_civil y m d = z.
Proof.
  pose (era := (z + 719468) / 146097). pose (doe := (z + 719468) mod 146097).
  assert (z + 719468 = era * 146097 + doe) as Hz by (unfold era, doe; pose proof (Z.div_mod (z + 719468) 146097); lia).
  assert (0 ≤ doe < 146097) as Hd by (apply Z.mod_pos_bound; lia). clearbody era doe.
  rewrite (civil_from_days_eq z era doe) by done.
  destruct (era_day_valid doe Hd) as (? & ? & ?). split.
  - split; [unfold month_of; destruct (Z.ltb_spec (era_month doe) 10); lia|]. rewrite days_in_month_era. lia.
  - rewrite days_from_civil_era by lia. unfold day_of_era, era_day, era_doy. lia.
Qed.

(** The month of a year that starts in March. *)
Lemma month_of_inv m : 1 ≤ m ≤ 12 → ∃ mp, 0 ≤ mp < 12 ∧ m = month_of mp.
Proof.
  intros Hm. exists (if 2 <? m then m - 3 else m + 9). unfold month_of.
  destruct (Z.ltb_spec 2 m); (split; [lia|]); case_match; lia.
Qed.

Lemma day_of_civil y m d : valid_date y m d → civil_from_days (days_from_civil y m d) = (y, m, d).
Proof.
  intros [Hm Hd]. destruct (month_of_inv m Hm) as (mp & Hmp & ->).
  assert (∃ era yoe, 0 ≤ yoe < 400 ∧ y = year_of yoe mp + era * 400) as (era & yoe & Hy & ->).
  { pose (y' := y - (if month_of mp <=? 2 then 1 else 0)). exists (y' / 400), (y' mod 400).
    split; [apply Z.mod_pos_bound; lia|]. unfold year_of. pose proof (Z.div_mod y' 400). unfold y' in *. lia. }
  rewrite days_in_month_era in Hd.
  destruct (day_of_era_inv yoe mp d Hy Hmp Hd) as (? & E1 & E2 & E3). rewrite days_from_civil_era by done.
  rewrite (civil_from_days_eq _ era (day_of_era yoe mp d)) by lia. by rewrite E1, E2, E3.
Qed.

(** A date lies in its year. *)
Lemma year_bounds y m d :
  valid_date y m d → days_from_civil y 1 1 ≤ days_from_civil y m d < days_from_civil (y + 1) 1 1.
Proof.
  intros [Hm Hd]. assert (d ≤ 31) by (unfold days_in_month in Hd; repeat case_match; lia).
  rewrite !days_from_civil_eq. change (if 1 <=? 2 then y - 1 else y) with (y - 1).
  change (if 1 <=? 2 then y + 1 - 1 else y + 1) with (y + 1 - 1). change ((153 * (if 2 <? 1 then 1 - 3 else 1 + 9) + 2) / 5) with 306.
  pose proof (year_days_step (y - 1)) as Hs. replace (y - 1 + 1) with y in Hs by lia. replace (y + 1 - 1) with y by lia.
  destruct (Z.leb_spec m 2).
  - replace (2 <? m) with false by (symmetry; apply Z.ltb_ge; lia).
    assert (306 ≤ (153 * (m + 9) + 2) / 5 ≤ 337) by (Z.to_euclidean_division_equations; lia). lia.
  - replace (2 <? m) with true by (symmetry; apply Z.ltb_lt; lia).
    assert (0 ≤ (153 * (m - 3) + 2) / 5 ≤ 275) by (Z.to_euclidean_division_equations; lia). lia.
Qed.

Lemma new_year_mono a b : a ≤ b → days_from_civil a 1 1 ≤ days_from_civil b 1 1.
Proof.
  apply (step_mono (λ y, days_from_civil y 1 1)). intros y. rewrite !days_from_civil_eq.
  change (if 1 <=? 2 then ?a else ?b) with a. pose proof (year_days_step (y - 1)).
  replace (y + 1 - 1) with (y - 1 + 1) by lia. lia.
Qed.

(** *** Lengths of years and months *)

Lemma year_days_leap y : year_days y = year_days (y - 1) + if leap y then 366 else 365.
Proof.
  unfold year_days, leap.
  destruct (Z.eqb_spec (y mod 4) 0), (Z.eqb_spec (y mod 100) 0), (Z.eqb_spec (y mod 400) 0); cbn;
    Z.to_euclidean_division_equations; lia.
Qed.

Lemma day_of_month y m d : days_from_civil y m d = days_from_civil y m 1 + (d - 1).
Proof. rewrite !days_from_civil_eq. lia. Qed.

(** The first day of the next month, and of the next year. *)
Lemma next_month y m : 1 ≤ m < 12 → days_from_civil y (m + 1) 1 = days_from_civil y m 1 + days_in_month y m.
Proof.
  intros Hm. pose proof (year_days_leap y) as Hl. rewrite !days_from_civil_eq. unfold days_in_month.
  remember (m + 1) as m' eqn:E.
  assert (m = 1 ∨ m = 2 ∨ m = 3 ∨ m = 4 ∨ m = 5 ∨ m = 6 ∨ m = 7 ∨ m = 8 ∨ m = 9 ∨ m = 10 ∨ m = 11) as Hc by lia.
  clear Hm. repeat destruct Hc as [->|Hc]; try subst m; vm_compute in E; subst m';
    cbn -[year_days leap Z.sub] in *; destruct (leap y); Z.to_euclidean_division_equations; lia.
Qed.

Lemma next_year y : days_from_civil (y + 1) 1 1 = days_from_civil y 12 1 + 31.
Proof.
  rewrite !days_from_civil_eq. change (if 1 <=? 2 then ?a else ?b) with a. change (if 12 <=? 2 then ?a else ?b) with b.
  replace (y + 1 - 1) with y by lia. change ((153 * (if 2 <? 12 then 12 - 3 else 12 + 9) + 2) / 5) with 275.
  change ((153 * (if 2 <? 1 then 1 - 3 else 1 + 9) + 2) / 5) with 306. lia.
Qed.

Lemma year_length_eq y : days_from_civil (y + 1) 1 1 = days_from_civil y 1 1 + if leap y then 366 else 365.
Proof.
  rewrite !days_from_civil_eq. change (if 1 <=? 2 then ?a else ?b) with a. replace (y + 1 - 1) with y by lia.
  rewrite (year_days_leap y). lia.
Qed.

Lemma days_in_month_bounds y m : 28 ≤ days_in_month y m ≤ 31.
Proof. unfold days_in_month. repeat case_match; lia. Qed.

(** Months follow each other. *)
Lemma month_mono y m m' : 1 ≤ m → m ≤ m' → m' ≤ 12 → days_from_civil y m 1 ≤ days_from_civil y m' 1.
Proof.
  intros H1 Hm H12. replace m' with (m + Z.of_nat (Z.to_nat (m' - m))) in * by lia.
  induction (Z.to_nat (m' - m)) as [|n IH]; [rewrite Z.add_0_r; lia|]. rewrite Nat2Z.inj_succ in *.
  replace (m + Z.succ (Z.of_nat n)) with (m + Z.of_nat n + 1) in * by lia. rewrite next_month by lia.
  pose proof (days_in_month_bounds y (m + Z.of_nat n)). etrans; [apply IH; lia|lia].
Qed.

Lemma before_next_month y m d m' :
  valid_date y m d → m < m' → m' ≤ 12 → days_from_civil y m d < days_from_civil y m' 1.
Proof.
  intros [Hm Hd] Hlt H12. pose proof (month_mono y (m + 1) m' ltac:(lia) ltac:(lia) H12) as Hle.
  rewrite next_month in Hle by lia. rewrite day_of_month. lia.
Qed.

(** The year of a day. *)
Lemma year_unique y z :
  days_from_civil y 1 1 ≤ z < days_from_civil (y + 1) 1 1 → ∃ m d, civil_from_days z = (y, m, d).
Proof.
  intros Hz. pose proof (civil_of_day z) as Hc. destruct (civil_from_days z) as [[y' m] d]. destruct Hc as [Hv <-].
  pose proof (year_bounds y' m d Hv) as Hb. exists m, d. f_equal. f_equal.
  destruct (Z.lt_trichotomy y' y) as [?|[->|?]]; [|done|].
  - pose proof (new_year_mono (y' + 1) y ltac:(lia)). lia.
  - pose proof (new_year_mono (y + 1) y' ltac:(lia)). lia.
Qed.
