(* ===== verification/OrderedMap.v ===== *)
(** * OrderedMap: [std::map] as the list of its entries in key order

    [std::map] iterates in increasing key order, and the planner relies on it
    (layers of a partition are visited by increasing sequence number), so a map
    is the list of its key/value pairs.  [operator[]] default-constructs a
    missing value before the caller modifies it: that is [mupdate]. *)

From stdpp Require Import base list sorting strings.
From Stdlib Require Import ZArith Lia.
From S2P Require Import Prelude.

(** A key type with the three-way comparison [std::less] induces. *)
Class KeyOrd (K : Type) := {
  kcmp : K → K → comparison;
  kcmp_eq : ∀ a b, kcmp a b = Eq ↔ a = b;
  kcmp_opp : ∀ a b, kcmp b a = CompOpp (kcmp a b);
  kcmp_trans : ∀ a b c, kcmp a b = Lt → kcmp b c = Lt → kcmp a c = Lt;
}.

Lemma string_compare_refl (s : string) : String.compare s s = Eq.
Proof.
  induction s as [|c s IH]; simpl; [done|].
  unfold Ascii.compare. by rewrite N.compare_refl.
Qed.

Lemma string_compare_Lt_le (a b : string) :
  String.compare a b = Lt ↔ String.le a b ∧ a ≠ b.
Proof.
  unfold String.le, String.leb. split.
  - intros Hlt. rewrite Hlt. split; [done|]. intros ->.
    by rewrite string_compare_refl in Hlt.
  - intros [H Hne]. destruct (String.compare a b) eqn:E; [|done|done].
    by apply String.compare_eq_iff in E.
Qed.

#[export] Program Instance KeyOrd_string : KeyOrd string := {| kcmp := String.compare |}.
Next Obligation.
  intros a b. split; [apply String.compare_eq_iff|intros ->; apply string_compare_refl].
Qed.
Next Obligation. intros a b. apply String.compare_antisym. Qed.
Next Obligation.
  intros a b c. rewrite !string_compare_Lt_le. intros [H1 Hne] [H2 Hne']. split.
  - by trans b.
  - intros ->. by assert (c = b) as -> by by apply (anti_symm String.le).
Qed.

#[export] Program Instance KeyOrd_Z : KeyOrd Z := {| kcmp := Z.compare |}.
Next Obligation. intros a b. apply Z.compare_eq_iff. Qed.
Next Obligation. intros a b. apply Z.compare_antisym. Qed.
Next Obligation. intros a b c. rewrite !Z.compare_lt_iff. lia. Qed.

Section omap.
Context {K V : Type} `{KeyOrd K}.

Definition klt (a b : K) : Prop := kcmp a b = Lt.

Fixpoint mfind (k : K) (m : list (K * V)) : option V :=
  match m with
  | [] => None
  | (k', v) :: m =>
      match kcmp k k' with Eq => Some v | Lt => None | Gt => mfind k m end
  end.

(** [f(map[k])]: [f] gets [None] when the entry had to be created. *)
Fixpoint mupdate (f : option V → V) (k : K) (m : list (K * V)) : list (K * V) :=
  match m with
  | [] => [(k, f None)]
  | (k', v) :: m' =>
      match kcmp k k' with
      | Eq => (k', f (Some v)) :: m'
      | Lt => (k, f None) :: m
      | Gt => (k', v) :: mupdate f k m'
      end
  end.

Definition minsert (k : K) (v : V) (m : list (K * V)) : list (K * V) :=
  mupdate (λ _, v) k m.

Definition keys_sorted (m : list (K * V)) : Prop := StronglySorted klt m.*1.

Lemma kcmp_refl k : kcmp k k = Eq.
Proof. by apply kcmp_eq. Qed.

Lemma kcmp_Gt a b : kcmp a b = Gt ↔ kcmp b a = Lt.
Proof. rewrite (kcmp_opp a b). by destruct (kcmp a b). Qed.

Lemma klt_irrefl k : ¬ klt k k.
Proof. unfold klt. by rewrite kcmp_refl. Qed.

Lemma mfind_mupdate_eq f k m : mfind k (mupdate f k m) = Some (f (mfind k m)).
Proof.
  induction m as [|[k' v] m IH]; simpl; [by rewrite kcmp_refl|].
  destruct (kcmp k k') eqn:E; simpl; by rewrite ?E, ?kcmp_refl.
Qed.

Lemma mfind_mupdate_ne f k k' m :
  k ≠ k' → keys_sorted m → mfind k' (mupdate f k m) = mfind k' m.
Proof.
  unfold keys_sorted.
  intros Hne. induction m as [|[k0 v] m IH]; simpl; intros Hs.
  - destruct (kcmp k' k) eqn:E; [|done|done]. apply kcmp_eq in E. congruence.
  - apply SSorted_cons in Hs as [Hall Hs].
    destruct (kcmp k k0) eqn:E; simpl.
    + apply kcmp_eq in E as ->. destruct (kcmp k' k0) eqn:E'; [|done|done].
      apply kcmp_eq in E'. congruence.
    + destruct (kcmp k' k) eqn:E'; [apply kcmp_eq in E'; congruence| |done].
      by rewrite (kcmp_trans _ _ _ E' E).
    + destruct (kcmp k' k0); auto.
Qed.

Lemma mupdate_keys f k m x : x ∈ (mupdate f k m).*1 ↔ x = k ∨ x ∈ m.*1.
Proof.
  induction m as [|[k' v] m IH]; simpl.
  - rewrite list_elem_of_singleton, elem_of_nil. tauto.
  - destruct (kcmp k k') eqn:E; simpl; rewrite !elem_of_cons.
    + apply kcmp_eq in E as ->. tauto.
    + tauto.
    + rewrite IH. tauto.
Qed.

Lemma mupdate_sorted f k m : keys_sorted m → keys_sorted (mupdate f k m).
Proof.
  unfold keys_sorted. induction m as [|[k' v] m IH]; simpl; intros Hs.
  - repeat constructor.
  - pose proof Hs as Hs0. apply SSorted_cons in Hs as [Hall Hs].
    destruct (kcmp k k') eqn:E; simpl; [done| |].
    + apply SSorted_cons. split; [|done].
      intros x [->|Hx]%elem_of_cons; [done|].
      eapply kcmp_trans; [done|]. by apply Hall.
    + apply SSorted_cons. split; [|auto].
      intros x [->|Hx]%mupdate_keys; [by apply kcmp_Gt|by apply Hall].
Qed.

Lemma mfind_elem_of m k v : keys_sorted m → mfind k m = Some v ↔ (k, v) ∈ m.
Proof.
  unfold keys_sorted. induction m as [|[k' v'] m IH]; simpl; intros Hs.
  - split; [done|]. by intros ?%elem_of_nil.
  - apply SSorted_cons in Hs as [Hall Hs]. rewrite elem_of_cons.
    destruct (kcmp k k') eqn:E.
    + apply kcmp_eq in E as ->. split; [intros [=->]; by left|].
      intros [[=->]|Hin]; [done|].
      destruct (klt_irrefl k'). apply Hall. apply list_elem_of_fmap. by exists (k', v).
    + split; [done|]. intros [[=-> ->]|Hin]; [by rewrite kcmp_refl in E|].
      destruct (klt_irrefl k). eapply kcmp_trans; [exact E|]. apply Hall.
      apply list_elem_of_fmap. by exists (k, v).
    + rewrite IH by done. split; [by right|]. intros [[=-> ->]|Hin]; [|done].
      by rewrite kcmp_refl in E.
Qed.

(** Everything stored in a map, when an update adds [xs] to one value. *)
Lemma mupdate_flat_map {X} (g : V → list X) f k m xs :
  (∀ o, g (f o) ≡ₚ (match o with Some v => g v | None => [] end) ++ xs) →
  flat_map (λ kv, g kv.2) (mupdate f k m) ≡ₚ flat_map (λ kv, g kv.2) m ++ xs.
Proof.
  intros Hf. induction m as [|[k' v] m IH]; simpl.
  - by rewrite (Hf None), app_nil_r.
  - destruct (kcmp k k'); simpl.
    + rewrite (Hf (Some v)), <- !app_assoc. apply Permutation_app_head, Permutation_app_comm.
    + rewrite (Hf None). simpl. apply Permutation_app_comm.
    + by rewrite IH, app_assoc.
Qed.

Lemma minsert_new k v m : mfind k m = None → keys_sorted m → minsert k v m ≡ₚ (k, v) :: m.
Proof.
  unfold minsert, keys_sorted. induction m as [|[k' v'] m IH]; simpl; intros Hf Hs; [done|].
  apply SSorted_cons in Hs as [_ Hs]. destruct (kcmp k k'); [done|done|].
  rewrite IH by done. apply perm_swap.
Qed.

Lemma keys_sorted_nil : keys_sorted [].
Proof. constructor. Qed.
End omap.

Create HintDb omap.
#[export] Hint Resolve keys_sorted_nil mupdate_sorted : omap.

(** ** The order itself, and [std::optional] and [std::pair] of ordered types *)

Section kle.
Context {K : Type} `{KeyOrd K}.

Definition kle (a b : K) : Prop := kcmp a b ≠ Gt.
Definition kltb (a b : K) : bool := match kcmp a b with Lt => true | _ => false end.

Lemma kltb_true (a b : K) : kltb a b = true ↔ kcmp a b = Lt.
Proof. unfold kltb. by destruct (kcmp a b). Qed.

Lemma kltb_false (a b : K) : kltb a b = false ↔ kle b a.
Proof. unfold kltb, kle. rewrite (kcmp_opp a b). by destruct (kcmp a b). Qed.

Lemma kle_cases (a b : K) : kle a b ↔ kcmp a b = Lt ∨ a = b.
Proof. unfold kle. rewrite <- (kcmp_eq a b). destruct (kcmp a b); intuition congruence. Qed.

Lemma kle_lt_trans (a b c : K) : kle a b → kcmp b c = Lt → kcmp a c = Lt.
Proof. rewrite kle_cases. intros [?| ->]; [|done]. by apply kcmp_trans. Qed.

Lemma klt_le_trans (a b c : K) : kcmp a b = Lt → kle b c → kcmp a c = Lt.
Proof. rewrite kle_cases. intros ? [?| <-]; [|done]. by eapply kcmp_trans. Qed.

#[export] Instance kle_preorder : PreOrder kle.
Proof.
  split.
  - intros a. apply kle_cases. by right.
  - intros a b c Hab Hbc. apply kle_cases. apply kle_cases in Hab as [Hab| ->].
    + left. by eapply klt_le_trans.
    + by apply kle_cases.
Qed.

Lemma kle_total (a b : K) : kle a b ∨ kcmp b a = Lt.
Proof. unfold kle. rewrite (kcmp_opp a b). destruct (kcmp a b); naive_solver. Qed.

Lemma kle_antisymm (a b : K) : kle a b → kle b a → a = b.
Proof.
  rewrite kle_cases. intros [Hlt| ->] Hle; [|done]. exfalso. apply Hle.
  by rewrite (kcmp_opp a b), Hlt.
Qed.
End kle.

(** [std::nullopt] is less than every value. *)
#[export] Program Instance KeyOrd_option `{KeyOrd K} : KeyOrd (option K) := {|
  kcmp a b := match a, b with
              | None, None => Eq
              | None, Some _ => Lt
              | Some _, None => Gt
              | Some a, Some b => kcmp a b
              end |}.
Next Obligation. intros K ? [a|] [b|]; try done. rewrite kcmp_eq. split; congruence. Qed.
Next Obligation. intros K ? [a|] [b|]; try done. apply kcmp_opp. Qed.
Next Obligation. intros K ? [a|] [b|] [c|]; try done. apply kcmp_trans. Qed.

(** Lexicographic. *)
#[export] Program Instance KeyOrd_pair `{KeyOrd K1, KeyOrd K2} : KeyOrd (K1 * K2) := {|
  kcmp a b := match kcmp (fst a) (fst b) with Eq => kcmp (snd a) (snd b) | Lt => Lt | Gt => Gt end |}.
Next Obligation.
  intros K1 ? K2 ? [a a'] [b b']; simpl. destruct (kcmp a b) eqn:E.
  - apply kcmp_eq in E as ->. rewrite kcmp_eq. split; congruence.
  - split; [done|]. intros [= -> ->]. by rewrite kcmp_refl in E.
  - split; [done|]. intros [= -> ->]. by rewrite kcmp_refl in E.
Qed.
Next Obligation.
  intros K1 ? K2 ? [a a'] [b b']; simpl. rewrite (kcmp_opp a b).
  destruct (kcmp a b); simpl; [apply kcmp_opp|done|done].
Qed.
Next Obligation.
  intros K1 ? K2 ? [a a'] [b b'] [c c']; simpl.
  destruct (kcmp a b) eqn:E1; [apply kcmp_eq in E1 as ->| |done].
  - destruct (kcmp b c); [apply kcmp_trans|done|done].
  - destruct (kcmp b c) eqn:E2; [apply kcmp_eq in E2 as ->; by rewrite E1| |done].
    by rewrite (kcmp_trans _ _ _ E1 E2).
Qed.

(** [std::set] and [std::vector] compare element by element. *)
Fixpoint list_cmp `{KeyOrd K} (a b : list K) : comparison :=
  match a, b with
  | [], [] => Eq
  | [], _ :: _ => Lt
  | _ :: _, [] => Gt
  | x :: a, y :: b => match kcmp x y with Eq => list_cmp a b | Lt => Lt | Gt => Gt end
  end.

#[export] Program Instance KeyOrd_list `{KeyOrd K} : KeyOrd (list K) := {| kcmp := list_cmp |}.
Next Obligation.
  intros K ? a. induction a as [|x a IH]; intros [|y b]; simpl; try done.
  destruct (kcmp x y) eqn:E.
  - apply kcmp_eq in E as ->. rewrite IH. split; congruence.
  - split; [done|]. intros [= -> ->]. by rewrite kcmp_refl in E.
  - split; [done|]. intros [= -> ->]. by rewrite kcmp_refl in E.
Qed.
Next Obligation.
  intros K ? a. induction a as [|x a IH]; intros [|y b]; simpl; try done.
  rewrite (kcmp_opp x y). destruct (kcmp x y); simpl; [apply IH|done|done].
Qed.
Next Obligation.
  intros K ? a. induction a as [|x a IH]; intros [|y b] [|z c]; simpl; try done.
  destruct (kcmp x y) eqn:E1; [apply kcmp_eq in E1 as ->| |done].
  - destruct (kcmp y z); [apply IH|done|done].
  - destruct (kcmp y z) eqn:E2; [apply kcmp_eq in E2 as ->; by rewrite E1| |done].
    by rewrite (kcmp_trans _ _ _ E1 E2).
Qed.

(** ** [std::set], as its elements in order *)

Section mset.
Context `{KeyOrd K}.

Definition mset (ids : list K) : list K := (foldl (λ m id, minsert id () m) [] ids).*1.

Lemma mset_sorted ids : StronglySorted klt (mset ids).
Proof.
  unfold mset. assert (∀ m : list (K * unit), keys_sorted m → keys_sorted (foldl (λ m id, minsert id () m) m ids)) as Hg.
  { induction ids as [|id ids IH]; intros m Hm; simpl; [done|]. by apply IH, mupdate_sorted. }
  apply Hg, keys_sorted_nil.
Qed.

Lemma elem_of_mset ids x : x ∈ mset ids ↔ x ∈ ids.
Proof.
  unfold mset. assert (∀ m : list (K * unit), x ∈ (foldl (λ m id, minsert id () m) m ids).*1 ↔ x ∈ ids ∨ x ∈ m.*1) as Hg.
  { induction ids as [|id ids IH]; intros m; simpl.
    - rewrite elem_of_nil. tauto.
    - rewrite IH. unfold minsert. rewrite mupdate_keys, elem_of_cons. tauto. }
  rewrite Hg. simpl. rewrite elem_of_nil. tauto.
Qed.

(** Two ascending sequences of the same elements are the same. *)
Lemma sorted_same (a b : list K) :
  StronglySorted klt a → StronglySorted klt b → (∀ x, x ∈ a ↔ x ∈ b) → a = b.
Proof.
  intros Ha. revert b. induction Ha as [|x a Ha IH Hx]; intros b Hb E.
  { destruct b as [|y b]; [done|]. exfalso. by apply (proj1 (elem_of_nil y)), E; left. }
  destruct Hb as [|y b Hb Hy]; [exfalso; by apply (proj1 (elem_of_nil x)), E; left|].
  rewrite Forall_forall in Hx, Hy. setoid_rewrite elem_of_cons in E.
  assert (∀ u v, klt u v → klt v u → False) as Hasym.
  { intros u v H1 H2. apply (klt_irrefl u). by apply (kcmp_trans u v u). }
  assert (x = y) as ->.
  { destruct (proj1 (E x) ltac:(by left)) as [?|Hxb]; [done|].
    destruct (proj2 (E y) ltac:(by left)) as [?|Hya]; [done|].
    destruct (Hasym x y); [by apply Hx|by apply Hy]. }
  f_equal. apply IH; [done|]. intros z. split; intros Hz.
  - destruct (proj1 (E z) ltac:(by right)) as [->|?]; [|done]. by destruct (klt_irrefl y (Hx y Hz)).
  - destruct (proj2 (E z) ltac:(by right)) as [->|?]; [|done]. by destruct (klt_irrefl y (Hy y Hz)).
Qed.
End mset.
