(* ===== verification/Streams.v ===== *)
(** * Streams: pull streams of batches

    [IStream<T>] of [iceberg/streams/arrow/stream.h]: an object whose [ReadNext]
    gives the next element, null at the end, or throws.  The reader of a stream
    observes a finite sequence of elements that ends in null or in an exception;
    [stream] is that sequence.  A class that implements [IStream] is a state with
    a [ReadNext] of its own, and [implements] relates it to the sequence it
    delivers. *)

From stdpp Require Import base list.
From S2P Require Import Prelude.

Inductive stream (A : Type) :=
| Done
| Fail (e : failure)
| Next (a : A) (rest : stream A).
Arguments Done {A}.
Arguments Fail {A} _.
Arguments Next {A} _ _.

(** [StreamPtr<A>::ReadNext]. *)
Definition ReadNext {A} (s : stream A) : result (option A * stream A) :=
  match s with
  | Done => Ok (None, Done)
  | Fail e => Err e
  | Next a rest => Ok (Some a, rest)
  end.

(** Reading to the end. *)
Fixpoint run {A} (s : stream A) : result (list A) :=
  match s with
  | Done => Ok []
  | Fail e => Err e
  | Next a rest => let! l := run rest in Ok (a :: l)
  end.

Fixpoint of_list {A} (l : list A) : stream A :=
  match l with [] => Done | a :: l => Next a (of_list l) end.

(** The elements of [s], then those of [t]. *)
Fixpoint stream_app {A} (s t : stream A) : stream A :=
  match s with
  | Done => t
  | Fail e => Fail e
  | Next a s => Next a (stream_app s t)
  end.

(** ** Classes that read one element of their input for each of their own *)

Section applier.
Context {St A B : Type} (f : St → A → result (B * St)).

Fixpoint smap (st : St) (s : stream A) : stream B :=
  match s with
  | Done => Done
  | Fail e => Fail e
  | Next a s =>
      match f st a with
      | Ok (b, st') => Next b (smap st' s)
      | Err e => Fail e
      end
  end.

(** The [ReadNext] of such a class: its own state and its input. *)
Definition applier_ReadNext (x : St * stream A) : result (option B * (St * stream A)) :=
  let '(st, input) := x in
  let! '(batch, input) := ReadNext input in
  match batch with
  | None => Ok (None, (st, input))
  | Some a => let! '(b, st) := f st a in Ok (Some b, (st, input))
  end.
End applier.

(** ** Refinement *)

(** [abs x] is the sequence that the object [x] delivers. *)
Definition implements {X A} (next : X → result (option A * X)) (abs : X → stream A) : Prop :=
  ∀ x, match next x with
       | Err e => abs x = Fail e
       | Ok (None, _) => abs x = Done
       | Ok (Some a, x') => abs x = Next a (abs x')
       end.

Lemma applier_implements {St A B} (f : St → A → result (B * St)) :
  implements (applier_ReadNext f) (λ x, smap f x.1 x.2).
Proof.
  intros [st [|e|a s]]; cbn; [done|done|]. by destruct (f st a) as [[b st']|e].
Qed.

(** ** Reading to the end *)

Section laws.
Context {A : Type}.

Lemma run_of_list (l : list A) : run (of_list l) = Ok l.
Proof. induction l as [|a l IH]; simpl; [done|]. by rewrite IH. Qed.

Lemma run_app (s t : stream A) : run (stream_app s t) = let! l := run s in let! l' := run t in Ok (l ++ l').
Proof.
  induction s as [|e|a s IH]; simpl; [by destruct (run t)|done|]. rewrite IH.
  destruct (run s); simpl; [|done]. by destruct (run t).
Qed.

Lemma run_Ok (s : stream A) l : run s = Ok l ↔ s = of_list l.
Proof.
  split; [|intros ->; apply run_of_list]. revert l. induction s as [|e|a s IH]; intros l; simpl; [by intros [= <-]|done|].
  intros (l' & Hl & [= <-])%rbind_Ok_inv. simpl. by rewrite (IH l').
Qed.

Lemma of_list_app (l l' : list A) : of_list (l ++ l') = stream_app (of_list l) (of_list l').
Proof. induction l as [|a l IH]; simpl; [done|]. by rewrite IH. Qed.
End laws.

Section smap_laws.
Context {St A B : Type} (f : St → A → result (B * St)) (I : St → Prop) (P : A → Prop) (Q : A → B → Prop).
Context (Hstep : ∀ st a, I st → P a → ∃ b st', f st a = Ok (b, st') ∧ Q a b ∧ I st').

(** An applier that keeps an invariant delivers one element per input element. *)
Lemma smap_spec st l : I st → Forall P l → ∃ l', smap f st (of_list l) = of_list l' ∧ Forall2 Q l l'.
Proof.
  intros Hi Hl. revert st Hi. induction Hl as [|a l Ha _ IH]; intros st Hi; simpl.
  { exists []. by split. }
  destruct (Hstep st a Hi Ha) as (b & st' & -> & Hq & Hi'). destruct (IH st' Hi') as (l' & -> & Hall).
  exists (b :: l'). split; [done|]. by constructor.
Qed.
End smap_laws.

(** A class without state of its own. *)
Definition pure_step {A B} (f : A → result B) (_ : unit) (a : A) : result (B * unit) :=
  let! b := f a in Ok (b, ()).

Lemma smap_pure_Ok {A B} (f : A → result B) l l' :
  map_ok f l = Ok l' → smap (pure_step f) () (of_list l) = of_list l'.
Proof.
  revert l'. induction l as [|a l IH]; intros l' E; simpl in *.
  { by injection E as <-. }
  apply rbind_Ok_inv in E as (b & Hb & E). apply rbind_Ok_inv in E as (l1 & Hl & [= <-]).
  unfold pure_step at 1. rewrite Hb. simpl. by rewrite (IH _ Hl).
Qed.

(** ** Classes that read one stream after another

    A key of the input, handed to [open], gives the next stream to read; [open]
    keeps a state [B]. *)
Section concatenation.
Context {B K X : Type} (open : B → K → result (stream X * B)).

Record Concatenation := {
  current_stream_ : option (stream X);
  keys_ : stream K;
  builder_ : B;
}.

(** [while (true)] from the point where there is no current stream, by
    recursion on the keys. *)
Fixpoint concat_next (builder : B) (keys : stream K) : result (option X * Concatenation) :=
  match keys with
  | Done => Ok (None, {| current_stream_ := None; keys_ := Done; builder_ := builder |})
  | Fail e => Err e
  | Next key keys =>
      let! '(current, builder) := open builder key in
      let! '(batch, current) := ReadNext current in
      match batch with
      | None => concat_next builder keys
      | Some x => Ok (Some x, {| current_stream_ := Some current; keys_ := keys; builder_ := builder |})
      end
  end.

Definition concat_ReadNext (c : Concatenation) : result (option X * Concatenation) :=
  match current_stream_ c with
  | None => concat_next (builder_ c) (keys_ c)
  | Some current =>
      let! '(batch, current) := ReadNext current in
      match batch with
      | None => concat_next (builder_ c) (keys_ c)
      | Some x => Ok (Some x, {| current_stream_ := Some current; keys_ := keys_ c; builder_ := builder_ c |})
      end
  end.

(** The streams of the keys, one after another. *)
Fixpoint concat_streams (builder : B) (keys : stream K) : stream X :=
  match keys with
  | Done => Done
  | Fail e => Fail e
  | Next key keys =>
      match open builder key with
      | Err e => Fail e
      | Ok (s, builder) => stream_app s (concat_streams builder keys)
      end
  end.

Definition concatenated (c : Concatenation) : stream X :=
  stream_app (default Done (current_stream_ c)) (concat_streams (builder_ c) (keys_ c)).

Lemma concat_next_implements keys : ∀ builder,
  match concat_next builder keys with
  | Err e => concat_streams builder keys = Fail e
  | Ok (None, _) => concat_streams builder keys = Done
  | Ok (Some x, c) => concat_streams builder keys = Next x (concatenated c)
  end.
Proof.
  induction keys as [|e|key keys IH]; intros builder; cbn [concat_next concat_streams]; [done|done|].
  destruct (open builder key) as [[[|e|x s] b]|e]; cbn [rbind ReadNext stream_app]; try done. apply IH.
Qed.

Lemma concat_implements : implements concat_ReadNext concatenated.
Proof.
  intros [[[|e|x s]|] keys b]; unfold concatenated at 1 2; cbn [concat_ReadNext current_stream_ keys_ builder_
    rbind ReadNext default stream_app]; try done.
  - pose proof (concat_next_implements keys b) as H. by destruct (concat_next b keys) as [[[x|] c]|e].
  - pose proof (concat_next_implements keys b) as H. by destruct (concat_next b keys) as [[[x|] c]|e].
Qed.

Context (I : B → Prop) (P : K → Prop) (Q : K → list X → Prop).
Context (Hopen : ∀ b k, I b → P k → ∃ l b', open b k = Ok (of_list l, b') ∧ Q k l ∧ I b').

Lemma concat_streams_spec b keys :
  I b → Forall P keys → ∃ ls, concat_streams b (of_list keys) = of_list (concat ls) ∧ Forall2 Q keys ls.
Proof.
  intros Hb Hk. revert b Hb. induction Hk as [|k keys Hk _ IH]; intros b Hb; simpl.
  { exists []. by split. }
  destruct (Hopen b k Hb Hk) as (l & b' & -> & Hq & Hb'). destruct (IH b' Hb') as (ls & -> & Hall).
  exists (l :: ls). split; [|by constructor]. simpl. by rewrite of_list_app.
Qed.
End concatenation.
