(* ===== verification/Bytes.v ===== *)
(** * Bytes: little-endian images of machine integers

    [std::memcpy] between an integer and a byte buffer on a little-endian
    machine, which the code assumes throughout, and byte buffers as strings. *)

From stdpp Require Import base list strings countable.
From Stdlib Require Import ZArith Lia Ascii.
From Stdlib Require Strings.Byte.
From S2P Require Import Prelude.

Local Open Scope Z_scope.

Definition byte_of_Z (v : Z) : Byte.byte := byte_of_ascii (ascii_of_N (Z.to_N (v mod 256))).
Definition Z_of_byte (b : Byte.byte) : Z := Z.of_N (Byte.to_N b).

#[export] Instance byte_eq_decision : EqDecision Byte.byte := Byte.byte_eq_dec.
#[export] Program Instance byte_countable : Countable Byte.byte :=
  inj_countable Byte.to_N Byte.of_N _.
Next Obligation. intros b. apply Byte.of_to_N. Qed.

Fixpoint le_encode (n : nat) (v : Z) : list Byte.byte :=
  match n with O => [] | S n => byte_of_Z v :: le_encode n (v / 256) end.

Fixpoint le_decode (l : list Byte.byte) : Z :=
  match l with [] => 0 | b :: l => Z_of_byte b + 256 * le_decode l end.

Definition string_of_bytes (l : list Byte.byte) : string := String.string_of_list_byte l.
Definition bytes_of_string (s : string) : list Byte.byte := String.list_byte_of_string s.

Lemma Z_of_byte_range b : 0 ≤ Z_of_byte b < 256.
Proof. unfold Z_of_byte. pose proof (Byte.to_N_bounded b). lia. Qed.

Lemma Z_of_byte_of_Z v : Z_of_byte (byte_of_Z v) = v mod 256.
Proof.
  unfold Z_of_byte, byte_of_Z. pose proof (Z.mod_pos_bound v 256).
  pose proof (byte_of_ascii_via_N (ascii_of_N (Z.to_N (v mod 256)))) as E.
  rewrite N_ascii_embedding in E by lia. symmetry in E. apply Byte.to_of_N in E.
  rewrite E. lia.
Qed.

Lemma Z_of_byte_inj a b : Z_of_byte a = Z_of_byte b → a = b.
Proof.
  unfold Z_of_byte. intros H. assert (Byte.to_N a = Byte.to_N b) as E by lia.
  apply (f_equal Byte.of_N) in E. rewrite !Byte.of_to_N in E. by injection E.
Qed.

Lemma le_encode_length n v : length (le_encode n v) = n.
Proof. revert v. induction n; intros v; simpl; auto. Qed.

Lemma le_decode_encode n v : le_decode (le_encode n v) = v mod 256 ^ Z.of_nat n.
Proof.
  revert v. induction n as [|n IH]; intros v; simpl.
  - by rewrite Z.pow_0_r, Z.mod_1_r.
  - rewrite IH, Z_of_byte_of_Z, Nat2Z.inj_succ, Z.pow_succ_r by lia.
    rewrite Z.rem_mul_r by lia. lia.
Qed.

Lemma le_decode_range l : 0 ≤ le_decode l < 256 ^ Z.of_nat (length l).
Proof.
  induction l as [|b l IH]; simpl; [lia|].
  rewrite Nat2Z.inj_succ, Z.pow_succ_r by lia. pose proof (Z_of_byte_range b). lia.
Qed.

Lemma le_encode_decode l : le_encode (length l) (le_decode l) = l.
Proof.
  induction l as [|b l IH]; simpl; [done|]. pose proof (Z_of_byte_range b). f_equal.
  - apply Z_of_byte_inj. rewrite Z_of_byte_of_Z.
    rewrite (Z.mul_comm 256), Z.mod_add, Z.mod_small by lia. done.
  - rewrite (Z.mul_comm 256), Z.div_add, Z.div_small, Z.add_0_l by lia. done.
Qed.

(** The image determines the integer, at every width that holds it. *)
Lemma le_encode_inj n v w :
  0 < Z.of_nat n → wrap_s (8 * Z.of_nat n) v = v → wrap_s (8 * Z.of_nat n) w = w →
  le_encode n v = le_encode n w → v = w.
Proof.
  intros Hn Hv Hw E. apply (f_equal le_decode) in E. rewrite !le_decode_encode in E.
  assert (256 ^ Z.of_nat n = 2 ^ (8 * Z.of_nat n)) as H2.
  { rewrite Z.pow_mul_r by lia. done. }
  rewrite H2 in E. unfold wrap_s in Hv, Hw. cbv zeta in Hv, Hw.
  rewrite E in Hv. congruence.
Qed.

Lemma string_of_bytes_inj a b : string_of_bytes a = string_of_bytes b → a = b.
Proof.
  unfold string_of_bytes. intros H. apply (f_equal String.list_byte_of_string) in H.
  by rewrite !String.list_byte_of_string_of_list_byte in H.
Qed.

Lemma string_of_bytes_length l : String.length (string_of_bytes l) = length l.
Proof. unfold string_of_bytes. induction l as [|b l IH]; [done|]. by f_equal/=. Qed.

(** ** Strings *)

Lemma append_inj_len (a b c d : string) :
  String.length a = String.length b → (a +:+ c = b +:+ d) → a = b ∧ c = d.
Proof.
  revert b. induction a as [|x a IH]; intros [|y b] Hlen E; try discriminate Hlen; [done|].
  injection Hlen as Hlen. injection E as -> E. by destruct (IH b Hlen E) as [-> ->].
Qed.

Lemma append_cons c (a b : string) : String c a +:+ b = String c (a +:+ b).
Proof. done. Qed.

Lemma append_assoc (a b c : string) : (a +:+ b) +:+ c = a +:+ (b +:+ c).
Proof. induction a as [|x a IH]; [done|]. exact (f_equal (String x) IH). Qed.

Lemma append_nil_r (a : string) : a +:+ "" = a.
Proof. induction a as [|x a IH]; [done|]. exact (f_equal (String x) IH). Qed.

Lemma append_length (a b : string) :
  String.length (a +:+ b) = (String.length a + String.length b)%nat.
Proof. induction a as [|x a IH]; [done|]. exact (f_equal S IH). Qed.

Lemma append_inj_l (a c d : string) : a +:+ c = a +:+ d → c = d.
Proof. intros E. by destruct (append_inj_len a a c d eq_refl E). Qed.
