(* ===== verification/CxxText.v ===== *)
(** * CxxText: numbers in text, as the C++ library reads and writes them

    [std::to_string] is [pretty].  [std::stoull], [std::stoi] (in base 10 and 16)
    skip white space, take a sign and the longest prefix of digits, and ignore the
    rest.  A [std::stringstream] is the text that is left and whether it is still
    good; an extraction from a stream that is not leaves its target as it is. *)

From stdpp Require Import base list strings pretty.
From Stdlib Require Import ZArith Lia.
From Stdlib Require Import Strings.Ascii.
From S2P Require Import Prelude Bytes.

Local Open Scope Z_scope.

Definition code (c : Ascii.ascii) : Z := Z.of_N (Ascii.N_of_ascii c).

Definition digit_value (c : Ascii.ascii) : option Z :=
  if (48 <=? code c) && (code c <=? 57) then Some (code c - 48) else None.

Definition hex_value (c : Ascii.ascii) : option Z :=
  if (48 <=? code c) && (code c <=? 57) then Some (code c - 48)
  else if (97 <=? code c) && (code c <=? 102) then Some (code c - 87)
  else if (65 <=? code c) && (code c <=? 70) then Some (code c - 55)
  else None.

Definition is_space (c : Ascii.ascii) : bool := ((9 <=? code c) && (code c <=? 13)) || (code c =? 32).

Fixpoint skip_space (s : string) : string :=
  match s with
  | String c s' => if is_space c then skip_space s' else s
  | EmptyString => s
  end.

(** The value of the longest prefix of digits of a base, and the rest. *)
Fixpoint take_digits (base : Z) (value : Ascii.ascii → option Z) (acc : Z) (s : string) : Z * string :=
  match s with
  | String c s' => match value c with Some d => take_digits base value (base * acc + d) s' | None => (acc, s) end
  | EmptyString => (acc, s)
  end.

Definition starts_with_digit (value : Ascii.ascii → option Z) (s : string) : bool :=
  match s with String c _ => match value c with Some _ => true | None => false end | EmptyString => false end.

(** A sign and the text after it. *)
Definition take_sign (s : string) : bool * string :=
  match s with
  | String "-"%char s => (true, s)
  | String "+"%char s => (false, s)
  | s => (false, s)
  end.

(** ** [std::stoull], [std::stoi] *)

Definition stoull (s : string) : result Z :=
  let '(neg, s) := take_sign (skip_space s) in
  if starts_with_digit digit_value s then
    let v := (take_digits 10 digit_value 0 s).1 in
    if v <=? uint64_max then Ok (if neg : bool then wrap_u 64 (- v) else v) else Err (Exn "stoull: out of range")
  else Err (Exn "stoull: invalid argument").

(** In base 16 a prefix [0x] takes three characters at least and is not modelled:
    the code converts two characters at a time. *)
Definition stoi_base (base : Z) (value : Ascii.ascii → option Z) (s : string) : result Z :=
  let '(neg, s) := take_sign (skip_space s) in
  if starts_with_digit value s then
    let v := (take_digits base value 0 s).1 in
    let v := if neg : bool then - v else v in
    if (int32_min <=? v) && (v <=? int32_max) then Ok v else Err (Exn "stoi: out of range")
  else Err (Exn "stoi: invalid argument").

Definition stoi := stoi_base 10 digit_value.
Definition stoi16 := stoi_base 16 hex_value.

(** ** [std::stringstream] *)

Record istream := { rest : string; good : bool }.
Definition stream_of (s : string) : istream := {| rest := s; good := true |}.

Fixpoint drop_chars (n : nat) (s : string) : string * bool :=
  match n, s with
  | O, _ => (s, true)
  | S n, String _ s => drop_chars n s
  | S _, EmptyString => (s, false)
  end.

Definition ignore (n : nat) (st : istream) : istream :=
  if good st then let '(s, g) := drop_chars n (rest st) in {| rest := s; good := g |} else st.

(** [ss >> target]: the new value of the target and the stream. *)
Definition extract_int (st : istream) (target : Z) : Z * istream :=
  if good st then
    match skip_space (rest st) with
    | EmptyString => (target, {| rest := EmptyString; good := false |})
    | s =>
        let '(neg, s) := take_sign s in
        if starts_with_digit digit_value s then
          let '(v, s) := take_digits 10 digit_value 0 s in
          let v := if neg : bool then - v else v in
          let more := match s with EmptyString => false | _ => true end in
          if v <? int32_min then (int32_min, {| rest := s; good := false |})
          else if int32_max <? v then (int32_max, {| rest := s; good := false |})
          else (v, {| rest := s; good := more |})
        else (0, {| rest := s; good := false |})
    end
  else (target, st).

(** ** What [std::to_string] writes is read back *)

Definition no_digit (s : string) : Prop := starts_with_digit digit_value s = false.

Lemma digit_value_char d : (d < 10)%N → digit_value (pretty_N_char d) = Some (Z.of_N d).
Proof.
  intros Hd. destruct (decide (d ∈ [0;1;2;3;4;5;6;7;8;9]%N)) as [Hin|Hnot].
  - repeat (apply elem_of_cons in Hin as [->|Hin]; [done|]). by apply elem_of_nil in Hin.
  - exfalso. apply Hnot. rewrite !elem_of_cons. lia.
Qed.

Lemma take_digits_stop base value acc s :
  starts_with_digit value s = false → take_digits base value acc s = (acc, s).
Proof. destruct s as [|c s]; [done|]. simpl. by destruct (value c). Qed.

Lemma take_digits_go x : ∀ s,
  take_digits 10 digit_value 0 (pretty_N_go x s) = take_digits 10 digit_value (Z.of_N x) s.
Proof.
  induction (N.lt_wf_0 x) as [x _ IH]. intros s.
  destruct (decide (x = 0)%N) as [->|Hx]; [by rewrite pretty_N_go_0|].
  rewrite pretty_N_go_step by lia. pose proof (N.div_lt x 10 ltac:(lia) ltac:(lia)).
  rewrite IH by done. cbn [take_digits]. pose proof (N.mod_lt x 10 ltac:(lia)).
  rewrite digit_value_char by done. f_equal. pose proof (N.div_mod x 10 ltac:(lia)). lia.
Qed.

Lemma go_starts x : (x ≠ 0)%N → ∀ s, starts_with_digit digit_value (pretty_N_go x s) = true.
Proof.
  induction (N.lt_wf_0 x) as [x _ IH]. intros Hx s. rewrite pretty_N_go_step by lia.
  pose proof (N.div_lt x 10 ltac:(lia) ltac:(lia)). pose proof (N.mod_lt x 10 ltac:(lia)).
  destruct (decide (x `div` 10 = 0)%N) as [->|Hd]; [|by apply IH].
  rewrite pretty_N_go_0. cbn [starts_with_digit]. by rewrite digit_value_char.
Qed.

Lemma go_append x : ∀ s t, pretty_N_go x s +:+ t = pretty_N_go x (s +:+ t).
Proof.
  induction (N.lt_wf_0 x) as [x _ IH]. intros s t.
  destruct (decide (x = 0)%N) as [->|Hx]; [by rewrite !pretty_N_go_0|].
  rewrite (pretty_N_go_step x s), (pretty_N_go_step x (s +:+ t)) by lia. pose proof (N.div_lt x 10 ltac:(lia) ltac:(lia)).
  rewrite IH by done. reflexivity.
Qed.

Lemma pretty_N_digits n t :
  no_digit t → starts_with_digit digit_value (pretty n +:+ t) = true ∧
               take_digits 10 digit_value 0 (pretty n +:+ t) = (Z.of_N n, t).
Proof.
  intros Ht. unfold pretty, pretty_N. case_decide as E.
  { subst. split; [done|]. simpl. by apply take_digits_stop. }
  rewrite go_append. cbn [String.append]. split; [by apply go_starts|].
  rewrite take_digits_go. by apply take_digits_stop.
Qed.

Lemma digit_no_sign s : starts_with_digit digit_value s = true → take_sign (skip_space s) = (false, s).
Proof.
  destruct s as [|c s]; [done|]. cbn [starts_with_digit].
  destruct c as [[] [] [] [] [] [] [] []]; intros Hd; vm_compute in Hd; try discriminate Hd; done.
Qed.

Lemma stoull_to_string v : in_u64 v → stoull (pretty (Z.to_N v)) = Ok v.
Proof.
  intros [Hlo Hhi]. destruct (pretty_N_digits (Z.to_N v) EmptyString eq_refl) as [Hs Ht].
  rewrite append_nil_r in Hs, Ht. unfold stoull. rewrite digit_no_sign, Hs, Ht by done. cbn [fst].
  rewrite Z2N.id by done. by destruct (Z.leb_spec v uint64_max); [|lia].
Qed.

(** A signed number at the head of a stream. *)
Lemma take_signed z t :
  no_digit t → ∃ neg s, skip_space (pretty z +:+ t) = pretty z +:+ t ∧ take_sign (pretty z +:+ t) = (neg, s) ∧
    starts_with_digit digit_value s = true ∧ ∃ v, take_digits 10 digit_value 0 s = (v, t) ∧
    (if neg : bool then - v else v) = z.
Proof.
  intros Ht. assert (∀ n, starts_with_digit digit_value (pretty n +:+ t) = true →
    skip_space (pretty (n : N) +:+ t) = pretty n +:+ t ∧ take_sign (pretty n +:+ t) = (false, pretty n +:+ t)) as Hpos.
  { intros n. generalize (pretty n +:+ t) as s. intros [|c s]; [done|]. cbn [starts_with_digit].
    destruct c as [[] [] [] [] [] [] [] []]; intros Hd; vm_compute in Hd; try discriminate Hd; done. }
  destruct z as [|p|p].
  - destruct (pretty_N_digits 0 t Ht) as [Hs Hd]. destruct (Hpos 0%N Hs) as [E1 E2].
    exists false, (pretty 0%N +:+ t). repeat split; try done. by exists 0.
  - destruct (pretty_N_digits (Npos p) t Ht) as [Hs Hd]. destruct (Hpos (Npos p) Hs) as [E1 E2].
    exists false, (pretty (Npos p) +:+ t). repeat split; try done. by exists (Zpos p).
  - destruct (pretty_N_digits (Npos p) t Ht) as [Hs Hd].
    exists true, (pretty (Npos p) +:+ t). repeat split; try done. by exists (Zpos p).
Qed.

Lemma extract_int_pretty z t target :
  in_i32 z → no_digit t →
  extract_int (stream_of (pretty z +:+ t)) target =
  (z, {| rest := t; good := match t with EmptyString => false | _ => true end |}).
Proof.
  intros [Hlo Hhi] Ht. destruct (take_signed z t Ht) as (neg & s & E1 & E2 & E3 & v & E4 & E5).
  unfold extract_int, stream_of. cbn [good rest]. rewrite E1.
  destruct (pretty z +:+ t) as [|c s'] eqn:E. { cbn in E2. injection E2 as <- <-. done. }
  rewrite E2, E3, E4, E5.
  destruct (Z.ltb_spec z int32_min), (Z.ltb_spec int32_max z); [lia..|done].
Qed.

Lemma stoi_pretty z : in_i32 z → stoi (pretty z) = Ok z.
Proof.
  intros [Hlo Hhi]. destruct (take_signed z EmptyString eq_refl) as (neg & s & E1 & E2 & E3 & v & E4 & E5).
  rewrite !append_nil_r in *. unfold stoi, stoi_base. rewrite E1, E2, E3, E4. cbn [fst]. rewrite E5.
  destruct (Z.leb_spec int32_min z), (Z.leb_spec z int32_max); [done|lia..].
Qed.
