(* ===== verification/FilterValue.v ===== *)
(** * FilterValue: values and expressions of row filters

    [iceberg/filter/representation/value.h], [value.cpp], [function.h],
    [node.h], [visitor.h] and [tree_rewriter.cpp].  A [ValueType] template
    parameter is an index: [phys t] is [PhysicalType<t>].

    A [float] or [double] is the real number it denotes, in units of [2^-1074]
    (the least positive [double]), an infinity or NaN: a [float] and the
    [double] it converts to are then the same value, and comparisons are those
    of IEEE 754.  The two zeros compare equal and are one value. *)

From stdpp Require Import base list strings.
From Stdlib Require Import ZArith Lia.
From S2P Require Import Prelude OrderedMap.

Local Open Scope Z_scope.

Module VT.
Inductive ValueType :=
| kBool | kInt2 | kInt4 | kInt8 | kFloat4 | kFloat8 | kNumeric | kString
| kDate | kTimestamp | kTimestamptz | kTime | kInterval.

Definition ValueTypeToString (t : ValueType) : string :=
  match t with
  | kBool => "bool" | kInt2 => "int2" | kInt4 => "int4" | kInt8 => "int8"
  | kFloat4 => "float4" | kFloat8 => "float8" | kNumeric => "numeric" | kString => "string"
  | kDate => "date" | kTime => "time" | kTimestamp => "timestamp" | kTimestamptz => "timestamptz"
  | kInterval => "interval"
  end.
End VT.
Abbreviation ValueType := VT.ValueType.

#[export] Instance ValueType_eq_dec : EqDecision ValueType.
Proof. solve_decision. Defined.

(** ** Floating point numbers *)

Inductive ereal := NegInf | Fin (units : Z) | PosInf.
Inductive flt := NaN | Num (x : ereal).

#[export] Instance ereal_eq_dec : EqDecision ereal.
Proof. solve_decision. Defined.
#[export] Instance flt_eq_dec : EqDecision flt.
Proof. solve_decision. Defined.

Definition ereal_compare (a b : ereal) : comparison :=
  match a, b with
  | NegInf, NegInf | PosInf, PosInf => Eq
  | NegInf, _ | _, PosInf => Lt
  | PosInf, _ | _, NegInf => Gt
  | Fin x, Fin y => x ?= y
  end.

(** The values of the bit patterns of binary32 and binary64. *)
Definition decode_float_fields (neg : bool) (exponent mantissa max_exponent implicit shift : Z) : flt :=
  if exponent =? max_exponent then
    if mantissa =? 0 then Num (if neg then NegInf else PosInf) else NaN
  else
    let m := if exponent =? 0 then mantissa else mantissa + implicit in
    let v := m * 2 ^ (Z.max exponent 1 - 1 + shift) in
    Num (Fin (if neg then - v else v)).

Definition decode_float (bits : Z) : flt :=
  decode_float_fields (Z.testbit bits 31) (Z.land (Z.shiftr bits 23) 255) (Z.land bits (2 ^ 23 - 1))
    255 (2 ^ 23) 925.
Definition decode_double (bits : Z) : flt :=
  decode_float_fields (Z.testbit bits 63) (Z.land (Z.shiftr bits 52) 2047) (Z.land bits (2 ^ 52 - 1))
    2047 (2 ^ 52) 0.

(** 1.5 as [float] and as [double]. *)
Example decode_one_half : decode_float 0x3FC00000 = decode_double 0x3FF8000000000000.
Proof. vm_compute. reflexivity. Qed.

(** ** Physical values *)

Definition phys (t : ValueType) : Type :=
  match t with
  | VT.kBool => bool
  | VT.kInt2 | VT.kInt4 | VT.kInt8 | VT.kDate | VT.kTimestamp | VT.kTimestamptz | VT.kTime => Z
  | VT.kFloat4 | VT.kFloat8 => flt
  | VT.kNumeric | VT.kString => string
  | VT.kInterval => Z * Z
  end.

#[export] Program Instance KeyOrd_bool : KeyOrd bool := {| kcmp := Bool.compare |}.
Next Obligation. by intros [] []. Qed.
Next Obligation. by intros [] []. Qed.
Next Obligation. by intros [] [] []. Qed.

#[export] Program Instance KeyOrd_ereal : KeyOrd ereal := {| kcmp := ereal_compare |}.
Next Obligation.
  intros [|x|] [|y|]; simpl; split; try done.
  - by intros ->%Z.compare_eq_iff.
  - intros [= ->]. apply Z.compare_refl.
Qed.
Next Obligation. intros [|x|] [|y|]; simpl; try done. apply Z.compare_antisym. Qed.
Next Obligation. intros [|x|] [|y|] [|z|]; simpl; try done. rewrite !Z.compare_lt_iff. lia. Qed.

(** Comparison of two physical values; [None] when the type has no order or an
    operand is NaN. *)
Definition phys_compare (t : ValueType) : phys t → phys t → option comparison :=
  match t with
  | VT.kBool => λ a b, Some (kcmp a b)
  | VT.kFloat4 | VT.kFloat8 => λ a b,
      match a, b with Num x, Num y => Some (kcmp x y) | _, _ => None end
  | VT.kString => λ a b, Some (kcmp a b)
  | VT.kNumeric => λ _ _, None
  | VT.kInterval => λ _ _, None
  | _ => λ a b, Some (kcmp a b)
  end.

(** [std::less] and [std::less_equal]. *)
Definition less t (a b : phys t) : bool :=
  match phys_compare t a b with Some Lt => true | _ => false end.
Definition less_equal t (a b : phys t) : bool :=
  match phys_compare t a b with Some Lt | Some Eq => true | _ => false end.

(** [Comparable<PhysicalType<t>>]. *)
Definition comparable (t : ValueType) : bool :=
  match t with VT.kNumeric | VT.kInterval => false | _ => true end.

(** ** Values and arrays *)

Record Value := { v_type : ValueType; v_value : option (phys v_type) }.
Record ArrayHolder := { a_type : ValueType; a_values : list (option (phys a_type)) }.

Definition IsNull (v : Value) : bool := match v_value v with None => true | Some _ => false end.

Definition Size (a : ArrayHolder) : nat := length (a_values a).

(** ** Functions *)

Inductive FunctionID :=
| kLessThan | kLessThanOrEqualTo | kGreaterThan | kGreaterThanOrEqualTo | kEqual | kNotEqual
| kAddWithoutChecks | kSubtractWithoutChecks | kMultiplyWithoutChecks | kDivideWithoutChecks
| kAddWithChecks | kSubtractWithChecks | kMultiplyWithChecks | kDivideWithChecks | kModuloWithChecks
| kLike | kILike | kNotLike | kNotILike
| kBitwiseAnd | kBitwiseOr | kXor | kBitwiseNot
| kIsNull
| kCastInt4 | kCastInt8 | kCastTimestamp | kCastTimestamptz | kCastFloat8 | kCastDate
| kSign | kCeil | kFloor | kRound | kSqrt | kCbrt | kExp | kLog10
| kSin | kCos | kTan | kCot | kAtan | kAtan2 | kSinh | kCosh | kTanh | kAsin | kAcos
| kExtractTimestamp | kDateTrunc | kDateDiff
| kAbsolute | kNegative
| kCharLength | kLower | kUpper | kLTrim | kRTrim | kBTrim | kSubstring | kLocate | kConcatenate.

#[export] Instance FunctionID_eq_dec : EqDecision FunctionID.
Proof. solve_decision. Defined.

Record FunctionSignature := {
  function_id : FunctionID;
  return_type : ValueType;
  argument_types : list ValueType;
}.

(** ** Expressions *)

Inductive Operation := kAnd | kOr | kNot.

#[export] Instance Operation_eq_dec : EqDecision Operation.
Proof. solve_decision. Defined.

Inductive Node :=
| VariableNode (value_type : ValueType) (column_name : string)
| ConstNode (value : Value)
| IfNode (condition then_node else_node : Node)
| LogicalNode (operation : Operation) (arguments : list Node)
| FunctionNode (function_signature : FunctionSignature) (arguments : list Node)
| ScalarOverArrayFunctionNode (function_signature : FunctionSignature) (use_or : bool) (scalar : Node)
    (array : ArrayHolder).

(** The constructors that check their arguments; a [Node] is never null here,
    so only the checks on sizes remain. *)
Definition make_LogicalNode (op : Operation) (arguments : list Node) : result Node :=
  let! _ := Ensure (negb (bool_decide (op = kNot) && negb (bool_decide (length arguments = 1%nat))))
              "LogicalNode: Operation::kNot expects one argument" in
  Ok (LogicalNode op arguments).

Definition make_FunctionNode (s : FunctionSignature) (arguments : list Node) : result Node :=
  let! _ := Ensure (bool_decide (length (argument_types s) = length arguments))
              "FunctionNode: argument_types.size() != arguments.size()" in
  Ok (FunctionNode s arguments).

Definition make_ScalarOverArrayFunctionNode (s : FunctionSignature) (use_or : bool) (lhs : Node)
    (array : ArrayHolder) : result Node :=
  let! _ := Ensure (bool_decide (0 < Size array)%nat)
              "ScalarOverArrayFunctionNode: array must contain at least one element" in
  let! _ := Ensure (bool_decide (length (argument_types s) = 2%nat))
              "ScalarOverArrayFunctionNode: function signature must have 2 arguments" in
  Ok (ScalarOverArrayFunctionNode s use_or lhs array).

(** Induction over expressions with their argument lists. *)
Section node_ind.
Context (P : Node → Prop)
  (HVar : ∀ t c, P (VariableNode t c)) (HConst : ∀ v, P (ConstNode v))
  (HIf : ∀ c t e, P c → P t → P e → P (IfNode c t e))
  (HLog : ∀ o args, Forall P args → P (LogicalNode o args))
  (HFun : ∀ s args, Forall P args → P (FunctionNode s args))
  (HArr : ∀ s u x a, P x → P (ScalarOverArrayFunctionNode s u x a)).

Fixpoint Node_nested_ind (n : Node) : P n :=
  let go_list := fix go (l : list Node) : Forall P l :=
    match l with [] => Forall_nil_2 P | x :: l => Forall_cons_2 P x l (Node_nested_ind x) (go l) end in
  match n with
  | VariableNode t c => HVar t c
  | ConstNode v => HConst v
  | IfNode c t e => HIf c t e (Node_nested_ind c) (Node_nested_ind t) (Node_nested_ind e)
  | LogicalNode o args => HLog o args (go_list args)
  | FunctionNode s args => HFun s args (go_list args)
  | ScalarOverArrayFunctionNode s u x a => HArr s u x a (Node_nested_ind x)
  end.
End node_ind.

Definition ChildrenGetter (node : Node) : list Node :=
  match node with
  | VariableNode _ _ | ConstNode _ => []
  | IfNode c t e => [c; t; e]
  | LogicalNode _ args | FunctionNode _ args => args
  | ScalarOverArrayFunctionNode _ _ scalar _ => [scalar]
  end.

Fixpoint TypeGetter (node : Node) : ValueType :=
  match node with
  | VariableNode t _ => t
  | ConstNode v => v_type v
  | IfNode _ t _ => TypeGetter t
  | LogicalNode _ _ | ScalarOverArrayFunctionNode _ _ _ _ => VT.kBool
  | FunctionNode s _ => return_type s
  end.

(** [TreeRewriter::ScalarOverArrayToLogical]. *)
Definition ScalarOverArrayToLogical (s : FunctionSignature) (use_or : bool) (scalar : Node)
    (array : ArrayHolder) : Node :=
  LogicalNode (if use_or then kOr else kAnd)
    (List.map (λ maybe_value,
       FunctionNode s [scalar; ConstNode {| v_type := a_type array; v_value := maybe_value |}])
       (a_values array)).

(** ** The order of physical values *)

Lemma kle_trans {K} `{KeyOrd K} (a b c : K) : kcmp a b ≠ Gt → kcmp b c ≠ Gt → kcmp a c ≠ Gt.
Proof.
  intros H1 H2. destruct (kcmp a b) eqn:E1; [|destruct (kcmp b c) eqn:E2|]; try done.
  - by apply kcmp_eq in E1 as ->.
  - apply kcmp_eq in E2 as <-. by rewrite E1.
  - by rewrite (kcmp_trans _ _ _ E1 E2).
Qed.

(** What the filters use of a comparison: a total order on the values that
    compare equal to themselves, and nothing comparable to the others. *)
Definition is_lt (o : option comparison) : bool := match o with Some Lt => true | _ => false end.
Definition is_le (o : option comparison) : bool := match o with Some Lt | Some Eq => true | _ => false end.

Class Lawful {A} (c : A → A → option comparison) : Prop := {
  law_trans : ∀ x y z, is_le (c x y) = true → is_le (c y z) = true → is_le (c x z) = true;
  law_refl_l : ∀ x y, is_le (c x y) = true → is_le (c x x) = true;
  law_refl_r : ∀ x y, is_le (c x y) = true → is_le (c y y) = true;
  law_total : ∀ x y, is_le (c x x) = true → is_le (c y y) = true → is_lt (c x y) = negb (is_le (c y x));
}.

#[export] Instance Lawful_kcmp {K} `{KeyOrd K} : Lawful (λ a b : K, Some (kcmp a b)).
Proof.
  assert (∀ c, is_le (Some c) = true ↔ c ≠ Gt) as Hle by by intros [].
  split; intros x y; rewrite ?Hle.
  - intros z. rewrite !Hle. apply kle_trans.
  - by rewrite kcmp_refl.
  - by rewrite kcmp_refl.
  - intros _ _. rewrite (kcmp_opp x y). by destruct (kcmp x y).
Qed.

#[export] Instance Lawful_none {A} : Lawful (λ _ _ : A, None).
Proof. by split. Qed.

#[export] Instance Lawful_flt :
  Lawful (λ a b : flt, match a, b with Num x, Num y => Some (kcmp x y) | _, _ => None end).
Proof.
  split.
  - intros [|x] [|y] [|z]; try done. apply (law_trans (c := λ a b : ereal, Some (kcmp a b))).
  - intros [|x] [|y]; try done. apply (law_refl_l (c := λ a b : ereal, Some (kcmp a b))).
  - intros [|x] [|y]; try done. apply (law_refl_r (c := λ a b : ereal, Some (kcmp a b))).
  - intros [|x] [|y]; try done. apply (law_total (c := λ a b : ereal, Some (kcmp a b))).
Qed.

#[export] Instance Lawful_phys t : Lawful (phys_compare t).
Proof.
  destruct t;
    first [exact Lawful_flt | exact Lawful_none | exact (Lawful_kcmp (K := bool))
          | exact (Lawful_kcmp (K := Z)) | exact (Lawful_kcmp (K := string))].
Qed.

Lemma less_equal_trans t (x y z : phys t) :
  less_equal t x y = true → less_equal t y z = true → less_equal t x z = true.
Proof. apply (law_trans (c := phys_compare t)). Qed.
Lemma less_equal_refl_l t (x y : phys t) : less_equal t x y = true → less_equal t x x = true.
Proof. apply (law_refl_l (c := phys_compare t)). Qed.
Lemma less_equal_refl_r t (x y : phys t) : less_equal t x y = true → less_equal t y y = true.
Proof. apply (law_refl_r (c := phys_compare t)). Qed.
Lemma less_total t (x y : phys t) :
  less_equal t x x = true → less_equal t y y = true → less t x y = negb (less_equal t y x).
Proof. apply (law_total (c := phys_compare t)). Qed.
Lemma less_equal_total t (x y : phys t) :
  less_equal t x x = true → less_equal t y y = true →
  less_equal t x y = true ∨ less_equal t y x = true.
Proof.
  intros Hx Hy. destruct (less_equal t y x) eqn:E; [by right|left].
  pose proof (less_total t x y Hx Hy) as H. rewrite E in H. unfold less, less_equal in *.
  by destruct (phys_compare t x y) as [[]|].
Qed.
