(* ===== verification/Parquet.v ===== *)
(** * Parquet: the metadata of Parquet files that readers look at

    What the sources read of [parquet::FileMetaData]: the root group node of the
    schema, and for each row group its position, its number of rows and the
    metadata of its column chunks with their statistics.  The Parquet library
    numbers column chunks by leaf columns of the schema; a field of the root
    group with several leaves (a struct, a map) takes several numbers. *)

From stdpp Require Import base list strings.
From Stdlib Require Import ZArith.
From S2P Require Import Prelude FilterValue.

Local Open Scope Z_scope.

(** [parquet::Type::type]. *)
Inductive PhysicalType :=
| BOOLEAN | INT32 | INT64 | INT96 | FLOAT | DOUBLE | BYTE_ARRAY | FIXED_LEN_BYTE_ARRAY.
#[export] Instance PhysicalType_eq_dec : EqDecision PhysicalType.
Proof. solve_decision. Defined.

Inductive TimeUnit := UNKNOWN_UNIT | MILLIS | MICROS | NANOS.
#[export] Instance TimeUnit_eq_dec : EqDecision TimeUnit.
Proof. solve_decision. Defined.

(** [parquet::LogicalType]: the kinds the sources ask for. *)
Inductive LogicalType :=
| NoneLogical
| IntLogical (bit_width : Z) (is_signed : bool)
| StringLogical
| DateLogical
| TimeLogical (is_adjusted_to_utc : bool) (time_unit : TimeUnit)
| TimestampLogical (is_adjusted_to_utc : bool) (time_unit : TimeUnit)
| DecimalLogical (precision scale : Z)
| UUIDLogical
| ListLogical
| OtherLogical.
#[export] Instance LogicalType_eq_dec : EqDecision LogicalType.
Proof. solve_decision. Defined.

(** The values of a column of a physical type. *)
Definition physical (t : PhysicalType) : Type :=
  match t with
  | BOOLEAN => bool
  | INT32 | INT64 => Z
  | FLOAT | DOUBLE => flt
  | INT96 | BYTE_ARRAY | FIXED_LEN_BYTE_ARRAY => string
  end.

(** [parquet::Statistics], typed by its [physical_type()]. *)
Record Statistics := {
  physical_type : PhysicalType;
  HasMinMax : bool;
  stats_min : physical physical_type;
  stats_max : physical physical_type;
  HasNullCount : bool;
  null_count : Z;
  num_values : Z;
}.

(** A column chunk of a row group, with the logical type of its leaf column. *)
Record ColumnChunkMeta := {
  is_stats_set : bool;
  chunk_statistics : option Statistics;
  logical_type : LogicalType;
}.

(** A field of the root group node, and how many leaf columns it has. *)
Record FieldNode := { fn_field_id : Z; fn_name : string; fn_leaves : nat }.

Record RowGroupMeta := {
  file_offset : Z;
  data_page_offset : Z;            (** of column chunk 0 *)
  rg_num_rows : Z;
  rg_fields : list FieldNode;      (** [schema()->group_node()] *)
  column_chunks : list ColumnChunkMeta;
}.

(** The leaf columns of field [i] are numbered from here. *)
Definition first_leaf (fields : list FieldNode) (i : nat) : nat := sum_list_with fn_leaves (take i fields).

(** A schema without nested fields. *)
Definition flat_schema (fields : list FieldNode) : Prop := Forall (λ f, fn_leaves f = 1%nat) fields.

Lemma first_leaf_flat fields i : flat_schema fields → (i ≤ length fields)%nat → first_leaf fields i = i.
Proof.
  unfold first_leaf. revert i. induction fields as [|f fields IH]; intros [|i] Hf Hi; simpl in *; try done; [lia|].
  apply Forall_cons in Hf as [-> Hf]. rewrite IH by (done || lia). done.
Qed.
