(* ===== verification/Scalars.v ===== *)
(** * Scalars: the Arrow scalars that default values are made of

    [Literal] of [iceberg/literals.h] holds an [arrow::Scalar]; a scalar knows its
    Arrow type.  [float] and [double] are as in [FilterValue]. *)

From stdpp Require Import base list strings.
From Stdlib Require Import ZArith.
From Stdlib Require Strings.Byte.
From S2P Require Import Prelude Bytes OrderedMap FilterValue.

(** [arrow::TimeUnit]. *)
Inductive ArrowTimeUnit := SECOND | MILLI | MICRO | NANO.
#[export] Instance ArrowTimeUnit_eq_dec : EqDecision ArrowTimeUnit.
Proof. solve_decision. Defined.

(** The Arrow types of scalars. *)
Inductive DataType :=
| BooleanType | Int32Type | Int64Type | FloatType | DoubleType
| Decimal128Type (precision scale : Z)
| Date32Type
| Time64Type (unit : ArrowTimeUnit)
| TimestampType (unit : ArrowTimeUnit) (timezone : string)
| StringType
| FixedSizeBinaryType (byte_width : Z)
| BinaryType
| ListDataType (value_type : DataType).
#[export] Instance DataType_eq_dec : EqDecision DataType.
Proof. solve_decision. Defined.

Unset Elimination Schemes.
Inductive Scalar :=
| BooleanScalar (value : bool)
| Int32Scalar (value : Z)
| Int64Scalar (value : Z)
| FloatScalar (value : flt)
| DoubleScalar (value : flt)
| Decimal128Scalar (value precision scale : Z)     (** the unscaled value *)
| Date32Scalar (value : Z)
| Time64Scalar (value : Z) (unit : ArrowTimeUnit)
| TimestampScalar (value : Z) (unit : ArrowTimeUnit) (timezone : string)
| StringScalar (value : string)
| FixedSizeBinaryScalar (value : list Byte.byte) (byte_width : Z)
| BinaryScalar (value : list Byte.byte)
| ListScalar (value_type : DataType) (values : list Scalar).
Set Elimination Schemes.

Definition scalar_type (s : Scalar) : DataType :=
  match s with
  | BooleanScalar _ => BooleanType
  | Int32Scalar _ => Int32Type
  | Int64Scalar _ => Int64Type
  | FloatScalar _ => FloatType
  | DoubleScalar _ => DoubleType
  | Decimal128Scalar _ p s => Decimal128Type p s
  | Date32Scalar _ => Date32Type
  | Time64Scalar _ u => Time64Type u
  | TimestampScalar _ u tz => TimestampType u tz
  | StringScalar _ => StringType
  | FixedSizeBinaryScalar _ w => FixedSizeBinaryType w
  | BinaryScalar _ => BinaryType
  | ListScalar t _ => ListDataType t
  end.

Record Literal := { scalar_ : Scalar }.

(** ** Decimals *)

(** [arrow::DecimalType::DecimalSize]: the least number of bytes that holds the
    signed numbers of so many digits. *)
Fixpoint least_bytes (fuel : nat) (n limit : Z) : Z :=
  match fuel with
  | O => n
  | S fuel => if (limit <=? 2 ^ (8 * n - 1))%Z then n else least_bytes fuel (n + 1)%Z limit
  end.
Definition DecimalSize (precision : Z) : Z := least_bytes 16 1 (10 ^ precision)%Z.
