(* ===== verification/Types.v ===== *)
(** * Types: Iceberg types ([iceberg/type.h], [iceberg/type.cpp]) and schemas

    Type identifiers, the class hierarchy [Type] / [PrimitiveType] /
    [DecimalType] / [FixedType] / [ListType] as one inductive type, printing,
    the name table of primitive types, the conversion from Arrow types, and the
    part of [iceberg/schema.h] the planner reads. *)

From stdpp Require Import base list strings pretty.
From Stdlib Require Import ZArith Lia.
From S2P Require Import Prelude Scalars.

Inductive TypeID :=
| kBoolean | kInt | kLong | kFloat | kDouble | kDecimal | kDate | kTime
| kTimestamp | kTimestamptz | kTimestampNs | kTimestamptzNs
| kString | kUuid | kFixed | kBinary | kStruct | kList | kMap | kUnknown.

#[export] Instance TypeID_eq_dec : EqDecision TypeID.
Proof. solve_decision. Defined.

Definition kStringToPrimitiveTypeId : list (string * TypeID) :=
  [("boolean", kBoolean); ("int", kInt); ("long", kLong); ("float", kFloat);
   ("double", kDouble); ("date", kDate); ("time", kTime); ("timestamp", kTimestamp);
   ("timestamptz", kTimestamptz); ("timestamp_ns", kTimestampNs);
   ("timestamptz_ns", kTimestamptzNs); ("string", kString); ("uuid", kUuid);
   ("binary", kBinary)].

Definition NameToPrimitiveType (name_to_find : string) : option TypeID :=
  snd <$> List.find (λ e, bool_decide (e.1 = name_to_find)) kStringToPrimitiveTypeId.

Definition PrimitiveTypeToName (type : TypeID) : option string :=
  fst <$> List.find (λ e, bool_decide (e.2 = type)) kStringToPrimitiveTypeId.

(** The classes derived from [types::Type].  A [PrimitiveType] carries any
    identifier: nothing in the class forbids [kDecimal] there. *)
Inductive Type_ :=
| PrimitiveType (id : TypeID)
| DecimalType (precision scale : Z)
| FixedType (size : Z)
| ListType (element_id : Z) (element_required : bool) (element_type : Type_).

Definition TypeId (t : Type_) : TypeID :=
  match t with
  | PrimitiveType id => id
  | DecimalType _ _ => kDecimal
  | FixedType _ => kFixed
  | ListType _ _ _ => kList
  end.

Definition IsListType (t : Type_) : bool :=
  match t with ListType _ _ _ => true | _ => false end.

Definition IsPrimitiveType (t : Type_) : bool :=
  match t with ListType _ _ _ => false | _ => true end.

(** The checked constructors. *)
Definition make_DecimalType (precision scale : Z) : result Type_ :=
  let! _ := Ensure (bool_decide (0 < precision)%Z && bool_decide (precision ≤ 38)%Z)
                   "DecimalType: precision" in
  Ok (DecimalType precision scale).

Definition make_FixedType (size : Z) : result Type_ :=
  let! _ := Ensure (bool_decide (0 < size)%Z) "FixedType: size" in
  Ok (FixedType size).

(** [ToString]: a [PrimitiveType] whose identifier has no name throws
    ([std::optional::value] on an empty optional). *)
Fixpoint ToString (t : Type_) : result string :=
  match t with
  | PrimitiveType id =>
      match PrimitiveTypeToName id with
      | Some s => Ok s
      | None => Err (Exn "bad_optional_access")
      end
  | DecimalType p s => Ok ("decimal(" +:+ pretty p +:+ ", " +:+ pretty s +:+ ")")
  | FixedType n => Ok ("fixed(" +:+ pretty n +:+ ")")
  | ListType _ _ e => let! s := ToString e in Ok ("list(" +:+ s +:+ ")")
  end.

(** The Arrow data types the conversion distinguishes. *)
Inductive ArrowType :=
| ABool | AInt8 | AInt16 | AInt32 | AInt64 | AFloat | ADouble
| ADecimal (precision scale : Z)
| ADate32 | ADate64 | ATime32 | ATime64
| ATimestamp (unit : ArrowTimeUnit) (timezone : string)
| AString
| AList (value_type : ArrowType)
| AOther.

Fixpoint ConvertArrowTypeToIceberg (type : ArrowType) (field_id : Z) : result Type_ :=
  match type with
  | ABool => Ok (PrimitiveType kBoolean)
  | AInt8 | AInt16 | AInt32 => Ok (PrimitiveType kInt)
  | AInt64 => Ok (PrimitiveType kLong)
  | AFloat => Ok (PrimitiveType kFloat)
  | ADouble => Ok (PrimitiveType kDouble)
  | ADecimal p s => make_DecimalType p s
  | ADate32 => Err (Exn "arrow::Type::DATE32 is not supported in iceberg-cpp")
  | ADate64 => Ok (PrimitiveType kDate)
  | ATime32 => Err (Exn "arrow::Type::TIME32 is not supported in iceberg-cpp")
  | ATime64 => Ok (PrimitiveType kTime)
  | ATimestamp NANO tz =>
      Ok (PrimitiveType (if bool_decide (tz = "") then kTimestampNs else kTimestamptzNs))
  | ATimestamp MICRO tz =>
      Ok (PrimitiveType (if bool_decide (tz = "") then kTimestamp else kTimestamptz))
  | ATimestamp _ _ =>
      Err (Exn "arrow::Type::TIMESTAMP with TimeUnit::type != MICRO or NANO is not supported in iceberg-cpp")
  | AString => Ok (PrimitiveType kString)
  | AList v => let! e := ConvertArrowTypeToIceberg v field_id in Ok (ListType field_id true e)
  | AOther => Ok (PrimitiveType kUnknown)
  end.

(** ** Schemas ([iceberg/nested_field.h], [iceberg/schema.h]) *)

Record NestedField := {
  nf_name : string;
  nf_field_id : Z;
  nf_is_required : bool;
  nf_type : Type_;
  nf_initial_default : option Literal;
  nf_write_default : option Literal;
}.

Record Schema := {
  schema_id_ : Z;
  fields_ : list NestedField;
}.

Definition Columns (s : Schema) : list NestedField := fields_ s.

(** [NestedField::operator==] compares types by their printed form. *)
Definition NestedField_eq (a b : NestedField) : result bool :=
  let! left_type := ToString (nf_type a) in
  let! right_type := ToString (nf_type b) in
  Ok (bool_decide (nf_name a = nf_name b) && bool_decide (nf_field_id a = nf_field_id b)
      && bool_decide (nf_is_required a = nf_is_required b) && bool_decide (left_type = right_type)).

Fixpoint NestedFields_eq (a b : list NestedField) : result bool :=
  match a, b with
  | [], [] => Ok true
  | x :: a, y :: b =>
      let! same := NestedField_eq x y in
      if same then NestedFields_eq a b else Ok false
  | _, _ => Ok false
  end.

Definition Schema_eq (a b : Schema) : result bool :=
  if bool_decide (schema_id_ a = schema_id_ b) then
    if bool_decide (length (fields_ a) = length (fields_ b)) then NestedFields_eq (fields_ a) (fields_ b)
    else Ok false
  else Ok false.

(** ** Theorems *)

(** A type made by the checked constructors, or a primitive type with a name:
    what every caller of [ToString] has. *)
Fixpoint printable (t : Type_) : bool :=
  match t with
  | PrimitiveType id => bool_decide (is_Some (PrimitiveTypeToName id))
  | DecimalType _ _ | FixedType _ => true
  | ListType _ _ e => printable e
  end.

Lemma ToString_printable t : is_ok (ToString t) = printable t.
Proof.
  induction t as [id| | |eid req e IH]; simpl; [|done|done|].
  - by destruct id.
  - destruct (ToString e); simpl in *; auto.
Qed.

Lemma PrimitiveTypeToName_Some id s :
  PrimitiveTypeToName id = Some s → NameToPrimitiveType s = Some id.
Proof. destruct id; intros [= <-]; reflexivity. Qed.

Lemma find_Some_true {A} (p : A → bool) l x : List.find p l = Some x → x ∈ l ∧ p x = true.
Proof. intros [Hin Hp]%find_some. by rewrite list_elem_of_In. Qed.

Lemma NameToPrimitiveType_Some s id :
  NameToPrimitiveType s = Some id → PrimitiveTypeToName id = Some s.
Proof.
  unfold NameToPrimitiveType. intros ([n i] & Hf & ->)%fmap_Some.
  apply find_Some_true in Hf as [Hin Hn]. apply bool_decide_eq_true in Hn. simpl in *. subst n.
  unfold kStringToPrimitiveTypeId in Hin.
  repeat (apply elem_of_cons in Hin as [[= -> ->]|Hin]; [reflexivity|]).
  by apply elem_of_nil in Hin.
Qed.

(** The name table of primitive types is a bijection between the fourteen
    names and their identifiers: looking a name up and printing an identifier
    are inverse to each other on the table, in both directions. *)
Theorem primitive_type_names_bijective s id :
  NameToPrimitiveType s = Some id ↔ PrimitiveTypeToName id = Some s.
Proof. split; [apply NameToPrimitiveType_Some|apply PrimitiveTypeToName_Some]. Qed.
