(* ===== verification/ScanTypes.v ===== *)
(** * ScanTypes: the data of a table scan

    Manifest entries ([iceberg/manifest_entry.h]), manifest files
    ([iceberg/manifest_file.h]), partition specifications
    ([iceberg/table_metadata.h]) and the planner's own structures
    ([iceberg/tea_scan.h]). *)

From stdpp Require Import base list strings gmap.
From Stdlib Require Import ZArith.
From Stdlib Require Strings.Byte.
From S2P Require Import Prelude Types.

(** [std::vector<uint8_t>]. *)
Abbreviation bytes := (list Byte.byte).

(** ** Manifest entries *)

Inductive FileContent := kData | kPositionDeletes | kEqualityDeletes.

(** [PartitionKey::AvroValueHolder]: [float] and [double] as their IEEE bit
    patterns, which is what [SerializeValue] copies. *)
Inductive AvroValueHolder :=
| AV_monostate
| AV_bool (b : bool)
| AV_int (v : Z)
| AV_int64 (v : Z)
| AV_float (bits : Z)
| AV_double (bits : Z)
| AV_string (s : string)
| AV_bytes (b : bytes)
| AV_Fixed (b : bytes).

Record PartitionKey := {
  pk_name : string;
  pk_value : AvroValueHolder;
  pk_type : option Type_;
}.

(** [PartitionTuple]: the vector of its fields. *)
Abbreviation PartitionTuple := (list PartitionKey).

Record DataFile := {
  content : FileContent;
  file_path : string;
  file_format : string;
  partition_tuple : PartitionTuple;
  record_count : Z;
  file_size_in_bytes : Z;
  column_sizes : gmap Z Z;
  value_counts : gmap Z Z;
  null_value_counts : gmap Z Z;
  nan_value_counts : gmap Z Z;
  distinct_counts : gmap Z Z;
  lower_bounds : gmap Z bytes;
  upper_bounds : gmap Z bytes;
  key_metadata : bytes;
  split_offsets : list Z;
  equality_ids : list Z;
  sort_order_id : option Z;
  referenced_data_file : option string;
  content_offset : option Z;
  content_size_in_bytes : option Z;
}.

Inductive EntryStatus := kExisting | kAdded | kDeleted.

Record ManifestEntry := {
  status : EntryStatus;
  entry_snapshot_id : option Z;
  sequence_number : option Z;
  file_sequence_number : option Z;
  data_file : DataFile;
}.

#[export] Instance FileContent_eq_dec : EqDecision FileContent.
Proof. solve_decision. Defined.
#[export] Instance EntryStatus_eq_dec : EqDecision EntryStatus.
Proof. solve_decision. Defined.

(** [PartitionKey::Validate]: the Avro value has the Iceberg type's shape. *)
Definition Validate (value : AvroValueHolder) (type : Type_) : result unit :=
  let id := TypeId type in
  let one_of (ids : list TypeID) := bool_decide (id ∈ ids) in
  match value with
  | AV_bool _ => Ensure (one_of [kBoolean]) "Validate"
  | AV_int _ => Ensure (one_of [kInt; kDate]) "Validate"
  | AV_int64 _ =>
      Ensure (one_of [kLong; kTime; kTimestamp; kTimestamptz; kTimestampNs; kTimestamptzNs]) "Validate"
  | AV_float _ => Ensure (one_of [kFloat]) "Validate"
  | AV_double _ => Ensure (one_of [kDouble]) "Validate"
  | AV_string _ => Ensure (one_of [kString]) "Validate"
  | AV_bytes _ => Ensure (one_of [kBinary]) "Validate"
  | AV_Fixed _ => Ensure (one_of [kFixed; kUuid; kDecimal]) "Validate"
  | AV_monostate => Err (Exn "Validate: unexpected data type")
  end.

(** The two constructors of [PartitionKey]: with a value and a type, checked,
    and with a name only. *)
Definition make_PartitionKey (name : string) (v : AvroValueHolder) (t : Type_) : result PartitionKey :=
  let! _ := Validate v t in
  Ok {| pk_name := name; pk_value := v; pk_type := Some t |}.

Definition null_PartitionKey (name : string) : PartitionKey :=
  {| pk_name := name; pk_value := AV_monostate; pk_type := None |}.

(** ** Manifest files and partition specifications *)

Inductive ManifestContent := kContentData | kContentDeletes.

Record PartitionFieldSummary := {
  contains_null_ : bool;
  contains_nan : option bool;
  lower_bound : bytes;
  upper_bound : bytes;
}.

Record ManifestFile := {
  mf_added_files_count : Z;
  mf_added_rows_count : Z;
  mf_content : ManifestContent;
  mf_deleted_files_count : Z;
  mf_deleted_rows_count : Z;
  mf_existing_files_count : Z;
  mf_existing_rows_count : Z;
  mf_length : Z;
  mf_min_sequence_number : Z;
  mf_partition_spec_id : Z;
  mf_path : string;
  mf_sequence_number : Z;
  mf_snapshot_id : Z;
  mf_partitions : list PartitionFieldSummary;
}.

(** A manifest with the default values of the counters. *)
Definition manifest_file (content : ManifestContent) (spec_id : Z) (path : string) (sequence_number : Z)
    (partitions : list PartitionFieldSummary) : ManifestFile :=
  {| mf_added_files_count := 0; mf_added_rows_count := 0; mf_content := content; mf_deleted_files_count := 0;
     mf_deleted_rows_count := 0; mf_existing_files_count := 0; mf_existing_rows_count := 0; mf_length := 0;
     mf_min_sequence_number := 0; mf_partition_spec_id := spec_id; mf_path := path;
     mf_sequence_number := sequence_number; mf_snapshot_id := 0; mf_partitions := partitions |}.

Record PartitionField := {
  source_id : Z;
  pf_field_id : Z;
  pf_name : string;
  transform : string;
}.

Record PartitionSpec := {
  spec_id : Z;
  spec_fields : list PartitionField;
}.

(** ** The planner's structures *)

Record Segment := { offset : Z; length_ : Z (** 0 means: until the end *) }.

Record DeletionVectorInfo := {
  dv_path : string;
  dv_offset : Z;
  dv_length : Z;
  dv_referenced_data_file : string;
}.

Record DataEntry := {
  de_path : string;
  parts : list Segment;
  dv : option DeletionVectorInfo;
}.

(** [PositionalDeleteInfo] is its path. *)
Record PositionalDeleteInfo := { pd_path : string }.

Record EqualityDeleteInfo := { ed_path : string; field_ids : list Z }.

Record PositionalDeleteWithExtraInfo := {
  positional_delete_ : PositionalDeleteInfo;
  min_max_referenced_path_ : option (string * string);
}.

Record LayerWithExtraInfo := {
  data_entries_ : list DataEntry;
  positional_delete_entries_ : list PositionalDeleteWithExtraInfo;
  equality_delete_entries_ : list EqualityDeleteInfo;
  dv_entries_ : gmap string DeletionVectorInfo;
}.

(** A value-initialised layer, what [emplace_back()] and [operator[]] build. *)
Definition empty_layer : LayerWithExtraInfo :=
  {| data_entries_ := []; positional_delete_entries_ := [];
     equality_delete_entries_ := []; dv_entries_ := ∅ |}.

(** [ScanMetadata::Layer] and [ScanMetadata]. *)
Record Layer := {
  l_data_entries_ : list DataEntry;
  l_positional_delete_entries_ : list PositionalDeleteInfo;
  l_equality_delete_entries_ : list EqualityDeleteInfo;
}.

Abbreviation Partition := (list Layer).

Record ScanMetadata := { schema : Schema; partitions : list Partition }.

Definition is_nil {A} (l : list A) : bool := match l with [] => true | _ => false end.

(** [ScanMetadata::Layer::Empty]. *)
Definition Empty (l : Layer) : bool :=
  is_nil (l_data_entries_ l) && is_nil (l_positional_delete_entries_ l)
  && is_nil (l_equality_delete_entries_ l).

#[export] Instance Segment_eq_dec : EqDecision Segment.
Proof. solve_decision. Defined.
#[export] Instance DeletionVectorInfo_eq_dec : EqDecision DeletionVectorInfo.
Proof. solve_decision. Defined.
#[export] Instance DataEntry_eq_dec : EqDecision DataEntry.
Proof. solve_decision. Defined.

Lemma is_nil_true {A} (l : list A) : is_nil l = true ↔ l = [].
Proof. by destruct l. Qed.
