(* ===== verification/Layering.v ===== *)
(** * Layering: which deletes a planned scan applies to which data file

    The contract the planner keeps with the readers: a delete file listed in
    layer [j] of a partition is applied to the data files of the layers [i <= j]
    of the same partition.  A positional delete file with path statistics can
    only mention data files inside its range, so only covered pairs matter. *)

From stdpp Require Import base list strings gmap sets.
From Stdlib Require Import Lia.
From S2P Require Import Prelude Types ScanTypes.

(** ** The contract *)

Definition applies (p : list LayerWithExtraInfo) (x : DataEntry)
    (y : PositionalDeleteWithExtraInfo) : Prop :=
  ∃ i j li lj, p !! i = Some li ∧ p !! j = Some lj ∧ i ≤ j ∧
    x ∈ data_entries_ li ∧ y ∈ positional_delete_entries_ lj.

Definition applies_eq (p : list LayerWithExtraInfo) (x : DataEntry)
    (y : EqualityDeleteInfo) : Prop :=
  ∃ i j li lj, p !! i = Some li ∧ p !! j = Some lj ∧ i ≤ j ∧
    x ∈ data_entries_ li ∧ y ∈ equality_delete_entries_ lj.

(** The path range of a delete file contains a data file; a delete file without
    statistics may mention any data file. *)
Definition covers (y : PositionalDeleteWithExtraInfo) (p : string) : Prop :=
  match min_max_referenced_path_ y with
  | None => True
  | Some (lo, hi) => String.le lo p ∧ String.le p hi
  end.

Definition must_apply (p : list LayerWithExtraInfo) (x : DataEntry)
    (y : PositionalDeleteWithExtraInfo) : Prop :=
  applies p x y ∧ covers y (de_path x).

(** Same contract on the final plan, [ScanMetadata::Partition]. *)
Definition plan_applies (p : Partition) (x : DataEntry) (y : PositionalDeleteInfo) : Prop :=
  ∃ i j li lj, p !! i = Some li ∧ p !! j = Some lj ∧ i ≤ j ∧
    x ∈ l_data_entries_ li ∧ y ∈ l_positional_delete_entries_ lj.

Definition plan_applies_eq (p : Partition) (x : DataEntry) (y : EqualityDeleteInfo) : Prop :=
  ∃ i j li lj, p !! i = Some li ∧ p !! j = Some lj ∧ i ≤ j ∧
    x ∈ l_data_entries_ li ∧ y ∈ l_equality_delete_entries_ lj.

(** Path ranges are intervals: what a writer of a delete file guarantees. *)
Definition ranges_valid (p : list LayerWithExtraInfo) : Prop :=
  ∀ l y lo hi, l ∈ p → y ∈ positional_delete_entries_ l →
    min_max_referenced_path_ y = Some (lo, hi) → String.le lo hi.

(** ** Files in listing order *)

Inductive item :=
| ID (x : DataEntry)
| IP (y : PositionalDeleteWithExtraInfo)
| IE (y : EqualityDeleteInfo).

Definition layer_items (l : LayerWithExtraInfo) : list item :=
  (ID <$> data_entries_ l) ++ (IP <$> positional_delete_entries_ l)
  ++ (IE <$> equality_delete_entries_ l).

Definition items (p : list LayerWithExtraInfo) : list item := flat_map layer_items p.

#[export] Instance ID_inj : Inj (=) (=) ID.
Proof. by intros ?? [= ->]. Qed.
#[export] Instance IP_inj : Inj (=) (=) IP.
Proof. by intros ?? [= ->]. Qed.
#[export] Instance IE_inj : Inj (=) (=) IE.
Proof. by intros ?? [= ->]. Qed.

Lemma elem_of_layer_items_ID l x : ID x ∈ layer_items l ↔ x ∈ data_entries_ l.
Proof. unfold layer_items. set_solver. Qed.
Lemma elem_of_layer_items_IP l x : IP x ∈ layer_items l ↔ x ∈ positional_delete_entries_ l.
Proof. unfold layer_items. set_solver. Qed.
Lemma elem_of_layer_items_IE l x : IE x ∈ layer_items l ↔ x ∈ equality_delete_entries_ l.
Proof. unfold layer_items. set_solver. Qed.

Lemma elem_of_items it p : it ∈ items p ↔ ∃ l, l ∈ p ∧ it ∈ layer_items l.
Proof.
  unfold items. rewrite list_elem_of_In, in_flat_map.
  setoid_rewrite list_elem_of_In. done.
Qed.

(** Inside one layer the data files come first, so a data file and a delete
    file of one layer are listed in this order, and never in the other. *)
Lemma layer_items_ID_before l x it :
  (∀ z, it ≠ ID z) →
  [ID x; it] `sublist_of` layer_items l ↔ ID x ∈ layer_items l ∧ it ∈ layer_items l.
Proof.
  intros Hit. unfold layer_items. rewrite !sublist_pair_app, !elem_of_app.
  assert (∀ (f : list DataEntry), [ID x; it] `sublist_of` (ID <$> f) → False) as H1.
  { intros f Hs. assert (it ∈ ID <$> f) as (z & -> & _)%list_elem_of_fmap.
    { rewrite <- singleton_sublist_l. trans [ID x; it]; [|done]. by apply sublist_cons. }
    by apply (Hit z). }
  assert (∀ l : list item, [ID x; it] `sublist_of` l → ID x ∈ l) as H2.
  { intros l' Hs. rewrite <- singleton_sublist_l. trans [ID x; it]; [|done].
    apply sublist_skip, sublist_nil_l. }
  assert (ID x ∉ IP <$> positional_delete_entries_ l) by set_solver.
  assert (ID x ∉ IE <$> equality_delete_entries_ l) by set_solver.
  assert (it ∉ ID <$> data_entries_ l).
  { intros (z & -> & _)%list_elem_of_fmap. by apply (Hit z). }
  naive_solver.
Qed.

(** Layer order is listing order, for any delete file [it] of the layer. *)
Lemma items_before_gen p x it :
  (∀ z, it ≠ ID z) →
  (∃ i j li lj, p !! i = Some li ∧ p !! j = Some lj ∧ i ≤ j ∧
     ID x ∈ layer_items li ∧ it ∈ layer_items lj) ↔
  [ID x; it] `sublist_of` items p.
Proof.
  intros Hit. induction p as [|l p IH]; simpl.
  - split; [intros (?&?&?&?&H&_); by rewrite lookup_nil in H|].
    intros H%sublist_nil_r. done.
  - rewrite sublist_pair_app, <- IH, layer_items_ID_before, elem_of_items by done. split.
    + intros ([|i] & [|j] & li & lj & Hi & Hj & Hij & Hx & Hy); simplify_eq/=; [by left| |lia|].
      * right; left. split; [done|]. exists lj. split; [|done]. by eapply list_elem_of_lookup_2.
      * right; right. exists i, j, li, lj. split_and!; auto with lia.
    + intros [[Hx Hy]|[[Hx (lj & Hl & Hy)]|(i & j & li & lj & Hi & Hj & Hij & Hx & Hy)]].
      * by exists 0, 0, l, l.
      * apply list_elem_of_lookup_1 in Hl as [j Hj]. exists 0, (S j), l, lj.
        split_and!; auto with lia.
      * exists (S i), (S j), li, lj. split_and!; auto with lia.
Qed.

Lemma applies_items p x y : applies p x y ↔ [ID x; IP y] `sublist_of` items p.
Proof.
  rewrite <- items_before_gen by done. unfold applies.
  by setoid_rewrite elem_of_layer_items_ID; setoid_rewrite elem_of_layer_items_IP.
Qed.

Lemma applies_eq_items p x y : applies_eq p x y ↔ [ID x; IE y] `sublist_of` items p.
Proof.
  rewrite <- items_before_gen by done. unfold applies_eq.
  by setoid_rewrite elem_of_layer_items_ID; setoid_rewrite elem_of_layer_items_IE.
Qed.

(** The contract depends on a partition only through its listing. *)
#[export] Instance applies_proper :
  Proper ((λ p q, items p = items q) ==> eq ==> eq ==> iff) applies.
Proof. intros p q Hpq x ? <- y ? <-. by rewrite !applies_items, Hpq. Qed.

(** ** Layer order in general

    [layered p P Q]: some layer with [P] is at or before some layer with [Q].
    The four notions above are instances. *)
Definition layered {L} (p : list L) (P Q : L → Prop) : Prop :=
  ∃ i j li lj, p !! i = Some li ∧ p !! j = Some lj ∧ i ≤ j ∧ P li ∧ Q lj.

Lemma layered_nil {L} (P Q : L → Prop) : ¬ layered [] P Q.
Proof. by intros (?&?&?&?&H&_); rewrite lookup_nil in H. Qed.

Lemma layered_cons {L} (l : L) p P Q :
  layered (l :: p) P Q ↔ (P l ∧ Q l) ∨ (P l ∧ ∃ l', l' ∈ p ∧ Q l') ∨ layered p P Q.
Proof.
  split.
  - intros ([|i] & [|j] & li & lj & Hi & Hj & Hij & Hx & Hy); simplify_eq/=; [by left| |lia|].
    + right; left. split; [done|]. exists lj. split; [|done]. by eapply list_elem_of_lookup_2.
    + right; right. exists i, j, li, lj. split_and!; auto with lia.
  - intros [[Hx Hy]|[[Hx (lj & [j Hj]%list_elem_of_lookup_1 & Hy)]|(i&j&li&lj&Hi&Hj&Hij&Hx&Hy)]].
    + by exists 0, 0, l, l.
    + exists 0, (S j), l, lj. split_and!; auto with lia.
    + exists (S i), (S j), li, lj. split_and!; auto with lia.
Qed.

(** Dropping layers that satisfy neither side changes nothing. *)
Lemma layered_filter {L} (keep : L → bool) p P Q :
  (∀ l, P l → keep l = true) → (∀ l, Q l → keep l = true) →
  layered (List.filter keep p) P Q ↔ layered p P Q.
Proof.
  intros HP HQ. induction p as [|l p IH]; [done|]. simpl. rewrite layered_cons, <- IH.
  assert ((∃ l', l' ∈ List.filter keep p ∧ Q l') ↔ (∃ l', l' ∈ p ∧ Q l')) as Hex.
  { setoid_rewrite list_elem_of_In. setoid_rewrite filter_In. naive_solver. }
  destruct (keep l) eqn:E.
  - by rewrite layered_cons, Hex.
  - assert (¬ P l) by (intros ?%HP; congruence). naive_solver.
Qed.

(** Layers with the same number correspond. *)
Lemma layered_impl {L M} (p : list L) (q : list M) (P Q : L → Prop) (P' Q' : M → Prop) :
  (∀ i l, p !! i = Some l → P l → ∃ m, q !! i = Some m ∧ P' m) →
  (∀ i j li lj, p !! i = Some li → p !! j = Some lj → i ≤ j → P li → Q lj →
     ∃ m, q !! j = Some m ∧ Q' m) →
  layered p P Q → layered q P' Q'.
Proof.
  intros HP HQ (i & j & li & lj & Hi & Hj & Hij & Hx & Hy).
  destruct (HP i li Hi Hx) as (mi & ? & ?). destruct (HQ i j li lj Hi Hj Hij Hx Hy) as (mj & ? & ?).
  by exists i, j, mi, mj.
Qed.

Lemma applies_layered p x y :
  applies p x y ↔ layered p (λ l, x ∈ data_entries_ l) (λ l, y ∈ positional_delete_entries_ l).
Proof. done. Qed.
Lemma applies_eq_layered p x y :
  applies_eq p x y ↔ layered p (λ l, x ∈ data_entries_ l) (λ l, y ∈ equality_delete_entries_ l).
Proof. done. Qed.
Lemma plan_applies_layered p x y :
  plan_applies p x y ↔ layered p (λ l, x ∈ l_data_entries_ l) (λ l, y ∈ l_positional_delete_entries_ l).
Proof. done. Qed.
Lemma plan_applies_eq_layered p x y :
  plan_applies_eq p x y ↔ layered p (λ l, x ∈ l_data_entries_ l) (λ l, y ∈ l_equality_delete_entries_ l).
Proof. done. Qed.
