(* ===== verification/PosDelOptimizer.v ===== *)
(** * PosDelOptimizer: the scanline split of a partition into buckets

    [PositonalDeleteOptimizer] of [iceberg/tea_scan.cpp]: positional delete
    files are intervals of data-file paths, data files are points; a sweep over
    the sorted end points finds paths at which no interval is open, and the
    partition is split there into independent buckets.

    The proofs rest on one observation: listing the files of a partition layer
    by layer, data files first, turns "layer of the data file <= layer of the
    delete file" into "listed before"; appending a file to a bucket appends it
    to the bucket's list, so a bucket's list is the partition's list filtered
    by bucket number. *)

From stdpp Require Import base list sorting strings gmap sets.
From Stdlib Require Import Lia.
From S2P Require Import Prelude OrderedMap Types ScanTypes Layering.

Module PositonalDeleteOptimizer.

(** ** Events *)

Inductive EventType := kStartPositionalDelete | kDataFile | kEndPositionalDelete.

Definition type_code (t : EventType) : nat :=
  match t with kStartPositionalDelete => 0 | kDataFile => 1 | kEndPositionalDelete => 2 end.

Record Event := { type : EventType; path : string }.

(** [operator<]: lexicographic on (path, type). *)
Definition event_lt (a b : Event) : bool :=
  match String.compare (path a) (path b) with
  | Lt => true
  | Gt => false
  | Eq => bool_decide (type_code (type a) < type_code (type b))
  end.

Definition CreateFromDelete (del : PositionalDeleteWithExtraInfo) : result (Event * Event) :=
  match min_max_referenced_path_ del with
  | None => Err (Exn "CreateFromDelete: internal error")
  | Some (min, max) =>
      Ok ({| type := kStartPositionalDelete; path := min |},
          {| type := kEndPositionalDelete; path := max |})
  end.

Definition CreateFromData (data : DataEntry) : Event :=
  {| type := kDataFile; path := de_path data |}.

Definition push_delete_events (events : list Event) (del : PositionalDeleteWithExtraInfo) :
    result (list Event) :=
  let! '(start, end_) := CreateFromDelete del in
  Ok (events ++ [start; end_]).

Definition GetEventsInPartition (partition : list LayerWithExtraInfo) : result (list Event) :=
  fold_ok (λ events layer,
    let! events := fold_ok push_delete_events events (positional_delete_entries_ layer) in
    Ok (events ++ (CreateFromData <$> data_entries_ layer))) [] partition.

(** [std::sort]: events that [operator<] does not separate are equal, so every
    sorted permutation is the same list. *)
Definition event_le (a b : Event) : Prop := event_lt b a = false.
#[export] Instance event_le_dec : RelDecision event_le.
Proof. intros a b. unfold event_le. apply _. Defined.

Definition sort_events (events : list Event) : list Event := merge_sort event_le events.

(** ** The sweep *)

Definition sweep_step (st : nat * list string) (event : Event) : result (nat * list string) :=
  let '(balance, bounds) := st in
  let bounds := if bool_decide (balance = 0) then bounds ++ [path event] else bounds in
  match type event with
  | kStartPositionalDelete => Ok (S balance, bounds)
  | kDataFile => Ok (balance, bounds)
  | kEndPositionalDelete =>
      let! _ := Ensure (bool_decide (0 < balance)) "FindBucketLowerBounds: internal error" in
      Ok (Nat.pred balance, bounds)
  end.

Definition FindBucketLowerBounds (partition : list LayerWithExtraInfo) : result (list string) :=
  let! events := GetEventsInPartition partition in
  let! '(balance, bucket_lower_bounds) := fold_ok sweep_step (0, []) (sort_events events) in
  let! _ := Ensure (bool_decide (balance = 0)) "FindBucketLowerBounds: internal error" in
  Ok bucket_lower_bounds.

(** [std::upper_bound] on a sorted vector: the index of the first bound that is
    greater than the path. *)
Fixpoint upper_bound (bounds : list string) (p : string) : nat :=
  match bounds with
  | [] => 0
  | b :: bounds => if String.ltb p b then 0 else S (upper_bound bounds p)
  end.

Definition CalculateBucketByPath (bucket_lower_bounds : list string) (p : string) : result nat :=
  let it := upper_bound bucket_lower_bounds p in
  let! _ := Ensure (bool_decide (it ≠ 0)) "CalculateBucketByPath: internal error" in
  Ok (Nat.pred it).

(** ** Redistribution *)

(** Modify [bucket.back()]. *)
Fixpoint modify_back {A} (f : A → A) (l : list A) : list A :=
  match l with
  | [] => []
  | [x] => [f x]
  | x :: l => x :: modify_back f l
  end.

Definition add_data (data : DataEntry) (l : LayerWithExtraInfo) : LayerWithExtraInfo :=
  {| data_entries_ := data_entries_ l ++ [data];
     positional_delete_entries_ := positional_delete_entries_ l;
     equality_delete_entries_ := equality_delete_entries_ l;
     dv_entries_ := dv_entries_ l |}.

Definition add_delete (del : PositionalDeleteWithExtraInfo) (l : LayerWithExtraInfo) :
    LayerWithExtraInfo :=
  {| data_entries_ := data_entries_ l;
     positional_delete_entries_ := positional_delete_entries_ l ++ [del];
     equality_delete_entries_ := equality_delete_entries_ l;
     dv_entries_ := dv_entries_ l |}.

Definition AppendDataFileToBucket (bucket : list LayerWithExtraInfo) (data : DataEntry) :
    list LayerWithExtraInfo :=
  let bucket :=
    match last bucket with
    | None => bucket ++ [empty_layer]
    | Some back =>
        if is_nil (positional_delete_entries_ back) then bucket else bucket ++ [empty_layer]
    end in
  modify_back (add_data data) bucket.

Definition AppendDeleteFileToBucket (bucket : list LayerWithExtraInfo)
    (del : PositionalDeleteWithExtraInfo) : list LayerWithExtraInfo :=
  let bucket := if is_nil bucket then bucket ++ [empty_layer] else bucket in
  modify_back (add_delete del) bucket.

Definition place_data (bounds : list string) (buckets : list (list LayerWithExtraInfo))
    (data : DataEntry) : result (list (list LayerWithExtraInfo)) :=
  let! group := CalculateBucketByPath bounds (de_path data) in
  Ok (alter (λ b, AppendDataFileToBucket b data) group buckets).

Definition place_delete (bounds : list string) (buckets : list (list LayerWithExtraInfo))
    (del : PositionalDeleteWithExtraInfo) : result (list (list LayerWithExtraInfo)) :=
  match min_max_referenced_path_ del with
  | None => Err (Exn "bad_optional_access")
  | Some (min, max) =>
      let! bucket_1 := CalculateBucketByPath bounds min in
      let! bucket_2 := CalculateBucketByPath bounds max in
      let! _ := Ensure (bool_decide (bucket_1 = bucket_2))
                       "RedistributeDataIntoBuckets: internal error" in
      Ok (alter (λ b, AppendDeleteFileToBucket b del) bucket_1 buckets)
  end.

Definition RedistributeDataIntoBuckets (bounds : list string)
    (partition : list LayerWithExtraInfo) : result (list (list LayerWithExtraInfo)) :=
  fold_ok (λ buckets layer,
    let! buckets := fold_ok (place_data bounds) buckets (data_entries_ layer) in
    fold_ok (place_delete bounds) buckets (positional_delete_entries_ layer))
    (replicate (length bounds) []) partition.

(** ** The entry points *)

Definition CanOptimizePartition (layers : list LayerWithExtraInfo) : bool :=
  let has_positional_delete :=
    existsb (λ l, negb (is_nil (positional_delete_entries_ l))) layers in
  let has_positional_delete_without_stats :=
    existsb (λ l, existsb (λ e, negb (bool_decide (is_Some (min_max_referenced_path_ e))))
                          (positional_delete_entries_ l)) layers in
  let has_equality_delete :=
    existsb (λ l, negb (is_nil (equality_delete_entries_ l))) layers in
  has_positional_delete && negb has_positional_delete_without_stats && negb has_equality_delete.

Definition CanOptimize (partitions : list (list LayerWithExtraInfo)) : bool :=
  existsb CanOptimizePartition partitions.

Definition OptimizePartition (partition : list LayerWithExtraInfo) :
    result (list (list LayerWithExtraInfo)) :=
  let! bucket_lower_bounds := FindBucketLowerBounds partition in
  RedistributeDataIntoBuckets bucket_lower_bounds partition.

Definition Optimize (partitions : list (list LayerWithExtraInfo)) :
    result (list (list LayerWithExtraInfo)) :=
  fold_ok (λ result partition,
    if CanOptimizePartition partition then
      let! new_partitions := OptimizePartition partition in
      Ok (result ++ new_partitions)
    else Ok (result ++ [partition])) [] partitions.

(** ** The order of events *)

Lemma event_lt_spec a b :
  event_lt a b = true ↔
  (String.le (path a) (path b) ∧ path a ≠ path b) ∨
  (path a = path b ∧ type_code (type a) < type_code (type b)).
Proof.
  unfold event_lt. destruct (String.compare (path a) (path b)) eqn:E.
  - apply String.compare_eq_iff in E. rewrite bool_decide_eq_true. naive_solver.
  - apply string_compare_Lt_le in E. naive_solver.
  - split; [done|]. intros H. assert (String.compare (path b) (path a) = Lt) as E'.
    { rewrite String.compare_antisym, E. done. }
    apply string_compare_Lt_le in E' as [E1 E2].
    destruct H as [[H _]|[H _]]; [|done].
    by destruct E2; apply (anti_symm String.le).
Qed.

Lemma event_le_spec a b :
  event_le a b ↔
  (String.le (path a) (path b) ∧ path a ≠ path b) ∨
  (path a = path b ∧ type_code (type a) ≤ type_code (type b)).
Proof.
  unfold event_le. rewrite <- not_true_iff_false, event_lt_spec. split.
  - intros H. destruct (decide (path a = path b)) as [e|n].
    + right. split; [done|]. destruct (decide (type_code (type a) ≤ type_code (type b))); [done|].
      destruct H. right. split; [done|lia].
    + left. split; [|done]. destruct (total String.le (path a) (path b)); [done|].
      destruct H. left. auto.
  - intros [[H1 H2]|[H1 H2]] [[H3 H4]|[H3 H4]]; try congruence; [|lia].
    by destruct H2; apply (anti_symm String.le).
Qed.

Lemma event_le_path a b : event_le a b → String.le (path a) (path b).
Proof. rewrite event_le_spec. intros [[? _]|[-> _]]; done. Qed.

#[export] Instance event_le_trans : Transitive event_le.
Proof.
  intros a b c. rewrite !event_le_spec.
  intros [[H1 N1]|[E1 H1]] [[H2 N2]|[E2 H2]].
  - left. split; [by trans (path b)|]. intros E. rewrite E in H1.
    by destruct N2; apply (anti_symm String.le).
  - left. by rewrite <- E2.
  - left. by rewrite E1.
  - right. split; [congruence|lia].
Qed.

#[export] Instance event_le_total : Total event_le.
Proof.
  intros a b. rewrite !event_le_spec.
  destruct (decide (path a = path b)) as [e|n].
  - destruct (decide (type_code (type a) ≤ type_code (type b))); [naive_solver|].
    right. right. split; [done|lia].
  - destruct (total String.le (path a) (path b)); naive_solver.
Qed.

(** ** The sweep, on any sorted list of bracketed events *)

Definition is_start (e : Event) : bool := bool_decide (type_code (type e) = 0).
Definition is_end (e : Event) : bool := bool_decide (type_code (type e) = 2).
Definition path_lt (b : string) (e : Event) : bool :=
  bool_decide (String.le (path e) b) && negb (bool_decide (path e = b)).
Definition path_le (b : string) (e : Event) : bool := bool_decide (String.le (path e) b).

(** Every prefix of the path axis closes at most the ranges it opens. *)
Record bracketed (L : list Event) : Prop := {
  br_lt : ∀ b, count (λ e, is_end e && path_lt b e) L ≤ count (λ e, is_start e && path_lt b e) L;
  br_le : ∀ b, count (λ e, is_end e && path_le b e) L ≤ count (λ e, is_start e && path_le b e) L;
  br_total : count is_end L = count is_start L;
}.

Lemma is_start_code e : is_start e = true ↔ type_code (type e) = 0.
Proof. apply bool_decide_eq_true. Qed.
Lemma is_end_code e : is_end e = true ↔ type_code (type e) = 2.
Proof. apply bool_decide_eq_true. Qed.
Lemma path_lt_spec b e : path_lt b e = true ↔ String.le (path e) b ∧ path e ≠ b.
Proof.
  unfold path_lt. rewrite andb_true_iff, negb_true_iff, bool_decide_eq_true, bool_decide_eq_false.
  done.
Qed.
Lemma path_le_spec b e : path_le b e = true ↔ String.le (path e) b.
Proof. apply bool_decide_eq_true. Qed.

Section sweep.
Context (L : list Event) (Hsorted : StronglySorted event_le L) (Hbr : bracketed L).

Definition opens (P : list Event) : nat := count is_start P.
Definition closes (P : list Event) : nat := count is_end P.

Lemma split_before P e Q x : L = P ++ e :: Q → x ∈ P → event_le x e.
Proof. intros HL Hx. rewrite HL in Hsorted. eapply StronglySorted_app_1_elem_of; [done..|by left]. Qed.

Lemma split_after P e Q x : L = P ++ e :: Q → x ∈ Q → event_le e x.
Proof.
  intros HL Hx. rewrite HL in Hsorted. apply StronglySorted_app_1_r, SSorted_cons in Hsorted.
  by apply Hsorted.
Qed.

(** All events strictly below [e] that satisfy [p] are in the prefix. *)
Lemma count_prefix P e Q (p : Event → bool) :
  L = P ++ e :: Q → (∀ x, p x = true → ¬ event_le e x) → count p L ≤ count p P.
Proof.
  intros HL Hp. rewrite HL, count_app, (count_zero p (e :: Q)); [lia|].
  intros x Hx. apply not_true_iff_false. intros Hpx. apply (Hp x Hpx).
  apply elem_of_cons in Hx as [->|Hx]; [|by eapply split_after].
  apply event_le_spec. by right.
Qed.

(** At an end event some range is open. *)
Lemma open_at_end P e Q : L = P ++ e :: Q → is_end e = true → closes P < opens P.
Proof.
  intros HL He. unfold opens, closes.
  assert (count (λ x, is_start x && path_le (path e) x) L ≤ count is_start P) as Hs.
  { trans (count (λ x, is_start x && path_le (path e) x) P); [|apply count_andb_l].
    apply count_prefix with e Q; [done|]. intros x [Hx1 Hx2]%andb_true_iff Hle.
    apply is_start_code in Hx1. apply is_end_code in He. apply path_le_spec in Hx2.
    apply event_le_spec in Hle as [[H1 H2]|[H1 H2]]; [|lia].
    by destruct H2; apply (anti_symm String.le). }
  assert (count is_end P < count (λ x, is_end x && path_le (path e) x) L) as He'.
  { rewrite HL, count_app, count_cons, He. unfold path_le at 2. rewrite bool_decide_true by done.
    simpl. assert (count is_end P ≤ count (λ x, is_end x && path_le (path e) x) P); [|lia].
    apply count_le. intros x Hx Hxe. rewrite Hxe. simpl. apply path_le_spec, event_le_path.
    by eapply split_before. }
  pose proof (br_le L Hbr (path e)). lia.
Qed.

(** A range that starts strictly before a path and ends at or after it is
    open at every event of that path. *)
Lemma open_inside P e Q :
  L = P ++ e :: Q → is_end e = false →
  count (λ x, is_end x && path_lt (path e) x) L < count (λ x, is_start x && path_lt (path e) x) L →
  closes P < opens P.
Proof.
  intros HL He Hlt. unfold opens, closes.
  assert (count (λ x, is_start x && path_lt (path e) x) L ≤ count is_start P) as Hs.
  { trans (count (λ x, is_start x && path_lt (path e) x) P); [|apply count_andb_l].
    apply count_prefix with e Q; [done|]. intros x [Hx1 [Hx2 Hx3]%path_lt_spec]%andb_true_iff Hle.
    apply event_le_path in Hle. by destruct Hx3; apply (anti_symm String.le). }
  assert (count is_end P ≤ count (λ x, is_end x && path_lt (path e) x) L) as He'.
  { rewrite HL, count_app. trans (count (λ x, is_end x && path_lt (path e) x) P); [|lia].
    apply count_le. intros x Hx Hxe. rewrite Hxe. simpl. apply path_lt_spec.
    assert (event_le x e) as Hle by (by eapply split_before).
    apply event_le_spec in Hle as [[H1 H2]|[H1 H2]]; [done|].
    apply is_end_code in Hxe. apply not_true_iff_false in He. destruct He. apply is_end_code.
    destruct (type e); simpl in *; lia. }
  lia.
Qed.

(** What the sweep has established after a prefix [P]. *)
Record sweep_inv (P : list Event) (balance : nat) (bounds : list string) : Prop := {
  si_balance : balance + closes P = opens P;
  si_bounds : ∀ b, b ∈ bounds →
    ∃ P' e Q', L = P' ++ e :: Q' ∧ path e = b ∧ opens P' = closes P';
  si_from : ∀ b, b ∈ bounds → ∃ e, e ∈ P ∧ path e = b;
  si_sorted : StronglySorted String.le bounds;
  si_below : ∀ e, e ∈ P → ∃ b, b ∈ bounds ∧ String.le b (path e);
}.

Lemma sweep_bounds_step P e Q balance bounds :
  L = P ++ e :: Q → sweep_inv P balance bounds →
  let bounds' := if bool_decide (balance = 0) then bounds ++ [path e] else bounds in
  (∀ b, b ∈ bounds' → ∃ P' e' Q', L = P' ++ e' :: Q' ∧ path e' = b ∧ opens P' = closes P') ∧
  (∀ b, b ∈ bounds' → ∃ e', e' ∈ P ++ [e] ∧ path e' = b) ∧
  StronglySorted String.le bounds' ∧
  (∀ e', e' ∈ P ++ [e] → ∃ b, b ∈ bounds' ∧ String.le b (path e')).
Proof.
  intros HL [Hbal Hb Hfrom Hs Hlow]. simpl. case_bool_decide as Hz.
  - split_and!.
    + intros b [Hin| ->%list_elem_of_singleton]%elem_of_app; [by apply Hb|].
      exists P, e, Q. split_and!; [done|done|lia].
    + intros b [Hin| ->%list_elem_of_singleton]%elem_of_app.
      * apply Hfrom in Hin as (e' & ? & ?). exists e'. split; [|done]. apply elem_of_app. by left.
      * exists e. split; [|done]. apply elem_of_app. right. by apply list_elem_of_singleton.
    + apply StronglySorted_app_2; [|done|repeat constructor].
      intros b ? (e' & He' & <-)%Hfrom ->%list_elem_of_singleton.
      apply event_le_path. by eapply split_before.
    + intros e' [(b & ? & ?)%Hlow| ->%list_elem_of_singleton]%elem_of_app.
      * exists b. split; [apply elem_of_app; by left|done].
      * exists (path e). split; [|done]. apply elem_of_app. right. by apply list_elem_of_singleton.
  - split_and!; [done| |done|].
    + intros b (e' & ? & ?)%Hfrom. exists e'. split; [|done]. apply elem_of_app. by left.
    + intros e' [?%Hlow| ->%list_elem_of_singleton]%elem_of_app; [done|].
      destruct P as [|e0 P'] eqn:EP.
      { unfold opens, closes in Hbal. rewrite !count_nil in Hbal. lia. }
      destruct (Hlow e0) as (b & Hb1 & Hb2); [by left|]. exists b. split; [done|].
      trans (path e0); [done|]. apply event_le_path. apply (split_before (e0 :: P') e Q); [done|by left].
Qed.

Lemma sweep_prefix Q P :
  L = P ++ Q →
  ∃ balance bounds, fold_ok sweep_step (0, []) P = Ok (balance, bounds) ∧
    sweep_inv P balance bounds.
Proof.
  revert Q. induction P as [|e P IH] using rev_ind; intros Q HL.
  { exists 0, []. split; [done|].
    split; [done| | |constructor|]; intros b Hb; by apply elem_of_nil in Hb. }
  rewrite <- app_assoc in HL. simpl in HL.
  destruct (IH (e :: Q) HL) as (balance & bounds & Hf & Hinv).
  rewrite fold_ok_app, Hf. simpl.
  pose proof (sweep_bounds_step _ _ _ _ _ HL Hinv) as (H1 & H2 & H3 & H4). simpl in *.
  destruct Hinv as [Hbal _ _ _ _].
  assert (opens (P ++ [e]) = opens P + (if is_start e then 1 else 0)) as Ho.
  { unfold opens. rewrite count_app, count_cons, count_nil. lia. }
  assert (closes (P ++ [e]) = closes P + (if is_end e then 1 else 0)) as Hc.
  { unfold closes. rewrite count_app, count_cons, count_nil. lia. }
  assert (is_end e = true → 0 < balance) as Hopen.
  { intros He. pose proof (open_at_end P e Q HL He). lia. }
  unfold is_start, is_end in Ho, Hc, Hopen.
  destruct (type e) eqn:Et; simpl in *.
  - eexists _, _. split; [reflexivity|]. split; auto. lia.
  - eexists _, _. split; [reflexivity|]. split; auto. lia.
  - rewrite bool_decide_true by auto. simpl.
    eexists _, _. split; [reflexivity|]. split; auto. specialize (Hopen eq_refl). lia.
Qed.

(** The sweep returns; its bounds are sorted, there is one at or below every
    event, and none lies strictly inside an open range. *)
Lemma sweep_correct :
  ∃ bounds, fold_ok sweep_step (0, []) L = Ok (0, bounds) ∧
    StronglySorted String.le bounds ∧
    (∀ e, e ∈ L → ∃ b, b ∈ bounds ∧ String.le b (path e)) ∧
    (∀ b, b ∈ bounds →
      count (λ x, is_end x && path_lt b x) L = count (λ x, is_start x && path_lt b x) L).
Proof.
  destruct (sweep_prefix [] L) as (balance & bounds & Hf & [Hbal Hb Hfrom Hs Hlow]).
  { by rewrite app_nil_r. }
  pose proof (br_total L Hbr) as Ht. unfold opens, closes in Hbal.
  assert (balance = 0) as -> by lia.
  exists bounds. split_and!; [done|done| |].
  - done.
  - intros b (P & e & Q & HL & <- & Heq)%Hb. apply Nat.le_antisymm; [by apply br_lt|].
    apply Nat.nlt_ge. intros Hlt. enough (closes P < opens P) by lia.
    destruct (is_end e) eqn:He; [by eapply open_at_end|by eapply open_inside].
Qed.
End sweep.

(** ** The events of a partition *)

Definition del_events (y : PositionalDeleteWithExtraInfo) : list Event :=
  match min_max_referenced_path_ y with
  | None => []
  | Some (lo, hi) => [{| type := kStartPositionalDelete; path := lo |};
                      {| type := kEndPositionalDelete; path := hi |}]
  end.

Definition layer_events (l : LayerWithExtraInfo) : list Event :=
  flat_map del_events (positional_delete_entries_ l) ++ (CreateFromData <$> data_entries_ l).

Definition all_stats (p : list LayerWithExtraInfo) : Prop :=
  ∀ l y, l ∈ p → y ∈ positional_delete_entries_ l → is_Some (min_max_referenced_path_ y).

Lemma delete_events_loop ys acc :
  (∀ y, y ∈ ys → is_Some (min_max_referenced_path_ y)) →
  fold_ok push_delete_events acc ys = Ok (acc ++ flat_map del_events ys).
Proof.
  revert acc. induction ys as [|y ys IH]; intros acc Hall; simpl; [by rewrite app_nil_r|].
  destruct (Hall y) as [[lo hi] Hy]; [by left|].
  unfold push_delete_events at 1, CreateFromDelete, del_events. rewrite Hy. simpl.
  rewrite IH by (intros; apply Hall; by right). by rewrite <- app_assoc.
Qed.

Lemma GetEventsInPartition_ok p :
  all_stats p → GetEventsInPartition p = Ok (flat_map layer_events p).
Proof.
  intros Hall. unfold GetEventsInPartition. change (flat_map layer_events p) with ([] ++ flat_map layer_events p).
  generalize (@nil Event) as acc. induction p as [|l p IH]; intros acc; simpl; [by rewrite app_nil_r|].
  rewrite delete_events_loop by (intros; eapply Hall; [by left|done]). simpl.
  rewrite IH by (intros ????; eapply Hall; [by right|done]).
  unfold layer_events at 2. by rewrite <- !app_assoc.
Qed.

(** Counting a property of events over a partition, when only the range
    boundaries can have it. *)
Lemma count_layer_events (q : Event → bool) p :
  (∀ d, q (CreateFromData d) = false) →
  count q (flat_map layer_events p)
  = sum_list_with (λ y, count q (del_events y)) (flat_map positional_delete_entries_ p).
Proof.
  intros Hq. induction p as [|l p IH]; [done|]. simpl.
  unfold layer_events at 1. rewrite !count_app, IH, count_flat_map, sum_list_with_app.
  rewrite (count_zero q (CreateFromData <$> data_entries_ l)); [lia|].
  by intros ? (d & -> & _)%list_elem_of_fmap.
Qed.

Section partition_events.
Context (p : list LayerWithExtraInfo) (Hstats : all_stats p) (Hvalid : ranges_valid p).

Let E := flat_map layer_events p.

Lemma del_events_le (q : string → bool) y :
  y ∈ flat_map positional_delete_entries_ p →
  (∀ a b, String.le a b → q b = true → q a = true) →
  count (λ e, is_end e && q (path e)) (del_events y)
  ≤ count (λ e, is_start e && q (path e)) (del_events y).
Proof.
  intros (l & Hl & Hy)%elem_of_flat_map Hq. unfold del_events.
  destruct (min_max_referenced_path_ y) as [[lo hi]|] eqn:Em; [|done].
  rewrite !count_cons, !count_nil. simpl.
  destruct (q hi) eqn:Eh; [|destruct (q lo); simpl; lia].
  rewrite (Hq lo hi) by (done || by eapply Hvalid). done.
Qed.

Lemma events_count_le (q : string → bool) :
  (∀ a b, String.le a b → q b = true → q a = true) →
  count (λ e, is_end e && q (path e)) E ≤ count (λ e, is_start e && q (path e)) E.
Proof.
  intros Hq. unfold E. rewrite !count_layer_events by done.
  apply sum_list_with_le. intros y Hy. by apply del_events_le.
Qed.

Definition str_le (b a : string) : bool := bool_decide (String.le a b).
Definition str_lt (b a : string) : bool := bool_decide (String.le a b) && negb (bool_decide (a = b)).

Lemma str_lt_down b a a' : String.le a a' → str_lt b a' = true → str_lt b a = true.
Proof.
  unfold str_lt. rewrite !andb_true_iff, !negb_true_iff, !bool_decide_eq_true, !bool_decide_eq_false.
  intros H1 [H2 H3]. split; [by trans a'|]. intros ->. by destruct H3; apply (anti_symm String.le).
Qed.

Lemma events_bracketed : bracketed E.
Proof.
  split.
  - intros b. apply (events_count_le (str_lt b)). intros ??. apply str_lt_down.
  - intros b. apply (events_count_le (str_le b)).
    intros a a'. unfold str_le. rewrite !bool_decide_eq_true. intros. by trans a'.
  - unfold E. rewrite !count_layer_events by done. apply Nat.le_antisymm; apply sum_list_with_le;
      intros y _; unfold del_events; destruct (min_max_referenced_path_ y) as [[??]|]; done.
Qed.

(** A path at which the counts agree is not strictly inside any range. *)
Lemma balanced_not_inside b y lo hi :
  count (λ e, is_end e && path_lt b e) E = count (λ e, is_start e && path_lt b e) E →
  y ∈ flat_map positional_delete_entries_ p → min_max_referenced_path_ y = Some (lo, hi) →
  String.le b hi → String.le b lo.
Proof.
  intros Heq Hy Hm Hhi. destruct (total String.le b lo) as [|Hlo]; [done|].
  destruct (decide (b = lo)) as [->|Hne]; [done|]. exfalso.
  apply (Nat.lt_irrefl (count (λ e, is_start e && path_lt b e) E)).
  rewrite <- Heq at 1. unfold E. rewrite !count_layer_events by done.
  apply sum_list_with_lt with y; [|done|].
  - intros y' Hy'. apply (del_events_le (str_lt b)); [done|]. intros ??. apply str_lt_down.
  - unfold del_events. rewrite Hm, !count_cons, !count_nil. unfold path_lt. simpl.
    rewrite (bool_decide_true (String.le lo b)), (bool_decide_false (lo = b)) by auto. simpl.
    assert (bool_decide (String.le hi b) && negb (bool_decide (hi = b)) = false) as ->; [|lia].
    case_bool_decide; [|done]. by rewrite bool_decide_true by by apply (anti_symm String.le).
Qed.
End partition_events.

(** [FindBucketLowerBounds] returns on every partition whose delete files all
    have statistics with valid ranges, and no bound falls inside a range. *)
Lemma FindBucketLowerBounds_spec p :
  all_stats p → ranges_valid p →
  ∃ bounds, FindBucketLowerBounds p = Ok bounds ∧ StronglySorted String.le bounds ∧
    (∀ e, e ∈ flat_map layer_events p → ∃ b, b ∈ bounds ∧ String.le b (path e)) ∧
    (∀ y lo hi b, y ∈ flat_map positional_delete_entries_ p →
       min_max_referenced_path_ y = Some (lo, hi) → b ∈ bounds → String.le b hi → String.le b lo).
Proof.
  intros Hstats Hvalid. set (E := flat_map layer_events p).
  assert (sort_events E ≡ₚ E) as Hperm by apply merge_sort_Permutation.
  destruct (sweep_correct (sort_events E)) as (bounds & Hf & Hs & Hlow & Hbal).
  - apply StronglySorted_merge_sort; apply _.
  - destruct (events_bracketed p Hvalid) as [B1 B2 B3].
    split; intros; rewrite !(count_perm _ _ _ Hperm); auto.
  - exists bounds. unfold FindBucketLowerBounds. rewrite GetEventsInPartition_ok by done. simpl.
    fold E. rewrite Hf. simpl. split_and!; [done|done| |].
    + intros e He. apply Hlow. by rewrite Hperm.
    + intros y lo hi b Hy Hm Hb. apply (balanced_not_inside p Hvalid b y lo hi); [|done..].
      specialize (Hbal b Hb). by rewrite !(count_perm _ _ _ Hperm) in Hbal.
Qed.

(** ** Bucket numbers *)

Lemma ltb_not_le (a b : string) : String.ltb a b = true ↔ ¬ String.le b a.
Proof.
  unfold String.ltb. split.
  - intros H Hle. destruct (String.compare a b) eqn:E; try done.
    apply string_compare_Lt_le in E as [E1 E2]. by destruct E2; apply (anti_symm String.le).
  - intros H. destruct (String.compare a b) eqn:E; [|done|].
    + apply String.compare_eq_iff in E as ->. by destruct H.
    + destruct H. rewrite String.compare_antisym in E.
      destruct (String.compare b a) eqn:E'; try done. by apply string_compare_Lt_le in E' as [? _].
Qed.

Lemma upper_bound_ext bounds a b :
  (∀ x, x ∈ bounds → String.le x a ↔ String.le x b) → upper_bound bounds a = upper_bound bounds b.
Proof.
  induction bounds as [|x bounds IH]; intros H; simpl; [done|].
  assert (String.ltb a x = String.ltb b x) as ->.
  { apply eq_iff_eq_true. rewrite !ltb_not_le, (H x) by by left. done. }
  rewrite IH; [done|]. intros. apply H. by right.
Qed.

Lemma upper_bound_le_length bounds a : upper_bound bounds a ≤ length bounds.
Proof. induction bounds as [|x bounds IH]; simpl; [done|]. case_match; lia. Qed.

Lemma upper_bound_pos bounds a b :
  StronglySorted String.le bounds → b ∈ bounds → String.le b a → upper_bound bounds a ≠ 0.
Proof.
  destruct bounds as [|x bounds]; [by intros _ ?%elem_of_nil|]. simpl.
  intros [Hx _]%SSorted_cons Hb Hba. destruct (String.ltb a x) eqn:E; [|done].
  apply ltb_not_le in E. destruct E. trans b; [|done].
  apply elem_of_cons in Hb as [->|Hb]; [done|by apply Hx].
Qed.

Lemma CalculateBucketByPath_ok bounds a b :
  StronglySorted String.le bounds → b ∈ bounds → String.le b a →
  CalculateBucketByPath bounds a = Ok (Nat.pred (upper_bound bounds a)) ∧
  Nat.pred (upper_bound bounds a) < length bounds.
Proof.
  intros Hs Hb Hba. pose proof (upper_bound_pos _ _ _ Hs Hb Hba).
  pose proof (upper_bound_le_length bounds a).
  unfold CalculateBucketByPath. rewrite bool_decide_true by done. split; [done|lia].
Qed.

(** ** Appending to a bucket appends to its listing *)

Lemma modify_back_snoc {A} (f : A → A) l x : modify_back f (l ++ [x]) = l ++ [f x].
Proof. induction l as [|y [|z l] IH]; simpl in *; [done|done|]. by rewrite IH. Qed.

Lemma items_app p q : items (p ++ q) = items p ++ items q.
Proof. unfold items. apply flat_map_app. Qed.

Lemma items_singleton l : items [l] = layer_items l.
Proof. unfold items. simpl. apply app_nil_r. Qed.

Definition no_eq (p : list LayerWithExtraInfo) : Prop :=
  ∀ l, l ∈ p → equality_delete_entries_ l = [].

Lemma no_eq_snoc p l : no_eq (p ++ [l]) ↔ no_eq p ∧ equality_delete_entries_ l = [].
Proof. unfold no_eq. set_solver. Qed.

Lemma append_data_items b x :
  no_eq b → no_eq (AppendDataFileToBucket b x) ∧
    items (AppendDataFileToBucket b x) = items b ++ [ID x].
Proof.
  intros Hb. unfold AppendDataFileToBucket.
  assert (no_eq (b ++ [add_data x empty_layer]) ∧
          items (b ++ [add_data x empty_layer]) = items b ++ [ID x]) as Hnew.
  { split; [by apply no_eq_snoc|]. by rewrite items_app. }
  destruct b as [|l b _] using rev_ind; [done|]. rewrite last_snoc.
  destruct (is_nil (positional_delete_entries_ l)) eqn:E; rewrite modify_back_snoc; [|done].
  apply no_eq_snoc in Hb as [Hb Hl]. apply is_nil_true in E.
  split; [by apply no_eq_snoc|]. rewrite !items_app, !items_singleton.
  unfold layer_items, add_data. simpl. rewrite Hl, E. simpl.
  by rewrite fmap_app, !app_nil_r, <- app_assoc.
Qed.

Lemma append_delete_items b y :
  no_eq b → no_eq (AppendDeleteFileToBucket b y) ∧
    items (AppendDeleteFileToBucket b y) = items b ++ [IP y].
Proof.
  intros Hb. unfold AppendDeleteFileToBucket.
  destruct b as [|l b _] using rev_ind; [by split; [apply (no_eq_snoc [])|]|].
  assert (is_nil (b ++ [l]) = false) as -> by by destruct b.
  rewrite modify_back_snoc. apply no_eq_snoc in Hb as [Hb Hl].
  split; [by apply no_eq_snoc|]. rewrite !items_app, !items_singleton.
  unfold layer_items, add_delete. simpl. rewrite Hl. simpl.
  by rewrite fmap_app, !app_nil_r, <- !app_assoc.
Qed.

(** ** Redistribution files every item under its bucket number *)

Section redistribute.
Context (bounds : list string).

Definition bucket_of (p : string) : nat := Nat.pred (upper_bound bounds p).

Definition group_of (it : item) : nat :=
  match it with
  | ID x => bucket_of (de_path x)
  | IP y => match min_max_referenced_path_ y with Some (lo, _) => bucket_of lo | None => 0 end
  | IE _ => 0
  end.

(** The bucket numbers of an item are computed without error and agree. *)
Definition placeable (it : item) : Prop :=
  match it with
  | ID x => CalculateBucketByPath bounds (de_path x) = Ok (bucket_of (de_path x))
  | IP y => ∃ lo hi, min_max_referenced_path_ y = Some (lo, hi) ∧
      CalculateBucketByPath bounds lo = Ok (bucket_of lo) ∧
      CalculateBucketByPath bounds hi = Ok (bucket_of lo)
  | IE _ => False
  end.

Definition filed (seen : list item) (buckets : list (list LayerWithExtraInfo)) : Prop :=
  length buckets = length bounds ∧
  ∀ g b, buckets !! g = Some b →
    no_eq b ∧ items b = List.filter (λ it, bool_decide (group_of it = g)) seen.

Lemma filed_step seen buckets it f :
  filed seen buckets →
  (∀ b, no_eq b → no_eq (f b) ∧ items (f b) = items b ++ [it]) →
  filed (seen ++ [it]) (alter f (group_of it) buckets).
Proof.
  intros [Hlen Hb] Hf. split; [by rewrite length_alter|].
  intros g b Hg. rewrite List.filter_app. simpl.
  destruct (decide (group_of it = g)) as [<-|Hne].
  - rewrite list_lookup_alter_eq in Hg. apply fmap_Some in Hg as (b0 & Hg & ->).
    destruct (Hb _ _ Hg) as [Hn Hi]. destruct (Hf b0 Hn) as [Hn' Hi'].
    split; [done|]. rewrite bool_decide_true by done. by rewrite Hi', Hi.
  - rewrite list_lookup_alter_ne in Hg by done. rewrite bool_decide_false by done.
    rewrite app_nil_r. by apply Hb.
Qed.

Lemma place_data_filed seen buckets x :
  filed seen buckets → placeable (ID x) →
  ∃ buckets', place_data bounds buckets x = Ok buckets' ∧ filed (seen ++ [ID x]) buckets'.
Proof.
  intros Hb Hx. simpl in Hx. unfold place_data. rewrite Hx. simpl. eexists. split; [done|].
  apply (filed_step seen buckets (ID x)); [done|]. intros b. apply append_data_items.
Qed.

Lemma place_delete_filed seen buckets y :
  filed seen buckets → placeable (IP y) →
  ∃ buckets', place_delete bounds buckets y = Ok buckets' ∧ filed (seen ++ [IP y]) buckets'.
Proof.
  intros Hb (lo & hi & Hm & Hlo & Hhi). unfold place_delete. rewrite Hm, Hlo. simpl.
  rewrite Hhi. simpl. rewrite bool_decide_true by done. simpl. eexists. split; [done|].
  assert (bucket_of lo = group_of (IP y)) as -> by (simpl; by rewrite Hm).
  apply filed_step; [done|]. intros b. apply append_delete_items.
Qed.

(** A loop that files one item per step files them all. *)
Lemma filed_loop {A} (mk : A → item) place xs seen buckets :
  (∀ seen buckets x, filed seen buckets → placeable (mk x) →
     ∃ buckets', place buckets x = Ok buckets' ∧ filed (seen ++ [mk x]) buckets') →
  filed seen buckets → (∀ x, x ∈ xs → placeable (mk x)) →
  ∃ buckets', fold_ok place buckets xs = Ok buckets' ∧ filed (seen ++ (mk <$> xs)) buckets'.
Proof.
  intros Hplace. revert seen buckets. induction xs as [|x xs IH]; intros seen buckets Hb Hall; simpl.
  - exists buckets. by rewrite app_nil_r.
  - destruct (Hplace seen buckets x Hb) as (b1 & -> & Hb1); [apply Hall; by left|]. simpl.
    destruct (IH _ _ Hb1) as (b2 & -> & Hb2); [intros; apply Hall; by right|].
    exists b2. split; [done|]. by rewrite <- app_assoc in Hb2.
Qed.

Lemma RedistributeDataIntoBuckets_filed p :
  no_eq p → (∀ it, it ∈ items p → placeable it) →
  ∃ buckets, RedistributeDataIntoBuckets bounds p = Ok buckets ∧ filed (items p) buckets.
Proof.
  unfold RedistributeDataIntoBuckets. change (items p) with ([] ++ items p) at 2.
  assert (filed [] (replicate (length bounds) [])) as H0.
  { split; [apply length_replicate|]. intros g b [-> _]%lookup_replicate.
    split; [by intros ? ?%elem_of_nil|done]. }
  revert H0. generalize (replicate (length bounds) (@nil LayerWithExtraInfo)) as buckets.
  generalize (@nil item) as seen.
  induction p as [|l p IH]; intros seen buckets Hb Hn Hall; simpl.
  { exists buckets. by rewrite app_nil_r. }
  assert (equality_delete_entries_ l = []) as Hl by (apply Hn; by left).
  destruct (filed_loop ID (place_data bounds) (data_entries_ l) seen buckets) as (b1 & -> & Hb1);
    [apply place_data_filed|done|intros x Hx; apply Hall, elem_of_app; left; by apply elem_of_layer_items_ID|].
  simpl.
  destruct (filed_loop IP (place_delete bounds) (positional_delete_entries_ l) _ _
    place_delete_filed Hb1) as (b2 & -> & Hb2);
    [intros x Hx; apply Hall, elem_of_app; left; by apply elem_of_layer_items_IP|].
  simpl. destruct (IH _ _ Hb2) as (b3 & -> & Hb3).
  { intros l' Hl'. apply Hn. by right. }
  { intros it Hit. apply Hall, elem_of_app. by right. }
  exists b3. split; [done|]. unfold layer_items. rewrite Hl. simpl.
  by rewrite app_nil_r, <- !app_assoc in *.
Qed.
End redistribute.

Lemma filed_perm bounds seen buckets :
  filed bounds seen buckets → (∀ it, it ∈ seen → group_of bounds it < length bounds) →
  flat_map items buckets ≡ₚ seen.
Proof.
  intros [Hlen Hb] Hg. rewrite <- (group_perm _ _ _ Hg). apply reflexive_eq.
  rewrite <- Hlen. clear Hlen Hg.
  set (F := λ g, List.filter (λ x, bool_decide (group_of bounds x = g)) seen).
  assert (∀ k, (∀ g b, buckets !! g = Some b → items b = F (k + g)) →
    flat_map items buckets = flat_map F (seq k (length buckets))) as Hgen.
  { clear Hb. induction buckets as [|b bs IH]; intros k Hk; simpl; [done|]. f_equal.
    - rewrite (Hk 0 b) by done. by rewrite Nat.add_0_r.
    - apply IH. intros g b' Hgb. rewrite (Hk (S g) b') by done. f_equal. lia. }
  apply Hgen. intros g b Hgb. by apply Hb.
Qed.

(** ** What the optimizer guarantees *)

Lemma CanOptimizePartition_inv p : CanOptimizePartition p = true → all_stats p ∧ no_eq p.
Proof.
  unfold CanOptimizePartition. rewrite !andb_true_iff, !negb_true_iff, !existsb_false.
  intros [[_ H1] H2]. split.
  - intros l y Hl Hy. specialize (H1 l Hl). rewrite existsb_false in H1.
    specialize (H1 y Hy). by rewrite negb_false_iff, bool_decide_eq_true in H1.
  - intros l Hl. specialize (H2 l Hl). by rewrite negb_false_iff, is_nil_true in H2.
Qed.

Lemma elem_of_items_IP p y : IP y ∈ items p ↔ y ∈ flat_map positional_delete_entries_ p.
Proof. rewrite elem_of_items, elem_of_flat_map. by setoid_rewrite elem_of_layer_items_IP. Qed.

Lemma OptimizePartition_filed p :
  CanOptimizePartition p = true → ranges_valid p →
  ∃ bounds buckets, OptimizePartition p = Ok buckets ∧ filed bounds (items p) buckets ∧
    (∀ it, it ∈ items p → group_of bounds it < length bounds) ∧
    (∀ x y, ID x ∈ items p → IP y ∈ items p → covers y (de_path x) →
       group_of bounds (ID x) = group_of bounds (IP y)).
Proof.
  intros [Hstats Hne]%CanOptimizePartition_inv Hvalid.
  destruct (FindBucketLowerBounds_spec p Hstats Hvalid) as (bounds & Hf & Hs & Hlow & Hgap).
  assert (∀ a e, e ∈ flat_map layer_events p → String.le (path e) a →
    CalculateBucketByPath bounds a = Ok (bucket_of bounds a) ∧ bucket_of bounds a < length bounds) as Hcalc.
  { intros a e He Hle. destruct (Hlow e He) as (b & Hb & Hbe).
    apply CalculateBucketByPath_ok with b; [done|done|by trans (path e)]. }
  assert (∀ x, ID x ∈ items p → CreateFromData x ∈ flat_map layer_events p) as Hdata.
  { intros x (l & Hl & Hx%elem_of_layer_items_ID)%elem_of_items. apply elem_of_flat_map.
    exists l. split; [done|]. unfold layer_events. apply elem_of_app. right. by apply list_elem_of_fmap_2. }
  assert (∀ y, IP y ∈ items p → ∃ lo hi, min_max_referenced_path_ y = Some (lo, hi) ∧
    String.le lo hi ∧ {| type := kStartPositionalDelete; path := lo |} ∈ flat_map layer_events p) as Hdel.
  { intros y (l & Hl & Hy%elem_of_layer_items_IP)%elem_of_items.
    destruct (Hstats l y Hl Hy) as [[lo hi] Hm]. exists lo, hi. split; [done|].
    split; [by eapply Hvalid|]. apply elem_of_flat_map. exists l. split; [done|].
    unfold layer_events. apply elem_of_app. left. apply elem_of_flat_map. exists y.
    split; [done|]. unfold del_events. rewrite Hm. by left. }
  assert (∀ y lo hi a, IP y ∈ items p → min_max_referenced_path_ y = Some (lo, hi) →
    String.le lo a → String.le a hi → bucket_of bounds a = bucket_of bounds lo) as Hsame.
  { intros y lo hi a Hy Hm Hlo Hhi. unfold bucket_of. f_equal. apply upper_bound_ext.
    intros b Hb. split; [|intros; by trans lo]. intros Hba.
    apply (Hgap y lo hi b); [by apply elem_of_items_IP|done|done|by trans a]. }
  assert (∀ it, it ∈ items p → placeable bounds it ∧ group_of bounds it < length bounds) as Hplace.
  { intros [x|y|z] Hit; simpl.
    - by apply (Hcalc _ (CreateFromData x)); [apply Hdata|].
    - destruct (Hdel y Hit) as (lo & hi & Hm & Hle & He).
      destruct (Hcalc lo _ He) as [Hc Hl]; [done|]. rewrite Hm. split; [|done].
      exists lo, hi. split_and!; [done|done|]. rewrite <- (Hsame y lo hi hi) by done.
      by apply (Hcalc hi _ He).
    - apply elem_of_items in Hit as (l & Hl & Hz%elem_of_layer_items_IE).
      rewrite Hne in Hz by done. by apply elem_of_nil in Hz. }
  destruct (RedistributeDataIntoBuckets_filed bounds p Hne) as (buckets & Hr & Hfiled).
  { intros it Hit. by apply Hplace. }
  exists bounds, buckets. unfold OptimizePartition. rewrite Hf. simpl.
  split_and!; [done|done|intros; by apply Hplace|].
  intros x y Hx Hy Hcov. simpl. unfold covers in Hcov.
  destruct (Hdel y Hy) as (lo & hi & Hm & _ & _). rewrite Hm in *.
  destruct Hcov. by apply (Hsame y lo hi).
Qed.

(** Inside a bucket, order is the partition's order. *)
Lemma filed_sublist bounds seen buckets k :
  filed bounds seen buckets →
  (∃ b, b ∈ buckets ∧ k `sublist_of` items b) →
  k `sublist_of` seen.
Proof.
  intros [_ Hb] (b & Hin & Hk). apply list_elem_of_lookup_1 in Hin as [g Hg].
  destruct (Hb g b Hg) as [_ Hi]. rewrite Hi in Hk. by apply sublist_filter in Hk as [? _].
Qed.

Lemma filed_sublist_same bounds seen buckets it1 it2 :
  filed bounds seen buckets → [it1; it2] `sublist_of` seen →
  group_of bounds it1 = group_of bounds it2 → group_of bounds it2 < length bounds →
  ∃ b, b ∈ buckets ∧ [it1; it2] `sublist_of` items b.
Proof.
  intros [Hlen Hb] Hs Heq Hlt. rewrite <- Hlen in Hlt.
  apply lookup_lt_is_Some_2 in Hlt as [b Hg]. exists b.
  split; [by eapply list_elem_of_lookup_2|]. destruct (Hb _ b Hg) as [_ ->].
  apply sublist_filter. split; [done|]. by rewrite !Forall_cons, !bool_decide_eq_true.
Qed.

(** [gs] holds the files of [p] and the same covered delete/data pairs. *)
Record splits (p : list LayerWithExtraInfo) (gs : list (list LayerWithExtraInfo)) : Prop := {
  sp_perm : flat_map items gs ≡ₚ items p;
  sp_sound : ∀ b x y, b ∈ gs → applies b x y → applies p x y;
  sp_complete : ∀ x y, must_apply p x y → ∃ b, b ∈ gs ∧ must_apply b x y;
  sp_eq : ∀ x y, applies_eq p x y ↔ ∃ b, b ∈ gs ∧ applies_eq b x y;
}.

Lemma splits_self p : splits p [p].
Proof.
  split.
  - simpl. by rewrite app_nil_r.
  - by intros b x y ->%list_elem_of_singleton.
  - intros x y H. exists p. by rewrite list_elem_of_singleton.
  - intros x y. setoid_rewrite list_elem_of_singleton. naive_solver.
Qed.

Lemma no_eq_applies_eq p x y : no_eq p → ¬ applies_eq p x y.
Proof.
  intros Hn (i & j & li & lj & _ & Hj & _ & _ & Hy).
  rewrite (Hn lj) in Hy by by eapply list_elem_of_lookup_2. by apply elem_of_nil in Hy.
Qed.

Lemma OptimizePartition_splits p :
  CanOptimizePartition p = true → ranges_valid p →
  ∃ buckets, OptimizePartition p = Ok buckets ∧ splits p buckets.
Proof.
  intros Hc Hv. destruct (OptimizePartition_filed p Hc Hv) as (bounds & buckets & Ho & Hf & Hg & Hsame).
  exists buckets. split; [done|]. split.
  - by eapply filed_perm.
  - intros b x y Hb. rewrite !applies_items. intros Hs. eapply filed_sublist; [done|]. by exists b.
  - unfold must_apply. setoid_rewrite applies_items. intros x y [Hs Hcov].
    destruct (sublist_pair_elem _ _ _ Hs) as [Hx Hy].
    destruct (filed_sublist_same bounds (items p) buckets (ID x) (IP y)) as (b & Hb & Hbs); eauto.
  - intros x y. apply CanOptimizePartition_inv in Hc as [_ Hn]. split.
    + intros []%no_eq_applies_eq. done.
    + intros (b & [g Hb]%list_elem_of_lookup_1 & []%no_eq_applies_eq). by eapply Hf.
Qed.

(** The optimizer rejects nothing a writer can produce, and splits every
    partition. *)
Lemma Optimize_splits parts :
  (∀ p, p ∈ parts → CanOptimizePartition p = true → ranges_valid p) →
  ∃ gss, Optimize parts = Ok (concat gss) ∧ Forall2 splits parts gss.
Proof.
  intros Hv. unfold Optimize.
  enough (∀ acc, ∃ gss, fold_ok (λ result partition,
    if CanOptimizePartition partition then
      let! new_partitions := OptimizePartition partition in
      Ok (result ++ new_partitions)
    else Ok (result ++ [partition])) acc parts = Ok (acc ++ concat gss) ∧ Forall2 splits parts gss)
    as Hgen by apply (Hgen []).
  induction parts as [|p parts IH]; intros acc; simpl.
  { exists []. by rewrite app_nil_r. }
  assert (∃ gs, (if CanOptimizePartition p then
      let! new_partitions := OptimizePartition p in Ok (acc ++ new_partitions)
    else Ok (acc ++ [p])) = Ok (acc ++ gs) ∧ splits p gs) as (gs & -> & Hgs).
  { destruct (CanOptimizePartition p) eqn:Hc.
    - destruct (OptimizePartition_splits p Hc) as (gs & -> & Hgs); [by apply Hv; [left|]|].
      by exists gs.
    - exists [p]. split; [done|apply splits_self]. }
  simpl. destruct (IH ltac:(intros; apply Hv; [by right|done]) (acc ++ gs)) as (gss & -> & Hgss).
  exists (gs :: gss). rewrite <- app_assoc. by split; [|constructor].
Qed.

Lemma concat_perm parts gss :
  Forall2 splits parts gss → flat_map items (concat gss) ≡ₚ flat_map items parts.
Proof.
  induction 1 as [|p gs parts gss Hp _ IH]; simpl; [done|].
  rewrite flat_map_app, IH. by rewrite (sp_perm _ _ Hp).
Qed.

Lemma splits_must_apply parts gss x y :
  Forall2 splits parts gss →
  (∃ p, p ∈ parts ∧ must_apply p x y) ↔ (∃ b, b ∈ concat gss ∧ must_apply b x y).
Proof.
  induction 1 as [|p gs parts gss Hp _ IH]; simpl; [set_solver|].
  setoid_rewrite elem_of_cons. setoid_rewrite elem_of_app. split.
  - intros (q & [->|Hq] & Hm).
    + apply (sp_complete _ _ Hp) in Hm as (b & ? & ?). eauto.
    + destruct (proj1 IH) as (b & ? & ?); eauto.
  - intros (b & [Hb|Hb] & Hm).
    + exists p. split; [by left|]. destruct Hm as [Ha Hc]. split; [|done]. by eapply sp_sound.
    + destruct (proj2 IH) as (q & ? & ?); eauto.
Qed.

Lemma splits_applies_eq parts gss x y :
  Forall2 splits parts gss →
  (∃ p, p ∈ parts ∧ applies_eq p x y) ↔ (∃ b, b ∈ concat gss ∧ applies_eq b x y).
Proof.
  induction 1 as [|p gs parts gss Hp _ IH]; simpl; [set_solver|].
  setoid_rewrite elem_of_cons. setoid_rewrite elem_of_app.
  pose proof (sp_eq _ _ Hp x y). naive_solver.
Qed.

(** C9: the optimizer never fails on partitions whose path ranges are intervals
    (its internal consistency checks cannot fire), it neither loses nor
    duplicates a data or delete file, and a delete file reaches a data file it
    covers after the split exactly when it did before; equality deletes keep
    their data files too. *)
Theorem optimize_preserves_deletes parts :
  (∀ p, p ∈ parts → CanOptimizePartition p = true → ranges_valid p) →
  ∃ parts', Optimize parts = Ok parts' ∧
    flat_map items parts' ≡ₚ flat_map items parts ∧
    (∀ x y, (∃ p, p ∈ parts ∧ must_apply p x y) ↔ (∃ b, b ∈ parts' ∧ must_apply b x y)) ∧
    (∀ x y, (∃ p, p ∈ parts ∧ applies_eq p x y) ↔ (∃ b, b ∈ parts' ∧ applies_eq b x y)).
Proof.
  intros Hv. destruct (Optimize_splits parts Hv) as (gss & Ho & Hs). exists (concat gss).
  split_and!; [done|by apply concat_perm|intros; by apply splits_must_apply|
               intros; by apply splits_applies_eq].
Qed.

(** The example of the source comment: Del([A-C]), Del([E-G]), Data B, D, F. *)
Definition example_layer : LayerWithExtraInfo :=
  {| data_entries_ := [{| de_path := "B"; parts := []; dv := None |};
                       {| de_path := "D"; parts := []; dv := None |};
                       {| de_path := "F"; parts := []; dv := None |}];
     positional_delete_entries_ :=
       [{| positional_delete_ := {| pd_path := "d1" |}; min_max_referenced_path_ := Some ("A", "C") |};
        {| positional_delete_ := {| pd_path := "d2" |}; min_max_referenced_path_ := Some ("E", "G") |}];
     equality_delete_entries_ := []; dv_entries_ := ∅ |}.

Example example_bounds : FindBucketLowerBounds [example_layer] = Ok ["A"; "D"; "E"].
Proof. reflexivity. Qed.

Lemma optimize_preserves_deletes_witness :
  ∃ parts', Optimize [[example_layer]] = Ok parts' ∧ length parts' = 3 ∧
    flat_map items parts' ≡ₚ flat_map items [[example_layer]].
Proof.
  destruct (optimize_preserves_deletes [[example_layer]]) as (parts' & Ho & Hp & _).
  - intros p ->%list_elem_of_singleton _ l y lo hi ->%list_elem_of_singleton Hy Hm.
    simpl in Hy. repeat (apply elem_of_cons in Hy as [->|Hy]; [injection Hm as <- <-; vm_compute; exact I|]).
    by apply elem_of_nil in Hy.
  - exists parts'. split; [exact Ho|]. split; [|exact Hp].
    assert (Optimize [[example_layer]] = Optimize [[example_layer]]) as E by reflexivity.
    rewrite Ho in E at 1. vm_compute in E. injection E as ->. reflexivity.
Defined.

End PositonalDeleteOptimizer.
