(* ===== verification/Dangling.v ===== *)
(** * Dangling: removal of delete files that cannot match

    [ScanMetadataBuilder::RemoveDanglingDeletes] and [GetPartitions] of
    [iceberg/tea_scan.cpp]: from the layers with statistics to the final plan. *)

From stdpp Require Import base list sorting strings gmap sets.
From Stdlib Require Import ZArith Lia.
From S2P Require Import Prelude OrderedMap Types ScanTypes Layering PosDelOptimizer.

(** [std::set<std::string>] as the increasing list of its elements. *)
Fixpoint set_insert (k : string) (s : list string) : list string :=
  match s with
  | [] => [k]
  | k' :: s' =>
      match String.compare k k' with
      | Eq => s
      | Lt => k :: s
      | Gt => k' :: set_insert k s'
      end
  end.

(** Position of the first element not less than [k]. *)
Fixpoint lower_bound (s : list string) (k : string) : nat :=
  match s with
  | [] => 0
  | k' :: s => if String.ltb k' k then S (lower_bound s k) else 0
  end.

(** The iterator comparison of the source: the range of data paths is empty. *)
Definition is_dangling (data_paths : list string) (pos_delete : PositionalDeleteWithExtraInfo) : bool :=
  match min_max_referenced_path_ pos_delete with
  | None => false
  | Some (min_referenced_path, max_referenced_path) =>
      bool_decide (lower_bound data_paths min_referenced_path
                   = PositonalDeleteOptimizer.upper_bound data_paths max_referenced_path)
  end.

Definition insert_paths (data_paths : list string) (xs : list DataEntry) : list string :=
  foldl (λ s x, set_insert (de_path x) s) data_paths xs.

Definition result_layer (data_paths : list string) (layer : LayerWithExtraInfo) : Layer :=
  {| l_data_entries_ := data_entries_ layer;
     l_positional_delete_entries_ :=
       positional_delete_ <$> List.filter (λ y, negb (is_dangling data_paths y))
                                (positional_delete_entries_ layer);
     l_equality_delete_entries_ := equality_delete_entries_ layer |}.

(** The loop over the layers of one partition. *)
Fixpoint dangling_loop (data_paths : list string) (layers : list LayerWithExtraInfo) : Partition :=
  match layers with
  | [] => []
  | layer :: layers =>
      let data_paths := insert_paths data_paths (data_entries_ layer) in
      let l := result_layer data_paths layer in
      if Empty l then dangling_loop data_paths layers else l :: dangling_loop data_paths layers
  end.

Definition RemoveDanglingDeletes (partitions : list (list LayerWithExtraInfo)) : list Partition :=
  foldl (λ result layers,
    if forallb (λ l, is_nil (data_entries_ l)) layers then result
    else result ++ [dangling_loop [] layers]) [] partitions.

Definition GetPartitions_of_layers (meta_as_vec : list (list LayerWithExtraInfo)) :
    result (list Partition) :=
  let! meta_as_vec :=
    if PositonalDeleteOptimizer.CanOptimize meta_as_vec
    then PositonalDeleteOptimizer.Optimize meta_as_vec else Ok meta_as_vec in
  Ok (RemoveDanglingDeletes meta_as_vec).

(** ** The set of data paths *)

Lemma elem_of_set_insert k s x : x ∈ set_insert k s ↔ x = k ∨ x ∈ s.
Proof.
  induction s as [|k' s IH]; simpl; [by rewrite list_elem_of_singleton, elem_of_nil; naive_solver|].
  destruct (String.compare k k') eqn:E; rewrite ?elem_of_cons.
  - apply String.compare_eq_iff in E as ->. tauto.
  - tauto.
  - rewrite IH. tauto.
Qed.

Lemma set_insert_sorted k s : StronglySorted klt s → StronglySorted klt (set_insert k s).
Proof.
  induction s as [|k' s IH]; simpl; intros Hs; [repeat constructor|].
  pose proof Hs as Hs0. apply SSorted_cons in Hs as [Hk Hs].
  destruct (String.compare k k') eqn:E; [done| |].
  - apply SSorted_cons. split; [|done]. intros y [->|Hy]%elem_of_cons; [done|].
    eapply kcmp_trans; [exact E|by apply Hk].
  - apply SSorted_cons. split; [|auto]. intros y [->|Hy]%elem_of_set_insert; [|by apply Hk].
    by apply kcmp_Gt.
Qed.

Lemma elem_of_insert_paths s xs p :
  p ∈ insert_paths s xs ↔ p ∈ s ∨ ∃ x, x ∈ xs ∧ de_path x = p.
Proof.
  unfold insert_paths. revert s. induction xs as [|x xs IH]; intros s; simpl.
  - split; [by left|]. intros [?|(?&?%elem_of_nil&_)]; done.
  - rewrite IH, elem_of_set_insert. setoid_rewrite elem_of_cons. naive_solver.
Qed.

Lemma insert_paths_sorted s xs : StronglySorted klt s → StronglySorted klt (insert_paths s xs).
Proof.
  unfold insert_paths. revert s. induction xs; intros s Hs; simpl; auto using set_insert_sorted.
Qed.

Lemma not_ltb_le (a b : string) : String.ltb a b = false ↔ String.le b a.
Proof.
  rewrite <- not_true_iff_false, PositonalDeleteOptimizer.ltb_not_le.
  split; [by intros ?%dec_stable|tauto].
Qed.

(** A delete is dropped exactly when its range holds no data path seen so far. *)
Lemma range_empty_iff s lo hi :
  StronglySorted klt s → String.le lo hi →
  lower_bound s lo = PositonalDeleteOptimizer.upper_bound s hi ↔
  ∀ p, p ∈ s → ¬ (String.le lo p ∧ String.le p hi).
Proof.
  intros Hs Hle. induction s as [|k s IH]; simpl.
  { split; [by intros _ ? ?%elem_of_nil|done]. }
  apply SSorted_cons in Hs as [Hk Hs]. specialize (IH Hs).
  destruct (String.ltb k lo) eqn:E1.
  - apply PositonalDeleteOptimizer.ltb_not_le in E1.
    assert (String.le k hi) as Hkhi.
    { trans lo; [|done]. by destruct (total String.le k lo). }
    assert (String.ltb hi k = false) as -> by by apply not_ltb_le.
    split.
    + intros Heq p [->|Hp]%elem_of_cons; [tauto|]. apply IH; [lia|done].
    + intros H. f_equal. apply IH. intros p Hp. apply H. by right.
  - apply not_ltb_le in E1. destruct (String.ltb hi k) eqn:E2.
    + split; [|done]. intros _ p Hp [H1 H2].
      apply PositonalDeleteOptimizer.ltb_not_le in E2. apply E2.
      apply elem_of_cons in Hp as [->|Hp]; [done|]. trans p; [|done].
      apply Hk in Hp. by apply string_compare_Lt_le in Hp as [? _].
    + apply not_ltb_le in E2. split; [done|]. intros H. destruct (H k); [by left|done].
Qed.

(** ** One partition *)

(** The loop before empty layers are dropped. *)
Fixpoint full_loop (data_paths : list string) (layers : list LayerWithExtraInfo) : list Layer :=
  match layers with
  | [] => []
  | layer :: layers =>
      let data_paths := insert_paths data_paths (data_entries_ layer) in
      result_layer data_paths layer :: full_loop data_paths layers
  end.

Lemma dangling_loop_filter s p : dangling_loop s p = List.filter (λ l, negb (Empty l)) (full_loop s p).
Proof. revert s. induction p as [|l p IH]; intros s; simpl; [done|]. case_match; simpl; by rewrite IH. Qed.

(** The paths known at layer [j] are those of the data files of layers [<= j]. *)
Definition seen_at (s : list string) (p : list LayerWithExtraInfo) (j : nat) (s' : list string) : Prop :=
  StronglySorted klt s' ∧
  ∀ k, k ∈ s' ↔ k ∈ s ∨ ∃ i li x, i ≤ j ∧ p !! i = Some li ∧ x ∈ data_entries_ li ∧ de_path x = k.

Lemma full_loop_lookup s p j :
  StronglySorted klt s →
  ∃ s', seen_at s p j s' ∧ full_loop s p !! j = result_layer s' <$> p !! j.
Proof.
  revert s j. induction p as [|l p IH]; intros s j Hs; simpl.
  { exists s. split; [|done]. split; [done|]. intros k. split; [by left|].
    intros [?|(i & ? & ? & _ & H & _)]; [done|]. by rewrite lookup_nil in H. }
  destruct j as [|j]; simpl.
  - exists (insert_paths s (data_entries_ l)). split; [|done].
    split; [by apply insert_paths_sorted|]. intros k. rewrite elem_of_insert_paths.
    split; intros [?|H]; [by left| |by left|]; right.
    + destruct H as (x & ? & ?). exists 0, l, x. auto.
    + destruct H as (i & li & x & Hi & Hl & ? & ?). assert (i = 0) as -> by lia.
      simpl in Hl. simplify_eq. eauto.
  - destruct (IH (insert_paths s (data_entries_ l)) j) as (s' & [Hs' Hk] & Hf).
    { by apply insert_paths_sorted. }
    exists s'. split; [|done]. split; [done|]. intros k. rewrite Hk, elem_of_insert_paths. split.
    + intros [[?|(x & ? & ?)]|(i & li & x & Hi & Hl & ? & ?)]; [by left| |]; right.
      * exists 0, l, x. split_and!; auto with lia.
      * exists (S i), li, x. split_and!; auto with lia.
    + intros [?|([|i] & li & x & Hi & Hl & ? & ?)]; simplify_eq/=; [by left; left|left; right; eauto|].
      right. exists i, li, x. split_and!; auto with lia.
Qed.

Lemma full_loop_Some s p j m :
  StronglySorted klt s → full_loop s p !! j = Some m →
  ∃ s' l, seen_at s p j s' ∧ p !! j = Some l ∧ m = result_layer s' l.
Proof.
  intros Hs Hm. destruct (full_loop_lookup s p j Hs) as (s' & Hseen & Hf).
  rewrite Hm in Hf. symmetry in Hf. apply fmap_Some in Hf as (l & ? & ->). eauto.
Qed.

Lemma elem_of_kept s l d :
  d ∈ l_positional_delete_entries_ (result_layer s l) ↔
  ∃ y, y ∈ positional_delete_entries_ l ∧ is_dangling s y = false ∧ positional_delete_ y = d.
Proof.
  simpl. rewrite list_elem_of_fmap. setoid_rewrite list_elem_of_In. setoid_rewrite filter_In.
  setoid_rewrite negb_true_iff. naive_solver.
Qed.

Lemma dangling_loop_plan_applies p x d :
  plan_applies (dangling_loop [] p) x d ↔ plan_applies (full_loop [] p) x d.
Proof.
  rewrite dangling_loop_filter, !plan_applies_layered. apply layered_filter; intros l Hl; unfold Empty.
  - by destruct (l_data_entries_ l); [apply elem_of_nil in Hl|].
  - destruct (l_positional_delete_entries_ l); [by apply elem_of_nil in Hl|].
    simpl. by rewrite andb_false_r.
Qed.

Lemma dangling_loop_plan_applies_eq p x d :
  plan_applies_eq (dangling_loop [] p) x d ↔ plan_applies_eq (full_loop [] p) x d.
Proof.
  rewrite dangling_loop_filter, !plan_applies_eq_layered. apply layered_filter; intros l Hl; unfold Empty.
  - by destruct (l_data_entries_ l); [apply elem_of_nil in Hl|].
  - destruct (l_equality_delete_entries_ l); [by apply elem_of_nil in Hl|].
    simpl. by rewrite andb_false_r.
Qed.

(** Nothing is applied that was not applied before. *)
Lemma dangling_sound p x d :
  plan_applies (dangling_loop [] p) x d → ∃ y, positional_delete_ y = d ∧ applies p x y.
Proof.
  rewrite dangling_loop_plan_applies. intros (i & j & mi & mj & Hi & Hj & Hij & Hx & Hd).
  apply full_loop_Some in Hi as (si & li & _ & Hi & ->); [|constructor].
  apply full_loop_Some in Hj as (sj & lj & _ & Hj & ->); [|constructor].
  apply elem_of_kept in Hd as (y & Hy & _ & <-). exists y. split; [done|].
  by exists i, j, li, lj.
Qed.

(** A delete that covers a data file it must be applied to is kept. *)
Lemma dangling_complete p x y :
  ranges_valid p → must_apply p x y → plan_applies (dangling_loop [] p) x (positional_delete_ y).
Proof.
  intros Hv [(i & j & li & lj & Hi & Hj & Hij & Hx & Hy) Hc]. rewrite dangling_loop_plan_applies.
  destruct (full_loop_lookup [] p i) as (si & _ & Hfi); [constructor|].
  destruct (full_loop_lookup [] p j) as (sj & [Hsj Hkj] & Hfj); [constructor|].
  rewrite Hi in Hfi. rewrite Hj in Hfj. simpl in Hfi, Hfj.
  exists i, j, (result_layer si li), (result_layer sj lj). split_and!; [done..|].
  apply elem_of_kept. exists y. split_and!; [done| |done].
  unfold is_dangling, covers in *. destruct (min_max_referenced_path_ y) as [[lo hi]|] eqn:Em; [|done].
  apply bool_decide_eq_false. rewrite range_empty_iff; [|done|].
  - intros H. apply (H (de_path x)); [|done]. apply Hkj. right. by exists i, li, x.
  - eapply Hv; [by eapply list_elem_of_lookup_2|done|done].
Qed.

(** A kept delete with statistics covers a data file of its own or an earlier
    layer. *)
Lemma dangling_precise p l d :
  ranges_valid p → l ∈ dangling_loop [] p → d ∈ l_positional_delete_entries_ l →
  ∃ y, positional_delete_ y = d ∧
    (min_max_referenced_path_ y = None ∨ ∃ x, must_apply p x y).
Proof.
  intros Hv Hl Hd. rewrite dangling_loop_filter, list_elem_of_In, filter_In in Hl.
  destruct Hl as [Hl _]. rewrite <- list_elem_of_In in Hl. apply list_elem_of_lookup_1 in Hl as [j Hj].
  apply full_loop_Some in Hj as (s & l' & [Hs Hk] & Hj & ->); [|constructor].
  apply elem_of_kept in Hd as (y' & Hy & Hnd & <-). exists y'. split; [done|].
  unfold is_dangling in Hnd.
  destruct (min_max_referenced_path_ y') as [[lo hi]|] eqn:Em; [right|by left].
  apply bool_decide_eq_false in Hnd. rewrite range_empty_iff in Hnd; [|done|].
  2: { eapply Hv; [by eapply list_elem_of_lookup_2|done|done]. }
  destruct (decide (Exists (λ k, String.le lo k ∧ String.le k hi) s)) as [He|He].
  - apply Exists_exists in He as (k & Hin & Hkk).
    apply Hk in Hin as [?%elem_of_nil|(i & li & x & Hij & Hi & Hx & <-)]; [done|].
    exists x. split; [by exists i, j, li, l'|]. unfold covers. by rewrite Em.
  - destruct Hnd. intros k Hin Hkk. apply He, Exists_exists. by exists k.
Qed.

(** Every delete file of the result was listed in the partition. *)
Lemma dangling_listed p l :
  l ∈ dangling_loop [] p → ∃ l', l' ∈ p ∧
    (∀ d, d ∈ l_positional_delete_entries_ l →
       ∃ y, y ∈ positional_delete_entries_ l' ∧ positional_delete_ y = d) ∧
    l_equality_delete_entries_ l = equality_delete_entries_ l'.
Proof.
  intros Hl. rewrite dangling_loop_filter, list_elem_of_In, filter_In in Hl.
  destruct Hl as [Hl _]. rewrite <- list_elem_of_In in Hl. apply list_elem_of_lookup_1 in Hl as [j Hj].
  apply full_loop_Some in Hj as (s & l' & _ & Hj & ->); [|constructor]. exists l'.
  split; [by eapply list_elem_of_lookup_2|]. split; [|done].
  intros d (y & Hy & _ & <-)%elem_of_kept. eauto.
Qed.

Lemma dangling_eq p x e : plan_applies_eq (dangling_loop [] p) x e ↔ applies_eq p x e.
Proof.
  rewrite dangling_loop_plan_applies_eq. split.
  - intros (i & j & mi & mj & Hi & Hj & Hij & Hx & Hd).
    apply full_loop_Some in Hi as (si & li & _ & Hi & ->); [|constructor].
    apply full_loop_Some in Hj as (sj & lj & _ & Hj & ->); [|constructor].
    by exists i, j, li, lj.
  - intros (i & j & li & lj & Hi & Hj & Hij & Hx & Hd).
    destruct (full_loop_lookup [] p i) as (si & _ & Hfi); [constructor|].
    destruct (full_loop_lookup [] p j) as (sj & _ & Hfj); [constructor|].
    rewrite Hi in Hfi. rewrite Hj in Hfj.
    by exists i, j, (result_layer si li), (result_layer sj lj).
Qed.

Lemma dangling_data s p :
  flat_map l_data_entries_ (dangling_loop s p) = flat_map data_entries_ p.
Proof.
  revert s. induction p as [|l p IH]; intros s; simpl; [done|].
  destruct (Empty _) eqn:E; simpl; rewrite IH; [|done].
  unfold Empty in E. apply andb_true_iff in E as [[E _]%andb_true_iff _].
  apply is_nil_true in E. simpl in E. by rewrite E.
Qed.

(** ** All partitions *)

Lemma RemoveDanglingDeletes_eq parts :
  RemoveDanglingDeletes parts =
  dangling_loop [] <$> List.filter (λ p, negb (forallb (λ l, is_nil (data_entries_ l)) p)) parts.
Proof.
  unfold RemoveDanglingDeletes.
  enough (∀ acc, foldl (λ result layers,
    if forallb (λ l, is_nil (data_entries_ l)) layers then result
    else result ++ [dangling_loop [] layers]) acc parts = acc ++
    (dangling_loop [] <$> List.filter (λ p, negb (forallb (λ l, is_nil (data_entries_ l)) p)) parts)) as H
    by apply (H []).
  induction parts as [|p parts IH]; intros acc; simpl; [by rewrite app_nil_r|].
  destruct (forallb _ p) eqn:E; simpl; rewrite IH; [done|]. by rewrite <- app_assoc.
Qed.

Lemma no_data_flat p :
  forallb (λ l, is_nil (data_entries_ l)) p = true → flat_map data_entries_ p = [].
Proof.
  induction p as [|l p IH]; simpl; [done|]. intros [E1%is_nil_true E2]%andb_true_iff.
  by rewrite E1, IH.
Qed.

Lemma elem_of_RemoveDanglingDeletes parts q :
  q ∈ RemoveDanglingDeletes parts ↔
  ∃ p, p ∈ parts ∧ flat_map data_entries_ p ≠ [] ∧ q = dangling_loop [] p.
Proof.
  rewrite RemoveDanglingDeletes_eq, list_elem_of_fmap. setoid_rewrite list_elem_of_In.
  setoid_rewrite filter_In. setoid_rewrite negb_true_iff. split.
  - intros (p & -> & Hp & Hf). exists p. split_and!; [done| |done]. intros E.
    apply not_true_iff_false in Hf. destruct Hf. apply forallb_forall. intros l Hl.
    apply is_nil_true. destruct (data_entries_ l) as [|x xs] eqn:El; [done|].
    assert (In x (flat_map data_entries_ p)) as Hin.
    { apply in_flat_map. exists l. split; [done|]. rewrite El. by left. }
    by rewrite E in Hin.
  - intros (p & Hp & Hne & ->). exists p. split_and!; [done|done|].
    apply not_true_iff_false. intros H%no_data_flat. done.
Qed.

Lemma layered_data_nonempty p x (Q : LayerWithExtraInfo → Prop) :
  layered p (λ l, x ∈ data_entries_ l) Q → flat_map data_entries_ p ≠ [].
Proof.
  intros (i & j & li & lj & Hi & _ & _ & Hx & _) E.
  assert (x ∈ flat_map data_entries_ p) as Hin.
  { rewrite list_elem_of_In, in_flat_map. exists li. rewrite <- !list_elem_of_In.
    split; [by eapply list_elem_of_lookup_2|done]. }
  rewrite E in Hin. by apply elem_of_nil in Hin.
Qed.

Lemma RemoveDanglingDeletes_data parts :
  flat_map (flat_map l_data_entries_) (RemoveDanglingDeletes parts)
  = flat_map (flat_map data_entries_) parts.
Proof.
  rewrite RemoveDanglingDeletes_eq. induction parts as [|p parts IH]; simpl; [done|].
  destruct (forallb _ p) eqn:E; simpl.
  - rewrite no_data_flat by done. exact IH.
  - f_equal; [apply dangling_data|exact IH].
Qed.

(** ** From layers to the plan *)

Lemma ranges_valid_items p :
  ranges_valid p ↔ ∀ y lo hi, IP y ∈ items p → min_max_referenced_path_ y = Some (lo, hi) → String.le lo hi.
Proof.
  unfold ranges_valid. setoid_rewrite elem_of_items. setoid_rewrite elem_of_layer_items_IP.
  split; [intros H y lo hi (l & Hl & Hy); eauto|intros H l y lo hi Hl Hy; eauto].
Qed.

Definition item_data (it : item) : list DataEntry := match it with ID x => [x] | _ => [] end.

Lemma items_data p : flat_map item_data (items p) = flat_map data_entries_ p.
Proof.
  unfold items. induction p as [|l p IH]; simpl; [done|]. rewrite flat_map_app, IH. f_equal.
  unfold layer_items. rewrite !flat_map_app.
  assert (∀ A (f : A → item) xs, (∀ a, item_data (f a) = []) → flat_map item_data (f <$> xs) = []) as Hnil.
  { intros A f xs Hf. induction xs as [|a xs IHx]; simpl; [done|]. rewrite Hf. exact IHx. }
  rewrite (Hnil _ IP), (Hnil _ IE), !app_nil_r by done.
  induction (data_entries_ l) as [|x xs IHx]; simpl; [done|]. f_equal. exact IHx.
Qed.

Lemma perm_data parts parts' :
  flat_map items parts' ≡ₚ flat_map items parts →
  flat_map (flat_map data_entries_) parts' ≡ₚ flat_map (flat_map data_entries_) parts.
Proof.
  intros Hp. assert (∀ q, flat_map (flat_map data_entries_) q = flat_map item_data (flat_map items q)) as Heq.
  { induction q as [|p q IH]; simpl; [done|]. by rewrite flat_map_app, items_data, IH. }
  rewrite !Heq. by apply Permutation_flat_map.
Qed.

(** What [GetPartitions] guarantees of the layers it is given. *)
Record planned (parts : list (list LayerWithExtraInfo)) (plan : list Partition) : Prop := {
  pl_data : flat_map (flat_map l_data_entries_) plan ≡ₚ flat_map (flat_map data_entries_) parts;
  pl_complete : ∀ p x y, p ∈ parts → must_apply p x y →
    ∃ q, q ∈ plan ∧ plan_applies q x (positional_delete_ y);
  pl_sound : ∀ q x d, q ∈ plan → plan_applies q x d →
    ∃ p y, p ∈ parts ∧ positional_delete_ y = d ∧ applies p x y;
  pl_eq : ∀ x e, (∃ q, q ∈ plan ∧ plan_applies_eq q x e) ↔ (∃ p, p ∈ parts ∧ applies_eq p x e);
  pl_listed_pos : ∀ q l d, q ∈ plan → l ∈ q → d ∈ l_positional_delete_entries_ l →
    ∃ y, IP y ∈ flat_map items parts ∧ positional_delete_ y = d;
  pl_listed_eq : ∀ q l e, q ∈ plan → l ∈ q → e ∈ l_equality_delete_entries_ l →
    IE e ∈ flat_map items parts;
}.

Lemma RemoveDanglingDeletes_planned parts :
  (∀ p, p ∈ parts → ranges_valid p) → planned parts (RemoveDanglingDeletes parts).
Proof.
  intros Hv. split; setoid_rewrite elem_of_RemoveDanglingDeletes || idtac.
  - by rewrite RemoveDanglingDeletes_data.
  - intros p x y Hp Hm. exists (dangling_loop [] p). split; [|by apply dangling_complete; auto].
    exists p. split_and!; [done| |done]. by eapply layered_data_nonempty, Hm.
  - intros q x d (p & Hp & _ & ->) (y & <- & Ha)%dangling_sound. by exists p, y.
  - intros x e. split.
    + intros (q & (p & Hp & _ & ->) & Ha). exists p. split; [done|]. by apply dangling_eq.
    + intros (p & Hp & Ha). exists (dangling_loop [] p). split; [|by apply dangling_eq].
      exists p. split_and!; [done| |done]. by eapply layered_data_nonempty, Ha.
  - intros q l d (p & Hp & _ & ->) (l' & Hl & Hpos & _)%dangling_listed (y & Hy & <-)%Hpos.
    exists y. split; [|done]. apply elem_of_flat_map. exists p. split; [done|].
    apply elem_of_items. exists l'. by rewrite elem_of_layer_items_IP.
  - intros q l e (p & Hp & _ & ->) (l' & Hl & _ & ->)%dangling_listed He.
    apply elem_of_flat_map. exists p. split; [done|].
    apply elem_of_items. exists l'. by rewrite elem_of_layer_items_IE.
Qed.

Import PositonalDeleteOptimizer.

Lemma splits_sound parts gss b x y :
  Forall2 splits parts gss → b ∈ concat gss → applies b x y → ∃ p, p ∈ parts ∧ applies p x y.
Proof.
  induction 1 as [|p gs parts gss Hp _ IH]; simpl; [by intros ?%elem_of_nil|].
  intros [Hb|Hb]%elem_of_app Ha.
  - exists p. split; [by left|]. by eapply sp_sound.
  - destruct (IH Hb Ha) as (q & ? & ?). exists q. split; [by right|done].
Qed.

Lemma GetPartitions_planned parts :
  (∀ p, p ∈ parts → ranges_valid p) →
  ∃ plan, GetPartitions_of_layers parts = Ok plan ∧ planned parts plan.
Proof.
  intros Hv. unfold GetPartitions_of_layers. destruct (CanOptimize parts); simpl.
  2: { eexists. split; [done|]. by apply RemoveDanglingDeletes_planned. }
  destruct (Optimize_splits parts) as (gss & -> & Hs); [auto|]. simpl. eexists. split; [done|].
  assert (∀ b, b ∈ concat gss → ranges_valid b) as Hv'.
  { intros b Hb. apply ranges_valid_items. intros y lo hi Hy Hm.
    assert (IP y ∈ flat_map items parts) as Hin.
    { rewrite <- (concat_perm _ _ Hs). apply elem_of_flat_map. by exists b. }
    apply elem_of_flat_map in Hin as (p & Hp & Hyp).
    by apply (proj1 (ranges_valid_items p) (Hv p Hp) y). }
  destruct (RemoveDanglingDeletes_planned _ Hv') as [D1 D2 D3 D4 D5 D6]. split.
  - rewrite D1. apply perm_data. by apply concat_perm.
  - intros p x y Hp Hm. destruct (proj1 (splits_must_apply parts gss x y Hs)) as (b & Hb & Hbm); eauto.
  - intros q x d Hq (b & y & Hb & <- & Ha)%D3; [|done].
    destruct (splits_sound _ _ _ _ _ Hs Hb Ha) as (p & ? & ?). by exists p, y.
  - intros x e. rewrite D4. by rewrite (splits_applies_eq _ _ x e Hs).
  - intros q l d. setoid_rewrite <- (concat_perm _ _ Hs). apply D5.
  - intros q l e. rewrite <- (concat_perm _ _ Hs). apply D6.
Qed.

(** Removing dangling deletes keeps every data file (in order), keeps for
    each data file every positional delete that covers it and comes from its own
    or a later layer, adds no delete to any data file, leaves the equality
    deletes of every data file unchanged, and every remaining positional delete
    with statistics covers some data file it applies to. *)
Theorem remove_dangling_exact parts :
  (∀ p, p ∈ parts → ranges_valid p) →
  let plan := RemoveDanglingDeletes parts in
  flat_map (flat_map l_data_entries_) plan = flat_map (flat_map data_entries_) parts ∧
  (∀ p x y, p ∈ parts → must_apply p x y → ∃ q, q ∈ plan ∧ plan_applies q x (positional_delete_ y)) ∧
  (∀ q x d, q ∈ plan → plan_applies q x d →
     ∃ p y, p ∈ parts ∧ positional_delete_ y = d ∧ applies p x y) ∧
  (∀ x e, (∃ q, q ∈ plan ∧ plan_applies_eq q x e) ↔ (∃ p, p ∈ parts ∧ applies_eq p x e)) ∧
  (∀ q l d, q ∈ plan → l ∈ q → d ∈ l_positional_delete_entries_ l →
     ∃ p y, p ∈ parts ∧ positional_delete_ y = d ∧
       (min_max_referenced_path_ y = None ∨ ∃ x, must_apply p x y)).
Proof.
  intros Hv plan. destruct (RemoveDanglingDeletes_planned parts Hv) as [D1 D2 D3 D4 _ _].
  split_and!; [apply RemoveDanglingDeletes_data|done|done|done|].
  intros q l d (p & Hp & _ & ->)%elem_of_RemoveDanglingDeletes Hl Hd.
  edestruct dangling_precise as (y & <- & H); [by apply Hv|done|done|]. by exists p, y.
Qed.

(** Two data files; of the two delete files the first covers a data file. *)
Definition dangling_example : list LayerWithExtraInfo :=
  [{| data_entries_ := [{| de_path := "B"; parts := []; dv := None |};
                        {| de_path := "D"; parts := []; dv := None |}];
      positional_delete_entries_ :=
       [{| positional_delete_ := {| pd_path := "d1" |}; min_max_referenced_path_ := Some ("A", "C") |};
        {| positional_delete_ := {| pd_path := "d2" |}; min_max_referenced_path_ := Some ("E", "G") |}];
      equality_delete_entries_ := []; dv_entries_ := ∅ |}].

Example dangling_example_plan :
  flat_map (flat_map l_positional_delete_entries_) (RemoveDanglingDeletes [dangling_example])
  = [{| pd_path := "d1" |}].
Proof. reflexivity. Qed.

Lemma remove_dangling_exact_witness :
  flat_map (flat_map l_data_entries_) (RemoveDanglingDeletes [dangling_example])
  = [{| de_path := "B"; parts := []; dv := None |}; {| de_path := "D"; parts := []; dv := None |}].
Proof.
  refine (proj1 (remove_dangling_exact [dangling_example] _)).
  intros p ->%list_elem_of_singleton l y lo hi ->%list_elem_of_singleton Hy Hm. simpl in Hy.
  repeat (apply elem_of_cons in Hy as [->|Hy]; [injection Hm as <- <-; vm_compute; exact I|]).
  by apply elem_of_nil in Hy.
Defined.
