(* ===== verification/PartitionKey.v ===== *)
(** * PartitionKey: the serialized key that groups files by partition

    [SerializeValue], [SerializePartitionKey] and [SerializePartitionTuple] of
    [iceberg/tea_scan.cpp].  The planner groups entries by this string, so two
    partition tuples with the same string share their delete files. *)

From stdpp Require Import base list strings pretty.
From Stdlib Require Import ZArith Lia.
From S2P Require Import Prelude Bytes Types ScanTypes.

Definition SerializeValue (v : AvroValueHolder) : string :=
  match v with
  | AV_monostate => "null"
  | AV_bool b => string_of_bytes (le_encode 1 (if b then 1 else 0)%Z)
  | AV_int v => string_of_bytes (le_encode 4 v)
  | AV_int64 v => string_of_bytes (le_encode 8 v)
  | AV_float bits => string_of_bytes (le_encode 4 bits)
  | AV_double bits => string_of_bytes (le_encode 8 bits)
  | AV_string s => s
  | AV_bytes b => string_of_bytes b
  | AV_Fixed b => string_of_bytes b
  end.

(** [std::variant::index]. *)
Definition value_index (v : AvroValueHolder) : nat :=
  match v with
  | AV_monostate => 0 | AV_bool _ => 1 | AV_int _ => 2 | AV_int64 _ => 3
  | AV_float _ => 4 | AV_double _ => 5 | AV_string _ => 6 | AV_bytes _ => 7 | AV_Fixed _ => 8
  end.

Definition SerializePartitionKey (key : PartitionKey) : result string :=
  let! type_name :=
    match pk_type key with None => Ok "" | Some t => ToString t end in
  Ok (pk_name key +:+ type_name +:+ pretty (value_index (pk_value key))
      +:+ SerializeValue (pk_value key)).

Definition SerializePartitionTuple (partition_tuple : PartitionTuple) : result string :=
  let! serialized_keys :=
    fold_ok (λ keys field, let! key := SerializePartitionKey field in Ok (keys ++ [key]))
      [] partition_tuple in
  Ok (foldl (λ result key, result +:+ key +:+ pretty (String.length key)) "" serialized_keys).

(** ** The recursive reading of the two loops *)

Fixpoint tuple_string (t : PartitionTuple) : result string :=
  match t with
  | [] => Ok ""
  | f :: t =>
      let! key := SerializePartitionKey f in
      let! rest := tuple_string t in
      Ok (key +:+ pretty (String.length key) +:+ rest)
  end.

Lemma foldl_append l acc :
  foldl (λ result key, result +:+ key +:+ pretty (String.length key)) acc l
  = acc +:+ foldl (λ result key, result +:+ key +:+ pretty (String.length key)) "" l.
Proof.
  revert acc. induction l as [|k l IH]; intros acc; simpl; [by rewrite append_nil_r|].
  rewrite IH, (IH ("" +:+ _)). by rewrite !append_assoc.
Qed.

Lemma SerializePartitionTuple_eq t : SerializePartitionTuple t = tuple_string t.
Proof.
  unfold SerializePartitionTuple.
  enough (∀ acc, (let! serialized_keys :=
    fold_ok (λ keys field, let! key := SerializePartitionKey field in Ok (keys ++ [key])) acc t in
    Ok (foldl (λ result key, result +:+ key +:+ pretty (String.length key)) "" serialized_keys))
    = (let! s := tuple_string t in
       Ok (foldl (λ result key, result +:+ key +:+ pretty (String.length key)) "" acc +:+ s))) as H.
  { rewrite (H []). simpl. by destruct (tuple_string t). }
  induction t as [|f t IH]; intros acc; simpl; [by rewrite append_nil_r|].
  destruct (SerializePartitionKey f) as [key|]; simpl; [|done]. rewrite IH.
  destruct (tuple_string t); simpl; [|done]. rewrite foldl_app. simpl. by rewrite !append_assoc.
Qed.

(** ** Where the key identifies the partition *)

(** A value that fits its C++ type. *)
Definition value_fits (v : AvroValueHolder) : Prop :=
  match v with
  | AV_int v | AV_float v => wrap_s 32 v = v
  | AV_int64 v | AV_double v => wrap_s 64 v = v
  | _ => True
  end.

(** Alternatives whose image has one length: all but [string] and the byte
    vectors. *)
Definition fixed_width (v : AvroValueHolder) : bool :=
  match v with AV_string _ | AV_bytes _ | AV_Fixed _ => false | _ => true end.

Lemma SerializeValue_inj v w :
  value_index v = value_index w → value_fits v → value_fits w →
  SerializeValue v = SerializeValue w → v = w.
Proof.
  destruct v, w; intros Hi Hv Hw E; try discriminate Hi; simpl in *; try done; f_equal; try done;
    apply string_of_bytes_inj in E; try done.
  - by destruct b, b0.
  - by apply (le_encode_inj 4).
  - by apply (le_encode_inj 8).
  - by apply (le_encode_inj 4).
  - by apply (le_encode_inj 8).
Qed.

Lemma fixed_width_length v w :
  value_index v = value_index w → fixed_width v = true →
  String.length (SerializeValue v) = String.length (SerializeValue w).
Proof.
  destruct v, w; intros Hi Hf; try discriminate Hi; try discriminate Hf; simpl; try done;
    by rewrite !string_of_bytes_length, !le_encode_length.
Qed.

Lemma pretty_index_length v : String.length (pretty (value_index v)) = 1.
Proof. by destruct v. Qed.

Lemma pretty_index_inj v w : pretty (value_index v) = pretty (value_index w) → value_index v = value_index w.
Proof. apply (inj pretty). Qed.

(** One field followed by anything: the field is read back. *)
Lemma field_prefix_inj p v w r s :
  value_fits v → value_fits w → fixed_width v = true → fixed_width w = true →
  (p +:+ pretty (value_index v) +:+ SerializeValue v) +:+ r =
  (p +:+ pretty (value_index w) +:+ SerializeValue w) +:+ s → v = w ∧ r = s.
Proof.
  intros Hv Hw Fv Fw. rewrite !append_assoc. intros E%append_inj_l.
  apply append_inj_len in E as [Ei E]; [|by rewrite !pretty_index_length].
  apply pretty_index_inj in Ei.
  apply append_inj_len in E as [Es E]; [|by apply fixed_width_length].
  split; [by apply SerializeValue_inj|done].
Qed.

(** Two tuples of one specification: same names, same types, field by field. *)
Definition same_fields (t u : PartitionTuple) : Prop :=
  Forall2 (λ k l, pk_name k = pk_name l ∧ pk_type k = pk_type l) t u.

(** Every value of the tuple but the last has an image of one length. *)
Definition key_readable (t : PartitionTuple) : Prop :=
  Forall (λ k, value_fits (pk_value k)) t ∧ Forall (λ k, fixed_width (pk_value k) = true) (removelast t).

(** A text followed by its length is longer when the text is. *)
Lemma pretty_go_grows x : ∀ s, String.length s ≤ String.length (pretty_N_go x s).
Proof.
  induction (N.lt_wf_0 x) as [x _ IH]; intros s. destruct (decide (0 < x)%N) as [Hx|Hx].
  - rewrite pretty_N_go_step by done. etrans; [|apply IH, N.div_lt; lia]. simpl. lia.
  - assert (x = 0)%N as -> by lia. by rewrite pretty_N_go_0.
Qed.

Lemma pretty_go_mono x : ∀ y s s', (x ≤ y)%N → String.length s = String.length s' →
  String.length (pretty_N_go x s) ≤ String.length (pretty_N_go y s').
Proof.
  induction (N.lt_wf_0 x) as [x _ IH]; intros y s s' Hxy Hs. destruct (decide (0 < x)%N) as [Hx|Hx].
  - rewrite (pretty_N_go_step x), (pretty_N_go_step y) by lia. apply IH; [apply N.div_lt; lia|by apply N.Div0.div_le_mono|simpl; lia].
  - assert (x = 0)%N as -> by lia. rewrite pretty_N_go_0, Hs. apply pretty_go_grows.
Qed.

Lemma pretty_length_mono (n m : nat) : n ≤ m → String.length (pretty n) ≤ String.length (pretty m).
Proof.
  intros Hnm. unfold pretty, pretty_nat, pretty, pretty_N. repeat case_decide; try lia.
  - assert (N.of_nat m = 0 ∨ 0 < N.of_nat m)%N as [|Hm] by lia; [done|]. rewrite pretty_N_go_step by done.
    etrans; [|apply pretty_go_grows]. simpl. lia.
  - apply pretty_go_mono; [lia|done].
Qed.

Lemma length_suffix_inj x y : x +:+ pretty (String.length x) = y +:+ pretty (String.length y) → x = y.
Proof.
  intros E. apply append_inj_len in E as [? _]; [done|]. apply (f_equal String.length) in E. rewrite !append_length in E.
  destruct (Nat.lt_trichotomy (String.length x) (String.length y)) as [Hlt|[Heq|Hlt]]; [|done|];
    pose proof (pretty_length_mono _ _ (Nat.lt_le_incl _ _ Hlt)); lia.
Qed.

(** Where the text of a tuple is not empty. *)
Lemma tuple_string_empty t : tuple_string t = Ok "" → t = [].
Proof.
  destruct t as [|f t]; [done|]. simpl. intros E. destruct (SerializePartitionKey f) as [key|]; [|done]. simpl in E.
  destruct (tuple_string t) as [rest|]; [|done]. injection E as E. apply (f_equal String.length) in E.
  rewrite !append_length in E. pose proof (pretty_length_mono 0 (String.length key) ltac:(lia)) as Hp.
  change (String.length (pretty 0)) with 1 in Hp. simpl in E. lia.
Qed.

(** For two partition tuples of the same specification, all of whose values but
    the last have a fixed-width encoding (booleans, 32 and 64 bit integers, floats,
    doubles and nulls), the serialized partition keys are equal only if the tuples
    are. *)
Theorem partition_key_injective t u s :
  same_fields t u → key_readable t → key_readable u →
  SerializePartitionTuple t = Ok s → SerializePartitionTuple u = Ok s → t = u.
Proof.
  rewrite !SerializePartitionTuple_eq. intros Hsame. revert s.
  induction Hsame as [|[n v ty] [n' w ty'] t u [Hn Ht] Hrest IH]; [done|]. simpl in *. subst n' ty'.
  intros s [[Hv Hts]%Forall_cons Ft] [[Hw Hus]%Forall_cons Fu] Et Eu. simpl in *.
  unfold SerializePartitionKey in *. simpl in *.
  destruct (match ty with None => Ok "" | Some t => ToString t end) as [tn|]; [|done]. simpl in *.
  destruct (tuple_string t) as [rt|] eqn:Ert; [|done]. destruct (tuple_string u) as [ru|] eqn:Eru; [|done].
  simpl in *. injection Et as Et. injection Eu as Eu. rewrite <- Et in Eu. symmetry in Eu.
  destruct Hrest as [|f f' t u Hf Hrest].
  - injection Ert as <-. injection Eru as <-. rewrite !append_nil_r in Eu. apply length_suffix_inj in Eu.
    rewrite <- !(append_assoc n tn) in Eu. apply append_inj_l in Eu.
    apply append_inj_len in Eu as [Ei Es]; [|by rewrite !pretty_index_length].
    apply pretty_index_inj in Ei. f_equal. by rewrite (SerializeValue_inj v w).
  - apply Forall_cons in Ft as [Fv Ft]. apply Forall_cons in Fu as [Fw Fu]. simpl in Fv, Fw.
    rewrite <- !(append_assoc n tn) in Eu. apply field_prefix_inj in Eu as [-> Eu]; [|done..].
    apply append_inj_l in Eu as ->. f_equal. by apply (IH ru).
Qed.

Definition int_field (name : string) (v : Z) : PartitionKey :=
  {| pk_name := name; pk_value := AV_int v; pk_type := Some (PrimitiveType kInt) |}.

Lemma partition_key_injective_witness :
  ∃ s, SerializePartitionTuple [int_field "a" (-1); null_PartitionKey "v"] = Ok s ∧
  (∀ u, same_fields [int_field "a" (-1); null_PartitionKey "v"] u → key_readable u →
    SerializePartitionTuple u = Ok s → [int_field "a" (-1); null_PartitionKey "v"] = u).
Proof.
  eexists. split; [vm_compute; reflexivity|]. intros u Hs Hu Eu.
  eapply partition_key_injective; [exact Hs| |exact Hu|vm_compute; reflexivity|exact Eu].
  split; repeat constructor.
Defined.

(** ** Where it does not *)

Definition string_field (name v : string) : PartitionKey :=
  {| pk_name := name; pk_value := AV_string v; pk_type := Some (PrimitiveType kString) |}.

(** With string values the key does not identify the partition: the length
    written after each field cannot be told apart from the digits around it, and
    two different tuples of one specification (two string fields) have the same
    serialized key. *)
Theorem partition_key_collision :
  ∃ t u s, t ≠ u ∧ same_fields t u ∧
    SerializePartitionTuple t = Ok s ∧ SerializePartitionTuple u = Ok s.
Proof.
  exists [string_field "a" "8bstring6q"; string_field "b" "1"],
         [string_field "a" ""; string_field "b" "q18bstring6"].
  eexists. split; [done|]. split; [repeat constructor|].
  split; vm_compute; reflexivity.
Qed.
