(* ===== verification/PartitionSpecs.v ===== *)
(** * PartitionSpecs: partition specifications against partition tuples

    [Transforms], [GetFieldsFromPartitionSpec], [GetPartitionSpecById],
    [MatchesSpecification] and [CheckPartitionTupleIsCorrect] of
    [iceberg/tea_scan.cpp]. *)

From stdpp Require Import base list strings sets.
From Stdlib Require Import ZArith Lia.
From S2P Require Import Prelude Types ScanTypes.

Module Transforms.
Definition kBucket : string := "bucket".
Definition kYear : string := "year".
Definition kMonth : string := "month".
Definition kDay : string := "day".
Definition kHour : string := "hour".
Definition kIdentity : string := "identity".
Definition kTruncate : string := "truncate".
Definition kVoid : string := "void".

(** The type of the source column, except that [timestamptz] becomes
    [timestamp]. *)
Definition GetTypeFromSourceType (source_id : Z) (schema : Schema) : result Type_ :=
  match List.find (λ column, bool_decide (nf_field_id column = source_id)) (Columns schema) with
  | Some column =>
      Ok (if bool_decide (TypeId (nf_type column) = kTimestamptz)
          then PrimitiveType kTimestamp else nf_type column)
  | None => Err (StatusError "Partition spec expects column with field id")
  end.
End Transforms.

(** [PartitionKeyField]: the type is a null pointer for the void transform. *)
Record PartitionKeyField := { pkf_name : string; pkf_type : option Type_ }.

Definition starts_with (s prefix : string) : bool := String.prefix prefix s.

(** The partition field one specification field stands for; [None] when its
    transform is unknown or its source column is missing. *)
Definition field_of_spec (schema : Schema) (value : PartitionField) : option PartitionKeyField :=
  let t := transform value in
  let field ty := Some {| pkf_name := pf_name value; pkf_type := ty |} in
  if starts_with t Transforms.kBucket || bool_decide (t = Transforms.kYear)
     || bool_decide (t = Transforms.kMonth) || bool_decide (t = Transforms.kHour) then
    field (Some (PrimitiveType kInt))
  else if bool_decide (t = Transforms.kDay) then field (Some (PrimitiveType kDate))
  else if bool_decide (t = Transforms.kIdentity) || starts_with t Transforms.kTruncate then
    match Transforms.GetTypeFromSourceType (source_id value) schema with
    | Err _ => None
    | Ok ty => field (Some ty)
    end
  else if bool_decide (t = Transforms.kVoid) then field None
  else None.

Fixpoint GetFieldsFromPartitionSpec (fields : list PartitionField) (schema : Schema) :
    option (list PartitionKeyField) :=
  match fields with
  | [] => Some []
  | value :: fields =>
      match field_of_spec schema value with
      | None => None
      | Some f =>
          match GetFieldsFromPartitionSpec fields schema with
          | None => None
          | Some fs => Some (f :: fs)
          end
      end
  end.

Definition GetPartitionSpecById (partition_specs : list PartitionSpec) (partition_spec_id : Z) :
    result PartitionSpec :=
  match List.find (λ s, bool_decide (spec_id s = partition_spec_id)) partition_specs with
  | Some s => Ok s
  | None => Err (Exn "partition spec id is not found")
  end.

(** Types are compared by their printed names, and only when both are set. *)
Definition types_differ (actual expected : option Type_) : result bool :=
  match actual, expected with
  | Some a, Some e =>
      let! sa := ToString a in
      let! se := ToString e in
      Ok (negb (bool_decide (sa = se)))
  | _, _ => Ok false
  end.

Definition is_monostate (v : AvroValueHolder) : bool :=
  match v with AV_monostate => true | _ => false end.

(** The inner loop: [None] is the early [return false]. *)
Fixpoint match_field (expected : PartitionKeyField) (actual : PartitionTuple) (is_found : bool) :
    result (option bool) :=
  match actual with
  | [] => Ok (Some is_found)
  | a :: actual =>
      if bool_decide (pk_name a = pkf_name expected) then
        if is_found then Ok None
        else
          let! differ := types_differ (pk_type a) (pkf_type expected) in
          if differ then Ok None
          else if bool_decide (pkf_type expected = None) && negb (is_monostate (pk_value a)) then Ok None
          else match_field expected actual true
      else match_field expected actual is_found
  end.

(** The outer loop: every expected field is found. *)
Fixpoint match_fields (expected : list PartitionKeyField) (tuple : PartitionTuple) : result bool :=
  match expected with
  | [] => Ok true
  | e :: expected =>
      let! found := match_field e tuple false in
      match found with
      | Some true => match_fields expected tuple
      | _ => Ok false
      end
  end.

Definition MatchesSpecification (partition_spec : PartitionSpec) (schema : Schema)
    (tuple : PartitionTuple) : result bool :=
  match GetFieldsFromPartitionSpec (spec_fields partition_spec) schema with
  | None => Ok false
  | Some partition_fields =>
      if bool_decide (length partition_fields ≠ length tuple) then Ok false
      else match_fields partition_fields tuple
  end.

Definition count_matching (specs : list PartitionSpec) (schema : Schema) (tuple : PartitionTuple) :
    result nat :=
  fold_ok (λ n spec,
    let! m := MatchesSpecification spec schema tuple in
    Ok (if m then S n else n)) 0 specs.

Definition CheckPartitionTupleIsCorrect (specs : list PartitionSpec) (schema : Schema)
    (tuple : PartitionTuple) : result unit :=
  let! matching_specifications := count_matching specs schema tuple in
  if bool_decide (matching_specifications = 0) then
    Err (StatusError "Partiton specification for entry is not found")
  else if bool_decide (1 < matching_specifications) then
    Err (StatusError "Multiple partiton specifications for entry are found")
  else Ok ().

(** ** Theorems *)

(** What a found field means. *)
Definition field_matches (e : PartitionKeyField) (a : PartitionKey) : Prop :=
  pk_name a = pkf_name e ∧ types_differ (pk_type a) (pkf_type e) = Ok false ∧
  (pkf_type e = None → pk_value a = AV_monostate).

Lemma match_field_true e t b :
  match_field e t b = Ok (Some true) →
  if b then ∀ a, a ∈ t → pk_name a ≠ pkf_name e
  else ∃ t1 a t2, t = t1 ++ a :: t2 ∧ field_matches e a ∧
         ∀ a', a' ∈ t1 ++ t2 → pk_name a' ≠ pkf_name e.
Proof.
  revert b. induction t as [|a t IH]; intros b; simpl.
  { intros [= ->] ? ?%elem_of_nil. done. }
  case_bool_decide as Hn.
  - destruct b; [done|]. intros H. inv_ok. destruct a0 eqn:Ed; [done|].
    case_bool_decide as Hnone; simpl in H.
    + destruct (pk_value a) eqn:Ev; simpl in H; try done.
      apply IH in H. exists [], a, t. split_and!; [done|by split_and!|done].
    + apply IH in H. exists [], a, t. split_and!; [done|split_and!; done|done].
  - intros H%IH. destruct b.
    + intros a' [->|Ha']%elem_of_cons; auto.
    + destruct H as (t1 & a' & t2 & -> & Hm & Hrest). exists (a :: t1), a', t2.
      split_and!; [done|done|]. intros a'' [->|?]%elem_of_cons; auto.
Qed.

Lemma match_fields_true es t :
  match_fields es t = Ok true → ∀ e, e ∈ es → ∃ a, a ∈ t ∧ field_matches e a.
Proof.
  induction es as [|e es IH]; simpl; [by intros _ ? ?%elem_of_nil|].
  intros H. inv_ok. destruct a as [[|]|] eqn:E; try done.
  intros e' [->|He']%elem_of_cons; [|by apply IH].
  apply match_field_true in Ha as (t1 & a' & t2 & -> & Hm & _).
  exists a'. split; [set_solver|done].
Qed.

(** A tuple that matches a specification with distinct field names has
    exactly the specification's field names, each with a value of the
    expected type, and null under the void transform. *)
Theorem matches_specification_sound spec schema tuple fields :
  GetFieldsFromPartitionSpec (spec_fields spec) schema = Some fields →
  NoDup (pkf_name <$> fields) →
  MatchesSpecification spec schema tuple = Ok true →
  pk_name <$> tuple ≡ₚ pkf_name <$> fields ∧
  ∀ e, e ∈ fields → ∃ a, a ∈ tuple ∧ field_matches e a.
Proof.
  unfold MatchesSpecification. intros -> Hnd H.
  case_bool_decide as Hlen; [done|].
  pose proof (match_fields_true _ _ H) as Hall. split; [|done].
  symmetry. apply submseteq_length_Permutation; [|by rewrite !length_fmap, Hlen].
  apply NoDup_submseteq; [done|]. intros n (e & -> & He)%list_elem_of_fmap.
  destruct (Hall e He) as (a & Ha & Hn & _). apply list_elem_of_fmap. by exists a.
Qed.

Definition example_spec : PartitionSpec :=
  {| spec_id := 1; spec_fields :=
       [{| source_id := 1; pf_field_id := 1000; pf_name := "d"; transform := "day" |};
        {| source_id := 2; pf_field_id := 1001; pf_name := "b"; transform := "bucket[16]" |};
        {| source_id := 3; pf_field_id := 1002; pf_name := "v"; transform := "void" |}] |}.
Definition example_tuple : PartitionTuple :=
  [{| pk_name := "b"; pk_value := AV_int 3; pk_type := Some (PrimitiveType kInt) |};
   {| pk_name := "d"; pk_value := AV_int 19000; pk_type := Some (PrimitiveType kDate) |};
   null_PartitionKey "v"].

Lemma matches_specification_sound_witness :
  MatchesSpecification example_spec {| schema_id_ := 0; fields_ := [] |} example_tuple = Ok true ∧
  pk_name <$> example_tuple ≡ₚ ["d"; "b"; "v"].
Proof.
  split; [vm_compute; reflexivity|].
  edestruct (matches_specification_sound example_spec {| schema_id_ := 0; fields_ := [] |} example_tuple)
    as [Hp _]; [vm_compute; reflexivity| |vm_compute; reflexivity|exact Hp].
  apply NoDup_ListNoDup. simpl. repeat constructor; simpl; intuition discriminate.
Defined.
