(* ===== verification/TableMetadata.v ===== *)
(** * TableMetadata: table metadata, its checks and its getters

    [iceberg/snapshot.h], [iceberg/table_metadata.h] and the members of
    [TableMetadataV2], [TableMetadataV2Builder] and the checkers in
    [iceberg/table_metadata.cpp].  A [std::map] is the list of its entries in key
    order.  Messages that a checker prints to [std::cerr] are left out. *)

From stdpp Require Import base list strings.
From Stdlib Require Import ZArith Lia.
From S2P Require Import Prelude OrderedMap Scalars Types ScanTypes.

Local Open Scope Z_scope.

Record Snapshot := {
  snapshot_id : Z;
  parent_snapshot_id : option Z;
  snap_sequence_number : Z;
  snap_timestamp_ms : Z;
  manifest_list_location : string;
  summary : list (string * string);
  snap_schema_id : option Z;
}.

Record SnapshotRef := {
  ref_snapshot_id : Z;
  ref_type : string;
  min_snapshots_to_keep : option Z;
  max_snapshot_age_ms : option Z;
  max_ref_age_ms : option Z;
}.

Record SnapshotLog := { log_timestamp_ms : Z; log_snapshot_id : Z }.
Record MetadataLog := { ml_timestamp_ms : Z; metadata_file : string }.

Record BlobMetadata := {
  blob_type : string;
  blob_snapshot_id : Z;
  blob_sequence_number : Z;
  blob_field_ids : list Z;
  blob_properties : list (string * string);
}.

Record Statistics := {
  stat_snapshot_id : Z;
  statistics_path : string;
  file_size_in_bytes : Z;
  file_footer_size_in_bytes : Z;
  key_metadata : option string;
  stat_blob_metadata : list BlobMetadata;
}.

Inductive NullOrder := kNullsFirst | kNullsLast.
Inductive SortDirection := kAsc | kDesc.
#[export] Instance NullOrder_eq_dec : EqDecision NullOrder.
Proof. solve_decision. Defined.
#[export] Instance SortDirection_eq_dec : EqDecision SortDirection.
Proof. solve_decision. Defined.

Record SortField := {
  sf_transform : string;
  sf_source_id : Z;
  sf_direction : SortDirection;
  sf_null_order : NullOrder;
}.
#[export] Instance SortField_eq_dec : EqDecision SortField.
Proof. solve_decision. Defined.

Record SortOrder := { order_id : Z; sort_fields : list SortField }.

Definition FieldIds (o : SortOrder) : list Z := sf_source_id <$> sort_fields o.

Record TableMetadataV2 := {
  table_uuid : string;
  location : string;
  last_sequence_number : Z;
  last_updated_ms : Z;
  last_column_id : Z;
  schemas : list Schema;
  current_schema_id : Z;
  partition_specs : list PartitionSpec;
  default_spec_id : Z;
  last_partition_id : Z;
  table_properties : list (string * string);
  current_snapshot_id : option Z;
  snapshots : list Snapshot;
  snapshot_log : list SnapshotLog;
  metadata_log : list MetadataLog;
  sort_orders : list SortOrder;
  default_sort_order_id : Z;
  refs : list (string * SnapshotRef);
  statistics : list Statistics;
}.

(** ** Getters *)

Definition GetCurrentManifestListPath (m : TableMetadataV2) : option string :=
  match current_snapshot_id m with
  | None => None
  | Some id =>
      manifest_list_location <$>
        List.find (λ s, bool_decide (snapshot_id s = id)) (snapshots m)
  end.

Definition GetCurrentManifestListPathOrFail (m : TableMetadataV2) : result string :=
  match GetCurrentManifestListPath m with
  | Some p => Ok p
  | None => Err (Exn "Manifest list path is not found")
  end.

Definition GetCurrentSchema (m : TableMetadataV2) : result Schema :=
  match List.find (λ s, bool_decide (schema_id_ s = current_schema_id m)) (schemas m) with
  | Some s => Ok s
  | None => Err (Exn "no schema with current schema id")
  end.

Definition GetCurrentPartitionSpec (m : TableMetadataV2) : result PartitionSpec :=
  match List.find (λ s, bool_decide (spec_id s = default_spec_id m)) (partition_specs m) with
  | Some s => Ok s
  | None => Err (Exn "TableMetadataV2: partition spec is not found")
  end.

Definition GetSortOrder (m : TableMetadataV2) : option SortOrder :=
  List.find (λ o, bool_decide (order_id o = default_sort_order_id m)) (sort_orders m).

(** ** [SetSortOrder] *)

Definition set_orders (orders : list SortOrder) (id : Z) (m : TableMetadataV2) : TableMetadataV2 :=
  {| table_uuid := table_uuid m; location := location m; last_sequence_number := last_sequence_number m;
     last_updated_ms := last_updated_ms m; last_column_id := last_column_id m; schemas := schemas m;
     current_schema_id := current_schema_id m; partition_specs := partition_specs m;
     default_spec_id := default_spec_id m; last_partition_id := last_partition_id m;
     table_properties := table_properties m; current_snapshot_id := current_snapshot_id m;
     snapshots := snapshots m; snapshot_log := snapshot_log m; metadata_log := metadata_log m;
     sort_orders := orders; default_sort_order_id := id; refs := refs m; statistics := statistics m |}.

(** [while (ids.contains(id)) ++id]; [None]: out of fuel. *)
Fixpoint next_free (fuel : nat) (ids : list Z) (id : Z) : option Z :=
  match fuel with
  | O => None
  | S fuel => if bool_decide (id ∈ ids) then next_free fuel ids (wrap_s 32 (id + 1)) else Some id
  end.

(** The new metadata, the order with the identifier it got, and the result. *)
Definition SetSortOrder (order : SortOrder) (m : TableMetadataV2) : option (TableMetadataV2 * SortOrder * Z) :=
  match List.find (λ known, bool_decide (sort_fields known = sort_fields order)) (sort_orders m) with
  | Some known => Some (set_orders (sort_orders m) (order_id known) m, order, order_id known)
  | None =>
      let ids := order_id <$> sort_orders m in
      let new_id := if bool_decide (order_id order = 0) || bool_decide (order_id order ∈ ids)
                    then next_free (S (length ids)) ids 1 else Some (order_id order) in
      (λ id, let order := {| order_id := id; sort_fields := sort_fields order |} in
             (set_orders (sort_orders m ++ [order]) id m, order, id)) <$> new_id
  end.

(** ** Checkers *)

Definition checker_Ensure (fatal_on_error condition : bool) (message : string) : result bool :=
  if condition then Ok true else if fatal_on_error then Err (Exn message) else Ok false.

(** [result &= Ensure(...)], one after the other. *)
Fixpoint run_checks (fatal_on_error : bool) (checks : list (bool * string)) (res : bool) : result bool :=
  match checks with
  | [] => Ok res
  | (condition, message) :: checks =>
      let! ok := checker_Ensure fatal_on_error condition message in
      run_checks fatal_on_error checks (res && ok)
  end.

Definition has_id (ids : list Z) (id : Z) : bool := bool_decide (id ∈ ids).

Definition default_checks (m : TableMetadataV2) : list (bool * string) :=
  let snapshots_ids := snapshot_id <$> snapshots m in
  [(negb (String.eqb (table_uuid m) EmptyString), "table_uuid is empty");
   (negb (String.eqb (location m) EmptyString), "location is empty");
   (match sort_orders m with [] => false | _ => true end, "sort_orders is empty")] ++
  ((λ s, (snap_sequence_number s <=? last_sequence_number m,
          "snapshot sequence number is greater than last sequence number")) <$> snapshots m) ++
  ((λ e, (has_id snapshots_ids (log_snapshot_id e),
          "snapshot_log contains snapshot_id that is not present in snapshots")) <$> snapshot_log m) ++
  ((λ r, (has_id snapshots_ids (ref_snapshot_id r.2),
          "snapshot-ref id is not found in snapshots' ids")) <$> refs m) ++
  [(match current_snapshot_id m with None => true | Some id => has_id snapshots_ids id end,
    "current snapshot id is not found in snapshots' ids");
   (existsb (λ s, schema_id_ s =? current_schema_id m) (schemas m),
    "current schema id is not found in schemas' ids");
   (existsb (λ s, spec_id s =? default_spec_id m) (partition_specs m),
    "default spec id is not found in partition specs' ids")].

Definition DefaultChecker_Check (fatal_on_error : bool) (m : TableMetadataV2) : result bool :=
  run_checks fatal_on_error (default_checks m) true.

Definition kMillisInMinute : Z := 60 * 1000.

(** Each timestamp is at most a minute after the next one. *)
Fixpoint sorted_checks (message : string) (timestamps : list Z) : list (bool * string) :=
  match timestamps with
  | a :: (b :: _) as rest => (a <=? wrap_s 64 (b + kMillisInMinute), message) :: sorted_checks message rest
  | _ => []
  end.

Definition last_check (message : string) (last_updated : Z) (timestamps : list Z) : bool * string :=
  (match last timestamps with None => true | Some t => t <=? wrap_s 64 (last_updated + kMillisInMinute) end, message).

(** The result of the default checker is not used. *)
Definition JavaCompatibleChecker_Check (fatal_on_error : bool) (m : TableMetadataV2) : result bool :=
  let! _ := DefaultChecker_Check fatal_on_error m in
  let log := log_timestamp_ms <$> snapshot_log m in
  let mlog := ml_timestamp_ms <$> metadata_log m in
  run_checks fatal_on_error
    (sorted_checks "snapshot log is not sorted by timestamp" log ++
     [last_check "last updated ms is less than the last snapshot timestamp" (last_updated_ms m) log] ++
     sorted_checks "metadata log is not sorted by timestamp" mlog ++
     [last_check "last updated ms is less than the last metadata timestamp" (last_updated_ms m) mlog]) true.

(** ** Constructor and builder *)

Definition set_current (id : option Z) (m : TableMetadataV2) : TableMetadataV2 :=
  {| table_uuid := table_uuid m; location := location m; last_sequence_number := last_sequence_number m;
     last_updated_ms := last_updated_ms m; last_column_id := last_column_id m; schemas := schemas m;
     current_schema_id := current_schema_id m; partition_specs := partition_specs m;
     default_spec_id := default_spec_id m; last_partition_id := last_partition_id m;
     table_properties := table_properties m; current_snapshot_id := id;
     snapshots := snapshots m; snapshot_log := snapshot_log m; metadata_log := metadata_log m;
     sort_orders := sort_orders m; default_sort_order_id := default_sort_order_id m; refs := refs m;
     statistics := statistics m |}.

Definition make_TableMetadataV2 (m : TableMetadataV2) : result TableMetadataV2 :=
  let m := if bool_decide (current_snapshot_id m = Some (-1)) then set_current None m else m in
  let! _ := DefaultChecker_Check true m in
  Ok m.

Record TableMetadataV2Builder := {
  bu_table_uuid : option string;
  bu_location : option string;
  bu_last_sequence_number : option Z;
  bu_last_updated_ms : option Z;
  bu_last_column_id : option Z;
  bu_schemas : option (list Schema);
  bu_current_schema_id : option Z;
  bu_partition_specs : option (list PartitionSpec);
  bu_default_spec_id : option Z;
  bu_last_partition_id : option Z;
  bu_properties : option (list (string * string));
  bu_current_snapshot_id : option Z;
  bu_snapshots : option (list Snapshot);
  bu_snapshot_log : option (list SnapshotLog);
  bu_metadata_log : option (list MetadataLog);
  bu_sort_orders : option (list SortOrder);
  bu_default_sort_order_id : option Z;
  bu_refs : option (list (string * SnapshotRef));
  bu_statistics : option (list Statistics);
}.

(** [ASSERT_HAS_VALUE] and [.value()]. *)
Definition assert_has_value {A} (field : option A) (name : string) : result A :=
  match field with Some a => Ok a | None => Err (Exn ("TableMetadataV2Builder::Build(): !" +:+ name)) end.

Definition assert_ge (field value : Z) (name : string) : result unit :=
  if field <? value then Err (Exn ("TableMetadataV2Builder::Build(): !" +:+ name)) else Ok ().

Definition Build (b : TableMetadataV2Builder) : result TableMetadataV2 :=
  let! uuid := assert_has_value (bu_table_uuid b) "table_uuid" in
  let! loc := assert_has_value (bu_location b) "location" in
  let! seq := assert_has_value (bu_last_sequence_number b) "last_sequence_number" in
  let! updated := assert_has_value (bu_last_updated_ms b) "last_updated_ms" in
  let! column := assert_has_value (bu_last_column_id b) "last_column_id" in
  let! schemas := assert_has_value (bu_schemas b) "schemas" in
  let! schema := assert_has_value (bu_current_schema_id b) "current_schema_id" in
  let! specs := assert_has_value (bu_partition_specs b) "partition_specs" in
  let! spec := assert_has_value (bu_default_spec_id b) "default_spec_id" in
  let! partition := assert_has_value (bu_last_partition_id b) "last_partition_id" in
  let! orders := assert_has_value (bu_sort_orders b) "sort_orders" in
  let! order := assert_has_value (bu_default_sort_order_id b) "default_sort_order_id" in
  let! _ := assert_ge seq 0 "last_sequence_number condition" in
  let! _ := assert_ge column 0 "last_column_id condition" in
  let! _ := assert_ge schema 0 "current_schema_id condition" in
  let! _ := assert_ge spec 0 "default_spec_id condition" in
  let! _ := assert_ge partition 0 "last_partition_id condition" in
  let! _ := assert_ge order 0 "default_sort_order_id condition" in
  make_TableMetadataV2
    {| table_uuid := uuid; location := loc; last_sequence_number := seq; last_updated_ms := updated;
       last_column_id := column; schemas := schemas; current_schema_id := schema; partition_specs := specs;
       default_spec_id := spec; last_partition_id := partition; table_properties := default [] (bu_properties b);
       current_snapshot_id := bu_current_snapshot_id b; snapshots := default [] (bu_snapshots b);
       snapshot_log := default [] (bu_snapshot_log b); metadata_log := default [] (bu_metadata_log b);
       sort_orders := orders; default_sort_order_id := order; refs := default [] (bu_refs b);
       statistics := default [] (bu_statistics b) |}.

(** ** What the checks mean *)

(** The references inside the metadata resolve. *)
Record valid (m : TableMetadataV2) : Prop := {
  va_uuid : table_uuid m ≠ EmptyString;
  va_location : location m ≠ EmptyString;
  va_orders : sort_orders m ≠ [];
  va_sequence : ∀ s, s ∈ snapshots m → snap_sequence_number s ≤ last_sequence_number m;
  va_log : ∀ e, e ∈ snapshot_log m → log_snapshot_id e ∈ snapshot_id <$> snapshots m;
  va_refs : ∀ name r, (name, r) ∈ refs m → ref_snapshot_id r ∈ snapshot_id <$> snapshots m;
  va_current : ∀ id, current_snapshot_id m = Some id → id ∈ snapshot_id <$> snapshots m;
  va_schema : current_schema_id m ∈ schema_id_ <$> schemas m;
  va_spec : default_spec_id m ∈ spec_id <$> partition_specs m;
}.

Lemma run_checks_fatal checks : ∀ res,
  run_checks true checks res = Ok true ↔ res = true ∧ Forall (λ c, c.1 = true) checks.
Proof.
  induction checks as [|[c msg] checks IH]; intros res; cbn [run_checks].
  - split; [intros [= ->]; split; [done|constructor]|by intros [-> _]].
  - rewrite Forall_cons. cbn [fst]. destruct c; cbn [checker_Ensure rbind].
    + rewrite IH, andb_true_r. tauto.
    + split; [done|]. intros (_ & [=] & _).
Qed.

Lemma run_checks_nonfatal checks : ∀ res,
  run_checks false checks res = Ok (res && forallb fst checks).
Proof.
  induction checks as [|[c msg] checks IH]; intros res; cbn [run_checks]; [by rewrite andb_true_r|].
  destruct c; cbn [checker_Ensure rbind]; rewrite IH; simpl; by rewrite <- andb_assoc.
Qed.

Lemma run_checks_fatal_result checks : ∀ res b, run_checks true checks res = Ok b → b = res.
Proof.
  induction checks as [|[[] msg] checks IH]; intros res b; cbn [run_checks checker_Ensure rbind]; [by intros [= ->]| |done].
  rewrite andb_true_r. apply IH.
Qed.

Lemma has_id_true ids id : has_id ids id = true ↔ id ∈ ids.
Proof. unfold has_id. by rewrite bool_decide_eq_true. Qed.

Lemma existsb_id {A} (f : A → Z) l id : existsb (λ x, f x =? id) l = true ↔ id ∈ f <$> l.
Proof.
  rewrite existsb_exists, list_elem_of_fmap. split.
  - intros (x & Hx%list_elem_of_In & E%Z.eqb_eq). by exists x.
  - intros (x & -> & Hx). exists x. by rewrite <- list_elem_of_In, Z.eqb_refl.
Qed.

Lemma Forall_checks {A} (f : A → bool) (msg : string) l :
  Forall (λ c, c.1 = true) ((λ x, (f x, msg)) <$> l) ↔ ∀ x, x ∈ l → f x = true.
Proof. rewrite Forall_fmap, Forall_forall. done. Qed.

Lemma default_checks_valid m : Forall (λ c, c.1 = true) (default_checks m) ↔ valid m.
Proof.
  unfold default_checks. rewrite !Forall_app, !Forall_cons, !Forall_checks. cbn [fst].
  rewrite (existsb_id schema_id_), (existsb_id spec_id), !negb_true_iff, !String.eqb_neq. split.
  - intros ((H1 & H2 & H3 & _) & H4 & H5 & H6 & H7 & H8 & H9 & _). split; try done.
    + by destruct (sort_orders m).
    + intros s Hs. by apply Z.leb_le, H4.
    + intros e He. by apply has_id_true, H5.
    + intros name r Hr. by apply has_id_true, (H6 (name, r)).
    + intros id E. rewrite E in H7. by apply has_id_true.
  - intros [H1 H2 H3 H4 H5 H6 H7 H8 H9]. repeat split; try done; try constructor.
    + by destruct (sort_orders m).
    + intros s Hs. by apply Z.leb_le, H4.
    + intros e He. by apply has_id_true, H5.
    + intros [name r] Hr. by eapply has_id_true, H6.
    + destruct (current_snapshot_id m) as [id|]; [|done]. by apply has_id_true, H7.
Qed.

(** The constructor accepts exactly the valid metadata, with -1 for no snapshot. *)
Lemma make_TableMetadataV2_exact m m' :
  make_TableMetadataV2 m = Ok m' ↔
  valid m' ∧ m' = (if bool_decide (current_snapshot_id m = Some (-1)) then set_current None m else m).
Proof.
  unfold make_TableMetadataV2, DefaultChecker_Check.
  set (n := if bool_decide _ then _ else _). split.
  - intros E. apply rbind_Ok_inv in E as (b & Hb & [= <-]). split; [|done].
    apply default_checks_valid, (run_checks_fatal _ true). by rewrite (run_checks_fatal_result _ _ _ Hb) in Hb.
  - intros [Hv ->]. assert (run_checks true (default_checks n) true = Ok true) as ->; [|done].
    apply run_checks_fatal. split; [done|]. by apply default_checks_valid.
Qed.

(** Of valid metadata every getter finds what it looks for. *)
Record getters_total (m : TableMetadataV2) : Prop := {
  gt_schema : ∃ s, GetCurrentSchema m = Ok s ∧ s ∈ schemas m ∧ schema_id_ s = current_schema_id m;
  gt_spec : ∃ s, GetCurrentPartitionSpec m = Ok s ∧ s ∈ partition_specs m ∧ spec_id s = default_spec_id m;
  gt_manifests : ∀ id, current_snapshot_id m = Some id →
    ∃ s, s ∈ snapshots m ∧ snapshot_id s = id ∧ GetCurrentManifestListPathOrFail m = Ok (manifest_list_location s);
}.

Lemma find_by_id {A} (f : A → Z) l id :
  id ∈ f <$> l → ∃ x, List.find (λ x, bool_decide (f x = id)) l = Some x ∧ x ∈ l ∧ f x = id.
Proof.
  intros (y & -> & Hy)%list_elem_of_fmap. destruct (List.find _ l) as [x|] eqn:E.
  - apply find_Some_true in E as [Hx Hp]. apply bool_decide_eq_true in Hp. by eauto.
  - exfalso. apply list_elem_of_In in Hy. apply (find_none _ _ E) in Hy. by rewrite bool_decide_eq_false in Hy.
Qed.

Lemma valid_getters m : valid m → getters_total m.
Proof.
  intros [_ _ _ _ _ _ H7 H8 H9]. split.
  - destruct (find_by_id _ _ _ H8) as (s & E & Hs). exists s. unfold GetCurrentSchema. by rewrite E.
  - destruct (find_by_id _ _ _ H9) as (s & E & Hs). exists s. unfold GetCurrentPartitionSpec. by rewrite E.
  - intros id E. destruct (find_by_id _ _ _ (H7 _ E)) as (s & Ef & Hs & Hid). exists s.
    unfold GetCurrentManifestListPathOrFail, GetCurrentManifestListPath. rewrite E, Ef. done.
Qed.

Lemma builder_valid b m : Build b = Ok m → valid m.
Proof.
  unfold Build. intros E. do 18 (apply rbind_Ok_inv in E as (? & _ & E)). by apply make_TableMetadataV2_exact in E as [Hv _].
Qed.

(** ** Sort orders *)

Lemma filter_ge_shrinks ids id :
  id ∈ ids → (length (filter (λ x : Z, (id + 1 ≤ x)%Z) ids) < length (filter (λ x : Z, (id ≤ x)%Z) ids))%nat.
Proof.
  induction ids as [|x ids IH]; [by intros ?%elem_of_nil|].
  assert (length (filter (λ x : Z, (id + 1 ≤ x)%Z) ids) ≤ length (filter (λ x : Z, (id ≤ x)%Z) ids))%nat as Hle.
  { clear. induction ids as [|y ids IH]; [done|]. rewrite !filter_cons. repeat case_decide; simpl; lia. }
  intros [->|Hin]%elem_of_cons; rewrite !filter_cons.
  - rewrite decide_False by lia. rewrite decide_True by lia. simpl. lia.
  - specialize (IH Hin). repeat case_decide; simpl; lia.
Qed.

(** The loop for a free identifier ends before its fuel does. *)
Lemma next_free_spec ids : ∀ fuel id,
  (length (filter (λ x : Z, (id ≤ x)%Z) ids) < fuel)%nat → 0 ≤ id → id + Z.of_nat fuel ≤ int32_max →
  ∃ k, next_free fuel ids id = Some k ∧ k ∉ ids ∧ id ≤ k.
Proof.
  induction fuel as [|fuel IH]; intros id Hf Hid Hm; [lia|]. cbn [next_free].
  destruct (bool_decide_reflect (id ∈ ids)) as [Hin|Hin]; [|by exists id].
  rewrite wrap_s_32_id by (unfold_ints; lia).
  destruct (IH (id + 1)) as (k & E & Hk & Hle); [|lia|lia|exists k; split; [done|split; [done|lia]]].
  pose proof (filter_ge_shrinks _ _ Hin). lia.
Qed.

Lemma next_free_total ids :
  Z.of_nat (length ids) < int32_max - 2 → ∃ k, next_free (S (length ids)) ids 1 = Some k ∧ k ∉ ids.
Proof.
  intros Hl. destruct (next_free_spec ids (S (length ids)) 1) as (k & E & Hk & _); [|lia|unfold_ints; lia|by eauto].
  pose proof (length_filter (λ x : Z, (1 ≤ x)%Z) ids). lia.
Qed.

Lemma find_order_id id orders o :
  NoDup (order_id <$> orders) → o ∈ orders → order_id o = id →
  List.find (λ o, bool_decide (order_id o = id)) orders = Some o.
Proof.
  intros Hnd Ho <-. induction orders as [|x orders IH]; [by apply elem_of_nil in Ho|]. simpl.
  rewrite fmap_cons, NoDup_cons in Hnd. destruct Hnd as [Hx Hnd]. apply elem_of_cons in Ho as [->|Ho].
  - by rewrite bool_decide_true.
  - rewrite bool_decide_false; [by apply IH|]. intros E. apply Hx. rewrite E. by apply list_elem_of_fmap_2.
Qed.

Lemma valid_set_orders m orders id : valid m → orders ≠ [] → valid (set_orders orders id m).
Proof. intros [] Ho. by split. Qed.

Lemma NoDup_snoc {A} (l : list A) x : NoDup l → x ∉ l → NoDup (l ++ [x]).
Proof. intros Hl Hx. apply NoDup_app. repeat split; [done| |apply NoDup_singleton]. by intros y Hy ->%list_elem_of_singleton. Qed.

(** [SetSortOrder] returns, keeps the known orders and the uniqueness of
    their identifiers, and leaves a default order with the fields that were asked
    for, under the identifier it returns; valid metadata stays valid. *)
Theorem set_sort_order_exact (order : SortOrder) (m : TableMetadataV2) :
  NoDup (order_id <$> sort_orders m) → Z.of_nat (length (sort_orders m)) < int32_max - 2 →
  ∃ m' order' id, SetSortOrder order m = Some (m', order', id) ∧
    default_sort_order_id m' = id ∧
    (∃ o, GetSortOrder m' = Some o ∧ sort_fields o = sort_fields order ∧ order_id o = id) ∧
    (∃ new, sort_orders m' = sort_orders m ++ new) ∧ NoDup (order_id <$> sort_orders m') ∧
    (valid m → valid m').
Proof.
  intros Hnd Hlen. unfold SetSortOrder. destruct (List.find _ _) as [known|] eqn:E.
  - apply find_Some_true in E as [Hk Hf]. apply bool_decide_eq_true in Hf.
    do 3 eexists. split; [done|]. split; [done|]. split; [|split; [exists []; by rewrite app_nil_r|split; [done|]]].
    + exists known. split; [by apply find_order_id|done].
    + intros Hv. apply valid_set_orders; [done|by apply va_orders].
  - set (ids := order_id <$> sort_orders m).
    assert (∃ id, (if bool_decide (order_id order = 0) || bool_decide (order_id order ∈ ids)
                   then next_free (S (length ids)) ids 1 else Some (order_id order)) = Some id ∧ id ∉ ids) as (id & -> & Hid).
    { case_match eqn:Ec; [apply next_free_total; unfold ids; by rewrite length_fmap|].
      apply orb_false_iff in Ec as [_ Ec%bool_decide_eq_false]. by eauto. }
    cbn [fmap option_fmap option_map]. set (o := {| order_id := id; sort_fields := _ |}).
    assert (NoDup (order_id <$> sort_orders m ++ [o])) as Hnd' by (rewrite fmap_app; by apply NoDup_snoc).
    do 3 eexists. split; [done|]. split; [done|]. split; [|split; [by exists [o]|split; [done|]]].
    + exists o. split; [|done]. apply find_order_id; [done| |done]. apply elem_of_app. right. by left.
    + intros Hv. apply valid_set_orders; [done|]. by destruct (sort_orders m).
Qed.

(** ** Examples *)

Module MetadataExample.
Definition metadata : TableMetadataV2 :=
  {| table_uuid := "u"; location := "l"; last_sequence_number := 3; last_updated_ms := 0; last_column_id := 1;
     schemas := [{| schema_id_ := 0; fields_ := [] |}]; current_schema_id := 0;
     partition_specs := [{| spec_id := 0; spec_fields := [] |}];
     default_spec_id := 0; last_partition_id := 1000; table_properties := []; current_snapshot_id := None;
     snapshots := []; snapshot_log := []; metadata_log := [];
     sort_orders := [{| order_id := 1; sort_fields := [] |}]; default_sort_order_id := 1; refs := []; statistics := [] |}.
Definition order : SortOrder :=
  {| order_id := 1; sort_fields := [{| sf_transform := "identity"; sf_source_id := 1; sf_direction := kAsc;
                                       sf_null_order := kNullsFirst |}] |}.
End MetadataExample.

Lemma set_sort_order_exact_witness :
  ∃ m' order' id, SetSortOrder MetadataExample.order MetadataExample.metadata = Some (m', order', id) ∧
    default_sort_order_id m' = id ∧
    (∃ o, GetSortOrder m' = Some o ∧ sort_fields o = sort_fields MetadataExample.order ∧ order_id o = id) ∧
    (∃ new, sort_orders m' = sort_orders MetadataExample.metadata ++ new) ∧ NoDup (order_id <$> sort_orders m') ∧
    (valid MetadataExample.metadata → valid m').
Proof. apply set_sort_order_exact; [apply NoDup_singleton|simpl; unfold_ints; lia]. Defined.

(** Metadata that the default checker
    rejects passes the check for compatibility: the result of the default checker
    is dropped. *)
Theorem java_checker_drops_default_result :
  let m := set_current (Some 5) MetadataExample.metadata in
  DefaultChecker_Check false m = Ok false ∧ JavaCompatibleChecker_Check false m = Ok true.
Proof. by vm_compute. Qed.
