(* ===== verification/ScanBuilder.v ===== *)
(** * ScanBuilder: accumulating manifest entries into layers

    [ScanMetadataBuilder] of [iceberg/tea_scan.cpp] and [iceberg/tea_scan.h]:
    entries are filed by serialized partition key and sequence number; at the
    end unpartitioned equality deletes are added to every partition, deletion
    vectors are attached to their data files, and the layers become the plan.

    The logger only observes the computation and is left out.  The
    [ScanMetadataBuilderMT] overrides take a mutex around the same operations
    and are the same state changes.  Sequence numbers are integers without bounds, so the
    [sequence_number - 1] that equality deletes are filed under does not wrap around; in
    the code, an [int64_t], it would for the least number only. *)

From stdpp Require Import base list sorting strings gmap sets.
From Stdlib Require Import ZArith Lia.
From S2P Require Import Prelude OrderedMap Bytes Types ScanTypes Layering PosDelOptimizer Dangling.
From S2P Require Import PartitionKey PartitionSpecs TableMetadata.

Local Open Scope Z_scope.

Definition kDeletionVectorFormat : string := "PUFFIN".

(** Field id of the reserved column [file_path] in positional delete files. *)
Definition kFilePathId : Z := 2147483546.

Abbreviation layer_map := (list (Z * LayerWithExtraInfo)).

Record ScanMetadataBuilder := {
  b_partitions : list (string * layer_map);
  global_equality_deletes : list (Z * list EqualityDeleteInfo);
}.

Definition empty_builder : ScanMetadataBuilder :=
  {| b_partitions := []; global_equality_deletes := [] |}.

(** [f(partitions[key][sequence_number])]. *)
Definition update_layer (f : LayerWithExtraInfo → LayerWithExtraInfo) (key : string) (seq : Z)
    (b : ScanMetadataBuilder) : ScanMetadataBuilder :=
  {| b_partitions :=
       mupdate (λ o, mupdate (λ l, f (default empty_layer l)) seq (default [] o)) key (b_partitions b);
     global_equality_deletes := global_equality_deletes b |}.

Definition push_data (x : DataEntry) (l : LayerWithExtraInfo) : LayerWithExtraInfo :=
  {| data_entries_ := data_entries_ l ++ [x];
     positional_delete_entries_ := positional_delete_entries_ l;
     equality_delete_entries_ := equality_delete_entries_ l; dv_entries_ := dv_entries_ l |}.
Definition push_pos (y : PositionalDeleteWithExtraInfo) (l : LayerWithExtraInfo) : LayerWithExtraInfo :=
  {| data_entries_ := data_entries_ l;
     positional_delete_entries_ := positional_delete_entries_ l ++ [y];
     equality_delete_entries_ := equality_delete_entries_ l; dv_entries_ := dv_entries_ l |}.
Definition push_eqs (ys : list EqualityDeleteInfo) (l : LayerWithExtraInfo) : LayerWithExtraInfo :=
  {| data_entries_ := data_entries_ l;
     positional_delete_entries_ := positional_delete_entries_ l;
     equality_delete_entries_ := equality_delete_entries_ l ++ ys; dv_entries_ := dv_entries_ l |}.
Definition set_dv (path : string) (d : DeletionVectorInfo) (l : LayerWithExtraInfo) : LayerWithExtraInfo :=
  {| data_entries_ := data_entries_ l;
     positional_delete_entries_ := positional_delete_entries_ l;
     equality_delete_entries_ := equality_delete_entries_ l;
     dv_entries_ := <[path := d]> (dv_entries_ l) |}.

Definition AddDataFile (key : string) (seq : Z) (path : string) (segments : list Segment) :=
  update_layer (push_data {| de_path := path; parts := segments; dv := None |}) key seq.

Definition AddPositionDeletes (key : string) (seq : Z) (path : string)
    (min_max_referenced_path : option (string * string)) :=
  update_layer (push_pos {| positional_delete_ := {| pd_path := path |};
                            min_max_referenced_path_ := min_max_referenced_path |}) key seq.

Definition AddGlobalEqualityDeletes (seq : Z) (path : string) (equality_ids : list Z)
    (b : ScanMetadataBuilder) : ScanMetadataBuilder :=
  {| b_partitions := b_partitions b;
     global_equality_deletes :=
       mupdate (λ o, default [] o ++ [{| ed_path := path; field_ids := equality_ids |}]) (seq - 1)
         (global_equality_deletes b) |}.

Definition AddEqualityDeletes (key : string) (seq : Z) (path : string) (equality_ids : list Z) :=
  update_layer (push_eqs [{| ed_path := path; field_ids := equality_ids |}]) key (seq - 1).

Definition AddDeletionVector (key : string) (seq : Z) (path referenced_data_file : string)
    (offset length : Z) :=
  update_layer (set_dv referenced_data_file
    {| dv_path := path; dv_offset := offset; dv_length := length;
       dv_referenced_data_file := referenced_data_file |}) key seq.

(** The segments of a data file from its split offsets. *)
Fixpoint segments_from (o : Z) (split_offsets : list Z) : list Segment :=
  match split_offsets with
  | [] => [{| offset := o; length_ := 0 |}]
  | o' :: rest => {| offset := o; length_ := wrap_s 64 (o' - o) |} :: segments_from o' rest
  end.

Definition make_segments (split_offsets : list Z) : list Segment :=
  match split_offsets with
  | [] => [{| offset := 4; length_ := 0 |}]
  | o :: rest => segments_from o rest
  end.

(** The path range recorded in the bounds of a positional delete file. *)
Definition referenced_range (f : DataFile) : option (string * string) :=
  match lower_bounds f !! kFilePathId, upper_bounds f !! kFilePathId with
  | Some min_bytes, Some max_bytes => Some (string_of_bytes min_bytes, string_of_bytes max_bytes)
  | _, _ => None
  end.

Definition StoreEntry (serialized_partition_key : string) (entry : ManifestEntry)
    (b : ScanMetadataBuilder) : result ScanMetadataBuilder :=
  let f := data_file entry in
  match sequence_number entry with
  | None => Err (Exn "bad_optional_access")
  | Some seq =>
      match content f with
      | kData => Ok (AddDataFile serialized_partition_key seq (file_path f) (make_segments (split_offsets f)) b)
      | kPositionDeletes =>
          if bool_decide (file_format f = kDeletionVectorFormat) then
            match referenced_data_file f, content_offset f, content_size_in_bytes f with
            | None, _, _ => Err (Exn "Deletion Vector must have referenced_data_file set")
            | _, None, _ => Err (Exn "Deletion Vector must have content_offset set")
            | _, _, None => Err (Exn "Deletion Vector must have content_size_in_bytes set")
            | Some ref, Some off, Some size =>
                Ok (AddDeletionVector serialized_partition_key seq (file_path f) ref off size b)
            end
          else Ok (AddPositionDeletes serialized_partition_key seq (file_path f) (referenced_range f) b)
      | kEqualityDeletes =>
          if bool_decide (serialized_partition_key = "") then
            Ok (AddGlobalEqualityDeletes seq (file_path f) (equality_ids f) b)
          else Ok (AddEqualityDeletes serialized_partition_key seq (file_path f) (equality_ids f) b)
      end
  end.

Definition AddEntry (m : TableMetadataV2) (schema : Schema) (b : ScanMetadataBuilder)
    (entry : ManifestEntry) : result ScanMetadataBuilder :=
  if bool_decide (status entry = kDeleted) then Ok b
  else
    let! _ := CheckPartitionTupleIsCorrect (partition_specs m) schema (partition_tuple (data_file entry)) in
    let! serialized_partition_key := SerializePartitionTuple (partition_tuple (data_file entry)) in
    StoreEntry serialized_partition_key entry b.

(** ** The result *)

Definition ApplyGlobalEqualityDeletes (globals : list (Z * list EqualityDeleteInfo))
    (layers : layer_map) : layer_map :=
  foldl (λ layers '(seqnum, entries),
    mupdate (λ l, push_eqs entries (default empty_layer l)) seqnum layers) layers globals.

(** [current_dvs]: iterating the hash map of a layer and assigning each entry
    leaves the layer's entries over the older ones, whatever the order. *)
Definition collect_dvs (layers : layer_map) : gmap string (DeletionVectorInfo * Z) :=
  foldl (λ current_dvs '(seqnum, layer),
    ((λ d, (d, seqnum)) <$> dv_entries_ layer) ∪ current_dvs) ∅ layers.

Definition resolve_entry (current_dvs : gmap string (DeletionVectorInfo * Z)) (seqnum : Z)
    (layer : LayerWithExtraInfo) (data : DataEntry) : result DataEntry :=
  match current_dvs !! de_path data with
  | None => Ok data
  | Some (d, dv_seqnum) =>
      if bool_decide (dv_seqnum < seqnum) then Ok data
      else
        let! _ := Ensure (is_nil (equality_delete_entries_ layer))
                    "Consistency error: Data file has Deletion Vector, but layer also contains Equality Deletes" in
        let! _ := Ensure (is_nil (positional_delete_entries_ layer))
                    "Consistency error: Data file has Deletion Vector, but layer also contains Positional Deletes" in
        Ok {| de_path := de_path data; parts := parts data; dv := Some d |}
  end.

Definition resolve_layer (current_dvs : gmap string (DeletionVectorInfo * Z))
    (sl : Z * LayerWithExtraInfo) : result (Z * LayerWithExtraInfo) :=
  let! xs := map_ok (resolve_entry current_dvs sl.1 sl.2) (data_entries_ sl.2) in
  Ok (sl.1, {| data_entries_ := xs;
               positional_delete_entries_ := positional_delete_entries_ sl.2;
               equality_delete_entries_ := equality_delete_entries_ sl.2;
               dv_entries_ := dv_entries_ sl.2 |}).

Definition ResolveDeletionVectors (layers : layer_map) : result layer_map :=
  map_ok (resolve_layer (collect_dvs layers)) layers.

Definition MapToVec (partitions : list (string * layer_map)) : list (list LayerWithExtraInfo) :=
  List.map (λ kp : string * layer_map, List.map snd kp.2) partitions.

Definition GetPartitions (partitions : list (string * layer_map)) : result (list Partition) :=
  GetPartitions_of_layers (MapToVec partitions).

(** One partition of [GetResult]'s first loop. *)
Definition finish_partition (globals : list (Z * list EqualityDeleteInfo)) (kp : string * layer_map) :
    result (string * layer_map) :=
  let! layers := ResolveDeletionVectors (ApplyGlobalEqualityDeletes globals kp.2) in
  Ok (kp.1, layers).

Definition GetResult (schema : Schema) (b : ScanMetadataBuilder) : result ScanMetadata :=
  let! finished := map_ok (finish_partition (global_equality_deletes b)) (b_partitions b) in
  let! ps := GetPartitions finished in
  Ok {| ScanTypes.schema := schema; partitions := ps |}.

(** ** The state as a function of the entries added *)

Definition layer_at (b : ScanMetadataBuilder) (key : string) (seq : Z) : LayerWithExtraInfo :=
  default empty_layer (mfind key (b_partitions b) ≫= mfind seq).

Definition globals_at (b : ScanMetadataBuilder) (seq : Z) : list EqualityDeleteInfo :=
  default [] (mfind seq (global_equality_deletes b)).

(** Maps are sorted by key: the invariant of [std::map]. *)
Record builder_wf (b : ScanMetadataBuilder) : Prop := {
  wf_partitions : keys_sorted (b_partitions b);
  wf_layers : ∀ k m, mfind k (b_partitions b) = Some m → keys_sorted m;
  wf_globals : keys_sorted (global_equality_deletes b);
}.

Lemma empty_builder_wf : builder_wf empty_builder.
Proof. split; [apply keys_sorted_nil|done|apply keys_sorted_nil]. Qed.

Lemma layers_sorted b k : builder_wf b → keys_sorted (default [] (mfind k (b_partitions b))).
Proof.
  intros Hb. destruct (mfind k (b_partitions b)) eqn:E; simpl; [by eapply wf_layers|apply keys_sorted_nil].
Qed.

Lemma update_layer_wf f k s b : builder_wf b → builder_wf (update_layer f k s b).
Proof.
  intros Hb. split; simpl; [apply mupdate_sorted, Hb| |apply Hb].
  intros k' m. destruct (decide (k = k')) as [<-|Hne].
  - rewrite mfind_mupdate_eq. intros [= <-]. apply mupdate_sorted. by apply layers_sorted.
  - rewrite mfind_mupdate_ne by (done || apply Hb). apply Hb.
Qed.

Lemma layer_at_update f k s b k' s' :
  builder_wf b →
  layer_at (update_layer f k s b) k' s'
  = if decide (k = k' ∧ s = s') then f (layer_at b k s) else layer_at b k' s'.
Proof.
  intros Hb. unfold layer_at. simpl. destruct (decide (k = k')) as [<-|Hk].
  - rewrite mfind_mupdate_eq. simpl. destruct (decide (s = s')) as [<-|Hs].
    + rewrite decide_True by done. rewrite mfind_mupdate_eq. simpl.
      by destruct (mfind k (b_partitions b)).
    + rewrite decide_False by tauto. rewrite mfind_mupdate_ne by (done || by apply layers_sorted).
      by destruct (mfind k (b_partitions b)).
  - rewrite decide_False by tauto. by rewrite mfind_mupdate_ne by (done || apply Hb).
Qed.

Definition live (e : ManifestEntry) : bool := negb (bool_decide (status e = kDeleted)).

(** The partition and the sequence number an entry is filed under. *)
Definition filed_at (e : ManifestEntry) (k : string) (s : Z) : bool :=
  live e && bool_decide (SerializePartitionTuple (partition_tuple (data_file e)) = Ok k)
  && bool_decide (sequence_number e = Some s).

Definition entry_data (e : ManifestEntry) : DataEntry :=
  {| de_path := file_path (data_file e); parts := make_segments (split_offsets (data_file e)); dv := None |}.
Definition entry_pos (e : ManifestEntry) : PositionalDeleteWithExtraInfo :=
  {| positional_delete_ := {| pd_path := file_path (data_file e) |};
     min_max_referenced_path_ := referenced_range (data_file e) |}.
Definition entry_eq (e : ManifestEntry) : EqualityDeleteInfo :=
  {| ed_path := file_path (data_file e); field_ids := equality_ids (data_file e) |}.

Definition is_data (e : ManifestEntry) : bool := bool_decide (content (data_file e) = kData).
Definition is_pos (e : ManifestEntry) : bool :=
  bool_decide (content (data_file e) = kPositionDeletes)
  && negb (bool_decide (file_format (data_file e) = kDeletionVectorFormat)).
Definition is_eq (e : ManifestEntry) : bool := bool_decide (content (data_file e) = kEqualityDeletes).

(** What one entry adds to a layer, and to the unpartitioned equality deletes. *)
Definition adds_data (k : string) (s : Z) (e : ManifestEntry) : list DataEntry :=
  if filed_at e k s && is_data e then [entry_data e] else [].
Definition adds_pos (k : string) (s : Z) (e : ManifestEntry) : list PositionalDeleteWithExtraInfo :=
  if filed_at e k s && is_pos e then [entry_pos e] else [].
Definition adds_eq (k : string) (s : Z) (e : ManifestEntry) : list EqualityDeleteInfo :=
  if filed_at e k (s + 1) && is_eq e && negb (bool_decide (k = "")) then [entry_eq e] else [].
Definition adds_global (s : Z) (e : ManifestEntry) : list EqualityDeleteInfo :=
  if filed_at e "" (s + 1) && is_eq e then [entry_eq e] else [].

Record represents (es : list ManifestEntry) (b : ScanMetadataBuilder) : Prop := {
  rp_wf : builder_wf b;
  rp_data : ∀ k s, data_entries_ (layer_at b k s) = flat_map (adds_data k s) es;
  rp_pos : ∀ k s, positional_delete_entries_ (layer_at b k s) = flat_map (adds_pos k s) es;
  rp_eq : ∀ k s, equality_delete_entries_ (layer_at b k s) = flat_map (adds_eq k s) es;
  rp_global : ∀ s, globals_at b s = flat_map (adds_global s) es;
}.

(** A step that changes one layer and nothing else. *)
Lemma represents_update es e b f k s :
  represents es b →
  (∀ k' s', data_entries_ (if decide (k = k' ∧ s = s') then f (layer_at b k s) else layer_at b k' s')
     = data_entries_ (layer_at b k' s') ++ adds_data k' s' e) →
  (∀ k' s', positional_delete_entries_ (if decide (k = k' ∧ s = s') then f (layer_at b k s) else layer_at b k' s')
     = positional_delete_entries_ (layer_at b k' s') ++ adds_pos k' s' e) →
  (∀ k' s', equality_delete_entries_ (if decide (k = k' ∧ s = s') then f (layer_at b k s) else layer_at b k' s')
     = equality_delete_entries_ (layer_at b k' s') ++ adds_eq k' s' e) →
  (∀ s', adds_global s' e = []) →
  represents (es ++ [e]) (update_layer f k s b).
Proof.
  intros [Hwf Hd Hp He Hg] H1 H2 H3 H4. split; [by apply update_layer_wf|..].
  - intros k' s'. rewrite layer_at_update, H1, Hd, flat_map_app by done. simpl. by rewrite app_nil_r.
  - intros k' s'. rewrite layer_at_update, H2, Hp, flat_map_app by done. simpl. by rewrite app_nil_r.
  - intros k' s'. rewrite layer_at_update, H3, He, flat_map_app by done. simpl. by rewrite app_nil_r.
  - intros s'. rewrite flat_map_app. simpl. rewrite H4, !app_nil_r. apply Hg.
Qed.

Lemma filed_at_spec e k s k' s' :
  live e = true → SerializePartitionTuple (partition_tuple (data_file e)) = Ok k →
  sequence_number e = Some s → filed_at e k' s' = bool_decide (k = k' ∧ s = s').
Proof.
  intros Hl Hk Hs. unfold filed_at. rewrite Hl, Hk, Hs. simpl.
  destruct (decide (k = k')) as [<-|Hne].
  - rewrite (bool_decide_true (Ok k = Ok k)) by done. simpl. apply bool_decide_ext. naive_solver.
  - rewrite bool_decide_false by congruence. rewrite (bool_decide_false (k = k' ∧ s = s')); [done|tauto].
Qed.

Section add_entry.
Context (e : ManifestEntry) (k : string) (s : Z) (es : list ManifestEntry) (b : ScanMetadataBuilder).
Context (Hlive : live e = true)
        (Hk : SerializePartitionTuple (partition_tuple (data_file e)) = Ok k)
        (Hs : sequence_number e = Some s)
        (Hrep : represents es b).

(** Evaluate what the entry adds, from its kind and its place. *)
Ltac eval_adds H :=
  unfold adds_data, adds_pos, adds_eq, adds_global, is_data, is_pos, is_eq;
  rewrite ?(filed_at_spec e k s) by done; rewrite ?H; simpl; rewrite ?andb_false_r; simpl.

Lemma represents_data :
  content (data_file e) = kData →
  represents (es ++ [e])
    (AddDataFile k s (file_path (data_file e)) (make_segments (split_offsets (data_file e))) b).
Proof.
  intros Hc. apply represents_update; [done| | | |]; intros; eval_adds Hc.
  - destruct (decide _) as [[<- <-]|Hne].
    + rewrite bool_decide_true by done. done.
    + rewrite bool_decide_false by done. simpl. by rewrite app_nil_r.
  - destruct (decide _) as [[<- <-]|]; by rewrite app_nil_r.
  - destruct (decide _) as [[<- <-]|]; by rewrite app_nil_r.
  - done.
Qed.

Lemma represents_pos :
  content (data_file e) = kPositionDeletes → file_format (data_file e) ≠ kDeletionVectorFormat →
  represents (es ++ [e])
    (AddPositionDeletes k s (file_path (data_file e)) (referenced_range (data_file e)) b).
Proof.
  intros Hc Hf. apply represents_update; [done| | | |]; intros; eval_adds Hc.
  - destruct (decide _) as [[<- <-]|]; by rewrite app_nil_r.
  - rewrite (bool_decide_false (file_format _ = _)) by done. simpl.
    destruct (decide _) as [[<- <-]|Hne].
    + rewrite bool_decide_true by done. done.
    + rewrite bool_decide_false by done. simpl. by rewrite app_nil_r.
  - destruct (decide _) as [[<- <-]|]; by rewrite app_nil_r.
  - done.
Qed.

Lemma represents_dv ref off size :
  content (data_file e) = kPositionDeletes → file_format (data_file e) = kDeletionVectorFormat →
  represents (es ++ [e]) (AddDeletionVector k s (file_path (data_file e)) ref off size b).
Proof.
  intros Hc Hf. apply represents_update; [done| | | |]; intros; eval_adds Hc;
    rewrite ?(bool_decide_true (file_format _ = _)) by done; simpl; rewrite ?andb_false_r;
    try (destruct (decide _) as [[<- <-]|]; by rewrite app_nil_r); done.
Qed.

Lemma represents_eq :
  content (data_file e) = kEqualityDeletes → k ≠ "" →
  represents (es ++ [e])
    (AddEqualityDeletes k s (file_path (data_file e)) (equality_ids (data_file e)) b).
Proof.
  intros Hc Hne. apply represents_update; [done| | | |]; intros; eval_adds Hc.
  - destruct (decide _) as [[<- <-]|]; by rewrite app_nil_r.
  - destruct (decide _) as [[<- <-]|]; by rewrite app_nil_r.
  - destruct (decide _) as [[<- <-]|Hn].
    + rewrite bool_decide_true by (split; [done|lia]). rewrite bool_decide_false by done. done.
    + rewrite bool_decide_false by (intros [-> ->]; destruct Hn; split; [done|lia]).
      simpl. by rewrite app_nil_r.
  - rewrite bool_decide_false by tauto. done.
Qed.

Lemma represents_global :
  content (data_file e) = kEqualityDeletes → k = "" →
  represents (es ++ [e])
    (AddGlobalEqualityDeletes s (file_path (data_file e)) (equality_ids (data_file e)) b).
Proof.
  intros Hc Hnil. destruct Hrep as [Hwf Hd Hp He Hg]. split.
  - destruct Hwf. split; [done|done|]. by apply mupdate_sorted.
  - intros k' s'. rewrite flat_map_app, <- Hd. simpl. eval_adds Hc. by rewrite app_nil_r.
  - intros k' s'. rewrite flat_map_app, <- Hp. simpl. eval_adds Hc. by rewrite app_nil_r.
  - intros k' s'. rewrite flat_map_app, <- He. simpl. eval_adds Hc.
    case_bool_decide as H1; [|by rewrite app_nil_r]. destruct H1 as [<- _].
    rewrite bool_decide_true by done. simpl. by rewrite app_nil_r.
  - intros s'. rewrite flat_map_app, <- Hg. simpl. eval_adds Hc. unfold globals_at. simpl.
    destruct (decide (s - 1 = s')) as [<-|Hne].
    + rewrite bool_decide_true by (split; [done|lia]). by rewrite mfind_mupdate_eq.
    + rewrite bool_decide_false by (intros [_ ->]; lia).
      rewrite mfind_mupdate_ne by (done || apply Hwf). by rewrite app_nil_r.
Qed.
End add_entry.

Lemma AddEntry_represents m sch es b e b' :
  represents es b → AddEntry m sch b e = Ok b' → represents (es ++ [e]) b'.
Proof.
  unfold AddEntry. intros Hrep H. case_bool_decide as Hst.
  - inv_ok. destruct Hrep as [Hwf Hd Hp He Hg].
    assert (∀ k s, filed_at e k s = false) as Hdead.
    { intros k s. unfold filed_at, live. by rewrite Hst. }
    split; [done|..]; intros; rewrite flat_map_app; simpl;
      unfold adds_data at 2 || unfold adds_pos at 2 || unfold adds_eq at 2 || unfold adds_global at 2;
      rewrite Hdead; simpl; rewrite app_nil_r; auto.
  - assert (live e = true) as Hl by (unfold live; by rewrite bool_decide_false).
    inv_ok. unfold StoreEntry in H. destruct (sequence_number e) as [s|] eqn:Hs; [|done].
    destruct (content (data_file e)) eqn:Hc.
    + injection H as <-. by apply represents_data.
    + case_bool_decide as Hf.
      * destruct (referenced_data_file (data_file e)), (content_offset (data_file e)),
          (content_size_in_bytes (data_file e)); try done.
        injection H as <-. by apply represents_dv.
      * injection H as <-. by apply represents_pos.
    + case_bool_decide as Hnil; injection H as <-; [by eapply represents_global|by apply represents_eq].
Qed.

Lemma AddEntries_represents m sch es b :
  fold_ok (AddEntry m sch) empty_builder es = Ok b → represents es b.
Proof.
  apply (fold_ok_inv_prefix represents).
  - split; [apply empty_builder_wf|done..].
  - intros p x st st'. apply AddEntry_represents.
Qed.

(** ** Layers of a partition by sequence number *)

Definition lat (m : layer_map) (s : Z) : LayerWithExtraInfo := default empty_layer (mfind s m).

Lemma lookup_keys_sorted (m : layer_map) i j si sj li lj :
  keys_sorted m → m !! i = Some (si, li) → m !! j = Some (sj, lj) → (i ≤ j)%nat → si ≤ sj.
Proof.
  unfold keys_sorted. intros Hs Hi Hj Hij. destruct (decide (i = j)) as [->|Hne]; [simplify_eq; lia|].
  revert i j Hi Hj Hij Hne. induction m as [|[s l] m IH]; intros i j Hi Hj Hij Hne; [done|].
  simpl in Hs. apply SSorted_cons in Hs as [Hk Hs].
  destruct i as [|i], j as [|j]; simplify_eq/=; [|lia|].
  + assert (klt si sj) as Hlt by (apply Hk, list_elem_of_fmap; exists (sj, lj); split; [done|by eapply list_elem_of_lookup_2]).
    unfold klt in Hlt. simpl in Hlt. by apply Z.compare_lt_iff, Z.lt_le_incl in Hlt.
  + apply (IH Hs i j); [done|done|lia|lia].
Qed.

Lemma lookup_keys_sorted_inv (m : layer_map) i j si sj li lj :
  keys_sorted m → m !! i = Some (si, li) → m !! j = Some (sj, lj) → si ≤ sj → (i ≤ j)%nat.
Proof.
  intros Hs Hi Hj Hle. destruct (decide (i ≤ j)%nat); [done|].
  assert (sj ≤ si) by (eapply lookup_keys_sorted; eauto; lia). assert (si = sj) as -> by lia.
  exfalso. assert (li = lj) as ->.
  { assert (mfind sj m = Some li) as H1 by (apply mfind_elem_of; [done|by eapply list_elem_of_lookup_2]).
    assert (mfind sj m = Some lj) as H2 by (apply mfind_elem_of; [done|by eapply list_elem_of_lookup_2]).
    congruence. }
  assert (NoDup m.*1) as Hnd.
  { unfold keys_sorted in Hs. clear -Hs. induction m.*1 as [|a l IH]; [constructor|].
    apply SSorted_cons in Hs as [Hk Hs]. constructor; [|auto]. intros Ha%Hk. by apply klt_irrefl in Ha. }
  enough (i = j) by lia. eapply NoDup_lookup; [exact Hnd| |]; rewrite list_lookup_fmap.
  - by rewrite Hi.
  - by rewrite Hj.
Qed.

(** Listing the layers in map order turns sequence numbers into layer numbers. *)
Lemma layered_by_seq (m : layer_map) (P Q : LayerWithExtraInfo → Prop) :
  keys_sorted m → ¬ P empty_layer → ¬ Q empty_layer →
  layered (List.map snd m) P Q ↔ ∃ si sj, si ≤ sj ∧ P (lat m si) ∧ Q (lat m sj).
Proof.
  intros Hs HP HQ. unfold layered. split.
  - intros (i & j & li & lj & Hi & Hj & Hij & Hx & Hy).
    change (List.map snd m) with (snd <$> m) in *. rewrite list_lookup_fmap in Hi, Hj.
    apply fmap_Some in Hi as ([si li'] & Hi & ->). apply fmap_Some in Hj as ([sj lj'] & Hj & ->).
    exists si, sj. split; [by eapply lookup_keys_sorted|]. unfold lat.
    rewrite !(proj2 (mfind_elem_of m _ _ Hs) (list_elem_of_lookup_2 _ _ _ Hi)).
    rewrite !(proj2 (mfind_elem_of m _ _ Hs) (list_elem_of_lookup_2 _ _ _ Hj)). done.
  - intros (si & sj & Hle & Hx & Hy). unfold lat in *.
    destruct (mfind si m) as [li|] eqn:Ei; [|done]. destruct (mfind sj m) as [lj|] eqn:Ej; [|done].
    apply mfind_elem_of, list_elem_of_lookup_1 in Ei as [i Hi]; [|done].
    apply mfind_elem_of, list_elem_of_lookup_1 in Ej as [j Hj]; [|done].
    exists i, j, li, lj. change (List.map snd m) with (snd <$> m). rewrite !list_lookup_fmap, Hi, Hj.
    split_and!; [done|done|by eapply lookup_keys_sorted_inv|done|done].
Qed.

(** *** Unpartitioned equality deletes *)

Lemma mfind_above {V} (m : list (Z * V)) s : (∀ y, y ∈ m.*1 → klt s y) → mfind s m = None.
Proof.
  destruct m as [|[s' v] m]; [done|]. intros H. simpl.
  assert (klt s s') as E by (apply H; by left). unfold klt in E. simpl in E. by rewrite E.
Qed.

Lemma ApplyGlobalEqualityDeletes_lat g m :
  keys_sorted g → keys_sorted m →
  keys_sorted (ApplyGlobalEqualityDeletes g m) ∧
  ∀ s, let l := lat (ApplyGlobalEqualityDeletes g m) s in
    data_entries_ l = data_entries_ (lat m s) ∧
    positional_delete_entries_ l = positional_delete_entries_ (lat m s) ∧
    equality_delete_entries_ l = equality_delete_entries_ (lat m s) ++ default [] (mfind s g) ∧
    dv_entries_ l = dv_entries_ (lat m s).
Proof.
  unfold ApplyGlobalEqualityDeletes. revert m. induction g as [|[s0 es] g IH]; intros m Hg Hm; simpl.
  { split; [done|]. intros s. by rewrite app_nil_r. }
  unfold keys_sorted in Hg. simpl in Hg. apply SSorted_cons in Hg as [Hk Hg].
  set (m' := mupdate (λ l, push_eqs es (default empty_layer l)) s0 m).
  assert (keys_sorted m') as Hm' by by apply mupdate_sorted.
  destruct (IH m' Hg Hm') as [Hs Hl]. split; [done|]. intros s.
  destruct (Hl s) as (H1 & H2 & H3 & H4). rewrite H1, H2, H3, H4. unfold m', lat.
  destruct (decide (s0 = s)) as [<-|Hne].
  - rewrite mfind_mupdate_eq, (mfind_above g s0) by done. simpl.
    rewrite Z.compare_refl. simpl. by rewrite app_nil_r.
  - rewrite mfind_mupdate_ne by done. split_and!; [done|done| |done]. f_equal. f_equal.
    destruct (s ?= s0) eqn:E; [apply Z.compare_eq in E; congruence| |done].
    symmetry. rewrite mfind_above; [done|]. intros y Hy. eapply kcmp_trans; [exact E|by apply Hk].
Qed.

(** *** Deletion vectors leave files and their other deletes in place *)

Definition same_file (x x' : DataEntry) : Prop := de_path x = de_path x' ∧ parts x = parts x'.

Lemma resolve_entry_same dvs s l x x' : resolve_entry dvs s l x = Ok x' → same_file x x'.
Proof.
  unfold resolve_entry. destruct (dvs !! de_path x) as [[d s']|]; [|by intros; inv_ok].
  case_bool_decide; intros; inv_ok; done.
Qed.

Definition resolved (l l' : LayerWithExtraInfo) : Prop :=
  Forall2 same_file (data_entries_ l) (data_entries_ l') ∧
  positional_delete_entries_ l' = positional_delete_entries_ l ∧
  equality_delete_entries_ l' = equality_delete_entries_ l.

Lemma ResolveDeletionVectors_resolved m m' :
  ResolveDeletionVectors m = Ok m' → Forall2 (λ a b, b.1 = a.1 ∧ resolved a.2 b.2) m m'.
Proof.
  intros H%map_ok_Forall2. eapply Forall2_impl; [exact H|]. intros [s l] [s' l'] Hr.
  unfold resolve_layer in Hr. simpl in Hr. inv_ok. split; [done|]. split_and!; [|done|done]. simpl.
  apply map_ok_Forall2 in Ha. eapply Forall2_impl; [exact Ha|]. intros x x'. apply resolve_entry_same.
Qed.

Lemma resolved_lat m m' s :
  Forall2 (λ a b, b.1 = a.1 ∧ resolved a.2 b.2) m m' → resolved (lat m s) (lat m' s).
Proof.
  unfold lat. induction 1 as [|[s1 l1] [s2 l2] m m' [Hk Hr] _ IH]; [by repeat constructor|].
  simpl in *. subst s2. by destruct (s ?= s1).
Qed.

Lemma resolved_keys m m' :
  Forall2 (λ (a b : Z * LayerWithExtraInfo), b.1 = a.1 ∧ resolved a.2 b.2) m m' → m'.*1 = m.*1.
Proof. induction 1 as [|a b m m' [Hk _] _ IH]; simpl; [done|]. by f_equal. Qed.

(** *** One finished partition *)

Lemma Forall2_same_file_l xs xs' x : Forall2 same_file xs xs' → x ∈ xs → ∃ x', x' ∈ xs' ∧ same_file x x'.
Proof.
  induction 1 as [|a b xs xs' Hab _ IH]; [by intros ?%elem_of_nil|].
  intros [->|Hx]%elem_of_cons; [exists b; split; [by left|done]|].
  destruct (IH Hx) as (x' & ? & ?). exists x'. split; [by right|done].
Qed.
Lemma Forall2_same_file_r xs xs' x' : Forall2 same_file xs xs' → x' ∈ xs' → ∃ x, x ∈ xs ∧ same_file x x'.
Proof.
  induction 1 as [|a b xs xs' Hab _ IH]; [by intros ?%elem_of_nil|].
  intros [->|Hx]%elem_of_cons; [exists a; split; [by left|done]|].
  destruct (IH Hx) as (x & ? & ?). exists x. split; [by right|done].
Qed.

Section finished.
Context (es : list ManifestEntry) (b : ScanMetadataBuilder) (Hrep : represents es b).
Context (k : string) (m m' : layer_map).
Context (Hm : mfind k (b_partitions b) = Some m)
        (Hfin : finish_partition (global_equality_deletes b) (k, m) = Ok (k, m')).

Lemma finished_layers :
  keys_sorted m' ∧ ∀ s,
    Forall2 same_file (flat_map (adds_data k s) es) (data_entries_ (lat m' s)) ∧
    positional_delete_entries_ (lat m' s) = flat_map (adds_pos k s) es ∧
    equality_delete_entries_ (lat m' s) = flat_map (adds_eq k s) es ++ flat_map (adds_global s) es.
Proof.
  destruct Hrep as [Hwf Hd Hp He Hg]. unfold finish_partition in Hfin. inv_ok. simpl in *.
  apply ResolveDeletionVectors_resolved in Ha.
  destruct (ApplyGlobalEqualityDeletes_lat (global_equality_deletes b) m) as [Hs Hl];
    [apply Hwf|by eapply wf_layers|].
  split.
  - unfold keys_sorted. rewrite (resolved_keys _ _ Ha). exact Hs.
  - intros s. destruct (resolved_lat _ _ s Ha) as (R1 & R2 & R3).
    destruct (Hl s) as (L1 & L2 & L3 & _).
    assert (lat m s = layer_at b k s) as Elat by (unfold lat, layer_at; by rewrite Hm).
    rewrite Elat in *. rewrite <- Hd, <- Hp, <- He, <- Hg, R2, R3, L2, L3. by rewrite L1 in R1.
Qed.
End finished.

(** ** The specification of a scan

    The rules quoted in [StoreEntry]: a positional delete file applies to the
    data files of its partition with a sequence number up to its own; an
    equality delete file to the data files with a smaller sequence number, of
    its partition, or of every partition when it is unpartitioned. *)

Definition requires_pos (es : list ManifestEntry) (ed ep : ManifestEntry) : Prop :=
  ed ∈ es ∧ ep ∈ es ∧ is_data ed = true ∧ is_pos ep = true ∧
  ∃ k sd sp, filed_at ed k sd = true ∧ filed_at ep k sp = true ∧ sd ≤ sp.

Definition requires_eq (es : list ManifestEntry) (ed ee : ManifestEntry) : Prop :=
  ed ∈ es ∧ ee ∈ es ∧ is_data ed = true ∧ is_eq ee = true ∧
  ∃ k k' sd se, filed_at ed k sd = true ∧ filed_at ee k' se = true ∧ sd < se ∧ (k' = k ∨ k' = "").

(** Recorded path bounds are ordered. *)
Definition entry_ranges_valid (es : list ManifestEntry) : Prop :=
  ∀ e lo hi, e ∈ es → is_pos e = true → referenced_range (data_file e) = Some (lo, hi) → String.le lo hi.

Lemma elem_of_adds {A} (c : ManifestEntry → bool) (g : ManifestEntry → A) es y :
  y ∈ flat_map (λ e, if c e then [g e] else []) es ↔ ∃ e, e ∈ es ∧ c e = true ∧ y = g e.
Proof.
  rewrite elem_of_flat_map. split.
  - intros (e & He & Hy). destruct (c e) eqn:E; [|by apply elem_of_nil in Hy].
    apply list_elem_of_singleton in Hy. eauto.
  - intros (e & He & Hc & ->). exists e. rewrite Hc, list_elem_of_singleton. done.
Qed.

Lemma elem_of_adds_data k s es x :
  x ∈ flat_map (adds_data k s) es ↔ ∃ e, e ∈ es ∧ (filed_at e k s && is_data e) = true ∧ x = entry_data e.
Proof. apply elem_of_adds. Qed.
Lemma elem_of_adds_pos k s es x :
  x ∈ flat_map (adds_pos k s) es ↔ ∃ e, e ∈ es ∧ (filed_at e k s && is_pos e) = true ∧ x = entry_pos e.
Proof. apply elem_of_adds. Qed.
Lemma elem_of_adds_eq k s es x :
  x ∈ flat_map (adds_eq k s) es ++ flat_map (adds_global s) es ↔
  ∃ e k', e ∈ es ∧ filed_at e k' (s + 1) = true ∧ is_eq e = true ∧ (k' = k ∨ k' = "") ∧ x = entry_eq e.
Proof.
  rewrite elem_of_app. unfold adds_eq, adds_global. rewrite !elem_of_adds.
  split.
  - intros [(e & He & Hc & ->)|(e & He & Hc & ->)].
    + apply andb_true_iff in Hc as [[Hf Hq]%andb_true_iff _]. exists e, k.
      split; [done|]. split; [done|]. split; [done|]. split; [by left|done].
    + apply andb_true_iff in Hc as [Hf Hq]. exists e, "".
      split; [done|]. split; [done|]. split; [done|]. split; [by right|done].
  - intros (e & k' & He & Hf & Hq & Hk & ->). destruct (decide (k' = "")) as [->|Hne].
    + right. exists e. by rewrite Hf, Hq.
    + destruct Hk as [->|]; [|done]. left. exists e. by rewrite Hf, Hq, bool_decide_false.
Qed.

Section plan.
Context (es : list ManifestEntry) (b : ScanMetadataBuilder) (Hrep : represents es b).
Context (finished : list (string * layer_map))
        (Hfin : map_ok (finish_partition (global_equality_deletes b)) (b_partitions b) = Ok finished).

Lemma finished_in p :
  p ∈ MapToVec finished ↔ ∃ k m m', mfind k (b_partitions b) = Some m ∧
    finish_partition (global_equality_deletes b) (k, m) = Ok (k, m') ∧ p = List.map snd m'.
Proof.
  unfold MapToVec. rewrite (list_elem_of_fmap : ∀ (f : string * layer_map → _) l x, x ∈ List.map f l ↔ _).
  apply map_ok_Forall2 in Hfin. pose proof (wf_partitions _ (rp_wf _ _ Hrep)) as Hs.
  assert (∀ kp kp', finish_partition (global_equality_deletes b) kp = Ok kp' → kp'.1 = kp.1) as Hkey.
  { intros [k m] [k' m'] H. unfold finish_partition in H. inv_ok. done. }
  split.
  - intros ([k m'] & -> & Hin). apply list_elem_of_lookup_1 in Hin as [i Hi].
    destruct (Forall2_lookup_r _ _ _ _ _ Hfin Hi) as ([k0 m] & Hi0 & H).
    pose proof (Hkey _ _ H) as Hk. simpl in Hk. subst k0. exists k, m, m'. split_and!; [|done|done].
    apply mfind_elem_of; [done|]. by eapply list_elem_of_lookup_2.
  - intros (k & m & m' & Hm & H & ->). exists (k, m'). split; [done|].
    apply mfind_elem_of, list_elem_of_lookup_1 in Hm as [i Hi]; [|done].
    destruct (Forall2_lookup_l _ _ _ _ _ Hfin Hi) as (kp' & Hi' & H').
    rewrite H in H'. injection H' as <-. by eapply list_elem_of_lookup_2.
Qed.

(** A data entry's partition exists, because the entry was filed there. *)
Lemma data_partition e k s :
  e ∈ es → filed_at e k s = true → is_data e = true → ∃ m, mfind k (b_partitions b) = Some m.
Proof.
  intros He Hf Hd. destruct (mfind k (b_partitions b)) as [m|] eqn:E; [eauto|].
  assert (entry_data e ∈ flat_map (adds_data k s) es) as Hin.
  { apply elem_of_adds_data. exists e. by rewrite Hf, Hd. }
  rewrite <- (rp_data _ _ Hrep) in Hin. unfold layer_at in Hin. rewrite E in Hin.
  by apply elem_of_nil in Hin.
Qed.

Lemma finish_total k m :
  mfind k (b_partitions b) = Some m →
  ∃ m', finish_partition (global_equality_deletes b) (k, m) = Ok (k, m').
Proof.
  intros Hm. apply map_ok_Forall2 in Hfin.
  apply mfind_elem_of, list_elem_of_lookup_1 in Hm as [i Hi]; [|apply Hrep].
  destruct (Forall2_lookup_l _ _ _ _ _ Hfin Hi) as ([k' m'] & _ & H).
  exists m'. unfold finish_partition in *. inv_ok. rewrite Ha. simpl. by simplify_eq.
Qed.

Lemma applies_seq k m m' x y :
  mfind k (b_partitions b) = Some m →
  finish_partition (global_equality_deletes b) (k, m) = Ok (k, m') →
  applies (List.map snd m') x y ↔
  ∃ sd sp, sd ≤ sp ∧ x ∈ data_entries_ (lat m' sd) ∧ y ∈ flat_map (adds_pos k sp) es.
Proof.
  intros Hm H. destruct (finished_layers es b Hrep k m m' Hm H) as [Hs Hl].
  rewrite applies_layered, layered_by_seq; [|done|by intros ?%elem_of_nil..].
  split; intros (sd & sp & Hle & Hx & Hy); exists sd, sp; destruct (Hl sp) as (_ & E & _);
    [rewrite <- E|rewrite E]; done.
Qed.

Lemma applies_eq_seq k m m' x y :
  mfind k (b_partitions b) = Some m →
  finish_partition (global_equality_deletes b) (k, m) = Ok (k, m') →
  applies_eq (List.map snd m') x y ↔
  ∃ sd se, sd ≤ se ∧ x ∈ data_entries_ (lat m' sd) ∧
    y ∈ flat_map (adds_eq k se) es ++ flat_map (adds_global se) es.
Proof.
  intros Hm H. destruct (finished_layers es b Hrep k m m' Hm H) as [Hs Hl].
  rewrite applies_eq_layered, layered_by_seq; [|done|by intros ?%elem_of_nil..].
  split; intros (sd & sp & Hle & Hx & Hy); exists sd, sp; destruct (Hl sp) as (_ & _ & E);
    [rewrite <- E|rewrite E]; done.
Qed.

Lemma finished_valid p : entry_ranges_valid es → p ∈ MapToVec finished → ranges_valid p.
Proof.
  intros Hv (k & m & m' & Hm & H & ->)%finished_in l y lo hi Hl Hy Hr.
  destruct (finished_layers es b Hrep k m m' Hm H) as [Hs Hlay].
  change (l ∈ snd <$> m') in Hl. apply list_elem_of_fmap in Hl as ([s l'] & -> & Hin).
  apply mfind_elem_of in Hin; [|done]. destruct (Hlay s) as (_ & E & _). unfold lat in E.
  rewrite Hin in E. simpl in *. rewrite E in Hy.
  apply elem_of_adds_pos in Hy as (e & He & [Hf Hp]%andb_true_iff & ->). by apply (Hv e).
Qed.
End plan.

(** *** No data file is lost or duplicated *)

Definition map_data (m : layer_map) : list DataEntry := flat_map (λ sl, data_entries_ sl.2) m.
Definition all_data (ps : list (string * layer_map)) : list DataEntry := flat_map (λ kp, map_data kp.2) ps.

Definition live_data (e : ManifestEntry) : list DataEntry :=
  if live e && is_data e then [entry_data e] else [].

Lemma update_layer_data f xs k s b :
  (∀ l, data_entries_ (f l) = data_entries_ l ++ xs) →
  all_data (b_partitions (update_layer f k s b)) ≡ₚ all_data (b_partitions b) ++ xs.
Proof.
  intros Hf. unfold all_data. simpl. apply (mupdate_flat_map map_data). intros o.
  unfold map_data. rewrite (mupdate_flat_map data_entries_ _ _ _ xs).
  - by destruct o.
  - intros [l|]; simpl; by rewrite Hf.
Qed.

Lemma update_layer_data_same f k s b :
  (∀ l, data_entries_ (f l) = data_entries_ l) →
  all_data (b_partitions (update_layer f k s b)) ≡ₚ all_data (b_partitions b).
Proof.
  intros Hf. rewrite (update_layer_data f [] k s b); [by rewrite app_nil_r|].
  intros l. by rewrite app_nil_r.
Qed.

Lemma AddEntry_all_data m sch b e b' :
  AddEntry m sch b e = Ok b' → all_data (b_partitions b') ≡ₚ all_data (b_partitions b) ++ live_data e.
Proof.
  unfold AddEntry, live_data, live, is_data. intros H. case_bool_decide as Hst; simpl.
  { inv_ok. by rewrite app_nil_r. }
  inv_ok. unfold StoreEntry in H. destruct (sequence_number e) as [s|]; [|done].
  destruct (content (data_file e)) eqn:Hc; simpl.
  - injection H as <-. by apply update_layer_data.
  - rewrite app_nil_r. case_bool_decide.
    + destruct (referenced_data_file (data_file e)), (content_offset (data_file e)),
        (content_size_in_bytes (data_file e)); try done.
      injection H as <-. by apply update_layer_data_same.
    + injection H as <-. by apply update_layer_data_same.
  - rewrite app_nil_r. case_bool_decide; injection H as <-; [done|by apply update_layer_data_same].
Qed.

Lemma AddEntries_all_data m sch es b :
  fold_ok (AddEntry m sch) empty_builder es = Ok b →
  all_data (b_partitions b) ≡ₚ flat_map live_data es.
Proof.
  apply (fold_ok_inv_prefix (λ es b, all_data (b_partitions b) ≡ₚ flat_map live_data es)); [done|].
  intros p x st st' Hp H. rewrite (AddEntry_all_data _ _ _ _ _ H), Hp, flat_map_app. simpl.
  by rewrite app_nil_r.
Qed.

Lemma ApplyGlobal_data g m : map_data (ApplyGlobalEqualityDeletes g m) ≡ₚ map_data m.
Proof.
  unfold ApplyGlobalEqualityDeletes. revert m. induction g as [|[s es] g IH]; intros m; simpl; [done|].
  rewrite IH. unfold map_data. rewrite (mupdate_flat_map data_entries_ _ _ _ []); [by rewrite app_nil_r|].
  intros [l|]; simpl; by rewrite ?app_nil_r.
Qed.

Lemma resolved_data m m' :
  Forall2 (λ (a b : Z * LayerWithExtraInfo), b.1 = a.1 ∧ resolved a.2 b.2) m m' →
  de_path <$> map_data m' = de_path <$> map_data m.
Proof.
  unfold map_data. induction 1 as [|a b m m' [_ [Hr _]] _ IH]; simpl; [done|].
  rewrite !fmap_app, IH. f_equal.
  induction Hr as [|x x' xs xs' [Hp _] _ IHx]; simpl; [done|].
  f_equal; [by rewrite Hp|exact IHx].
Qed.

Lemma finish_data g ps finished :
  map_ok (finish_partition g) ps = Ok finished →
  de_path <$> all_data finished ≡ₚ de_path <$> all_data ps.
Proof.
  intros H%map_ok_Forall2. unfold all_data. induction H as [|[k m] [k' m'] ps f Hf _ IH]; simpl; [done|].
  rewrite !fmap_app, IH. apply Permutation_app_tail. unfold finish_partition in Hf. inv_ok. simpl in *.
  apply ResolveDeletionVectors_resolved, resolved_data in Ha. rewrite Ha.
  by rewrite ApplyGlobal_data.
Qed.

Lemma MapToVec_data ps : flat_map (flat_map data_entries_) (MapToVec ps) = all_data ps.
Proof.
  unfold all_data, MapToVec, map_data. induction ps as [|[k m] ps IH]; simpl; [done|]. rewrite IH. f_equal.
  clear. induction m as [|sl m IH]; simpl; [done|]. by rewrite IH.
Qed.

(** ** The plan is the specification *)

Definition plan_paths (plan : ScanMetadata) : list string :=
  de_path <$> flat_map (flat_map l_data_entries_) (partitions plan).

Section correctness.
Context (m : TableMetadataV2) (sch : Schema) (es : list ManifestEntry) (b : ScanMetadataBuilder)
        (plan : ScanMetadata).
Context (Hadd : fold_ok (AddEntry m sch) empty_builder es = Ok b)
        (Hres : GetResult sch b = Ok plan)
        (Hvalid : entry_ranges_valid es).

Lemma GetResult_planned :
  ∃ finished, map_ok (finish_partition (global_equality_deletes b)) (b_partitions b) = Ok finished ∧
    planned (MapToVec finished) (partitions plan).
Proof.
  unfold GetResult in Hres. inv_ok. exists a. split; [done|].
  destruct (GetPartitions_planned (MapToVec a)) as (ps & Hps & Hpl).
  { intros p. eapply finished_valid; [by eapply AddEntries_represents|done..]. }
  unfold GetPartitions in Ha0. rewrite Hps in Ha0. by injection Ha0 as <-.
Qed.

Lemma plan_complete ed ep :
  requires_pos es ed ep → covers (entry_pos ep) (file_path (data_file ed)) →
  ∃ q x, q ∈ partitions plan ∧ same_file (entry_data ed) x ∧
    plan_applies q x (positional_delete_ (entry_pos ep)).
Proof.
  intros (Hed & Hep & Hd & Hp & k & sd & sp & Hfd & Hfp & Hle) Hc.
  pose proof (AddEntries_represents _ _ _ _ Hadd) as Hrep.
  destruct GetResult_planned as (fin & Hfin & Hpl).
  destruct (data_partition es b Hrep ed k sd) as [lm Hm]; [done..|].
  destruct (finish_total es b Hrep fin Hfin k lm Hm) as [lm' Hf].
  destruct (finished_layers es b Hrep k lm lm' Hm Hf) as [_ Hl]. destruct (Hl sd) as (HF & _ & _).
  destruct (Forall2_same_file_l _ _ (entry_data ed) HF) as (x & Hx & Hsame).
  { apply elem_of_adds_data. exists ed. by rewrite Hfd, Hd. }
  destruct (pl_complete _ _ Hpl (List.map snd lm') x (entry_pos ep)) as (q & Hq & Ha).
  - eapply finished_in; [done|done|]. by exists k, lm, lm'.
  - split; [|by rewrite <- (proj1 Hsame)]. eapply applies_seq; [done..|].
    exists sd, sp. split_and!; [done|done|]. apply elem_of_adds_pos. exists ep. by rewrite Hfp, Hp.
  - by exists q, x.
Qed.

Lemma layer_data_entry k lm lm' s x :
  mfind k (b_partitions b) = Some lm →
  finish_partition (global_equality_deletes b) (k, lm) = Ok (k, lm') →
  x ∈ data_entries_ (lat lm' s) →
  ∃ ed, ed ∈ es ∧ filed_at ed k s = true ∧ is_data ed = true ∧ same_file (entry_data ed) x.
Proof.
  intros Hm Hf Hx. pose proof (AddEntries_represents _ _ _ _ Hadd) as Hrep.
  destruct (finished_layers es b Hrep k lm lm' Hm Hf) as [_ Hl]. destruct (Hl s) as (HF & _ & _).
  destruct (Forall2_same_file_r _ _ x HF Hx) as (x0 & Hx0 & Hsame).
  apply elem_of_adds_data in Hx0 as (ed & Hed & [H1 H2]%andb_true_iff & ->). by exists ed.
Qed.

Lemma plan_sound q x d :
  q ∈ partitions plan → plan_applies q x d →
  ∃ ed ep, requires_pos es ed ep ∧ same_file (entry_data ed) x ∧ positional_delete_ (entry_pos ep) = d.
Proof.
  intros Hq Ha. pose proof (AddEntries_represents _ _ _ _ Hadd) as Hrep.
  destruct GetResult_planned as (fin & Hfin & Hpl).
  destruct (pl_sound _ _ Hpl q x d Hq Ha) as (p & y & Hp & Hy & Hap).
  eapply finished_in in Hp as (k & lm & lm' & Hm & Hf & ->); [|done..].
  eapply applies_seq in Hap as (sd & sp & Hle & Hx & Hyin); [|done..].
  destruct (layer_data_entry k lm lm' sd x Hm Hf Hx) as (ed & Hed & H1 & H2 & Hsame).
  apply elem_of_adds_pos in Hyin as (ep & Hep & [H3 H4]%andb_true_iff & ->).
  exists ed, ep. split; [|done]. repeat (split; [done|]). by exists k, sd, sp.
Qed.

Lemma plan_eq_sound q x y :
  q ∈ partitions plan → plan_applies_eq q x y →
  ∃ ed ee, requires_eq es ed ee ∧ same_file (entry_data ed) x ∧ entry_eq ee = y.
Proof.
  intros Hq Ha. pose proof (AddEntries_represents _ _ _ _ Hadd) as Hrep.
  destruct GetResult_planned as (fin & Hfin & Hpl).
  destruct (proj1 (pl_eq _ _ Hpl x y)) as (p & Hp & Hap); [by exists q|].
  eapply finished_in in Hp as (k & lm & lm' & Hm & Hf & ->); [|done..].
  eapply applies_eq_seq in Hap as (sd & se & Hle & Hx & Hyin); [|done..].
  destruct (layer_data_entry k lm lm' sd x Hm Hf Hx) as (ed & Hed & H1 & H2 & Hsame).
  apply elem_of_adds_eq in Hyin as (ee & k' & Hee & H3 & H4 & Hk & ->).
  exists ed, ee. split; [|done]. repeat (split; [done|]).
  exists k, k', sd, (se + 1). split; [done|]. split; [done|]. split; [lia|done].
Qed.

Lemma plan_eq_complete ed ee :
  requires_eq es ed ee →
  ∃ q x, q ∈ partitions plan ∧ same_file (entry_data ed) x ∧ plan_applies_eq q x (entry_eq ee).
Proof.
  intros (Hed & Hee & Hd & He & k & k' & sd & se & Hfd & Hfe & Hlt & Hk).
  pose proof (AddEntries_represents _ _ _ _ Hadd) as Hrep.
  destruct GetResult_planned as (fin & Hfin & Hpl).
  destruct (data_partition es b Hrep ed k sd) as [lm Hm]; [done..|].
  destruct (finish_total es b Hrep fin Hfin k lm Hm) as [lm' Hf].
  destruct (finished_layers es b Hrep k lm lm' Hm Hf) as [_ Hl]. destruct (Hl sd) as (HF & _ & _).
  destruct (Forall2_same_file_l _ _ (entry_data ed) HF) as (x & Hx & Hsame).
  { apply elem_of_adds_data. exists ed. by rewrite Hfd, Hd. }
  destruct (proj2 (pl_eq _ _ Hpl x (entry_eq ee))) as (q & Hq & Ha); [|by exists q, x].
  exists (List.map snd lm'). split; [eapply finished_in; [done|done|]; by exists k, lm, lm'|].
  eapply applies_eq_seq; [done..|]. exists sd, (se - 1). split; [lia|]. split; [done|].
  apply elem_of_adds_eq. exists ee, k'. replace (se - 1 + 1) with se by lia. done.
Qed.

(** Every delete file the plan lists comes from a live entry. *)
Lemma listed_layer y_or_e :
  y_or_e ∈ flat_map items
    (MapToVec match map_ok (finish_partition (global_equality_deletes b)) (b_partitions b) with
              | Ok f => f | Err _ => [] end) →
  ∃ k lm lm' s, mfind k (b_partitions b) = Some lm ∧
    finish_partition (global_equality_deletes b) (k, lm) = Ok (k, lm') ∧
    y_or_e ∈ layer_items (lat lm' s).
Proof.
  pose proof (AddEntries_represents _ _ _ _ Hadd) as Hrep.
  destruct GetResult_planned as (fin & Hfin & _). rewrite Hfin.
  intros (p & Hp & (l & Hl & Hy)%elem_of_items)%elem_of_flat_map.
  eapply finished_in in Hp as (k & lm & lm' & Hm & Hf & ->); [|done..].
  change (l ∈ snd <$> lm') in Hl. apply list_elem_of_fmap in Hl as ([s l'] & -> & Hin).
  destruct (finished_layers es b Hrep k lm lm' Hm Hf) as [Hs _].
  exists k, lm, lm', s. split; [done|]. split; [done|]. unfold lat.
  by rewrite (proj2 (mfind_elem_of _ _ _ Hs) Hin).
Qed.

Lemma plan_listed_pos q l d :
  q ∈ partitions plan → l ∈ q → d ∈ l_positional_delete_entries_ l →
  ∃ ep, ep ∈ es ∧ live ep = true ∧ is_pos ep = true ∧ positional_delete_ (entry_pos ep) = d.
Proof.
  intros Hq Hl Hd. pose proof (AddEntries_represents _ _ _ _ Hadd) as Hrep.
  destruct GetResult_planned as (fin & Hfin & Hpl).
  destruct (pl_listed_pos _ _ Hpl q l d Hq Hl Hd) as (y & Hy & <-).
  destruct (listed_layer (IP y)) as (k & lm & lm' & s & Hm & Hf & Hin); [by rewrite Hfin|].
  rewrite elem_of_layer_items_IP in Hin.
  destruct (finished_layers es b Hrep k lm lm' Hm Hf) as [_ Hs]. destruct (Hs s) as (_ & E & _).
  rewrite E in Hin. apply elem_of_adds_pos in Hin as (ep & Hep & [H1 H2]%andb_true_iff & ->).
  unfold filed_at in H1. apply andb_true_iff in H1 as [[H1 _]%andb_true_iff _].
  exists ep. split; [done|]. split; [done|]. split; [exact H2|done].
Qed.

Lemma plan_listed_eq q l e :
  q ∈ partitions plan → l ∈ q → e ∈ l_equality_delete_entries_ l →
  ∃ ee, ee ∈ es ∧ live ee = true ∧ is_eq ee = true ∧ entry_eq ee = e.
Proof.
  intros Hq Hl Hd. pose proof (AddEntries_represents _ _ _ _ Hadd) as Hrep.
  destruct GetResult_planned as (fin & Hfin & Hpl).
  pose proof (pl_listed_eq _ _ Hpl q l e Hq Hl Hd) as Hy.
  destruct (listed_layer (IE e)) as (k & lm & lm' & s & Hm & Hf & Hin); [by rewrite Hfin|].
  rewrite elem_of_layer_items_IE in Hin.
  destruct (finished_layers es b Hrep k lm lm' Hm Hf) as [_ Hs]. destruct (Hs s) as (_ & _ & E).
  rewrite E in Hin. apply elem_of_adds_eq in Hin as (ee & k' & Hee & H1 & H2 & _ & ->).
  unfold filed_at in H1. apply andb_true_iff in H1 as [[H1 _]%andb_true_iff _].
  exists ee. split; [done|]. split; [done|]. split; [exact H2|done].
Qed.

Lemma plan_data : plan_paths plan ≡ₚ de_path <$> flat_map live_data es.
Proof.
  destruct GetResult_planned as (fin & Hfin & Hpl). unfold plan_paths.
  rewrite (pl_data _ _ Hpl), MapToVec_data, (finish_data _ _ _ Hfin).
  by rewrite (AddEntries_all_data _ _ _ _ Hadd).
Qed.
End correctness.

(** ** Deletion vectors *)

(** The newest deletion vector of a data file, with its sequence number. *)
Definition latest_dv (m : layer_map) (path : string) (d : DeletionVectorInfo) (sd : Z) : Prop :=
  (∃ l, (sd, l) ∈ m ∧ dv_entries_ l !! path = Some d) ∧
  ∀ s l, (s, l) ∈ m → sd < s → dv_entries_ l !! path = None.

(** A data file of the layer that has a deletion vector not older than it,
    beside equality or positional deletes in its own layer. *)
Definition dv_conflict (m : layer_map) : Prop :=
  ∃ s l x d sd, (s, l) ∈ m ∧ x ∈ data_entries_ l ∧ latest_dv m (de_path x) d sd ∧ s ≤ sd ∧
    (equality_delete_entries_ l ≠ [] ∨ positional_delete_entries_ l ≠ []).

Lemma keys_sorted_snoc_inv {V} (m : list (Z * V)) s v :
  keys_sorted (m ++ [(s, v)]) → keys_sorted m ∧ ∀ s' v', (s', v') ∈ m → s' < s.
Proof.
  unfold keys_sorted. induction m as [|[s0 v0] m IH]; simpl; intros H.
  { split; [constructor|]. by intros ?? ?%elem_of_nil. }
  apply SSorted_cons in H as [Hk H]. destruct (IH H) as [Hs Hlt]. split.
  - apply SSorted_cons. split; [|done]. intros y Hy. apply Hk. rewrite fmap_app. set_solver.
  - intros s' v' [[= -> ->]|Hin]%elem_of_cons; [|by eapply Hlt].
    apply Z.compare_lt_iff, Hk. rewrite fmap_app. set_solver.
Qed.

Lemma latest_dv_snoc m s l path d sd :
  keys_sorted (m ++ [(s, l)]) →
  latest_dv (m ++ [(s, l)]) path d sd ↔
  match dv_entries_ l !! path with
  | Some d' => d = d' ∧ sd = s
  | None => latest_dv m path d sd
  end.
Proof.
  intros [Hs Hlt]%keys_sorted_snoc_inv. unfold latest_dv. setoid_rewrite elem_of_app.
  setoid_rewrite list_elem_of_singleton. destruct (dv_entries_ l !! path) as [d'|] eqn:E.
  - split.
    + intros [(l' & [Hin|[= -> ->]] & Hd) Hno]; [|naive_solver].
      pose proof (Hlt _ _ Hin). rewrite (Hno s l) in E; [done|by right|done].
    + intros [-> ->]. split; [by eauto|]. intros s' l' [Hin|[= -> ->]]; [|lia].
      pose proof (Hlt _ _ Hin). lia.
  - split.
    + intros [(l' & [Hin|[= -> ->]] & Hd) Hno]; [|congruence]. split; [eauto|]. intros. eapply Hno; eauto.
    + intros [(l' & Hin & Hd) Hno]. split; [by eauto|]. intros s' l'' [Hin'|[= -> ->]] Hs'; [by eapply Hno|done].
Qed.

Lemma collect_dvs_spec m path d sd :
  keys_sorted m → collect_dvs m !! path = Some (d, sd) ↔ latest_dv m path d sd.
Proof.
  unfold collect_dvs. induction m as [|[s l] m IH] using rev_ind; intros Hs.
  { split; [simpl; by rewrite lookup_empty|]. intros [(l & Hl & _) _]. by apply elem_of_nil in Hl. }
  rewrite latest_dv_snoc, foldl_app by done. simpl. apply keys_sorted_snoc_inv in Hs as [Hs _].
  rewrite lookup_union, lookup_fmap. destruct (dv_entries_ l !! path) as [d'|]; simpl.
  - rewrite union_Some_l. naive_solver.
  - rewrite (left_id None union). by apply IH.
Qed.

Lemma latest_dv_fun m path d sd d' sd' :
  keys_sorted m → latest_dv m path d sd → latest_dv m path d' sd' → d = d' ∧ sd = sd'.
Proof. intros Hs. rewrite <- !collect_dvs_spec by done. naive_solver. Qed.

(** The deletion vector a data file of sequence number [s] must get. *)
Definition dv_resolved (m : layer_map) (s : Z) (x x' : DataEntry) : Prop :=
  same_file x x' ∧
  ((∃ d sd, latest_dv m (de_path x) d sd ∧ s ≤ sd ∧ dv x' = Some d) ∨
   ((∀ d sd, latest_dv m (de_path x) d sd → sd < s) ∧ dv x' = dv x)).

Lemma resolve_entry_dv m s l x x' :
  keys_sorted m → resolve_entry (collect_dvs m) s l x = Ok x' → dv_resolved m s x x'.
Proof.
  intros Hs H. split; [by eapply resolve_entry_same|]. unfold resolve_entry in H.
  destruct (collect_dvs m !! de_path x) as [[d sd]|] eqn:E.
  - apply collect_dvs_spec in E as Hd; [|done]. case_bool_decide as Hlt; inv_ok.
    + right. split; [|done]. intros d' sd' Hd'.
      by destruct (latest_dv_fun _ _ _ _ _ _ Hs Hd Hd') as [-> ->].
    + left. exists d, sd. split; [done|]. split; [lia|done].
  - inv_ok. right. split; [|done]. intros d sd Hd. apply collect_dvs_spec in Hd; [|done]. congruence.
Qed.

Lemma resolve_entry_ok m s l x :
  keys_sorted m →
  is_ok (resolve_entry (collect_dvs m) s l x) = true ↔
  ∀ d sd, latest_dv m (de_path x) d sd → s ≤ sd →
    equality_delete_entries_ l = [] ∧ positional_delete_entries_ l = [].
Proof.
  intros Hs. setoid_rewrite <- collect_dvs_spec; [|done]. unfold resolve_entry.
  destruct (collect_dvs m !! de_path x) as [[d sd]|]; [|naive_solver].
  case_bool_decide as Hlt; simpl.
  - split; [|done]. intros _ d' sd' [= <- <-]. lia.
  - destruct (equality_delete_entries_ l), (positional_delete_entries_ l); simpl; split; try done;
      intros H; destruct (H d sd) as [? ?]; done || lia.
Qed.

Lemma resolve_layer_ok dvs s l :
  is_ok (resolve_layer dvs (s, l)) = is_ok (map_ok (resolve_entry dvs s l) (data_entries_ l)).
Proof. unfold resolve_layer. simpl. by destruct (map_ok _ _). Qed.

Lemma ResolveDeletionVectors_ok m :
  keys_sorted m → is_ok (ResolveDeletionVectors m) = true ↔ ¬ dv_conflict m.
Proof.
  intros Hs. unfold ResolveDeletionVectors, dv_conflict. rewrite map_ok_ok_iff. split.
  - intros H (s & l & x & d & sd & Hl & Hx & Hd & Hle & Hne).
    specialize (H _ Hl). rewrite resolve_layer_ok, map_ok_ok_iff in H.
    pose proof (proj1 (resolve_entry_ok m s l x Hs) (H x Hx) d sd Hd Hle). naive_solver.
  - intros Hno [s l] Hl. rewrite resolve_layer_ok. apply map_ok_ok_iff. intros x Hx.
    apply resolve_entry_ok; [done|]. intros d sd Hd Hle.
    destruct (equality_delete_entries_ l) eqn:E1, (positional_delete_entries_ l) eqn:E2; [done|..];
      destruct Hno; exists s, l, x, d, sd; rewrite E1, E2; naive_solver.
Qed.

(** C19: [ResolveDeletionVectors] fails exactly when a data file with an
    applicable deletion vector shares its layer with equality or positional
    deletes; otherwise every data file gets the newest deletion vector that
    references it when that vector is not older than the file, and all files,
    layers and other deletes are kept. *)
Theorem resolve_deletion_vectors_exact (m : layer_map) (Hs : keys_sorted m) :
  (is_ok (ResolveDeletionVectors m) = true ↔ ¬ dv_conflict m) ∧
  (∀ m', ResolveDeletionVectors m = Ok m' →
     Forall2 (λ a b, b.1 = a.1 ∧ Forall2 (dv_resolved m a.1) (data_entries_ a.2) (data_entries_ b.2) ∧
       positional_delete_entries_ b.2 = positional_delete_entries_ a.2 ∧
       equality_delete_entries_ b.2 = equality_delete_entries_ a.2) m m').
Proof.
  split; [by apply ResolveDeletionVectors_ok|]. intros m' H%map_ok_Forall2.
  eapply Forall2_impl; [exact H|]. intros [s l] [s' l'] Hr. unfold resolve_layer in Hr. simpl in Hr.
  inv_ok. simpl. split; [done|]. split; [|done]. apply map_ok_Forall2 in Ha.
  eapply Forall2_impl; [exact Ha|]. intros x x'. by apply resolve_entry_dv.
Qed.

Definition example_dv (file : string) (o : Z) : DeletionVectorInfo :=
  {| dv_path := "dv.puffin"; dv_offset := o; dv_length := 10; dv_referenced_data_file := file |}.
Definition example_dv_layers : layer_map :=
  [(1, {| data_entries_ := [{| de_path := "a"; parts := []; dv := None |}];
          positional_delete_entries_ := []; equality_delete_entries_ := [];
          dv_entries_ := {["a" := example_dv "a" 1]} |});
   (2, {| data_entries_ := [{| de_path := "b"; parts := []; dv := None |}];
          positional_delete_entries_ := []; equality_delete_entries_ := [];
          dv_entries_ := {["a" := example_dv "a" 2]} |})].

(** The newest vector wins, and only for the file it references. *)
Lemma resolve_deletion_vectors_exact_witness :
  keys_sorted example_dv_layers ∧
  (is_ok (ResolveDeletionVectors example_dv_layers) = true ↔ ¬ dv_conflict example_dv_layers) ∧
  (λ m, flat_map (λ sl, dv <$> data_entries_ sl.2) m) <$>
    match ResolveDeletionVectors example_dv_layers with Ok m => Some m | Err _ => None end
  = Some [Some (example_dv "a" 2); None].
Proof.
  assert (keys_sorted example_dv_layers) as Hs by (repeat constructor).
  split; [exact Hs|]. split; [exact (proj1 (resolve_deletion_vectors_exact _ Hs))|].
  vm_compute. reflexivity.
Defined.
