(* ===== verification/PartitionRules.v ===== *)
(** * PartitionRules: the rules of deletes on partition tuples

    The rules of the table format for positional and equality deletes, stated with the
    partition tuples of the manifests, and when the planner's grouping by serialized keys
    ([PartitionKey]) follows them. *)

From stdpp Require Import base list strings gmap.
From Stdlib Require Import ZArith Lia.
From S2P Require Import Prelude Types ScanTypes Layering PartitionKey PartitionSpecs TableMetadata ScanBuilder.

Local Open Scope Z_scope.

(** ** The rules *)

Definition tuple_of (e : ManifestEntry) : PartitionTuple := partition_tuple (data_file e).

(** A live positional delete file belongs to the live data files of its partition with a
    sequence number up to its own. *)
Record pos_rule (es : list ManifestEntry) (ed ep : ManifestEntry) : Prop := {
  pr_data : ed ∈ es ∧ live ed = true ∧ is_data ed = true;
  pr_delete : ep ∈ es ∧ live ep = true ∧ is_pos ep = true;
  pr_partition : tuple_of ep = tuple_of ed;
  pr_sequence : ∃ sd sp, sequence_number ed = Some sd ∧ sequence_number ep = Some sp ∧ sd ≤ sp;
}.

(** A live equality delete file belongs to the live data files with a smaller sequence
    number, of its partition or, when it is unpartitioned, of every partition. *)
Record eq_rule (es : list ManifestEntry) (ed ee : ManifestEntry) : Prop := {
  er_data : ed ∈ es ∧ live ed = true ∧ is_data ed = true;
  er_delete : ee ∈ es ∧ live ee = true ∧ is_eq ee = true;
  er_partition : tuple_of ee = tuple_of ed ∨ tuple_of ee = [];
  er_sequence : ∃ sd se, sequence_number ed = Some sd ∧ sequence_number ee = Some se ∧ sd < se;
}.

(** ** Tables whose partitions the keys tell apart

    The live entries are unpartitioned or of one specification, and every value but the
    last of a tuple has a fixed-width encoding.  [PartitionKey.partition_key_collision] is
    why this is needed. *)

Definition tuple_fields (t : PartitionTuple) : list (string * option Type_) := (λ k, (pk_name k, pk_type k)) <$> t.

Definition partitions_readable (es : list ManifestEntry) : Prop :=
  ∃ fields, ∀ e, e ∈ es → live e = true →
    tuple_of e = [] ∨ (tuple_fields (tuple_of e) = fields ∧ key_readable (tuple_of e)).

Lemma same_tuple_fields t u : tuple_fields t = tuple_fields u → same_fields t u.
Proof.
  unfold same_fields, tuple_fields. revert u. induction t as [|k t IH]; intros [|l u]; simpl; try done.
  intros [= Hn Ht E]. constructor; [done|by apply IH].
Qed.

Section readable.
Context (es : list ManifestEntry) (Hread : partitions_readable es).

Lemma keys_apart e e' k :
  e ∈ es → e' ∈ es → live e = true → live e' = true →
  SerializePartitionTuple (tuple_of e) = Ok k → SerializePartitionTuple (tuple_of e') = Ok k → tuple_of e = tuple_of e'.
Proof.
  destruct Hread as [fields Hall]. intros He He' Hl Hl' E E'.
  assert (∀ t u, t = [] → SerializePartitionTuple t = Ok k → SerializePartitionTuple u = Ok k → u = []) as Hnil.
  { intros t u -> [= <-] Eu. apply tuple_string_empty. by rewrite <- SerializePartitionTuple_eq. }
  destruct (Hall e He Hl) as [En|[Ef Hk]]; [by rewrite En, (Hnil _ _ En E E')|].
  destruct (Hall e' He' Hl') as [En|[Ef' Hk']]; [by rewrite En, (Hnil _ _ En E' E)|].
  eapply partition_key_injective; [apply same_tuple_fields; congruence|done..].
Qed.

Context (Hkeys : ∀ e, e ∈ es → live e = true → ∃ k, SerializePartitionTuple (tuple_of e) = Ok k).

Lemma filed_at_iff e k s :
  filed_at e k s = true ↔ live e = true ∧ SerializePartitionTuple (tuple_of e) = Ok k ∧ sequence_number e = Some s.
Proof. unfold filed_at. rewrite !andb_true_iff, !bool_decide_eq_true. unfold tuple_of. tauto. Qed.

Lemma requires_pos_rule ed ep : requires_pos es ed ep ↔ pos_rule es ed ep.
Proof.
  split.
  - intros (Hd & Hp & Hda & Hpo & k & sd & sp & (L1 & K1 & S1)%filed_at_iff & (L2 & K2 & S2)%filed_at_iff & Hle).
    split; [done|done|by eapply keys_apart|by exists sd, sp].
  - intros [(Hd & L1 & Hda) (Hp & L2 & Hpo) Ht (sd & sp & S1 & S2 & Hle)]. split_and!; try done.
    destruct (Hkeys ed Hd L1) as [k Hk]. exists k, sd, sp. rewrite !filed_at_iff, Ht. done.
Qed.

Lemma requires_eq_rule ed ee : requires_eq es ed ee ↔ eq_rule es ed ee.
Proof.
  split.
  - intros (Hd & He & Hda & Heq & k & k' & sd & se & (L1 & K1 & S1)%filed_at_iff & (L2 & K2 & S2)%filed_at_iff & Hlt & Hk).
    split; [done|done| |by exists sd, se]. destruct Hk as [->| ->]; [left; by eapply keys_apart|right].
    apply tuple_string_empty. by rewrite <- SerializePartitionTuple_eq.
  - intros [(Hd & L1 & Hda) (He & L2 & Heq) Ht (sd & se & S1 & S2 & Hlt)]. split_and!; try done.
    destruct (Hkeys ed Hd L1) as [k Hk]. destruct Ht as [Ht|Ht].
    + exists k, k, sd, se. rewrite !filed_at_iff, Ht. split_and!; try done. by left.
    + exists k, "", sd, se. rewrite !filed_at_iff, Ht. split_and!; try done. by right.
Qed.
End readable.

(** Entries that were added have a key. *)
Lemma added_serialized m sch es b :
  fold_ok (AddEntry m sch) empty_builder es = Ok b →
  ∀ e, e ∈ es → live e = true → ∃ k, SerializePartitionTuple (tuple_of e) = Ok k.
Proof.
  apply (fold_ok_inv_prefix (λ es _, ∀ e, e ∈ es → live e = true → ∃ k, SerializePartitionTuple (tuple_of e) = Ok k)).
  - by intros e ?%elem_of_nil.
  - intros es' x st st' IH H e [He|He]%elem_of_app Hl; [by apply IH|]. apply list_elem_of_singleton in He as ->.
    unfold AddEntry in H. unfold live in Hl. destruct (bool_decide (status x = kDeleted)); [done|].
    apply rbind_Ok_inv in H as (_ & _ & H). apply rbind_Ok_inv in H as (k & Hk & _). by exists k.
Qed.
