(* ===== verification/Planner.v ===== *)
(** * Planner: plans that follow the recorded data file of a delete file

    [ReferencedDataFileAwareScanPlanner] of [iceberg/tea_scan.cpp].  When every
    delete of the scan is positional and names the one data file it references,
    each data file with deletes gets a partition of its own.

    The [MT] subclass takes a mutex around [SetHasEqualityDelete],
    [SetHasUnannotatedPosDelete] and [HandlePositionDelete]; section
    [interleaving] is about its schedules.  Layer numbers are [uint32_t] in the
    code and natural numbers here: a partition has fewer than [2^32] layers. *)

From stdpp Require Import base list sorting strings gmap sets.
From Stdlib Require Import ZArith Lia.
From S2P Require Import Prelude OrderedMap Types ScanTypes Layering Dangling PartitionKey.
From S2P Require Import PartitionSpecs TableMetadata ScanBuilder PartitionRules ScanSpec.

Record Planner := {
  builder_ : ScanMetadataBuilder;
  delete_file_path_to_referenced_data_file_path_ : list (string * string);
  all_pos_deletes_annotated_with_referenced_data_file : bool;
  has_equality_delete : bool;
  has_referenced_data_file : bool;
}.

Definition empty_planner : Planner :=
  {| builder_ := empty_builder; delete_file_path_to_referenced_data_file_path_ := [];
     all_pos_deletes_annotated_with_referenced_data_file := true;
     has_equality_delete := false; has_referenced_data_file := false |}.

Definition SetHasEqualityDelete (p : Planner) : Planner :=
  {| builder_ := builder_ p;
     delete_file_path_to_referenced_data_file_path_ := delete_file_path_to_referenced_data_file_path_ p;
     all_pos_deletes_annotated_with_referenced_data_file :=
       all_pos_deletes_annotated_with_referenced_data_file p;
     has_equality_delete := true; has_referenced_data_file := has_referenced_data_file p |}.

Definition SetHasUnannotatedPosDelete (p : Planner) : Planner :=
  {| builder_ := builder_ p;
     delete_file_path_to_referenced_data_file_path_ := delete_file_path_to_referenced_data_file_path_ p;
     all_pos_deletes_annotated_with_referenced_data_file := false;
     has_equality_delete := has_equality_delete p; has_referenced_data_file := has_referenced_data_file p |}.

Definition set_referenced (refs : list (string * string)) (p : Planner) : Planner :=
  {| builder_ := builder_ p; delete_file_path_to_referenced_data_file_path_ := refs;
     all_pos_deletes_annotated_with_referenced_data_file :=
       all_pos_deletes_annotated_with_referenced_data_file p;
     has_equality_delete := has_equality_delete p; has_referenced_data_file := true |}.

Definition set_builder (b : ScanMetadataBuilder) (p : Planner) : Planner :=
  {| builder_ := b;
     delete_file_path_to_referenced_data_file_path_ := delete_file_path_to_referenced_data_file_path_ p;
     all_pos_deletes_annotated_with_referenced_data_file :=
       all_pos_deletes_annotated_with_referenced_data_file p;
     has_equality_delete := has_equality_delete p; has_referenced_data_file := has_referenced_data_file p |}.

Definition HandlePositionDelete (ref : string) (p : Planner) (entry : ManifestEntry) : result Planner :=
  let refs := delete_file_path_to_referenced_data_file_path_ p in
  if bool_decide (file_format (data_file entry) = kDeletionVectorFormat) then Ok (set_referenced refs p)
  else
    match mfind (file_path (data_file entry)) refs with
    | Some _ => Err (StatusError "Two delete files with same path")
    | None => Ok (set_referenced (minsert (file_path (data_file entry)) ref refs) p)
    end.

(** The [switch] of [AddEntry], the part that records what the scan contains. *)
Definition note_entry (p : Planner) (entry : ManifestEntry) : result Planner :=
  match content (data_file entry) with
  | kData => Ok p
  | kEqualityDeletes => Ok (SetHasEqualityDelete p)
  | kPositionDeletes =>
      match referenced_data_file (data_file entry) with
      | Some ref => HandlePositionDelete ref p entry
      | None => Ok (SetHasUnannotatedPosDelete p)
      end
  end.

Definition store_entry (m : TableMetadataV2) (sch : Schema) (p : Planner) (entry : ManifestEntry) :
    result Planner :=
  let! b := AddEntry m sch (builder_ p) entry in
  Ok (set_builder b p).

Definition planner_AddEntry (m : TableMetadataV2) (sch : Schema) (p : Planner) (entry : ManifestEntry) :
    result Planner :=
  if bool_decide (status entry = kDeleted) then Ok p
  else
    let! p := note_entry p entry in
    store_entry m sch p entry.

(** ** One partition per data file with deletes *)

Abbreviation data_map := (list (string * (DataEntry * nat))).
Abbreviation posdel_map := (list (string * list (PositionalDeleteInfo * nat))).

Definition collect_data (layer_no : nat) (dm : data_map) (x : DataEntry) : result data_map :=
  match mfind (de_path x) dm with
  | Some _ => Err (StatusError "Error in iceberg metadata. There are at least two data entries with path")
  | None => Ok (minsert (de_path x) (x, layer_no) dm)
  end.

Definition collect_delete (refs : list (string * string)) (layer_no : nat) (pm : posdel_map)
    (d : PositionalDeleteInfo) : result posdel_map :=
  match mfind (pd_path d) refs with
  | None => Err (StatusError "HandlePartition: internal error for delete")
  | Some data_path => Ok (mupdate (λ o, default [] o ++ [(d, layer_no)]) data_path pm)
  end.

(** The loop over the layers of a partition. *)
Fixpoint collect_layers (refs : list (string * string)) (layer_no : nat) (part : Partition)
    (dm : data_map) (pm : posdel_map) : result (data_map * posdel_map) :=
  match part with
  | [] => Ok (dm, pm)
  | layer :: part =>
      let! dm := fold_ok (collect_data layer_no) dm (l_data_entries_ layer) in
      let! pm := fold_ok (collect_delete refs layer_no) pm (l_positional_delete_entries_ layer) in
      collect_layers refs (S layer_no) part dm pm
  end.

(** [result.partitions[0][0].data_entries_.emplace_back(x)]. *)
Definition push_clean (x : DataEntry) (ps : list Partition) : list Partition :=
  match ps with
  | (l :: ls) :: rest =>
      ({| l_data_entries_ := l_data_entries_ l ++ [x];
          l_positional_delete_entries_ := l_positional_delete_entries_ l;
          l_equality_delete_entries_ := l_equality_delete_entries_ l |} :: ls) :: rest
  | _ => ps
  end.

Definition kept_deletes (data_layer_no : nat) (deletes : list (PositionalDeleteInfo * nat)) :
    list PositionalDeleteInfo :=
  flat_map (λ dl : PositionalDeleteInfo * nat, if bool_decide (dl.2 < data_layer_no) then [] else [dl.1]) deletes.

(** The loop over the data files of a partition. *)
Definition place_data (pm : posdel_map) (ps : list Partition) (kv : string * (DataEntry * nat)) :
    list Partition :=
  let '(data_path, (data_entry, data_layer_no)) := kv in
  match mfind data_path pm, dv data_entry with
  | None, None => push_clean data_entry ps
  | deletes, _ =>
      ps ++ [[{| l_data_entries_ := [data_entry];
                 l_positional_delete_entries_ := kept_deletes data_layer_no (default [] deletes);
                 l_equality_delete_entries_ := [] |}]]
  end.

Definition HandlePartition (refs : list (string * string)) (result_ : list Partition) (part : Partition) :
    result (list Partition) :=
  let! '(dm, pm) := collect_layers refs 0 part [] [] in
  Ok (foldl (place_data pm) result_ dm).

Definition first_layer_empty (ps : list Partition) : bool :=
  match ps with
  | (l :: _) :: _ => is_nil (l_data_entries_ l)
  | _ => false
  end.

Definition empty_plan_layer : Layer :=
  {| l_data_entries_ := []; l_positional_delete_entries_ := []; l_equality_delete_entries_ := [] |}.

Definition can_split_by_reference (p : Planner) : bool :=
  has_referenced_data_file p && negb (has_equality_delete p)
  && all_pos_deletes_annotated_with_referenced_data_file p.

Definition planner_GetResult (sch : Schema) (p : Planner) : result ScanMetadata :=
  let! meta := GetResult sch (builder_ p) in
  if negb (can_split_by_reference p) then Ok meta
  else
    let! ps := fold_ok (HandlePartition (delete_file_path_to_referenced_data_file_path_ p))
                 [[empty_plan_layer]] (partitions meta) in
    Ok {| schema := schema meta;
          partitions := if first_layer_empty ps then tail ps else ps |}.

(** ** What [collect_layers] gathers *)

Lemma collect_data_fold n xs dm dm' :
  fold_ok (collect_data n) dm xs = Ok dm' → keys_sorted dm →
  keys_sorted dm' ∧ dm' ≡ₚ ((λ x, (de_path x, (x, n))) <$> xs) ++ dm.
Proof.
  revert dm. induction xs as [|x xs IH]; intros dm H Hs; simpl in H; inv_ok; [done|].
  unfold collect_data in Ha. destruct (mfind (de_path x) dm) eqn:E; [done|]. injection Ha as <-.
  apply IH in H as [Hs' Hp]; [|by apply mupdate_sorted]. split; [done|]. rewrite Hp. simpl.
  rewrite (minsert_new _ _ _ E Hs). by rewrite Permutation_middle.
Qed.

(** Deletes recorded under a data path. *)
Definition deletes_of (pm : posdel_map) (path : string) : list (PositionalDeleteInfo * nat) :=
  default [] (mfind path pm).

Lemma collect_delete_fold refs n ds pm pm' :
  fold_ok (collect_delete refs n) pm ds = Ok pm' → keys_sorted pm →
  keys_sorted pm' ∧ ∀ path, deletes_of pm' path = deletes_of pm path ++
    ((λ d, (d, n)) <$> List.filter (λ d, bool_decide (mfind (pd_path d) refs = Some path)) ds).
Proof.
  revert pm. induction ds as [|d ds IH]; intros pm H Hs; simpl in H; inv_ok.
  { split; [done|]. intros path. by rewrite app_nil_r. }
  unfold collect_delete in Ha. destruct (mfind (pd_path d) refs) as [data_path|] eqn:E; [|done].
  injection Ha as <-. apply IH in H as [Hs' Hd]; [|by apply mupdate_sorted]. split; [done|].
  intros path. rewrite Hd. simpl. rewrite E. unfold deletes_of.
  destruct (decide (data_path = path)) as [<-|Hne].
  - rewrite mfind_mupdate_eq, bool_decide_true by done. simpl. by rewrite <- app_assoc.
  - rewrite mfind_mupdate_ne, bool_decide_false by (done || congruence). done.
Qed.

(** Data files with their layer numbers. *)
Fixpoint numbered (n : nat) (part : Partition) : list (string * (DataEntry * nat)) :=
  match part with
  | [] => []
  | l :: part => ((λ x, (de_path x, (x, n))) <$> l_data_entries_ l) ++ numbered (S n) part
  end.

Lemma elem_of_numbered n part path x i :
  (path, (x, i)) ∈ numbered n part ↔
  ∃ k l, i = n + k ∧ part !! k = Some l ∧ x ∈ l_data_entries_ l ∧ path = de_path x.
Proof.
  revert n. induction part as [|l part IH]; intros n; simpl.
  { split; [by intros ?%elem_of_nil|]. intros (k & l & _ & H & _). by rewrite lookup_nil in H. }
  rewrite elem_of_app, list_elem_of_fmap, IH. split.
  - intros [(x' & [= -> -> ->] & Hx)|(k & l' & -> & Hk & Hx & ->)].
    + exists 0, l. split_and!; [lia|done..].
    + exists (S k), l'. split_and!; [lia|done..].
  - intros ([|k] & l' & -> & Hk & Hx & ->); simplify_eq/=.
    + left. exists x. by rewrite Nat.add_0_r.
    + right. exists k, l'. split_and!; [lia|done..].
Qed.

Lemma numbered_data n part : flat_map (λ kv : string * (DataEntry * nat), [kv.2.1]) (numbered n part)
  = flat_map l_data_entries_ part.
Proof.
  revert n. induction part as [|l part IH]; intros n; simpl; [done|].
  rewrite flat_map_app, IH. f_equal. by induction (l_data_entries_ l); simpl; f_equal.
Qed.

Lemma collect_layers_spec refs n part dm pm dm' pm' :
  collect_layers refs n part dm pm = Ok (dm', pm') → keys_sorted dm → keys_sorted pm →
  keys_sorted dm' ∧ dm' ≡ₚ numbered n part ++ dm ∧
  ∀ path d j, (d, j) ∈ deletes_of pm' path ↔ (d, j) ∈ deletes_of pm path ∨
    ∃ k l, j = n + k ∧ part !! k = Some l ∧ d ∈ l_positional_delete_entries_ l ∧
      mfind (pd_path d) refs = Some path.
Proof.
  revert n dm pm. induction part as [|l part IH]; intros n dm pm H Hd Hp; simpl in H.
  { injection H as <- <-. split; [done|]. split; [done|]. intros path d j. split; [by left|].
    intros [?|(k & l & _ & H & _)]; [done|]. by rewrite lookup_nil in H. }
  inv_ok. apply collect_data_fold in Ha as [Hd1 P1]; [|done].
  apply collect_delete_fold in Ha0 as [Hp1 D1]; [|done].
  apply IH in H as (Hd2 & P2 & D2); [|done..]. split; [done|]. split.
  { rewrite P2, P1. simpl. rewrite !app_assoc. apply Permutation_app_tail, Permutation_app_comm. }
  intros path d j. rewrite D2, D1, elem_of_app, list_elem_of_fmap.
  setoid_rewrite list_elem_of_In. setoid_rewrite filter_In. setoid_rewrite <- list_elem_of_In.
  setoid_rewrite bool_decide_eq_true. split.
  - intros [[?|(d' & [= -> ->] & Hin & Hf)]|(k & l' & -> & Hk & Hin & Hf)]; [by left| |]; right.
    + exists 0, l. split_and!; [lia|done..].
    + exists (S k), l'. split_and!; [lia|done..].
  - intros [?|([|k] & l' & -> & Hk & Hin & Hf)]; simplify_eq/=; [by left; left| |].
    + left; right. exists d. by rewrite Nat.add_0_r.
    + right. exists k, l'. split_and!; [lia|done..].
Qed.

(** ** The plan built from the gathered maps *)

Definition clean_layer (xs : list DataEntry) : Layer :=
  {| l_data_entries_ := xs; l_positional_delete_entries_ := []; l_equality_delete_entries_ := [] |}.

(** A data file without deletes, or its own partition. *)
Definition clean_of (pm : posdel_map) (kv : string * (DataEntry * nat)) : list DataEntry :=
  match mfind kv.1 pm, dv kv.2.1 with None, None => [kv.2.1] | _, _ => [] end.
Definition own_of (pm : posdel_map) (kv : string * (DataEntry * nat)) : list Partition :=
  match mfind kv.1 pm, dv kv.2.1 with
  | None, None => []
  | _, _ => [[{| l_data_entries_ := [kv.2.1];
                 l_positional_delete_entries_ := kept_deletes kv.2.2 (deletes_of pm kv.1);
                 l_equality_delete_entries_ := [] |}]]
  end.

Lemma place_data_fold pm dm xs news :
  foldl (place_data pm) ([clean_layer xs] :: news) dm
  = [clean_layer (xs ++ flat_map (clean_of pm) dm)] :: (news ++ flat_map (own_of pm) dm).
Proof.
  revert xs news. induction dm as [|[path [x n]] dm IH]; intros xs news; simpl.
  { by rewrite !app_nil_r. }
  unfold clean_of at 1, own_of at 1, deletes_of. simpl.
  destruct (mfind path pm) as [ds|] eqn:E, (dv x) eqn:Ed; simpl;
    (rewrite IH; by rewrite <- ?app_assoc)
    || (rewrite (IH (xs ++ [x]) news : foldl _ ([{| l_data_entries_ := xs ++ [x] |}] :: news) dm = _);
        by rewrite <- !app_assoc).
Qed.

(** How a list of partitions is split into files without deletes and
    partitions of one file each. *)
Record handled (refs : list (string * string)) (parts : list Partition) (xs : list DataEntry)
    (news : list Partition) : Prop := {
  hd_data : xs ++ flat_map (flat_map l_data_entries_) news ≡ₚ flat_map (flat_map l_data_entries_) parts;
  hd_applies : ∀ x d, (∃ q, q ∈ news ∧ plan_applies q x d) ↔
    ∃ p, p ∈ parts ∧ plan_applies p x d ∧ mfind (pd_path d) refs = Some (de_path x);
  hd_single : ∀ q, q ∈ news → ∃ x ds, q = [{| l_data_entries_ := [x]; l_positional_delete_entries_ := ds;
                                          l_equality_delete_entries_ := [] |}];
}.

Lemma handled_nil refs : handled refs [] [] [].
Proof. split; [done| |]; set_solver. Qed.

Lemma handled_app refs p1 p2 x1 x2 n1 n2 :
  handled refs p1 x1 n1 → handled refs p2 x2 n2 → handled refs (p1 ++ p2) (x1 ++ x2) (n1 ++ n2).
Proof.
  intros [D1 A1 S1] [D2 A2 S2]. split.
  - rewrite !flat_map_app, <- D1, <- D2, <- !app_assoc. apply Permutation_app_head.
    rewrite !app_assoc. apply Permutation_app_tail, Permutation_app_comm.
  - intros x d. setoid_rewrite elem_of_app. specialize (A1 x d). specialize (A2 x d). naive_solver.
  - intros q [?|?]%elem_of_app; auto.
Qed.

Lemma plan_applies_single l x d :
  plan_applies [l] x d ↔ x ∈ l_data_entries_ l ∧ d ∈ l_positional_delete_entries_ l.
Proof.
  rewrite plan_applies_layered, layered_cons. split.
  - intros [?|[(_ & ? & ?%elem_of_nil & _)|?%layered_nil]]; done.
  - by left.
Qed.

Lemma elem_of_kept_deletes n ds d : d ∈ kept_deletes n ds ↔ ∃ j, (d, j) ∈ ds ∧ n ≤ j.
Proof.
  unfold kept_deletes. rewrite elem_of_flat_map. split.
  - intros ([d' j] & Hin & Hd). simpl in Hd. case_bool_decide; [by apply elem_of_nil in Hd|].
    apply list_elem_of_singleton in Hd as ->. exists j. split; [done|lia].
  - intros (j & Hin & Hle). exists (d, j). split; [done|]. simpl.
    rewrite bool_decide_false by lia. by apply list_elem_of_singleton.
Qed.

Lemma elem_of_own_of pm kv q :
  q ∈ own_of pm kv → q = [{| l_data_entries_ := [kv.2.1];
    l_positional_delete_entries_ := kept_deletes kv.2.2 (deletes_of pm kv.1);
    l_equality_delete_entries_ := [] |}].
Proof.
  unfold own_of. destruct (mfind kv.1 pm), (dv kv.2.1); intros H;
    (by apply list_elem_of_singleton in H) || by apply elem_of_nil in H.
Qed.

(** A data file with a recorded delete has a partition of its own. *)
Lemma own_of_deletes pm kv d j : (d, j) ∈ deletes_of pm kv.1 → own_of pm kv ≠ [].
Proof.
  unfold deletes_of, own_of. destruct (mfind kv.1 pm); [by destruct (dv kv.2.1)|].
  by intros ?%elem_of_nil.
Qed.

Lemma own_of_applies pm kv x d :
  (∃ q, q ∈ own_of pm kv ∧ plan_applies q x d) ↔
  x = kv.2.1 ∧ ∃ j, (d, j) ∈ deletes_of pm kv.1 ∧ kv.2.2 ≤ j.
Proof.
  split.
  - intros (q & ->%elem_of_own_of & [Hx Hd]%plan_applies_single).
    simpl in Hx, Hd. by rewrite list_elem_of_singleton in Hx; rewrite elem_of_kept_deletes in Hd.
  - intros (-> & j & Hin & Hle). pose proof (own_of_deletes pm kv d j Hin) as Hne.
    destruct (own_of pm kv) as [|q l] eqn:E; [done|]. exists q. split; [by left|].
    assert (q ∈ own_of pm kv) as ->%elem_of_own_of by (rewrite E; by left).
    apply plan_applies_single. simpl. rewrite list_elem_of_singleton, elem_of_kept_deletes. eauto.
Qed.

Lemma clean_own_data pm dm :
  flat_map (clean_of pm) dm ++ flat_map (flat_map l_data_entries_) (flat_map (own_of pm) dm)
  ≡ₚ flat_map (λ kv : string * (DataEntry * nat), [kv.2.1]) dm.
Proof.
  induction dm as [|[path [x n]] dm IH]; simpl; [done|]. rewrite flat_map_app, <- IH.
  unfold clean_of at 1, own_of at 1. simpl. destruct (mfind path pm), (dv x); simpl;
    try done; by rewrite Permutation_middle.
Qed.

Lemma HandlePartition_handled refs part xs news ps :
  HandlePartition refs ([clean_layer xs] :: news) part = Ok ps →
  ∃ xs' news', ps = [clean_layer (xs ++ xs')] :: (news ++ news') ∧ handled refs [part] xs' news'.
Proof.
  unfold HandlePartition. intros H. apply rbind_Ok_inv in H as ([dm pm] & Hc & H).
  rewrite place_data_fold in H. injection H as <-. eexists _, _. split; [done|].
  apply collect_layers_spec in Hc as (Hs & Hp & Hd); [|apply keys_sorted_nil..].
  rewrite app_nil_r in Hp. split; simpl.
  - rewrite clean_own_data, Hp, numbered_data. by rewrite app_nil_r.
  - intros x d. setoid_rewrite list_elem_of_singleton. transitivity
      (∃ kv, kv ∈ numbered 0 part ∧ x = kv.2.1 ∧ ∃ j, (d, j) ∈ deletes_of pm kv.1 ∧ kv.2.2 ≤ j).
    { setoid_rewrite <- Hp. setoid_rewrite <- own_of_applies. setoid_rewrite elem_of_flat_map. naive_solver. }
    split.
    + intros ([path [x' i]] & (k & l & Hik & Hk & Hx & ->)%elem_of_numbered & Heq & j & Hj & Hle).
      simpl in *. subst x' i. apply Hd in Hj as [?%elem_of_nil|(k' & l' & -> & Hk' & Hdl & Hr)]; [done|].
      exists part. split; [done|]. split; [|done]. by exists k, k', l, l'.
    + intros (p & -> & (i & j & li & lj & Hi & Hj & Hij & Hx & Hdl) & Hr).
      exists (de_path x, (x, i)). rewrite elem_of_numbered. split; [by exists i, li|].
      simpl. split; [done|]. exists j. split; [|done]. apply Hd. right. by exists j, lj.
  - intros q (kv & _ & ->%elem_of_own_of)%elem_of_flat_map. eauto.
Qed.

Lemma HandlePartitions_handled refs parts xs news ps :
  fold_ok (HandlePartition refs) ([clean_layer xs] :: news) parts = Ok ps →
  ∃ xs' news', ps = [clean_layer (xs ++ xs')] :: (news ++ news') ∧ handled refs parts xs' news'.
Proof.
  revert xs news. induction parts as [|p parts IH]; intros xs news H; simpl in H; inv_ok.
  { exists [], []. rewrite !app_nil_r. split; [done|apply handled_nil]. }
  apply HandlePartition_handled in Ha as (x1 & n1 & -> & H1).
  apply IH in H as (x2 & n2 & -> & H2). exists (x1 ++ x2), (n1 ++ n2). rewrite !app_assoc.
  split; [done|]. by apply (handled_app refs [p] parts).
Qed.

(** ** The state of the planner as a function of the entries added *)

Definition position_deletes (e : ManifestEntry) : bool :=
  live e && bool_decide (content (data_file e) = kPositionDeletes).
Definition annotated (e : ManifestEntry) : bool :=
  bool_decide (is_Some (referenced_data_file (data_file e))).

(** What [note_entry] has recorded after a list of entries. *)
Record noted (es : list ManifestEntry) (p : Planner) : Prop := {
  no_sorted : keys_sorted (delete_file_path_to_referenced_data_file_path_ p);
  no_refs : ∀ path ref, mfind path (delete_file_path_to_referenced_data_file_path_ p) = Some ref ↔
    ∃ e, e ∈ es ∧ live e = true ∧ is_pos e = true ∧ file_path (data_file e) = path ∧
      referenced_data_file (data_file e) = Some ref;
  no_eq : has_equality_delete p = existsb (λ e, live e && is_eq e) es;
  no_all : all_pos_deletes_annotated_with_referenced_data_file p
    = forallb (λ e, negb (position_deletes e) || annotated e) es;
}.

Record planner_of (m : TableMetadataV2) (sch : Schema) (es : list ManifestEntry) (p : Planner) : Prop := {
  po_builder : fold_ok (AddEntry m sch) empty_builder es = Ok (builder_ p);
  po_noted : noted es p;
}.

Lemma position_deletes_is_pos e : is_pos e = true → live e = true → position_deletes e = true.
Proof. unfold is_pos, position_deletes. by intros [-> _]%andb_true_iff ->. Qed.

Lemma noted_empty : noted [] empty_planner.
Proof. split; [apply keys_sorted_nil| |done|done]. intros path ref. set_solver. Qed.

Lemma noted_perm es es' p : es ≡ₚ es' → noted es p → noted es' p.
Proof.
  intros Hp [S R E A]. split; [done| | |].
  - intros path ref. rewrite R. by setoid_rewrite Hp.
  - rewrite E. apply eq_true_iff_eq. rewrite !existsb_exists. setoid_rewrite <- list_elem_of_In.
    by setoid_rewrite Hp.
  - rewrite A. apply eq_true_iff_eq. rewrite !forallb_forall. setoid_rewrite <- list_elem_of_In.
    by setoid_rewrite Hp.
Qed.

(** A step that records no reference. *)
Lemma noted_step es p e p' :
  noted es p →
  delete_file_path_to_referenced_data_file_path_ p' = delete_file_path_to_referenced_data_file_path_ p →
  (live e = true → is_pos e = true → referenced_data_file (data_file e) = None) →
  has_equality_delete p' = has_equality_delete p || (live e && is_eq e) →
  all_pos_deletes_annotated_with_referenced_data_file p' =
    all_pos_deletes_annotated_with_referenced_data_file p && (negb (position_deletes e) || annotated e) →
  noted (es ++ [e]) p'.
Proof.
  intros [S R E A] HR Hn HE HA. split.
  - by rewrite HR.
  - intros path ref. rewrite HR, R. split; intros (e' & He & H); exists e'; [split; [set_solver|done]|].
    apply elem_of_app in He as [He| ->%list_elem_of_singleton]; [done|].
    destruct H as (Hl & Hp & _ & Hr). by rewrite (Hn Hl Hp) in Hr.
  - rewrite HE, E, existsb_app. simpl. by rewrite orb_false_r.
  - rewrite HA, A, forallb_app. simpl. by rewrite andb_true_r.
Qed.

(** A step that records the data file of a delete file. *)
Lemma noted_reference es p e ref :
  noted es p → live e = true → is_pos e = true → referenced_data_file (data_file e) = Some ref →
  mfind (file_path (data_file e)) (delete_file_path_to_referenced_data_file_path_ p) = None →
  noted (es ++ [e]) (set_referenced (minsert (file_path (data_file e)) ref
      (delete_file_path_to_referenced_data_file_path_ p)) p).
Proof.
  intros [S R E A] Hl Hp Hr Hf.
  assert (is_eq e = false) as Hne.
  { unfold is_pos, is_eq in *. apply andb_true_iff in Hp as [->%bool_decide_eq_true _]. done. }
  split; simpl.
  - by apply mupdate_sorted.
  - intros path ref'. destruct (decide (file_path (data_file e) = path)) as [<-|Hn].
    + unfold minsert. rewrite mfind_mupdate_eq. split.
      * intros [= <-]. exists e. split; [set_solver|done].
      * intros (e' & [He| ->%list_elem_of_singleton]%elem_of_app & H); [|naive_solver].
        assert (mfind (file_path (data_file e)) (delete_file_path_to_referenced_data_file_path_ p)
                = Some ref') as Hc by (apply R; eauto).
        congruence.
    + unfold minsert. rewrite mfind_mupdate_ne by done. rewrite R.
      split; intros (e' & He & H); exists e'; [split; [set_solver|done]|].
      apply elem_of_app in He as [He| ->%list_elem_of_singleton]; [done|]. naive_solver.
  - rewrite E, existsb_app. simpl. by rewrite Hne, andb_false_r, !orb_false_r.
  - rewrite A, forallb_app. simpl. unfold annotated. rewrite Hr. simpl.
    by rewrite orb_true_r, !andb_true_r.
Qed.

Lemma noted_dead es p e : status e = kDeleted → noted es p → noted (es ++ [e]) p.
Proof.
  intros Hst Hn. assert (live e = false) as Hl by (unfold live; by rewrite Hst).
  apply (noted_step _ p); [done|done| | |]; unfold position_deletes; rewrite ?Hl; simpl;
    by rewrite ?orb_false_r, ?andb_true_r.
Qed.

Lemma note_entry_noted es p e p' :
  status e ≠ kDeleted → noted es p → note_entry p e = Ok p' → noted (es ++ [e]) p'.
Proof.
  intros Hst Hn H. assert (live e = true) as Hl by (unfold live; by rewrite bool_decide_false).
  unfold note_entry in H. destruct (content (data_file e)) eqn:Hc.
  - injection H as <-. apply (noted_step _ p); try done; unfold position_deletes, is_eq, is_pos;
      rewrite Hl, Hc; simpl; by rewrite ?orb_false_r, ?andb_true_r.
  - destruct (referenced_data_file (data_file e)) as [ref|] eqn:Hr.
    + unfold HandlePositionDelete in H. case_bool_decide as Hf.
      * injection H as <-. apply (noted_step _ p); try done;
          unfold position_deletes, is_eq, is_pos, annotated; rewrite Hl, Hc, ?Hr; simpl;
          rewrite ?orb_false_r; try done; [by rewrite Hf|].
        by rewrite ?andb_true_r.
      * destruct (mfind _ _) eqn:Hm; [done|]. injection H as <-.
        apply noted_reference; try done. unfold is_pos. rewrite Hc. simpl.
        by rewrite bool_decide_false.
    + injection H as <-. apply (noted_step _ p); try done;
        unfold position_deletes, is_eq, is_pos, annotated; rewrite Hl, Hc, ?Hr; simpl;
        rewrite ?orb_false_r; try done.
      by rewrite andb_false_r.
  - injection H as <-. apply (noted_step _ p); try done; unfold position_deletes, is_eq, is_pos;
      rewrite Hl, Hc; simpl; by rewrite ?orb_true_r, ?andb_true_r.
Qed.

Lemma noted_ext es p p' :
  noted es p →
  delete_file_path_to_referenced_data_file_path_ p' = delete_file_path_to_referenced_data_file_path_ p →
  has_equality_delete p' = has_equality_delete p →
  all_pos_deletes_annotated_with_referenced_data_file p' =
    all_pos_deletes_annotated_with_referenced_data_file p →
  noted es p'.
Proof. intros [S R E A] H1 H2 H3. split; rewrite ?H1, ?H2, ?H3; done. Qed.

Lemma note_entry_builder p e p' : note_entry p e = Ok p' → builder_ p' = builder_ p.
Proof.
  unfold note_entry, HandlePositionDelete.
  destruct (content (data_file e)), (referenced_data_file (data_file e)); try case_bool_decide; try destruct (mfind _ _);
    by intros [= <-].
Qed.

Lemma planner_AddEntry_of m sch es p e p' :
  planner_of m sch es p → planner_AddEntry m sch p e = Ok p' → planner_of m sch (es ++ [e]) p'.
Proof.
  intros [Hb Hn] H. unfold planner_AddEntry in H. case_bool_decide as Hst.
  { injection H as <-. split; [|by apply noted_dead].
    rewrite fold_ok_app, Hb. simpl. unfold AddEntry. by rewrite Hst. }
  inv_ok. unfold store_entry in H. inv_ok. pose proof (note_entry_builder _ _ _ Ha) as Eb. split.
  - rewrite fold_ok_app, Hb, <- Eb. simpl. by rewrite Ha0.
  - eapply noted_ext; [by eapply note_entry_noted|done..].
Qed.

Lemma planner_AddEntries_of m sch es p :
  fold_ok (planner_AddEntry m sch) empty_planner es = Ok p → planner_of m sch es p.
Proof.
  apply (fold_ok_inv_prefix (planner_of m sch)).
  - split; [done|apply noted_empty].
  - intros q x st st'. apply planner_AddEntry_of.
Qed.

(** ** The planner's plan against the rules *)

(** A positional delete file can mention a data file: its path is in the
    recorded range and is the recorded data file, where these are recorded. *)
Definition may_mention (ep : ManifestEntry) (path : string) : Prop :=
  covers (entry_pos ep) path ∧
  match referenced_data_file (data_file ep) with Some r => r = path | None => True end.

Lemma filed_at_live e k s : filed_at e k s = true → live e = true.
Proof. unfold filed_at. by intros [[? _]%andb_true_iff _]%andb_true_iff. Qed.

Lemma requires_pos_live es ed ep : requires_pos es ed ep → ep ∈ es ∧ live ep = true ∧ is_pos ep = true.
Proof.
  intros (_ & He & _ & Hp & k & sd & sp & _ & Hf & _). split; [done|]. split; [|done].
  by eapply filed_at_live.
Qed.

Lemma requires_eq_live es ed ee : requires_eq es ed ee → ee ∈ es ∧ live ee = true ∧ is_eq ee = true.
Proof.
  intros (_ & He & _ & Hp & k & k' & sd & sp & _ & Hf & _). split; [done|]. split; [|done].
  by eapply filed_at_live.
Qed.

(** The final list of partitions, with and without files without deletes. *)
Definition split_plan (xs : list DataEntry) (news : list Partition) : list Partition :=
  if is_nil xs then news else [clean_layer xs] :: news.

Lemma planner_GetResult_cases sch p plan :
  planner_GetResult sch p = Ok plan →
  ∃ meta, GetResult sch (builder_ p) = Ok meta ∧
    ((can_split_by_reference p = false ∧ plan = meta) ∨
     (can_split_by_reference p = true ∧ ∃ xs news,
        handled (delete_file_path_to_referenced_data_file_path_ p) (partitions meta) xs news ∧
        partitions plan = split_plan xs news)).
Proof.
  unfold planner_GetResult. intros H. apply rbind_Ok_inv in H as (meta & Hm & H).
  exists meta. split; [done|]. destruct (can_split_by_reference p); simpl in H; inv_ok; [right|by left].
  split; [done|]. apply (HandlePartitions_handled _ _ [] []) in Ha as (xs & news & -> & Hh).
  exists xs, news. split; [done|]. unfold split_plan. simpl. by destruct xs.
Qed.

Lemma split_plan_applies xs news x d :
  (∃ q, q ∈ split_plan xs news ∧ plan_applies q x d) ↔ (∃ q, q ∈ news ∧ plan_applies q x d).
Proof.
  unfold split_plan. destruct (is_nil xs); [done|]. setoid_rewrite elem_of_cons. split; [|naive_solver].
  intros (q & [->|Hq] & Ha); [|eauto]. apply plan_applies_single in Ha as [_ Hd]. by apply elem_of_nil in Hd.
Qed.

Lemma split_plan_no_eq refs parts xs news q x y :
  handled refs parts xs news → q ∈ split_plan xs news → ¬ plan_applies_eq q x y.
Proof.
  intros Hh Hq (i & j & li & lj & _ & Hj & _ & _ & Hy).
  assert (q ∈ [clean_layer xs] :: news) as [->|Hn]%elem_of_cons.
  { unfold split_plan in Hq. destruct (is_nil xs); [by right|done]. }
  - apply list_lookup_singleton_Some in Hj as [_ <-]. by apply elem_of_nil in Hy.
  - apply (hd_single _ _ _ _ Hh) in Hn as (x' & ds & ->).
    apply list_lookup_singleton_Some in Hj as [_ <-]. by apply elem_of_nil in Hy.
Qed.

Section planner_correctness.
Context (m : TableMetadataV2) (sch : Schema) (es : list ManifestEntry) (p : Planner) (plan : ScanMetadata).
Context (Hof : planner_of m sch es p) (Hres : planner_GetResult sch p = Ok plan)
        (Hvalid : entry_ranges_valid es).

(** When the plan is split every positional delete file names its data file. *)
Lemma split_reference ep :
  can_split_by_reference p = true → ep ∈ es → live ep = true → is_pos ep = true →
  ∃ ref, referenced_data_file (data_file ep) = Some ref ∧
    mfind (file_path (data_file ep)) (delete_file_path_to_referenced_data_file_path_ p) = Some ref.
Proof.
  intros [_ Hall]%andb_true_iff He Hl Hp. rewrite (no_all _ _ (po_noted _ _ _ _ Hof)), forallb_forall in Hall.
  specialize (Hall ep (proj1 (list_elem_of_In _ _) He)).
  rewrite (position_deletes_is_pos ep Hp Hl) in Hall. simpl in Hall.
  apply bool_decide_eq_true in Hall as [ref Hr]. exists ref. split; [done|].
  apply (no_refs _ _ (po_noted _ _ _ _ Hof)). eauto 10.
Qed.

Lemma planner_pos_complete ed ep :
  requires_pos es ed ep → may_mention ep (file_path (data_file ed)) →
  ∃ q x, q ∈ partitions plan ∧ same_file (entry_data ed) x ∧
    plan_applies q x (positional_delete_ (entry_pos ep)).
Proof.
  intros Hr [Hc Href]. pose proof (po_builder _ _ _ _ Hof) as Hb.
  destruct (planner_GetResult_cases _ _ _ Hres) as (meta & Hm & [[_ ->]|(Hsp & xs & news & Hh & Ep)]).
  { by eapply plan_complete. }
  destruct (plan_complete m sch es _ meta Hb Hm Hvalid ed ep Hr Hc) as (q & x & Hq & Hsame & Ha).
  destruct (requires_pos_live _ _ _ Hr) as (He & Hl & Hp).
  destruct (split_reference ep Hsp He Hl Hp) as (ref & E1 & E2). rewrite E1 in Href. subst ref.
  destruct (proj2 (split_plan_applies xs news x (positional_delete_ (entry_pos ep)))) as (q' & Hq' & Ha').
  { apply (hd_applies _ _ _ _ Hh). exists q. split; [done|]. split; [done|]. simpl. rewrite E2.
    f_equal. apply Hsame. }
  exists q', x. by rewrite Ep.
Qed.

Lemma planner_pos_sound q x d :
  q ∈ partitions plan → plan_applies q x d →
  ∃ ed ep, requires_pos es ed ep ∧ same_file (entry_data ed) x ∧ positional_delete_ (entry_pos ep) = d.
Proof.
  intros Hq Ha. pose proof (po_builder _ _ _ _ Hof) as Hb.
  destruct (planner_GetResult_cases _ _ _ Hres) as (meta & Hm & [[_ ->]|(Hsp & xs & news & Hh & Ep)]).
  { by eapply plan_sound. }
  rewrite Ep in Hq. destruct (proj1 (split_plan_applies xs news x d)) as (q' & Hq'); [by exists q|].
  destruct (proj1 (hd_applies _ _ _ _ Hh x d)) as (q'' & Hq'' & Ha'' & _); [by exists q'|].
  by eapply plan_sound.
Qed.

(** A plan split by reference applies a positional delete file to the file it names only. *)
Lemma planner_pos_named q x d :
  can_split_by_reference p = true → q ∈ partitions plan → plan_applies q x d →
  ∃ ep, ep ∈ es ∧ live ep = true ∧ is_pos ep = true ∧ positional_delete_ (entry_pos ep) = d ∧
    referenced_data_file (data_file ep) = Some (de_path x).
Proof.
  intros Hsp Hq Ha. destruct (planner_GetResult_cases _ _ _ Hres) as (meta & Hm & [[E _]|(_ & xs & news & Hh & Ep)]); [congruence|].
  rewrite Ep in Hq. destruct (proj1 (split_plan_applies xs news x d)) as (q' & Hq'); [by exists q|].
  destruct (proj1 (hd_applies _ _ _ _ Hh x d)) as (q'' & _ & _ & Hr); [by exists q'|].
  apply (no_refs _ _ (po_noted _ _ _ _ Hof)) in Hr as (ep & He & Hl & Hp & Hpath & Href). exists ep. split_and!; try done.
  destruct d. cbn in *. by rewrite Hpath.
Qed.

Lemma split_no_eq ed ee : can_split_by_reference p = true → ¬ requires_eq es ed ee.
Proof.
  intros Hsp (He & Hl & Hq)%requires_eq_live. unfold can_split_by_reference in Hsp.
  apply andb_true_iff in Hsp as [[_ Hn]%andb_true_iff _].
  rewrite (no_eq _ _ (po_noted _ _ _ _ Hof)), negb_true_iff, existsb_false in Hn.
  specialize (Hn ee He). by rewrite Hl, Hq in Hn.
Qed.

Lemma planner_eq_complete ed ee :
  requires_eq es ed ee →
  ∃ q x, q ∈ partitions plan ∧ same_file (entry_data ed) x ∧ plan_applies_eq q x (entry_eq ee).
Proof.
  intros Hr. pose proof (po_builder _ _ _ _ Hof) as Hb.
  destruct (planner_GetResult_cases _ _ _ Hres) as (meta & Hm & [[_ ->]|(Hsp & _)]).
  - by eapply plan_eq_complete.
  - by destruct (split_no_eq ed ee Hsp).
Qed.

Lemma planner_eq_sound q x y :
  q ∈ partitions plan → plan_applies_eq q x y →
  ∃ ed ee, requires_eq es ed ee ∧ same_file (entry_data ed) x ∧ entry_eq ee = y.
Proof.
  intros Hq Ha. pose proof (po_builder _ _ _ _ Hof) as Hb.
  destruct (planner_GetResult_cases _ _ _ Hres) as (meta & Hm & [[_ ->]|(Hsp & xs & news & Hh & Ep)]).
  - by eapply plan_eq_sound.
  - rewrite Ep in Hq. by destruct (split_plan_no_eq _ _ _ _ _ _ _ Hh Hq Ha).
Qed.

Lemma planner_data : plan_paths plan ≡ₚ de_path <$> flat_map live_data es.
Proof.
  pose proof (po_builder _ _ _ _ Hof) as Hb.
  destruct (planner_GetResult_cases _ _ _ Hres) as (meta & Hm & [[_ ->]|(Hsp & xs & news & Hh & Ep)]).
  { by eapply plan_data. }
  rewrite <- (plan_data m sch es _ meta Hb Hm Hvalid). unfold plan_paths. apply fmap_Permutation.
  rewrite <- (hd_data _ _ _ _ Hh), Ep. unfold split_plan. destruct xs; simpl; [done|].
  by rewrite app_nil_r.
Qed.
End planner_correctness.

(** ** When the planner returns a plan *)

Definition unique_paths (q : Partition) : Prop := NoDup (de_path <$> flat_map l_data_entries_ q).

Lemma collect_data_ok n xs dm :
  keys_sorted dm → NoDup ((de_path <$> xs) ++ dm.*1) → ∃ dm', fold_ok (collect_data n) dm xs = Ok dm'.
Proof.
  revert dm. induction xs as [|x xs IH]; intros dm Hs Hnd; simpl; [eauto|].
  simpl in Hnd. apply NoDup_cons in Hnd as [Hx Hnd]. unfold collect_data at 1.
  destruct (mfind (de_path x) dm) as [v|] eqn:E.
  { apply mfind_elem_of in E; [|done]. destruct Hx. apply elem_of_app. right.
    apply list_elem_of_fmap. by exists (de_path x, v). }
  simpl. apply IH; [by apply mupdate_sorted|].
  rewrite (fmap_Permutation fst _ _ (minsert_new _ (x, n) _ E Hs)). simpl.
  rewrite <- Permutation_middle. by apply NoDup_cons.
Qed.

Lemma collect_delete_ok refs n ds pm :
  (∀ d, d ∈ ds → is_Some (mfind (pd_path d) refs)) → ∃ pm', fold_ok (collect_delete refs n) pm ds = Ok pm'.
Proof.
  revert pm. induction ds as [|d ds IH]; intros pm H; simpl; [eauto|]. unfold collect_delete at 1.
  destruct (H d ltac:(by left)) as [ref ->]. simpl. apply IH. intros. apply H. by right.
Qed.

Lemma collect_layers_ok refs n part dm pm :
  keys_sorted dm → NoDup ((de_path <$> flat_map l_data_entries_ part) ++ dm.*1) →
  (∀ l d, l ∈ part → d ∈ l_positional_delete_entries_ l → is_Some (mfind (pd_path d) refs)) →
  ∃ r, collect_layers refs n part dm pm = Ok r.
Proof.
  revert n dm pm. induction part as [|l part IH]; intros n dm pm Hs Hnd Hr; simpl; [eauto|].
  simpl in Hnd. rewrite fmap_app, <- app_assoc in Hnd.
  destruct (collect_data_ok n (l_data_entries_ l) dm) as [dm' Hd]; [done| |].
  { apply NoDup_app in Hnd as (H1 & H2 & H3). apply NoDup_app in H3 as (_ & H4 & H5).
    apply NoDup_app. split; [done|]. split; [|done]. intros y Hy Hin. apply (H2 y Hy). set_solver. }
  rewrite Hd. simpl. apply collect_data_fold in Hd as [Hs' Hp]; [|done].
  destruct (collect_delete_ok refs n (l_positional_delete_entries_ l) pm) as [pm' ->].
  { intros d. apply Hr. by left. }
  simpl. apply IH; [done| |]; [|intros; eapply Hr; [by right|done]].
  rewrite (fmap_Permutation fst _ _ Hp), fmap_app, <- list_fmap_compose.
  rewrite app_assoc, (Permutation_app_comm (de_path <$> flat_map _ _)), <- app_assoc. done.
Qed.

Lemma collect_layers_unique refs part dm pm :
  collect_layers refs 0 part [] [] = Ok (dm, pm) → unique_paths part.
Proof.
  intros (Hs & Hp & _)%collect_layers_spec; [|apply keys_sorted_nil..]. rewrite app_nil_r in Hp.
  unfold unique_paths. rewrite <- (numbered_data 0 part), <- Hp.
  assert (de_path <$> flat_map (λ kv : string * (DataEntry * nat), [kv.2.1]) dm = dm.*1) as ->.
  { assert (∀ kv, kv ∈ dm → de_path kv.2.1 = kv.1) as Hk.
    { intros [path [x i]] Hin. rewrite Hp in Hin. by apply elem_of_numbered in Hin as (? & ? & _ & _ & _ & ->). }
    clear -Hk. induction dm as [|kv dm IH]; simpl; [done|]. f_equal; [by apply Hk; left|].
    apply IH. intros. apply Hk. by right. }
  unfold keys_sorted in Hs. clear -Hs. induction dm.*1 as [|k ks IH]; [constructor|].
  apply SSorted_cons in Hs as [Hk Hs]. apply NoDup_cons. split; [|auto].
  intros Hin%Hk. by apply klt_irrefl in Hin.
Qed.

Lemma HandlePartitions_ok refs parts xs news :
  (∀ q l d, q ∈ parts → l ∈ q → d ∈ l_positional_delete_entries_ l → is_Some (mfind (pd_path d) refs)) →
  is_ok (fold_ok (HandlePartition refs) ([clean_layer xs] :: news) parts) = true ↔
  ∀ q, q ∈ parts → unique_paths q.
Proof.
  revert xs news. induction parts as [|q parts IH]; intros xs news Hr; simpl; [set_solver|].
  setoid_rewrite elem_of_cons. unfold HandlePartition at 1.
  destruct (collect_layers refs 0 q [] []) as [[dm pm]|e] eqn:E; simpl.
  - rewrite place_data_fold. rewrite IH; [|intros; eapply Hr; [by right|done..]].
    apply collect_layers_unique in E. naive_solver.
  - split; [done|]. intros H. destruct (collect_layers_ok refs 0 q [] []) as [r Hok].
    + apply keys_sorted_nil.
    + rewrite app_nil_r. apply H. by left.
    + intros l d. apply Hr. by left.
    + congruence.
Qed.

Lemma planner_GetResult_ok m sch es p :
  planner_of m sch es p → entry_ranges_valid es →
  is_ok (planner_GetResult sch p) = true ↔
  ∃ meta, GetResult sch (builder_ p) = Ok meta ∧
    (can_split_by_reference p = true → ∀ q, q ∈ partitions meta → unique_paths q).
Proof.
  intros Hof Hv. unfold planner_GetResult. destruct (GetResult sch (builder_ p)) as [meta|] eqn:Hm; simpl.
  2: { split; [done|]. by intros (? & ? & _). }
  destruct (can_split_by_reference p) eqn:Hsp; simpl; [|split; [by exists meta|done]].
  transitivity (∀ q, q ∈ partitions meta → unique_paths q); [|naive_solver].
  rewrite <- (HandlePartitions_ok (delete_file_path_to_referenced_data_file_path_ p) _ [] []).
  - unfold clean_layer, empty_plan_layer. by destruct (fold_ok _ _ _).
  - intros q l d Hq Hl Hd. pose proof (po_builder _ _ _ _ Hof) as Hb.
    destruct (plan_listed_pos m sch es _ meta Hb Hm Hv q l d Hq Hl Hd) as (ep & He & Hlive & Hp & <-).
    destruct (split_reference m sch es p Hof ep Hsp He Hlive Hp) as (ref & _ & E). by exists ref.
Qed.

(** ** Interleaved tasks

    [GetScanMetadataMultiThreaded] runs [AddEntry] of every entry on a thread
    pool; each call takes the planner's mutex for [note_entry], then the
    builder's mutex for the store.  A schedule is a sequence of these two kinds
    of critical sections, one of each per entry. *)

Inductive critical_section :=
| NoteStep (e : ManifestEntry)
| StoreStep (e : ManifestEntry).

Definition run_step (m : TableMetadataV2) (sch : Schema) (p : Planner) (c : critical_section) :
    result Planner :=
  match c with
  | NoteStep e => if bool_decide (status e = kDeleted) then Ok p else note_entry p e
  | StoreStep e => store_entry m sch p e
  end.

Definition notes (cs : list critical_section) : list ManifestEntry :=
  flat_map (λ c, match c with NoteStep e => [e] | StoreStep _ => [] end) cs.
Definition stores (cs : list critical_section) : list ManifestEntry :=
  flat_map (λ c, match c with StoreStep e => [e] | NoteStep _ => [] end) cs.

(** Each entry is noted once and stored once, in any order. *)
Definition schedule_of (es : list ManifestEntry) (cs : list critical_section) : Prop :=
  notes cs ≡ₚ es ∧ stores cs ≡ₚ es.

Lemma run_schedule m sch cs p :
  fold_ok (run_step m sch) empty_planner cs = Ok p →
  fold_ok (AddEntry m sch) empty_builder (stores cs) = Ok (builder_ p) ∧ noted (notes cs) p.
Proof.
  apply (fold_ok_inv_prefix (λ cs p,
    fold_ok (AddEntry m sch) empty_builder (stores cs) = Ok (builder_ p) ∧ noted (notes cs) p)).
  { split; [done|apply noted_empty]. }
  unfold notes, stores. intros q [e|e] st st' [Hb Hn] H; rewrite !flat_map_app; simpl in *.
  - rewrite app_nil_r. case_bool_decide as Hst.
    + injection H as <-. split; [done|by apply noted_dead].
    + rewrite (note_entry_builder _ _ _ H). split; [done|by eapply note_entry_noted].
  - rewrite app_nil_r. unfold store_entry in H. inv_ok. split.
    + rewrite fold_ok_app, Hb. simpl. by rewrite Ha.
    + eapply noted_ext; done.
Qed.

Lemma schedule_planner_of m sch es cs p :
  schedule_of es cs → fold_ok (run_step m sch) empty_planner cs = Ok p →
  stores cs ≡ₚ es ∧ planner_of m sch (stores cs) p.
Proof.
  intros [Hn Hs] [Hb Hnoted]%run_schedule. split; [done|]. split; [done|].
  eapply noted_perm; [|exact Hnoted]. by rewrite Hn, Hs.
Qed.

(** The rules depend on the set of entries only. *)
Lemma requires_pos_perm es es' ed ep : es ≡ₚ es' → requires_pos es ed ep ↔ requires_pos es' ed ep.
Proof. intros H. unfold requires_pos. by rewrite !H. Qed.
Lemma requires_eq_perm es es' ed ee : es ≡ₚ es' → requires_eq es ed ee ↔ requires_eq es' ed ee.
Proof. intros H. unfold requires_eq. by rewrite !H. Qed.
Lemma entry_ranges_valid_perm es es' : es ≡ₚ es' → entry_ranges_valid es → entry_ranges_valid es'.
Proof. intros H Hv e lo hi He. apply Hv. by rewrite H. Qed.
Lemma live_data_perm es es' : es ≡ₚ es' → flat_map live_data es ≡ₚ flat_map live_data es'.
Proof. intros H. induction H; simpl; [done|by f_equiv| |by etrans].
  rewrite !app_assoc. apply Permutation_app_tail, Permutation_app_comm. Qed.

(** The contract of a plan for a list of entries. *)
Record plan_ok (es : list ManifestEntry) (plan : ScanMetadata) : Prop := {
  ok_data : plan_paths plan ≡ₚ de_path <$> flat_map live_data es;
  ok_pos_complete : ∀ ed ep, requires_pos es ed ep → may_mention ep (file_path (data_file ed)) →
    ∃ q x, q ∈ partitions plan ∧ same_file (entry_data ed) x ∧
      plan_applies q x (positional_delete_ (entry_pos ep));
  ok_pos_sound : ∀ q x d, q ∈ partitions plan → plan_applies q x d →
    ∃ ed ep, requires_pos es ed ep ∧ same_file (entry_data ed) x ∧ positional_delete_ (entry_pos ep) = d;
  ok_eq_complete : ∀ ed ee, requires_eq es ed ee →
    ∃ q x, q ∈ partitions plan ∧ same_file (entry_data ed) x ∧ plan_applies_eq q x (entry_eq ee);
  ok_eq_sound : ∀ q x y, q ∈ partitions plan → plan_applies_eq q x y →
    ∃ ed ee, requires_eq es ed ee ∧ same_file (entry_data ed) x ∧ entry_eq ee = y;
}.

Lemma planner_of_plan_ok m sch es p plan :
  planner_of m sch es p → planner_GetResult sch p = Ok plan → entry_ranges_valid es → plan_ok es plan.
Proof.
  intros Hof Hres Hv. split; intros.
  - by eapply planner_data.
  - by eapply planner_pos_complete.
  - by eapply planner_pos_sound.
  - by eapply planner_eq_complete.
  - by eapply planner_eq_sound.
Qed.

Lemma plan_ok_perm es es' plan : es ≡ₚ es' → plan_ok es plan → plan_ok es' plan.
Proof.
  intros H [D PC PS EC ES]. split.
  - by rewrite D, (live_data_perm _ _ H).
  - intros ed ep. rewrite <- requires_pos_perm by done. apply PC.
  - intros q x d Hq Ha. destruct (PS q x d Hq Ha) as (ed & ep & Hr & ?). exists ed, ep.
    by rewrite <- requires_pos_perm by done.
  - intros ed ee. rewrite <- requires_eq_perm by done. apply EC.
  - intros q x y Hq Ha. destruct (ES q x y Hq Ha) as (ed & ee & Hr & ?). exists ed, ee.
    by rewrite <- requires_eq_perm by done.
Qed.

(** The contract with the rules on partition tuples. *)
Record plan_exact (es : list ManifestEntry) (plan : ScanMetadata) : Prop := {
  ex_data : plan_paths plan ≡ₚ de_path <$> flat_map live_data es;
  ex_pos_complete : ∀ ed ep, pos_rule es ed ep → may_mention ep (file_path (data_file ed)) →
    ∃ q x, q ∈ partitions plan ∧ same_file (entry_data ed) x ∧ plan_applies q x (positional_delete_ (entry_pos ep));
  ex_pos_sound : ∀ q x d, q ∈ partitions plan → plan_applies q x d →
    ∃ ed ep, pos_rule es ed ep ∧ same_file (entry_data ed) x ∧ positional_delete_ (entry_pos ep) = d;
  ex_eq_complete : ∀ ed ee, eq_rule es ed ee →
    ∃ q x, q ∈ partitions plan ∧ same_file (entry_data ed) x ∧ plan_applies_eq q x (entry_eq ee);
  ex_eq_sound : ∀ q x y, q ∈ partitions plan → plan_applies_eq q x y →
    ∃ ed ee, eq_rule es ed ee ∧ same_file (entry_data ed) x ∧ entry_eq ee = y;
}.

Lemma plan_ok_exact es plan :
  partitions_readable es → (∀ e, e ∈ es → live e = true → ∃ k, SerializePartitionTuple (tuple_of e) = Ok k) →
  plan_ok es plan → plan_exact es plan.
Proof.
  intros Hread Hkeys [D PC PS EC ES].
  pose proof (requires_pos_rule es Hread Hkeys) as Hp. pose proof (requires_eq_rule es Hread Hkeys) as He. split; [done|..].
  - intros ed ep Hr%Hp. by apply PC.
  - intros q x d Hq Ha. destruct (PS q x d Hq Ha) as (ed & ep & Hr%Hp & ?). by exists ed, ep.
  - intros ed ee Hr%He. by apply EC.
  - intros q x y Hq Ha. destruct (ES q x y Hq Ha) as (ed & ee & Hr%He & ?). by exists ed, ee.
Qed.

Lemma planner_of_plan_exact m sch es p plan :
  planner_of m sch es p → planner_GetResult sch p = Ok plan → entry_ranges_valid es → partitions_readable es → plan_exact es plan.
Proof.
  intros Hof Hres Hv Hread. apply plan_ok_exact; [done|by eapply added_serialized, Hof|by eapply planner_of_plan_ok].
Qed.


(** The planner returns a plan exactly when the builder does and, if it
    splits by referenced file, no partition lists a data file twice; the
    internal error for an unrecorded delete file cannot happen. *)
Theorem planner_result_total (m : TableMetadataV2) (sch : Schema) (es : list ManifestEntry) (p : Planner)
    (Hadd : fold_ok (planner_AddEntry m sch) empty_planner es = Ok p) (Hvalid : entry_ranges_valid es) :
  is_ok (planner_GetResult sch p) = true ↔
  ∃ meta, GetResult sch (builder_ p) = Ok meta ∧
    (can_split_by_reference p = true → ∀ q, q ∈ partitions meta → unique_paths q).
Proof. eapply planner_GetResult_ok; [by eapply planner_AddEntries_of|done]. Qed.

(** Every schedule of the multi-threaded planner that stores all entries
    gives a plan with the same contract. *)
Theorem planner_schedule_independent (m : TableMetadataV2) (sch : Schema) (es : list ManifestEntry)
    (cs : list critical_section) (p : Planner) (plan : ScanMetadata)
    (Hsched : schedule_of es cs)
    (Hrun : fold_ok (run_step m sch) empty_planner cs = Ok p)
    (Hres : planner_GetResult sch p = Ok plan) (Hvalid : entry_ranges_valid es) :
  plan_ok es plan.
Proof.
  destruct (schedule_planner_of _ _ _ _ _ Hsched Hrun) as [Hs Hof].
  eapply plan_ok_perm; [exact Hs|]. eapply planner_of_plan_ok; [done|done|].
  by eapply entry_ranges_valid_perm.
Qed.

(** ** A concrete scan: two data files, one with a delete file that names it *)
Module Example2.
Import Example1.

Definition pos_file (path ref : string) : DataFile :=
  {| content := kPositionDeletes; file_path := path; file_format := "PARQUET"; partition_tuple := day 10;
     record_count := 0; ScanTypes.file_size_in_bytes := 0; column_sizes := ∅; value_counts := ∅; null_value_counts := ∅;
     nan_value_counts := ∅; distinct_counts := ∅; ScanTypes.key_metadata := []; sort_order_id := None;
     lower_bounds := ∅; upper_bounds := ∅; split_offsets := []; equality_ids := [];
     referenced_data_file := Some ref; content_offset := None; content_size_in_bytes := None |}.
Definition pos_ref : ManifestEntry := entry kAdded 2 (pos_file "pa" "a").
Definition entries2 : list ManifestEntry := [data_a; pos_ref; gone; data_b].

(** Another order of the same critical sections. *)
Definition schedule2 : list critical_section :=
  [NoteStep data_b; NoteStep pos_ref; StoreStep pos_ref; NoteStep data_a; StoreStep data_b;
   NoteStep gone; StoreStep data_a; StoreStep gone].

Definition run_of (r : result Planner) : Planner := match r with Ok p => p | Err _ => empty_planner end.
Definition plan_of (r : result ScanMetadata) : ScanMetadata :=
  match r with Ok p => p | Err _ => {| schema := sch; partitions := [] |} end.
Definition planner2 : Planner := run_of (fold_ok (planner_AddEntry metadata sch) empty_planner entries2).
Definition plan2 : ScanMetadata := plan_of (planner_GetResult sch planner2).
Definition planner3 : Planner := run_of (fold_ok (run_step metadata sch) empty_planner schedule2).
Definition plan3 : ScanMetadata := plan_of (planner_GetResult sch planner3).

Lemma added2 : fold_ok (planner_AddEntry metadata sch) empty_planner entries2 = Ok planner2.
Proof. vm_compute. reflexivity. Qed.
Lemma result2 : planner_GetResult sch planner2 = Ok plan2.
Proof. vm_compute. reflexivity. Qed.
Lemma added3 : fold_ok (run_step metadata sch) empty_planner schedule2 = Ok planner3.
Proof. vm_compute. reflexivity. Qed.
Lemma result3 : planner_GetResult sch planner3 = Ok plan3.
Proof. vm_compute. reflexivity. Qed.

(** The file with deletes has its own partition, the other one is in the first. *)
Example plan2_shape :
  (λ q, (de_path <$> flat_map l_data_entries_ q, pd_path <$> flat_map l_positional_delete_entries_ q))
    <$> partitions plan2 = [(["b"], []); (["a"], ["pa"])].
Proof. vm_compute. reflexivity. Qed.

Lemma ranges2 : entry_ranges_valid entries2.
Proof.
  intros e lo hi He Hp Hr. unfold entries2 in He. repeat (apply elem_of_cons in He as [->|He]);
    try by apply elem_of_nil in He.
  all: vm_compute in Hr; discriminate Hr.
Qed.

Lemma readable2 : partitions_readable entries2.
Proof.
  exists [("d", Some (PrimitiveType kDate))]. intros e He _. unfold entries2 in He.
  repeat (apply elem_of_cons in He as [->|He]); try by apply elem_of_nil in He.
  all: right; split; [reflexivity|by apply day_readable].
Qed.
End Example2.

Import Example1 Example2.


Lemma planner_result_total_witness :
  is_ok (planner_GetResult sch planner2) = true ∧
  ∃ meta, GetResult sch (builder_ planner2) = Ok meta ∧ ∀ q, q ∈ partitions meta → unique_paths q.
Proof.
  split; [vm_compute; reflexivity|].
  destruct (proj1 (planner_result_total metadata sch entries2 planner2 added2 ranges2)) as (meta & Hm & Hu).
  - vm_compute. reflexivity.
  - exists meta. split; [exact Hm|]. apply Hu. vm_compute. reflexivity.
Defined.

Lemma planner_schedule_independent_witness : plan_ok entries2 plan3.
Proof.
  apply (planner_schedule_independent metadata sch entries2 schedule2 planner3 plan3).
  - split; unfold schedule2, notes, stores, entries2; simpl.
    + apply NoDup_Permutation; [| |set_solver].
      all: apply NoDup_ListNoDup; repeat constructor; simpl; intuition discriminate.
    + apply NoDup_Permutation; [| |set_solver].
      all: apply NoDup_ListNoDup; repeat constructor; simpl; intuition discriminate.
  - exact added3.
  - exact result3.
  - exact ranges2.
Defined.
