(* ===== verification/Stats.v ===== *)
(** * Stats: min/max statistics and the functions evaluated on them

    [iceberg/filter/stats_filter/stats.h] and [registry.cpp]: boolean
    statistics, the comparison and cast evaluators, the two tables of
    evaluators and [Registry::Evaluate].

    Integer overflow: [abs] of the least integer and the products and sums of
    the casts are taken at their C++ width with wrap-around. *)

From stdpp Require Import base list strings.
From Stdlib Require Import ZArith Lia.
From S2P Require Import Prelude OrderedMap FilterValue.

Local Open Scope Z_scope.

Record MinMaxStats (t : ValueType) := { st_min : phys t; st_max : phys t }.
Arguments st_min {t} _.
Arguments st_max {t} _.

Abbreviation BoolStats := (MinMaxStats VT.kBool).

Definition mk_bool (mn mx : bool) : BoolStats := {| st_min := mn : phys VT.kBool; st_max := mx |}.
Definition kBoolStatsTrue : BoolStats := mk_bool true true.
Definition kBoolStatsFalse : BoolStats := mk_bool false false.
Definition kBoolStatsUnknown : BoolStats := mk_bool false true.

(** [operator==] on boolean statistics. *)
Definition bool_stats_eqb (lhs rhs : BoolStats) : bool :=
  Bool.eqb (st_min lhs) (st_min rhs) && Bool.eqb (st_max lhs) (st_max rhs).

Definition stats_or (lhs rhs : BoolStats) : BoolStats :=
  if bool_stats_eqb lhs kBoolStatsTrue || bool_stats_eqb rhs kBoolStatsTrue then kBoolStatsTrue
  else if bool_stats_eqb lhs kBoolStatsFalse && bool_stats_eqb rhs kBoolStatsFalse then kBoolStatsFalse
  else kBoolStatsUnknown.

Definition stats_and (lhs rhs : BoolStats) : BoolStats :=
  if bool_stats_eqb lhs kBoolStatsTrue && bool_stats_eqb rhs kBoolStatsTrue then kBoolStatsTrue
  else if bool_stats_eqb lhs kBoolStatsFalse || bool_stats_eqb rhs kBoolStatsFalse then kBoolStatsFalse
  else kBoolStatsUnknown.

Definition stats_not (arg : BoolStats) : BoolStats := mk_bool (negb (st_max arg)) (negb (st_min arg)).

Record CountStats := { contains_null : bool; contains_non_null : bool }.

Definition OneValueToStats t (value : phys t) : MinMaxStats t := {| st_min := value; st_max := value |}.

Record GenericMinMaxStats := { mm_type : ValueType; mm_stats : MinMaxStats mm_type }.

Definition Make t (s : MinMaxStats t) : GenericMinMaxStats := {| mm_type := t; mm_stats := s |}.

(** [Get<t>]: [std::get] throws when another alternative is held. *)
Definition Get (t : ValueType) (g : GenericMinMaxStats) : result (MinMaxStats t) :=
  match decide (mm_type g = t) with
  | left e => Ok (eq_rect _ MinMaxStats (mm_stats g) _ e)
  | right _ => Err (Exn "std::bad_variant_access")
  end.

Record GenericStats := { min_max : GenericMinMaxStats; count_ : CountStats }.

(** The constructor without counts knows nothing about nulls. *)
Definition GenericStats_of (m : GenericMinMaxStats) : GenericStats :=
  {| min_max := m; count_ := {| contains_null := true; contains_non_null := true |} |}.

Definition GetValueType (s : GenericStats) : ValueType := mm_type (min_max s).

(** ** Comparisons *)

Definition comparator := ∀ t, phys t → phys t → bool.
Definition cmp_less : comparator := less.
Definition cmp_greater : comparator := λ t a b, less t b a.
Definition cmp_less_equal : comparator := less_equal.
Definition cmp_greater_equal : comparator := λ t a b, less_equal t b a.

(** The two nested loops over the corners, with their two flags. *)
Definition EvaluateMonotoneComparison (cmp : comparator) t (lhs rhs : MinMaxStats t) : BoolStats :=
  let '(everything_true, everything_false) :=
    foldl (λ '(tt_, ff) '(val1, val2), if cmp t val1 val2 then (tt_, false) else (false, ff))
      (true, true)
      [(st_min lhs, st_min rhs); (st_min lhs, st_max rhs); (st_max lhs, st_min rhs); (st_max lhs, st_max rhs)] in
  if everything_false then kBoolStatsFalse
  else if everything_true then kBoolStatsTrue
  else kBoolStatsUnknown.

Definition EvaluateLess := EvaluateMonotoneComparison cmp_less.
Definition EvaluateGreater := EvaluateMonotoneComparison cmp_greater.
Definition EvaluateLessThanOrEqualTo := EvaluateMonotoneComparison cmp_less_equal.
Definition EvaluateGreaterThanOrEqualTo := EvaluateMonotoneComparison cmp_greater_equal.
Definition EvaluateEqual t (lhs rhs : MinMaxStats t) : BoolStats :=
  stats_and (EvaluateMonotoneComparison cmp_less_equal t lhs rhs)
            (EvaluateMonotoneComparison cmp_greater_equal t lhs rhs).
Definition EvaluateNotEqual t (lhs rhs : MinMaxStats t) : BoolStats := stats_not (EvaluateEqual t lhs rhs).

Definition EvaluateBinary (arg_type : ValueType) (f : ∀ t, MinMaxStats t → MinMaxStats t → BoolStats)
    (lhs rhs : GenericStats) : result GenericStats :=
  if bool_decide (GetValueType lhs ≠ arg_type) then Err (StatusError "EvaluateBinary: incorrect lhs type")
  else if bool_decide (GetValueType rhs ≠ arg_type) then Err (StatusError "EvaluateBinary: incorrect rhs type")
  else
    let! l := Get arg_type (min_max lhs) in
    let! r := Get arg_type (min_max rhs) in
    Ok {| min_max := Make VT.kBool (f arg_type l r);
          count_ := {| contains_non_null := contains_non_null (count_ lhs) || contains_non_null (count_ rhs);
                       contains_null := contains_null (count_ lhs) || contains_null (count_ rhs) |} |}.

(** ** Casts *)

Definition kMicrosInDay : Z := 24 * 60 * 60 * 1000 * 1000.
Definition kMaxSupportedDate : Z := 1000000.
Definition kMaxSupportedTimestamp : Z := 1000000000000000000.

(** [abs] at [w] bits: the least integer has no absolute value and is returned. *)
Definition c_abs (w v : Z) : Z := wrap_s w (Z.abs v).

Definition EvaluateCastInt2Int4 (arg : MinMaxStats VT.kInt2) : MinMaxStats VT.kInt4 :=
  {| st_min := st_min arg : phys VT.kInt4; st_max := st_max arg |}.
Definition EvaluateCastInt2Int8 (arg : MinMaxStats VT.kInt2) : MinMaxStats VT.kInt8 :=
  {| st_min := st_min arg : phys VT.kInt8; st_max := st_max arg |}.
Definition EvaluateCastInt4Int8 (arg : MinMaxStats VT.kInt4) : MinMaxStats VT.kInt8 :=
  {| st_min := st_min arg : phys VT.kInt8; st_max := st_max arg |}.
Definition EvaluateCastFloat4Float8 (arg : MinMaxStats VT.kFloat4) : MinMaxStats VT.kFloat8 :=
  {| st_min := st_min arg : phys VT.kFloat8; st_max := st_max arg |}.

Definition EvaluateCastDateTimestamp (arg : MinMaxStats VT.kDate) : MinMaxStats VT.kTimestamp :=
  if (c_abs 32 (st_min arg) <=? kMaxSupportedDate) && (c_abs 32 (st_max arg) <=? kMaxSupportedDate) then
    {| st_min := wrap_s 64 (st_min arg * kMicrosInDay) : phys VT.kTimestamp;
       st_max := wrap_s 64 (st_max arg * kMicrosInDay) |}
  else {| st_min := int64_min : phys VT.kTimestamp; st_max := int64_max |}.

Definition EvaluateCastTimestamptzTimestamp (arg : MinMaxStats VT.kTimestamptz)
    (timestamp_to_timestamptz_shift_us : Z) : MinMaxStats VT.kTimestamp :=
  if (c_abs 64 (st_min arg) <=? kMaxSupportedTimestamp) && (c_abs 64 (st_max arg) <=? kMaxSupportedTimestamp)
     && (c_abs 64 timestamp_to_timestamptz_shift_us <=? kMaxSupportedTimestamp) then
    {| st_min := wrap_s 64 (st_min arg + timestamp_to_timestamptz_shift_us) : phys VT.kTimestamp;
       st_max := wrap_s 64 (st_max arg + timestamp_to_timestamptz_shift_us) |}
  else {| st_min := int64_min : phys VT.kTimestamp; st_max := int64_max |}.

Definition EvaluateIsNull (s : GenericStats) : result GenericStats :=
  let has_true := contains_null (count_ s) in
  let has_false := contains_non_null (count_ s) in
  Ok {| min_max := Make VT.kBool (mk_bool (negb has_false) has_true);
        count_ := {| contains_null := false; contains_non_null := true |} |}.

Definition EvaluateUnary (return_type arg_type : ValueType)
    (f : MinMaxStats arg_type → MinMaxStats return_type) (arg : GenericStats) : result GenericStats :=
  if bool_decide (GetValueType arg ≠ arg_type) then Err (StatusError "EvaluateUnary: incorrect arg type")
  else
    let! a := Get arg_type (min_max arg) in
    Ok {| min_max := Make return_type (f a); count_ := count_ arg |}.

(** ** The tables *)

Definition binary_evaluator := GenericStats → GenericStats → result GenericStats.
Definition unary_evaluator := GenericStats → result GenericStats.

Definition REGISTER_COMPARISON (t : ValueType) : list (FunctionID * ValueType * ValueType * binary_evaluator) :=
  [(kLessThan, t, t, EvaluateBinary t EvaluateLess);
   (kGreaterThan, t, t, EvaluateBinary t EvaluateGreater);
   (kLessThanOrEqualTo, t, t, EvaluateBinary t EvaluateLessThanOrEqualTo);
   (kGreaterThanOrEqualTo, t, t, EvaluateBinary t EvaluateGreaterThanOrEqualTo);
   (kEqual, t, t, EvaluateBinary t EvaluateEqual);
   (kNotEqual, t, t, EvaluateBinary t EvaluateNotEqual)].

Definition comparison_types : list ValueType :=
  [VT.kBool; VT.kFloat4; VT.kFloat8; VT.kInt2; VT.kInt4; VT.kInt8; VT.kDate; VT.kTime; VT.kTimestamp;
   VT.kTimestamptz; VT.kString].

Definition kBinaryEvaluators : list (FunctionID * ValueType * ValueType * binary_evaluator) :=
  flat_map REGISTER_COMPARISON comparison_types.

Definition all_types : list ValueType :=
  [VT.kBool; VT.kInt2; VT.kInt4; VT.kInt8; VT.kFloat4; VT.kFloat8; VT.kNumeric; VT.kString; VT.kDate;
   VT.kTimestamp; VT.kTimestamptz; VT.kTime; VT.kInterval].

Definition kUnaryEvaluators : list (FunctionID * ValueType * unary_evaluator) :=
  [(kCastInt4, VT.kInt2, EvaluateUnary VT.kInt4 VT.kInt2 EvaluateCastInt2Int4);
   (kCastInt8, VT.kInt2, EvaluateUnary VT.kInt8 VT.kInt2 EvaluateCastInt2Int8);
   (kCastInt8, VT.kInt4, EvaluateUnary VT.kInt8 VT.kInt4 EvaluateCastInt4Int8);
   (kCastFloat8, VT.kFloat4, EvaluateUnary VT.kFloat8 VT.kFloat4 EvaluateCastFloat4Float8)]
  ++ List.map (λ t, (kIsNull, t, EvaluateIsNull)) all_types.

Definition AreCastsBeforeInvokeAllowed (fid : FunctionID) : bool :=
  match fid with
  | kLessThan | kLessThanOrEqualTo | kGreaterThan | kGreaterThanOrEqualTo | kNotEqual | kEqual => true
  | _ => false
  end.

(** ** [Registry] *)

(** [std::set] equality of the argument types with a set. *)
Definition unique_types_are (types expected : list ValueType) : bool :=
  forallb (λ t, bool_decide (t ∈ expected)) types && forallb (λ t, bool_decide (t ∈ types)) expected.

(** The chain of [if]s on the set of argument types. *)
Inductive cast_kind := CastNone | CastInt4 | CastInt8 | CastFloat8 | CastTimestamp | CastUnsupported.

Definition classify (types : list ValueType) : cast_kind :=
  if existsb (λ t, unique_types_are types [t]) all_types then CastNone
  else if unique_types_are types [VT.kInt2; VT.kInt4] then CastInt4
  else if unique_types_are types [VT.kInt2; VT.kInt4; VT.kInt8]
       || unique_types_are types [VT.kInt4; VT.kInt8] || unique_types_are types [VT.kInt2; VT.kInt8] then CastInt8
  else if unique_types_are types [VT.kFloat4; VT.kFloat8] then CastFloat8
  else if unique_types_are types [VT.kTimestamp; VT.kTimestamptz]
       || unique_types_are types [VT.kTimestamp; VT.kDate]
       || unique_types_are types [VT.kTimestamptz; VT.kDate] then CastTimestamp
  else CastUnsupported.

(** The body of the loop each branch runs over the arguments. *)
Definition cast_arg (shift : option Z) (k : cast_kind) (arg : GenericStats) : result GenericStats :=
  let has t := bool_decide (GetValueType arg = t) in
  match k with
  | CastNone => Ok arg
  | CastInt4 => if has VT.kInt2 then EvaluateUnary VT.kInt4 VT.kInt2 EvaluateCastInt2Int4 arg else Ok arg
  | CastInt8 =>
      if has VT.kInt2 then EvaluateUnary VT.kInt8 VT.kInt2 EvaluateCastInt2Int8 arg
      else if has VT.kInt4 then EvaluateUnary VT.kInt8 VT.kInt4 EvaluateCastInt4Int8 arg
      else Ok arg
  | CastFloat8 =>
      if has VT.kFloat4 then EvaluateUnary VT.kFloat8 VT.kFloat4 EvaluateCastFloat4Float8 arg else Ok arg
  | CastTimestamp =>
      if has VT.kDate then EvaluateUnary VT.kTimestamp VT.kDate EvaluateCastDateTimestamp arg
      else if has VT.kTimestamptz then
        match shift with
        | None => Err (StatusError "unsupported cast from timestamptz to timestamp")
        | Some s =>
            EvaluateUnary VT.kTimestamp VT.kTimestamptz (λ a, EvaluateCastTimestamptzTimestamp a s) arg
        end
      else Ok arg
  | CastUnsupported => Err (StatusError "CastToSameTypeForComparison: unsupported cast")
  end.

Definition CastToSameTypeForComparison (timestamp_to_timestamptz_shift_us : option Z)
    (args : list GenericStats) : result (list GenericStats) :=
  map_ok (cast_arg timestamp_to_timestamptz_shift_us (classify (List.map GetValueType args))) args.

Fixpoint find_binary (fid : FunctionID) (lhs rhs : GenericStats)
    (table : list (FunctionID * ValueType * ValueType * binary_evaluator)) : result GenericStats :=
  match table with
  | [] => Err (StatusError "Evaluate: number of arguments = 2, unexpected function id")
  | (id, lhs_type, rhs_type, evaluator) :: table =>
      if bool_decide (id = fid) && bool_decide (GetValueType lhs = lhs_type)
         && bool_decide (GetValueType rhs = rhs_type)
      then evaluator lhs rhs else find_binary fid lhs rhs table
  end.

Fixpoint find_unary (fid : FunctionID) (arg : GenericStats)
    (table : list (FunctionID * ValueType * unary_evaluator)) : result GenericStats :=
  match table with
  | [] => Err (StatusError "Evaluate: number of arguments = 1, unexpected function id")
  | (id, arg_type, evaluator) :: table =>
      if bool_decide (id = fid) && bool_decide (GetValueType arg = arg_type)
      then evaluator arg else find_unary fid arg table
  end.

Definition Registry_Evaluate (shift : option Z) (fid : FunctionID) (args : list GenericStats) :
    result GenericStats :=
  match args with
  | [_; _] =>
      let! args := if AreCastsBeforeInvokeAllowed fid then CastToSameTypeForComparison shift args else Ok args in
      match args with
      | [lhs; rhs] => find_binary fid lhs rhs kBinaryEvaluators
      | _ => Err (Exn "std::out_of_range")
      end
  | [arg] => find_unary fid arg kUnaryEvaluators
  | _ => Err (StatusError "Evaluate: unexpected number of arguments")
  end.
