(* ===== verification/StatsFilter.v ===== *)
(** * StatsFilter: deciding from statistics whether rows can match

    [iceberg/filter/stats_filter/stats_filter.cpp]: the visitor that evaluates a
    filter on statistics and [StatsFilter::ApplyFilter], against the value of
    the filter on a row.  The logger is left out. *)

From stdpp Require Import base list strings.
From Stdlib Require Import ZArith Lia Eqdep_dec.
From S2P Require Import Prelude OrderedMap FilterValue Stats.

Local Open Scope Z_scope.

(** ** The visitor *)

(** [BoolStatsAggregator]. *)
Definition aggregator_init (use_or : bool) : BoolStats :=
  if use_or then kBoolStatsFalse else kBoolStatsTrue.

Definition Add (use_or : bool) (current new_value : BoolStats) : BoolStats * bool :=
  if use_or then
    let r := stats_or current new_value in (r, bool_stats_eqb r kBoolStatsTrue)
  else
    let r := stats_and current new_value in (r, bool_stats_eqb r kBoolStatsFalse).

Definition aggregator_result (current : BoolStats) : GenericStats :=
  GenericStats_of (Make VT.kBool current).

(** [IStatsGetter::GetStats]; an implementation can throw. *)
Definition stats_getter := string → ValueType → result (option GenericStats).

Section visitor.
Context (getter : stats_getter) (shift : option Z).

Definition bool_stats_of (s : GenericStats) : result BoolStats :=
  if bool_decide (GetValueType s ≠ VT.kBool) then Err (StatusError "expected bool stats")
  else Get VT.kBool (min_max s).

(** The loop of a scalar-over-array node. *)
Fixpoint array_loop (fid : FunctionID) (use_or : bool) (lhs_stats : GenericStats) t
    (elems : list (option (phys t))) (current : BoolStats) : result GenericStats :=
  match elems with
  | [] => Ok (aggregator_result current)
  | elem :: elems =>
      let! arg :=
        match elem with
        | None => Ok kBoolStatsUnknown
        | Some v =>
            let rhs_stats := {| min_max := Make t (OneValueToStats t v);
                                count_ := {| contains_null := false; contains_non_null := true |} |} in
            let! stats := Registry_Evaluate shift fid [lhs_stats; rhs_stats] in
            bool_stats_of stats
        end in
      let '(current, stop) := Add use_or current arg in
      if stop then Ok (aggregator_result current)
      else array_loop fid use_or lhs_stats t elems current
  end.

(** Comparable value types have [std::min] and [std::max]. *)
Definition phys_min t (a b : phys t) : phys t := if less t b a then b else a.
Definition phys_max t (a b : phys t) : phys t := if less t a b then b else a.

Definition merge_branches (then_res else_res : GenericStats) : result GenericStats :=
  if bool_decide (GetValueType then_res ≠ GetValueType else_res) then
    Err (StatusError "expected same value types for then_node and else_node")
  else
    let t := GetValueType then_res in
    if negb (comparable t) then Err (StatusError "comparison is not supported for type")
    else
      let! then_stats := Get t (min_max then_res) in
      let! else_stats := Get t (min_max else_res) in
      Ok (GenericStats_of (Make t {| st_min := phys_min t (st_min then_stats) (st_min else_stats);
                                     st_max := phys_max t (st_max then_stats) (st_max else_stats) |})).

(** The loop of a conjunction or disjunction. *)
Section logical_loop.
Context (visit : Node → result GenericStats) (use_or : bool).

Fixpoint logical_loop (arguments : list Node) (current : BoolStats) : result GenericStats :=
  match arguments with
  | [] => Ok (aggregator_result current)
  | arg :: arguments =>
      match visit arg with
      | Err (StatusError _) => logical_loop arguments (Add use_or current kBoolStatsUnknown).1
      | Err (Exn e) => Err (Exn e)
      | Ok evaluated_arg =>
          let! b := bool_stats_of evaluated_arg in
          let '(current, stop) := Add use_or current b in
          if stop then Ok (aggregator_result current) else logical_loop arguments current
      end
  end.
End logical_loop.

Fixpoint Visit (node : Node) : result GenericStats :=
  match node with
  | FunctionNode s arguments =>
      let! evaluated_arguments := map_ok Visit arguments in
      Registry_Evaluate shift (function_id s) evaluated_arguments
  | ConstNode value =>
      match v_value value with
      | None => Err (StatusError "ConstNode with null is not supported")
      | Some v =>
          Ok {| min_max := Make (v_type value) (OneValueToStats (v_type value) v);
                count_ := {| contains_null := false; contains_non_null := true |} |}
      end
  | VariableNode value_type column_name =>
      let! maybe_stats := getter column_name value_type in
      match maybe_stats with
      | Some s => Ok s
      | None => Err (StatusError "No stats found")
      end
  | ScalarOverArrayFunctionNode s use_or scalar array =>
      let! lhs_stats := Visit scalar in
      array_loop (function_id s) use_or lhs_stats (a_type array) (a_values array) (aggregator_init use_or)
  | IfNode condition then_node else_node =>
      let! evaluated_cond := Visit condition in
      let! stats := bool_stats_of evaluated_cond in
      if st_min stats then Visit then_node
      else if negb (st_max stats) then Visit else_node
      else
        let! then_res := Visit then_node in
        let! else_res := Visit else_node in
        merge_branches then_res else_res
  | LogicalNode kNot arguments =>
      match arguments with
      | [arg] =>
          let! evaluated_arg := Visit arg in
          let! b := bool_stats_of evaluated_arg in
          Ok {| min_max := Make VT.kBool (stats_not b); count_ := count_ evaluated_arg |}
      | _ => Err (StatusError "unexpected argument number for kNot function")
      end
  | LogicalNode kAnd arguments => logical_loop Visit false arguments (aggregator_init false)
  | LogicalNode kOr arguments => logical_loop Visit true arguments (aggregator_init true)
  end.
End visitor.

Inductive MatchedRows := kNone | kSome | kAll.

#[export] Instance MatchedRows_eq_dec : EqDecision MatchedRows.
Proof. solve_decision. Defined.

Definition Evaluate (shift : option Z) (root : option Node) (getter : stats_getter) : result GenericStats :=
  match root with
  | None => Err (StatusError "Evaluate expected non-empty expression")
  | Some node => Visit getter shift node
  end.

Definition ApplyFilter (shift : option Z) (root : option Node) (getter : stats_getter) : result MatchedRows :=
  match root with
  | None => Ok kSome
  | Some _ =>
      match Evaluate shift root getter with
      | Err (Exn e) => Err (Exn e)
      | Err (StatusError _) => Ok kSome
      | Ok s =>
          if bool_decide (GetValueType s ≠ VT.kBool) then Ok kSome
          else
            let! b := Get VT.kBool (min_max s) in
            Ok (if bool_stats_eqb b kBoolStatsFalse then kNone
                else if bool_stats_eqb b kBoolStatsTrue then kAll else kSome)
      end
  end.

(** ** The value of a filter on a row

    The reference: SQL's three-valued logic, comparisons at the wider type, and
    [CASE] that takes the else branch when its condition is null.  Functions
    the statistics cannot evaluate are the parameter [other]. *)
Section row.
Context (shift : option Z) (other : FunctionID → list Value → option Value).

(** What a column of the row holds when read at a type. *)
Definition row := string → ValueType → option Value.

Definition bool_value (o : option bool) : Value := {| v_type := VT.kBool; v_value := o : option (phys VT.kBool) |}.

Definition kleene_and (a b : option bool) : option bool :=
  match a, b with
  | Some false, _ | _, Some false => Some false
  | Some true, Some true => Some true
  | _, _ => None
  end.
Definition kleene_or (a b : option bool) : option bool :=
  match a, b with
  | Some true, _ | _, Some true => Some true
  | Some false, Some false => Some false
  | _, _ => None
  end.
Definition kleene (use_or : bool) := if use_or then kleene_or else kleene_and.
Definition kleene_unit (use_or : bool) : option bool := Some (negb use_or).

(** The type two operands are compared at. *)
Definition common_type (a b : ValueType) : option ValueType :=
  if bool_decide (a = b) then Some a
  else
    match a, b with
    | VT.kInt2, VT.kInt4 | VT.kInt4, VT.kInt2 => Some VT.kInt4
    | VT.kInt2, VT.kInt8 | VT.kInt8, VT.kInt2 | VT.kInt4, VT.kInt8 | VT.kInt8, VT.kInt4 => Some VT.kInt8
    | VT.kFloat4, VT.kFloat8 | VT.kFloat8, VT.kFloat4 => Some VT.kFloat8
    | VT.kTimestamp, VT.kTimestamptz | VT.kTimestamptz, VT.kTimestamp
    | VT.kTimestamp, VT.kDate | VT.kDate, VT.kTimestamp
    | VT.kTimestamptz, VT.kDate | VT.kDate, VT.kTimestamptz => Some VT.kTimestamp
    | _, _ => None
    end.

Definition cast_phys (from to : ValueType) : option (phys from → phys to) :=
  match from, to with
  | VT.kInt2, VT.kInt4 => Some (λ x : Z, x)
  | VT.kInt2, VT.kInt8 => Some (λ x : Z, x)
  | VT.kInt4, VT.kInt8 => Some (λ x : Z, x)
  | VT.kFloat4, VT.kFloat8 => Some (λ x : flt, x)
  | VT.kDate, VT.kTimestamp => Some (λ d : Z, wrap_s 64 (d * kMicrosInDay))
  | VT.kTimestamptz, VT.kTimestamp =>
      match shift with Some s => Some (λ x : Z, wrap_s 64 (x + s)) | None => None end
  | _, _ => None
  end.

Definition cast_value (to : ValueType) (v : Value) : option (option (phys to)) :=
  match decide (v_type v = to) with
  | left e => Some (eq_rect _ (λ t, option (phys t)) (v_value v) _ e)
  | right _ => match cast_phys (v_type v) to with Some f => Some (f <$> v_value v) | None => None end
  end.

Definition compare_fn (fid : FunctionID) : comparator :=
  match fid with
  | kLessThan => cmp_less
  | kGreaterThan => cmp_greater
  | kLessThanOrEqualTo => cmp_less_equal
  | kGreaterThanOrEqualTo => cmp_greater_equal
  | kEqual => λ t a b, less_equal t a b && less_equal t b a
  | _ => λ t a b, negb (less_equal t a b && less_equal t b a)
  end.

Definition compare_nullable (fid : FunctionID) t (a b : option (phys t)) : option bool :=
  match a, b with Some x, Some y => Some (compare_fn fid t x y) | _, _ => None end.

Definition eval_compare (fid : FunctionID) (a b : Value) : option Value :=
  match common_type (v_type a) (v_type b) with
  | None => other fid [a; b]
  | Some t =>
      match cast_value t a, cast_value t b with
      | Some x, Some y => Some (bool_value (compare_nullable fid t x y))
      | _, _ => other fid [a; b]
      end
  end.

Definition eval_cast (fid : FunctionID) (to : ValueType) (from : list ValueType) (a : Value) : option Value :=
  if bool_decide (v_type a ∈ from) then
    match cast_value to a with
    | Some x => Some {| v_type := to; v_value := x |}
    | None => other fid [a]
    end
  else other fid [a].

Definition eval_function (fid : FunctionID) (args : list Value) : option Value :=
  match args with
  | [a; b] => if AreCastsBeforeInvokeAllowed fid then eval_compare fid a b else other fid args
  | [a] =>
      match fid with
      | kIsNull => Some (bool_value (Some (IsNull a)))
      | kCastInt4 => eval_cast fid VT.kInt4 [VT.kInt2] a
      | kCastInt8 => eval_cast fid VT.kInt8 [VT.kInt2; VT.kInt4] a
      | kCastFloat8 => eval_cast fid VT.kFloat8 [VT.kFloat4] a
      | _ => other fid args
      end
  | _ => other fid args
  end.

Definition as_bool (v : Value) : option (option bool) := cast_value VT.kBool v.

(** Every argument must have a boolean value. *)
Section eval_bools.
Context (ev : Node → option Value) (use_or : bool).

Fixpoint eval_bools (l : list Node) : option (option bool) :=
  match l with
  | [] => Some (kleene_unit use_or)
  | n :: l =>
      match ev n ≫= as_bool, eval_bools l with
      | Some b, Some r => Some (kleene use_or b r)
      | _, _ => None
      end
  end.
End eval_bools.

(** The comparisons of a scalar with the elements of an array. *)
Fixpoint eval_array (fid : FunctionID) (use_or : bool) (x : Value) t (elems : list (option (phys t))) :
    option (option bool) :=
  match elems with
  | [] => Some (kleene_unit use_or)
  | e :: elems =>
      match eval_function fid [x; {| v_type := t; v_value := e |}] ≫= as_bool,
            eval_array fid use_or x t elems with
      | Some b, Some r => Some (kleene use_or b r)
      | _, _ => None
      end
  end.

Section eval_args.
Context (ev : Node → option Value).

Fixpoint eval_args (l : list Node) : option (list Value) :=
  match l with
  | [] => Some []
  | n :: l => match ev n, eval_args l with Some v, Some vs => Some (v :: vs) | _, _ => None end
  end.
End eval_args.

Context (r : row).

Fixpoint eval (n : Node) : option Value :=
  match n with
  | VariableNode t c => r c t
  | ConstNode v => Some v
  | IfNode c t e =>
      match eval c ≫= as_bool with
      | Some (Some true) => eval t
      | Some _ => eval e
      | None => None
      end
  | LogicalNode kNot args =>
      match args with
      | [a] => match eval a ≫= as_bool with
               | Some b => Some (bool_value (negb <$> b))
               | None => None
               end
      | _ => None
      end
  | LogicalNode kAnd args => bool_value <$> eval_bools eval false args
  | LogicalNode kOr args => bool_value <$> eval_bools eval true args
  | FunctionNode s args => eval_args eval args ≫= eval_function (function_id s)
  | ScalarOverArrayFunctionNode s use_or x a =>
      match eval x with
      | Some v => bool_value <$> eval_array (function_id s) use_or v (a_type a) (a_values a)
      | None => None
      end
  end.
End row.

(** ** Soundness of boolean statistics *)

(** [s] allows the boolean [b]. *)
Definition bool_in (s : BoolStats) (b : bool) : Prop :=
  less_equal VT.kBool (st_min s) b = true ∧ less_equal VT.kBool b (st_max s) = true.

Definition bool_in3 (s : BoolStats) (o : option bool) : Prop :=
  match o with Some b => bool_in s b | None => True end.

Ltac bool_cases :=
  repeat match goal with
  | s : BoolStats |- _ => destruct s as [[] []]
  | b : bool |- _ => destruct b
  | o : option bool |- _ => destruct o as [[]|]
  end;
  unfold bool_in3, bool_in in *; simpl in *; naive_solver.

Lemma stats_and_in a b p q : bool_in3 a p → bool_in3 b q → bool_in3 (stats_and a b) (kleene_and p q).
Proof. bool_cases. Qed.
Lemma stats_or_in a b p q : bool_in3 a p → bool_in3 b q → bool_in3 (stats_or a b) (kleene_or p q).
Proof. bool_cases. Qed.
Lemma stats_not_in a p : bool_in3 a p → bool_in3 (stats_not a) (negb <$> p).
Proof. bool_cases. Qed.
Lemma unknown_in p : bool_in3 kBoolStatsUnknown p.
Proof. bool_cases. Qed.

(** ** Soundness of comparisons *)

Lemma less_equal_convex_l t (x1 x2 x y : phys t) b :
  less_equal t x1 x = true → less_equal t x x2 = true →
  less_equal t x1 y = b → less_equal t x2 y = b → less_equal t x y = b.
Proof.
  intros H1 H2 E1 E2. destruct b; [by apply (less_equal_trans t x x2 y)|].
  apply not_true_iff_false. intros H. by rewrite (less_equal_trans t x1 x y) in E1.
Qed.

Lemma less_equal_convex_r t (x y1 y2 y : phys t) b :
  less_equal t y1 y = true → less_equal t y y2 = true →
  less_equal t x y1 = b → less_equal t x y2 = b → less_equal t x y = b.
Proof.
  intros H1 H2 E1 E2. destruct b; [by apply (less_equal_trans t x y1 y)|].
  apply not_true_iff_false. intros H. by rewrite (less_equal_trans t x y y2) in E2.
Qed.

(** A value inside an interval. *)
Definition in_stats t (s : MinMaxStats t) (x : phys t) : Prop :=
  less_equal t (st_min s) x = true ∧ less_equal t x (st_max s) = true.

Lemma in_stats_ordered t (s : MinMaxStats t) x :
  in_stats t s x → less_equal t (st_min s) (st_min s) = true ∧ less_equal t x x = true ∧
    less_equal t (st_max s) (st_max s) = true.
Proof. intros [H1 H2]. split_and!; eauto using less_equal_refl_l, less_equal_refl_r. Qed.

(** The usage assumptions stated at [EvaluateMonotoneComparison]. *)
Definition monotone (cmp : comparator) : Prop :=
  (∀ t (s : MinMaxStats t) x y b, in_stats t s x → less_equal t y y = true →
     cmp t (st_min s) y = b → cmp t (st_max s) y = b → cmp t x y = b) ∧
  (∀ t (s : MinMaxStats t) x y b, in_stats t s y → less_equal t x x = true →
     cmp t x (st_min s) = b → cmp t x (st_max s) = b → cmp t x y = b).

Lemma monotone_less_equal : monotone cmp_less_equal.
Proof.
  split; intros t s x y b [H1 H2] _ E1 E2.
  - exact (less_equal_convex_l t _ _ x y b H1 H2 E1 E2).
  - exact (less_equal_convex_r t x _ _ y b H1 H2 E1 E2).
Qed.

Lemma monotone_swap cmp : monotone cmp → monotone (λ t a b, cmp t b a).
Proof. intros [H1 H2]. split; intros; [by eapply H2|by eapply H1]. Qed.

Lemma monotone_negb cmp cmp' :
  monotone cmp →
  (∀ t (x y : phys t), less_equal t x x = true → less_equal t y y = true → cmp' t x y = negb (cmp t x y)) →
  monotone cmp'.
Proof.
  intros [M1 M2] Hn.
  assert (∀ a b, negb a = b → a = negb b) as Hs by by intros [] [].
  split; intros t s x y b Hin Hr; destruct (in_stats_ordered t s _ Hin) as (Ho & Hx & Hm);
    rewrite !Hn by done; intros E1%Hs E2%Hs; rewrite <- (negb_involutive b); f_equal;
    [by apply (M1 t s)|by apply (M2 t s)].
Qed.

Lemma monotone_less : monotone cmp_less.
Proof.
  apply (monotone_negb cmp_greater_equal); [by apply (monotone_swap _ monotone_less_equal)|].
  intros t x y. apply less_total.
Qed.

Lemma EvaluateMonotoneComparison_sound cmp t (l r : MinMaxStats t) x y :
  monotone cmp → in_stats t l x → in_stats t r y →
  bool_in (EvaluateMonotoneComparison cmp t l r) (cmp t x y).
Proof.
  intros [M1 M2] Hl Hr.
  destruct (in_stats_ordered t l x Hl) as (O1 & Ox & O2). destruct (in_stats_ordered t r y Hr) as (P1 & Py & P2).
  assert (∀ b, cmp t (st_min l) (st_min r) = b → cmp t (st_min l) (st_max r) = b →
    cmp t (st_max l) (st_min r) = b → cmp t (st_max l) (st_max r) = b → cmp t x y = b) as Hall.
  { intros b E1 E2 E3 E4. apply (M1 t l); [done|done|by apply (M2 t r)|by apply (M2 t r)]. }
  unfold EvaluateMonotoneComparison. simpl.
  destruct (cmp t (st_min l) (st_min r)) eqn:E1, (cmp t (st_min l) (st_max r)) eqn:E2,
    (cmp t (st_max l) (st_min r)) eqn:E3, (cmp t (st_max l) (st_max r)) eqn:E4; simpl;
    try (destruct (cmp t x y); split; reflexivity).
  - by rewrite (Hall true).
  - by rewrite (Hall false).
Qed.


(** ** Statistics of a value *)

Lemma Get_same t (s : MinMaxStats t) : Get t (Make t s) = Ok s.
Proof.
  unfold Get. simpl. destruct (decide (t = t)) as [e|]; [|done].
  by rewrite (UIP_dec (λ a b : ValueType, decide (a = b)) e eq_refl).
Qed.

Lemma Get_inv t g s : Get t g = Ok s → g = Make t s.
Proof.
  destruct g as [t' s']. unfold Get. simpl. destruct (decide (t' = t)) as [e|]; [|done].
  destruct e. simpl. by intros [= ->].
Qed.

Lemma cast_value_same shift t o : cast_value shift t {| v_type := t; v_value := o |} = Some o.
Proof.
  unfold cast_value. simpl. destruct (decide (t = t)) as [e|]; [|done].
  by rewrite (UIP_dec (λ a b : ValueType, decide (a = b)) e eq_refl).
Qed.

Definition mk_stats t (s : MinMaxStats t) (c : CountStats) : GenericStats :=
  {| min_max := Make t s; count_ := c |}.

Lemma EvaluateBinary_inv t f lhs rhs s :
  EvaluateBinary t f lhs rhs = Ok s →
  ∃ l r c1 c2, lhs = mk_stats t l c1 ∧ rhs = mk_stats t r c2 ∧
    s = mk_stats VT.kBool (f t l r)
          {| contains_non_null := contains_non_null c1 || contains_non_null c2;
             contains_null := contains_null c1 || contains_null c2 |}.
Proof.
  unfold EvaluateBinary. destruct (bool_decide _); [done|]. destruct (bool_decide _); [done|].
  intros H. inv_ok. apply Get_inv in Ha, Ha0. destruct lhs as [g1 c1], rhs as [g2 c2]. simpl in *. subst.
  by exists a, a0, c1, c2.
Qed.

Lemma EvaluateUnary_inv rt t f arg s :
  EvaluateUnary rt t f arg = Ok s → ∃ a c, arg = mk_stats t a c ∧ s = mk_stats rt (f a) c.
Proof.
  unfold EvaluateUnary. destruct (bool_decide _); [done|]. intros H. inv_ok. apply Get_inv in Ha.
  destruct arg as [g c]. simpl in *. subst. by exists a, c.
Qed.

(** Bounds that compare equal to themselves (no NaN), and on which [abs] is
    defined where a cast takes it. *)
Definition width_ok t : MinMaxStats t → Prop :=
  match t with
  | VT.kDate => λ s, int32_min < st_min s ∧ st_min s ≤ int32_max ∧ int32_min < st_max s ∧ st_max s ≤ int32_max
  | VT.kTimestamptz => λ s,
      int64_min < st_min s ∧ st_min s ≤ int64_max ∧ int64_min < st_max s ∧ st_max s ≤ int64_max
  | _ => λ _, True
  end.

Definition bounds_ok t (s : MinMaxStats t) : Prop :=
  width_ok t s ∧
  (comparable t = true → less_equal t (st_min s) (st_min s) = true ∧ less_equal t (st_max s) (st_max s) = true).

Definition stats_ok (s : GenericStats) : Prop := bounds_ok _ (mm_stats (min_max s)).

Definition covers_at t (s : MinMaxStats t) (c : CountStats) (o : option (phys t)) : Prop :=
  match o with
  | None => contains_null c = true
  | Some x => contains_non_null c = true ∧ (comparable t = true → in_stats t s x)
  end.

(** The statistics describe a set of rows that contains one with value [v]. *)
Definition covers (s : GenericStats) (v : Value) : Prop :=
  ∃ o, v = {| v_type := GetValueType s; v_value := o |} ∧ covers_at _ (mm_stats (min_max s)) (count_ s) o.

Lemma bounds_ok_bool (b : BoolStats) : bounds_ok VT.kBool b.
Proof. split; [done|]. intros _. by destruct b as [[] []]. Qed.

Lemma covers_bool b c o :
  bool_in3 b o → contains_null c = true → contains_non_null c = true →
  covers (mk_stats VT.kBool b c) (bool_value o).
Proof. intros Hb Hn Hnn. exists o. split; [done|]. by destruct o. Qed.

Lemma covers_mk t (s : MinMaxStats t) c v :
  covers (mk_stats t s c) v → ∃ o, v = {| v_type := t; v_value := o |} ∧ covers_at t s c o.
Proof. done. Qed.

Lemma covers_type s v : covers s v → v_type v = GetValueType s.
Proof. by intros (o & -> & _). Qed.

Lemma covers_mk_value t (s : MinMaxStats t) c o :
  covers (mk_stats t s c) {| v_type := t; v_value := o |} → covers_at t s c o.
Proof.
  intros (o' & E & Ho). simpl in *. injection E as E.
  apply inj_pair2_eq_dec in E as ->; [done|]. intros. apply ValueType_eq_dec.
Qed.

Definition sound_comparison (fid : FunctionID) (f : ∀ t, MinMaxStats t → MinMaxStats t → BoolStats) : Prop :=
  ∀ t l r x y, in_stats t l x → in_stats t r y → bool_in (f t l r) (compare_fn fid t x y).

Lemma EvaluateEqual_sound : sound_comparison kEqual EvaluateEqual.
Proof.
  intros t l r x y Hl Hr.
  pose proof (EvaluateMonotoneComparison_sound _ _ _ _ _ _ monotone_less_equal Hl Hr) as H1.
  pose proof (EvaluateMonotoneComparison_sound _ _ _ _ _ _ (monotone_swap _ monotone_less_equal) Hl Hr) as H2.
  pose proof (stats_and_in _ _ (Some _) (Some _) H1 H2) as H. unfold EvaluateEqual, compare_fn.
  unfold cmp_less_equal in H. simpl in H. destruct (less_equal t x y), (less_equal t y x); exact H.
Qed.

Lemma EvaluateNotEqual_sound : sound_comparison kNotEqual EvaluateNotEqual.
Proof.
  intros t l r x y Hl Hr. exact (stats_not_in _ (Some _) (EvaluateEqual_sound t l r x y Hl Hr)).
Qed.

(** Every entry of the table is a sound comparison at its type. *)
Lemma kBinaryEvaluators_sound fid lt rt ev :
  (fid, lt, rt, ev) ∈ kBinaryEvaluators →
  AreCastsBeforeInvokeAllowed fid = true ∧ comparable lt = true ∧
  ∃ f, ev = EvaluateBinary lt f ∧ sound_comparison fid f.
Proof.
  unfold kBinaryEvaluators. intros (t & Ht & Hin)%elem_of_flat_map. unfold REGISTER_COMPARISON in Hin.
  assert (comparable t = true) as Hct.
  { unfold comparison_types in Ht. repeat (apply elem_of_cons in Ht as [->|Ht]; [done|]). by apply elem_of_nil in Ht. }
  repeat (apply elem_of_cons in Hin as [[= -> -> -> ->]|Hin]); [..|by apply elem_of_nil in Hin];
    (split; [done|]; split; [done|]; eexists; split; [done|]).
  - intros t' l r x y. apply EvaluateMonotoneComparison_sound, monotone_less.
  - intros t' l r x y. apply EvaluateMonotoneComparison_sound, (monotone_swap _ monotone_less).
  - intros t' l r x y. apply EvaluateMonotoneComparison_sound, monotone_less_equal.
  - intros t' l r x y. apply EvaluateMonotoneComparison_sound, (monotone_swap _ monotone_less_equal).
  - apply EvaluateEqual_sound.
  - apply EvaluateNotEqual_sound.
Qed.

Lemma find_binary_inv fid lhs rhs table s :
  find_binary fid lhs rhs table = Ok s →
  ∃ ev, (fid, GetValueType lhs, GetValueType rhs, ev) ∈ table ∧ ev lhs rhs = Ok s.
Proof.
  induction table as [|[[[id lt] rt] ev] table IH]; simpl; [done|].
  case_bool_decide as H1; simpl; [case_bool_decide as H2; simpl; [case_bool_decide as H3; simpl|]|].
  1: intros H; subst; exists ev; split; [by left|done].
  all: intros (ev' & Hin & H)%IH; exists ev'; split; [by right|done].
Qed.

Lemma find_unary_inv fid arg table s :
  find_unary fid arg table = Ok s → ∃ ev, (fid, GetValueType arg, ev) ∈ table ∧ ev arg = Ok s.
Proof.
  induction table as [|[[id t] ev] table IH]; simpl; [done|].
  case_bool_decide as H1; simpl; [case_bool_decide as H2; simpl|].
  1: intros H; subst; exists ev; split; [by left|done].
  all: intros (ev' & Hin & H)%IH; exists ev'; split; [by right|done].
Qed.

Lemma compare_nullable_covers fid f t l r c1 c2 o1 o2 :
  comparable t = true → sound_comparison fid f → covers_at t l c1 o1 → covers_at t r c2 o2 →
  covers (mk_stats VT.kBool (f t l r)
            {| contains_non_null := contains_non_null c1 || contains_non_null c2;
               contains_null := contains_null c1 || contains_null c2 |})
         (bool_value (compare_nullable fid t o1 o2)).
Proof.
  intros Hct Hf H1 H2. exists (compare_nullable fid t o1 o2). split; [done|].
  destruct o1 as [x|], o2 as [y|]; simpl in *.
  - destruct H1 as [Hc Hx], H2 as [_ Hy]. rewrite Hc. split; [done|]. intros _. apply Hf; auto.
  - by rewrite H2, orb_true_r.
  - by rewrite H1.
  - by rewrite H1.
Qed.

(** ** Soundness of casts *)

Lemma less_equal_date (a b : Z) : less_equal VT.kDate a b = true ↔ a ≤ b.
Proof. unfold less_equal. simpl. unfold Z.le. by destruct (a ?= b). Qed.
Lemma less_equal_timestamp (a b : Z) : less_equal VT.kTimestamp a b = true ↔ a ≤ b.
Proof. apply less_equal_date. Qed.
Lemma less_equal_timestamptz (a b : Z) : less_equal VT.kTimestamptz a b = true ↔ a ≤ b.
Proof. apply less_equal_date. Qed.

Lemma c_abs_32 v : int32_min < v → v ≤ int32_max → c_abs 32 v = Z.abs v.
Proof. intros. apply wrap_s_32_id. unfold_ints. lia. Qed.
Lemma c_abs_64 v : int64_min < v → v ≤ int64_max → c_abs 64 v = Z.abs v.
Proof. intros. apply wrap_s_64_id. unfold_ints. lia. Qed.

Lemma EvaluateCastDateTimestamp_sound (a : MinMaxStats VT.kDate) (x : Z) :
  width_ok VT.kDate a → in_stats VT.kDate a x →
  in_stats VT.kTimestamp (EvaluateCastDateTimestamp a) (wrap_s 64 (x * kMicrosInDay)).
Proof.
  intros (B1 & B2 & B3 & B4) [H1 H2]. unfold in_stats. rewrite less_equal_date in H1, H2.
  rewrite !less_equal_timestamp. unfold EvaluateCastDateTimestamp. simpl in *.
  rewrite (c_abs_32 (st_min a)), (c_abs_32 (st_max a)) by done.
  destruct (_ && _) eqn:E; simpl.
  - apply andb_true_iff in E as [E1%Z.leb_le E2%Z.leb_le]. unfold kMaxSupportedDate, kMicrosInDay in *.
    rewrite !wrap_s_64_id by (unfold_ints; lia). lia.
  - pose proof (wrap_s_64_range (x * kMicrosInDay)). unfold in_i64 in *. lia.
Qed.

Lemma EvaluateCastTimestamptz_sound (a : MinMaxStats VT.kTimestamptz) (x shift : Z) :
  width_ok VT.kTimestamptz a → int64_min < shift ≤ int64_max → in_stats VT.kTimestamptz a x →
  in_stats VT.kTimestamp (EvaluateCastTimestamptzTimestamp a shift) (wrap_s 64 (x + shift)).
Proof.
  intros (B1 & B2 & B3 & B4) [B5 B6] [H1 H2]. unfold in_stats. rewrite less_equal_timestamptz in H1, H2.
  rewrite !less_equal_timestamp. unfold EvaluateCastTimestamptzTimestamp. simpl in *.
  rewrite (c_abs_64 (st_min a)), (c_abs_64 (st_max a)), (c_abs_64 shift) by done.
  destruct (_ && _) eqn:E; simpl.
  - apply andb_true_iff in E as [[E1%Z.leb_le E2%Z.leb_le]%andb_true_iff E3%Z.leb_le].
    unfold kMaxSupportedTimestamp in *. rewrite !wrap_s_64_id by (unfold_ints; lia). lia.
  - pose proof (wrap_s_64_range (x + shift)). unfold in_i64 in *. lia.
Qed.

Definition cast_target (k : cast_kind) : ValueType :=
  match k with
  | CastInt4 => VT.kInt4 | CastInt8 => VT.kInt8 | CastFloat8 => VT.kFloat8 | _ => VT.kTimestamp
  end.
Definition cast_sources (k : cast_kind) : list ValueType :=
  match k with
  | CastInt4 => [VT.kInt2; VT.kInt4]
  | CastInt8 => [VT.kInt2; VT.kInt4; VT.kInt8]
  | CastFloat8 => [VT.kFloat4; VT.kFloat8]
  | CastTimestamp => [VT.kTimestamp; VT.kTimestamptz; VT.kDate]
  | _ => []
  end.

(** The casts agree with the common type of the operands. *)
Lemma classify_common t1 t2 :
  match classify [t1; t2] with
  | CastNone => t1 = t2 ∧ common_type t1 t2 = Some t1
  | CastUnsupported => True
  | k => common_type t1 t2 = Some (cast_target k) ∧ In t1 (cast_sources k) ∧ In t2 (cast_sources k)
  end.
Proof. destruct t1, t2; vm_compute; intuition. Qed.

Definition shift_ok (shift : option Z) : Prop :=
  match shift with Some s => int64_min < s ≤ int64_max | None => True end.

Lemma covers_fmap t t' (f : phys t → phys t') s s' c o :
  comparable t = true → (∀ x, in_stats t s x → in_stats t' s' (f x)) → covers_at t s c o →
  covers (mk_stats t' s' c) {| v_type := t'; v_value := f <$> o |}.
Proof.
  intros Hc Hf Ho. exists (f <$> o). split; [done|].
  destruct o as [x|]; simpl in *; [|done]. destruct Ho. auto.
Qed.

Ltac cast_case H :=
  apply EvaluateUnary_inv in H as (a & c & -> & ->).

(** A widening keeps the bounds and the value. *)
Ltac widen Hc :=
  apply covers_mk in Hc as (o & -> & Ho); exists o; split; [by destruct o|];
  exists o; split; [done|]; by destruct o.

Lemma cast_arg_covers shift k s s' v :
  shift_ok shift → k ≠ CastNone → k ≠ CastUnsupported → In (GetValueType s) (cast_sources k) →
  cast_arg shift k s = Ok s' → stats_ok s → covers s v →
  ∃ o, cast_value shift (cast_target k) v = Some o ∧ covers s' {| v_type := cast_target k; v_value := o |}.
Proof.
  intros Hsh Hn Hu Hin H [Hok _] Hc.
  assert (∀ t, GetValueType s = t → s' = s → ∃ o, cast_value shift t v = Some o ∧
    covers s' {| v_type := t; v_value := o |}) as Hsame.
  { intros t <- ->. destruct Hc as (o & -> & Ho). exists o. split; [apply cast_value_same|]. by exists o. }
  destruct k; try done; simpl in Hin; unfold cast_arg in H; cbn [cast_target].
  - destruct Hin as [E|[E|[]]]; rewrite <- E in H; simpl in H; [|injection H as <-; by apply Hsame].
    cast_case H. widen Hc.
  - destruct Hin as [E|[E|[E|[]]]]; rewrite <- E in H; simpl in H; [| |injection H as <-; by apply Hsame].
    + cast_case H. widen Hc.
    + cast_case H. widen Hc.
  - destruct Hin as [E|[E|[]]]; rewrite <- E in H; simpl in H; [|injection H as <-; by apply Hsame].
    cast_case H. widen Hc.
  - destruct Hin as [E|[E|[E|[]]]]; rewrite <- E in H; simpl in H; [injection H as <-; by apply Hsame| |].
    + destruct shift as [sh|]; [|done]. cast_case H. apply covers_mk in Hc as (o & -> & Ho).
      eexists. split; [reflexivity|]. eapply (covers_fmap VT.kTimestamptz VT.kTimestamp); [done| |done].
      intros x Hx. by apply EvaluateCastTimestamptz_sound.
    + cast_case H. apply covers_mk in Hc as (o & -> & Ho).
      eexists. split; [reflexivity|]. eapply (covers_fmap VT.kDate VT.kTimestamp); [done| |done].
      intros x Hx. by apply EvaluateCastDateTimestamp_sound.
Qed.

(** ** Soundness of the registry *)

Lemma CastToSame_covers shift s1 s2 ss a b :
  shift_ok shift → stats_ok s1 → stats_ok s2 → covers s1 a → covers s2 b →
  CastToSameTypeForComparison shift [s1; s2] = Ok ss →
  ∃ s1' s2' t o1 o2, ss = [s1'; s2'] ∧ common_type (v_type a) (v_type b) = Some t ∧
    cast_value shift t a = Some o1 ∧ cast_value shift t b = Some o2 ∧
    covers s1' {| v_type := t; v_value := o1 |} ∧ covers s2' {| v_type := t; v_value := o2 |}.
Proof.
  intros Hsh O1 O2 H1 H2 H. unfold CastToSameTypeForComparison in H. simpl in H. inv_ok.
  assert (v_type a = GetValueType s1 ∧ v_type b = GetValueType s2) as [Ea Eb].
  { by rewrite (covers_type _ _ H1), (covers_type _ _ H2). }
  pose proof (classify_common (GetValueType s1) (GetValueType s2)) as Hcl. rewrite Ea, Eb.
  destruct (classify _) eqn:Ek.
  1: { simpl in *. repeat match goal with E : Ok _ = Ok _ |- _ => injection E as <- end.
       destruct Hcl as [Et Hct]. destruct H1 as (o1 & -> & C1).
       destruct s1 as [[t1 m1] c1], s2 as [[t2 m2] c2]. unfold GetValueType in Et. simpl in Et. subst t2.
       destruct H2 as (o2 & -> & C2). eexists _, _, _, o1, o2.
       split; [done|]. split; [exact Hct|]. unfold GetValueType. simpl.
       split; [apply cast_value_same|]. split; [apply cast_value_same|].
       split; (eexists; split; [reflexivity|done]). }
  5: done.
  all: destruct Hcl as (Hct & I1 & I2);
    eapply (cast_arg_covers shift) in Ha as (o1 & F1 & C1); [|done..];
    eapply (cast_arg_covers shift) in Ha1 as (o2 & F2 & C2); [|done..];
    by eexists _, _, _, o1, o2.
Qed.

Section soundness.
Context (shift : option Z) (other : FunctionID → list Value → option Value) (Hshift : shift_ok shift).

Lemma Registry_binary_sound fid s1 s2 s a b v :
  Registry_Evaluate shift fid [s1; s2] = Ok s → stats_ok s1 → stats_ok s2 → covers s1 a → covers s2 b →
  eval_function shift other fid [a; b] = Some v → covers s v.
Proof.
  intros H O1 O2 Ha Hb Hv. unfold Registry_Evaluate in H. unfold eval_function in Hv.
  destruct (AreCastsBeforeInvokeAllowed fid) eqn:Ecast; cbn [rbind] in H.
  2: { apply find_binary_inv in H as (ev & Hin & _).
       apply kBinaryEvaluators_sound in Hin as [Hin _]. congruence. }
  apply rbind_Ok_inv in H as (ss & Hcast & H).
  eapply CastToSame_covers in Hcast as (s1' & s2' & t & o1 & o2 & -> & Hct & E1 & E2 & C1 & C2); [|done..].
  unfold eval_compare in Hv. rewrite Hct, E1, E2 in Hv. injection Hv as <-.
  apply find_binary_inv in H as (ev & Hin & H).
  rewrite <- (covers_type _ _ C1), <- (covers_type _ _ C2) in Hin. simpl in Hin.
  apply kBinaryEvaluators_sound in Hin as (_ & Hcmp & f & -> & Hf).
  apply EvaluateBinary_inv in H as (l & r & c1 & c2 & -> & -> & ->).
  apply covers_mk_value in C1, C2. by apply compare_nullable_covers.
Qed.

Lemma EvaluateIsNull_sound s0 s a :
  EvaluateIsNull s0 = Ok s → covers s0 a → covers s (bool_value (Some (IsNull a))).
Proof.
  unfold EvaluateIsNull. intros [= <-] (o & -> & Ho). eexists. split; [done|].
  unfold IsNull. destruct o as [x|]; simpl in *.
  - destruct Ho as [-> _]. simpl. split; [done|]. intros _. split; [done|]. by destruct (contains_null _).
  - rewrite Ho. split; [done|]. intros _. split; [by destruct (contains_non_null _)|done].
Qed.

Lemma Registry_unary_sound fid s0 s a v :
  Registry_Evaluate shift fid [s0] = Ok s → covers s0 a →
  eval_function shift other fid [a] = Some v → covers s v.
Proof.
  intros H Ha Hv. unfold Registry_Evaluate in H. apply find_unary_inv in H as (ev & Hin & H).
  unfold kUnaryEvaluators in Hin. apply elem_of_app in Hin as [Hin|Hin].
  - repeat (apply elem_of_cons in Hin as [[= -> Et ->]|Hin]); [..|by apply elem_of_nil in Hin].
    all: apply EvaluateUnary_inv in H as (m & c & -> & ->); apply covers_mk in Ha as (o & -> & Ho);
      injection Hv as <-; exists o; split; [by destruct o|]; by destruct o.
  - change (List.map ?f all_types) with (f <$> all_types) in Hin.
    apply list_elem_of_fmap in Hin as (t & [= -> _ ->] & _). injection Hv as <-. by eapply EvaluateIsNull_sound.
Qed.

Lemma Registry_sound fid ss s vs v :
  Registry_Evaluate shift fid ss = Ok s → Forall stats_ok ss → Forall2 covers ss vs →
  eval_function shift other fid vs = Some v → covers s v.
Proof.
  intros H Hok Hc Hv. destruct Hc as [|s1 a ss vs H1 Hc]; [done|]. apply Forall_cons in Hok as [O1 Hok].
  destruct Hc as [|s2 b ss vs H2 Hc]; [by eapply Registry_unary_sound|]. apply Forall_cons in Hok as [O2 _].
  destruct Hc as [|]; [by eapply Registry_binary_sound|done].
Qed.
End soundness.

(** ** Soundness of the visitor *)

Lemma bool_stats_of_inv s b : bool_stats_of s = Ok b → ∃ c, s = mk_stats VT.kBool b c.
Proof.
  unfold bool_stats_of. destruct (bool_decide _); [done|]. intros H%Get_inv. destruct s as [g c].
  simpl in H. subst g. by exists c.
Qed.

Lemma covers_as_bool shift b c v o :
  covers (mk_stats VT.kBool b c) v → as_bool shift v = Some o → bool_in3 b o.
Proof.
  intros (o' & -> & Ho). unfold as_bool. rewrite cast_value_same. intros [= ->].
  destruct o as [x|]; [|done]. by apply Ho.
Qed.

Lemma Add_in use_or cur b p q :
  bool_in3 cur p → bool_in3 b q → bool_in3 (Add use_or cur b).1 (kleene use_or p q).
Proof. destruct use_or; [apply stats_or_in|apply stats_and_in]. Qed.

Lemma kleene_assoc use_or a b c : kleene use_or a (kleene use_or b c) = kleene use_or (kleene use_or a b) c.
Proof. by destruct use_or, a as [[]|], b as [[]|], c as [[]|]. Qed.

Lemma kleene_unit_r use_or a : kleene use_or a (kleene_unit use_or) = a.
Proof. by destruct use_or, a as [[]|]. Qed.
Lemma kleene_unit_l use_or a : kleene use_or (kleene_unit use_or) a = a.
Proof. by destruct use_or, a as [[]|]. Qed.

Lemma aggregator_init_in use_or : bool_in3 (aggregator_init use_or) (kleene_unit use_or).
Proof. by destruct use_or. Qed.

(** An aggregate that stops the loop is not changed by the other arguments. *)
Lemma stop_in use_or cur b a r :
  (Add use_or cur b).2 = true → bool_in3 (Add use_or cur b).1 a →
  bool_in3 (Add use_or cur b).1 (kleene use_or a r).
Proof.
  unfold Add. destruct use_or; simpl.
  - destruct (stats_or cur b) as [[] []]; try done. intros _. by destruct a as [[]|], r as [[]|].
  - destruct (stats_and cur b) as [[] []]; try done. intros _. by destruct a as [[]|], r as [[]|].
Qed.

Lemma covers_aggregate cur o : bool_in3 cur o → covers (aggregator_result cur) (bool_value o).
Proof. intros H. by apply covers_bool. Qed.

Section visitor_soundness.
Context (getter : stats_getter) (shift : option Z) (other : FunctionID → list Value → option Value)
        (r : row) (Hshift : shift_ok shift).

Lemma logical_loop_sound use_or args cur acc s b :
  Forall (λ n, ∀ sn v, Visit getter shift n = Ok sn → eval shift other r n = Some v → covers sn v) args →
  bool_in3 cur acc →
  logical_loop (Visit getter shift) use_or args cur = Ok s →
  eval_bools shift (eval shift other r) use_or args = Some b →
  covers s (bool_value (kleene use_or acc b)).
Proof.
  revert cur acc b. induction args as [|n args IH]; intros cur acc b Hall Hcur H Hb; simpl in H, Hb.
  { injection H as <-. injection Hb as <-. rewrite kleene_unit_r. by apply covers_aggregate. }
  apply Forall_cons in Hall as [Hn Hall].
  destruct (eval shift other r n) as [v|] eqn:En; simpl in Hb; [|done].
  destruct (as_bool shift v) as [bn|] eqn:Ebn; [|done].
  destruct (eval_bools _ _ _ _) as [br|] eqn:Ebr; [|done]. injection Hb as <-. rewrite kleene_assoc.
  destruct (Visit getter shift n) as [sn|[e|e]] eqn:Ev; [|done|].
  - apply rbind_Ok_inv in H as (bs & Hbs & H). apply bool_stats_of_inv in Hbs as (c & ->).
    assert (bool_in3 (Add use_or cur bs).1 (kleene use_or acc bn)) as Hadd.
    { apply Add_in; [done|]. eapply covers_as_bool; [|done]. by apply Hn. }
    pose proof (stop_in use_or cur bs (kleene use_or acc bn) br) as Hstop.
    destruct (Add use_or cur bs) as [cur' stop]. simpl in *. destruct stop; [|by eapply IH].
    injection H as <-. apply covers_aggregate. by apply Hstop.
  - eapply IH; [done| |done|done]. apply Add_in; [done|apply unknown_in].
Qed.

(** Elements of arrays and constants of filters are ordered values. *)
Definition value_ok t (x : phys t) : Prop := bounds_ok t (OneValueToStats t x).

Lemma OneValue_covers t (x : phys t) :
  value_ok t x →
  covers (mk_stats t (OneValueToStats t x) {| contains_null := false; contains_non_null := true |})
         {| v_type := t; v_value := Some x |}.
Proof.
  intros [_ Ho]. exists (Some x). split; [done|]. split; [done|]. intros Hc. split; apply (Ho Hc).
Qed.

Lemma array_loop_sound fid use_or lhs v t elems cur acc s b :
  stats_ok lhs → covers lhs v → Forall (λ e, match e with Some x => value_ok t x | None => True end) elems →
  bool_in3 cur acc →
  array_loop shift fid use_or lhs t elems cur = Ok s →
  eval_array shift other fid use_or v t elems = Some b →
  covers s (bool_value (kleene use_or acc b)).
Proof.
  intros Hlok Hl. revert cur acc b. induction elems as [|e elems IH]; intros cur acc b Hall Hcur H Hb;
    cbn [eval_array] in Hb.
  { injection H as <-. injection Hb as <-. rewrite kleene_unit_r. by apply covers_aggregate. }
  apply Forall_cons in Hall as [He Hall]. cbn [array_loop] in H.
  destruct (eval_function shift other fid _) as [w|] eqn:Ew; simpl in Hb; [|done].
  destruct (as_bool shift w) as [bn|] eqn:Ebn; [|done].
  destruct (eval_array shift other fid use_or v t elems) as [br|] eqn:Ebr; [|done]. injection Hb as <-. rewrite kleene_assoc.
  apply rbind_Ok_inv in H as (bs & Hbs & H).
  assert (bool_in3 bs bn) as Hbn.
  { destruct e as [x|]; [|injection Hbs as <-; apply unknown_in].
    apply rbind_Ok_inv in Hbs as (st & Hst & (c & ->)%bool_stats_of_inv).
    eapply covers_as_bool; [|exact Ebn]. eapply (Registry_sound shift other); [done|done| | |done].
    - apply Forall_cons. split; [done|]. apply Forall_cons. by split.
    - constructor; [done|]. constructor; [by apply OneValue_covers|constructor]. }
  pose proof (Add_in use_or cur bs acc bn Hcur Hbn) as Hadd.
  pose proof (stop_in use_or cur bs (kleene use_or acc bn) br) as Hstop.
  destruct (Add use_or cur bs) as [cur' stop]. simpl in *. destruct stop; [|by eapply IH].
  injection H as <-. apply covers_aggregate. by apply Hstop.
Qed.

Lemma phys_min_l t (a b x : phys t) : less_equal t a x = true → less_equal t (phys_min t a b) x = true.
Proof.
  intros H. unfold phys_min. destruct (less t b a) eqn:E; [|done].
  apply (less_equal_trans t b a x); [|done]. unfold less, less_equal in *.
  by destruct (phys_compare t b a) as [[]|].
Qed.
Lemma phys_min_r t (a b x : phys t) :
  less_equal t a a = true → less_equal t b x = true → less_equal t (phys_min t a b) x = true.
Proof.
  intros Ha H. unfold phys_min. destruct (less t b a) eqn:E; [done|].
  apply (less_equal_trans t a b x); [|done]. rewrite less_total in E; [|by eapply less_equal_refl_l|done].
  by apply negb_false_iff in E.
Qed.
Lemma phys_max_l t (a b x : phys t) : less_equal t x a = true → less_equal t x (phys_max t a b) = true.
Proof.
  intros H. unfold phys_max. destruct (less t a b) eqn:E; [|done].
  apply (less_equal_trans t x a b); [done|]. unfold less, less_equal in *.
  by destruct (phys_compare t a b) as [[]|].
Qed.
Lemma phys_max_r t (a b x : phys t) :
  less_equal t a a = true → less_equal t x b = true → less_equal t x (phys_max t a b) = true.
Proof.
  intros Ha H. unfold phys_max. destruct (less t a b) eqn:E; [done|].
  apply (less_equal_trans t x b a); [done|]. rewrite less_total in E; [|done|by eapply less_equal_refl_r].
  by apply negb_false_iff in E.
Qed.

Lemma merge_branches_inv s1 s2 s :
  merge_branches s1 s2 = Ok s →
  ∃ t m1 m2 c1 c2, comparable t = true ∧ s1 = mk_stats t m1 c1 ∧ s2 = mk_stats t m2 c2 ∧
    s = GenericStats_of (Make t {| st_min := phys_min t (st_min m1) (st_min m2);
                                   st_max := phys_max t (st_max m1) (st_max m2) |}).
Proof.
  unfold merge_branches. destruct (bool_decide _); [done|]. destruct (comparable _) eqn:Ec; simpl; [|done].
  intros H. apply rbind_Ok_inv in H as (m1 & H1%Get_inv & H). apply rbind_Ok_inv in H as (m2 & H2%Get_inv & H).
  injection H as <-. destruct s1 as [[t1 m1'] c1], s2 as [g2 c2]. simpl in *. subst g2.
  apply (f_equal (Get t1)) in H1. unfold GetValueType in *. simpl in *. rewrite !Get_same in H1.
  injection H1 as ->. by exists t1, m1, m2, c1, c2.
Qed.

Lemma merge_branches_sound s1 s2 s v :
  merge_branches s1 s2 = Ok s → stats_ok s1 → stats_ok s2 → covers s1 v ∨ covers s2 v → covers s v.
Proof.
  intros (t & m1 & m2 & c1 & c2 & Hc & -> & -> & ->)%merge_branches_inv [_ O1] [_ O2] H.
  destruct (O1 Hc) as [O1a O1b]. destruct H as [(o & -> & Ho)%covers_mk|(o & -> & Ho)%covers_mk];
    exists o; (split; [done|]); destruct o as [x|]; simpl in *; try done;
    destruct Ho as [_ Hx]; (split; [done|]); intros _; destruct (Hx Hc) as [H1 H2].
  - split; [by apply phys_min_l|by apply phys_max_l].
  - split; [by apply phys_min_r|by apply phys_max_r].
Qed.

(** A condition on every node of a filter. *)
Fixpoint all_nodes (P : Node → Prop) (n : Node) : Prop :=
  P n ∧
  match n with
  | VariableNode _ _ | ConstNode _ => True
  | IfNode c t e => all_nodes P c ∧ all_nodes P t ∧ all_nodes P e
  | LogicalNode _ args | FunctionNode _ args => fold_right (λ x acc, all_nodes P x ∧ acc) True args
  | ScalarOverArrayFunctionNode _ _ x _ => all_nodes P x
  end.

Lemma all_nodes_args P args :
  fold_right (λ x acc, all_nodes P x ∧ acc) True args ↔ Forall (all_nodes P) args.
Proof. induction args as [|x args IH]; simpl; [by rewrite Forall_nil|by rewrite Forall_cons, IH]. Qed.

Definition const_ok (n : Node) : Prop :=
  match n with
  | ConstNode v => match v_value v with Some x => value_ok _ x | None => True end
  | ScalarOverArrayFunctionNode _ _ _ a =>
      Forall (λ e, match e with Some x => value_ok (a_type a) x | None => True end) (a_values a)
  | _ => True
  end.

Definition cond_ok (n : Node) : Prop :=
  match n with IfNode c _ _ => eval shift other r c ≫= as_bool shift ≠ Some None | _ => True end.

Definition getter_ok : Prop := ∀ c t s, getter c t = Ok (Some s) → stats_ok s.

(** The statistics of a column describe the row. *)
Definition getter_covers : Prop := ∀ c t s v, getter c t = Ok (Some s) → r c t = Some v → covers s v.

Lemma Registry_stats_ok fid ss s :
  Registry_Evaluate shift fid ss = Ok s → Forall stats_ok ss → stats_ok s.
Proof.
  intros H Hok. destruct ss as [|s1 [|s2 [|]]]; try done; unfold Registry_Evaluate in H.
  - apply Forall_cons in Hok as [[_ Ho] _]. apply find_unary_inv in H as (ev & Hin & H).
    unfold kUnaryEvaluators in Hin. apply elem_of_app in Hin as [Hin|Hin].
    + repeat (apply elem_of_cons in Hin as [[= -> Et ->]|Hin]); [..|by apply elem_of_nil in Hin].
      all: apply EvaluateUnary_inv in H as (m & c & -> & ->); (split; [done|exact Ho]).
    + change (List.map ?f all_types) with (f <$> all_types) in Hin.
      apply list_elem_of_fmap in Hin as (t & [= -> _ ->] & _). unfold EvaluateIsNull in H.
      injection H as <-. apply bounds_ok_bool.
  - apply rbind_Ok_inv in H as (ss & _ & H). destruct ss as [|l [|r' [|]]]; try done.
    apply find_binary_inv in H as (ev & Hin & H).
    apply kBinaryEvaluators_sound in Hin as (_ & _ & f & -> & _).
    apply EvaluateBinary_inv in H as (? & ? & ? & ? & _ & _ & ->). apply bounds_ok_bool.
Qed.

Lemma aggregate_ok cur : stats_ok (aggregator_result cur).
Proof. apply bounds_ok_bool. Qed.

Lemma logical_loop_ok visit use_or args cur s : logical_loop visit use_or args cur = Ok s → stats_ok s.
Proof.
  revert cur. induction args as [|n args IH]; intros cur H; simpl in H.
  { injection H as <-. apply aggregate_ok. }
  destruct (visit n) as [sn|[e|e]]; [|done|by eapply IH].
  apply rbind_Ok_inv in H as (bs & _ & H). destruct (Add use_or cur bs) as [cur' []]; [|by eapply IH].
  injection H as <-. apply aggregate_ok.
Qed.

Lemma array_loop_ok fid use_or lhs t elems cur s :
  array_loop shift fid use_or lhs t elems cur = Ok s → stats_ok s.
Proof.
  revert cur. induction elems as [|e elems IH]; intros cur H; cbn [array_loop] in H.
  { injection H as <-. apply aggregate_ok. }
  apply rbind_Ok_inv in H as (bs & _ & H). destruct (Add use_or cur bs) as [cur' []]; [|by eapply IH].
  injection H as <-. apply aggregate_ok.
Qed.

Lemma map_ok_Forall {A B} (f : A → result B) (P : B → Prop) l l' :
  map_ok f l = Ok l' → Forall (λ x, ∀ y, f x = Ok y → P y) l → Forall P l'.
Proof.
  intros H%map_ok_Forall2 Hall. induction H as [|x y l l' Hxy _ IH]; [constructor|].
  apply Forall_cons in Hall as [Hx Hall]. constructor; auto.
Qed.

Lemma merge_branches_ok s1 s2 s : merge_branches s1 s2 = Ok s → stats_ok s1 → stats_ok s2 → stats_ok s.
Proof.
  intros (t & m1 & m2 & c1 & c2 & Hc & -> & -> & ->)%merge_branches_inv [W1 O1] [W2 O2].
  destruct (O1 Hc) as [A1 B1], (O2 Hc) as [A2 B2]. unfold stats_ok, bounds_ok, phys_min, phys_max. simpl.
  split.
  - destruct (less t (st_min m2) (st_min m1)), (less t (st_max m1) (st_max m2));
      destruct t; simpl in *; try done; naive_solver.
  - intros _. split; [by destruct (less t (st_min m2) (st_min m1))|by destruct (less t (st_max m1) (st_max m2))].
Qed.

Lemma Visit_stats_ok n s :
  getter_ok → all_nodes const_ok n → Visit getter shift n = Ok s → stats_ok s.
Proof.
  intros Hg. revert s. induction n as [t c|v|c t e IHc IHt IHe|o args IH|sg args IH|sg u x a IH]
    using Node_nested_ind; intros s [Hc Hsub] H; cbn [Visit] in H.
  - apply rbind_Ok_inv in H as ([st|] & Hst & H); [|done]. injection H as <-. by eapply Hg.
  - simpl in Hc. destruct (v_value v); [|done]. by injection H as <-.
  - destruct Hsub as (H1 & H2 & H3). apply rbind_Ok_inv in H as (sc & _ & H).
    apply rbind_Ok_inv in H as (b & _ & H). destruct (st_min b); [by apply IHt|].
    destruct (negb (st_max b)); [by apply IHe|]. inv_ok. eapply merge_branches_ok; [done|by apply IHt|by apply IHe].
  - rewrite all_nodes_args in Hsub. destruct o; [by eapply logical_loop_ok..|].
    destruct args as [|n [|]]; [done| |done]. inv_ok. apply bounds_ok_bool.
  - rewrite all_nodes_args in Hsub. inv_ok. eapply Registry_stats_ok; [done|].
    eapply map_ok_Forall; [done|]. apply Forall_forall. intros n Hn y.
    rewrite Forall_forall in IH, Hsub. by apply IH; [|apply Hsub].
  - apply rbind_Ok_inv in H as (sl & _ & H). by eapply array_loop_ok.
Qed.

Definition node_ok (n : Node) : Prop := const_ok n ∧ cond_ok n.

Lemma all_nodes_impl (P Q : Node → Prop) n : (∀ n, P n → Q n) → all_nodes P n → all_nodes Q n.
Proof.
  intros HPQ. induction n as [t c|v|c t e IHc IHt IHe|o args IH|sg args IH|sg u x a IH]
    using Node_nested_ind; simpl; intros [Hc Hsub]; (split; [by apply HPQ|]); try done.
  - naive_solver.
  - rewrite all_nodes_args in *. rewrite Forall_forall in *. auto.
  - rewrite all_nodes_args in *. rewrite Forall_forall in *. auto.
  - auto.
Qed.

Lemma eval_args_covers args ss vs :
  Forall (λ n, ∀ s v, Visit getter shift n = Ok s → eval shift other r n = Some v → covers s v) args →
  map_ok (Visit getter shift) args = Ok ss → eval_args (eval shift other r) args = Some vs →
  Forall2 covers ss vs.
Proof.
  revert ss vs. induction args as [|n args IH]; intros ss vs Hall H Hv; simpl in *.
  { injection H as <-. injection Hv as <-. constructor. }
  apply Forall_cons in Hall as [Hn Hall]. inv_ok.
  destruct (eval shift other r n) as [v|]; [|done]. destruct (eval_args _ args) as [vs'|]; [|done].
  injection Hv as <-. constructor; [by apply Hn|by apply IH].
Qed.

Lemma if_sound c t e s v :
  getter_ok → node_ok (IfNode c t e) → all_nodes const_ok t → all_nodes const_ok e →
  (∀ s v, Visit getter shift c = Ok s → eval shift other r c = Some v → covers s v) →
  (∀ s v, Visit getter shift t = Ok s → eval shift other r t = Some v → covers s v) →
  (∀ s v, Visit getter shift e = Ok s → eval shift other r e = Some v → covers s v) →
  Visit getter shift (IfNode c t e) = Ok s → eval shift other r (IfNode c t e) = Some v → covers s v.
Proof.
  intros Hg [_ Hcond] Ct Ce Hc Ht He H Hv. cbn [Visit] in H. cbn [eval] in Hv. unfold cond_ok in Hcond.
  apply rbind_Ok_inv in H as (sc & Hsc & H). apply rbind_Ok_inv in H as (b & (cnt & ->)%bool_stats_of_inv & H).
  destruct (eval shift other r c) as [vc|] eqn:Evc; simpl in Hv, Hcond; [|done].
  destruct (as_bool shift vc) as [[bc|]|] eqn:Ebc; [|done|done].
  pose proof (covers_as_bool shift b cnt vc (Some bc) (Hc _ _ Hsc eq_refl) Ebc) as Hin.
  destruct b as [[] mx]; simpl in H.
  - destruct bc; [by apply Ht|]. by destruct Hin.
  - destruct mx; simpl in H.
    + inv_ok. eapply merge_branches_sound; [done|by apply (Visit_stats_ok t)|by apply (Visit_stats_ok e)|].
      destruct bc; [left; by apply Ht|right; by apply He].
    + destruct bc; [by destruct Hin|by apply He].
Qed.

Lemma Visit_sound n s v :
  getter_ok → getter_covers → all_nodes node_ok n →
  Visit getter shift n = Ok s → eval shift other r n = Some v → covers s v.
Proof.
  intros Hg Hgc. revert s v. induction n as [t c|x|c t e IHc IHt IHe|o args IH|sg args IH|sg u x a IH]
    using Node_nested_ind; intros s v [Hok Hsub] H Hv.
  - cbn [Visit] in H. apply rbind_Ok_inv in H as ([st|] & Hst & H); [|done]. injection H as <-. by eapply Hgc.
  - cbn [Visit] in H. simpl in Hv. injection Hv as <-. destruct Hok as [Hx _]. simpl in Hx.
    destruct x as [t [x|]]; simpl in *; [|done]. injection H as <-. by apply OneValue_covers.
  - destruct Hsub as (H1 & H2 & H3).
    eapply if_sound; eauto; eapply all_nodes_impl; [|done| |done]; by intros ? [? _].
  - rewrite all_nodes_args in Hsub.
    assert (Forall (λ n, ∀ sn v, Visit getter shift n = Ok sn → eval shift other r n = Some v → covers sn v) args)
      as Hall by (rewrite Forall_forall in *; intros n Hn sn w; apply IH; auto).
    destruct o; cbn [Visit] in H; simpl in Hv.
    + apply fmap_Some in Hv as (b & Hb & ->). rewrite <- (kleene_unit_l false b).
      eapply logical_loop_sound; [done|apply aggregator_init_in|done|done].
    + apply fmap_Some in Hv as (b & Hb & ->). rewrite <- (kleene_unit_l true b).
      eapply logical_loop_sound; [done|apply aggregator_init_in|done|done].
    + destruct args as [|n [|]]; [done| |done]. apply Forall_cons in Hall as [Hn _].
      apply rbind_Ok_inv in H as (sn & Hsn & H). apply rbind_Ok_inv in H as (b & (cnt & ->)%bool_stats_of_inv & H).
      injection H as <-. destruct (eval shift other r n) as [vn|]; simpl in Hv; [|done].
      destruct (as_bool shift vn) as [bn|] eqn:Ebn; [|done]. injection Hv as <-.
      pose proof (Hn _ _ Hsn eq_refl) as Hcov. pose proof (covers_as_bool _ _ _ _ _ Hcov Ebn) as Hb.
      exists (negb <$> bn). split; [done|]. pose proof (stats_not_in b bn Hb) as Hnot.
      destruct Hcov as (o & -> & Ho). unfold as_bool in Ebn. rewrite cast_value_same in Ebn. injection Ebn as ->.
      destruct bn as [bb|]; simpl in *; [|done]. destruct Ho. by split.
  - rewrite all_nodes_args in Hsub. cbn [Visit] in H. apply rbind_Ok_inv in H as (ss & Hss & H).
    simpl in Hv. apply bind_Some in Hv as (vs & Hvs & Hv).
    eapply (Registry_sound shift other); [done|done| | |done].
    + eapply map_ok_Forall; [done|]. rewrite Forall_forall in *. intros n Hn y. apply Visit_stats_ok; [done|].
      eapply all_nodes_impl; [|by apply Hsub]. by intros ? [? _].
    + eapply eval_args_covers; [|done|done]. rewrite Forall_forall in *. intros n Hn sn w. apply IH; auto.
  - cbn [Visit] in H. apply rbind_Ok_inv in H as (sl & Hsl & H). simpl in Hv.
    destruct (eval shift other r x) as [vx|] eqn:Ex; [|done]. apply fmap_Some in Hv as (b & Hb & ->).
    rewrite <- (kleene_unit_l u b).
    eapply array_loop_sound; [|by eapply IH|apply Hok|apply aggregator_init_in|done|done].
    eapply Visit_stats_ok; [done| |done]. eapply all_nodes_impl; [|exact Hsub]. by intros ? [? _].
Qed.
End visitor_soundness.

Lemma ApplyFilter_inv shift n getter m :
  ApplyFilter shift (Some n) getter = Ok m → m ≠ kSome →
  ∃ b c, Visit getter shift n = Ok (mk_stats VT.kBool b c) ∧
    b = (if bool_decide (m = kNone) then kBoolStatsFalse else kBoolStatsTrue).
Proof.
  unfold ApplyFilter, Evaluate. destruct (Visit getter shift n) as [s|[e|e]]; [|done|by intros [= <-]].
  destruct (bool_decide _) eqn:Ed; [by intros [= <-]|]. intros H Hm.
  apply rbind_Ok_inv in H as (b & Hb%Get_inv & H). destruct s as [g c]. simpl in Hb. subst g.
  injection H as <-. exists b, c. split; [done|]. destruct b as [[] []]; simpl in *; done.
Qed.

(** What the statistics say of a filter holds of the rows they describe. *)
Lemma ApplyFilter_sound shift other getter r n m x :
  shift_ok shift → getter_ok getter → getter_covers getter r → all_nodes (node_ok shift other r) n →
  ApplyFilter shift (Some n) getter = Ok m → m ≠ kSome →
  eval shift other r n = Some (bool_value (Some x)) → x = bool_decide (m = kAll).
Proof.
  intros Hshift Hok Hcov Hn Hm Hne Hv. apply ApplyFilter_inv in Hm as (b & c & H & ->); [|done].
  pose proof (Visit_sound _ _ _ _ Hshift _ _ _ Hok Hcov Hn H Hv) as Hc.
  apply covers_mk_value in Hc as [_ Hc]. specialize (Hc eq_refl). by destruct m, x; try destruct Hc.
Qed.

(** C13: pruning by statistics is sound.  If the statistics describe a row (and
    have no NaN bounds) and the conditions of the filter's [if]s are not null
    on it, then a filter that the statistics reject ([kNone]) is not true on
    the row, and one they accept ([kAll]) is not false. *)
Theorem stats_filter_sound (shift : option Z) (other : FunctionID → list Value → option Value)
    (getter : stats_getter) (r : row) (n : Node)
    (Hshift : shift_ok shift) (Hok : getter_ok getter) (Hcov : getter_covers getter r)
    (Hn : all_nodes (node_ok shift other r) n) :
  (ApplyFilter shift (Some n) getter = Ok kNone → eval shift other r n ≠ Some (bool_value (Some true))) ∧
  (ApplyFilter shift (Some n) getter = Ok kAll → eval shift other r n ≠ Some (bool_value (Some false))).
Proof.
  split; intros Hm Hv; by pose proof (ApplyFilter_sound _ _ _ _ _ _ _ Hshift Hok Hcov Hn Hm ltac:(done) Hv).
Qed.

(** ** Rewriting comparisons with arrays *)

Section rewriting.
Context (getter : stats_getter) (shift : option Z) (other : FunctionID → list Value → option Value) (r : row).
Context (sg : FunctionSignature) (x : Node) (t : ValueType).

Definition compare_node (e : option (phys t)) : Node :=
  FunctionNode sg [x; ConstNode {| v_type := t; v_value := e |}].

Lemma eval_compare_nodes use_or v elems :
  eval shift other r x = Some v →
  eval_bools shift (eval shift other r) use_or (List.map compare_node elems)
  = eval_array shift other (function_id sg) use_or v t elems.
Proof.
  intros Hx. induction elems as [|e elems IH]; [done|].
  cbn [List.map eval_bools eval_array]. rewrite IH. cbn [compare_node eval eval_args]. by rewrite Hx.
Qed.

Definition absorbing (use_or : bool) : BoolStats := if use_or then kBoolStatsTrue else kBoolStatsFalse.

Lemma Add_stop use_or cur b : (Add use_or cur b).2 = bool_stats_eqb (Add use_or cur b).1 (absorbing use_or).
Proof. by destruct use_or. Qed.

Lemma Add_unknown use_or cur :
  bool_stats_eqb cur (absorbing use_or) = false → (Add use_or cur kBoolStatsUnknown).2 = false.
Proof. destruct use_or, cur as [[] []]; done. Qed.

Lemma visit_compare_nodes use_or lhs elems cur s :
  Visit getter shift x = Ok lhs → bool_stats_eqb cur (absorbing use_or) = false →
  array_loop shift (function_id sg) use_or lhs t elems cur = Ok s →
  logical_loop (Visit getter shift) use_or (List.map compare_node elems) cur = Ok s.
Proof.
  intros Hx. revert cur. induction elems as [|e elems IH]; intros cur Hcur H; [done|].
  cbn [List.map logical_loop]. cbn [array_loop] in H. cbn [compare_node Visit map_ok v_value].
  rewrite Hx. cbn [rbind]. destruct e as [v|]; cbn [rbind] in *.
  - cbn [v_type]. destruct (Registry_Evaluate _ _ _) as [st|]; cbn [rbind] in *; [|done].
    destruct (bool_stats_of st) as [b|]; cbn [rbind] in *; [|done].
    pose proof (Add_stop use_or cur b) as Hstop. destruct (Add use_or cur b) as [cur' stop]. simpl in Hstop.
    subst stop. destruct (bool_stats_eqb cur' _) eqn:E; [done|by apply IH].
  - pose proof (Add_unknown use_or cur Hcur) as Hns. pose proof (Add_stop use_or cur kBoolStatsUnknown) as Hstop.
    destruct (Add use_or cur kBoolStatsUnknown) as [cur' stop]. simpl in *. subst stop. by apply IH.
Qed.
End rewriting.

(** Rewriting a comparison of a scalar with an array into a conjunction or
    disjunction keeps the value of the filter on every row, and keeps its
    statistics whenever the array form has any. *)
Theorem scalar_over_array_rewrite (getter : stats_getter) (shift : option Z)
    (other : FunctionID → list Value → option Value) (r : row)
    (sg : FunctionSignature) (use_or : bool) (x : Node) (a : ArrayHolder) (n : Node)
    (Hn : make_ScalarOverArrayFunctionNode sg use_or x a = Ok n) :
  eval shift other r (ScalarOverArrayToLogical sg use_or x a) = eval shift other r n ∧
  ∀ s, Visit getter shift n = Ok s → Visit getter shift (ScalarOverArrayToLogical sg use_or x a) = Ok s.
Proof.
  unfold make_ScalarOverArrayFunctionNode in Hn. inv_ok. apply bool_decide_eq_true in Ha. unfold Size in Ha.
  destruct a as [t elems]. simpl in Ha. split.
  - unfold ScalarOverArrayToLogical. simpl. change (List.map _ elems) with (List.map (compare_node sg x t) elems).
    destruct (eval shift other r x) as [v|] eqn:Ex.
    + by destruct use_or; simpl; rewrite (eval_compare_nodes _ _ _ _ _ _ _ v).
    + destruct elems as [|e elems]; [simpl in Ha; lia|]. destruct use_or; simpl; by rewrite Ex.
  - intros s H. cbn [Visit] in H. apply rbind_Ok_inv in H as (lhs & Hx & H).
    assert (logical_loop (Visit getter shift) use_or (List.map (compare_node sg x t) elems)
              (aggregator_init use_or) = Ok s) as Hl.
    { by eapply visit_compare_nodes; [|destruct use_or|]. }
    unfold ScalarOverArrayToLogical. by destruct use_or.
Qed.

(** ** Concrete filters *)

Module FilterExample.
Definition x : Node := VariableNode VT.kInt4 "x".
Definition int4 (v : Z) : Value := {| v_type := VT.kInt4; v_value := Some v : option (phys VT.kInt4) |}.
Definition compare_sig (fid : FunctionID) : FunctionSignature :=
  {| function_id := fid; return_type := VT.kBool; argument_types := [VT.kInt4; VT.kInt4] |}.

(** Column [x] has values from 1 to 5 and nulls. *)
Definition x_stats : GenericStats :=
  mk_stats VT.kInt4 {| st_min := 1 : phys VT.kInt4; st_max := 5 |}
    {| contains_null := true; contains_non_null := true |}.
Definition getter : stats_getter := λ c t,
  Ok (if bool_decide (c = "x") && bool_decide (t = VT.kInt4) then Some x_stats else None).
Definition row_of (v : option Z) : row := λ c t,
  if bool_decide (c = "x") && bool_decide (t = VT.kInt4)
  then Some {| v_type := VT.kInt4; v_value := v : option (phys VT.kInt4) |} else None.

(** [x > 10] and [x IN (7, 8)]. *)
Definition greater_10 : Node := FunctionNode (compare_sig kGreaterThan) [x; ConstNode (int4 10)].
Definition in_7_8 : Node :=
  ScalarOverArrayFunctionNode (compare_sig kEqual) true x
    {| a_type := VT.kInt4; a_values := [Some 7; Some 8] : list (option (phys VT.kInt4)) |}.
(** [CASE WHEN x > 0 THEN false ELSE true END]. *)
Definition is_not_positive : Node :=
  IfNode (FunctionNode (compare_sig kGreaterThan) [x; ConstNode (int4 0)])
    (ConstNode (bool_value (Some false))) (ConstNode (bool_value (Some true))).

Definition no_other : FunctionID → list Value → option Value := λ _ _, None.

Lemma getter_is_ok : getter_ok getter.
Proof.
  intros c t s. unfold getter. destruct (_ && _); intros H; injection H as <- || discriminate H.
  split; [exact I|]. intros _. split; reflexivity.
Qed.

Lemma getter_is_covering v :
  match v with Some z => 1 ≤ z ≤ 5 | None => True end → getter_covers getter (row_of v).
Proof.
  intros Hv c t s w. unfold getter, row_of. destruct (_ && _); intros H1 H2; [|discriminate H1].
  injection H1 as <-. injection H2 as <-. exists v. split; [done|]. destruct v as [z|]; [|done].
  split; [done|]. intros _. split; apply (less_equal_date _ _); simpl; lia.
Qed.
End FilterExample.

Lemma stats_filter_sound_witness :
  ApplyFilter None (Some FilterExample.greater_10) FilterExample.getter = Ok kNone ∧
  eval None FilterExample.no_other (FilterExample.row_of (Some 3)) FilterExample.greater_10
    ≠ Some (bool_value (Some true)).
Proof.
  split; [vm_compute; reflexivity|].
  apply (stats_filter_sound None FilterExample.no_other FilterExample.getter (FilterExample.row_of (Some 3))).
  - exact I.
  - exact FilterExample.getter_is_ok.
  - apply FilterExample.getter_is_covering. lia.
  - repeat split; try exact I; intros _; split; reflexivity.
  - vm_compute. reflexivity.
Defined.

Lemma scalar_over_array_rewrite_witness :
  is_ok (make_ScalarOverArrayFunctionNode (FilterExample.compare_sig kEqual) true FilterExample.x
    {| a_type := VT.kInt4; a_values := [Some 7; Some 8] : list (option (phys VT.kInt4)) |}) = true ∧
  Visit FilterExample.getter None (ScalarOverArrayToLogical (FilterExample.compare_sig kEqual) true
    FilterExample.x {| a_type := VT.kInt4; a_values := [Some 7; Some 8] : list (option (phys VT.kInt4)) |})
  = Ok (aggregator_result kBoolStatsFalse).
Proof.
  split; [vm_compute; reflexivity|].
  refine (proj2 (scalar_over_array_rewrite FilterExample.getter None FilterExample.no_other
    (FilterExample.row_of None) _ _ _ _ FilterExample.in_7_8 _) _ _); vm_compute; reflexivity.
Defined.

(** The visitor takes only the then branch when the condition's
    statistics are always true, although the condition can be null and the
    else branch is taken then: statistics that describe a row can reject a
    filter that is true on it. *)
Theorem stats_filter_if_null_unsound :
  getter_ok FilterExample.getter ∧
  getter_covers FilterExample.getter (FilterExample.row_of None) ∧
  all_nodes const_ok FilterExample.is_not_positive ∧
  ApplyFilter None (Some FilterExample.is_not_positive) FilterExample.getter = Ok kNone ∧
  eval None FilterExample.no_other (FilterExample.row_of None) FilterExample.is_not_positive
    = Some (bool_value (Some true)).
Proof.
  split; [exact FilterExample.getter_is_ok|]. split; [by apply FilterExample.getter_is_covering|].
  split; [|split; vm_compute; reflexivity]. repeat split; try exact I; intros _; split; reflexivity.
Qed.
