(* ===== verification/StatsGetter.v ===== *)
(** * StatsGetter: statistics from the bounds stored in manifests

    [iceberg/manifest_entry_stats_getter.cpp]: decoding the single-value
    binary form of a bound, the table of supported conversions, and the
    statistics of a column of one data file. *)

From stdpp Require Import base list strings gmap.
From Stdlib Require Import ZArith Lia Ascii.
From Stdlib Require Strings.Byte.
From S2P Require Import Prelude OrderedMap Bytes Types ScanTypes FilterValue Stats StatsFilter.

Local Open Scope Z_scope.

(** [DeserializeWithMemcpy] of a signed integer of [n] bytes. *)
Definition memcpy_int (n : nat) (value : bytes) : option Z :=
  if bool_decide (length value = n) then Some (wrap_s (8 * Z.of_nat n) (le_decode value)) else None.

(** Of a [bool], stored in one byte. *)
Definition memcpy_bool (value : bytes) : option bool :=
  if bool_decide (length value = 1%nat) then Some (negb (bool_decide (le_decode value = 0))) else None.

(** [DeserializeValue<type_id, value_type>]: the specialisations, and
    [nullopt] from the primary template for every other pair (the ones for
    [float] and [double] are compiled out). *)
Definition DeserializeValue (type_id : TypeID) (value_type : ValueType) : bytes → option (phys value_type) :=
  match value_type with
  | VT.kBool => λ v, match type_id with kBoolean => memcpy_bool v | _ => None end
  | VT.kInt2 => λ v,
      match type_id with
      | kInt =>
          match memcpy_int 4 v with
          | Some int4 => if (int16_min <=? int4) && (int4 <=? int16_max) then Some int4 else None
          | None => None
          end
      | _ => None
      end
  | VT.kInt4 => λ v, match type_id with kInt => memcpy_int 4 v | _ => None end
  | VT.kInt8 => λ v, match type_id with kLong => memcpy_int 8 v | _ => None end
  | VT.kDate => λ v, match type_id with kDate => memcpy_int 4 v | _ => None end
  | VT.kTime => λ v, match type_id with kTime => memcpy_int 8 v | _ => None end
  | VT.kTimestamp => λ v, match type_id with kTimestamp => memcpy_int 8 v | _ => None end
  | VT.kTimestamptz => λ v, match type_id with kTimestamptz => memcpy_int 8 v | _ => None end
  | VT.kString => λ v, match type_id with kString => Some (string_of_bytes v) | _ => None end
  | VT.kFloat4 | VT.kFloat8 | VT.kNumeric | VT.kInterval => λ _, None
  end.

Definition GenericStatsFromTypedStats (type_id : TypeID) (value_type : ValueType) (min max : bytes) :
    option GenericMinMaxStats :=
  match DeserializeValue type_id value_type min, DeserializeValue type_id value_type max with
  | Some min_value, Some max_value => Some (Make value_type {| st_min := min_value; st_max := max_value |})
  | _, _ => None
  end.

Definition kConversions : list (TypeID * ValueType) :=
  [(kBoolean, VT.kBool); (kInt, VT.kInt2); (kInt, VT.kInt4); (kLong, VT.kInt8); (kFloat, VT.kFloat4);
   (kDouble, VT.kFloat8); (kString, VT.kString); (kTime, VT.kTime); (kTimestamp, VT.kTimestamp);
   (kTimestamptz, VT.kTimestamptz); (kDate, VT.kDate)].

Definition TypesToStatsConverter (ice_type : TypeID) (value_type : ValueType) :
    option (bytes → bytes → option GenericMinMaxStats) :=
  match List.find (λ c, bool_decide (c.1 = ice_type) && bool_decide (c.2 = value_type)) kConversions with
  | Some (t, v) => Some (GenericStatsFromTypedStats t v)
  | None => None
  end.

(** [absl::AsciiStrToLower]. *)
Definition ascii_tolower (c : ascii) : ascii :=
  let n := N_of_ascii c in
  if (65 <=? n)%N && (n <=? 90)%N then ascii_of_N (n + 32) else c.
Fixpoint AsciiStrToLower (s : string) : string :=
  match s with EmptyString => EmptyString | String c s => String (ascii_tolower c) (AsciiStrToLower s) end.

(** [ManifestEntryStatsGetter::GetStats]. *)
Definition ManifestEntryStatsGetter (entry : ManifestEntry) (schema : Schema) : stats_getter :=
  λ column_name value_type,
    match List.find (λ col, bool_decide (AsciiStrToLower (nf_name col) = AsciiStrToLower column_name))
            (Columns schema) with
    | None => Ok None
    | Some field =>
        match upper_bounds (data_file entry) !! nf_field_id field,
              lower_bounds (data_file entry) !! nf_field_id field with
        | Some max_bytes, Some min_bytes =>
            match TypesToStatsConverter (TypeId (nf_type field)) value_type with
            | None => Ok None
            | Some conversion => Ok (GenericStats_of <$> conversion min_bytes max_bytes)
            end
        | _, _ => Ok None
        end
    end.

(** ** Theorems *)

(** The single-value serialization of the table format: little-endian
    two's complement integers, one byte for booleans, bytes for strings. *)
Definition SerializeBound (type_id : TypeID) (value_type : ValueType) : phys value_type → bytes :=
  match value_type with
  | VT.kBool => λ b, [if b : bool then Byte.x01 else Byte.x00]
  | VT.kInt2 | VT.kInt4 => λ v, le_encode 4 v
  | VT.kDate => λ v, le_encode 4 v
  | VT.kInt8 | VT.kTime | VT.kTimestamp | VT.kTimestamptz => λ v, le_encode 8 v
  | VT.kString => λ s, bytes_of_string s
  | _ => λ _, []
  end.

Definition in_width (t : ValueType) : phys t → Prop :=
  match t with
  | VT.kInt2 => in_i16
  | VT.kInt4 | VT.kDate => in_i32
  | VT.kInt8 | VT.kTime | VT.kTimestamp | VT.kTimestamptz => in_i64
  | _ => λ _, True
  end.

Lemma memcpy_int_encode n v :
  wrap_s (8 * Z.of_nat n) v = v → memcpy_int n (le_encode n v) = Some v.
Proof.
  intros Hv. unfold memcpy_int. rewrite bool_decide_true by apply le_encode_length. f_equal.
  rewrite le_decode_encode. rewrite <- Hv at 2. unfold wrap_s.
  replace (256 ^ Z.of_nat n) with (2 ^ (8 * Z.of_nat n)) by (rewrite Z.pow_mul_r by lia; done).
  rewrite Z.mod_mod; [done|]. apply Z.pow_nonzero; lia.
Qed.

Lemma memcpy_int_range n value v : (0 < n)%nat → memcpy_int n value = Some v → wrap_s (8 * Z.of_nat n) v = v.
Proof.
  intros Hn. unfold memcpy_int. case_bool_decide; [|done]. intros [= <-]. unfold wrap_s.
  assert (2 ^ (8 * Z.of_nat n) = 2 * (2 ^ (8 * Z.of_nat n) / 2)) as Hw.
  { assert (2 ^ (8 * Z.of_nat n) = 2 * 2 ^ (8 * Z.of_nat n - 1)) as E.
    { rewrite <- Z.pow_succ_r by lia. f_equal. lia. }
    rewrite E, (Z.mul_comm 2 (2 ^ _)), Z.div_mul by lia. lia. }
  set (m := 2 ^ (8 * Z.of_nat n)) in *. assert (0 < m) by (apply Z.pow_pos_nonneg; lia).
  pose proof (Z.mod_pos_bound (le_decode value) m). set (q := le_decode value mod m) in *.
  destruct (q <? m / 2) eqn:E.
  - rewrite (Z.mod_small q) by lia. by rewrite E.
  - replace ((q - m) mod m) with q; [by rewrite E|]. rewrite <- (Z.mod_small q m) at 1 by lia.
    replace q with ((q - m) + 1 * m) at 1 by lia. rewrite Z.mod_add by lia. done.
Qed.

(** Reading back a bound that was written in the table format's
    single-value form gives the value, for every supported pair of types and
    every value in the range of the type. *)
Theorem deserialize_bound_roundtrip (type_id : TypeID) (value_type : ValueType) (v : phys value_type)
    (Hpair : (type_id, value_type) ∈ kConversions)
    (Hfloat : value_type ≠ VT.kFloat4 ∧ value_type ≠ VT.kFloat8) (Hw : in_width value_type v) :
  DeserializeValue type_id value_type (SerializeBound type_id value_type v) = Some v.
Proof.
  destruct Hfloat as [Hf4 Hf8]. unfold kConversions in Hpair.
  repeat (apply elem_of_cons in Hpair as [[= -> ->]|Hpair]); try done; [..|by apply elem_of_nil in Hpair].
  - by destruct v.
  - unfold DeserializeValue, SerializeBound. simpl in Hw.
    rewrite memcpy_int_encode by (apply wrap_s_32_id; unfold_ints; lia). unfold in_i16 in Hw. destruct Hw as [H1%Z.leb_le H2%Z.leb_le]. by rewrite H1, H2.
  - by apply memcpy_int_encode, wrap_s_32_id.
  - by apply memcpy_int_encode, wrap_s_64_id.
  - unfold DeserializeValue, SerializeBound, string_of_bytes, bytes_of_string. by rewrite String.string_of_list_byte_of_string.
  - by apply memcpy_int_encode, wrap_s_64_id.
  - by apply memcpy_int_encode, wrap_s_64_id.
  - by apply memcpy_int_encode, wrap_s_64_id.
  - by apply memcpy_int_encode, wrap_s_32_id.
Qed.

Lemma deserialize_bound_roundtrip_witness :
  DeserializeValue kDate VT.kDate (le_encode 4 (-19000)) = Some (-19000).
Proof.
  apply (deserialize_bound_roundtrip kDate VT.kDate (-19000)).
  - unfold kConversions. do 10 right. left.
  - split; discriminate.
  - simpl. unfold_ints. lia.
Defined.
