(* ===== verification/ParquetStats.v ===== *)
(** * ParquetStats: skipping row groups by their statistics

    [ParquetStatsGetter] of [iceberg/streams/iceberg/parquet_stats_getter.cpp],
    which turns the statistics of a column chunk into those the statistics
    filter works on, and [RowGroupFilter] of
    [iceberg/streams/iceberg/row_group_filter_impl.h], which skips a row group
    when the filter rejects its statistics. *)

From stdpp Require Import base list strings gmap.
From Stdlib Require Import ZArith Lia.
From S2P Require Import Prelude OrderedMap FilterValue Parquet Stats StatsFilter.

Local Open Scope Z_scope.

(** ** ParquetStatsGetter *)

Definition ValdateLogicalType (value_type : ValueType) (type : LogicalType) : bool :=
  match value_type with
  | VT.kBool | VT.kFloat4 | VT.kFloat8 => match type with NoneLogical => true | _ => false end
  | VT.kInt2 =>
      match type with
      | NoneLogical => true
      | IntLogical bit_width is_signed => is_signed && (bit_width =? 16)
      | _ => false
      end
  | VT.kInt4 =>
      match type with
      | NoneLogical => true
      | IntLogical bit_width is_signed => is_signed && ((bit_width =? 16) || (bit_width =? 32))
      | _ => false
      end
  | VT.kInt8 =>
      match type with
      | NoneLogical => true
      | IntLogical bit_width is_signed => is_signed && (bit_width =? 64)
      | _ => false
      end
  | VT.kString => match type with StringLogical => true | _ => false end
  | VT.kDate => match type with DateLogical => true | _ => false end
  | VT.kTime =>
      match type with TimeLogical utc unit => negb utc && bool_decide (unit = MICROS) | _ => false end
  | VT.kTimestamp =>
      match type with TimestampLogical utc unit => negb utc && bool_decide (unit = MICROS) | _ => false end
  | VT.kTimestamptz =>
      match type with TimestampLogical utc unit => utc && bool_decide (unit = MICROS) | _ => false end
  | VT.kNumeric | VT.kInterval => false
  end.

(** [kConversions]: the pairs, and the conversion of a bound that the call of
    [GenericMinMaxStats::Make<value_type>] makes (an [int32_t] is narrowed to
    [int16_t]). *)
Definition bound_conversion (p : PhysicalType) (t : ValueType) : option (physical p → phys t) :=
  match p, t with
  | BOOLEAN, VT.kBool => Some (λ b : bool, b)
  | INT32, VT.kInt2 => Some (λ v : Z, wrap_s 16 v)
  | INT32, VT.kInt4 => Some (λ v : Z, v)
  | INT64, VT.kInt8 => Some (λ v : Z, v)
  | FLOAT, VT.kFloat4 => Some (λ v : flt, v)
  | DOUBLE, VT.kFloat8 => Some (λ v : flt, v)
  | BYTE_ARRAY, VT.kString => Some (λ s : string, s)
  | INT64, VT.kTime => Some (λ v : Z, v)
  | INT64, VT.kTimestamp => Some (λ v : Z, v)
  | INT64, VT.kTimestamptz => Some (λ v : Z, v)
  | INT32, VT.kDate => Some (λ v : Z, v)
  | _, _ => None
  end.

Definition parquet_count_stats (stats : Statistics) : CountStats :=
  if negb (HasNullCount stats) then {| contains_null := true; contains_non_null := true |}
  else {| contains_null := 0 <? null_count stats; contains_non_null := 0 <? num_values stats |}.

Definition GenericStatsFromTypedStats (value_type : ValueType) (stats : Statistics) (logical : LogicalType)
    (convert : physical (physical_type stats) → phys value_type) : option GenericStats :=
  if negb (ValdateLogicalType value_type logical) then None
  else Some {| min_max := Make value_type {| st_min := convert (stats_min stats); st_max := convert (stats_max stats) |};
               count_ := parquet_count_stats stats |}.

Definition ParquetStatsGetter (rg_meta : RowGroupMeta) (name_to_parquet_index : gmap string Z) : stats_getter :=
  λ column_name value_type,
    match name_to_parquet_index !! column_name with
    | None => Ok None
    | Some parquet_index =>
        if (parquet_index <? 0) || (Z.of_nat (length (column_chunks rg_meta)) <=? parquet_index) then Ok None else
        match column_chunks rg_meta !! Z.to_nat parquet_index with
        | None => Ok None
        | Some col_meta =>
            match is_stats_set col_meta, chunk_statistics col_meta with
            | true, Some stats =>
                if negb (HasMinMax stats) then Ok None else
                match bound_conversion (physical_type stats) value_type with
                | Some convert => Ok (GenericStatsFromTypedStats value_type stats (logical_type col_meta) convert)
                | None => Ok None
                end
            | _, _ => Ok None
            end
        end
    end.

(** ** RowGroupFilter *)

Record RowGroupFilter := {
  extracted_filter_representation_ : option Node;
  field_id_to_name_ : gmap Z string;
  timestamp_to_timestamptz_shift_us_ : Z;
}.

(** [name_to_parquet_index[...] = i] for the fields from number [i] on. *)
Fixpoint index_fields (names : gmap Z string) (i : Z) (fields : list FieldNode) (m : gmap string Z) : gmap string Z :=
  match fields with
  | [] => m
  | f :: fields =>
      let m := if fn_field_id f =? -1 then m
               else match names !! fn_field_id f with Some name => <[name := i]> m | None => m end in
      index_fields names (i + 1) fields m
  end.

Definition GetCurrentParquetStatsGetter (f : RowGroupFilter) (meta : RowGroupMeta) : stats_getter :=
  ParquetStatsGetter meta (index_fields (field_id_to_name_ f) 0 (rg_fields meta) ∅).

Definition CanSkipRowGroup (f : RowGroupFilter) (meta : RowGroupMeta) : result bool :=
  let! m := ApplyFilter (Some (timestamp_to_timestamptz_shift_us_ f)) (extracted_filter_representation_ f)
              (GetCurrentParquetStatsGetter f meta) in
  Ok (bool_decide (m = kNone)).

(** ** Rows of a row group *)

Definition physical_le (p : PhysicalType) : physical p → physical p → bool :=
  match p with
  | BOOLEAN => less_equal VT.kBool
  | INT32 => less_equal VT.kInt4
  | INT64 => less_equal VT.kInt8
  | FLOAT => less_equal VT.kFloat4
  | DOUBLE => less_equal VT.kFloat8
  | INT96 | BYTE_ARRAY | FIXED_LEN_BYTE_ARRAY => less_equal VT.kString
  end.

Definition is_nan (p : PhysicalType) : physical p → bool :=
  match p with FLOAT | DOUBLE => λ v : flt, bool_decide (v = NaN) | _ => λ _, false end.

(** What the writer of a Parquet file guarantees of the values of a chunk: nulls and values
    are counted, and the bounds enclose the values that are not NaN. *)
Definition chunk_holds (stats : Statistics) (o : option (physical (physical_type stats))) : Prop :=
  match o with
  | None => HasNullCount stats = true → 0 < null_count stats
  | Some x => (HasNullCount stats = true → 0 < num_values stats) ∧
      (is_nan _ x = false → physical_le _ (stats_min stats) x = true ∧ physical_le _ x (stats_max stats) = true)
  end.

(** The bound has the width of the filter's type. *)
Definition fits (p : PhysicalType) (t : ValueType) : physical p → Prop :=
  match p, t with
  | INT32, VT.kInt2 => λ x : Z, in_i16 x
  | _, _ => λ _, True
  end.

(** The column of the query named [c] is field number [i] of the file. *)
Definition column_index (f : RowGroupFilter) (meta : RowGroupMeta) (c : string) (i : nat) : Prop :=
  index_fields (field_id_to_name_ f) 0 (rg_fields meta) ∅ !! c = Some (Z.of_nat i).

(** A row of the group: under the name of a column stands the value of its leaf
    column, which the statistics of that leaf column describe.  A column that
    the query reads as [kInt2] holds 16-bit values. *)
Definition row_in_group (f : RowGroupFilter) (meta : RowGroupMeta) (r : row) : Prop :=
  ∀ c i cc stats t v convert,
    column_index f meta c i → column_chunks meta !! first_leaf (rg_fields meta) i = Some cc →
    chunk_statistics cc = Some stats → HasMinMax stats = true →
    bound_conversion (physical_type stats) t = Some convert → r c t = Some v →
    ∃ o, v = {| v_type := t; v_value := convert <$> o |} ∧ chunk_holds stats o ∧
      fits _ t (stats_min stats) ∧ fits _ t (stats_max stats).

(** No column has NaN in the row. *)
Definition phys_nan (t : ValueType) : phys t → bool :=
  match t with VT.kFloat4 | VT.kFloat8 => λ v : flt, bool_decide (v = NaN) | _ => λ _, false end.
Definition row_without_nan (r : row) : Prop :=
  ∀ c t (x : phys t), r c t = Some {| v_type := t; v_value := Some x |} → phys_nan t x = false.

Lemma conversion_nan p t (convert : physical p → phys t) x :
  bound_conversion p t = Some convert → phys_nan t (convert x) = false → is_nan p x = false.
Proof. intros Hc. destruct p, t; try done; by injection Hc as <-. Qed.

Lemma index_fields_spec names fields : ∀ i m c j,
  index_fields names i fields m !! c = Some j → m !! c = Some j ∨ i ≤ j < i + Z.of_nat (length fields).
Proof.
  induction fields as [|f fields IH]; intros i m c j H; simpl in H; [by left|].
  apply IH in H as [H|H]; [|simpl; lia].
  destruct (fn_field_id f =? -1); [by left|]. destruct (names !! fn_field_id f) as [name|]; [|by left].
  apply lookup_insert_Some in H as [[_ <-]|[_ H]]; [right; simpl; lia|by left].
Qed.

Lemma parquet_count_covers stats o :
  chunk_holds stats o →
  match o with
  | None => contains_null (parquet_count_stats stats) = true
  | Some _ => contains_non_null (parquet_count_stats stats) = true
  end.
Proof.
  unfold parquet_count_stats. destruct (HasNullCount stats) eqn:E, o; simpl; try done.
  - intros (Hn & _). apply Z.ltb_lt. auto.
  - intros Hn. apply Z.ltb_lt. auto.
Qed.

(** The converted bounds are bounds of the converted value. *)
Lemma conversion_in p t (convert : physical p → phys t) (lo hi x : physical p) :
  bound_conversion p t = Some convert → fits p t lo → fits p t hi →
  physical_le p lo x = true → physical_le p x hi = true →
  in_stats t {| st_min := convert lo; st_max := convert hi |} (convert x).
Proof.
  intros Hc Hlo Hhi H1 H2.
  destruct p, t; try done; injection Hc as <-; try (by split).
  simpl in Hlo, Hhi, H1, H2.
  assert (∀ a b : Z, less_equal VT.kInt4 a b = true ↔ a ≤ b) as Hle.
  { intros a b. unfold less_equal. simpl. destruct (Z.compare_spec a b); split; (done || lia). }
  apply Hle in H1, H2. split; simpl; rewrite !wrap_s_16_id by (unfold in_i16 in *; lia); by apply Hle.
Qed.

Lemma ParquetStatsGetter_covers f meta r :
  flat_schema (rg_fields meta) → row_in_group f meta r → row_without_nan r → getter_covers (GetCurrentParquetStatsGetter f meta) r.
Proof.
  intros Hflat Hr Hnan c t s v H Hv. unfold GetCurrentParquetStatsGetter, ParquetStatsGetter in H.
  destruct (index_fields _ _ _ _ !! c) as [j|] eqn:Ej; [|done].
  destruct (index_fields_spec _ _ _ _ _ _ Ej) as [?%lookup_empty_Some|Hj]; [done|].
  destruct (_ || _); [done|]. destruct (column_chunks meta !! Z.to_nat j) as [cc|] eqn:Ecc; [|done].
  destruct (is_stats_set cc); [|done]. destruct (chunk_statistics cc) as [stats|] eqn:Es; [|done].
  destruct (HasMinMax stats) eqn:Em; [|done]. cbn [negb] in H.
  destruct (bound_conversion (physical_type stats) t) as [convert|] eqn:Ec; [|done].
  unfold GenericStatsFromTypedStats in H. destruct (ValdateLogicalType t (logical_type cc)); [|done].
  injection H as <-. destruct (Hr c (Z.to_nat j) cc stats t v convert) as (o & -> & Hh & Hlo & Hhi); try done.
  { unfold column_index. by rewrite Z2Nat.id by lia. }
  { rewrite first_leaf_flat by (done || lia). done. }
  exists (convert <$> o). split; [done|]. pose proof (parquet_count_covers stats o Hh) as Hcount.
  destruct o as [x|]; [|done]. split; [done|]. intros _. destruct Hh as (_ & Hb).
  destruct Hb as [H1 H2]; [by eapply conversion_nan; [|by eapply Hnan]|]. by eapply conversion_in.
Qed.


(** ** A row group, alone and after a struct *)

Module RowGroupExample.
Definition int32_chunk (lo hi : Z) : ColumnChunkMeta :=
  {| is_stats_set := true;
     chunk_statistics := Some {| physical_type := INT32; HasMinMax := true; stats_min := lo; stats_max := hi;
                                 HasNullCount := true; null_count := 0; num_values := 10 |};
     logical_type := NoneLogical |}.

(** Column ["x"], field 1, with values from [lo] to [hi]. *)
Definition flat (lo hi : Z) : RowGroupMeta :=
  {| file_offset := 4; data_page_offset := 4; rg_num_rows := 10;
     rg_fields := [{| fn_field_id := 1; fn_name := "x"; fn_leaves := 1 |}]; column_chunks := [int32_chunk lo hi] |}.

(** The same column after a struct with two integers. *)
Definition nested (lo hi : Z) : RowGroupMeta :=
  {| file_offset := 4; data_page_offset := 4; rg_num_rows := 10;
     rg_fields := [{| fn_field_id := 2; fn_name := "s"; fn_leaves := 2 |};
                   {| fn_field_id := 1; fn_name := "x"; fn_leaves := 1 |}];
     column_chunks := [int32_chunk 0 9; int32_chunk 0 9; int32_chunk lo hi] |}.

Definition filter : RowGroupFilter :=
  {| extracted_filter_representation_ := Some FilterExample.greater_10;
     field_id_to_name_ := {[1 := "x"]}; timestamp_to_timestamptz_shift_us_ := 0 |}.

Lemma nodes_ok r : all_nodes (node_ok (Some 0) FilterExample.no_other r) FilterExample.greater_10.
Proof. repeat split; try exact I; intros _; split; reflexivity. Qed.

(** The row of [v] lies in a group whose statistics of ["x"] enclose it. *)
Lemma row_holds meta v lo hi :
  (∀ c i cc, column_index filter meta c i → column_chunks meta !! first_leaf (rg_fields meta) i = Some cc →
     c = "x" ∧ cc = int32_chunk lo hi) → lo ≤ v ≤ hi →
  row_in_group filter meta (FilterExample.row_of (Some v)).
Proof.
  intros Hx Hv c i cc stats t w convert Hc Hcc Hs _ Hconv Hw. destruct (Hx _ _ _ Hc Hcc) as [-> ->].
  injection Hs as <-. unfold FilterExample.row_of in Hw. destruct (bool_decide_reflect (t = VT.kInt4)) as [->|]; [|done].
  injection Hconv as <-. injection Hw as <-. exists (Some v). split; [done|]. split; [|done].
  split; [done|]. intros _. split; apply (less_equal_date _ _); simpl; lia.
Qed.

Lemma flat_row lo hi v : lo ≤ v ≤ hi → row_in_group filter (flat lo hi) (FilterExample.row_of (Some v)).
Proof.
  apply row_holds. intros c i cc Hc Hcc. unfold column_index in Hc.
  change (index_fields _ _ _ _) with ({["x" := 0]} : gmap string Z) in Hc.
  apply lookup_singleton_Some in Hc as [<- Hi]. assert (i = 0%nat) as -> by lia. by injection Hcc as <-.
Qed.

Lemma nested_row lo hi v : lo ≤ v ≤ hi → row_in_group filter (nested lo hi) (FilterExample.row_of (Some v)).
Proof.
  apply row_holds. intros c i cc Hc Hcc. unfold column_index in Hc.
  change (index_fields _ _ _ _) with ({["x" := 1]} : gmap string Z) in Hc.
  apply lookup_singleton_Some in Hc as [<- Hi]. assert (i = 1%nat) as -> by lia. by injection Hcc as <-.
Qed.

Lemma row_of_no_nan v : row_without_nan (FilterExample.row_of v).
Proof.
  intros c t x. unfold FilterExample.row_of. destruct (bool_decide (c = "x")); [|done].
  destruct (bool_decide_reflect (t = VT.kInt4)) as [->|]; [|done]. done.
Qed.

(** A column of doubles from 1 to 4 besides NaN, and [NOT (x <= 8)]. *)
Definition num (v : Z) : flt := decode_double (Z.shiftl v 52).
Definition float_chunk : ColumnChunkMeta :=
  {| is_stats_set := true;
     chunk_statistics := Some {| physical_type := DOUBLE; HasMinMax := true; stats_min := num 1023; stats_max := num 1025;
                                 HasNullCount := true; null_count := 0; num_values := 10 |};
     logical_type := NoneLogical |}.
Definition floats : RowGroupMeta :=
  {| file_offset := 4; data_page_offset := 4; rg_num_rows := 10;
     rg_fields := [{| fn_field_id := 1; fn_name := "x"; fn_leaves := 1 |}]; column_chunks := [float_chunk] |}.
Definition float_value (v : flt) : Value := {| v_type := VT.kFloat8; v_value := Some v : option (phys VT.kFloat8) |}.
Definition not_at_most_8 : Node :=
  LogicalNode kNot [FunctionNode {| function_id := kLessThanOrEqualTo; return_type := VT.kBool;
                                   argument_types := [VT.kFloat8; VT.kFloat8] |}
                      [VariableNode VT.kFloat8 "x"; ConstNode (float_value (num 1026))]].
Definition float_filter : RowGroupFilter :=
  {| extracted_filter_representation_ := Some not_at_most_8;
     field_id_to_name_ := {[1 := "x"]}; timestamp_to_timestamptz_shift_us_ := 0 |}.
Definition row_nan : row := λ c t,
  if bool_decide (c = "x") && bool_decide (t = VT.kFloat8) then Some (float_value NaN) else None.

Lemma nan_row : row_in_group float_filter floats row_nan.
Proof.
  intros c i cc stats t w convert Hc Hcc Hs _ Hconv Hw. unfold column_index in Hc.
  change (index_fields _ _ _ _) with ({["x" := 0]} : gmap string Z) in Hc.
  apply lookup_singleton_Some in Hc as [<- Hi]. assert (i = 0%nat) as -> by lia. injection Hcc as <-. injection Hs as <-.
  unfold row_nan in Hw. destruct (bool_decide_reflect (t = VT.kFloat8)) as [->|]; [|done].
  injection Hconv as <-. injection Hw as <-. exists (Some NaN). split; [done|]. split; [|done]. split; [done|].
  intros Hn. discriminate Hn.
Qed.

Lemma flat_getter_ok lo hi : getter_ok (GetCurrentParquetStatsGetter filter (flat lo hi)).
Proof.
  intros c t s. unfold GetCurrentParquetStatsGetter, ParquetStatsGetter.
  change (index_fields _ _ _ _) with ({["x" := 0]} : gmap string Z).
  destruct ({["x" := 0]} !! c) as [j|] eqn:Ej; [|done]. apply lookup_singleton_Some in Ej as [<- <-].
  destruct t; try done; intros [= <-]; (split; [exact I|]); intros _; split; apply (less_equal_date _ _); simpl; lia.
Qed.
End RowGroupExample.


(** The bounds say nothing of NaN: on a row group with a NaN, [NOT (x <= 8)] is rejected by
    the bounds 1 to 4, although it is true on the row of the NaN. *)
Lemma nan_row_skipped :
  row_in_group RowGroupExample.float_filter RowGroupExample.floats RowGroupExample.row_nan ∧
  eval (Some 0) FilterExample.no_other RowGroupExample.row_nan RowGroupExample.not_at_most_8 = Some (bool_value (Some true)) ∧
  CanSkipRowGroup RowGroupExample.float_filter RowGroupExample.floats = Ok true.
Proof. split; [exact RowGroupExample.nan_row|]. split; vm_compute; reflexivity. Qed.

(** The getter takes the number of a field of the root group for the number of
    its column chunk.  In a file with a struct before the column, the
    statistics of a column inside the struct decide, and a row group that has
    rows on which the filter is true is skipped. *)
Theorem nested_column_skips_matching_rows :
  row_in_group RowGroupExample.filter (RowGroupExample.nested 100 200) (FilterExample.row_of (Some 150)) ∧
  eval (Some 0) FilterExample.no_other (FilterExample.row_of (Some 150)) FilterExample.greater_10
    = Some (bool_value (Some true)) ∧
  CanSkipRowGroup RowGroupExample.filter (RowGroupExample.nested 100 200) = Ok true.
Proof.
  split; [apply RowGroupExample.nested_row; lia|]. split; vm_compute; reflexivity.
Qed.
