(* ===== verification/ManifestFilter.v ===== *)
(** * ManifestFilter: skipping whole manifests

    The part of [iceberg/tea_scan.cpp] that turns the partition summaries of a
    manifest file into statistics ([ManifestFileStatsGetter]) and asks the
    filter whether any row of the manifest can match ([FilterManifests]).

    The calendar functions are those of [std::chrono]: a [year] holds a
    [short], [sys_days] counts days of the proleptic Gregorian calendar.  The
    products and sums below are guarded by the [Ensure]s that precede them, so
    they are taken in [Z]. *)

From stdpp Require Import base list strings gmap.
From Stdlib Require Import ZArith Lia.
From S2P Require Import Prelude Calendar OrderedMap Bytes Types ScanTypes PartitionSpecs TableMetadata.
From S2P Require Import FilterValue Stats StatsFilter StatsGetter.

Local Open Scope Z_scope.

(** ** Units of time *)

Definition ConvertToInt (value : bytes) : result Z :=
  match memcpy_int 4 value with
  | Some v => Ok v
  | None => Err (Exn "ConvertToInt: byte array size doesn't match")
  end.

Definition YearsToDays (years : Z) : result Z :=
  let! _ := Ensure ((years <=? Z.quot int32_max 366) && (Z.quot int32_min 366 <=? years))
              "YearsToDays: days can overflow" in
  Ok (days_from_civil (chrono_year (1970 + years)) 1 1).

Definition MonthsToDays (months : Z) : result Z :=
  let! _ := Ensure ((months <=? Z.quot int32_max 31) && (Z.quot int32_min 31 <=? months))
              "MonthsToDays: days can overflow" in
  let! _ := Ensure (0 <=? months) "MonthsToDays: handling negative months is not supported yet" in
  Ok (days_from_civil (chrono_year (1970 + Z.quot months 12)) (1 + Z.rem months 12) 1).

Definition DaysToHours (days : Z) : result Z :=
  let! _ := Ensure ((days <=? Z.quot int32_max 24) && (Z.quot int32_min 24 <=? days))
              "DaysToHours: hours will overflow" in
  Ok (days * 24).

Definition kMicrosPerHour : Z := 3600 * 1000 * 1000.

Definition HoursToMicros (hours : Z) : result Z :=
  let! _ := Ensure ((hours <=? Z.quot int64_max kMicrosPerHour) && (Z.quot int64_min kMicrosPerHour <=? hours))
              "HoursToMicros: micros will overflow" in
  Ok (hours * kMicrosPerHour).

(** ** [ManifestFileStatsGetter] *)

Definition GetStatsFromIdentityTransform (ice_type : TypeID) (value_type : ValueType)
    (summary : PartitionFieldSummary) : option GenericStats :=
  match TypesToStatsConverter ice_type value_type with
  | None => None
  | Some conversion => GenericStats_of <$> conversion (lower_bound summary) (upper_bound summary)
  end.

Definition GetMinMaxDayFromTemporal (min_partition_value max_partition_value : Z) (transform : string) :
    result (option (Z * Z)) :=
  if bool_decide (transform = Transforms.kYear) then
    let! min_day := YearsToDays min_partition_value in
    let! next := YearsToDays (max_partition_value + 1) in
    Ok (Some (min_day, next - 1))
  else if bool_decide (transform = Transforms.kMonth) then
    let! min_day := MonthsToDays min_partition_value in
    let! next := MonthsToDays (max_partition_value + 1) in
    Ok (Some (min_day, next - 1))
  else if bool_decide (transform = Transforms.kDay) then Ok (Some (min_partition_value, max_partition_value))
  else Ok None.

(** The two branches that compute the first and the last microsecond. *)
Definition micros_range (min_partition_value max_partition_value : Z) (transform : string) : result (Z * Z) :=
  if bool_decide (transform = Transforms.kHour) then
    let! micros_min := HoursToMicros min_partition_value in
    let! next := HoursToMicros (max_partition_value + 1) in
    Ok (micros_min, next - 1)
  else
    let! min_max_day := GetMinMaxDayFromTemporal min_partition_value max_partition_value transform in
    match min_max_day with
    | None => Err (Exn "GetStatsFromTemporalForTimestamp: internal error")
    | Some (first, second) =>
        let! min_hour := DaysToHours first in
        let! next_hour := DaysToHours (second + 1) in
        let max_hour := next_hour - 1 in
        let! micros_min := HoursToMicros min_hour in
        let! next := HoursToMicros (max_hour + 1) in
        Ok (micros_min, next - 1)
    end.

Definition GetStatsFromTemporalForTimestamp (min_partition_value max_partition_value : Z) (transform : string)
    (is_timestamptz : bool) : result (option GenericStats) :=
  let! '(micros_min, micros_max) := micros_range min_partition_value max_partition_value transform in
  if is_timestamptz then
    let! hours := DaysToHours 1 in
    let! kMicrosInDay := HoursToMicros hours in
    if micros_min <? int64_min + kMicrosInDay then Ok None
    else if int64_max - kMicrosInDay <? micros_max then Ok None
    else Ok (Some (GenericStats_of (Make VT.kTimestamptz
           {| st_min := micros_min - kMicrosInDay : phys VT.kTimestamptz; st_max := micros_max + kMicrosInDay |})))
  else
    Ok (Some (GenericStats_of (Make VT.kTimestamp
          {| st_min := micros_min : phys VT.kTimestamp; st_max := micros_max |}))).

Definition GetStatsFromTemporalForDate (min_partition_value max_partition_value : Z) (transform : string) :
    result (option GenericStats) :=
  let! min_max_day := GetMinMaxDayFromTemporal min_partition_value max_partition_value transform in
  match min_max_day with
  | None => Err (Exn "GetStatsFromTemporalForDate: internal error")
  | Some (first, second) =>
      Ok (Some (GenericStats_of (Make VT.kDate {| st_min := first : phys VT.kDate; st_max := second |})))
  end.

Definition GetStatsFromTemporalTransform (value_type : ValueType) (summary : PartitionFieldSummary)
    (transform : string) : result (option GenericStats) :=
  let! min_partition_value := ConvertToInt (lower_bound summary) in
  let! max_partition_value := ConvertToInt (upper_bound summary) in
  if bool_decide (max_partition_value = int32_max) then Ok None
  else
    match value_type with
    | VT.kDate => GetStatsFromTemporalForDate min_partition_value max_partition_value transform
    | VT.kTimestamp => GetStatsFromTemporalForTimestamp min_partition_value max_partition_value transform false
    | VT.kTimestamptz => GetStatsFromTemporalForTimestamp min_partition_value max_partition_value transform true
    | _ => Ok None
    end.

Definition temporal_transform (t : string) : bool :=
  bool_decide (t = Transforms.kYear) || bool_decide (t = Transforms.kMonth)
  || bool_decide (t = Transforms.kDay) || bool_decide (t = Transforms.kHour).

(** [ManifestFileStatsGetter::GetStats]. *)
Definition ManifestFileStatsGetter (name_to_type : gmap string TypeID) (name_to_position : gmap string nat)
    (summaries : list PartitionFieldSummary) (spec : PartitionSpec) : stats_getter :=
  λ column_name value_type,
    match name_to_position !! column_name with
    | None => Ok None
    | Some position =>
        match summaries !! position, spec_fields spec !! position with
        | None, _ => Err (Exn "GetStats: invalid position")
        | Some _, None => Err (Exn "GetStats: field out of range")
        | Some summary, Some field =>
            if bool_decide (transform field = Transforms.kIdentity) then
              match name_to_type !! column_name with
              | None => Err (Exn "GetStats: type for column is not found")
              | Some ice_type => Ok (GetStatsFromIdentityTransform ice_type value_type summary)
              end
            else if temporal_transform (transform field) then
              GetStatsFromTemporalTransform value_type summary (transform field)
            else Ok None
        end
    end.

(** ** [FilterManifests] *)

(** A map filled by assigning each pair in turn: the last one wins. *)
Definition assign_all {K V} `{Countable K} (l : list (K * V)) : gmap K V :=
  foldl (λ m kv, <[kv.1 := kv.2]> m) ∅ l.

Definition spec_id_to_position (specs : list PartitionSpec) : gmap Z nat :=
  assign_all (imap (λ i s, (spec_id s, i)) specs).
Definition field_id_to_name (schema : Schema) : gmap Z string :=
  assign_all ((λ c, (nf_field_id c, nf_name c)) <$> Columns schema).
Definition name_to_type_of (schema : Schema) : gmap string TypeID :=
  assign_all ((λ c, (nf_name c, TypeId (nf_type c))) <$> Columns schema).

Definition allowed_transform (t : string) : bool :=
  bool_decide (t = Transforms.kIdentity) || temporal_transform t.

Definition find_spec (specs : list PartitionSpec) (id : Z) : result PartitionSpec :=
  match spec_id_to_position specs !! id ≫= (λ i, specs !! i) with
  | Some s => Ok s
  | None => Err (Exn "FilterManifests: partition spec id is not found")
  end.

Definition field_positions (names : gmap Z string) (fields : list PartitionField) :
    result (gmap string nat) :=
  fold_ok (λ m '(i, field),
    match names !! source_id field with
    | None => Err (Exn "FilterManifests: partition source id is not found")
    | Some name => Ok (<[name := i]> m)
    end) ∅ (imap pair fields).

(** The statistics of one manifest; [None] when a transform is not supported. *)
Definition manifest_getter (schema : Schema) (specs : list PartitionSpec) (manifest : ManifestFile) :
    result (option stats_getter) :=
  let! partition_spec := find_spec specs (mf_partition_spec_id manifest) in
  if negb (forallb (λ f, allowed_transform (transform f)) (spec_fields partition_spec)) then Ok None
  else
    let! name_to_position := field_positions (field_id_to_name schema) (spec_fields partition_spec) in
    Ok (Some (ManifestFileStatsGetter (name_to_type_of schema) name_to_position
                (mf_partitions manifest) partition_spec)).

Definition can_skip (shift : option Z) (root : option Node) (schema : Schema) (specs : list PartitionSpec)
    (manifest : ManifestFile) : result bool :=
  let! getter := manifest_getter schema specs manifest in
  match getter with
  | None => Ok false
  | Some g =>
      let! m := ApplyFilter shift root g in
      Ok (bool_decide (m = kNone))
  end.

Definition FilterManifests (shift : option Z) (root : option Node) (schema : Schema)
    (specs : list PartitionSpec) (manifests : list ManifestFile) : result (list bool) :=
  map_ok (can_skip shift root schema specs) manifests.

(** ** First days are increasing *)

(** First day of a partition of the [year], [month] or [day] transform. *)
Definition first_day (transform : string) (v : Z) : Z :=
  if bool_decide (transform = Transforms.kYear) then days_from_civil (1970 + v) 1 1
  else if bool_decide (transform = Transforms.kMonth) then days_from_civil (1970 + v / 12) (1 + v mod 12) 1
  else v.

Lemma first_day_month_step v :
  days_from_civil (1970 + v / 12) (1 + v mod 12) 1
  ≤ days_from_civil (1970 + (v + 1) / 12) (1 + (v + 1) mod 12) 1.
Proof.
  assert (∃ q r, v = 12 * q + r ∧ 0 ≤ r < 12) as (q & r & -> & Hr).
  { exists (v / 12), (v mod 12). split; [apply Z.div_mod; lia|apply Z.mod_pos_bound; lia]. }
  replace ((12 * q + r) / 12) with q by (Z.to_euclidean_division_equations; lia).
  replace ((12 * q + r) mod 12) with r by (Z.to_euclidean_division_equations; lia).
  pose proof (year_days_step (1970 + q - 1)) as Hs. replace (1970 + q - 1 + 1) with (1970 + q) in Hs by lia.
  destruct (decide (r = 11)) as [->|Hne].
  - replace ((12 * q + 11 + 1) / 12) with (q + 1) by (Z.to_euclidean_division_equations; lia).
    replace ((12 * q + 11 + 1) mod 12) with 0 by (Z.to_euclidean_division_equations; lia).
    rewrite !days_from_civil_eq. simpl. replace (1970 + (q + 1) - 1) with (1970 + q) by lia.
    Z.to_euclidean_division_equations. lia.
  - replace ((12 * q + r + 1) / 12) with q by (Z.to_euclidean_division_equations; lia).
    replace ((12 * q + r + 1) mod 12) with (r + 1) by (Z.to_euclidean_division_equations; lia).
    rewrite !days_from_civil_eq.
    assert (r = 0 ∨ r = 1 ∨ r = 2 ∨ r = 3 ∨ r = 4 ∨ r = 5 ∨ r = 6 ∨ r = 7 ∨ r = 8 ∨ r = 9 ∨ r = 10)
      as Hcases by lia.
    repeat destruct Hcases as [->|Hcases]; [..|subst r]; simpl;
      Z.to_euclidean_division_equations; lia.
Qed.

Lemma first_day_mono transform v w : v ≤ w → first_day transform v ≤ first_day transform w.
Proof.
  intros Hvw. unfold first_day. case_bool_decide; [|case_bool_decide; [|done]].
  - apply (step_mono (λ v, days_from_civil (1970 + v) 1 1)); [|done]. intros z.
    rewrite !days_from_civil_eq. simpl. pose proof (year_days_step (1970 + z - 1)) as Hs.
    replace (1970 + z - 1 + 1) with (1970 + (z + 1) - 1) in Hs by lia. lia.
  - apply (step_mono (λ v, days_from_civil (1970 + v / 12) (1 + v mod 12) 1)); [|done].
    intros z. apply first_day_month_step.
Qed.

(** ** Statistics of temporal transforms *)

(** The years involved are years of [std::chrono]. *)
Definition calendar_ok (transform : string) (pmin pmax : Z) : Prop :=
  (transform = Transforms.kYear → -32767 ≤ 1970 + pmin ∧ 1971 + pmax ≤ 32767) ∧
  (transform = Transforms.kMonth → 1970 + (pmax + 1) / 12 ≤ 32767).

Lemma YearsToDays_first y d :
  YearsToDays y = Ok d → -32767 ≤ 1970 + y ≤ 32767 → d = first_day Transforms.kYear y.
Proof.
  unfold YearsToDays. intros H Hy. inv_ok. unfold first_day, chrono_year. simpl.
  rewrite wrap_s_16_id; [done|]. unfold_ints. lia.
Qed.

Lemma MonthsToDays_first n d :
  MonthsToDays n = Ok d → 1970 + n / 12 ≤ 32767 → d = first_day Transforms.kMonth n.
Proof.
  unfold MonthsToDays. intros H Hy. inv_ok. apply Z.leb_le in Ha0. unfold first_day, chrono_year. simpl.
  rewrite Z.quot_div_nonneg, Z.rem_mod_nonneg by lia. rewrite wrap_s_16_id; [done|].
  pose proof (Z.div_pos n 12). unfold_ints. lia.
Qed.

Lemma GetMinMaxDay_first transform pmin pmax lo hi :
  GetMinMaxDayFromTemporal pmin pmax transform = Ok (Some (lo, hi)) → pmin ≤ pmax →
  calendar_ok transform pmin pmax →
  lo = first_day transform pmin ∧ hi = first_day transform (pmax + 1) - 1.
Proof.
  unfold GetMinMaxDayFromTemporal. intros H Hle [Hy Hm]. case_bool_decide as H1.
  { inv_ok. destruct (Hy eq_refl). apply YearsToDays_first in Ha, Ha0; [|lia..]. subst. split; [done|lia]. }
  case_bool_decide as H2.
  { inv_ok. pose proof (Hm eq_refl). pose proof (Z.div_le_mono pmin (pmax + 1) 12).
    apply MonthsToDays_first in Ha, Ha0; [|lia..]. subst. split; [done|lia]. }
  case_bool_decide as H3; [|done]. inv_ok. unfold first_day.
  rewrite !bool_decide_false by done. split; lia.
Qed.

(** Instants (in microseconds) of a partition. *)
Definition in_partition (transform : string) (pv ts : Z) : Prop :=
  if bool_decide (transform = Transforms.kHour) then ts / kMicrosPerHour = pv
  else first_day transform pv ≤ ts / (24 * kMicrosPerHour) < first_day transform (pv + 1).

Lemma day_range transform pmin pmax pv d :
  pmin ≤ pv ≤ pmax → first_day transform pv ≤ d < first_day transform (pv + 1) →
  first_day transform pmin ≤ d ≤ first_day transform (pmax + 1) - 1.
Proof.
  intros Hpv Hd. pose proof (first_day_mono transform pmin pv).
  pose proof (first_day_mono transform (pv + 1) (pmax + 1)). lia.
Qed.

Lemma micros_range_covers transform pmin pmax lo hi pv ts :
  micros_range pmin pmax transform = Ok (lo, hi) → calendar_ok transform pmin pmax →
  pmin ≤ pv ≤ pmax → in_partition transform pv ts → lo ≤ ts ≤ hi.
Proof.
  unfold micros_range, in_partition. intros H Hc Hpv Hin. case_bool_decide as Hh.
  - unfold HoursToMicros in H. inv_ok. unfold kMicrosPerHour in *. Z.to_euclidean_division_equations. lia.
  - apply rbind_Ok_inv in H as ([[first second]|] & Hd & H); [|done].
    apply GetMinMaxDay_first in Hd as [-> ->]; [|lia|done].
    pose proof (day_range transform pmin pmax pv _ Hpv Hin) as Hr.
    set (a := first_day transform pmin) in *. set (b := first_day transform (pmax + 1)) in *. clearbody a b.
    unfold DaysToHours, HoursToMicros in H. inv_ok. unfold kMicrosPerHour in *.
    clear -Hr. Z.to_euclidean_division_equations. lia.
Qed.

(** A non-null value of a column that lies in the partitions [pmin .. pmax];
    an instant with a time zone is at most a day off its local time. *)
Definition value_in_partition (transform : string) (pmin pmax : Z) (t : ValueType) : phys t → Prop :=
  match t with
  | VT.kDate => λ x : Z, ∃ pv, pmin ≤ pv ≤ pmax ∧ first_day transform pv ≤ x < first_day transform (pv + 1)
  | VT.kTimestamp => λ x : Z, ∃ pv, pmin ≤ pv ≤ pmax ∧ in_partition transform pv x
  | VT.kTimestamptz => λ x : Z, ∃ pv local,
      pmin ≤ pv ≤ pmax ∧ in_partition transform pv local ∧ Z.abs (x - local) ≤ 24 * kMicrosPerHour
  | _ => λ _, True
  end.

Lemma temporal_date_covers transform pmin pmax s (x : Z) :
  GetStatsFromTemporalForDate pmin pmax transform = Ok (Some s) → calendar_ok transform pmin pmax →
  value_in_partition transform pmin pmax VT.kDate x →
  covers s {| v_type := VT.kDate; v_value := Some x : option (phys VT.kDate) |}.
Proof.
  unfold GetStatsFromTemporalForDate. intros H Hc (pv & Hpv & Hx).
  apply rbind_Ok_inv in H as ([[lo hi]|] & Hd & H); [|done]. injection H as <-.
  apply GetMinMaxDay_first in Hd as [-> ->]; [|lia|done].
  pose proof (day_range transform pmin pmax pv x Hpv Hx).
  exists (Some x). split; [done|]. split; [done|]. intros _. split; apply less_equal_date; simpl; lia.
Qed.

Lemma temporal_timestamp_covers transform pmin pmax s (x : Z) :
  GetStatsFromTemporalForTimestamp pmin pmax transform false = Ok (Some s) → calendar_ok transform pmin pmax →
  value_in_partition transform pmin pmax VT.kTimestamp x →
  covers s {| v_type := VT.kTimestamp; v_value := Some x : option (phys VT.kTimestamp) |}.
Proof.
  unfold GetStatsFromTemporalForTimestamp. intros H Hc (pv & Hpv & Hx).
  apply rbind_Ok_inv in H as ([lo hi] & Hd & H). injection H as <-.
  pose proof (micros_range_covers _ _ _ _ _ _ _ Hd Hc Hpv Hx).
  exists (Some x). split; [done|]. split; [done|]. intros _. split; apply less_equal_timestamp; simpl; lia.
Qed.

Lemma temporal_timestamptz_covers transform pmin pmax s (x : Z) :
  GetStatsFromTemporalForTimestamp pmin pmax transform true = Ok (Some s) → calendar_ok transform pmin pmax →
  value_in_partition transform pmin pmax VT.kTimestamptz x →
  covers s {| v_type := VT.kTimestamptz; v_value := Some x : option (phys VT.kTimestamptz) |}.
Proof.
  unfold GetStatsFromTemporalForTimestamp. intros H Hc (pv & local & Hpv & Hx & Hd).
  apply rbind_Ok_inv in H as ([lo hi] & Hr & H).
  pose proof (micros_range_covers _ _ _ _ _ _ _ Hr Hc Hpv Hx).
  unfold DaysToHours, HoursToMicros in H. inv_ok.
  destruct (_ <? _); [done|]. destruct (_ <? _); [done|]. injection H as <-.
  exists (Some x). split; [done|]. split; [done|]. intros _. unfold kMicrosPerHour in *.
  split; apply less_equal_timestamptz; simpl; lia.
Qed.

Lemma GetStatsFromTemporalTransform_covers t summary transform s o :
  GetStatsFromTemporalTransform t summary transform = Ok (Some s) →
  (∀ x, o = Some x → ∃ pmin pmax,
     ConvertToInt (lower_bound summary) = Ok pmin ∧ ConvertToInt (upper_bound summary) = Ok pmax ∧
     calendar_ok transform pmin pmax ∧ value_in_partition transform pmin pmax t x) →
  covers s {| v_type := t; v_value := o |}.
Proof.
  unfold GetStatsFromTemporalTransform. intros H Hx. destruct o as [x|].
  - destruct (Hx x eq_refl) as (pmin & pmax & H1 & H2 & Hc & Hv). rewrite H1, H2 in H. simpl in H. case_bool_decide; [done|].
    destruct t; try done; [eapply temporal_date_covers|eapply temporal_timestamp_covers
      |eapply temporal_timestamptz_covers]; done.
  - apply rbind_Ok_inv in H as (pmin & _ & H). apply rbind_Ok_inv in H as (pmax & _ & H). case_bool_decide; [done|].
    assert (GetValueType s = t ∧ contains_null (count_ s) = true) as [<- Hn].
    { destruct t; try done; unfold GetStatsFromTemporalForDate, GetStatsFromTemporalForTimestamp in H;
        apply rbind_Ok_inv in H as (r & _ & H); destruct r as [[]|] || destruct r; try done;
        try (by injection H as <-).
      unfold DaysToHours, HoursToMicros in H. inv_ok.
      destruct (_ <? _); [done|]. destruct (_ <? _); [done|]. by injection H as <-. }
    by exists None.
Qed.

(** ** Statistics of the identity transform *)

(** The single-value form of the table format: a bound of a column of type [ice_type]
    stands for the value [v], as the filter's type [t] has it.  No statistics are made
    for the pairs of types that are left out, so nothing is asked of their bounds. *)
Definition bound_of (ice_type : TypeID) (t : ValueType) (bound : bytes) : phys t → Prop :=
  match ice_type, t with
  | kBoolean, VT.kBool => λ v : bool, bound = [if v then Byte.x01 else Byte.x00]
  | kInt, VT.kInt2 | kInt, VT.kInt4 | kDate, VT.kDate => λ v : Z, in_i32 v ∧ bound = le_encode 4 v
  | kLong, VT.kInt8 | kTime, VT.kTime | kTimestamp, VT.kTimestamp | kTimestamptz, VT.kTimestamptz =>
      λ v : Z, in_i64 v ∧ bound = le_encode 8 v
  | kString, VT.kString => λ v : string, bound = bytes_of_string v
  | _, _ => λ _, True
  end.

(** A bound is read as the value it stands for, or not at all. *)
Lemma DeserializeValue_bound ice_type t bound (v w : phys t) :
  bound_of ice_type t bound v → DeserializeValue ice_type t bound = Some w → w = v.
Proof.
  unfold bound_of, DeserializeValue. intros Hb Hw.
  destruct ice_type, t; try discriminate Hw.
  all: try (destruct Hb as [Hr ->]; rewrite memcpy_int_encode in Hw by (apply wrap_s_32_id, Hr || apply wrap_s_64_id, Hr);
    repeat case_match; congruence).
  - rewrite Hb in Hw. destruct v; by injection Hw as <-.
  - rewrite Hb in Hw. injection Hw as <-. unfold string_of_bytes, bytes_of_string. by rewrite String.string_of_list_byte_of_string.
Qed.

Lemma TypesToStatsConverter_bounds ice_type t conversion lo hi m :
  TypesToStatsConverter ice_type t = Some conversion → conversion lo hi = Some m →
  ∃ st : MinMaxStats t, m = Make t st ∧
    DeserializeValue ice_type t lo = Some (st_min st) ∧ DeserializeValue ice_type t hi = Some (st_max st).
Proof.
  unfold TypesToStatsConverter. destruct (List.find _ kConversions) as [[ice t']|] eqn:E; [|done].
  apply List.find_some in E as [_ [E1%bool_decide_eq_true E2%bool_decide_eq_true]%andb_true_iff]. simpl in E1, E2. subst ice t'.
  intros [= <-]. unfold GenericStatsFromTypedStats.
  destruct (DeserializeValue ice_type t lo), (DeserializeValue ice_type t hi); try done. intros [= <-]. by eexists.
Qed.

Lemma identity_covers ice_type t summary s o :
  GetStatsFromIdentityTransform ice_type t summary = Some s →
  (∀ x, o = Some x → ∃ lo hi, bound_of ice_type t (lower_bound summary) lo ∧ bound_of ice_type t (upper_bound summary) hi ∧
     less_equal t lo x = true ∧ less_equal t x hi = true) →
  covers s {| v_type := t; v_value := o |}.
Proof.
  unfold GetStatsFromIdentityTransform. intros H Hx.
  destruct (TypesToStatsConverter ice_type t) as [conversion|] eqn:Ec; [|done].
  destruct (conversion _ _) as [m|] eqn:Em; [|done]. injection H as <-.
  destruct (TypesToStatsConverter_bounds _ _ _ _ _ _ Ec Em) as (st & -> & H1 & H2).
  exists o. split; [done|]. destruct o as [x|]; [|done]. split; [done|]. intros _.
  destruct (Hx x eq_refl) as (lo & hi & Hlo & Hhi & Hl & Hh).
  apply (DeserializeValue_bound _ _ _ lo) in H1; [|done]. apply (DeserializeValue_bound _ _ _ hi) in H2; [|done].
  simpl. split; congruence.
Qed.

(** ** Rows of a manifest *)

(** What the writer of a manifest guarantees of a row in it.  The bounds in the summary of a
    partition field are values in the single-value form of the table format, between which
    lies the value of the field: the column's value (identity), or the number of the
    partition of the column's value, in 32 bits (temporal). *)
Definition row_in_summaries (name_to_type : gmap string TypeID) (name_to_position : gmap string nat)
    (summaries : list PartitionFieldSummary) (spec : PartitionSpec) (r : row) : Prop :=
  ∀ c t v position summary field,
    name_to_position !! c = Some position → summaries !! position = Some summary →
    spec_fields spec !! position = Some field → r c t = Some v →
    ∃ o, v = {| v_type := t; v_value := o |} ∧ ∀ x, o = Some x →
    (transform field = Transforms.kIdentity → ∀ ice, name_to_type !! c = Some ice →
       ∃ lo hi, bound_of ice t (lower_bound summary) lo ∧ bound_of ice t (upper_bound summary) hi ∧
         less_equal t lo x = true ∧ less_equal t x hi = true) ∧
    (temporal_transform (transform field) = true →
       ∃ pmin pmax, (in_i32 pmin ∧ lower_bound summary = le_encode 4 pmin) ∧
         (in_i32 pmax ∧ upper_bound summary = le_encode 4 pmax) ∧
         calendar_ok (transform field) pmin pmax ∧ value_in_partition (transform field) pmin pmax t x).

Lemma ConvertToInt_encode v : in_i32 v → ConvertToInt (le_encode 4 v) = Ok v.
Proof. intros Hv. unfold ConvertToInt. by rewrite memcpy_int_encode by (by apply wrap_s_32_id). Qed.

Lemma ManifestFileStatsGetter_covers name_to_type name_to_position summaries spec r :
  row_in_summaries name_to_type name_to_position summaries spec r →
  getter_covers (ManifestFileStatsGetter name_to_type name_to_position summaries spec) r.
Proof.
  intros Hr c t s v H Hv. unfold ManifestFileStatsGetter in H.
  destruct (name_to_position !! c) as [position|] eqn:Ep; [|done].
  destruct (summaries !! position) as [summary|] eqn:Es; [|done].
  destruct (spec_fields spec !! position) as [field|] eqn:Ef; [|done].
  destruct (Hr c t v position summary field Ep Es Ef Hv) as (o & -> & Hx).
  case_bool_decide as Hi.
  - destruct (name_to_type !! c) as [ice|] eqn:Et; [|done]. injection H as H. eapply identity_covers; [done|].
    intros x Ho. by apply (proj1 (Hx x Ho) Hi ice).
  - destruct (temporal_transform (transform field)) eqn:Ett; [|done].
    eapply GetStatsFromTemporalTransform_covers; [done|]. intros x Ho.
    destruct (proj2 (Hx x Ho) eq_refl) as (pmin & pmax & [Hmin ->] & [Hmax ->] & Hc & Hp).
    exists pmin, pmax. by rewrite !ConvertToInt_encode.
Qed.

(** The row belongs to the manifest. *)
Definition row_in_manifest (schema : Schema) (specs : list PartitionSpec) (manifest : ManifestFile) (r : row) :
    Prop :=
  ∀ spec positions,
    find_spec specs (mf_partition_spec_id manifest) = Ok spec →
    field_positions (field_id_to_name schema) (spec_fields spec) = Ok positions →
    row_in_summaries (name_to_type_of schema) positions (mf_partitions manifest) spec r.


(** ** A concrete manifest: a date column partitioned by month *)
Module ManifestExample.
Definition schema : Schema :=
  {| schema_id_ := 0; fields_ := [{| nf_name := "d"; nf_field_id := 1; nf_is_required := false;
                                     nf_type := PrimitiveType kDate;
                                     nf_initial_default := None; nf_write_default := None |}] |}.
Definition spec : PartitionSpec :=
  {| spec_id := 3; spec_fields :=
       [{| source_id := 1; pf_field_id := 1000; pf_name := "d_month"; transform := "month" |}] |}.
(** Months 600 to 602: January to March 2020. *)
Definition manifest : ManifestFile :=
  manifest_file kContentData 3 "m.avro" 1
    [{| contains_null_ := false; contains_nan := None; lower_bound := le_encode 4 600; upper_bound := le_encode 4 602 |}].
Definition date (v : Z) : Value := {| v_type := VT.kDate; v_value := Some v : option (phys VT.kDate) |}.

(** [d >= 2020-04-01], and a row of 2020-02-29. *)
Definition filter : Node :=
  FunctionNode {| function_id := kGreaterThanOrEqualTo; return_type := VT.kBool;
                  argument_types := [VT.kDate; VT.kDate] |}
    [VariableNode VT.kDate "d"; ConstNode (date 18353)].
Definition row_feb : row := λ c t,
  if bool_decide (c = "d") && bool_decide (t = VT.kDate) then Some (date 18321) else None.

Definition getter : stats_getter :=
  ManifestFileStatsGetter (name_to_type_of schema) {["d" := 0%nat]} (mf_partitions manifest) spec.

Lemma manifest_getter_eq : manifest_getter schema [spec] manifest = Ok (Some getter).
Proof. reflexivity. Qed.

Lemma getter_d t : getter "d" t =
  match t with
  | VT.kDate => Ok (Some (GenericStats_of (Make VT.kDate {| st_min := 18262 : phys VT.kDate; st_max := 18352 |})))
  | VT.kTimestamp => getter "d" VT.kTimestamp
  | VT.kTimestamptz => getter "d" VT.kTimestamptz
  | _ => Ok None
  end.
Proof. by destruct t. Qed.

Lemma getter_ok_example : getter_ok getter.
Proof.
  intros c t s H. destruct (decide (c = "d")) as [->|Hne].
  - rewrite getter_d in H. destruct t; try discriminate H; vm_compute in H; injection H as <-;
      (split; [|intros _; split; reflexivity]); simpl; unfold_ints; lia || exact I.
  - unfold getter, ManifestFileStatsGetter in H. rewrite lookup_singleton_ne in H by congruence. discriminate H.
Qed.
End ManifestExample.

