(* ===== verification/TemporalOps.v ===== *)
(** * TemporalOps: functions of timestamps in row filters

    [iceberg/filter/row_filter/extend_gandiva]: [epoch_time_point.h], [epoch_time_point.cpp],
    [temporal_ops.cpp] and [arithmetic_ops.h], the functions that are registered with
    Gandiva.  A point of time is a number of microseconds.  The date library of Arrow is a
    parameter, the class [DateLibrary], whose laws are its documentation for the years
    from -32767 to 32767; [Calendar] is an instance.  A function that sets the error of
    its context returns an error, and so does a signed overflow of a timestamp. *)

From stdpp Require Import base list strings.
From Stdlib Require Import ZArith Lia.
From S2P Require Import Prelude Calendar.

Local Open Scope Z_scope.

(** ** The date library *)

(** The years of [date::year::min] and [date::year::max]. *)
Definition ok_year (y : Z) : Prop := -32767 ≤ y ≤ 32767.
Definition ok_day (z : Z) : Prop := let '(y, _, _) := civil_from_days z in ok_year y.

(** [year_month_day{sys_days}], [sys_days{year_month_day}], [weekday{sys_days} - Sunday],
    [year + years] and [year_month + months].  A day of the month that the month does not
    have counts from the first day of the month. *)
Class DateLibrary := {
  ymd_of_days : Z → Z * Z * Z;
  days_of_ymd : Z → Z → Z → Z;
  weekday_of_days : Z → Z;
  plus_years : Z → Z → Z;
  plus_months : Z * Z → Z → Z * Z;
  ymd_of_days_law z : ok_day z → ymd_of_days z = civil_from_days z;
  days_of_ymd_law y m d : ok_year y → 1 ≤ m ≤ 12 → 1 ≤ d ≤ 31 → days_of_ymd y m d = days_from_civil y m d;
  weekday_of_days_law z : ok_day z → weekday_of_days z = (z + 4) mod 7;
  plus_years_law y n : ok_year y → ok_year (y + n) → plus_years y n = y + n;
  plus_months_law y m n :
    ok_year y → 1 ≤ m ≤ 12 → ok_year (y + (m - 1 + n) / 12) →
    plus_months (y, m) n = (y + (m - 1 + n) / 12, (m - 1 + n) mod 12 + 1);
}.

Definition kMicrosInMilli : Z := 1000.
Definition kMicrosInSecond : Z := 1000 * kMicrosInMilli.
Definition kMicrosInMinute : Z := 60 * kMicrosInSecond.
Definition kMicrosInHour : Z := 60 * kMicrosInMinute.
Definition kMicrosInDay : Z := 24 * kMicrosInHour.

Section TemporalOps.
Context `{DateLibrary}.

(** ** [EpochTimePointMicros] *)

(** [floor<days>], and the rest. *)
Definition floor_days (tp : Z) : Z := tp / kMicrosInDay.
Definition TimeOfDay (tp : Z) : Z := tp - floor_days tp * kMicrosInDay.

Definition YearMonthDay (tp : Z) : Z * Z * Z := ymd_of_days (floor_days tp).

Definition TmYear (tp : Z) : Z := let '(y, _, _) := YearMonthDay tp in y - 1900.
Definition TmMon (tp : Z) : Z := let '(_, m, _) := YearMonthDay tp in m - 1.
Definition TmMday (tp : Z) : Z := let '(_, _, d) := YearMonthDay tp in d.
Definition TmYday (tp : Z) : Z := let '(y, _, _) := YearMonthDay tp in floor_days tp - days_of_ymd y 1 1.

Definition TmWday (tp : Z) : Z := weekday_of_days (floor_days tp).

Definition TmHour (tp : Z) : Z := TimeOfDay tp / kMicrosInHour.
Definition TmMin (tp : Z) : Z := TimeOfDay tp mod kMicrosInHour / kMicrosInMinute.
Definition TmSec (tp : Z) : Z := TimeOfDay tp mod kMicrosInMinute / kMicrosInSecond.

Definition is_leap_year (yy : Z) : bool :=
  if negb (Z.rem yy 4 =? 0) then false
  else if Z.rem yy 400 =? 0 then true
  else negb (Z.rem yy 100 =? 0).

Definition days_in_a_month : list (list Z) :=
  [[31; 28; 31; 30; 31; 30; 31; 31; 30; 31; 30; 31]; [31; 29; 31; 30; 31; 30; 31; 31; 30; 31; 30; 31]].

Definition last_possible_day_in_month (year month : Z) : Z :=
  nth (Z.to_nat (month - 1)) (nth (if is_leap_year year then 1 else 0)%nat days_in_a_month []) 0.

Definition did_days_overflow (y m d : Z) : bool := last_possible_day_in_month y m <? d.

Definition AddDays (num_days tp : Z) : Z :=
  let '(y, m, d) := YearMonthDay tp in (days_of_ymd y m d + num_days) * kMicrosInDay + TimeOfDay tp.

Definition AddYears (num_years tp : Z) : Z :=
  let '(y, m, d) := YearMonthDay tp in days_of_ymd (plus_years y num_years) m d * kMicrosInDay + TimeOfDay tp.

Definition AddMonths (num_months tp : Z) : Z :=
  let '(y, m, d) := YearMonthDay tp in
  let '(y, m) := plus_months (y, m) num_months in
  let tp := days_of_ymd y m d * kMicrosInDay + TimeOfDay tp in
  if did_days_overflow y m d then AddDays (last_possible_day_in_month y m - d) tp else tp.

Definition ClearTimeOfDay (tp : Z) : Z := tp - TimeOfDay tp.

(** ** Weeks *)

(** The same body as [is_leap_year]. *)
Definition IsLeapYear (yy : Z) : bool := is_leap_year yy.

Definition JAN1_WDAY (tp : Z) : Z := Z.rem (TmWday tp - Z.rem (TmYday tp) 7 + 7) 7.

Definition WeekOfCurrentYear (tp : Z) : Z :=
  let jan1_wday := JAN1_WDAY tp in
  if (1 <=? jan1_wday) && (jan1_wday <=? 4) then Z.quot (TmYday tp + jan1_wday - 1) 7 + 1
  else if (5 <=? jan1_wday) && (jan1_wday <=? 6) then Z.quot (TmYday tp - (8 - jan1_wday)) 7 + 1
  else if jan1_wday =? 0 then Z.quot (TmYday tp - 1) 7 + 1
  else 0.

Definition GetJanWeekOfYear (tp : Z) : Z :=
  let jan1_wday := JAN1_WDAY tp in
  if (1 <=? jan1_wday) && (jan1_wday <=? 4) then 1
  else if jan1_wday =? 5 then 53
  else if jan1_wday =? 0 then (if 1 <? TmMday tp then 1 else 52)
  else if TmMday tp =? 3 then 1
  else if IsLeapYear (1900 + TmYear tp - 1) then 53
  else 52.

Definition GetDecWeekOfYear (tp : Z) : Z :=
  let next_jan1_wday := Z.rem (TmWday tp + (31 - TmMday tp) + 1) 7 in
  if next_jan1_wday =? 4 then 1
  else if next_jan1_wday =? 3 then (if negb (TmMday tp =? 29) then 1 else WeekOfCurrentYear tp)
  else if next_jan1_wday =? 2 then (if TmMday tp =? 31 then 1 else WeekOfCurrentYear tp)
  else WeekOfCurrentYear tp.

Definition WeekOfYear (tp : Z) : Z :=
  if TmYday tp <? 3 then GetJanWeekOfYear tp
  else if (TmMon tp =? 11) && (29 <=? TmMday tp) then GetDecWeekOfYear tp
  else WeekOfCurrentYear tp.

(** ** Casts and comparisons *)

(** The result of an operation on [int64_t]. *)
Definition i64 (v : Z) : result Z :=
  if (int64_min <=? v) && (v <=? int64_max) then Ok v else Err (Exn "undefined: overflow").

Definition CastTimestampFromTimestamptz (timestamp shift : Z) : result Z := i64 (timestamp + shift).
Definition CastTimestamptzFromTimestamp (timestamp shift : Z) : result Z := i64 (timestamp + shift).
Definition CastDateFromTimestamp (timestamp : Z) : Z := wrap_s 32 (Z.quot timestamp kMicrosInDay).

Definition DateDiff (lhs rhs : Z) : result Z :=
  if (int32_min <=? lhs - rhs) && (lhs - rhs <=? int32_max) then Ok (lhs - rhs) else Err (Exn "undefined: overflow").

Definition date_micros (date : Z) : result Z := i64 (date * kMicrosInDay).

Definition LessThanDateTimestamp (date timestamp : Z) : result bool := let! d := date_micros date in Ok (d <? timestamp).
Definition LessThanOrEqualToDateTimestamp (date timestamp : Z) : result bool := let! d := date_micros date in Ok (d <=? timestamp).
Definition GreaterThanDateTimestamp (date timestamp : Z) : result bool := let! d := date_micros date in Ok (timestamp <? d).
Definition GreaterThanOrEqualToDateTimestamp (date timestamp : Z) : result bool := let! d := date_micros date in Ok (timestamp <=? d).
Definition EqualDateTimestamp (date timestamp : Z) : result bool := let! d := date_micros date in Ok (d =? timestamp).
Definition NotEqualDateTimestamp (date timestamp : Z) : result bool := let! d := date_micros date in Ok (negb (d =? timestamp)).
Definition LessThanTimestampDate (timestamp date : Z) : result bool := let! d := date_micros date in Ok (timestamp <? d).
Definition LessThanOrEqualToTimestampDate (timestamp date : Z) : result bool := let! d := date_micros date in Ok (timestamp <=? d).
Definition GreaterThanTimestampDate (timestamp date : Z) : result bool := let! d := date_micros date in Ok (d <? timestamp).
Definition GreaterThanOrEqualToTimestampDate (timestamp date : Z) : result bool := let! d := date_micros date in Ok (d <=? timestamp).
Definition EqualTimestampDate (timestamp date : Z) : result bool := let! d := date_micros date in Ok (timestamp =? d).
Definition NotEqualTimestampDate (timestamp date : Z) : result bool := let! d := date_micros date in Ok (negb (timestamp =? d)).

(** ** Parts of a timestamp *)

Definition year_of_tp (tp : Z) : Z := let '(y, _, _) := YearMonthDay tp in y.
Definition month_of_tp (tp : Z) : Z := let '(_, m, _) := YearMonthDay tp in m.

Definition ExtractMillennium (tp : Z) : Z :=
  let tm_year := year_of_tp tp in
  if 0 <? tm_year then Z.quot (tm_year + 999) 1000 else - Z.quot (999 - (tm_year - 1)) 1000.
Definition ExtractCentury (tp : Z) : Z :=
  let tm_year := year_of_tp tp in
  if 0 <? tm_year then Z.quot (tm_year + 99) 100 else - Z.quot (99 - (tm_year - 1)) 100.
Definition ExtractDecade (tp : Z) : Z :=
  let tm_year := year_of_tp tp in
  if 0 <? tm_year then Z.quot tm_year 10 else - Z.quot (8 - (tm_year - 1)) 10.
Definition ExtractYear (tp : Z) : Z :=
  let tm_year := year_of_tp tp in if 0 <? tm_year then tm_year else tm_year - 1.
Definition ExtractQuarter (tp : Z) : Z := (month_of_tp tp - 1) / 3 + 1.
Definition ExtractMonth (tp : Z) : Z := month_of_tp tp.
Definition ExtractWeek (tp : Z) : Z := WeekOfYear tp.
Definition ExtractDay (tp : Z) : Z := TmMday tp.
Definition ExtractHour (tp : Z) : Z := TmHour tp.
Definition ExtractMinute (tp : Z) : Z := TmMin tp.

(** The seconds of the minute in microseconds, of which [ExtractSecond] and
    [ExtractMilliseconds] return the 1000000th and the 1000th part as a [double]. *)
Definition ExtractMicroseconds (tp : Z) : Z :=
  let m := Z.rem tp kMicrosInMinute in
  let m := if m <? 0 then m + kMicrosInMinute else m in
  let sec := Z.quot m kMicrosInSecond in
  let fsec := Z.rem m kMicrosInSecond in
  sec * 1000000 + fsec.

(** ** Truncation *)

Definition DateTruncYearUnits (years_in_unit off_by tp : Z) : Z :=
  let ndays_to_trunc := TmMday tp - 1 in
  let nmonths_to_trunc := TmMon tp in
  let year := 1900 + TmYear tp in
  let year := Z.quot (year - off_by) years_in_unit * years_in_unit + off_by in
  let nyears_to_trunc := TmYear tp - (year - 1900) in
  ClearTimeOfDay (AddYears (- nyears_to_trunc) (AddMonths (- nmonths_to_trunc) (AddDays (- ndays_to_trunc) tp))).

Definition DateTruncMonthUnits (months_in_unit tp : Z) : Z :=
  let ndays_to_trunc := TmMday tp - 1 in
  let nmonths_to_trunc := TmMon tp - Z.quot (TmMon tp) months_in_unit * months_in_unit in
  ClearTimeOfDay (AddMonths (- nmonths_to_trunc) (AddDays (- ndays_to_trunc) tp)).

Definition DateTruncFixedUnit (micros_in_unit tp : Z) : result Z :=
  if tp <? 0 then i64 ((Z.quot (tp + 1) micros_in_unit - 1) * micros_in_unit)
  else Ok (Z.quot tp micros_in_unit * micros_in_unit).

Definition DateTruncMillennium := DateTruncYearUnits 1000 1.
Definition DateTruncCentury := DateTruncYearUnits 100 1.
Definition DateTruncDecade := DateTruncYearUnits 10 0.
Definition DateTruncYear := DateTruncMonthUnits 12.
Definition DateTruncQuarter := DateTruncMonthUnits 3.
Definition DateTruncMonth := DateTruncMonthUnits 1.
Definition DateTruncWeek (tp : Z) : Z :=
  let ndays_to_trunc := if TmWday tp =? 0 then 6 else TmWday tp - 1 in
  ClearTimeOfDay (AddDays (- ndays_to_trunc) tp).
Definition DateTruncDay := DateTruncFixedUnit kMicrosInDay.
Definition DateTruncHour := DateTruncFixedUnit kMicrosInHour.
Definition DateTruncMinute := DateTruncFixedUnit kMicrosInMinute.
Definition DateTruncSecond := DateTruncFixedUnit kMicrosInSecond.
Definition DateTruncMilliseconds := DateTruncFixedUnit kMicrosInMilli.

(** ** Checked arithmetic on [w]-bit integers *)

Definition min_int (w : Z) : Z := - 2 ^ (w - 1).
Definition max_int (w : Z) : Z := 2 ^ (w - 1) - 1.
Definition fits (w v : Z) : bool := (min_int w <=? v) && (v <=? max_int w).

(** [__builtin_add_overflow] and the like. *)
Definition AddOverflow (w lhs rhs : Z) : result Z := if fits w (lhs + rhs) then Ok (lhs + rhs) else Err (Exn "Overflow").
Definition SubOverflow (w lhs rhs : Z) : result Z := if fits w (lhs - rhs) then Ok (lhs - rhs) else Err (Exn "Overflow").
Definition MulOverflow (w lhs rhs : Z) : result Z := if fits w (lhs * rhs) then Ok (lhs * rhs) else Err (Exn "Overflow").

Definition DivSafe (w lhs rhs : Z) : result Z :=
  if rhs =? 0 then Err (Exn "Division by zero")
  else if (lhs =? min_int w) && (rhs =? -1) then Err (Exn "Overflow")
  else Ok (Z.quot lhs rhs).

Definition ModSafe (w lhs rhs : Z) : result Z :=
  if rhs =? 0 then Err (Exn "Division by zero")
  else if (lhs =? min_int w) && (rhs =? -1) then Ok 0
  else Ok (Z.rem lhs rhs).

(** ** The date of a timestamp *)

Definition ok_time (tp : Z) : Prop := ok_day (floor_days tp).

Lemma time_of_day_bounds tp : 0 ≤ TimeOfDay tp < kMicrosInDay.
Proof. unfold TimeOfDay, floor_days. pose proof (Z.mod_pos_bound tp kMicrosInDay ltac:(done)). rewrite Z.mod_eq in * by done. lia. Qed.

Lemma micros_split tp : tp = floor_days tp * kMicrosInDay + TimeOfDay tp.
Proof. unfold TimeOfDay. lia. Qed.

Lemma floor_days_at z t : 0 ≤ t < kMicrosInDay → floor_days (z * kMicrosInDay + t) = z.
Proof. intros Ht. unfold floor_days. symmetry. apply (Z.div_unique _ _ _ t); lia. Qed.
Lemma time_of_day_at z t : 0 ≤ t < kMicrosInDay → TimeOfDay (z * kMicrosInDay + t) = t.
Proof. intros Ht. unfold TimeOfDay. rewrite floor_days_at by done. lia. Qed.

Lemma is_leap_year_eq y : is_leap_year y = leap y.
Proof.
  unfold is_leap_year, leap.
  assert (∀ n, 0 < n → (Z.rem y n =? 0) = (y mod n =? 0)) as E.
  { intros n Hn. apply Bool.eq_iff_eq_true. rewrite !Z.eqb_eq, Z.rem_divide, Z.mod_divide by lia. done. }
  rewrite !E by lia. destruct (y mod 4 =? 0), (y mod 400 =? 0), (y mod 100 =? 0); done.
Qed.

Lemma last_possible_day_eq y m : 1 ≤ m ≤ 12 → last_possible_day_in_month y m = days_in_month y m.
Proof.
  intros Hm. unfold last_possible_day_in_month. rewrite is_leap_year_eq. unfold days_in_month.
  assert (m = 1 ∨ m = 2 ∨ m = 3 ∨ m = 4 ∨ m = 5 ∨ m = 6 ∨ m = 7 ∨ m = 8 ∨ m = 9 ∨ m = 10 ∨ m = 11 ∨ m = 12) as Hc by lia.
  repeat destruct Hc as [->|Hc]; try subst m; by destruct (leap y).
Qed.

Lemma ymd_ok tp :
  ok_time tp →
  ∃ y m d, YearMonthDay tp = (y, m, d) ∧ civil_from_days (floor_days tp) = (y, m, d) ∧ ok_year y ∧ valid_date y m d ∧
           days_from_civil y m d = floor_days tp ∧ days_of_ymd y m d = floor_days tp ∧ 1 ≤ d ≤ 31.
Proof.
  intros Hok. unfold YearMonthDay. rewrite ymd_of_days_law by done. unfold ok_time, ok_day in Hok.
  pose proof (civil_of_day (floor_days tp)) as Hc. destruct (civil_from_days (floor_days tp)) as [[y m] d].
  destruct Hc as [Hv E]. exists y, m, d. pose proof (days_in_month_bounds y m). destruct Hv as [? ?].
  do 4 (split; [done|]). split; [done|]. rewrite days_of_ymd_law by (done || lia). split; [done|lia].
Qed.

Lemma ok_time_at y m d t : ok_year y → valid_date y m d → 0 ≤ t < kMicrosInDay → ok_time (days_from_civil y m d * kMicrosInDay + t).
Proof. intros Hy Hv Ht. unfold ok_time, ok_day. rewrite floor_days_at, day_of_civil by done. done. Qed.
Lemma ymd_at y m d t :
  ok_year y → valid_date y m d → 0 ≤ t < kMicrosInDay → YearMonthDay (days_from_civil y m d * kMicrosInDay + t) = (y, m, d).
Proof.
  intros Hy Hv Ht. pose proof (ok_time_at y m d t Hy Hv Ht) as Hok. unfold YearMonthDay.
  rewrite ymd_of_days_law by done. by rewrite floor_days_at, day_of_civil.
Qed.

Lemma AddDays_eq n tp : ok_time tp → AddDays n tp = (floor_days tp + n) * kMicrosInDay + TimeOfDay tp.
Proof. intros Hok. unfold AddDays. destruct (ymd_ok tp Hok) as (y & m & d & -> & _ & _ & _ & _ & -> & _). done. Qed.

(** Months and years from the first day of a month. *)
Lemma first_valid y m : 1 ≤ m ≤ 12 → valid_date y m 1.
Proof. intros Hm. split; [done|]. pose proof (days_in_month_bounds y m). lia. Qed.

Lemma AddMonths_first y m n t :
  ok_year y → 1 ≤ m ≤ 12 → 0 ≤ t < kMicrosInDay → 0 ≤ m - 1 + n < 12 →
  AddMonths n (days_from_civil y m 1 * kMicrosInDay + t) = days_from_civil y (m + n) 1 * kMicrosInDay + t.
Proof.
  intros Hy Hm Ht Hn. unfold AddMonths. rewrite ymd_at by (done || by apply first_valid).
  rewrite plus_months_law; [|done|done|by rewrite Z.div_small, Z.add_0_r]. rewrite Z.div_small, Z.mod_small by done.
  unfold did_days_overflow. rewrite last_possible_day_eq by lia.
  pose proof (days_in_month_bounds (y + 0) (m - 1 + n + 1)). replace (_ <? 1) with false by (symmetry; apply Z.ltb_ge; lia).
  rewrite time_of_day_at, days_of_ymd_law by (done || lia || by rewrite Z.add_0_r).
  by replace (m - 1 + n + 1) with (m + n) by lia; rewrite Z.add_0_r.
Qed.

Lemma AddYears_first y m n t :
  ok_year y → ok_year (y + n) → 1 ≤ m ≤ 12 → 0 ≤ t < kMicrosInDay →
  AddYears n (days_from_civil y m 1 * kMicrosInDay + t) = days_from_civil (y + n) m 1 * kMicrosInDay + t.
Proof.
  intros Hy Hyn Hm Ht. unfold AddYears. rewrite ymd_at by (done || by apply first_valid).
  by rewrite plus_years_law, time_of_day_at, days_of_ymd_law by (done || lia).
Qed.

Lemma ClearTimeOfDay_at z t : 0 ≤ t < kMicrosInDay → ClearTimeOfDay (z * kMicrosInDay + t) = z * kMicrosInDay.
Proof. intros Ht. unfold ClearTimeOfDay. rewrite time_of_day_at by done. lia. Qed.

(** The first day of the month of a timestamp. *)
Lemma AddDays_first tp y m d :
  ok_time tp → YearMonthDay tp = (y, m, d) → days_from_civil y m d = floor_days tp →
  AddDays (- (d - 1)) tp = days_from_civil y m 1 * kMicrosInDay + TimeOfDay tp.
Proof. intros Hok E Ed. rewrite AddDays_eq by done. rewrite <- Ed, (day_of_month y m d). f_equal. f_equal. lia. Qed.

(** ** Truncation is a floor *)

(** The units of [date_trunc] in the names that are registered. *)
Inductive trunc_unit :=
  | UMillennium | UCentury | UDecade | UYear | UQuarter | UMonth | UWeek | UDay | UHour | UMinute | USecond | UMilliseconds.

Definition DateTrunc (u : trunc_unit) (tp : Z) : result Z :=
  match u with
  | UMillennium => Ok (DateTruncMillennium tp)
  | UCentury => Ok (DateTruncCentury tp)
  | UDecade => Ok (DateTruncDecade tp)
  | UYear => Ok (DateTruncYear tp)
  | UQuarter => Ok (DateTruncQuarter tp)
  | UMonth => Ok (DateTruncMonth tp)
  | UWeek => Ok (DateTruncWeek tp)
  | UDay => DateTruncDay tp
  | UHour => DateTruncHour tp
  | UMinute => DateTruncMinute tp
  | USecond => DateTruncSecond tp
  | UMilliseconds => DateTruncMilliseconds tp
  end.

(** The instants at which a unit starts. *)
Definition year_start_of (n off b : Z) : Prop := ∃ y, (y - off) mod n = 0 ∧ b = days_from_civil y 1 1 * kMicrosInDay.
Definition month_start_of (n b : Z) : Prop :=
  ∃ y m, 1 ≤ m ≤ 12 ∧ (m - 1) mod n = 0 ∧ b = days_from_civil y m 1 * kMicrosInDay.
Definition multiple_of (n b : Z) : Prop := ∃ k, b = k * n.

Definition unit_start (u : trunc_unit) : Z → Prop :=
  match u with
  | UMillennium => year_start_of 1000 1
  | UCentury => year_start_of 100 1
  | UDecade => year_start_of 10 0
  | UYear => year_start_of 1 0
  | UQuarter => month_start_of 3
  | UMonth => month_start_of 1
  | UWeek => λ b, ∃ k, b = (7 * k + 4) * kMicrosInDay
  | UDay => multiple_of kMicrosInDay
  | UHour => multiple_of kMicrosInHour
  | UMinute => multiple_of kMicrosInMinute
  | USecond => multiple_of kMicrosInSecond
  | UMilliseconds => multiple_of kMicrosInMilli
  end.

(** The greatest start that is not after the timestamp. *)
Definition is_floor (start : Z → Prop) (tp r : Z) : Prop := start r ∧ r ≤ tp ∧ ∀ b, start b → b ≤ tp → b ≤ r.

Lemma is_floor_unique start tp r r' : is_floor start tp r → is_floor start tp r' → r = r'.
Proof. intros (H1 & H2 & H3) (H1' & H2' & H3'). apply Z.le_antisymm; auto. Qed.

Lemma day_le z tp : z * kMicrosInDay ≤ tp ↔ z ≤ floor_days tp.
Proof. pose proof (micros_split tp). pose proof (time_of_day_bounds tp). unfold kMicrosInDay, kMicrosInHour, kMicrosInMinute, kMicrosInSecond, kMicrosInMilli in *. lia. Qed.

Lemma trunc_fixed n tp r : 0 < n → DateTruncFixedUnit n tp = Ok r → is_floor (multiple_of n) tp r.
Proof.
  intros Hn E. assert (r = tp / n * n) as ->.
  { unfold DateTruncFixedUnit, i64 in E. destruct (Z.ltb_spec tp 0).
    - assert (Z.quot (tp + 1) n - 1 = tp / n) as Eq; [|rewrite Eq in E; case_match; by simplify_eq].
      assert (Z.quot (tp + 1) n = - ((- (tp + 1)) / n)) as ->.
      { rewrite <- (Z.opp_involutive (tp + 1)) at 1. rewrite Z.quot_opp_l by lia. by rewrite Z.quot_div_nonneg by lia. }
      pose proof (Z.div_mod (- (tp + 1)) n ltac:(lia)) as E1. pose proof (Z.mod_pos_bound (- (tp + 1)) n Hn).
      apply (Z.div_unique _ _ _ (n - 1 - (- (tp + 1)) mod n)); nia.
    - rewrite Z.quot_div_nonneg in E by lia. by simplify_eq. }
  pose proof (Z.div_mod tp n ltac:(lia)). pose proof (Z.mod_pos_bound tp n Hn).
  split; [by exists (tp / n)|]. split; [lia|]. intros b [k ->] Hb. apply Z.mul_le_mono_nonneg_r; [lia|]. apply Z.div_le_lower_bound; lia.
Qed.

Lemma quot_floor a n : 0 < n → 0 ≤ a → Z.quot a n * n = a - a mod n.
Proof. intros Hn Ha. rewrite Z.quot_div_nonneg by lia. rewrite Z.mod_eq by lia. lia. Qed.

(** The last multiple. *)
Lemma multiple_le a b n : 0 < n → a mod n = 0 → a ≤ b → a ≤ b - b mod n.
Proof.
  intros Hn Ha Hab. pose proof (Z.div_mod a n ltac:(lia)). pose proof (Z.div_mod b n ltac:(lia)).
  assert (a / n ≤ b / n) by (apply Z.div_le_mono; lia). nia.
Qed.

Lemma trunc_months n tp :
  0 < n → ok_time tp → is_floor (month_start_of n) tp (DateTruncMonthUnits n tp).
Proof.
  intros Hn Hok. destruct (ymd_ok tp Hok) as (y & m & d & E & _ & Hy & Hv & Ed & _).
  pose proof (time_of_day_bounds tp) as Ht. destruct (Hv) as [Hm Hd].
  pose proof (Z.mod_pos_bound (m - 1) n Hn). pose proof (Z.mod_le (m - 1) n ltac:(lia) Hn).
  assert (DateTruncMonthUnits n tp = days_from_civil y (m - (m - 1) mod n) 1 * kMicrosInDay) as ->.
  { unfold DateTruncMonthUnits, TmMday, TmMon. rewrite E, (AddDays_first _ _ _ _ Hok E Ed), quot_floor by lia.
    rewrite AddMonths_first, ClearTimeOfDay_at by (done || lia). do 2 f_equal. lia. }
  split.
  - exists y, (m - (m - 1) mod n). split; [lia|]. split; [|done].
    replace (m - (m - 1) mod n - 1) with ((m - 1) / n * n) by (rewrite (Z.mod_eq (m - 1) n) by lia; lia). apply Z.mod_mul. lia.
  - split.
    + apply day_le. rewrite <- Ed. pose proof (month_mono y (m - (m - 1) mod n) m). rewrite (day_of_month y m d). lia.
    + intros b (y2 & m2 & Hm2 & Hz & ->) Hb. apply day_le in Hb. rewrite <- Ed in Hb.
      apply Z.mul_le_mono_nonneg_r; [done|].
      pose proof (year_bounds y m d Hv). pose proof (year_bounds y2 m2 1 (first_valid y2 m2 Hm2)).
      pose proof (year_bounds y (m - (m - 1) mod n) 1 (first_valid y (m - (m - 1) mod n) ltac:(lia))).
      destruct (Z.lt_trichotomy y2 y) as [?|[->|?]].
      * pose proof (new_year_mono (y2 + 1) y). lia.
      * apply month_mono; [lia| |lia]. destruct (decide (m < m2)); [pose proof (before_next_month y m d m2 Hv); lia|].
        pose proof (multiple_le (m2 - 1) (m - 1) n Hn Hz). lia.
      * pose proof (new_year_mono (y + 1) y2). lia.
Qed.

Lemma DateTruncYearUnits_eq n off tp y m d :
  ok_time tp → YearMonthDay tp = (y, m, d) → ok_year (Z.quot (y - off) n * n + off) →
  DateTruncYearUnits n off tp = days_from_civil (Z.quot (y - off) n * n + off) 1 1 * kMicrosInDay.
Proof.
  intros Hok E Hq. pose proof (time_of_day_bounds tp) as Ht.
  destruct (ymd_ok tp Hok) as (? & ? & ? & E' & _ & Hy & Hv & Ed & _). rewrite E in E'. injection E' as <- <- <-. destruct Hv as [Hm Hd].
  unfold DateTruncYearUnits, TmMday, TmMon, TmYear. rewrite E, (AddDays_first _ _ _ _ Hok E Ed).
  rewrite AddMonths_first by (done || lia). replace (m + - (m - 1)) with 1 by lia.
  replace (1900 + (y - 1900) - off) with (y - off) by lia. set (q := Z.quot (y - off) n * n + off) in *.
  rewrite AddYears_first, ClearTimeOfDay_at by (done || unfold ok_year in *; lia). do 2 f_equal. lia.
Qed.

Lemma trunc_years n off tp :
  0 < n → ok_year off → ok_time tp → off ≤ fst (fst (YearMonthDay tp)) →
  is_floor (year_start_of n off) tp (DateTruncYearUnits n off tp).
Proof.
  intros Hn Hoff Hok Hge. destruct (ymd_ok tp Hok) as (y & m & d & E & _ & Hy & Hv & Ed & _).
  rewrite E in Hge. cbn in Hge.
  pose proof (Z.mod_pos_bound (y - off) n Hn). pose proof (Z.mod_le (y - off) n ltac:(lia) Hn).
  assert (Z.quot (y - off) n * n + off = y - (y - off) mod n) as Eq by (rewrite quot_floor by lia; lia).
  rewrite (DateTruncYearUnits_eq n off tp y m d), Eq by (done || rewrite Eq; unfold ok_year in *; lia).
  pose proof (year_bounds y m d Hv). split.
  - exists (y - (y - off) mod n). split; [|done].
    replace (y - (y - off) mod n - off) with ((y - off) / n * n) by (rewrite (Z.mod_eq (y - off) n) by lia; lia). apply Z.mod_mul. lia.
  - split.
    + apply day_le. rewrite <- Ed. pose proof (new_year_mono (y - (y - off) mod n) y). lia.
    + intros b (y2 & Hz & ->) Hb. apply day_le in Hb. rewrite <- Ed in Hb. apply Z.mul_le_mono_nonneg_r; [done|]. apply new_year_mono.
      destruct (decide (y < y2)); [pose proof (new_year_mono (y + 1) y2); lia|].
      pose proof (multiple_le (y2 - off) (y - off) n Hn Hz). lia.
Qed.

Lemma trunc_week tp : ok_time tp → is_floor (unit_start UWeek) tp (DateTruncWeek tp).
Proof.
  intros Hok. unfold DateTruncWeek, TmWday. rewrite weekday_of_days_law by done.
  pose proof (time_of_day_bounds tp) as Ht.
  rewrite AddDays_eq, ClearTimeOfDay_at by done.
  assert (floor_days tp + - (if (floor_days tp + 4) mod 7 =? 0 then 6 else (floor_days tp + 4) mod 7 - 1)
          = 7 * ((floor_days tp + 3) / 7) - 3) as ->.
  { destruct (Z.eqb_spec ((floor_days tp + 4) mod 7) 0); Z.to_euclidean_division_equations; lia. }
  split; [|split].
  - exists ((floor_days tp + 3) / 7 - 1). f_equal. lia.
  - apply day_le. Z.to_euclidean_division_equations. lia.
  - intros b [k ->] Hb. apply day_le in Hb. apply Z.mul_le_mono_nonneg_r; [done|]. Z.to_euclidean_division_equations. lia.
Qed.

Lemma year_start_of_months b : month_start_of 12 b ↔ year_start_of 1 0 b.
Proof.
  split.
  - intros (y & m & Hm & Hz & ->). exists y. split; [apply Z.mod_1_r|].
    assert (m = 1) as -> by (rewrite Z.mod_small in Hz by lia; lia). done.
  - intros (y & _ & ->). by exists y, 1.
Qed.

Lemma is_floor_iff P Q tp r : (∀ b, P b ↔ Q b) → is_floor P tp r → is_floor Q tp r.
Proof. intros HPQ (H1 & H2 & H3). split; [by apply HPQ|]. split; [done|]. intros b Hb. apply H3. by apply HPQ. Qed.

(** The timestamps of the calendar are far from the ends of [int64_t]. *)
Lemma ok_time_bounds tp : ok_time tp → -1100000000000000000 ≤ tp ≤ 1100000000000000000.
Proof.
  intros Hok. destruct (ymd_ok tp Hok) as (y & m & d & _ & _ & [? ?] & Hv & Ed & _).
  pose proof (year_bounds y m d Hv). pose proof (new_year_mono (-32767) y ltac:(lia)) as Hl.
  pose proof (new_year_mono (y + 1) 32768 ltac:(lia)) as Hr.
  change (days_from_civil (-32767) 1 1) with (-12687428) in Hl. change (days_from_civil 32768 1 1) with 11248738 in Hr.
  pose proof (micros_split tp). pose proof (time_of_day_bounds tp). change kMicrosInDay with 86400000000 in *. lia.
Qed.

Lemma fixed_total n tp : 0 < n ≤ kMicrosInDay → ok_time tp → ∃ r, DateTruncFixedUnit n tp = Ok r.
Proof.
  intros Hn Hok. apply ok_time_bounds in Hok. unfold DateTruncFixedUnit, i64. destruct (Z.ltb_spec tp 0); [|by eexists].
  change kMicrosInDay with 86400000000 in *.
  pose proof (Z.quot_rem' (tp + 1) n) as E. pose proof (Z.rem_nonpos (tp + 1) n ltac:(lia) ltac:(lia)).
  pose proof (Z.rem_bound_abs (tp + 1) n ltac:(lia)).
  assert (Z.quot (tp + 1) n * n = tp + 1 - Z.rem (tp + 1) n) as Eq by lia.
  rewrite !Z.mul_sub_distr_r, Eq. unfold int64_min, int64_max. rewrite (proj2 (andb_true_iff _ _)); [by eexists|].
  rewrite !Z.leb_le. lia.
Qed.

(** The year from which the units that count years are years of the era. *)
Definition first_year (u : trunc_unit) : Z :=
  match u with UMillennium | UCentury => 1 | UDecade => 0 | _ => -32767 end.

(** Truncation is the floor to the starts of the unit. *)
Lemma date_trunc_is_floor u tp :
  ok_time tp → first_year u ≤ fst (fst (YearMonthDay tp)) → ∃ r, DateTrunc u tp = Ok r ∧ is_floor (unit_start u) tp r.
Proof.
  intros Hok Hy.
  assert (∀ n, 0 < n ≤ kMicrosInDay → ∃ r, DateTruncFixedUnit n tp = Ok r ∧ is_floor (multiple_of n) tp r) as Hf.
  { intros n Hn. destruct (fixed_total n tp Hn Hok) as [r E]. exists r. split; [done|]. by apply trunc_fixed; [lia|]. }
  destruct u; cbn [DateTrunc unit_start first_year] in *;
    try (eexists; split; [reflexivity|]; by (apply trunc_years || apply trunc_months)); try by apply Hf.
  - eexists. split; [reflexivity|]. eapply is_floor_iff; [apply year_start_of_months|]. by apply trunc_months.
  - eexists. split; [reflexivity|]. by apply trunc_week.
Qed.

(** C36: of every timestamp of the calendar, [date_trunc] returns the greatest start of the
    unit that is not after it, for all twelve units; a decade from year 0, a century and a
    millennium from year 1. *)
Theorem date_trunc_floor u tp :
  ok_time tp → first_year u ≤ fst (fst (YearMonthDay tp)) → ∃ r, DateTrunc u tp = Ok r ∧ is_floor (unit_start u) tp r.
Proof. apply date_trunc_is_floor. Qed.

(** Before, the quotient rounds up and the result is later than the timestamp. *)
Lemma trunc_years_late n off tp y m d :
  0 < n → ok_year off → ok_time tp → YearMonthDay tp = (y, m, d) → y < off → (y - off) mod n ≠ 0 → tp < DateTruncYearUnits n off tp.
Proof.
  intros Hn Hoff Hok E Hlt Hz. destruct (ymd_ok tp Hok) as (? & ? & ? & E' & _ & Hy & Hv & Ed & _). rewrite E in E'. injection E' as <- <- <-.
  pose proof (Z.quot_rem' (y - off) n) as Eq. pose proof (Z.rem_nonpos (y - off) n ltac:(lia) ltac:(lia)).
  assert (Z.rem (y - off) n ≠ 0) by (rewrite Z.rem_divide by lia; rewrite Z.mod_divide in Hz by lia; done).
  assert (Z.quot (y - off) n ≤ 0).
  { rewrite <- (Z.opp_involutive (y - off)), Z.quot_opp_l by lia. pose proof (Z.quot_pos (- (y - off)) n). lia. }
  rewrite (DateTruncYearUnits_eq n off tp y m d) by (done || unfold ok_year in *; nia).
  pose proof (year_bounds y m d Hv). pose proof (new_year_mono (y + 1) (Z.quot (y - off) n * n + off) ltac:(lia)).
  apply Z.lt_nge. rewrite day_le. lia.
Qed.

(** ** Weeks of ISO 8601 *)

(** The week of a day is counted in the year of its Thursday. *)
Definition thursday (z : Z) : Z := z - (z + 3) mod 7 + 3.
Definition iso_week (z : Z) : Z :=
  let '(y, _, _) := civil_from_days (thursday z) in (thursday z - days_from_civil y 1 1) / 7 + 1.

Lemma iso_week_in y z :
  days_from_civil y 1 1 ≤ thursday z < days_from_civil (y + 1) 1 1 →
  iso_week z = (thursday z - days_from_civil y 1 1) / 7 + 1.
Proof. intros Hy. unfold iso_week. by destruct (year_unique y (thursday z) Hy) as (? & ? & ->). Qed.

(** The last and the first days of a year. *)
Lemma jan_day y m d : valid_date y m d → days_from_civil y m d - days_from_civil y 1 1 < 31 → m = 1.
Proof.
  intros Hv Hlt. assert (valid_date y 1 (days_from_civil y m d - days_from_civil y 1 1 + 1)) as Hj.
  { pose proof (year_bounds y m d Hv). split; [lia|]. unfold days_in_month. cbn. lia. }
  apply day_of_civil in Hj. rewrite day_of_month in Hj. replace (_ + _) with (days_from_civil y m d) in Hj by lia.
  rewrite day_of_civil in Hj by done. by injection Hj.
Qed.
Lemma dec_day y m d : valid_date y m d → days_from_civil (y + 1) 1 1 - days_from_civil y m d ≤ 31 → m = 12.
Proof.
  intros Hv Hlt. assert (valid_date y 12 (32 - (days_from_civil (y + 1) 1 1 - days_from_civil y m d))) as Hj.
  { pose proof (year_bounds y m d Hv). split; [lia|]. unfold days_in_month. cbn. lia. }
  pose proof (next_year y). apply day_of_civil in Hj. rewrite day_of_month in Hj.
  replace (_ + _) with (days_from_civil y m d) in Hj by lia. rewrite day_of_civil in Hj by done. by injection Hj.
Qed.

(** What the functions read of a timestamp. *)
Record year_day (tp y m d yd len plen : Z) : Prop := {
  yd_ymd : YearMonthDay tp = (y, m, d);
  yd_yday : TmYday tp = yd;
  yd_range : 0 ≤ yd < len;
  yd_len : days_from_civil (y + 1) 1 1 = days_from_civil y 1 1 + len;
  yd_plen : days_from_civil y 1 1 = days_from_civil (y - 1) 1 1 + plen;
  yd_plen_leap : plen = if leap (y - 1) then 366 else 365;
  yd_len_leap : len = 365 ∨ len = 366;
  yd_jan : yd < 3 → d = yd + 1;
  yd_dec : m = 12 ∧ 29 ≤ d → d = yd - len + 32;
  yd_dec_rev : len - 3 ≤ yd → m = 12 ∧ 29 ≤ d;
  yd_day : floor_days tp = days_from_civil y 1 1 + yd;
}.

Lemma year_day_ok tp : ok_time tp → ∃ y m d yd len plen, year_day tp y m d yd len plen.
Proof.
  intros Hok. destruct (ymd_ok tp Hok) as (y & m & d & E & _ & Hy & Hv & Ed & _). pose proof (year_bounds y m d Hv) as Hb.
  pose proof (year_length_eq y) as Hl. pose proof (year_length_eq (y - 1)) as Hp. replace (y - 1 + 1) with y in Hp by lia.
  exists y, m, d, (floor_days tp - days_from_civil y 1 1), (if leap y then 366 else 365), (if leap (y - 1) then 366 else 365).
  pose proof (jan_day y m d Hv) as Hj. pose proof (dec_day y m d Hv) as Hd. pose proof (day_of_month y m d) as Hm.
  pose proof (next_year y) as Hn.
  split; [done| |lia|lia|lia|done|destruct (leap y); auto| | | |lia].
  - unfold TmYday. rewrite E, days_of_ymd_law by (done || lia). done.
  - intros Hlt. assert (m = 1) as -> by (apply Hj; lia). lia.
  - intros [-> ?]. lia.
  - intros Hlt. assert (m = 12) as -> by (apply Hd; lia). lia.
Qed.

Lemma jan1_eq tp y m d yd len plen :
  ok_time tp → year_day tp y m d yd len plen → JAN1_WDAY tp = (days_from_civil y 1 1 + 4) mod 7.
Proof.
  intros Hok []. unfold JAN1_WDAY, TmWday. rewrite weekday_of_days_law, yd_yday0, yd_day0 by done.
  Z.to_euclidean_division_equations. lia.
Qed.

(** The ISO week by the position of the Thursday in the year of the day. *)
Definition week_at (len plen t : Z) : Z := (t - (if t <? 0 then - plen else if t <? len then 0 else len)) / 7 + 1.

Lemma iso_week_at tp y m d yd len plen :
  year_day tp y m d yd len plen →
  iso_week (floor_days tp) = week_at len plen (thursday (floor_days tp) - days_from_civil y 1 1).
Proof.
  intros []. set (z := floor_days tp) in *. set (J := days_from_civil y 1 1) in *. unfold week_at.
  assert (z - 3 ≤ thursday z ≤ z + 3) by (unfold thursday; pose proof (Z.mod_pos_bound (z + 3) 7 ltac:(lia)); lia).
  assert (365 ≤ plen ≤ 366) by (subst plen; destruct (leap (y - 1)); lia).
  destruct (Z.ltb_spec (thursday z - J) 0); [|destruct (Z.ltb_spec (thursday z - J) len)].
  - rewrite (iso_week_in (y - 1)); [|replace (y - 1 + 1) with y by lia; lia]. f_equal. f_equal. lia.
  - rewrite (iso_week_in y) by lia. f_equal. f_equal. lia.
  - pose proof (year_length_eq (y + 1)) as Hn. rewrite (iso_week_in (y + 1)); [f_equal; f_equal; lia|].
    destruct (leap (y + 1)); lia.
Qed.

(** The Thursday of the week of the [yd]-th day of a year that starts on weekday [j]. *)
Lemma thursday_at J yd : thursday (J + yd) - J = yd - (yd + (J + 4) mod 7 + 6) mod 7 + 3.
Proof. unfold thursday. Z.to_euclidean_division_equations; lia. Qed.

(** The days in the weeks of their year. *)
Lemma current_week tp y m d yd len plen :
  ok_time tp → year_day tp y m d yd len plen →
  let j := (days_from_civil y 1 1 + 4) mod 7 in
  let t := yd - (yd + j + 6) mod 7 + 3 in
  0 ≤ t < len → WeekOfCurrentYear tp = week_at len plen t.
Proof.
  intros Hok Hyd. cbv zeta. unfold WeekOfCurrentYear. rewrite (jan1_eq _ _ _ _ _ _ _ Hok Hyd), (yd_yday _ _ _ _ _ _ _ Hyd).
  pose proof (yd_range _ _ _ _ _ _ _ Hyd) as Hr. generalize (days_from_civil y 1 1). intros J.
  pose proof (Z.mod_pos_bound (J + 4) 7 ltac:(lia)) as Hj. generalize dependent ((J + 4) mod 7). intros j Hj Ht. unfold week_at.
  replace (_ <? 0) with false by lia. replace (_ <? len) with true by lia.
  repeat case_match; Z.to_euclidean_division_equations; lia.
Qed.

(** The days before January 4 and after December 28. *)
Lemma january_week tp y m d yd len plen :
  ok_time tp → year_day tp y m d yd len plen → yd < 3 →
  let j := (days_from_civil y 1 1 + 4) mod 7 in GetJanWeekOfYear tp = week_at len plen (yd - (yd + j + 6) mod 7 + 3).
Proof.
  intros Hok Hyd Hlt. cbv zeta. unfold GetJanWeekOfYear, TmMday, TmYear. rewrite (jan1_eq _ _ _ _ _ _ _ Hok Hyd). destruct Hyd.
  unfold IsLeapYear. rewrite yd_ymd0, (yd_jan0 Hlt), is_leap_year_eq. replace (1900 + (y - 1900) - 1) with (y - 1) by lia.
  pose proof (Z.mod_pos_bound (days_from_civil y 1 1 + 4) 7 ltac:(lia)) as Hj. generalize dependent ((days_from_civil y 1 1 + 4) mod 7).
  intros j Hj. assert (yd = 0 ∨ yd = 1 ∨ yd = 2) as Hy by lia.
  assert (j = 0 ∨ j = 1 ∨ j = 2 ∨ j = 3 ∨ j = 4 ∨ j = 5 ∨ j = 6) as Hc by lia. clear - Hy Hc yd_plen_leap0 yd_len_leap0.
  destruct yd_len_leap0 as [-> | ->], (leap (y - 1)); subst plen;
    (destruct Hc as [-> | [-> | [-> | [-> | [-> | [-> | ->]]]]]]; destruct Hy as [-> | [-> | ->]]; reflexivity).
Qed.

Lemma december_week tp y m d yd len plen :
  ok_time tp → year_day tp y m d yd len plen → m = 12 ∧ 29 ≤ d →
  let j := (days_from_civil y 1 1 + 4) mod 7 in GetDecWeekOfYear tp = week_at len plen (yd - (yd + j + 6) mod 7 + 3).
Proof.
  intros Hok Hyd Hd. cbv zeta. unfold GetDecWeekOfYear, WeekOfCurrentYear, TmMday, TmWday. rewrite (jan1_eq _ _ _ _ _ _ _ Hok Hyd). destruct Hyd.
  rewrite weekday_of_days_law, yd_ymd0, yd_yday0, yd_day0 by done. apply yd_dec0 in Hd as E.
  replace ((days_from_civil y 1 1 + yd + 4) mod 7) with (((days_from_civil y 1 1 + 4) mod 7 + yd) mod 7)
    by (Z.to_euclidean_division_equations; lia).
  pose proof (Z.mod_pos_bound (days_from_civil y 1 1 + 4) 7 ltac:(lia)) as Hj. generalize dependent ((days_from_civil y 1 1 + 4) mod 7).
  intros j Hj. assert (yd = d + len - 32) as -> by lia. assert (d = 29 ∨ d = 30 ∨ d = 31) as Hy by lia.
  assert (j = 0 ∨ j = 1 ∨ j = 2 ∨ j = 3 ∨ j = 4 ∨ j = 5 ∨ j = 6) as Hc by lia. clear - Hy Hc yd_len_leap0.
  destruct yd_len_leap0 as [-> | ->];
    (destruct Hc as [-> | [-> | [-> | [-> | [-> | [-> | ->]]]]]]; destruct Hy as [-> | [-> | ->]]; reflexivity).
Qed.

(** The week of the year is the week of ISO 8601: Monday to Sunday, counted in the year that has
    the week's Thursday, also for the first days of January and the last days of December. *)
Theorem week_of_year_iso tp : ok_time tp → WeekOfYear tp = iso_week (floor_days tp).
Proof.
  intros Hok. destruct (year_day_ok tp Hok) as (y & m & d & yd & len & plen & Hyd).
  rewrite (iso_week_at _ _ _ _ _ _ _ Hyd), (yd_day _ _ _ _ _ _ _ Hyd), thursday_at.
  unfold WeekOfYear, TmMon, TmMday. rewrite (yd_yday _ _ _ _ _ _ _ Hyd), (yd_ymd _ _ _ _ _ _ _ Hyd).
  destruct (Z.ltb_spec yd 3); [by eapply january_week|]. destruct (_ && _) eqn:Ed.
  - eapply december_week; [done|done|]. rewrite andb_true_iff, Z.eqb_eq, Z.leb_le in Ed. lia.
  - eapply current_week; [done|done|]. pose proof (yd_dec_rev _ _ _ _ _ _ _ Hyd). pose proof (yd_range _ _ _ _ _ _ _ Hyd).
    pose proof (Z.mod_pos_bound (yd + (days_from_civil y 1 1 + 4) mod 7 + 6) 7 ltac:(lia)).
    rewrite andb_false_iff, Z.eqb_neq, Z.leb_gt in Ed. lia.
Qed.

(** ** Parts put together *)

(** The year of the calendar, which has a year 0, of the year that [extract] returns. *)
Definition calendar_year (year : Z) : Z := if 0 <? year then year else year + 1.

(** Centuries and millennia count from the first year of each side of the era, decades from year 0. *)
Lemma extract_eras tp :
  let Y := ExtractYear tp in let c := ExtractCentury tp in let k := ExtractMillennium tp in let e := ExtractDecade tp in
  (0 < Y → 100 * (c - 1) < Y ≤ 100 * c ∧ 1000 * (k - 1) < Y ≤ 1000 * k) ∧
  (Y ≤ 0 → 100 * c ≤ Y < 100 * (c + 1) ∧ 1000 * k ≤ Y < 1000 * (k + 1)) ∧
  10 * e ≤ calendar_year Y < 10 * (e + 1).
Proof.
  unfold ExtractYear, ExtractCentury, ExtractMillennium, ExtractDecade, calendar_year, year_of_tp.
  destruct (YearMonthDay tp) as [[y m] d]. destruct (Z.ltb_spec 0 y); cbv zeta.
  - replace (0 <? y) with true by lia. Z.to_euclidean_division_equations; lia.
  - replace (0 <? y - 1) with false by lia. Z.to_euclidean_division_equations; lia.
Qed.

(** The parts that [extract] returns put together are the timestamp: the day of year, month and
    day, and the hour, the minute and the microseconds of the minute, each in its range. *)
Theorem extract_parts tp :
  ok_time tp →
  tp = days_from_civil (calendar_year (ExtractYear tp)) (ExtractMonth tp) (ExtractDay tp) * kMicrosInDay
       + ExtractHour tp * kMicrosInHour + ExtractMinute tp * kMicrosInMinute + ExtractMicroseconds tp ∧
  ExtractYear tp ≠ 0 ∧ valid_date (calendar_year (ExtractYear tp)) (ExtractMonth tp) (ExtractDay tp) ∧
  0 ≤ ExtractHour tp < 24 ∧ 0 ≤ ExtractMinute tp < 60 ∧ 0 ≤ ExtractMicroseconds tp < kMicrosInMinute.
Proof.
  intros Hok. destruct (ymd_ok tp Hok) as (y & m & d & E & _ & Hy & Hv & Ed & _).
  assert (calendar_year (ExtractYear tp) = y ∧ ExtractYear tp ≠ 0) as [Ey ?].
  { unfold calendar_year, ExtractYear, year_of_tp. rewrite E. destruct (Z.ltb_spec 0 y); case_match; lia. }
  assert (ExtractMonth tp = m) as -> by (unfold ExtractMonth, month_of_tp; by rewrite E).
  assert (ExtractDay tp = d) as -> by (unfold ExtractDay, TmMday; by rewrite E). rewrite Ey, Ed.
  assert (ExtractMicroseconds tp = tp mod kMicrosInMinute) as ->.
  { unfold ExtractMicroseconds. change kMicrosInSecond with 1000000.
    destruct (Z.ltb_spec (Z.rem tp kMicrosInMinute) 0); change kMicrosInMinute with 60000000 in *; Z.to_euclidean_division_equations; lia. }
  unfold ExtractHour, ExtractMinute, TmHour, TmMin. pose proof (time_of_day_bounds tp) as Ht. pose proof (micros_split tp) as Hs.
  change kMicrosInDay with 86400000000 in *. change kMicrosInHour with 3600000000 in *. change kMicrosInMinute with 60000000 in *.
  generalize dependent (TimeOfDay tp). generalize (floor_days tp). intros z t Ht Hs.
  split_and!; [|done|done|..]; Z.to_euclidean_division_equations; lia.
Qed.

End TemporalOps.

(** [Calendar] is a date library. *)
#[export, program] Instance calendar_library : DateLibrary := {|
  ymd_of_days := civil_from_days;
  days_of_ymd := days_from_civil;
  weekday_of_days z := (z + 4) mod 7;
  plus_years := Z.add;
  plus_months '(y, m) n := (y + (m - 1 + n) / 12, (m - 1 + n) mod 12 + 1);
|}.
Solve All Obligations with done.

(** ** Witnesses *)

(** 2021-01-02 03:04:05 is in week 53 of 2020; its century starts with 2001-01-01. *)
Definition example_time : Z := 1609556645000000.

Lemma week_of_year_iso_witness : ok_time example_time ∧ WeekOfYear example_time = iso_week 18629.
Proof. split; [by vm_compute|]. apply (week_of_year_iso example_time). by vm_compute. Defined.

Lemma date_trunc_floor_witness :
  ok_time example_time ∧ ∃ r, DateTrunc UCentury example_time = Ok r ∧ is_floor (unit_start UCentury) example_time r.
Proof. split; [by vm_compute|]. apply (date_trunc_floor UCentury example_time); by vm_compute. Defined.

Lemma extract_parts_witness : 0 ≤ ExtractHour example_time < 24.
Proof. apply (extract_parts example_time). by vm_compute. Defined.

(** ** Casts, dates and arithmetic *)

(** Before 1970 [CastDateFromTimestamp] returns the day after the one of the timestamp, except at midnight. *)
Lemma cast_date_before_epoch tp :
  in_i32 (floor_days tp + 1) → tp < 0 → TimeOfDay tp ≠ 0 → CastDateFromTimestamp tp = floor_days tp + 1.
Proof.
  intros Hr Hlt Ht. unfold CastDateFromTimestamp. assert (Z.quot tp kMicrosInDay = floor_days tp + 1) as ->; [|by apply wrap_s_32_id].
  unfold TimeOfDay, floor_days in *. change kMicrosInDay with 86400000000 in *. Z.to_euclidean_division_equations; lia.
Qed.
Lemma cast_date_since_epoch tp : 0 ≤ tp → in_i32 (floor_days tp) → CastDateFromTimestamp tp = floor_days tp.
Proof.
  intros Hge Hr. unfold CastDateFromTimestamp. rewrite Z.quot_div_nonneg by (done || lia). by apply wrap_s_32_id.
Qed.

(** A comparison of a date and a timestamp is the one of the timestamps, for the dates whose midnight
    an [int64_t] holds. *)
Lemma date_timestamp_compare date tp :
  in_i64 (date * kMicrosInDay) →
  LessThanDateTimestamp date tp = Ok (bool_decide (date * kMicrosInDay < tp)) ∧
  LessThanOrEqualToDateTimestamp date tp = Ok (bool_decide (date ≤ floor_days tp)).
Proof.
  intros [H1 H2]. unfold LessThanDateTimestamp, LessThanOrEqualToDateTimestamp, date_micros, i64.
  apply Z.leb_le in H1, H2. rewrite H1, H2. cbn [andb rbind].
  split; f_equal.
  - destruct (Z.ltb_spec (date * kMicrosInDay) tp); symmetry; [by apply bool_decide_eq_true|apply bool_decide_eq_false; lia].
  - apply Bool.eq_iff_eq_true. rewrite Z.leb_le, bool_decide_eq_true. apply day_le.
Qed.

(** Division fails on zero and on the one quotient that does not fit, and the remainder never does. *)
Lemma quot_fits w a b : 0 < w → fits w a = true → b ≠ 0 → fits w (Z.quot a b) = negb ((a =? min_int w) && (b =? -1)).
Proof.
  intros Hw Ha Hb. unfold fits, min_int, max_int in *. pose proof (Z.pow_pos_nonneg 2 (w - 1) ltac:(lia) ltac:(lia)) as Hp.
  generalize dependent (2 ^ (w - 1)). intros p Ha Hp. rewrite andb_true_iff, !Z.leb_le in Ha.
  pose proof (Z.quot_abs a b Hb) as Hq. rewrite Z.quot_div_nonneg in Hq by lia.
  destruct (Z.eqb_spec a (- p)) as [->|], (Z.eqb_spec b (-1)) as [->|]; cbn [andb negb].
  - change (-1) with (Z.opp 1). rewrite (Z.quot_opp_opp p 1), Z.quot_1_r by lia. lia.
  - apply andb_true_iff. rewrite !Z.leb_le. destruct (decide (b = 1)) as [->|]; [rewrite Z.quot_1_r; lia|].
    assert (Z.abs (- p) / Z.abs b < Z.abs (- p)) by (apply Z.div_lt; lia). lia.
  - change (-1) with (Z.opp 1). rewrite (Z.quot_opp_r a 1), Z.quot_1_r by lia. lia.
  - apply andb_true_iff. rewrite !Z.leb_le.
    assert (Z.abs a / Z.abs b ≤ Z.abs a) by (apply Z.div_le_upper_bound; nia). lia.
Qed.

Lemma division_exact w lhs rhs :
  0 < w → fits w lhs = true → fits w rhs = true → rhs ≠ 0 →
  DivSafe w lhs rhs = (if fits w (Z.quot lhs rhs) then Ok (Z.quot lhs rhs) else Err (Exn "Overflow")) ∧
  ModSafe w lhs rhs = Ok (Z.rem lhs rhs) ∧ fits w (Z.rem lhs rhs) = true.
Proof.
  intros Hw Hl Hr Hnz. unfold DivSafe, ModSafe. rewrite quot_fits by done. rewrite (proj2 (Z.eqb_neq _ _) Hnz).
  assert (fits w (Z.rem lhs rhs) = true) as Hf.
  { unfold fits in *. rewrite andb_true_iff, !Z.leb_le in *. pose proof (Z.rem_bound_abs lhs rhs Hnz).
    assert (0 < max_int w + 1) by (unfold max_int; pose proof (Z.pow_pos_nonneg 2 (w - 1)); lia).
    assert (min_int w = - (max_int w + 1)) by (unfold min_int, max_int; lia). lia. }
  destruct (_ && _) eqn:E; cbn [negb]; [|by split_and!]. apply andb_true_iff in E as [_ ->%Z.eqb_eq]. split; [done|].
  split; [|done]. change (-1) with (Z.opp 1). by rewrite (Z.rem_opp_r lhs 1), Z.rem_1_r by lia.
Qed.
