(* ===== verification/RowFilter.v ===== *)
(** * RowFilter: row filters as expressions of Gandiva

    [iceberg/filter/row_filter/row_filter.cpp], [row_filter.h], [registry.cpp],
    [arrow_types.cpp] and [extend_gandiva/register_functions.cpp].  An expression of
    Gandiva is a tree of the nodes that [TreeExprBuilder] makes; what Gandiva computes of
    it is in [RowFilterSemantics].  Two [DataType]s of a parameterless type are the same
    object, so that [==] of pointers and [Equals] are equality of [ArrowType]s. *)

From stdpp Require Import base list strings.
From Stdlib Require Import Ascii ZArith Lia.
From S2P Require Import Prelude FilterValue StatsGetter.

Local Open Scope Z_scope.

(** ** Types and expressions *)

(** [ATimestamp] is [timestamp(MICRO)], [ATimestamptz] is [timestamp(MICRO, UTC)]. *)
Inductive ArrowType :=
| ABool | AInt16 | AInt32 | AInt64 | AFloat32 | AFloat64 | AUtf8 | ADate32 | ATimestamp | ATimestamptz | ATime64
| ADecimal (precision scale : Z) | AOther (name : string).

#[export] Instance ArrowType_eq_dec : EqDecision ArrowType.
Proof. solve_decision. Defined.

Definition type_eqb (a b : ArrowType) : bool :=
  match a, b with
  | ABool, ABool | AInt16, AInt16 | AInt32, AInt32 | AInt64, AInt64 | AFloat32, AFloat32 | AFloat64, AFloat64
  | AUtf8, AUtf8 | ADate32, ADate32 | ATimestamp, ATimestamp | ATimestamptz, ATimestamptz | ATime64, ATime64 => true
  | ADecimal p s, ADecimal p' s' => (p =? p') && (s =? s')
  | AOther n, AOther n' => String.eqb n n'
  | _, _ => false
  end.

Lemma type_eqb_eq a b : type_eqb a b = true ↔ a = b.
Proof.
  destruct a, b; cbn; try (split; [discriminate|intros [=]]); try done.
  - rewrite andb_true_iff, !Z.eqb_eq. split; [by intros [-> ->]|by intros [= -> ->]].
  - rewrite String.eqb_eq. split; [by intros ->|by intros [= ->]].
Qed.

(** The alternatives of [gandiva::LiteralHolder]. *)
Inductive LiteralHolder :=
| LBool (b : bool) | LInt16 (z : Z) | LInt32 (z : Z) | LInt64 (z : Z) | LFloat (f : flt) | LDouble (f : flt)
| LString (s : string) | LDecimal (value precision scale : Z).

(** A literal without a holder is null. *)
Inductive GNode :=
| GField (type : ArrowType) (name : string)
| GLiteral (type : ArrowType) (holder : option LiteralHolder)
| GFunction (name : string) (params : list GNode) (type : ArrowType)
| GIf (condition then_node else_node : GNode) (type : ArrowType)
| GBoolean (use_or : bool) (children : list GNode)
| GIn (eval_expr : GNode) (values : list LiteralHolder).

Definition gtype (g : GNode) : ArrowType :=
  match g with
  | GField t _ | GLiteral t _ | GFunction _ _ t | GIf _ _ _ t => t
  | GBoolean _ _ | GIn _ _ => ABool
  end.

Definition MakeNull (t : ArrowType) : GNode := GLiteral t None.

(** ** Registration of functions *)

Inductive ExternalFunctionsRegistrationStatus := kTodo | kDone | kFailed.

(** [without_checks] is the result of [RegisterFunctionsWithoutChecks]. *)
Definition RegisterFunctions (without_checks : result unit) (registration_status : ExternalFunctionsRegistrationStatus) :
    result unit * ExternalFunctionsRegistrationStatus :=
  match registration_status with
  | kTodo => match without_checks with Ok _ => (Ok (), kDone) | Err e => (Err e, kFailed) end
  | kFailed => (Err (StatusError "RegisterFunctions: failed"), kFailed)
  | kDone => (Ok (), kDone)
  end.

(** ** [GandivaFunctionRegistry] *)

Section registry.
Context (timestamp_to_timestamptz_shift_us_ : Z).

Definition PromoteToInt4 (g : GNode) : GNode := GFunction "castINT" [g] AInt32.
Definition PromoteToInt8 (g : GNode) : GNode := GFunction "castBIGINT" [g] AInt64.
Definition PromoteToFloat8 (g : GNode) : GNode := GFunction "castFLOAT8" [g] AFloat64.
Definition PromoteToTimestamp (g : GNode) : GNode :=
  GFunction "castTIMESTAMP" [g; GLiteral AInt64 (Some (LInt64 (- timestamp_to_timestamptz_shift_us_)))] ATimestamp.
Definition PromoteToTimestamptz (g : GNode) : GNode :=
  GFunction "castTIMESTAMPTZ" [g; GLiteral AInt64 (Some (LInt64 timestamp_to_timestamptz_shift_us_))] ATimestamptz.

(** The new [a]. *)
Definition PromoteLtoR (a b : GNode) : GNode :=
  let a := if type_eqb (gtype a) AInt16 && type_eqb (gtype b) AInt32 then PromoteToInt4 a else a in
  let a := if (type_eqb (gtype a) AInt32 || type_eqb (gtype a) AInt16) && type_eqb (gtype b) AInt64
           then PromoteToInt8 a else a in
  let a := if type_eqb (gtype a) AFloat32 && type_eqb (gtype b) AFloat64 then PromoteToFloat8 a else a in
  if type_eqb (gtype a) ATimestamptz && (type_eqb (gtype b) ATimestamp || type_eqb (gtype b) ADate32)
  then PromoteToTimestamp a else a.

Definition Promote (l r : GNode) : GNode * GNode :=
  let l := PromoteLtoR l r in
  let r := PromoteLtoR r l in
  (l, r).

(** The visitors of one literal. *)
Definition string_literal (what : string) (g : GNode) : result string :=
  match g with
  | GLiteral _ None => Err (StatusError (what +:+ ": null is not expected"))
  | GLiteral _ (Some (LString s)) => Ok s
  | GLiteral _ (Some _) => Err (StatusError (what +:+ ": string expected"))
  | _ => Err (StatusError "NotImplemented")
  end.

Definition backslash : ascii := ascii_of_N 92.

Definition LikePatternValidator (g : GNode) : result unit :=
  let! pattern := string_literal "LikePatternValidator" g in
  if existsb (Ascii.eqb backslash) (String.list_ascii_of_string pattern)
  then Err (StatusError "LikePatternValidator: escape characters are not supported") else Ok ().

Definition TimeUnitExtractor (g : GNode) : result string := string_literal "TimeUnitExtractor" g.

Definition IsComparison (id : FunctionID) : bool :=
  match id with
  | kLessThan | kLessThanOrEqualTo | kGreaterThan | kGreaterThanOrEqualTo | kEqual | kNotEqual => true
  | _ => false
  end.

Definition IsArithmetic (id : FunctionID) : bool :=
  match id with
  | kAddWithChecks | kAddWithoutChecks | kSubtractWithoutChecks | kSubtractWithChecks | kMultiplyWithoutChecks
  | kMultiplyWithChecks | kDivideWithoutChecks | kDivideWithChecks | kModuloWithChecks => true
  | _ => false
  end.

(** [arguments[i]]. *)
Definition argument (arguments : list GNode) (i : nat) : result GNode :=
  match arguments !! i with Some g => Ok g | None => Err (Exn "undefined: no such argument") end.

(** A function of the type of its first argument. *)
Definition same_type (name : string) (arguments : list GNode) : result GNode :=
  let! a := argument arguments 0 in Ok (GFunction name arguments (gtype a)).

Definition boolean_not (g : GNode) : GNode := GFunction "not" [g] ABool.

(** [toupper] of the first character of a name in lower case. *)
Definition capitalize (s : string) : string :=
  match s with
  | EmptyString => EmptyString
  | String c s => let n := N_of_ascii c in String (if (97 <=? n)%N && (n <=? 122)%N then ascii_of_N (n - 32) else c) s
  end.

Definition trunc_fields : list string :=
  ["millennium"; "century"; "decade"; "year"; "quarter"; "month"; "week"; "day"; "hour"; "minute"; "second"; "milliseconds"].
Definition extract_fields : list string := trunc_fields ++ ["microseconds"].

(** [registered] is the result of [RegisterFunctions]. *)
Definition CreateFunction (registered : result unit) (function_id : FunctionID) (arguments : list GNode) : result GNode :=
  let! _ := registered in
  let arguments :=
    match arguments with
    | [a; b] => if IsComparison function_id || IsArithmetic function_id
                then let '(a, b) := Promote a b in [a; b] else arguments
    | _ => arguments
    end in
  match function_id with
  | kLessThan => Ok (GFunction "less_than" arguments ABool)
  | kLessThanOrEqualTo => Ok (GFunction "less_than_or_equal_to" arguments ABool)
  | kGreaterThan => Ok (GFunction "greater_than" arguments ABool)
  | kGreaterThanOrEqualTo => Ok (GFunction "greater_than_or_equal_to" arguments ABool)
  | kEqual => Ok (GFunction "equal" arguments ABool)
  | kNotEqual => Ok (GFunction "not_equal" arguments ABool)
  | kLike | kNotLike =>
      let! pattern := argument arguments 1 in
      let! _ := LikePatternValidator pattern in
      let arguments := arguments ++ [GLiteral AUtf8 (Some (LString (String backslash EmptyString)))] in
      let res := GFunction "like" arguments ABool in
      Ok (if bool_decide (function_id = kNotLike) then boolean_not res else res)
  | kILike | kNotILike =>
      let! pattern := argument arguments 1 in
      let! _ := LikePatternValidator pattern in
      let res := GFunction "ilike" arguments ABool in
      Ok (if bool_decide (function_id = kNotILike) then boolean_not res else res)
  | kAddWithChecks => same_type "AddOverflow" arguments
  | kSubtractWithChecks => same_type "SubOverflow" arguments
  | kMultiplyWithChecks => same_type "MulOverflow" arguments
  | kDivideWithChecks => same_type "DivSafe" arguments
  | kModuloWithChecks => same_type "ModSafe" arguments
  | kAddWithoutChecks => same_type "add" arguments
  | kSubtractWithoutChecks => same_type "subtract" arguments
  | kMultiplyWithoutChecks => same_type "multiply" arguments
  | kDivideWithoutChecks => same_type "divide" arguments
  | kBitwiseAnd => same_type "bitwise_and" arguments
  | kBitwiseOr => same_type "bitwise_or" arguments
  | kBitwiseNot => same_type "bitwise_not" arguments
  | kXor => same_type "xor" arguments
  | kAbsolute => same_type "abs" arguments
  | kNegative => same_type "negative" arguments
  | kSign => same_type "sign" arguments
  | kCeil => same_type "ceil" arguments
  | kFloor => same_type "floor" arguments
  | kRound => same_type "BankersRound" arguments
  | kSqrt => same_type "sqrt" arguments
  | kCbrt => same_type "cbrt" arguments
  | kExp => same_type "exp" arguments
  | kLog10 => same_type "log10" arguments
  | kSin => same_type "sin" arguments
  | kCos => same_type "cos" arguments
  | kTan => same_type "tan" arguments
  | kCot => same_type "cot" arguments
  | kAtan => same_type "atan" arguments
  | kAtan2 => same_type "atan2" arguments
  | kAsin => same_type "asin" arguments
  | kAcos => same_type "acos" arguments
  | kSinh => same_type "sinh" arguments
  | kCosh => same_type "cosh" arguments
  | kTanh => same_type "tanh" arguments
  | kCharLength => Ok (GFunction "char_length" arguments AInt32)
  | kLower => same_type "lower" arguments
  | kUpper => same_type "upper" arguments
  | kLTrim => same_type "ltrim" arguments
  | kRTrim => same_type "rtrim" arguments
  | kBTrim => same_type "btrim" arguments
  | kSubstring =>
      match arguments with
      | [] => Err (Exn "undefined: no such argument")
      | a :: rest => Ok (GFunction "substring" (a :: map PromoteToInt8 rest) (gtype a))
      end
  | kLocate =>
      match arguments with
      | a :: b :: rest => Ok (GFunction "locate" (b :: a :: rest) AInt32)
      | _ => Err (Exn "undefined: no such argument")
      end
  | kConcatenate => same_type "concatOperator" arguments
  | kIsNull =>
      match arguments with
      | [] => Err (Exn "undefined: no such argument")
      | a :: rest =>
          let a := if type_eqb (gtype a) ATimestamptz then PromoteToTimestamp a else a in
          Ok (GFunction "isnull" (a :: rest) ABool)
      end
  | kCastInt8 => Ok (GFunction "castBIGINT" arguments AInt64)
  | kCastInt4 => Ok (GFunction "castINT" arguments AInt32)
  | kCastFloat8 => Ok (GFunction "castFLOAT8" arguments AFloat64)
  | kDateDiff => Ok (GFunction "DateDiff" arguments AInt32)
  | kExtractTimestamp =>
      let! a := argument arguments 0 in
      let! unit := TimeUnitExtractor a in
      let unit := AsciiStrToLower unit in
      if bool_decide (unit ∈ extract_fields) then
        let! b := argument arguments 1 in Ok (GFunction ("Extract" +:+ capitalize unit) [b] AFloat64)
      else Err (StatusError ("ExtractTimestamp for " +:+ unit +:+ " is not supported"))
  | kDateTrunc =>
      let! a := argument arguments 0 in
      let! unit := TimeUnitExtractor a in
      let unit := AsciiStrToLower unit in
      if bool_decide (unit ∈ trunc_fields) then
        let! b := argument arguments 1 in Ok (GFunction ("DateTrunc" +:+ capitalize unit) [b] (gtype b))
      else Err (StatusError ("DateTrunc for " +:+ unit +:+ " is not supported"))
  | kCastTimestamp => let! a := argument arguments 0 in Ok (PromoteToTimestamp a)
  | kCastTimestamptz => let! a := argument arguments 0 in Ok (PromoteToTimestamptz a)
  | kCastDate =>
      match arguments with
      | [] => Err (Exn "undefined: no such argument")
      | a :: rest =>
          let a := if type_eqb (gtype a) ATimestamptz then PromoteToTimestamp a else a in
          Ok (GFunction "castDATE" (a :: rest) ADate32)
      end
  end.
End registry.

(** ** [RowFilterVisitor] *)

Section visitor.
Context (Decimal128_FromString : string → result (Z * Z * Z)).
Context (CreateField : string → result (ArrowType * string)).
Context (create_function : FunctionID → list GNode → result GNode).

(** Value, precision and scale. *)
Definition StringToDecimalScalar (raw_number : string) : result LiteralHolder :=
  let! '(decimal, precision, scale) := Decimal128_FromString raw_number in
  Ok (LDecimal decimal (if precision =? 0 then 1 else precision) scale).

Definition ProcessNull (t : ValueType) : result GNode :=
  match t with
  | VT.kBool => Ok (MakeNull ABool)
  | VT.kInt2 => Ok (MakeNull AInt16)
  | VT.kInt4 => Ok (MakeNull AInt32)
  | VT.kInt8 => Ok (MakeNull AInt64)
  | VT.kFloat4 => Ok (MakeNull AFloat32)
  | VT.kFloat8 => Ok (MakeNull AFloat64)
  | VT.kDate => Ok (MakeNull ADate32)
  | VT.kTimestamp => Ok (MakeNull ATimestamp)
  | VT.kTimestamptz => Ok (MakeNull ATimestamptz)
  | VT.kNumeric => Ok (MakeNull (ADecimal 1 0))
  | VT.kTime => Ok (MakeNull ATime64)
  | VT.kString => Ok (MakeNull AUtf8)
  | VT.kInterval => Err (StatusError "Internal error in iceberg. Null-interval is not expected")
  end.

Definition VisitValue (t : ValueType) : phys t → result GNode :=
  match t with
  | VT.kBool => λ b, Ok (GLiteral ABool (Some (LBool b)))
  | VT.kInt2 => λ z, Ok (GLiteral AInt16 (Some (LInt16 z)))
  | VT.kInt4 => λ z, Ok (GLiteral AInt32 (Some (LInt32 z)))
  | VT.kInt8 => λ z, Ok (GLiteral AInt64 (Some (LInt64 z)))
  | VT.kFloat4 => λ f, Ok (GLiteral AFloat32 (Some (LFloat f)))
  | VT.kFloat8 => λ f, Ok (GLiteral AFloat64 (Some (LDouble f)))
  | VT.kString => λ s, Ok (GLiteral AUtf8 (Some (LString s)))
  | VT.kDate => λ z, Ok (GFunction "castDate" [GLiteral AInt32 (Some (LInt32 z))] ADate32)
  | VT.kTimestamp => λ z, Ok (GFunction "castTIMESTAMP" [GLiteral AInt64 (Some (LInt64 z))] ATimestamp)
  | VT.kTimestamptz => λ z, Ok (GFunction "castTIMESTAMPTZ" [GLiteral AInt64 (Some (LInt64 z))] ATimestamptz)
  | VT.kNumeric => λ raw_number,
      let! scalar := StringToDecimalScalar raw_number in
      match scalar with
      | LDecimal _ p s => Ok (GLiteral (ADecimal p s) (Some scalar))
      | _ => Err (Exn "undefined: not a decimal")
      end
  | VT.kInterval => λ i,
      if i.1 =? 0 then Ok (GLiteral AInt64 (Some (LInt64 i.2)))
      else Err (StatusError "Interval with months is not supported")
  | VT.kTime => λ _, Err (StatusError "RowFilter (ConstNode): value type is not supported")
  end.

Definition VisitConst (v : Value) : result GNode :=
  match v_value v with None => ProcessNull (v_type v) | Some x => VisitValue (v_type v) x end.

Definition VisitVariable (value_type : ValueType) (column_name : string) : result GNode :=
  match CreateField column_name with
  | Ok (t, name) => Ok (GField t name)
  | Err _ => ProcessNull value_type
  end.

(** The set as a list, each value [R] as a literal. *)
Definition ValuesToUnorderedSet {A} (literal : A → LiteralHolder) (values : list (option A)) : result (list LiteralHolder) :=
  map_ok (λ maybe_value, match maybe_value with
                         | None => Err (StatusError "Null not supported")
                         | Some x => Ok (literal x)
                         end) values.

Definition MakeIn {A} (scalar : GNode) (literal : A → LiteralHolder) (values : list (option A)) : result GNode :=
  let! values := ValuesToUnorderedSet literal values in Ok (GIn scalar values).

Definition in_unsupported : result GNode := Err (StatusError "IN for type is not supported").

Definition try_to_build_in (scalar : GNode) (t : ValueType) : list (option (phys t)) → result GNode :=
  match t with
  | VT.kInt2 | VT.kInt4 => λ values : list (option Z),
      let scalar := if type_eqb (gtype scalar) AInt16 then PromoteToInt4 scalar else scalar in
      if type_eqb (gtype scalar) AInt32 then MakeIn scalar LInt32 values
      else if type_eqb (gtype scalar) AInt64 then MakeIn scalar LInt64 values
      else in_unsupported
  | VT.kInt8 => λ values : list (option Z),
      let scalar := if type_eqb (gtype scalar) AInt32 || type_eqb (gtype scalar) AInt16
                    then PromoteToInt8 scalar else scalar in
      if type_eqb (gtype scalar) AInt64 then MakeIn scalar LInt64 values else in_unsupported
  | VT.kFloat4 => λ values : list (option flt),
      if type_eqb (gtype scalar) AFloat32 then MakeIn scalar LFloat values
      else if type_eqb (gtype scalar) AFloat64 then MakeIn scalar LDouble values
      else in_unsupported
  | VT.kFloat8 => λ values : list (option flt),
      let scalar := if type_eqb (gtype scalar) AFloat32 then PromoteToFloat8 scalar else scalar in
      if type_eqb (gtype scalar) AFloat64 then MakeIn scalar LDouble values else in_unsupported
  | VT.kString => λ values : list (option string),
      if type_eqb (gtype scalar) AUtf8 then MakeIn scalar LString values else in_unsupported
  | _ => λ _, in_unsupported
  end.

(** Whether a comparison with the elements of an array is tried as [IN]. *)
Definition is_in (func_id : FunctionID) (use_or : bool) : bool :=
  (bool_decide (func_id = kEqual) && use_or) || (bool_decide (func_id = kNotEqual) && negb use_or).

(** In Gandiva null in a set is false. *)
Definition in_or_null (func_id : FunctionID) (scalar in_node : GNode) : GNode :=
  let res := GIf (GFunction "isnull" [scalar] ABool) (MakeNull ABool) in_node ABool in
  if bool_decide (func_id = kNotEqual) then boolean_not res else res.

Fixpoint Visit (node : Node) : result GNode :=
  match node with
  | FunctionNode s arguments =>
      let! evaluated_arguments := map_ok Visit arguments in
      create_function (function_id s) evaluated_arguments
  | ConstNode v => VisitConst v
  | VariableNode t c => VisitVariable t c
  | ScalarOverArrayFunctionNode s use_or scalar array =>
      (* [Visit] of [ScalarOverArrayToLogical] of the node, see [Visit_rewritten]. *)
      let logical :=
        let! gandiva_args := map_ok (λ maybe_value,
          let! a := Visit scalar in
          let! b := VisitConst {| v_type := a_type array; v_value := maybe_value |} in
          create_function (function_id s) [a; b]) (a_values array) in
        Ok (GBoolean use_or gandiva_args) in
      if is_in (function_id s) use_or then
        let! evaluated_scalar := Visit scalar in
        match try_to_build_in evaluated_scalar (a_type array) (a_values array) with
        | Ok in_node => Ok (in_or_null (function_id s) evaluated_scalar in_node)
        | Err _ => logical
        end
      else logical
  | IfNode condition then_node else_node =>
      let! condition_node := Visit condition in
      let! then_node := Visit then_node in
      let! else_node := Visit else_node in
      if type_eqb (gtype then_node) (gtype else_node) then Ok (GIf condition_node then_node else_node (gtype then_node))
      else Err (StatusError "RowFilter (IfNode): types are different")
  | LogicalNode kNot arguments =>
      match arguments with
      | [a] => let! arg := Visit a in Ok (boolean_not arg)
      | _ => Err (StatusError "RowFilter (LogicalNode): not operation expects only 1 argument")
      end
  | LogicalNode kOr arguments => let! args := map_ok Visit arguments in Ok (GBoolean true args)
  | LogicalNode kAnd arguments => let! args := map_ok Visit arguments in Ok (GBoolean false args)
  end.

(** The visit of the comparisons with each element. *)
Lemma Visit_rewritten s use_or scalar array :
  Visit (ScalarOverArrayToLogical s use_or scalar array)
  = let! gandiva_args := map_ok (λ maybe_value,
      let! a := Visit scalar in
      let! b := VisitConst {| v_type := a_type array; v_value := maybe_value |} in
      create_function (function_id s) [a; b]) (a_values array) in
    Ok (GBoolean use_or gandiva_args).
Proof.
  unfold ScalarOverArrayToLogical.
  assert (∀ l : list (option (phys (a_type array))),
    map_ok Visit (List.map (λ maybe_value, FunctionNode s
      [scalar; ConstNode {| v_type := a_type array; v_value := maybe_value |}]) l)
    = map_ok (λ maybe_value, let! a := Visit scalar in
        let! b := VisitConst {| v_type := a_type array; v_value := maybe_value |} in create_function (function_id s) [a; b]) l) as E.
  { induction l as [|o l IH]; [done|]. cbn [List.map map_ok]. rewrite IH. cbn [Visit map_ok].
    destruct (Visit scalar) as [a|]; [|done]. cbn [rbind]. by destruct (VisitConst _). }
  destruct use_or; cbn [Visit]; by rewrite E.
Qed.
End visitor.

(** ** [TrivialArrowFieldResolver] *)

Definition TrivialArrowFieldResolver (fields : list (ArrowType * string)) (column_name : string) : result (ArrowType * string) :=
  match List.find (λ f, bool_decide (AsciiStrToLower f.2 = AsciiStrToLower column_name)) fields with
  | Some f => Ok f
  | None => Err (StatusError ("Column " +:+ column_name +:+ " not found"))
  end.

(** ** [RowFilter] *)

Section filter.
Context {Schema Filter Batch : Type}.
(** [ToString] of a condition and of a schema, [gandiva::Filter::Make] and [Filter::Evaluate]. *)
Context (condition_to_string : GNode → string) (schema_to_string : Schema → string).
Context (Make : Schema → GNode → result Filter) (Evaluate : Filter → Batch → result (list Z)).

Record RowFilter := { last_schema_as_str_ : string; last_condition_as_str_ : string; filter_ : option Filter }.

Definition make_RowFilter : RowFilter :=
  {| last_schema_as_str_ := EmptyString; last_condition_as_str_ := EmptyString; filter_ := None |}.

(** [visited] is the result of the visitor on the root. *)
Definition BuildFilter (registered : result unit) (visited : result GNode) (batch_schema : Schema) (self : RowFilter) :
    result unit * RowFilter :=
  match (let! _ := registered in visited) with
  | Err e => (Err e, self)
  | Ok condition =>
      if String.eqb (condition_to_string condition) (last_condition_as_str_ self)
         && String.eqb (schema_to_string batch_schema) (last_schema_as_str_ self)
      then (Ok (), self)
      else
        let made := Make batch_schema condition in
        let filter := match made with Ok f => Some f | Err _ => None end in
        ((let! _ := made in Ok ()),
         {| last_schema_as_str_ := schema_to_string batch_schema; last_condition_as_str_ := condition_to_string condition;
            filter_ := filter |})
  end.

(** The indices that the filter writes into the selection vector. *)
Definition ApplyFilter (record_batch : Batch) (self : RowFilter) : result (list Z) :=
  match filter_ self with
  | None => Err (StatusError "RowFilter (ApplyFilter): filter is not set")
  | Some f => Evaluate f record_batch
  end.

(** The filter that is kept was made for the condition and the schema that are kept, unless the last
    attempt to make one failed. *)
Definition filter_kept (self : RowFilter) : Prop :=
  ∀ f, filter_ self = Some f →
  ∃ condition schema, Make schema condition = Ok f ∧ condition_to_string condition = last_condition_as_str_ self ∧
                      schema_to_string schema = last_schema_as_str_ self.

Lemma BuildFilter_kept registered visited schema self :
  filter_kept self → filter_kept (BuildFilter registered visited schema self).2.
Proof.
  intros Hk. unfold BuildFilter. destruct (rbind registered _) as [condition|]; [|done].
  destruct (_ && _); [done|]. intros f Hf. cbn in Hf. destruct (Make schema condition) as [f'|] eqn:E; [|done].
  simplify_eq. by exists condition, schema.
Qed.

(** A filter that is built is the one of the condition, when what is printed determines what is made. *)
Lemma BuildFilter_made registered condition schema self self' f :
  (∀ c1 s1 c2 s2, condition_to_string c1 = condition_to_string c2 → schema_to_string s1 = schema_to_string s2 →
     Make s1 c1 = Make s2 c2) →
  filter_kept self → BuildFilter registered (Ok condition) schema self = (Ok (), self') → filter_ self' = Some f →
  Make schema condition = Ok f.
Proof.
  intros Hinj Hk E Hf. unfold BuildFilter in E. destruct registered as [[]|]; [|done]. cbn [rbind] in E.
  destruct (String.eqb_spec (condition_to_string condition) (last_condition_as_str_ self)) as [E1|];
    [destruct (String.eqb_spec (schema_to_string schema) (last_schema_as_str_ self)) as [E2|]|]; cbn [andb] in E.
  - injection E as <-. destruct (Hk f Hf) as (c & s & Hm & Ec & Es). rewrite <- Hm. apply Hinj; congruence.
  - injection E as _ <-. cbn in Hf. destruct (Make schema condition); [by injection Hf as ->|done].
  - injection E as _ <-. cbn in Hf. destruct (Make schema condition); [by injection Hf as ->|done].
Qed.

(** After a failure to make the filter, building it again succeeds and leaves no filter. *)
Lemma failed_build_succeeds_again condition schema self e :
  Make schema condition = Err e →
  String.eqb (condition_to_string condition) (last_condition_as_str_ self) = false →
  let '(r1, self1) := BuildFilter (Ok ()) (Ok condition) schema self in
  let '(r2, self2) := BuildFilter (Ok ()) (Ok condition) schema self1 in
  r1 = Err e ∧ r2 = Ok () ∧ filter_ self2 = None.
Proof.
  intros Hm Hne. unfold BuildFilter. cbn [rbind]. rewrite Hne. cbn [andb]. rewrite Hm. cbn.
  by rewrite !String.eqb_refl.
Qed.
End filter.
