(* ===== verification/RowFilterSemantics.v ===== *)
(** * RowFilterSemantics: what a row filter selects

    The expression of Gandiva that [RowFilterVisitor] builds has the value of the filter
    on every row ([row_filter_exact]), which joins the row filter with the statistics
    filter of [StatsFilter].  What Gandiva computes of the functions of its own is the
    class [Gandiva], the documented behaviour that the filter relies on; what it computes
    of the functions that [function_registry_temporal.cpp] and
    [function_registry_arithmetic.cpp] register is [TemporalOps].  The reference of these
    functions is the relation [sql_value]: it is stated on integers and the calendar,
    without the code.  Functions that it does not relate (texts and [LIKE], bit
    operations, floating-point arithmetic, [extract], intervals) have no value in the
    theorems, which say nothing about a row on which the filter has none. *)

From stdpp Require Import base list strings sets.
From Stdlib Require Import ZArith Lia Eqdep_dec.
From S2P Require Import Prelude OrderedMap FilterValue Calendar StatsGetter Stats StatsFilter RowFilter TemporalOps.

Local Open Scope Z_scope.

(** ** Values of expressions *)

Abbreviation val t o := {| v_type := t; v_value := o : option (phys t) |}.

Definition vt_of (t : ArrowType) : option ValueType :=
  match t with
  | ABool => Some VT.kBool | AInt16 => Some VT.kInt2 | AInt32 => Some VT.kInt4 | AInt64 => Some VT.kInt8
  | AFloat32 => Some VT.kFloat4 | AFloat64 => Some VT.kFloat8 | AUtf8 => Some VT.kString | ADate32 => Some VT.kDate
  | ATimestamp => Some VT.kTimestamp | ATimestamptz => Some VT.kTimestamptz | ATime64 => Some VT.kTime
  | ADecimal _ _ => Some VT.kNumeric | AOther _ => None
  end.

(** The value of a decimal, a text in filters, is not defined. *)
Definition lit_value (l : LiteralHolder) : option Value :=
  match l with
  | LBool b => Some (val VT.kBool (Some b))
  | LInt16 z => Some (val VT.kInt2 (Some z))
  | LInt32 z => Some (val VT.kInt4 (Some z))
  | LInt64 z => Some (val VT.kInt8 (Some z))
  | LFloat f => Some (val VT.kFloat4 (Some f))
  | LDouble f => Some (val VT.kFloat8 (Some f))
  | LString s => Some (val VT.kString (Some s))
  | LDecimal _ _ _ => None
  end.

(** Equality with a literal of the same type. *)
Definition equals_literal (v : Value) (l : LiteralHolder) : bool :=
  match lit_value l with
  | Some w => match decide (v_type w = v_type v) with
              | left e => bool_decide (compare_nullable kEqual (v_type v) (v_value v)
                            (eq_rect _ (λ t, option (phys t)) (v_value w) _ e) = Some true)
              | right _ => false
              end
  | None => false
  end.

Section geval.
(** Functions by name, arguments and type of the result, and the columns of a row. *)
Context (gfun : string → list Value → ArrowType → option Value) (column : string → option Value).

(** [AND] and [OR] have two arguments at least. *)
Fixpoint geval (g : GNode) : option Value :=
  match g with
  | GField _ name => column name
  | GLiteral t None => match vt_of t with Some vt => Some (val vt None) | None => None end
  | GLiteral _ (Some l) => lit_value l
  | GFunction name params t =>
      match (fix go l := match l with
                         | [] => Some []
                         | g :: l => match geval g, go l with Some v, Some vs => Some (v :: vs) | _, _ => None end
                         end) params with
      | Some vs => gfun name vs t
      | None => None
      end
  | GIf c a b _ =>
      match geval c ≫= as_bool None with
      | Some (Some true) => geval a
      | Some _ => geval b
      | None => None
      end
  | GBoolean use_or children =>
      if bool_decide (2 ≤ length children)%nat then
        bool_value <$> (fix go l := match l with
                                    | [] => Some (kleene_unit use_or)
                                    | g :: l => match geval g ≫= as_bool None, go l with
                                                | Some b, Some r => Some (kleene use_or b r)
                                                | _, _ => None
                                                end
                                    end) children
      else None
  | GIn e values =>
      match geval e with
      | Some v => Some (bool_value (Some (existsb (equals_literal v) values)))
      | None => None
      end
  end.

Fixpoint gevals (l : list GNode) : option (list Value) :=
  match l with
  | [] => Some []
  | g :: l => match geval g, gevals l with Some v, Some vs => Some (v :: vs) | _, _ => None end
  end.
Fixpoint gbools (use_or : bool) (l : list GNode) : option (option bool) :=
  match l with
  | [] => Some (kleene_unit use_or)
  | g :: l => match geval g ≫= as_bool None, gbools use_or l with Some b, Some r => Some (kleene use_or b r) | _, _ => None end
  end.

Lemma geval_function name params t : geval (GFunction name params t) = gevals params ≫= λ vs, gfun name vs t.
Proof.
  cbn [geval]. enough (∀ l, (fix go (l : list GNode) : option (list Value) := match l with
    | [] => Some [] | g :: l => match geval g, go l with Some v, Some vs => Some (v :: vs) | _, _ => None end end) l = gevals l)
    as -> by by destruct (gevals params).
  induction l as [|g l IH]; [done|]. cbn [gevals]. by rewrite IH.
Qed.
Lemma geval_boolean use_or l :
  (2 ≤ length l)%nat → geval (GBoolean use_or l) = bool_value <$> gbools use_or l.
Proof.
  intros Hl. cbn [geval]. rewrite bool_decide_eq_true_2 by done. f_equal.
  clear Hl. induction l as [|g l IH]; [done|]. cbn [gbools]. by rewrite IH.
Qed.
Lemma geval_if c a b t :
  geval (GIf c a b t) = match geval c ≫= as_bool None with
                        | Some (Some true) => geval a
                        | Some _ => geval b
                        | None => None
                        end.
Proof. done. Qed.
End geval.

(** ** What the filter relies on *)

Definition compare_name (fid : FunctionID) : option string :=
  match fid with
  | kLessThan => Some "less_than"
  | kLessThanOrEqualTo => Some "less_than_or_equal_to"
  | kGreaterThan => Some "greater_than"
  | kGreaterThanOrEqualTo => Some "greater_than_or_equal_to"
  | kEqual => Some "equal"
  | kNotEqual => Some "not_equal"
  | _ => None
  end.

(** The types that are compared; booleans have no order. *)
Definition compares (fid : FunctionID) (t : ValueType) : bool :=
  match t with
  | VT.kInt2 | VT.kInt4 | VT.kInt8 | VT.kFloat4 | VT.kFloat8 | VT.kString | VT.kDate | VT.kTimestamp | VT.kTimestamptz => true
  | VT.kBool => match fid with kEqual | kNotEqual => true | _ => false end
  | _ => false
  end.

(** The functions that are registered for a date and a timestamp, in both orders. *)
Definition date_timestamp (fid : FunctionID) (date timestamp : Z) : result bool :=
  match fid with
  | kLessThan => LessThanDateTimestamp date timestamp
  | kLessThanOrEqualTo => LessThanOrEqualToDateTimestamp date timestamp
  | kGreaterThan => GreaterThanDateTimestamp date timestamp
  | kGreaterThanOrEqualTo => GreaterThanOrEqualToDateTimestamp date timestamp
  | kEqual => EqualDateTimestamp date timestamp
  | _ => NotEqualDateTimestamp date timestamp
  end.
Definition timestamp_date (fid : FunctionID) (timestamp date : Z) : result bool :=
  match fid with
  | kLessThan => LessThanTimestampDate timestamp date
  | kLessThanOrEqualTo => LessThanOrEqualToTimestampDate timestamp date
  | kGreaterThan => GreaterThanTimestampDate timestamp date
  | kGreaterThanOrEqualTo => GreaterThanOrEqualToTimestampDate timestamp date
  | kEqual => EqualTimestampDate timestamp date
  | _ => NotEqualTimestampDate timestamp date
  end.

(** *** The functions that are registered *)

Definition arrow_of (t : ValueType) : ArrowType :=
  match t with
  | VT.kBool => ABool | VT.kInt2 => AInt16 | VT.kInt4 => AInt32 | VT.kInt8 => AInt64
  | VT.kFloat4 => AFloat32 | VT.kFloat8 => AFloat64 | VT.kString => AUtf8 | VT.kDate => ADate32
  | VT.kTimestamp => ATimestamp | VT.kTimestamptz => ATimestamptz | VT.kTime => ATime64
  | VT.kNumeric | VT.kInterval => AOther EmptyString
  end.

(** An integer of one of the three widths. *)
Definition int_types : list ValueType := [VT.kInt2; VT.kInt4; VT.kInt8].
Definition int_width (t : ValueType) : Z := match t with VT.kInt2 => 16 | VT.kInt4 => 32 | _ => 64 end.
Definition int_value (t : ValueType) (o : option Z) : Value :=
  match t with VT.kInt2 => val VT.kInt2 o | VT.kInt4 => val VT.kInt4 o | _ => val VT.kInt8 o end.

(** [RegisterArithmeticFunctions]: the functions of two integers of [w] bits. *)
Definition registered_arithmetic : list (string * (Z → Z → Z → result Z)) :=
  [("AddOverflow", AddOverflow); ("SubOverflow", SubOverflow); ("MulOverflow", MulOverflow); ("DivSafe", DivSafe);
   ("ModSafe", ModSafe)].

(** [REGISTER_DATE_TRUNC]. *)
Definition registered_unit (u : trunc_unit) : string :=
  match u with
  | UMillennium => "Millennium" | UCentury => "Century" | UDecade => "Decade" | UYear => "Year" | UQuarter => "Quarter"
  | UMonth => "Month" | UWeek => "Week" | UDay => "Day" | UHour => "Hour" | UMinute => "Minute" | USecond => "Second"
  | UMilliseconds => "Milliseconds"
  end.

(** [kResultNullIfNull]. *)
Definition null_if_null1 {A} (f : Z → result A) (a : option Z) : result (option A) :=
  match a with Some x => let! v := f x in Ok (Some v) | None => Ok None end.
Definition null_if_null {A} (f : Z → Z → result A) (a b : option Z) : result (option A) :=
  match a, b with Some x, Some y => let! v := f x y in Ok (Some v) | _, _ => Ok None end.

Class Gandiva `{date_library : DateLibrary} (gfun : string → list Value → ArrowType → option Value) : Prop := {
  g_compare fid name t a b :
    compare_name fid = Some name → compares fid t = true →
    gfun name [val t a; val t b] ABool = Some (bool_value (compare_nullable fid t a b));
  g_not b : gfun "not" [bool_value b] ABool = Some (bool_value (negb <$> b));
  g_isnull t o :
    t ∈ [VT.kBool; VT.kInt2; VT.kInt4; VT.kInt8; VT.kFloat4; VT.kFloat8; VT.kString; VT.kDate; VT.kTimestamp] →
    gfun "isnull" [val t o] ABool = Some (bool_value (Some (IsNull (val t o))));
  g_castINT o : gfun "castINT" [val VT.kInt2 o] AInt32 = Some (val VT.kInt4 o);
  g_castBIGINT_int2 o : gfun "castBIGINT" [val VT.kInt2 o] AInt64 = Some (val VT.kInt8 o);
  g_castBIGINT_int4 o : gfun "castBIGINT" [val VT.kInt4 o] AInt64 = Some (val VT.kInt8 o);
  g_castFLOAT8 o : gfun "castFLOAT8" [val VT.kFloat4 o] AFloat64 = Some (val VT.kFloat8 o);
  g_castDate z : gfun "castDate" [val VT.kInt4 (Some z)] ADate32 = Some (val VT.kDate (Some z));
  g_CastTimestamp z : gfun "castTIMESTAMP" [val VT.kInt8 (Some z)] ATimestamp = Some (val VT.kTimestamp (Some z));
  g_CastTimestamptz z : gfun "castTIMESTAMPTZ" [val VT.kInt8 (Some z)] ATimestamptz = Some (val VT.kTimestamptz (Some z));
  g_CastTimestampFromTimestamptz o s r :
    null_if_null CastTimestampFromTimestamptz o (Some s) = Ok r →
    gfun "castTIMESTAMP" [val VT.kTimestamptz o; val VT.kInt8 (Some s)] ATimestamp = Some (val VT.kTimestamp r);
  g_date_timestamp fid name a b r :
    compare_name fid = Some name → null_if_null (date_timestamp fid) a b = Ok r →
    gfun name [val VT.kDate a; val VT.kTimestamp b] ABool = Some (bool_value r);
  g_timestamp_date fid name a b r :
    compare_name fid = Some name → null_if_null (timestamp_date fid) a b = Ok r →
    gfun name [val VT.kTimestamp a; val VT.kDate b] ABool = Some (bool_value r);
  g_arithmetic name f t a b r :
    (name, f) ∈ registered_arithmetic → t ∈ int_types → null_if_null (f (int_width t)) a b = Ok r →
    gfun name [int_value t a; int_value t b] (arrow_of t) = Some (int_value t r);
  g_CastTimestamptzFromTimestamp o s r :
    null_if_null CastTimestamptzFromTimestamp o (Some s) = Ok r →
    gfun "castTIMESTAMPTZ" [val VT.kTimestamp o; val VT.kInt8 (Some s)] ATimestamptz = Some (val VT.kTimestamptz r);
  g_castDATE o : gfun "castDATE" [val VT.kTimestamp o] ADate32 = Some (val VT.kDate (CastDateFromTimestamp <$> o));
  g_DateDiff a b r :
    null_if_null DateDiff a b = Ok r → gfun "DateDiff" [val VT.kDate a; val VT.kDate b] AInt32 = Some (val VT.kInt4 r);
  g_DateTrunc u o r :
    null_if_null1 (DateTrunc u) o = Ok r →
    gfun ("DateTrunc" +:+ registered_unit u) [val VT.kTimestamp o] ATimestamp = Some (val VT.kTimestamp r);
}.

(** ** The reference of the functions *)

(** Arithmetic on integers; division by zero has no value. *)
Definition int_operation (fid : FunctionID) : option (Z → Z → option Z) :=
  match fid with
  | kAddWithChecks => Some (λ x y, Some (x + y))
  | kSubtractWithChecks => Some (λ x y, Some (x - y))
  | kMultiplyWithChecks => Some (λ x y, Some (x * y))
  | kDivideWithChecks => Some (λ x y, if y =? 0 then None else Some (Z.quot x y))
  | kModuloWithChecks => Some (λ x y, if y =? 0 then None else Some (Z.rem x y))
  | _ => None
  end.

(** Null if an operand is null; no value if the result does not have [w] bits. *)
Definition in_bits (w v : Z) : Prop := - 2 ^ (w - 1) ≤ v < 2 ^ (w - 1).

Inductive int_result (op : Z → Z → option Z) (w : Z) : option Z → option Z → option Z → Prop :=
| int_null_l b : int_result op w None b None
| int_null_r a : int_result op w a None None
| int_some x y z : op x y = Some z → in_bits w z → int_result op w (Some x) (Some y) (Some z).

Definition micros_per_day : Z := 86400000000.

(** The names of the units, in lower case. *)
Definition unit_name (u : trunc_unit) : string :=
  match u with
  | UMillennium => "millennium" | UCentury => "century" | UDecade => "decade" | UYear => "year" | UQuarter => "quarter"
  | UMonth => "month" | UWeek => "week" | UDay => "day" | UHour => "hour" | UMinute => "minute" | USecond => "second"
  | UMilliseconds => "milliseconds"
  end.

(** The value of a function of SQL; [s] is what local time is ahead of UTC.  A date is a
    number of days, a timestamp a number of microseconds.  Integers are promoted to the
    wider type; a cast to a date is the day that contains the timestamp; truncation is to
    the last start of a unit. *)
Inductive sql_value (s : Z) : FunctionID → list Value → Value → Prop :=
| sql_arithmetic fid op ta tb T a b r :
    int_operation fid = Some op → ta ∈ int_types → tb ∈ int_types → common_type ta tb = Some T →
    int_result op (int_width T) a b r → sql_value s fid [int_value ta a; int_value tb b] (int_value T r)
| sql_cast_timestamp (o : option Z) :
    (∀ x, o = Some x → in_i64 (x - s)) →
    sql_value s kCastTimestamp [val VT.kTimestamptz o] (val VT.kTimestamp ((λ x, x - s) <$> o))
| sql_cast_timestamptz (o : option Z) :
    (∀ x, o = Some x → in_i64 (x + s)) →
    sql_value s kCastTimestamptz [val VT.kTimestamp o] (val VT.kTimestamptz ((λ x, x + s) <$> o))
| sql_cast_date (o : option Z) :
    sql_value s kCastDate [val VT.kTimestamp o] (val VT.kDate ((λ x, x / micros_per_day) <$> o))
| sql_cast_date_tz (o : option Z) :
    sql_value s kCastDate [val VT.kTimestamptz o] (val VT.kDate ((λ x, (x - s) / micros_per_day) <$> o))
| sql_date_diff (a b r : option Z) :
    int_result (λ x y, Some (x - y)) 32 a b r → sql_value s kDateDiff [val VT.kDate a; val VT.kDate b] (val VT.kInt4 r)
| sql_date_trunc u name (o r : option Z) :
    AsciiStrToLower name = unit_name u →
    match o, r with Some x, Some y => is_floor (unit_start u) x y | None, None => True | _, _ => False end →
    sql_value s kDateTrunc [val VT.kString (Some name); val VT.kTimestamp o] (val VT.kTimestamp r).

(** [other] has the values of SQL. *)
Definition sql_functions (s : Z) (other : FunctionID → list Value → option Value) : Prop :=
  ∀ fid vs v, other fid vs = Some v → sql_value s fid vs v.

(** ** The filter on a row *)

Section exact.
Context `{date_library : DateLibrary} {gfun : string → list Value → ArrowType → option Value} `{!Gandiva gfun}.
Context (column : string → option Value) (s : Z) (other : FunctionID → list Value → option Value) (r : row).
Context (Decimal128_FromString : string → result (Z * Z * Z)) (CreateField : string → result (ArrowType * string)).

(** [s] is [timestamp_to_timestamptz_shift_us]: a [timestamptz] is a [timestamp] less the shift. *)
Abbreviation shift := (Some (- s)).
Abbreviation create := (CreateFunction s (Ok ())).
Abbreviation GVisit := (RowFilter.Visit Decimal128_FromString CreateField create).
Abbreviation evaluate := (eval shift other r).

(** The value of an expression, which has the expression's type. *)
Definition evals (g : GNode) (v : Value) : Prop := geval gfun column g = Some v ∧ vt_of (gtype g) = Some (v_type v).

(** The columns of the batch are those of the row; one that has no field is null. *)
Definition columns_ok : Prop := ∀ t c v, r c t = Some v →
  match CreateField c with
  | Ok (A, name) => column name = Some v ∧ vt_of A = Some (v_type v)
  | Err _ => v = val t None
  end.

(** Casts that do not overflow. *)
Definition temporal_ok (v : Value) : Prop :=
  match v with
  | {| v_type := VT.kTimestamptz; v_value := Some x |} => in_i64 (x - s)
  | {| v_type := VT.kDate; v_value := Some d |} => in_i64 (d * TemporalOps.kMicrosInDay)
  | _ => True
  end.

Definition compare_ok (fid : FunctionID) (a b : Value) : Prop :=
  match common_type (v_type a) (v_type b) with
  | Some _ => compares fid (v_type a) = true ∧ compares fid (v_type b) = true ∧
              (v_type a ≠ v_type b → temporal_ok a ∧ temporal_ok b)
  | None => True
  end.

Definition isnull_ok (v : Value) : Prop :=
  v_type v ∈ [VT.kBool; VT.kInt2; VT.kInt4; VT.kInt8; VT.kFloat4; VT.kFloat8; VT.kString; VT.kDate; VT.kTimestamp; VT.kTimestamptz]
  ∧ temporal_ok v.

(** A cast to a date of a timestamp since 1970: before, the code rounds up. *)
Definition cast_date_ok (v : Value) : Prop :=
  match v with
  | {| v_type := VT.kTimestamp; v_value := Some x |} => 0 ≤ x ≤ int64_max
  | {| v_type := VT.kTimestamptz; v_value := Some x |} => 0 ≤ x - s ≤ int64_max
  | _ => True
  end.

(** A timestamp of the years -32767 to 32767, from year 0 for decades and year 1 for centuries
    and millennia: before, the code rounds up. *)
Definition date_trunc_ok (unit v : Value) : Prop :=
  match unit, v with
  | {| v_type := VT.kString; v_value := Some name |}, {| v_type := VT.kTimestamp; v_value := Some x |} =>
      ∀ u, AsciiStrToLower name = unit_name u →
      let '(y, _, _) := civil_from_days (x / micros_per_day) in -32767 ≤ y ≤ 32767 ∧ first_year u ≤ y
  | _, _ => True
  end.

Definition function_ok (fid : FunctionID) (vs : list Value) : Prop :=
  match fid, vs with
  | kIsNull, [a] => isnull_ok a
  | kCastDate, [a] => cast_date_ok a
  | kDateTrunc, [unit; a] => date_trunc_ok unit a
  | _, [a; b] => IsComparison fid = true → compare_ok fid a b
  | _, _ => True
  end.

(** *** Promotion *)

Lemma vt_of_inv A t : vt_of A = Some t → t ≠ VT.kNumeric → A = arrow_of t.
Proof. by destruct A; intros [= <-]. Qed.

Lemma compares_type fid g v : evals g v → compares fid (v_type v) = true → gtype g = arrow_of (v_type v).
Proof. intros [_ E] Hc. apply vt_of_inv; [done|]. by intros Et; rewrite Et in Hc. Qed.

Lemma evals_call1 name g v t w : evals g v → gfun name [v] t = Some w → vt_of t = Some (v_type w) → evals (GFunction name [g] t) w.
Proof. intros [E _] Hf Ht. split; [|done]. rewrite geval_function. cbn [gevals]. by rewrite E. Qed.
Lemma evals_call2 name g1 g2 v1 v2 t w :
  evals g1 v1 → evals g2 v2 → gfun name [v1; v2] t = Some w → vt_of t = Some (v_type w) → evals (GFunction name [g1; g2] t) w.
Proof. intros [E1 _] [E2 _] Hf Ht. split; [|done]. rewrite geval_function. cbn [gevals]. by rewrite E1, E2. Qed.

Lemma evals_int4 g o : evals g (val VT.kInt2 o) → evals (PromoteToInt4 g) (val VT.kInt4 o).
Proof. intros H. by eapply evals_call1; [|apply g_castINT|]. Qed.
Lemma evals_int8_int2 g o : evals g (val VT.kInt2 o) → evals (PromoteToInt8 g) (val VT.kInt8 o).
Proof. intros H. by eapply evals_call1; [|apply g_castBIGINT_int2|]. Qed.
Lemma evals_int8_int4 g o : evals g (val VT.kInt4 o) → evals (PromoteToInt8 g) (val VT.kInt8 o).
Proof. intros H. by eapply evals_call1; [|apply g_castBIGINT_int4|]. Qed.
Lemma evals_float8 g o : evals g (val VT.kFloat4 o) → evals (PromoteToFloat8 g) (val VT.kFloat8 o).
Proof. intros H. by eapply evals_call1; [|apply g_castFLOAT8|]. Qed.

Lemma evals_timestamp g o :
  evals g (val VT.kTimestamptz o) → temporal_ok (val VT.kTimestamptz o) →
  evals (PromoteToTimestamp s g) (val VT.kTimestamp ((λ x, wrap_s 64 (x + - s)) <$> o)).
Proof.
  intros H Ht. eapply (evals_call2 _ _ _ _ (val VT.kInt8 (Some (- s)))); [done| |apply g_CastTimestampFromTimestamptz|done].
  - by split.
  - destruct o as [x|]; [|done]. cbn [null_if_null fmap option_fmap option_map]. unfold CastTimestampFromTimestamptz, i64.
    unfold temporal_ok, in_i64 in Ht. replace ((int64_min <=? x + - s) && (x + - s <=? int64_max)) with true by lia.
    cbn [rbind]. do 2 f_equal. symmetry. apply wrap_s_64_id. unfold in_i64. lia.
Qed.

(** *** Comparisons *)

Lemma compare_names fid : IsComparison fid = true → ∃ name, compare_name fid = Some name.
Proof. destruct fid; intros E; try discriminate E; cbn [compare_name]; by eexists. Qed.

Lemma create_compare fid name ga gb :
  compare_name fid = Some name →
  create fid [ga; gb] = let '(a, b) := Promote s ga gb in Ok (GFunction name [a; b] ABool).
Proof. by destruct fid; intros [= <-]. Qed.

(** A date is compared as its midnight. *)
Definition midnight (a : option Z) : option Z := (λ d, wrap_s 64 (d * Stats.kMicrosInDay)) <$> a.

Lemma compare_timestamps fid (x y : Z) :
  compare_fn fid VT.kTimestamp x y
  = match fid with
    | kLessThan => x <? y | kLessThanOrEqualTo => x <=? y | kGreaterThan => y <? x | kGreaterThanOrEqualTo => y <=? x
    | kEqual => x =? y | _ => negb (x =? y)
    end.
Proof.
  assert (∀ x y : Z, less_equal VT.kTimestamp x y = (x <=? y)) as Hle.
  { intros a b. unfold less_equal, Z.leb. cbn. by destruct (a ?= b). }
  assert (∀ x y : Z, less VT.kTimestamp x y = (x <? y)) as Hlt by done.
  assert ((x <=? y) && (y <=? x) = (x =? y)) as Heq by lia.
  destruct fid; cbn [compare_fn]; unfold cmp_less, cmp_greater, cmp_less_equal, cmp_greater_equal;
    rewrite ?(Hle x y), ?(Hle y x), ?Hlt, ?Heq; done.
Qed.

Lemma date_micros_ok d : in_i64 (d * TemporalOps.kMicrosInDay) → date_micros d = Ok (wrap_s 64 (d * Stats.kMicrosInDay)).
Proof.
  intros Hd. change Stats.kMicrosInDay with TemporalOps.kMicrosInDay. rewrite wrap_s_64_id by done. unfold date_micros, i64.
  unfold in_i64 in Hd. by replace ((int64_min <=? _) && _) with true by lia.
Qed.

Lemma compare_date_timestamp fid a b :
  IsComparison fid = true → temporal_ok (val VT.kDate a) →
  null_if_null (date_timestamp fid) a b = Ok (compare_nullable fid VT.kTimestamp (midnight a) b).
Proof.
  intros Hc Ha. destruct a as [d|], b as [x|]; try done. cbn [null_if_null midnight fmap option_fmap option_map compare_nullable].
  rewrite compare_timestamps. destruct fid; try discriminate Hc; cbn [date_timestamp];
    unfold LessThanDateTimestamp, LessThanOrEqualToDateTimestamp, GreaterThanDateTimestamp, GreaterThanOrEqualToDateTimestamp,
      EqualDateTimestamp, NotEqualDateTimestamp; by rewrite date_micros_ok by done.
Qed.
Lemma compare_timestamp_date fid a b :
  IsComparison fid = true → temporal_ok (val VT.kDate b) →
  null_if_null (timestamp_date fid) a b = Ok (compare_nullable fid VT.kTimestamp a (midnight b)).
Proof.
  intros Hc Ha. destruct a as [x|], b as [d|]; try done. cbn [null_if_null midnight fmap option_fmap option_map compare_nullable].
  rewrite compare_timestamps. destruct fid; try discriminate Hc; cbn [timestamp_date];
    unfold LessThanTimestampDate, LessThanOrEqualToTimestampDate, GreaterThanTimestampDate, GreaterThanOrEqualToTimestampDate,
      EqualTimestampDate, NotEqualTimestampDate; by rewrite date_micros_ok by done.
Qed.

(** Two operands of one type. *)
Lemma evals_compare fid name t a b ga gb :
  compare_name fid = Some name → compares fid t = true → evals ga (val t a) → evals gb (val t b) →
  evals (GFunction name [ga; gb] ABool) (bool_value (compare_nullable fid t a b)).
Proof. intros Hn Hc Ha Hb. eapply evals_call2; [done|done|by apply g_compare|done]. Qed.

Definition promoted (a b : GNode) : GNode :=
  match gtype a, gtype b with
  | AInt16, AInt32 => PromoteToInt4 a
  | AInt16, AInt64 | AInt32, AInt64 => PromoteToInt8 a
  | AFloat32, AFloat64 => PromoteToFloat8 a
  | ATimestamptz, ATimestamp | ATimestamptz, ADate32 => PromoteToTimestamp s a
  | _, _ => a
  end.

Lemma PromoteLtoR_eq a b : PromoteLtoR s a b = promoted a b.
Proof.
  unfold promoted, PromoteLtoR. destruct (gtype b) eqn:Eb.
  all: destruct (gtype a) eqn:Ea; do 4 (cbn -[gtype]; rewrite ?Ea, ?Eb); cbn; done.
Qed.

Lemma evals_date_timestamp fid name a b ga gb :
  IsComparison fid = true → compare_name fid = Some name → temporal_ok (val VT.kDate a) →
  evals ga (val VT.kDate a) → evals gb (val VT.kTimestamp b) →
  evals (GFunction name [ga; gb] ABool) (bool_value (compare_nullable fid VT.kTimestamp (midnight a) b)).
Proof. intros Hc Hn Ht Ha Hb. eapply evals_call2; [done|done|eapply g_date_timestamp; [done|by apply compare_date_timestamp]|done]. Qed.
Lemma evals_timestamp_date fid name a b ga gb :
  IsComparison fid = true → compare_name fid = Some name → temporal_ok (val VT.kDate b) →
  evals ga (val VT.kTimestamp a) → evals gb (val VT.kDate b) →
  evals (GFunction name [ga; gb] ABool) (bool_value (compare_nullable fid VT.kTimestamp a (midnight b))).
Proof. intros Hc Hn Ht Ha Hb. eapply evals_call2; [done|done|eapply g_timestamp_date; [done|by apply compare_timestamp_date]|done]. Qed.

Lemma evals_id t (o : option (phys t)) g : evals g (val t o) → evals g (val t ((λ x : phys t, x) <$> o)).
Proof. by destruct o. Qed.

Ltac promote_operand :=
  first [done | by apply evals_timestamp | try apply evals_id;
         first [by apply evals_int4 | by apply evals_int8_int2 | by apply evals_int8_int4 | by apply evals_float8]].

(** *** Registered functions *)

Lemma int_arrow t : t ∈ int_types → vt_of (arrow_of t) = Some t ∧ ∀ o, v_type (int_value t o) = t.
Proof. intros Ht. unfold int_types in Ht. destruct t; (by split) || set_solver. Qed.

Ltac int_cases Ht := repeat (apply elem_of_cons in Ht as [-> |Ht]); [..|by apply elem_of_nil in Ht].

Lemma promote_ints ta tb T a b ga gb :
  ta ∈ int_types → tb ∈ int_types → common_type ta tb = Some T → evals ga (int_value ta a) → evals gb (int_value tb b) →
  ∃ ga' gb', Promote s ga gb = (ga', gb') ∧ T ∈ int_types ∧ evals ga' (int_value T a) ∧ evals gb' (int_value T b) ∧
    gtype ga' = arrow_of T.
Proof.
  intros Hta Htb HT Ha Hb. unfold Promote. rewrite !PromoteLtoR_eq. unfold int_types in *.
  int_cases Hta; int_cases Htb; injection HT as <-;
    pose proof (vt_of_inv _ _ (proj2 Ha) ltac:(done)) as Ea; pose proof (vt_of_inv _ _ (proj2 Hb) ltac:(done)) as Eb;
    cbn [v_type int_value arrow_of] in Ea, Eb; unfold promoted; rewrite ?Ea, ?Eb;
    cbn [gtype PromoteToInt4 PromoteToInt8]; rewrite ?Ea, ?Eb;
    eexists _, _; (split; [reflexivity|]); (split; [set_solver|]); split_and!; cbn [int_value] in *;
    first [done | by apply evals_int4 | by apply evals_int8_int2 | by apply evals_int8_int4].
Qed.

Lemma in_bits_fits w v : in_bits w v → fits w v = true.
Proof. unfold in_bits, fits, min_int, max_int. lia. Qed.

(** The registered functions compute the operations. *)
Lemma int_operation_exact fid op w a b q :
  0 < w → int_operation fid = Some op → int_result op w a b q →
  ∃ name f, (name, f) ∈ registered_arithmetic ∧ null_if_null (f w) a b = Ok q ∧
    ∀ ga gb, create fid [ga; gb] = let '(ga, gb) := Promote s ga gb in Ok (GFunction name [ga; gb] (gtype ga)).
Proof.
  intros Hw Hop Hr.
  assert (∀ f : Z → Z → Z → result Z, (∀ x y z, op x y = Some z → fits w z = true → f w x y = Ok z) →
    null_if_null (f w) a b = Ok q) as Hf.
  { intros f Hf. destruct Hr as [b|a|x y z Ho Hz]; [done|by destruct a|]. cbn [null_if_null].
    by rewrite (Hf x y z Ho (in_bits_fits _ _ Hz)). }
  destruct fid; try discriminate Hop; injection Hop as <-;
    [exists "AddOverflow"%string, AddOverflow|exists "SubOverflow"%string, SubOverflow|exists "MulOverflow"%string, MulOverflow
    |exists "DivSafe"%string, DivSafe|exists "ModSafe"%string, ModSafe];
    (split; [unfold registered_arithmetic; set_solver|]);
    (split; [|intros ga gb; cbn [CreateFunction rbind IsComparison IsArithmetic orb]; by destruct (Promote s ga gb)]);
    apply Hf; intros x y z Ho Hz.
  - injection Ho as <-. unfold AddOverflow. by rewrite Hz.
  - injection Ho as <-. unfold SubOverflow. by rewrite Hz.
  - injection Ho as <-. unfold MulOverflow. by rewrite Hz.
  - unfold DivSafe. destruct (y =? 0); [done|]. injection Ho as <-. destruct (_ && _) eqn:E; [|done].
    apply andb_true_iff in E as [->%Z.eqb_eq ->%Z.eqb_eq]. change (-1) with (Z.opp 1) in Hz.
    rewrite Z.quot_opp_r, Z.quot_1_r in Hz by done. unfold fits, min_int, max_int in Hz. lia.
  - unfold ModSafe. destruct (y =? 0); [done|]. injection Ho as <-. destruct (_ && _) eqn:E; [|done].
    apply andb_true_iff in E as [->%Z.eqb_eq ->%Z.eqb_eq]. change (-1) with (Z.opp 1).
    by rewrite Z.rem_opp_r, Z.rem_1_r.
Qed.

Lemma evals_arithmetic fid op ta tb T a b q ga gb g :
  int_operation fid = Some op → ta ∈ int_types → tb ∈ int_types → common_type ta tb = Some T →
  int_result op (int_width T) a b q → evals ga (int_value ta a) → evals gb (int_value tb b) →
  create fid [ga; gb] = Ok g → evals g (int_value T q).
Proof.
  intros Hop Hta Htb HT Hr Ha Hb Hg. destruct (promote_ints _ _ _ _ _ _ _ Hta Htb HT Ha Hb) as (ga' & gb' & Hp & HT' & Ha' & Hb' & Et).
  destruct (int_operation_exact fid op (int_width T) a b q) as (name & f & Hin & Hf & Hc); [by destruct T|done..|].
  rewrite Hc, Hp in Hg. injection Hg as <-. rewrite Et. destruct (int_arrow T HT') as [Hv Hi].
  eapply evals_call2; [done|done|by eapply g_arithmetic|by rewrite Hi].
Qed.

Lemma i64_ok v : in_i64 v → i64 v = Ok v.
Proof. intros [H1%Z.leb_le H2%Z.leb_le]. unfold i64. by rewrite H1, H2. Qed.

Lemma evals_cast_timestamp o ga g :
  (∀ x, o = Some x → in_i64 (x - s)) → evals ga (val VT.kTimestamptz o) → create kCastTimestamp [ga] = Ok g →
  evals g (val VT.kTimestamp ((λ x, x - s) <$> o)).
Proof.
  intros Hx Ha [= <-]. eapply (evals_call2 _ _ _ _ (val VT.kInt8 (Some (- s)))); [done|by split|apply g_CastTimestampFromTimestamptz|done].
  destruct o as [x|]; [|done]. cbn [null_if_null fmap option_fmap option_map]. unfold CastTimestampFromTimestamptz.
  rewrite Z.add_opp_r, i64_ok by auto. done.
Qed.

Lemma evals_cast_timestamptz o ga g :
  (∀ x, o = Some x → in_i64 (x + s)) → evals ga (val VT.kTimestamp o) → create kCastTimestamptz [ga] = Ok g →
  evals g (val VT.kTimestamptz ((λ x, x + s) <$> o)).
Proof.
  intros Hx Ha [= <-]. eapply (evals_call2 _ _ _ _ (val VT.kInt8 (Some s))); [done|by split|apply g_CastTimestamptzFromTimestamp|done].
  destruct o as [x|]; [|done]. cbn [null_if_null fmap option_fmap option_map]. unfold CastTimestamptzFromTimestamp.
  rewrite i64_ok by auto. done.
Qed.

Lemma cast_date_exact x : 0 ≤ x ≤ int64_max → CastDateFromTimestamp x = x / micros_per_day.
Proof.
  intros Hx. apply cast_date_since_epoch; [lia|]. unfold floor_days. change TemporalOps.kMicrosInDay with 86400000000.
  unfold in_i32. unfold_ints. Z.to_euclidean_division_equations. lia.
Qed.

Lemma evals_cast_date (o : option Z) ga g :
  cast_date_ok (val VT.kTimestamp o) → evals ga (val VT.kTimestamp o) → create kCastDate [ga] = Ok g →
  evals g (val VT.kDate ((λ x, x / micros_per_day) <$> o)).
Proof.
  intros Hok Ha Hg. pose proof (vt_of_inv _ _ (proj2 Ha) ltac:(done)) as Ea. cbn [CreateFunction rbind] in Hg. rewrite Ea in Hg.
  injection Hg as <-. eapply evals_call1; [done| |done]. rewrite g_castDATE. do 2 f_equal.
  destruct o as [x|]; [|done]. cbn. by rewrite cast_date_exact.
Qed.

Lemma evals_cast_date_tz (o : option Z) ga g :
  cast_date_ok (val VT.kTimestamptz o) → evals ga (val VT.kTimestamptz o) → create kCastDate [ga] = Ok g →
  evals g (val VT.kDate ((λ x, (x - s) / micros_per_day) <$> o)).
Proof.
  intros Hok Ha Hg. pose proof (vt_of_inv _ _ (proj2 Ha) ltac:(done)) as Ea. cbn [CreateFunction rbind] in Hg. rewrite Ea in Hg.
  injection Hg as <-. eapply (evals_call1 _ _ (val VT.kTimestamp ((λ x, x - s) <$> o))); [| |done].
  - apply (evals_cast_timestamp o ga); [|done|done]. intros x ->. cbn in Hok. unfold in_i64. unfold_ints. lia.
  - rewrite g_castDATE. do 2 f_equal. destruct o as [x|]; [|done]. cbn. by rewrite cast_date_exact.
Qed.

Lemma evals_date_diff a b q ga gb g :
  int_result (λ x y, Some (x - y)) 32 a b q → evals ga (val VT.kDate a) → evals gb (val VT.kDate b) →
  create kDateDiff [ga; gb] = Ok g → evals g (val VT.kInt4 q).
Proof.
  intros Hr Ha Hb [= <-]. eapply evals_call2; [done|done|apply g_DateDiff|done].
  destruct Hr as [b|a|x y z [= <-] Hz]; [done|by destruct a|]. cbn. unfold DateDiff, in_bits in *. unfold_ints.
  by replace ((_ <=? _) && (_ <=? _)) with true by lia.
Qed.

Lemma evals_literal ga what name text :
  string_literal what ga = Ok text → evals ga (val VT.kString (Some name)) → text = name.
Proof.
  intros Hl [He _]. unfold string_literal in Hl. destruct ga as [|t [[]|]| | | |]; try done. injection Hl as ->. cbn in He.
  apply (f_equal (λ v, match v with Some {| v_type := VT.kString; v_value := o |} => o | _ => None end)) in He. by injection He.
Qed.

Lemma evals_date_trunc u name (o q : option Z) ga gb g :
  AsciiStrToLower name = unit_name u →
  match o, q with Some x, Some y => is_floor (unit_start u) x y | None, None => True | _, _ => False end →
  date_trunc_ok (val VT.kString (Some name)) (val VT.kTimestamp o) →
  evals ga (val VT.kString (Some name)) → evals gb (val VT.kTimestamp o) → create kDateTrunc [ga; gb] = Ok g →
  evals g (val VT.kTimestamp q).
Proof.
  intros Hu Hr Hok Ha Hb Hg. cbn [CreateFunction rbind IsComparison IsArithmetic orb argument lookup list_lookup] in Hg.
  apply rbind_Ok_inv in Hg as (text & Ht & Hg). unfold TimeUnitExtractor in Ht.
  pose proof (evals_literal _ _ _ _ Ht Ha) as ->. rewrite Hu in Hg. rewrite (vt_of_inv _ _ (proj2 Hb)) in Hg by done.
  assert (capitalize (unit_name u) = registered_unit u ∧ unit_name u ∈ trunc_fields) as [Hcap Hin].
  { split; [by destruct u|]. apply (bool_decide_unpack _). by destruct u. }
  rewrite bool_decide_true, Hcap in Hg by done. injection Hg as <-. eapply evals_call1; [done|apply g_DateTrunc|done].
  destruct o as [x|], q as [y|]; try done. unfold date_trunc_ok in Hok. specialize (Hok u Hu). unfold null_if_null1.
  destruct (date_trunc_is_floor u x) as (y' & -> & Hy').
  - unfold ok_time, ok_day, floor_days. change TemporalOps.kMicrosInDay with micros_per_day.
    destruct (civil_from_days (x / micros_per_day)) as [[yy mm] dd]. apply Hok.
  - unfold YearMonthDay, floor_days. change TemporalOps.kMicrosInDay with micros_per_day. rewrite ymd_of_days_law.
    + destruct (civil_from_days (x / micros_per_day)) as [[yy mm] dd]. apply Hok.
    + unfold ok_day. destruct (civil_from_days (x / micros_per_day)) as [[yy mm] dd]. apply Hok.
  - by rewrite (is_floor_unique _ _ _ _ Hy' Hr).
Qed.

(** An expression of a function that has a value in SQL has this value. *)
Lemma evals_sql fid gs vs g v :
  sql_value s fid vs v → function_ok fid vs → Forall2 evals gs vs → create fid gs = Ok g → evals g v.
Proof.
  intros Hv Hok Hgs Hg.
  destruct Hv; repeat (apply Forall2_cons_inv_r in Hgs as (? & ? & ? & Hgs & ->)); apply Forall2_nil_inv_r in Hgs as ->.
  - by eapply (evals_arithmetic fid op ta tb).
  - by eapply evals_cast_timestamp.
  - by eapply evals_cast_timestamptz.
  - by eapply evals_cast_date.
  - by eapply evals_cast_date_tz.
  - by eapply evals_date_diff.
  - by eapply evals_date_trunc.
Qed.

(** Comparisons, and the casts between numbers, are not among these functions. *)
Lemma sql_no_comparison fid vs v : sql_value s fid vs v → IsComparison fid = false.
Proof. intros Hv. destruct Hv; try done. by destruct fid. Qed.

Lemma evals_comparison fid ga gb a b g v :
  sql_functions s other → IsComparison fid = true → evals ga a → evals gb b → compare_ok fid a b →
  create fid [ga; gb] = Ok g → eval_compare shift other fid a b = Some v → evals g v.
Proof.
  intros Hother Hc Ha Hb Hok Hg Hv. destruct (compare_names fid Hc) as [name Hn].
  destruct a as [ta oa], b as [tb ob]. unfold eval_compare, compare_ok in *. cbn [v_type v_value] in *.
  destruct (common_type ta tb) as [t|] eqn:Ec; [|apply Hother, sql_no_comparison in Hv; congruence].
  destruct Hok as (Ca & Cb & Ht). pose proof (compares_type _ _ _ Ha Ca) as Ea. pose proof (compares_type _ _ _ Hb Cb) as Eb.
  cbn [v_type] in Ea, Eb. rewrite (create_compare fid name) in Hg by done. unfold Promote in Hg. rewrite !PromoteLtoR_eq in Hg.
  destruct (decide (ta = tb)) as [->|Hne].
  - unfold common_type in Ec. rewrite bool_decide_eq_true_2 in Ec by done. injection Ec as <-.
    rewrite !cast_value_same in Hv. injection Hv as <-.
    assert (∀ g1 g2, gtype g1 = arrow_of tb → gtype g2 = arrow_of tb → promoted g1 g2 = g1) as Hp.
    { intros g1 g2 E1 E2. unfold promoted. rewrite E1, E2. by destruct tb. }
    rewrite !Hp in Hg by done. injection Hg as <-. by apply evals_compare.
  - destruct (Ht Hne) as [Ta Tb]. clear Ht.
    destruct ta, tb; try (by destruct Hne); try discriminate Ec; injection Ec as <-; cbn [arrow_of] in Ea, Eb;
      unfold promoted in Hg; rewrite Ea, Eb in Hg; cbn [gtype PromoteToInt4 PromoteToInt8 PromoteToFloat8 PromoteToTimestamp] in Hg;
      rewrite ?Ea, ?Eb in Hg; injection Hg as <-; cbn in Hv;
      injection Hv as <-.
    all: first [ eapply evals_compare; [done|done|promote_operand|promote_operand]
               | eapply evals_date_timestamp; [done|done|done|promote_operand|promote_operand]
               | eapply evals_timestamp_date; [done|done|done|promote_operand|promote_operand] ].
Qed.

(** *** Functions *)

Lemma evals_cast fid name to_arrow to from ga a g v :
  sql_functions s other → fid ∈ [kCastInt4; kCastInt8; kCastFloat8] →
  (∀ t o, t ∈ from → ∃ x, cast_value shift to (val t o) = Some x ∧ gfun name [val t o] to_arrow = Some (val to x)) →
  vt_of to_arrow = Some to → create fid [ga] = Ok (GFunction name [ga] to_arrow) →
  evals ga a → create fid [ga] = Ok g → eval_cast shift other fid to from a = Some v → evals g v.
Proof.
  intros Hother Hfid Hcast Hto Hname Ha Hg Hv. unfold eval_cast in Hv.
  assert (∀ v, other fid [a] = Some v → evals g v) as Ho.
  { intros w Hw%Hother. exfalso. inversion Hw; subst; set_solver. }
  case_bool_decide as Hin; [|by apply Ho]. destruct a as [t o]. cbn [v_type] in Hin.
  destruct (Hcast t o Hin) as (x & Hx & Hf). rewrite Hx in Hv. injection Hv as <-.
  rewrite Hname in Hg. injection Hg as <-. by eapply evals_call1.
Qed.

Lemma evals_isnull ga a g :
  evals ga a → isnull_ok a → create kIsNull [ga] = Ok g → evals g (bool_value (Some (IsNull a))).
Proof.
  intros Ha [Ht Hok] Hg. destruct a as [t o]. cbn [v_type] in Ht. cbn [CreateFunction rbind] in Hg. injection Hg as <-.
  assert (t ≠ VT.kNumeric) as Hnn by (intros ->; set_solver).
  destruct (decide (t = VT.kTimestamptz)) as [->|Hne].
  - rewrite (vt_of_inv _ _ (proj2 Ha)) by done. cbn [arrow_of v_type type_eqb].
    eapply (evals_call1 _ _ (val VT.kTimestamp ((λ x : Z, wrap_s 64 (x + - s)) <$> o))); [by apply evals_timestamp| |done].
    rewrite g_isnull by set_solver. by destruct o.
  - replace (type_eqb (gtype ga) ATimestamptz) with false
      by (rewrite (vt_of_inv _ _ (proj2 Ha)) by done; by destruct t).
    eapply evals_call1; [done|apply g_isnull; set_solver|done].
Qed.

Lemma evals_function fid gs vs g v :
  sql_functions s other → Forall2 evals gs vs → function_ok fid vs → create fid gs = Ok g → eval_function shift other fid vs = Some v → evals g v.
Proof.
  intros Hother Hgs Hok Hg Hv. assert (∀ v, other fid vs = Some v → evals g v) as Ho
    by (intros w Hw%Hother; by eapply evals_sql).
  destruct vs as [|a [|b [|c vs]]]; cbn [eval_function] in Hv; try by apply Ho.
  - apply Forall2_cons_inv_r in Hgs as (ga & gs' & Ha & ->%Forall2_nil_inv_r & ->).
    destruct fid; try (by apply Ho).
    + injection Hv as <-. by eapply evals_isnull; [|apply Hok|].
    + eapply (evals_cast _ "castINT" AInt32 VT.kInt4 [VT.kInt2]); try done; try reflexivity; [set_solver|].
      intros t o ->%list_elem_of_singleton. eexists. split; [reflexivity|]. rewrite g_castINT. by destruct o.
    + eapply (evals_cast _ "castBIGINT" AInt64 VT.kInt8 [VT.kInt2; VT.kInt4]); try done; try reflexivity; [set_solver|].
      intros t o [->|[->|[]%elem_of_nil]%elem_of_cons]%elem_of_cons; eexists; (split; [reflexivity|]).
      * rewrite g_castBIGINT_int2. by destruct o.
      * rewrite g_castBIGINT_int4. by destruct o.
    + eapply (evals_cast _ "castFLOAT8" AFloat64 VT.kFloat8 [VT.kFloat4]); try done; try reflexivity; [set_solver|].
      intros t o ->%list_elem_of_singleton. eexists. split; [reflexivity|]. rewrite g_castFLOAT8. by destruct o.
  - apply Forall2_cons_inv_r in Hgs as (ga & gs' & Ha & (gb & gs'' & Hb & ->%Forall2_nil_inv_r & ->)%Forall2_cons_inv_r & ->).
    destruct (AreCastsBeforeInvokeAllowed fid) eqn:Ec; [|by apply Ho].
    assert (IsComparison fid = true) as Hc by by destruct fid.
    eapply (evals_comparison fid ga gb a b); try done. destruct fid; try discriminate Hc; by apply Hok.
Qed.

(** *** Logical operations *)

Lemma as_bool_shift s1 s2 v : as_bool s1 v = as_bool s2 v.
Proof. by destruct v as [[] o]. Qed.
Lemma as_bool_value sh v b : as_bool sh v = Some b → v = bool_value b.
Proof. destruct v as [[] o]; try done. unfold as_bool. rewrite cast_value_same. by intros [= ->]. Qed.

(** Arguments that have the values of the nodes. *)
Lemma gbools_exact use_or gs ns b :
  Forall2 (λ n g, ∀ v, evaluate n = Some v → evals g v) ns gs →
  eval_bools shift evaluate use_or ns = Some b → gbools gfun column use_or gs = Some b.
Proof.
  intros H. revert b. induction H as [|n g ns gs Hg _ IH]; intros b Hb; [done|]. cbn [eval_bools gbools] in *.
  destruct (evaluate n) as [v|] eqn:Ev; [|done]. destruct (Hg v eq_refl) as [-> _]. cbn [mbind option_bind] in *.
  rewrite (as_bool_shift None shift). destruct (as_bool shift v); [|done].
  destruct (eval_bools shift evaluate use_or ns) as [br|]; [|done]. by rewrite (IH br eq_refl).
Qed.

Lemma gevals_exact gs ns vs :
  Forall2 (λ n g, ∀ v, evaluate n = Some v → evals g v) ns gs → eval_args evaluate ns = Some vs → Forall2 evals gs vs.
Proof.
  intros H. revert vs. induction H as [|n g ns gs Hg _ IH]; intros vs Hv; cbn [eval_args] in Hv; [by injection Hv as <-|].
  destruct (evaluate n) as [v|] eqn:Ev; [|done]. destruct (eval_args evaluate ns) as [vs'|]; [|done]. injection Hv as <-.
  apply Forall2_cons. split; [by apply Hg|by apply IH].
Qed.

Lemma evals_not g b : evals g (bool_value b) → evals (boolean_not g) (bool_value (negb <$> b)).
Proof. intros H. by eapply evals_call1; [|apply g_not|]. Qed.

(** *** Arrays *)

Lemma garray_exact fid use_or x t elems gs b :
  Forall2 (λ e g, ∀ v, eval_function shift other fid [x; val t e] = Some v → evals g v) elems gs →
  eval_array shift other fid use_or x t elems = Some b → gbools gfun column use_or gs = Some b.
Proof.
  intros H. revert b. induction H as [|e g elems gs Hg _ IH]; intros b Hb; [done|]. cbn [eval_array gbools] in *.
  destruct (eval_function _ _ _ _) as [v|] eqn:Ev; [|done]. destruct (Hg v eq_refl) as [-> _]. cbn [mbind option_bind] in *.
  rewrite (as_bool_shift None shift). destruct (as_bool shift v); [|done].
  destruct (eval_array _ _ _ _ _ _ _) as [br|]; [|done]. by rewrite (IH br eq_refl).
Qed.

Lemma MakeIn_inv {A} g (literal : A → LiteralHolder) values inn :
  MakeIn g literal values = Ok inn → ∃ xs, values = Some <$> xs ∧ inn = GIn g (literal <$> xs).
Proof.
  unfold MakeIn, ValuesToUnorderedSet. intros H. apply rbind_Ok_inv in H as (ls & Hl & [= <-]).
  apply map_ok_Forall2 in Hl. induction Hl as [|o l values ls Ho _ (xs & -> & Eq)]; [by exists []|].
  destruct o as [x|]; [|done]. injection Ho as <-. exists (x :: xs). split; [done|]. injection Eq as ->. done.
Qed.

(** The value of [IN] when the comparisons of the scalar with the elements are those at type [T]. *)
Lemma eval_array_null fid use_or x t xs :
  xs ≠ [] → (∀ y, eval_function shift other fid [x; val t (Some y)] = Some (bool_value None)) →
  eval_array shift other fid use_or x t (Some <$> xs) = Some None.
Proof.
  intros Hne Hf. destruct xs as [|y xs]; [done|]. clear Hne. revert y. induction xs as [|y' xs IH]; intros y.
  - cbn [fmap list_fmap eval_array]. rewrite Hf. by destruct use_or.
  - rewrite fmap_cons. cbn [eval_array]. rewrite (IH y'), Hf. by destruct use_or.
Qed.
Lemma eval_array_some fid use_or x t xs c :
  (∀ y, eval_function shift other fid [x; val t (Some y)] = Some (bool_value (Some (c y)))) →
  eval_array shift other fid use_or x t (Some <$> xs) = Some (Some (if use_or then existsb c xs else forallb c xs)).
Proof.
  intros Hf. induction xs as [|y xs IH]; [by destruct use_or|]. rewrite fmap_cons. cbn [eval_array]. rewrite IH, Hf.
  cbn [mbind option_bind]. unfold as_bool, bool_value. rewrite cast_value_same.
  destruct use_or; cbn [existsb forallb kleene]; [by destruct (c y), (existsb c xs)|by destruct (c y), (forallb c xs)].
Qed.

Lemma equals_literal_same t (z y : phys t) l :
  lit_value l = Some (val t (Some y)) → equals_literal (val t (Some z)) l = compare_fn kEqual t z y.
Proof.
  intros Hl. unfold equals_literal. rewrite Hl. cbn [v_type v_value]. destruct (decide (t = t)) as [e|]; [|done].
  rewrite (UIP_dec ValueType_eq_dec e eq_refl). cbn [eq_rect compare_nullable].
  destruct (compare_fn kEqual t z y); [by apply bool_decide_eq_true|by apply bool_decide_eq_false].
Qed.

(** [IN] when the scalar has value [ox'] of type [T] after its promotion. *)
Lemma evals_in (tx t T : ValueType) (ox : option (phys tx)) (conv : phys tx → phys T) (elem : phys t → phys T)
    (literal : phys t → LiteralHolder) gx gx' xs inn fid use_or b :
  is_in fid use_or = true → tx ∈ [VT.kInt2; VT.kInt4; VT.kInt8; VT.kFloat4; VT.kFloat8; VT.kString] →
  evals gx (val tx ox) → evals gx' (val T (conv <$> ox)) →
  (∀ y, eval_function shift other fid [val tx ox; val t (Some y)]
        = Some (bool_value (compare_nullable fid T (conv <$> ox) (Some (elem y))))) →
  (∀ y, lit_value (literal y) = Some (val T (Some (elem y)))) →
  inn = GIn gx' (literal <$> xs) → xs ≠ [] →
  eval_array shift other fid use_or (val tx ox) t (Some <$> xs) = Some b → evals (in_or_null fid gx inn) (bool_value b).
Proof.
  intros Hin Ht [Hx _] [Hx' _] Hf Hl -> Hne Hb. set (inn := GIn gx' (literal <$> xs)).
  assert (∀ c, geval gfun column (GIf (GFunction "isnull" [gx] ABool) (MakeNull ABool) inn ABool) = Some (bool_value c) →
    b = (if use_or then c else negb <$> c) → evals (in_or_null fid gx inn) (bool_value b)) as Hend.
  { intros c Hc ->. unfold in_or_null, is_in in *. destruct use_or; cbn [negb] in Hin.
    - rewrite andb_true_r, andb_false_r, orb_false_r in Hin. apply bool_decide_eq_true in Hin as ->. done.
    - rewrite andb_false_r, andb_true_r in Hin. apply bool_decide_eq_true in Hin as ->. by apply evals_not. }
  assert (geval gfun column (GFunction "isnull" [gx] ABool) = Some (bool_value (Some (IsNull (val tx ox))))) as En.
  { rewrite geval_function. cbn [gevals]. rewrite Hx. cbn [mbind option_bind]. apply g_isnull. set_solver. }
  rewrite geval_if in Hend. rewrite En in Hend. destruct ox as [z|].
  - set (eqs := λ y, compare_fn kEqual T (conv z) (elem y)). apply (Hend (Some (existsb eqs xs))).
    + cbn [mbind option_bind IsNull v_value]. unfold as_bool, bool_value at 1. rewrite cast_value_same.
      unfold inn. cbn [geval]. rewrite Hx'. do 3 f_equal. clear Hne Hb Hend inn.
      induction xs as [|y xs IH]; [done|]. rewrite fmap_cons. cbn [existsb]. rewrite IH. f_equal. by apply equals_literal_same.
    + rewrite (eval_array_some _ _ _ _ _ (λ y, compare_fn fid T (conv z) (elem y))) in Hb by done. injection Hb as <-.
      unfold is_in in Hin. destruct use_or; cbn [negb] in Hin.
      * rewrite andb_true_r, andb_false_r, orb_false_r in Hin. by apply bool_decide_eq_true in Hin as ->.
      * rewrite andb_false_r, andb_true_r in Hin. apply bool_decide_eq_true in Hin as ->. cbn [fmap option_fmap option_map].
        f_equal. clear. induction xs as [|y xs IH]; [done|]. cbn [forallb existsb]. rewrite IH, negb_orb. done.
  - apply (Hend None); [done|]. rewrite eval_array_null in Hb by done. injection Hb as <-. by destruct use_or.
Qed.

Ltac promote_scalar :=
  first [apply (evals_id VT.kInt4) | apply (evals_id VT.kInt8) | apply (evals_id VT.kFloat4) | apply (evals_id VT.kFloat8)
        | apply (evals_id VT.kString)]; promote_operand.

(** The comparisons with the elements of an array, at the types of the scalar and the array. *)
Lemma evals_try_in gx x t elems inn fid use_or b :
  is_in fid use_or = true → evals gx x → try_to_build_in gx t elems = Ok inn → elems ≠ [] →
  eval_array shift other fid use_or x t elems = Some b → evals (in_or_null fid gx inn) (bool_value b).
Proof.
  intros Hin Hx Ht Hne Hb. destruct x as [tx ox].
  assert (fid = kEqual ∨ fid = kNotEqual) as Hfid.
  { unfold is_in in Hin. repeat case_bool_decide; auto; by destruct use_or. }
  pose proof (proj2 Hx) as Htx. cbn [v_type] in Htx.
  destruct t; cbn [try_to_build_in] in Ht; try discriminate Ht; destruct (gtype gx) eqn:Eg; cbn [vt_of] in Htx;
    try discriminate Htx; injection Htx as <-; repeat first [rewrite Eg in Ht | progress cbn [type_eqb gtype PromoteToInt4 PromoteToInt8 PromoteToFloat8 orb] in Ht];
    try discriminate Ht; apply MakeIn_inv in Ht as (xs & -> & ->).
  all: assert (xs ≠ []) as Hxs by (by intros ->).
  all: lazymatch goal with
       | Hb : eval_array _ _ _ _ (Build_Value ?tx _) ?t _ = _ |- context [GIn ?g' (LInt32 <$> _)] =>
           eapply (evals_in tx t VT.kInt4 _ (λ z : Z, z) (λ z : Z, z) LInt32 gx g')
       | Hb : eval_array _ _ _ _ (Build_Value ?tx _) ?t _ = _ |- context [GIn ?g' (LInt64 <$> _)] =>
           eapply (evals_in tx t VT.kInt8 _ (λ z : Z, z) (λ z : Z, z) LInt64 gx g')
       | Hb : eval_array _ _ _ _ (Build_Value ?tx _) ?t _ = _ |- context [GIn ?g' (LFloat <$> _)] =>
           eapply (evals_in tx t VT.kFloat4 _ (λ f : flt, f) (λ f : flt, f) LFloat gx g')
       | Hb : eval_array _ _ _ _ (Build_Value ?tx _) ?t _ = _ |- context [GIn ?g' (LDouble <$> _)] =>
           eapply (evals_in tx t VT.kFloat8 _ (λ f : flt, f) (λ f : flt, f) LDouble gx g')
       | Hb : eval_array _ _ _ _ (Build_Value ?tx _) ?t _ = _ |- context [GIn ?g' (LString <$> _)] =>
           eapply (evals_in tx t VT.kString _ (λ z : string, z) (λ z : string, z) LString gx g')
       end; [done|set_solver|exact Hx|promote_scalar| |done|done|done|exact Hb].
  all: intros y; destruct Hfid as [-> | ->], ox as [z|]; vm_compute; reflexivity.
Qed.

(** *** Expressions *)

Definition literal_ok (v : Value) : Prop := IsNull v = false → v_type v ≠ VT.kNumeric ∧ v_type v ≠ VT.kInterval.

(** What the theorem asks of every node: no constants that are decimals or intervals, comparisons of
    comparable values, [AND] and [OR] of two arguments at least, of which an array that is not
    compared by [IN] makes one for each element. *)
Definition row_node_ok (n : Node) : Prop :=
  match n with
  | ConstNode v => literal_ok v
  | LogicalNode kNot _ => True
  | LogicalNode _ args => (2 ≤ length args)%nat
  | FunctionNode sg args => ∀ vs, eval_args evaluate args = Some vs → function_ok (function_id sg) vs
  | ScalarOverArrayFunctionNode sg use_or x a =>
      a_values a ≠ [] ∧
      (∀ v e, evaluate x = Some v → e ∈ a_values a →
         function_ok (function_id sg) [v; val (a_type a) e] ∧ literal_ok (val (a_type a) e)) ∧
      ((2 ≤ length (a_values a))%nat ∨
       ∃ gx inn, is_in (function_id sg) use_or = true ∧ GVisit x = Ok gx ∧ try_to_build_in gx (a_type a) (a_values a) = Ok inn)
  | _ => True
  end.

Lemma evals_null t g : ProcessNull t = Ok g → evals g (val t None).
Proof. by destruct t; intros [= <-]. Qed.

Lemma evals_const v g : VisitConst Decimal128_FromString v = Ok g → literal_ok v → evals g v.
Proof.
  intros Hg Hok. destruct v as [t [x|]]; unfold VisitConst in Hg; cbn [v_value v_type] in Hg; [|by apply evals_null].
  destruct (Hok eq_refl) as [Hn Hi]. cbn [v_type] in Hn, Hi. clear Hok.
  destruct t; cbn [VisitValue] in Hg; try done; try (by injection Hg as <-); injection Hg as <-.
  - eapply (evals_call1 _ _ (val VT.kInt4 (Some x))); [done|apply g_castDate|done].
  - eapply (evals_call1 _ _ (val VT.kInt8 (Some x))); [done|apply g_CastTimestamp|done].
  - eapply (evals_call1 _ _ (val VT.kInt8 (Some x))); [done|apply g_CastTimestamptz|done].
Qed.

Lemma evals_variable t c g v : columns_ok → VisitVariable CreateField t c = Ok g → r c t = Some v → evals g v.
Proof.
  intros Hcol Hg Hv. specialize (Hcol t c v Hv). unfold VisitVariable in Hg.
  destruct (CreateField c) as [[A name]|].
  - injection Hg as <-. by destruct Hcol.
  - subst v. by apply evals_null.
Qed.

(** The comparisons with each element of an array. *)
Lemma evals_elements fid use_or x a gx gs b :
  sql_functions s other → evals gx x →
  (∀ e, e ∈ a_values a → function_ok fid [x; val (a_type a) e] ∧ literal_ok (val (a_type a) e)) →
  map_ok (λ maybe_value,
    let! g1 := Ok gx in
    let! g2 := VisitConst Decimal128_FromString {| v_type := a_type a; v_value := maybe_value |} in
    create fid [g1; g2]) (a_values a) = Ok gs →
  (2 ≤ length (a_values a))%nat →
  eval_array shift other fid use_or x (a_type a) (a_values a) = Some b → evals (GBoolean use_or gs) (bool_value b).
Proof.
  intros Hother Hx Hok Hgs Hlen Hb. apply map_ok_Forall2 in Hgs as HF. split; [|done].
  rewrite geval_boolean by (by rewrite <- (Forall2_length _ _ _ HF)).
  rewrite (garray_exact fid use_or x (a_type a) (a_values a) gs b); [done| |done].
  clear Hb Hlen Hgs. induction HF as [|e g elems gs He _ IH]; [apply Forall2_nil; done|].
  apply Forall2_cons. split; [|apply IH; intros; apply Hok; by right].
  intros v Hv. cbn [rbind] in He. apply rbind_Ok_inv in He as (g2 & H2 & He).
  destruct (Hok e ltac:(by left)) as [Hf Hl]. eapply evals_function; [done| |done|exact He|done].
  apply Forall2_cons. split; [done|]. apply Forall2_cons. split; [by apply evals_const|apply Forall2_nil; done].
Qed.

Lemma args_exact args gs :
  Forall (λ n, ∀ g v, all_nodes row_node_ok n → GVisit n = Ok g → evaluate n = Some v → evals g v) args →
  Forall (all_nodes row_node_ok) args → map_ok GVisit args = Ok gs →
  Forall2 (λ n g, ∀ v, evaluate n = Some v → evals g v) args gs.
Proof.
  intros IH Hall Hgs. apply map_ok_Forall2 in Hgs. induction Hgs as [|n g args gs Hg _ IHs]; [apply Forall2_nil; done|].
  apply Forall_cons in IH as [IHn IH]. apply Forall_cons in Hall as [Hn Hall]. apply Forall2_cons. split; [|by apply IHs].
  intros v Hv. by apply IHn.
Qed.

(** [AND] and [OR]. *)
Lemma evals_logical use_or args gs v :
  Forall2 (λ n g, ∀ v, evaluate n = Some v → evals g v) args gs → (2 ≤ length args)%nat →
  bool_value <$> eval_bools shift evaluate use_or args = Some v → evals (GBoolean use_or gs) v.
Proof.
  intros HF Hlen Hv. apply fmap_Some in Hv as (b & Hb & ->). split; [|done].
  rewrite geval_boolean by (by rewrite <- (Forall2_length _ _ _ HF)). by rewrite (gbools_exact _ _ _ _ HF Hb).
Qed.

Lemma visit_exact n g v :
  columns_ok → sql_functions s other → all_nodes row_node_ok n → GVisit n = Ok g → evaluate n = Some v → evals g v.
Proof.
  intros Hcol Hother. revert g v. induction n as [t c|cv|c t e IHc IHt IHe|o args IH|sg args IH|sg use_or x a IHx] using Node_nested_ind;
    intros g v [Hn Hall] Hg Hv; cbn [RowFilter.Visit] in Hg; cbn [eval] in Hv.
  - by eapply evals_variable.
  - injection Hv as <-. by apply evals_const.
  - destruct Hall as (Hc & Ht & He). apply rbind_Ok_inv in Hg as (gc & Hgc & Hg). apply rbind_Ok_inv in Hg as (gt & Hgt & Hg).
    apply rbind_Ok_inv in Hg as (ge & Hge & Hg). destruct (type_eqb _ _) eqn:Et; [|done]. injection Hg as <-.
    apply type_eqb_eq in Et. destruct (evaluate c) as [vc|] eqn:Evc; [|done]. destruct (IHc gc vc Hc Hgc eq_refl) as [Ec _].
    cbn [mbind option_bind] in Hv. unfold evals. rewrite geval_if, Ec. cbn [mbind option_bind gtype].
    rewrite (as_bool_shift None shift). destruct (as_bool shift vc) as [[[]|]|]; [by apply IHt| | |done].
    all: rewrite Et; by apply IHe.
  - apply all_nodes_args in Hall.
    destruct o.
    + apply rbind_Ok_inv in Hg as (gs & Hgs & [= <-]). by eapply evals_logical; [apply args_exact| |].
    + apply rbind_Ok_inv in Hg as (gs & Hgs & [= <-]). by eapply evals_logical; [apply args_exact| |].
    + destruct args as [|a [|]]; try done. apply rbind_Ok_inv in Hg as (ga & Hga & [= <-]).
      destruct (evaluate a) as [va|] eqn:Eva; [|done]. cbn [mbind option_bind] in Hv.
      destruct (as_bool shift va) as [b|] eqn:Eb; [|done]. injection Hv as <-. apply as_bool_value in Eb as ->.
      apply evals_not. apply Forall_cons in IH as [IHa _]. apply Forall_cons in Hall as [Ha _]. by apply IHa.
  - apply all_nodes_args in Hall. apply rbind_Ok_inv in Hg as (gs & Hgs & Hg).
    destruct (eval_args evaluate args) as [vs|] eqn:Evs; [|done]. cbn [mbind option_bind] in Hv.
    eapply evals_function; [done|by eapply gevals_exact; [apply args_exact|]|by apply Hn|done|done].
  - destruct Hn as (Hne & Hok & Hlen). destruct (evaluate x) as [vx|] eqn:Evx; [|done].
    apply fmap_Some in Hv as (b & Hb & ->). destruct (RowFilter.Visit _ _ _ x) as [gx|] eqn:Egx.
    2: { exfalso. destruct (is_in (function_id sg) use_or); [done|]. destruct (a_values a); done. }
    assert (evals gx vx) as Hx by by apply IHx.
    assert (∀ inn, is_in (function_id sg) use_or = true → try_to_build_in gx (a_type a) (a_values a) = Ok inn →
      evals (in_or_null (function_id sg) gx inn) (bool_value b)) as Hinn by (intros; by eapply evals_try_in).
    assert (∀ gs, map_ok (λ maybe_value, let! g1 := Ok gx in
        let! g2 := VisitConst Decimal128_FromString {| v_type := a_type a; v_value := maybe_value |} in
        create (function_id sg) [g1; g2]) (a_values a) = Ok gs → (2 ≤ length (a_values a))%nat →
        evals (GBoolean use_or gs) (bool_value b)) as Hlog.
    { intros gs Hgs Hl. eapply evals_elements; [done|done| |exact Hgs|done|done]. intros e He. by apply Hok. }
    destruct (is_in (function_id sg) use_or) eqn:Ein.
    + cbn [rbind] in Hg. destruct (try_to_build_in gx _ _) as [inn|] eqn:Ei; [injection Hg as <-; by apply Hinn|].
      apply rbind_Ok_inv in Hg as (gs & Hgs & [= <-]). apply Hlog; [done|]. destruct Hlen as [?|(? & ? & _ & [= <-] & ?)]; [done|congruence].
    + apply rbind_Ok_inv in Hg as (gs & Hgs & [= <-]). apply Hlog; [done|]. by destruct Hlen as [?|(? & ? & ? & _)].
Qed.
End exact.


