(* ===== verification/RowFilterExample.v ===== *)
(** * RowFilterExample: a model of Gandiva and filters on a row

    An executable model of the functions of Gandiva that has the laws of
    [RowFilterSemantics.Gandiva], the filters that witness the theorems there, and a filter
    on which the row filter and the statistics filter disagree. *)

From stdpp Require Import base list strings sets.
From Stdlib Require Import ZArith Lia Eqdep_dec.
From S2P Require Import Prelude OrderedMap FilterValue Calendar StatsGetter Stats StatsFilter RowFilter TemporalOps RowFilterSemantics.

Local Open Scope Z_scope.

(** ** A model of Gandiva *)

Definition compare_id (name : string) : option FunctionID :=
  List.find (λ fid, bool_decide (compare_name fid = Some name))
    [kLessThan; kLessThanOrEqualTo; kGreaterThan; kGreaterThanOrEqualTo; kEqual; kNotEqual].

Definition ok_bool (x : result (option bool)) : option Value := match x with Ok b => Some (bool_value b) | Err _ => None end.

Definition model_compare (fid : FunctionID) (a b : Value) : option Value :=
  match decide (v_type a = v_type b) with
  | left e => if compares fid (v_type b)
              then Some (bool_value (compare_nullable fid (v_type b) (eq_rect _ (λ t, option (phys t)) (v_value a) _ e) (v_value b)))
              else None
  | right _ =>
      match a, b with
      | {| v_type := VT.kDate; v_value := d |}, {| v_type := VT.kTimestamp; v_value := x |} => ok_bool (null_if_null (date_timestamp fid) d x)
      | {| v_type := VT.kTimestamp; v_value := x |}, {| v_type := VT.kDate; v_value := d |} => ok_bool (null_if_null (timestamp_date fid) x d)
      | _, _ => None
      end
  end.

(** The functions that are registered. *)
Definition ok_value {A} (f : A → Value) (x : result A) : option Value := match x with Ok v => Some (f v) | Err _ => None end.

Definition as_int (v : Value) : option (ValueType * option Z) :=
  match v with
  | {| v_type := VT.kInt2; v_value := o |} => Some (VT.kInt2, o)
  | {| v_type := VT.kInt4; v_value := o |} => Some (VT.kInt4, o)
  | {| v_type := VT.kInt8; v_value := o |} => Some (VT.kInt8, o)
  | _ => None
  end.

Definition model_arithmetic (f : Z → Z → Z → result Z) (args : list Value) : option Value :=
  match args with
  | [a; b] =>
      match as_int a, as_int b with
      | Some (ta, x), Some (tb, y) =>
          if bool_decide (ta = tb) then ok_value (int_value ta) (null_if_null (f (int_width ta)) x y) else None
      | _, _ => None
      end
  | _ => None
  end.

Definition units : list trunc_unit :=
  [UMillennium; UCentury; UDecade; UYear; UQuarter; UMonth; UWeek; UDay; UHour; UMinute; USecond; UMilliseconds].

Definition model_temporal (name : string) (args : list Value) (t : ArrowType) : option Value :=
  match args, t with
  | [{| v_type := VT.kTimestamp; v_value := o |}; {| v_type := VT.kInt8; v_value := sh |}], _ =>
      ok_value (λ x, val VT.kTimestamptz x) (null_if_null CastTimestamptzFromTimestamp o sh)
  | [{| v_type := VT.kDate; v_value := a |}; {| v_type := VT.kDate; v_value := b |}], _ =>
      ok_value (λ x, val VT.kInt4 x) (null_if_null DateDiff a b)
  | [{| v_type := VT.kTimestamp; v_value := o |}], ADate32 => Some (val VT.kDate (CastDateFromTimestamp <$> (o : option Z)))
  | [{| v_type := VT.kTimestamp; v_value := o |}], ATimestamp =>
      match List.find (λ u, String.eqb ("DateTrunc" +:+ registered_unit u) name) units with
      | Some u => ok_value (λ x, val VT.kTimestamp x) (null_if_null1 (DateTrunc u) o)
      | None => None
      end
  | _, _ => None
  end.

Definition model_own (name : string) (args : list Value) (t : ArrowType) : option Value :=
  match args with
  | [{| v_type := VT.kTimestamptz; v_value := o |}; {| v_type := VT.kInt8; v_value := sh |}] =>
      match null_if_null CastTimestampFromTimestamptz o sh with Ok x => Some (val VT.kTimestamp x) | Err _ => None end
  | [a] =>
      if String.eqb name "isnull" then Some (bool_value (Some (IsNull a)))
      else match a, t with
           | {| v_type := VT.kBool; v_value := o |}, ABool => Some (bool_value (negb <$> (o : option bool)))
           | {| v_type := VT.kInt2; v_value := o |}, AInt32 => Some (val VT.kInt4 o)
           | {| v_type := VT.kInt2; v_value := o |}, AInt64 => Some (val VT.kInt8 o)
           | {| v_type := VT.kInt4; v_value := o |}, AInt64 => Some (val VT.kInt8 o)
           | {| v_type := VT.kFloat4; v_value := o |}, AFloat64 => Some (val VT.kFloat8 o)
           | {| v_type := VT.kInt4; v_value := o |}, ADate32 => Some (val VT.kDate o)
           | {| v_type := VT.kInt8; v_value := o |}, ATimestamp => Some (val VT.kTimestamp o)
           | {| v_type := VT.kInt8; v_value := o |}, ATimestamptz => Some (val VT.kTimestamptz o)
           | _, _ => None
           end
  | _ => None
  end.

Definition model_gandiva (name : string) (args : list Value) (t : ArrowType) : option Value :=
  match compare_id name, args with
  | Some fid, [a; b] => model_compare fid a b
  | Some _, _ => None
  | None, _ =>
      match List.find (λ p, String.eqb p.1 name) registered_arithmetic with
      | Some (_, f) => model_arithmetic f args
      | None => match model_temporal name args t with Some v => Some v | None => model_own name args t end
      end
  end.

Lemma model_arithmetic_int f t a b q :
  t ∈ int_types → null_if_null (f (int_width t)) a b = Ok q →
  model_arithmetic f [int_value t a; int_value t b] = Some (int_value t q).
Proof.
  intros Ht Hr. unfold int_types in Ht. repeat (apply elem_of_cons in Ht as [-> |Ht]); [..|by apply elem_of_nil in Ht];
    unfold model_arithmetic; cbn [as_int int_value v_type v_value]; rewrite bool_decide_true by done; by rewrite Hr.
Qed.

#[export] Instance model_gandiva_laws : Gandiva model_gandiva.
Proof.
  assert (∀ fid name, compare_name fid = Some name → compare_id name = Some fid) as Hid by by destruct fid; intros ? [= <-].
  split; try done.
  - intros fid name t a b Hn Hc. unfold model_gandiva, model_compare. rewrite (Hid _ _ Hn). cbn [v_type v_value].
    destruct (decide (t = t)) as [e|]; [|done]. by rewrite (UIP_dec ValueType_eq_dec e eq_refl), Hc.
  - intros t o _. by destruct t.
  - intros o sh x Hr. unfold model_gandiva. change (compare_id "castTIMESTAMP") with (@None FunctionID). cbn. by rewrite Hr.
  - intros fid name a b x Hn Hr. unfold model_gandiva. rewrite (Hid _ _ Hn). unfold model_compare. cbn [v_type decide].
    destruct (decide _) as [e|_]; [discriminate e|]. by rewrite Hr.
  - intros fid name a b x Hn Hr. unfold model_gandiva. rewrite (Hid _ _ Hn). unfold model_compare. cbn [v_type decide].
    destruct (decide _) as [e|_]; [discriminate e|]. by rewrite Hr.
  - intros name f t a b x Hin Ht Hr. unfold registered_arithmetic in Hin. unfold model_gandiva.
    repeat (apply elem_of_cons in Hin as [[= -> ->]|Hin]); [..|by apply elem_of_nil in Hin];
      (change (compare_id _) with (@None FunctionID)); cbn -[model_arithmetic]; by apply model_arithmetic_int.
  - intros o sh x Hr. unfold model_gandiva. change (compare_id "castTIMESTAMPTZ") with (@None FunctionID).
    cbn -[null_if_null]. by rewrite Hr.
  - intros a b x Hr. unfold model_gandiva. change (compare_id "DateDiff") with (@None FunctionID). cbn -[null_if_null]. by rewrite Hr.
  - intros u o x Hr. unfold model_gandiva. replace (compare_id _) with (@None FunctionID) by by destruct u.
    replace (List.find _ registered_arithmetic) with (@None (string * (Z → Z → Z → result Z))) by by destruct u.
    unfold model_temporal. replace (List.find _ units) with (Some u) by by destruct u. by rewrite Hr.
Qed.

(** ** Filters on a row *)

Module RowExample.
Definition no_decimals (raw_number : string) : result (Z * Z * Z) := Err (StatusError "no decimals").
Definition fields : list (ArrowType * string) := [(AInt32, "X"); (ATimestamptz, "created")].
Definition resolver := TrivialArrowFieldResolver fields.

(** A row with [x] = 3 and [created] at the epoch. *)
Definition batch (name : string) : option Value :=
  if bool_decide (name = "X") then Some (val VT.kInt4 (Some 3))
  else if bool_decide (name = "created") then Some (val VT.kTimestamptz (Some 0)) else None.
Definition the_row : row := λ c t,
  if bool_decide (c = "x") && bool_decide (t = VT.kInt4) then Some (val VT.kInt4 (Some 3))
  else if bool_decide (c = "created") && bool_decide (t = VT.kTimestamptz) then Some (val VT.kTimestamptz (Some 0)) else None.

Lemma batch_is_row : columns_ok batch the_row resolver.
Proof.
  intros t c v. unfold the_row. case_bool_decide as Hc; cbn [andb].
  - subst c. destruct (bool_decide (t = VT.kInt4)) eqn:Et; intros H; [by injection H as <-|]. by rewrite bool_decide_eq_false_2 in H.
  - case_bool_decide as Hc'; cbn [andb]; [|done]. subst c. case_bool_decide; intros H'; [|done]. by injection H' as <-.
Qed.

(** Some functions of SQL: sums of integers of 32 bits, dates and months of timestamps. *)
Definition sql (fid : FunctionID) (args : list Value) : option Value :=
  match fid, args with
  | kAddWithChecks, [{| v_type := VT.kInt4; v_value := Some x |}; {| v_type := VT.kInt4; v_value := Some y |}] =>
      if (int32_min <=? x + y) && (x + y <=? int32_max) then Some (val VT.kInt4 (Some (x + y))) else None
  | kCastDate, [{| v_type := VT.kTimestamp; v_value := o |}] => Some (val VT.kDate ((λ x : Z, x / micros_per_day) <$> o))
  | kDateTrunc, [{| v_type := VT.kString; v_value := Some name |}; {| v_type := VT.kTimestamp; v_value := Some x |}] =>
      if String.eqb (AsciiStrToLower name) "day" then Some (val VT.kTimestamp (Some (x / micros_per_day * micros_per_day))) else None
  | _, _ => None
  end.

Lemma day_floor x : is_floor (unit_start UDay) x (x / micros_per_day * micros_per_day).
Proof.
  change (unit_start UDay) with (multiple_of micros_per_day). unfold micros_per_day. split; [by eexists|].
  split; [Z.to_euclidean_division_equations; lia|]. intros b [k ->] Hb. Z.to_euclidean_division_equations. lia.
Qed.

Lemma sql_is_sql s : sql_functions s sql.
Proof.
  intros fid vs v H. unfold sql in H. destruct fid; try discriminate H.
  - destruct vs as [|[[] [x|]] [|[[] [y|]] [|]]]; try discriminate H. destruct (_ && _) eqn:E; [|discriminate H]. injection H as <-.
    apply (sql_arithmetic s kAddWithChecks (λ x y, Some (x + y)) VT.kInt4 VT.kInt4 VT.kInt4 (Some x) (Some y) (Some (x + y)));
      try done; try (unfold int_types; set_solver). constructor; [done|]. unfold in_bits. unfold_ints. cbn. lia.
  - destruct vs as [|[[] o] [|]]; try discriminate H. injection H as <-. apply sql_cast_date.
  - destruct vs as [|[[] [x|]] [|[[] [y|]] [|]]]; try discriminate H. destruct (String.eqb_spec (AsciiStrToLower x) "day"); [|discriminate H].
    injection H as <-. apply (sql_date_trunc s UDay x (Some y)); [done|]. apply day_floor.
Qed.

(** [x + 2 < 10::int8 AND x IN (3, 4) AND created < timestamp 0 AND
    date_trunc('Day', timestamp 90000000000) = date '1970-01-02'], and the cast of the timestamp. *)
Definition sig (fid : FunctionID) : FunctionSignature :=
  {| function_id := fid; return_type := VT.kBool; argument_types := [VT.kInt4; VT.kInt4] |}.
Definition x : Node := VariableNode VT.kInt4 "x".
Definition created : Node := VariableNode VT.kTimestamptz "created".
Definition before_epoch : Node := FunctionNode (sig kLessThan) [created; ConstNode (val VT.kTimestamp (Some 0))].
Definition filter : Node :=
  LogicalNode kAnd
    [FunctionNode (sig kLessThan) [FunctionNode (sig kAddWithChecks) [x; ConstNode (val VT.kInt4 (Some 2))]; ConstNode (val VT.kInt8 (Some 10))];
     ScalarOverArrayFunctionNode (sig kEqual) true x {| a_type := VT.kInt2; a_values := [Some 3; Some 4] : list (option (phys VT.kInt2)) |};
     before_epoch;
     FunctionNode (sig kEqual)
       [FunctionNode (sig kDateTrunc) [ConstNode (val VT.kString (Some "Day"%string)); ConstNode (val VT.kTimestamp (Some 90000000000))];
        FunctionNode (sig kCastDate) [ConstNode (val VT.kTimestamp (Some 90000000000))]]].

(** Three hours. *)
Definition hours3 : Z := 10800000000.

Definition compiled (s : Z) (n : Node) : result GNode := RowFilter.Visit no_decimals resolver (CreateFunction s (Ok ())) n.
Definition condition (s : Z) (n : Node) : GNode := match compiled s n with Ok g => g | Err _ => MakeNull ABool end.

Lemma filter_ok : all_nodes (row_node_ok hours3 sql the_row no_decimals resolver) filter.
Proof.
  split; [cbn; lia|]. repeat split; try done.
  all: try (intros vs Hvs; vm_compute in Hvs; injection Hvs as <-).
  all: try by left.
  - intros _. by repeat split.
  - done.
  - match goal with H : eval _ _ _ _ = Some _ |- _ => injection H as <- end. intros _. by repeat split.
  - intros _. repeat split; try done; vm_compute; lia.
  - intros _. repeat split; try done; vm_compute; lia.
  - intros u Hu. destruct u; try discriminate Hu. vm_compute. repeat split; congruence.
  - split; vm_compute; congruence.
Qed.

(** [created] is at the epoch. *)
Definition created_stats : GenericStats :=
  mk_stats VT.kTimestamptz {| st_min := 0 : phys VT.kTimestamptz; st_max := 0 |}
    {| contains_null := false; contains_non_null := true |}.
Definition getter : stats_getter := λ c t,
  Ok (if bool_decide (c = "created") && bool_decide (t = VT.kTimestamptz) then Some created_stats else None).

Lemma created_getter_ok : getter_ok getter.
Proof.
  intros c t s. unfold getter. destruct (_ && _); intros H; injection H as <- || discriminate H.
  split; [split; vm_compute; by split|]. intros _. split; reflexivity.
Qed.
Lemma created_getter_covers : getter_covers getter the_row.
Proof.
  intros c t s w. unfold getter, the_row. destruct (bool_decide (c = "created") && _) eqn:E; [|done].
  apply andb_true_iff in E as [->%bool_decide_eq_true ->%bool_decide_eq_true]. intros [= <-] [= <-].
  exists (Some 0). split; [done|]. split; [done|]. intros _. split; reflexivity.
Qed.
End RowExample.
Import RowExample.



(** With the same [timestamp_to_timestamptz_shift_us] the filters disagree: the row filter subtracts the
    shift of a [timestamptz] and the statistics filter adds it.  Here the statistics describe the row
    and reject a filter that selects it. *)
Theorem shift_sign_disagrees :
  getter_covers getter the_row ∧ columns_ok batch the_row resolver ∧
  StatsFilter.ApplyFilter (Some hours3) (Some before_epoch) getter = Ok kNone ∧
  ∃ g, compiled hours3 before_epoch = Ok g ∧ geval model_gandiva batch g = Some (bool_value (Some true)).
Proof.
  split; [exact created_getter_covers|]. split; [exact batch_is_row|]. split; [vm_compute; reflexivity|].
  exists (condition hours3 before_epoch). split; vm_compute; reflexivity.
Qed.
