(* ===== verification/Entries.v ===== *)
(** * Entries: reading manifest entries and planning a scan from them

    [AllEntriesStream], [EntryStream], [AddSequenceNumberOrFail] and
    [GetScanMetadata] of [iceberg/tea_scan.cpp].

    Reading a manifest list and decoding the Avro entries of a manifest are
    parameters: [read_manifest_list] and [read_entries] return the decoded
    records or the failure of the read.  A manifest is read when the stream reaches it, all
    of its entries at once, where the code decodes them one by one: the order in which
    errors are met differs, and which call of [ReadNext] returns them. *)

From stdpp Require Import base list strings gmap.
From Stdlib Require Import ZArith Lia.
From S2P Require Import Prelude OrderedMap Types ScanTypes PartitionSpecs TableMetadata.
From S2P Require Import ScanBuilder ScanSpec Planner FilterValue Stats StatsFilter StatsGetter ManifestFilter.

(** An added entry without a sequence number inherits its manifest's. *)
Definition AddSequenceNumberOrFail (manifest : ManifestFile) (entry : ManifestEntry) : result ManifestEntry :=
  let seq :=
    match sequence_number entry with
    | None => if bool_decide (status entry = kAdded) then Some (mf_sequence_number manifest) else None
    | s => s
    end in
  let! _ := Ensure (bool_decide (is_Some seq)) "No sequence_number in iceberg::ManifestEntry for data file" in
  Ok {| status := status entry; entry_snapshot_id := entry_snapshot_id entry; sequence_number := seq;
        file_sequence_number := file_sequence_number entry; data_file := data_file entry |}.

(** [EntryStream::ReadNext]: the next live entry and the rest of the manifest. *)
Fixpoint EntryStream_ReadNext (manifest : ManifestFile) (all_stream : list ManifestEntry) :
    result (option (ManifestEntry * list ManifestEntry)) :=
  match all_stream with
  | [] => Ok None
  | entry :: rest =>
      let! e := AddSequenceNumberOrFail manifest entry in
      if bool_decide (status e = kDeleted) then EntryStream_ReadNext manifest rest
      else Ok (Some (e, rest))
  end.

Section stream.
Context {Config : Type} (default_config : Config).
Context (read_manifest_list : string → result (list ManifestFile)).
(** Contents of a manifest, decoded with the partition fields, a reader
    configuration and the choice of the reader schema. *)
Context (read_entries : string → list PartitionKeyField → Config → bool → result (list ManifestEntry)).
Context (schema : Schema) (partition_specs : list PartitionSpec).
Context (use_reader_schema : bool) (config : Config).

(** [GetManifestEntryStream]: delete manifests are read in full. *)
Definition GetManifestEntryStream (manifest_file : ManifestFile) : result (list ManifestEntry) :=
  let! spec := GetPartitionSpecById partition_specs (mf_partition_spec_id manifest_file) in
  match GetFieldsFromPartitionSpec (spec_fields spec) schema with
  | None => Err (Exn "GetManifestEntryStream: failed to parse partition_spec_id")
  | Some fields =>
      match mf_content manifest_file with
      | kContentDeletes => read_entries (mf_path manifest_file) fields default_config false
      | kContentData => read_entries (mf_path manifest_file) fields config use_reader_schema
      end
  end.

Record AllEntriesStream := {
  manifest_files_ : list ManifestFile;
  current_manifest_stream_ : option (ManifestFile * list ManifestEntry);
}.

(** The loop of [AllEntriesStream::ReadNext] once the current manifest is
    exhausted. *)
Fixpoint next_manifest (queue : list ManifestFile) : result (option ManifestEntry * AllEntriesStream) :=
  match queue with
  | [] => Ok (None, {| manifest_files_ := []; current_manifest_stream_ := None |})
  | mf :: queue =>
      let! entries := GetManifestEntryStream mf in
      let! r := EntryStream_ReadNext mf entries in
      match r with
      | Some (e, rest) =>
          Ok (Some e, {| manifest_files_ := queue; current_manifest_stream_ := Some (mf, rest) |})
      | None => next_manifest queue
      end
  end.

Definition ReadNext (s : AllEntriesStream) : result (option ManifestEntry * AllEntriesStream) :=
  match current_manifest_stream_ s with
  | None => next_manifest (manifest_files_ s)
  | Some (mf, entries) =>
      let! r := EntryStream_ReadNext mf entries in
      match r with
      | Some (e, rest) =>
          Ok (Some e, {| manifest_files_ := manifest_files_ s; current_manifest_stream_ := Some (mf, rest) |})
      | None => next_manifest (manifest_files_ s)
      end
  end.

(** [AllEntriesStream::Make]: the filter decides which manifests are read; any
    failure of the filter reads them all. *)
Definition keep_unskipped (skips : list bool) (manifests : list ManifestFile) : list ManifestFile :=
  flat_map (λ bm : bool * ManifestFile, if bm.1 then [] else [bm.2]) (zip skips manifests).

Definition Make_queue (stats_filter : option (option Z * option Node)) (manifests : list ManifestFile) :
    list ManifestFile :=
  match stats_filter with
  | None => manifests
  | Some (shift, root) =>
      match FilterManifests shift root schema partition_specs manifests with
      | Ok skips => keep_unskipped skips manifests
      | Err _ => manifests
      end
  end.

Definition Make_stream (stats_filter : option (option Z * option Node)) (manifest_list_path : string) :
    result AllEntriesStream :=
  let! manifests := read_manifest_list manifest_list_path in
  Ok {| manifest_files_ := Make_queue stats_filter manifests; current_manifest_stream_ := None |}.

(** The loop of [GetScanMetadata]; [None] when the fuel runs out. *)
Fixpoint drain (m : TableMetadataV2) (fuel : nat) (s : AllEntriesStream) (p : Planner) :
    option (result Planner) :=
  match fuel with
  | O => None
  | S fuel =>
      match ReadNext s with
      | Err e => Some (Err e)
      | Ok (None, _) => Some (Ok p)
      | Ok (Some entry, s) =>
          match planner_AddEntry m schema p entry with
          | Err e => Some (Err e)
          | Ok p => drain m fuel s p
          end
      end
  end.

Definition GetScanMetadata (m : TableMetadataV2) (fuel : nat) (s : AllEntriesStream) :
    option (result ScanMetadata) :=
  match drain m fuel s empty_planner with
  | None => None
  | Some r => Some (let! p := r in planner_GetResult schema p)
  end.

(** ** What the stream delivers *)

(** The entries of one manifest, with their sequence numbers. *)
Definition live_entries (mf : ManifestFile) (entries : list ManifestEntry) : result (list ManifestEntry) :=
  let! es := map_ok (AddSequenceNumberOrFail mf) entries in
  Ok (List.filter live es).

Definition manifest_entries (mf : ManifestFile) : result (list ManifestEntry) :=
  let! entries := GetManifestEntryStream mf in
  live_entries mf entries.

Definition stream_entries (s : AllEntriesStream) : result (list ManifestEntry) :=
  let! current := match current_manifest_stream_ s with
                  | Some (mf, entries) => live_entries mf entries
                  | None => Ok []
                  end in
  let! rest := map_ok manifest_entries (manifest_files_ s) in
  Ok (current ++ concat rest).

Lemma EntryStream_ReadNext_spec mf entries :
  match EntryStream_ReadNext mf entries with
  | Ok None => live_entries mf entries = Ok []
  | Ok (Some (e, rest)) => live_entries mf entries = (let! es := live_entries mf rest in Ok (e :: es))
  | Err _ => is_ok (live_entries mf entries) = false
  end.
Proof.
  induction entries as [|e entries IH]; simpl; [done|]. unfold live_entries. simpl.
  destruct (AddSequenceNumberOrFail mf e) as [e'|]; simpl; [|done]. case_bool_decide as Hd.
  - assert (live e' = false) as Hl by (unfold live; by rewrite Hd).
    unfold live_entries in *. destruct (EntryStream_ReadNext mf entries) as [[[e'' rest]|]|];
      destruct (map_ok _ entries) as [es|]; simpl in *; rewrite ?Hl; done.
  - assert (live e' = true) as Hl by (unfold live; by rewrite bool_decide_false).
    destruct (map_ok _ entries) as [es|]; simpl; [|done]. by rewrite Hl.
Qed.

Lemma next_manifest_spec queue :
  match next_manifest queue with
  | Ok (None, _) => ∃ ess, map_ok manifest_entries queue = Ok ess ∧ concat ess = []
  | Ok (Some e, s) =>
      (let! ess := map_ok manifest_entries queue in Ok (concat ess))
      = (let! es := stream_entries s in Ok (e :: es))
  | Err _ => is_ok (map_ok manifest_entries queue) = false
  end.
Proof.
  induction queue as [|mf queue IH]; simpl; [by exists []|].
  assert (manifest_entries mf = (let! entries := GetManifestEntryStream mf in live_entries mf entries))
    as -> by done.
  destruct (GetManifestEntryStream mf) as [entries|]; simpl; [|done].
  pose proof (EntryStream_ReadNext_spec mf entries) as Hr.
  destruct (EntryStream_ReadNext mf entries) as [[[e rest]|]|]; simpl.
  - rewrite Hr. unfold stream_entries. simpl. destruct (live_entries mf rest) as [es|]; simpl; [|done].
    by destruct (map_ok manifest_entries queue).
  - rewrite Hr. simpl. destruct (next_manifest queue) as [[[e|] s]|].
    + rewrite <- IH. by destruct (map_ok manifest_entries queue).
    + destruct IH as (ess & -> & Hc). simpl. by exists ([] :: ess).
    + by destruct (map_ok manifest_entries queue).
  - by destruct (live_entries mf entries).
Qed.

Lemma ReadNext_spec s :
  match ReadNext s with
  | Ok (None, _) => stream_entries s = Ok []
  | Ok (Some e, s') => stream_entries s = (let! es := stream_entries s' in Ok (e :: es))
  | Err _ => is_ok (stream_entries s) = false
  end.
Proof.
  destruct s as [queue [[mf entries]|]].
  - assert (stream_entries {| manifest_files_ := queue; current_manifest_stream_ := Some (mf, entries) |}
      = (let! current := live_entries mf entries in
         let! rest := map_ok manifest_entries queue in Ok (current ++ concat rest))) as -> by done.
    unfold ReadNext. simpl.
    pose proof (EntryStream_ReadNext_spec mf entries) as Hr. pose proof (next_manifest_spec queue) as Hn.
    destruct (EntryStream_ReadNext mf entries) as [[[e rest]|]|]; simpl.
    + rewrite Hr. unfold stream_entries. simpl. destruct (live_entries mf rest) as [es|]; simpl; [|done].
      by destruct (map_ok manifest_entries queue).
    + rewrite Hr. simpl. destruct (next_manifest queue) as [[[e|] s']|].
      * by rewrite <- Hn.
      * destruct Hn as (ess & -> & Hc). simpl. by rewrite Hc.
      * by destruct (map_ok manifest_entries queue).
    + by destruct (live_entries mf entries).
  - assert (stream_entries {| manifest_files_ := queue; current_manifest_stream_ := None |}
      = (let! rest := map_ok manifest_entries queue in Ok (concat rest))) as -> by done.
    unfold ReadNext. simpl.
    pose proof (next_manifest_spec queue) as Hn. destruct (next_manifest queue) as [[[e|] s']|].
    + by rewrite <- Hn.
    + destruct Hn as (ess & -> & Hc). simpl. by rewrite Hc.
    + by destruct (map_ok manifest_entries queue).
Qed.

(** With fuel for every entry and the end of the stream, the loop is the fold
    of [AddEntry] over the entries of the stream. *)
Lemma drain_fold m fuel s p es :
  stream_entries s = Ok es → length es < fuel →
  drain m fuel s p = Some (fold_ok (planner_AddEntry m schema) p es).
Proof.
  revert s p es. induction fuel as [|fuel IH]; intros s p es Hes Hf; [lia|]. simpl.
  pose proof (ReadNext_spec s) as Hr. destruct (ReadNext s) as [[[e|] s']|].
  - rewrite Hr in Hes. apply rbind_Ok_inv in Hes as (es' & Hes' & [= <-]). simpl in *.
    destruct (planner_AddEntry m schema p e) as [p'|]; simpl; [|done]. apply IH; [done|lia].
  - rewrite Hr in Hes. by injection Hes as <-.
  - rewrite Hes in Hr. done.
Qed.

(** A failure to read an entry is never lost. *)
Lemma drain_ok m fuel s p p' :
  drain m fuel s p = Some (Ok p') →
  ∃ es, stream_entries s = Ok es ∧ fold_ok (planner_AddEntry m schema) p es = Ok p'.
Proof.
  revert s p. induction fuel as [|fuel IH]; intros s p H; [done|]. simpl in H.
  pose proof (ReadNext_spec s) as Hr. destruct (ReadNext s) as [[[e|] s']|]; [| |done].
  - destruct (planner_AddEntry m schema p e) as [p1|] eqn:E; [|done].
    apply IH in H as (es & Hes & Hfold). exists (e :: es). rewrite Hr, Hes. simpl. by rewrite E.
  - injection H as <-. by exists [].
Qed.

Lemma AddSequenceNumberOrFail_ok mf e e' :
  AddSequenceNumberOrFail mf e = Ok e' →
  data_file e' = data_file e ∧ status e' = status e ∧
  sequence_number e' = Some (default (mf_sequence_number mf) (sequence_number e)) ∧
  (sequence_number e = None → status e = kAdded).
Proof.
  unfold AddSequenceNumberOrFail. intros H. inv_ok. apply bool_decide_eq_true in Ha. simpl.
  destruct (sequence_number e); [done|]. case_bool_decide; [done|]. by destruct Ha.
Qed.

Lemma keep_unskipped_elem skips manifests mf :
  length skips = length manifests →
  mf ∈ manifests → mf ∉ keep_unskipped skips manifests →
  ∃ i, manifests !! i = Some mf ∧ skips !! i = Some true.
Proof.
  revert skips. induction manifests as [|x ms IH]; intros [|b skips] Hl Hin Hno;
    simpl in Hl; try lia; try by apply elem_of_nil in Hin.
  unfold keep_unskipped in *. simpl in *. apply elem_of_cons in Hin as [->|Hin].
  - exists 0. split; [done|]. destruct b; [done|]. destruct Hno. by left.
  - destruct (IH skips) as (i & Hi & Hs); [lia|done| |by exists (S i)].
    intros H. apply Hno. apply elem_of_app. by right.
Qed.
End stream.

(** C24: reading a scan through the entry stream terminates, with fuel for each
    live entry and one more step, in the plan of the entries of the manifests
    in order, each with its own or its manifest's sequence number. *)
Theorem get_scan_metadata_terminates {Config : Type} (default_config : Config)
    (read_entries : string → list PartitionKeyField → Config → bool → result (list ManifestEntry))
    (schema : Schema) (specs : list PartitionSpec) (use_reader_schema : bool) (config : Config)
    (m : TableMetadataV2) (manifests : list ManifestFile) (ess : list (list ManifestEntry)) (fuel : nat)
    (Hread : map_ok (manifest_entries default_config read_entries schema specs use_reader_schema config)
               manifests = Ok ess)
    (Hfuel : length (concat ess) < fuel) :
  GetScanMetadata default_config read_entries schema specs use_reader_schema config m fuel
    {| manifest_files_ := manifests; current_manifest_stream_ := None |}
  = Some (let! p := fold_ok (planner_AddEntry m schema) empty_planner (concat ess) in
          planner_GetResult schema p).
Proof.
  unfold GetScanMetadata. erewrite drain_fold; [done| |done].
  unfold stream_entries. simpl. by rewrite Hread.
Qed.

(** C7: a plan returned by [GetScanMetadata] keeps the contract for the entries
    of all manifests of the stream: every entry was read, none was lost. *)
Theorem get_scan_metadata_exact {Config : Type} (default_config : Config)
    (read_entries : string → list PartitionKeyField → Config → bool → result (list ManifestEntry))
    (schema : Schema) (specs : list PartitionSpec) (use_reader_schema : bool) (config : Config)
    (m : TableMetadataV2) (manifests : list ManifestFile) (fuel : nat) (plan : ScanMetadata)
    (Hplan : GetScanMetadata default_config read_entries schema specs use_reader_schema config m fuel
       {| manifest_files_ := manifests; current_manifest_stream_ := None |} = Some (Ok plan))
    (Hranges : ∀ ess, map_ok (manifest_entries default_config read_entries schema specs use_reader_schema config)
       manifests = Ok ess → entry_ranges_valid (concat ess)) :
  ∃ ess, map_ok (manifest_entries default_config read_entries schema specs use_reader_schema config)
           manifests = Ok ess ∧ plan_ok (concat ess) plan.
Proof.
  unfold GetScanMetadata in Hplan. destruct (drain _ _ _ _ _ _ _ _ _ _) as [r|] eqn:Hd; [|done].
  injection Hplan as Hplan. apply rbind_Ok_inv in Hplan as (p & -> & Hres).
  apply drain_ok in Hd as (es & Hes & Hfold). unfold stream_entries in Hes. simpl in Hes.
  apply rbind_Ok_inv in Hes as (ess & Hess & [= <-]). exists ess. split; [done|].
  eapply planner_of_plan_ok; [by eapply planner_AddEntries_of|done|by apply Hranges].
Qed.

(** The stream drops a manifest only when the filter proves from its
    summaries that no row of it can match; any failure of the filter keeps
    every manifest. *)
Theorem make_queue_drops_only_skippable (schema : Schema) (specs : list PartitionSpec)
    (shift : option Z) (root : option Node) (manifests : list ManifestFile) (mf : ManifestFile)
    (Hin : mf ∈ manifests) (Hout : mf ∉ Make_queue schema specs (Some (shift, root)) manifests) :
  can_skip shift root schema specs mf = Ok true.
Proof.
  unfold Make_queue in Hout. destruct (FilterManifests _ _ _ _ _) as [skips|] eqn:Hf; [|done].
  unfold FilterManifests in Hf. apply map_ok_Forall2 in Hf.
  destruct (keep_unskipped_elem skips manifests mf) as (i & Hi & Hs); [|done|done|].
  { symmetry. by eapply Forall2_length. }
  exact (Forall2_lookup_lr _ _ _ _ _ _ Hf Hi Hs).
Qed.

(** ** A concrete stream: a data manifest and a delete manifest *)
Module StreamExample.
Import Example1 Example2.

Definition data_manifest : ManifestFile := manifest_file kContentData 1 "data.avro" 7 [].
Definition delete_manifest : ManifestFile := manifest_file kContentDeletes 1 "deletes.avro" 8 [].
(** An added entry that inherits its sequence number. *)
Definition inherits (e : ManifestEntry) : ManifestEntry :=
  {| status := kAdded; entry_snapshot_id := None; sequence_number := None; file_sequence_number := None; data_file := data_file e |}.
Definition files (path : string) (_ : list PartitionKeyField) (_ : unit) (_ : bool) :
    result (list ManifestEntry) :=
  if bool_decide (path = "data.avro") then Ok [gone; inherits data_a; data_b] else Ok [inherits pos_ref].

Definition queue : list ManifestFile := [data_manifest; delete_manifest].
Definition read_all : result (list (list ManifestEntry)) :=
  map_ok (manifest_entries tt files sch (partition_specs metadata) false tt) queue.
Definition entries_read : list (list ManifestEntry) := match read_all with Ok l => l | Err _ => [] end.

Example inherited_numbers : sequence_number <$> concat entries_read = [Some 7; Some 3; Some 8]%Z.
Proof. vm_compute. reflexivity. Qed.

Definition scan : option (result ScanMetadata) :=
  GetScanMetadata tt files sch (partition_specs metadata) false tt metadata 4
    {| manifest_files_ := queue; current_manifest_stream_ := None |}.
Definition scanned : ScanMetadata :=
  match scan with Some (Ok p) => p | _ => {| ScanTypes.schema := sch; partitions := [] |} end.

Lemma ranges_read ess :
  map_ok (manifest_entries tt files sch (partition_specs metadata) false tt) queue = Ok ess →
  entry_ranges_valid (concat ess).
Proof.
  intros H. vm_compute in H. injection H as <-. intros e lo hi He Hp Hr. simpl in He.
  repeat (apply elem_of_cons in He as [->|He]); try by apply elem_of_nil in He.
  all: vm_compute in Hr; discriminate Hr.
Qed.
End StreamExample.

Lemma get_scan_metadata_terminates_witness :
  StreamExample.scan =
  Some (let! p := fold_ok (planner_AddEntry Example1.metadata Example1.sch) empty_planner
                    (concat StreamExample.entries_read) in planner_GetResult Example1.sch p).
Proof.
  apply (get_scan_metadata_terminates tt StreamExample.files Example1.sch
    (partition_specs Example1.metadata) false tt Example1.metadata StreamExample.queue
    StreamExample.entries_read 4).
  - vm_compute. reflexivity.
  - vm_compute. lia.
Defined.

Lemma get_scan_metadata_exact_witness :
  ∃ ess, StreamExample.read_all = Ok ess ∧ plan_ok (concat ess) StreamExample.scanned.
Proof.
  apply (get_scan_metadata_exact tt StreamExample.files Example1.sch
    (partition_specs Example1.metadata) false tt Example1.metadata StreamExample.queue 4
    StreamExample.scanned).
  - vm_compute. reflexivity.
  - exact StreamExample.ranges_read.
Defined.

Lemma make_queue_drops_only_skippable_witness :
  Make_queue ManifestExample.schema [ManifestExample.spec] (Some (None, Some ManifestExample.filter))
    [ManifestExample.manifest] = [] ∧
  can_skip None (Some ManifestExample.filter) ManifestExample.schema [ManifestExample.spec]
    ManifestExample.manifest = Ok true.
Proof.
  assert (Make_queue ManifestExample.schema [ManifestExample.spec] (Some (None, Some ManifestExample.filter))
    [ManifestExample.manifest] = []) as E by (vm_compute; reflexivity).
  split; [exact E|].
  apply (make_queue_drops_only_skippable _ _ _ _ [ManifestExample.manifest]).
  - left.
  - rewrite E. apply not_elem_of_nil.
Defined.
