(* ===== verification/Segments.v ===== *)
(** * Segments: byte ranges of data files, and the comparison of plans

    [ValidateSegments], [UniteSegments] and the plan representations of
    [iceberg/experimental_representations.cpp], [operator+] and [operator+=] of
    [DataEntry] in [iceberg/tea_scan.cpp].

    [std::sort] with a comparison of offsets is modelled by a merge sort on
    offsets; the theorems hold for any sorted order. *)

From stdpp Require Import base list sorting strings gmap.
From Stdlib Require Import ZArith Lia.
From S2P Require Import Prelude Types ScanTypes Layering.

Local Open Scope Z_scope.

(** ** Uniting segments *)

Fixpoint ValidateSegments (segments : list Segment) : bool :=
  match segments with
  | a :: ((b :: _) as rest) => if offset b <? offset a then false else ValidateSegments rest
  | _ => true
  end.

Definition seg_end (s : Segment) : Z := wrap_s 64 (offset s + length_ s).

(** The loop, with [back_segment]. *)
Fixpoint unite_loop (back : Segment) (segments : list Segment) : list Segment :=
  match segments with
  | [] => [back]
  | part :: segments =>
      if length_ back =? 0 then [back]
      else if offset part <=? seg_end back then
        let length :=
          if length_ part =? 0 then 0
          else wrap_s 64 (Z.max (seg_end back) (seg_end part) - offset back) in
        unite_loop {| offset := offset back; length_ := length |} segments
      else back :: unite_loop part segments
  end.

Definition UniteSegments (segments : list Segment) : result (list Segment) :=
  let! _ := Ensure (ValidateSegments segments) "Segments should be sorted" in
  Ok (match segments with [] => [] | s :: rest => unite_loop s rest end).

Definition offset_le (a b : Segment) : Prop := offset a ≤ offset b.
#[export] Instance offset_le_dec a b : Decision (offset_le a b).
Proof. unfold offset_le. apply _. Defined.

Definition SortParts (l : list Segment) : list Segment := merge_sort offset_le l.

(** [operator+]: the result has no deletion vector. *)
Definition DataEntry_plus (lhs rhs : DataEntry) : result DataEntry :=
  let! _ := Ensure (bool_decide (de_path lhs = de_path rhs)) "Pathes of left and right entries are not equals" in
  let! united := UniteSegments (SortParts (parts lhs ++ parts rhs)) in
  Ok {| de_path := de_path lhs; parts := united; dv := None |}.

(** [operator+=]: the left entry keeps its deletion vector. *)
Definition DataEntry_plus_assign (lhs rhs : DataEntry) : result DataEntry :=
  let! _ := Ensure (bool_decide (de_path lhs = de_path rhs)) "Pathes of left and right entries are not equals" in
  let! united := UniteSegments (SortParts (parts lhs ++ parts rhs)) in
  Ok {| de_path := de_path lhs; parts := united; dv := dv lhs |}.

(** ** Representations of plans *)

Inductive IcebergFile :=
| FilePositional (d : PositionalDeleteInfo)
| FileData (x : DataEntry)
| FileEquality (d : EqualityDeleteInfo).

(** From the last layer to the first. *)
Definition MakeFlatFilesList (partition : Partition) : list IcebergFile :=
  flat_map (λ layer, (FileData <$> l_data_entries_ layer)
    ++ (FilePositional <$> l_positional_delete_entries_ layer)
    ++ (FileEquality <$> l_equality_delete_entries_ layer)) (reverse partition).

(** Deletes are identified by their fields: a path, and field ids for equality
    deletes. *)
Abbreviation deletes_per_file A := (gmap string (gset A)).

(** The representation but for the schema, which is compared beside it. *)
Record ScanMetadataRepresentation := {
  positional_deletes_per_file : deletes_per_file string;
  equality_deletes_per_file : deletes_per_file (string * list Z);
  data_entries_per_file : gmap string DataEntry;
}.

(** Insert a set of deletes under a data file; an empty set inserts nothing. *)
Definition insert_deletes {A} `{Countable A} (file : string) (ds : gset A) (m : deletes_per_file A) :
    deletes_per_file A :=
  if bool_decide (ds = ∅) then m else <[file := default ∅ (m !! file) ∪ ds]> m.

Definition walk_file (st : deletes_per_file string * deletes_per_file (string * list Z)
                           * gset string * gset (string * list Z)) (f : IcebergFile) :=
  let '(pos, eqs, current_pos, current_eq) := st in
  match f with
  | FilePositional d => (pos, eqs, {[pd_path d]} ∪ current_pos, current_eq)
  | FileEquality d => (pos, eqs, current_pos, {[(ed_path d, field_ids d)]} ∪ current_eq)
  | FileData x =>
      (insert_deletes (de_path x) current_pos pos, insert_deletes (de_path x) current_eq eqs,
       current_pos, current_eq)
  end.

Definition add_data_entry (m : gmap string DataEntry) (x : DataEntry) : result (gmap string DataEntry) :=
  match m !! de_path x with
  | Some y => let! z := DataEntry_plus_assign y x in Ok (<[de_path x := z]> m)
  | None => Ok (<[de_path x := x]> m)
  end.

Definition represent_partition (r : ScanMetadataRepresentation) (p : Partition) :
    result ScanMetadataRepresentation :=
  let '(pos, eqs, _, _) :=
    foldl walk_file (positional_deletes_per_file r, equality_deletes_per_file r, ∅, ∅) (MakeFlatFilesList p) in
  let! entries := fold_ok add_data_entry (data_entries_per_file r) (flat_map l_data_entries_ p) in
  Ok {| positional_deletes_per_file := pos; equality_deletes_per_file := eqs;
        data_entries_per_file := entries |}.

Definition MakeRepresentation (plan : ScanMetadata) : result ScanMetadataRepresentation :=
  fold_ok represent_partition
    {| positional_deletes_per_file := ∅; equality_deletes_per_file := ∅; data_entries_per_file := ∅ |}
    (partitions plan).

#[export] Instance representation_eq_dec : EqDecision ScanMetadataRepresentation.
Proof. solve_decision. Defined.

Definition AreScanMetadataEqual (lhs rhs : ScanMetadata) : result bool :=
  let! l := MakeRepresentation lhs in
  let! r := MakeRepresentation rhs in
  let! same_schema := Schema_eq (schema lhs) (schema rhs) in
  Ok (same_schema && bool_decide (l = r)).

(** The set of united segments of a data entry. *)
Definition AreDataEntriesEqual (lhs rhs : DataEntry) : result bool :=
  let! l := UniteSegments (parts lhs) in
  let! r := UniteSegments (parts rhs) in
  Ok (bool_decide (de_path lhs = de_path rhs) &&
      bool_decide (Forall (λ s, s ∈ r) l ∧ Forall (λ s, s ∈ l) r)).

(** ** Theorems *)

(** A segment contains a byte; length 0 means up to the end of the file. *)
Definition seg_covers (s : Segment) (p : Z) : Prop :=
  offset s ≤ p ∧ (length_ s = 0 ∨ p < offset s + length_ s).
Definition covered (l : list Segment) (p : Z) : Prop := ∃ s, s ∈ l ∧ seg_covers s p.

(** Ranges a file can have. *)
Definition seg_ok (s : Segment) : Prop :=
  0 ≤ offset s ∧ 0 ≤ length_ s ∧ offset s + length_ s ≤ int64_max.

(** Disjoint, not even adjacent, and only the last one unbounded. *)
Fixpoint separated (l : list Segment) : Prop :=
  match l with
  | a :: ((b :: _) as rest) => length_ a ≠ 0 ∧ offset a + length_ a < offset b ∧ separated rest
  | _ => True
  end.

Lemma seg_end_ok s : seg_ok s → seg_end s = offset s + length_ s.
Proof. intros (H1 & H2 & H3). unfold seg_end. apply wrap_s_64_id. unfold_ints. lia. Qed.

Lemma covered_cons s l p : covered (s :: l) p ↔ seg_covers s p ∨ covered l p.
Proof. unfold covered. setoid_rewrite elem_of_cons. naive_solver. Qed.
Lemma covered_nil p : ¬ covered [] p.
Proof. by intros (s & ?%elem_of_nil & _). Qed.

Lemma unite_loop_head back l : ∃ len rest, unite_loop back l = {| offset := offset back; length_ := len |} :: rest.
Proof.
  revert back. induction l as [|x l IH]; intros [o len]; simpl; [by eauto|].
  case_match; [by eauto|]. case_match; [|by eauto]. apply (IH {| offset := o; length_ := _ |}).
Qed.

(** Joining two segments that touch. *)
Definition join (a b : Segment) : Segment :=
  {| offset := offset a;
     length_ := if length_ b =? 0 then 0 else wrap_s 64 (Z.max (seg_end a) (seg_end b) - offset a) |}.

Lemma join_ok a b :
  seg_ok a → seg_ok b → length_ a ≠ 0 → offset a ≤ offset b → offset b ≤ offset a + length_ a →
  seg_ok (join a b) ∧ ∀ p, seg_covers (join a b) p ↔ seg_covers a p ∨ seg_covers b p.
Proof.
  intros Ha Hb Hn Hle Ht. unfold join. rewrite !seg_end_ok by done.
  destruct Ha as (A1 & A2 & A3), Hb as (B1 & B2 & B3).
  destruct (length_ b =? 0) eqn:E; [apply Z.eqb_eq in E|apply Z.eqb_neq in E].
  - split; [unfold seg_ok; simpl; lia|]. intros p. unfold seg_covers. simpl. lia.
  - rewrite wrap_s_64_id by (unfold_ints; lia). split; [unfold seg_ok; simpl; lia|].
    intros p. unfold seg_covers. simpl. lia.
Qed.

Lemma unite_loop_spec back l :
  seg_ok back → Forall seg_ok l → Forall (λ s, offset back ≤ offset s) l → StronglySorted offset_le l →
  separated (unite_loop back l) ∧ ∀ p, covered (unite_loop back l) p ↔ seg_covers back p ∨ covered l p.
Proof.
  revert back. induction l as [|x l IH]; intros back Hb Hl Hle Hs.
  { simpl. split; [done|]. intros p. rewrite covered_cons. done. }
  apply Forall_cons in Hl as [Hx Hl]. apply Forall_cons in Hle as [Hbx Hle].
  apply SSorted_cons in Hs as [Hxl Hs].
  assert (Forall (λ s, offset x ≤ offset s) l) as Hxl' by (apply Forall_forall; exact Hxl).
  cbn [unite_loop]. destruct (length_ back =? 0) eqn:E0; [apply Z.eqb_eq in E0|apply Z.eqb_neq in E0].
  - split; [done|]. intros p. rewrite covered_cons. split; [by intros [?|?%covered_nil]; [left|]|].
    intros [?|(s & Hs' & H1 & _)]; [by left|]. left. split; [|by left].
    assert (offset back ≤ offset s) as Hbs; [|lia]. apply elem_of_cons in Hs' as [->|Hs']; [done|].
    rewrite Forall_forall in Hle. by apply Hle.
  - rewrite seg_end_ok by done.
    destruct (offset x <=? offset back + length_ back) eqn:E1; [apply Z.leb_le in E1|apply Z.leb_gt in E1].
    + destruct (join_ok back x) as [Hj Hc]; [done..|]. unfold join in Hj, Hc. rewrite (seg_end_ok back) in Hj, Hc by done.
      destruct (IH _ Hj Hl Hle Hs) as [Hsep Hcov]. split; [exact Hsep|].
      intros p. rewrite Hcov, covered_cons, Hc. tauto.
    + destruct (IH x Hx Hl Hxl' Hs) as [Hsep Hcov]. split.
      * destruct (unite_loop_head x l) as (len & rest & E). rewrite E in Hsep |- *. simpl. done.
      * intros p. by rewrite !covered_cons, Hcov.
Qed.

Lemma ValidateSegments_sorted l : ValidateSegments l = true ↔ StronglySorted offset_le l.
Proof.
  induction l as [|a l IH]; [split; [constructor|done]|]. destruct l as [|b l].
  { split; [repeat constructor|done]. }
  cbn [ValidateSegments]. rewrite SSorted_cons. destruct (offset b <? offset a) eqn:E.
  - split; [done|]. intros [H _]. specialize (H b ltac:(by left)). unfold offset_le in H. lia.
  - rewrite IH. split; [|tauto]. intros H. split; [|done]. apply SSorted_cons in H as [Hb _].
    intros y [->|Hy]%elem_of_cons; unfold offset_le in *; [lia|]. specialize (Hb y Hy). lia.
Qed.

Lemma UniteSegments_spec (l : list Segment) (Hok : Forall seg_ok l) :
  (is_ok (UniteSegments l) = true ↔ StronglySorted offset_le l) ∧
  ∀ r, UniteSegments l = Ok r → separated r ∧ ∀ p, covered r p ↔ covered l p.
Proof.
  unfold UniteSegments. rewrite <- ValidateSegments_sorted. destruct (ValidateSegments l) eqn:Ev; simpl; [|done].
  split; [done|]. intros r [= <-]. destruct l as [|s l]; [done|].
  apply ValidateSegments_sorted in Ev. apply SSorted_cons in Ev as [Hs Hl].
  apply Forall_cons in Hok as [Hok Hokl].
  destruct (unite_loop_spec s l) as [Hsep Hcov]; [done|done|by apply Forall_forall|done|].
  split; [done|]. intros p. by rewrite Hcov, covered_cons.
Qed.

(** Uniting segments fails exactly on unsorted input, and otherwise returns
    disjoint, non-adjacent segments in increasing order, only the last one
    unbounded, that cover the same bytes of the file. *)
Theorem unite_segments_exact (l : list Segment) (Hok : Forall seg_ok l) :
  (is_ok (UniteSegments l) = true ↔ StronglySorted offset_le l) ∧
  ∀ r, UniteSegments l = Ok r → separated r ∧ ∀ p, covered r p ↔ covered l p.
Proof. by apply UniteSegments_spec. Qed.

Lemma SortParts_perm l : SortParts l ≡ₚ l.
Proof. apply merge_sort_Permutation. Qed.
Lemma SortParts_sorted l : StronglySorted offset_le (SortParts l).
Proof.
  assert (Total offset_le) by (intros a b; unfold offset_le; lia).
  assert (Transitive offset_le) by (intros a b c; unfold offset_le; lia).
  apply StronglySorted_merge_sort; apply _.
Qed.

(** Adding two entries of one file never fails and gives the union of
    their byte ranges; [+] forgets the deletion vector that [+=] keeps. *)
Theorem data_entry_plus_union (a b : DataEntry)
    (Hpath : de_path a = de_path b) (Hok : Forall seg_ok (parts a ++ parts b)) :
  ∃ united, separated united ∧ (∀ p, covered united p ↔ covered (parts a) p ∨ covered (parts b) p) ∧
    DataEntry_plus a b = Ok {| de_path := de_path a; parts := united; dv := None |} ∧
    DataEntry_plus_assign a b = Ok {| de_path := de_path a; parts := united; dv := dv a |}.
Proof.
  destruct (UniteSegments_spec (SortParts (parts a ++ parts b))) as [Hiff Hr].
  { by rewrite SortParts_perm. }
  destruct (UniteSegments (SortParts (parts a ++ parts b))) as [r|] eqn:E.
  2: { pose proof (proj2 Hiff (SortParts_sorted _)). done. }
  destruct (Hr r eq_refl) as [Hsep Hcov]. exists r. split; [done|]. split.
  - intros p. rewrite Hcov. unfold covered. setoid_rewrite (SortParts_perm (parts a ++ parts b)).
    setoid_rewrite elem_of_app. naive_solver.
  - unfold DataEntry_plus, DataEntry_plus_assign. rewrite bool_decide_true by done. simpl. by rewrite E.
Qed.

Definition seg (o len : Z) : Segment := {| offset := o; length_ := len |}.

Lemma unite_segments_exact_witness :
  UniteSegments [seg 4 10; seg 10 8; seg 30 5] = Ok [seg 4 14; seg 30 5] ∧
  separated [seg 4 14; seg 30 5].
Proof.
  split; [reflexivity|]. eapply (proj2 (unite_segments_exact [seg 4 10; seg 10 8; seg 30 5] _)); reflexivity.
  Unshelve. repeat (apply Forall_cons; split; [unfold seg_ok; simpl; unfold_ints; lia|]). constructor.
Defined.

Lemma data_entry_plus_union_witness :
  ∃ united, DataEntry_plus {| de_path := "a"; parts := [seg 4 10]; dv := None |}
                           {| de_path := "a"; parts := [seg 14 0]; dv := None |}
            = Ok {| de_path := "a"; parts := united; dv := None |} ∧ separated united.
Proof.
  destruct (data_entry_plus_union {| de_path := "a"; parts := [seg 4 10]; dv := None |}
    {| de_path := "a"; parts := [seg 14 0]; dv := None |}) as (u & Hs & _ & Hp & _).
  - reflexivity.
  - simpl. repeat (apply Forall_cons; split; [unfold seg_ok; simpl; unfold_ints; lia|]). constructor.
  - exists u. split; [exact Hp|exact Hs].
Defined.

(** The comparison of plans ignores deletes listed in the layer of the
    data file: two plans are equal for [AreScanMetadataEqual] although only one
    of them applies a positional delete file to the data file. *)
Theorem representation_ignores_same_layer_deletes :
  let x := {| de_path := "a"; parts := [seg 4 0]; dv := None |} in
  let layer ds := {| l_data_entries_ := [x]; l_positional_delete_entries_ := ds;
                     l_equality_delete_entries_ := [] |} in
  let plan ds := {| schema := {| schema_id_ := 0; fields_ := [] |}; partitions := [[layer ds]] |} in
  let d := {| pd_path := "p" |} in
  AreScanMetadataEqual (plan [d]) (plan []) = Ok true ∧
  plan_applies [layer [d]] x d ∧ ¬ plan_applies [layer []] x d.
Proof.
  cbv zeta. split; [vm_compute; reflexivity|]. split.
  - exists 0%nat, 0%nat. eexists _, _. split; [reflexivity|]. split; [reflexivity|].
    split; [lia|]. split; by left.
  - intros (i & j & li & lj & _ & Hj & _ & _ & Hd).
    apply list_lookup_singleton_Some in Hj as [_ <-]. by apply elem_of_nil in Hd.
Qed.
