(* ===== verification/SelectionVector.v ===== *)
(** * SelectionVector: the row numbers of a batch that are still selected

    [SelectionVector<int32_t>] of [iceberg/common/selection_vector.h].  The
    vector [indices_] is a list updated by position: the two compaction loops
    write into the prefix they have already read and then shrink the vector.
    An iterator range is the list of the values between the iterators. *)

From stdpp Require Import base list sorting.
From Stdlib Require Import ZArith Lia.
From S2P Require Import Prelude.

Local Open Scope Z_scope.

(** ** Operations *)

(** [Set]: [resize] and [std::iota]. *)
Definition Set_ (size : nat) : list Z := Z.of_nat <$> seq 0 size.

(** [while (current_iter != end && *current_iter < row_to_check) ++current_iter]. *)
Fixpoint advance (current_iter : list Z) (row_to_check : Z) : list Z :=
  match current_iter with
  | [] => []
  | x :: rest => if x <? row_to_check then advance rest row_to_check else current_iter
  end.

(** The loop of [KeepIfEqual] from [index_to_check] on, [n] indices being left;
    it returns the final [result_index] and the vector before [resize]. *)
Fixpoint keep_loop (n index_to_check result_index : nat) (current_iter indices : list Z) :
    nat * list Z :=
  match n, indices !! index_to_check with
  | S n, Some row_to_check =>
      match advance current_iter row_to_check with
      | [] => (result_index, indices)
      | (x :: _) as current_iter =>
          if x =? row_to_check
          then keep_loop n (S index_to_check) (S result_index) current_iter
                         (<[result_index := row_to_check]> indices)
          else keep_loop n (S index_to_check) result_index current_iter indices
      end
  | _, _ => (result_index, indices)
  end.

(** The inner loop of [DeleteIfEqual]: the rest of the vector is kept. *)
Fixpoint copy_loop (n i result_index : nat) (indices : list Z) : nat * list Z :=
  match n, indices !! i with
  | S n, Some row => copy_loop n (S i) (S result_index) (<[result_index := row]> indices)
  | _, _ => (result_index, indices)
  end.

Fixpoint delete_loop (n index_to_check result_index : nat) (current_iter indices : list Z) :
    nat * list Z :=
  match n, indices !! index_to_check with
  | S n', Some row_to_check =>
      match advance current_iter row_to_check with
      | [] => copy_loop n index_to_check result_index indices
      | (x :: _) as current_iter =>
          if negb (x =? row_to_check)
          then delete_loop n' (S index_to_check) (S result_index) current_iter
                           (<[result_index := row_to_check]> indices)
          else delete_loop n' (S index_to_check) result_index current_iter indices
      end
  | _, _ => (result_index, indices)
  end.

(** Both return the number of removed rows and the shrunk vector. *)
Definition KeepIfEqual (values indices : list Z) : nat * list Z :=
  let '(result_index, indices') := keep_loop (length indices) 0 0 values indices in
  ((length indices - result_index)%nat, take result_index indices').

Definition DeleteIfEqual (values indices : list Z) : nat * list Z :=
  let '(result_index, indices') := delete_loop (length indices) 0 0 values indices in
  ((length indices - result_index)%nat, take result_index indices').

Definition EraseIf (pred : Z → bool) (indices : list Z) : nat * list Z :=
  let kept := List.filter (λ i, negb (pred i)) indices in
  ((length indices - length kept)%nat, kept).

(** ** The loops are filters *)

Definition mem (values : list Z) (row : Z) : bool := bool_decide (row ∈ values).

Lemma advance_mem values row x : row ≤ x → mem (advance values row) x = mem values x.
Proof.
  intros Hx. unfold mem. apply bool_decide_ext. induction values as [|v values IH]; simpl; [done|].
  case_match eqn:E; [|done]. rewrite IH, elem_of_cons. apply Z.ltb_lt in E.
  split; [by right|intros [->|?]; [lia|done]].
Qed.

Lemma advance_sorted values row :
  StronglySorted Z.le values → StronglySorted Z.le (advance values row).
Proof.
  induction values as [|v values IH]; simpl; [done|]. rewrite SSorted_cons. intros [Hv Hs].
  case_match; [by apply IH|]. by apply SSorted_cons.
Qed.

Lemma advance_head values row x rest : advance values row = x :: rest → row ≤ x.
Proof.
  induction values as [|v values IH]; simpl; [done|]. case_match eqn:E; [done|].
  intros [= -> ->]. apply Z.ltb_ge in E. lia.
Qed.

Lemma mem_sorted_head row x rest :
  row ≤ x → StronglySorted Z.le (x :: rest) → mem (x :: rest) row = (x =? row).
Proof.
  intros Hx [Hall _]%SSorted_cons. unfold mem. destruct (Z.eqb_spec x row) as [->|Hne].
  - apply bool_decide_eq_true. by left.
  - apply bool_decide_eq_false. intros [->|Hin]%elem_of_cons; [done|]. specialize (Hall _ Hin). lia.
Qed.

Lemma filter_ext_sorted (p q : Z → bool) row l :
  (∀ x, row ≤ x → p x = q x) → StronglySorted Z.le (row :: l) → List.filter p l = List.filter q l.
Proof.
  intros Hpq [Hall _]%SSorted_cons. apply List.filter_ext_in. intros x Hx%list_elem_of_In.
  by apply Hpq, Hall.
Qed.

(** A write below the read position: the prefix grows, the rest is unread. *)
Lemma take_write (l : list Z) r row : (r < length l)%nat → take (S r) (<[r := row]> l) = take r l ++ [row].
Proof.
  intros Hr. rewrite (take_S_r _ _ row) by by apply list_lookup_insert_eq.
  by rewrite take_insert_ge.
Qed.

Lemma drop_write (l : list Z) r i row : (r < i)%nat → drop i (<[r := row]> l) = drop i l.
Proof. intros Hr. by apply drop_insert_lt. Qed.

Lemma copy_loop_spec n : ∀ i r l,
  (r ≤ i)%nat → (i + n = length l)%nat →
  let '(r', l') := copy_loop n i r l in
  take r' l' = take r l ++ drop i l ∧ r' = (r + n)%nat.
Proof.
  induction n as [|n IH]; intros i r l Hr Hn; simpl.
  { rewrite drop_ge by lia. by rewrite app_nil_r, Nat.add_0_r. }
  destruct (l !! i) as [row|] eqn:Hi; [|apply lookup_ge_None in Hi; lia].
  specialize (IH (S i) (S r) (<[r := row]> l) ltac:(lia) ltac:(rewrite length_insert; lia)).
  destruct (copy_loop _ _ _ _) as [r' l']. destruct IH as [-> ->].
  rewrite take_write, drop_write by lia. rewrite (drop_S _ _ _ Hi), <- app_assoc. split; [done|lia].
Qed.

(** What a compaction loop has to do from position [i] on. *)
Definition compacts (p : Z → bool) (i r : nat) (l : list Z) (out : nat * list Z) : Prop :=
  take out.1 out.2 = take r l ++ List.filter p (drop i l) ∧
  out.1 = (r + length (List.filter p (drop i l)))%nat.

Lemma compacts_done p i r l : (length l ≤ i)%nat → compacts p i r l (r, l).
Proof. intros Hi. unfold compacts. rewrite drop_ge by done. simpl. by rewrite app_nil_r, Nat.add_0_r. Qed.

Lemma compacts_keep p q i r l row out :
  (r ≤ i)%nat → l !! i = Some row → p row = true →
  List.filter q (drop (S i) l) = List.filter p (drop (S i) l) →
  compacts q (S i) (S r) (<[r := row]> l) out → compacts p i r l out.
Proof.
  intros Hr Hi Hp Hq [H1 H2]. pose proof (lookup_lt_Some _ _ _ Hi).
  unfold compacts. rewrite H1, H2, drop_write, take_write, Hq, (drop_S _ _ _ Hi) by lia.
  simpl. rewrite Hp, <- app_assoc. simpl. split; [done|lia].
Qed.

Lemma compacts_drop p q i r l row out :
  l !! i = Some row → p row = false →
  List.filter q (drop (S i) l) = List.filter p (drop (S i) l) →
  compacts q (S i) r l out → compacts p i r l out.
Proof.
  intros Hi Hp Hq [H1 H2]. unfold compacts. rewrite H1, H2, Hq, (drop_S _ _ _ Hi). simpl. by rewrite Hp.
Qed.

Lemma sorted_drop i (l : list Z) : StronglySorted Z.le l → StronglySorted Z.le (drop i l).
Proof.
  revert i. induction l as [|x l IH]; intros [|i] Hs; simpl; try done.
  apply IH. by apply SSorted_cons in Hs as [_ ?].
Qed.

Lemma delete_loop_spec n : ∀ i r values l,
  (r ≤ i)%nat → (i + n = length l)%nat →
  StronglySorted Z.le (drop i l) → StronglySorted Z.le values →
  compacts (λ x, negb (mem values x)) i r l (delete_loop n i r values l).
Proof.
  induction n as [|n IH]; intros i r values l Hr Hn Hl Hv.
  { apply compacts_done. lia. }
  cbn [delete_loop]. destruct (l !! i) as [row|] eqn:Hi; [|apply lookup_ge_None in Hi; lia].
  pose proof Hl as Hl'. rewrite (drop_S _ _ _ Hi) in Hl'.
  assert (∀ x, row ≤ x → negb (mem (advance values row) x) = negb (mem values x)) as Hext
    by (intros; by rewrite advance_mem).
  destruct (advance values row) as [|x rest] eqn:Ea.
  - pose proof (copy_loop_spec (S n) i r l Hr Hn) as Hc. cbn [copy_loop] in Hc |- *. rewrite Hi in Hc |- *.
    destruct (copy_loop _ _ _ _) as [r' l']. destruct Hc as [Ht ->]. unfold compacts.
    assert (List.filter (λ x, negb (mem values x)) (drop i l) = drop i l) as ->.
    { rewrite (drop_S _ _ _ Hi). simpl. rewrite <- Hext by lia. simpl. f_equal.
      rewrite <- (filter_ext_sorted _ _ row _ Hext Hl'). apply List.forallb_filter_id.
      by apply forallb_forall. }
    split; [done|]. simpl. rewrite length_drop. lia.
  - assert (StronglySorted Z.le (x :: rest)) as Hs by (rewrite <- Ea; by apply advance_sorted).
    pose proof (mem_sorted_head row x rest (advance_head _ _ _ _ Ea) Hs) as Hm.
    pose proof (Hext row ltac:(lia)) as Hrow. rewrite Hm in Hrow.
    pose proof (filter_ext_sorted _ _ row _ Hext Hl') as Hf.
    apply SSorted_cons in Hl' as [_ Hl'].
    destruct (Z.eqb_spec x row) as [->|Hne]; simpl in Hrow |- *.
    + eapply compacts_drop; [done|done|done|]. by apply IH; [lia|lia| |].
    + eapply compacts_keep; [done|done|done|done|]. apply IH; [lia|rewrite length_insert; lia| |done].
      by rewrite drop_write by lia.
Qed.

Lemma keep_loop_spec n : ∀ i r values l,
  (r ≤ i)%nat → (i + n = length l)%nat →
  StronglySorted Z.le (drop i l) → StronglySorted Z.le values →
  compacts (mem values) i r l (keep_loop n i r values l).
Proof.
  induction n as [|n IH]; intros i r values l Hr Hn Hl Hv.
  { apply compacts_done. lia. }
  cbn [keep_loop]. destruct (l !! i) as [row|] eqn:Hi; [|apply lookup_ge_None in Hi; lia].
  pose proof Hl as Hl'. rewrite (drop_S _ _ _ Hi) in Hl'.
  pose proof (λ x, advance_mem values row x) as Hext.
  destruct (advance values row) as [|x rest] eqn:Ea.
  - unfold compacts. assert (List.filter (mem values) (drop i l) = []) as ->.
    { rewrite (drop_S _ _ _ Hi). simpl. rewrite <- Hext by lia. simpl.
      rewrite <- (filter_ext_sorted _ _ row _ Hext Hl').
      clear. by induction (drop (S i) l). }
    simpl. by rewrite app_nil_r, Nat.add_0_r.
  - assert (StronglySorted Z.le (x :: rest)) as Hs by (rewrite <- Ea; by apply advance_sorted).
    pose proof (mem_sorted_head row x rest (advance_head _ _ _ _ Ea) Hs) as Hm.
    pose proof (Hext row ltac:(lia)) as Hrow. rewrite Hm in Hrow.
    pose proof (filter_ext_sorted _ _ row _ Hext Hl') as Hf.
    apply SSorted_cons in Hl' as [_ Hl'].
    destruct (Z.eqb_spec x row) as [->|Hne].
    + eapply compacts_keep; [done|done|done|done|]. apply IH; [lia|rewrite length_insert; lia| |done].
      by rewrite drop_write by lia.
    + eapply compacts_drop; [done|done|done|]. by apply IH; [lia|lia| |].
Qed.
Lemma DeleteIfEqual_filter values indices :
  StronglySorted Z.le indices → StronglySorted Z.le values →
  DeleteIfEqual values indices =
    (count (mem values) indices, List.filter (λ x, negb (mem values x)) indices).
Proof.
  intros Hi Hv. unfold DeleteIfEqual.
  pose proof (delete_loop_spec (length indices) 0 0 values indices (le_n _) eq_refl Hi Hv) as [Ht Hr].
  destruct (delete_loop _ _ _ _ _) as [r l]. simpl in *. rewrite Ht, Hr, drop_0. f_equal.
  unfold count. pose proof (List.filter_length (mem values) indices). lia.
Qed.

(** On a selection in row order, [DeleteIfEqual] removes exactly the rows
    that occur in the given ascending positions, keeps the order of the others
    and returns how many it removed; [KeepIfEqual] keeps exactly those rows. *)
Theorem selection_vector_exact (values indices : list Z) :
  StronglySorted Z.le indices → StronglySorted Z.le values →
  DeleteIfEqual values indices =
    (count (mem values) indices, List.filter (λ x, negb (mem values x)) indices) ∧
  KeepIfEqual values indices =
    (count (λ x, negb (mem values x)) indices, List.filter (mem values) indices).
Proof.
  intros Hi Hv. split; [by apply DeleteIfEqual_filter|]. unfold KeepIfEqual.
  pose proof (keep_loop_spec (length indices) 0 0 values indices (le_n _) eq_refl Hi Hv) as [Ht Hr].
  destruct (keep_loop _ _ _ _ _) as [r l]. simpl in *. rewrite Ht, Hr, drop_0. f_equal.
  unfold count. pose proof (List.filter_length (mem values) indices). lia.
Qed.

Lemma selection_vector_exact_witness :
  DeleteIfEqual [1; 3; 9] (Set_ 5) = (2%nat, [0; 2; 4]) ∧ KeepIfEqual [1; 3; 9] (Set_ 5) = (3%nat, [1; 3]).
Proof.
  apply (selection_vector_exact [1; 3; 9] (Set_ 5)); repeat constructor; vm_compute; discriminate.
Defined.

Lemma Set_sorted n : StronglySorted Z.le (Set_ n).
Proof.
  unfold Set_. generalize 0%nat. induction n as [|n IH]; intros s; simpl; constructor; [done|].
  apply Forall_forall. intros x (y & -> & Hy%elem_of_seq)%list_elem_of_fmap. lia.
Qed.

Lemma filter_sorted (p : Z → bool) l : StronglySorted Z.le l → StronglySorted Z.le (List.filter p l).
Proof.
  induction l as [|x l IH]; simpl; [done|]. rewrite SSorted_cons. intros [Hx Hs].
  destruct (p x); [|by apply IH]. apply SSorted_cons. split; [|by apply IH].
  intros y Hy. apply Hx. rewrite list_elem_of_In, filter_In in Hy. rewrite list_elem_of_In. tauto.
Qed.
