(* ===== verification/PositionalDelete.v ===== *)
(** * PositionalDelete: merging position delete files

    [PositionalDeleteStream] of [iceberg/positional_delete/positional_delete.cpp]:
    the readers of the delete files, the row-group filter on Parquet statistics
    and [GetDeleted], which merges the readers through a priority queue and
    answers a sequence of ascending range queries.

    A Parquet file is what its reader delivers: the row groups, each with its
    column statistics and the values of the two columns it reads (a value is
    missing where the column holds a null).  The column readers of a row group
    are created on the first [Next]; they start at the beginning of the group,
    so the unread values are initialised when the group is entered. *)

From stdpp Require Import base list sorting strings sets.
From Stdlib Require Import ZArith Lia.
From S2P Require Import Prelude OrderedMap Parquet.

Local Open Scope Z_scope.

(** ** Delete files *)

Record RowGroupMetaData := {
  path_stats_set : bool;                       (** column chunk 0, [is_stats_set] *)
  pos_stats_set : bool;                        (** column chunk 1 *)
  path_min_max : option (string * string);     (** [HasMinMax], [min], [max] *)
  pos_min_max : option (Z * Z);
}.

Record RowGroup := {
  metadata : RowGroupMetaData;
  path_column : list (option string);
  pos_column : list (option Z);
}.

Definition DeleteFile := list RowGroup.

Record ParquetFile := {
  column_types : list PhysicalType;
  row_groups : DeleteFile;
}.

(** The checks of the constructor of [Reader]. *)
Definition check_columns (f : ParquetFile) : result DeleteFile :=
  match column_types f with
  | c0 :: c1 :: rest =>
      if negb (bool_decide (length rest ≤ 1)%nat)
      then Err (StatusError "Unexpected number of columns in delete files")
      else if negb (bool_decide (c0 = BYTE_ARRAY)) then Err (StatusError "Unexpected column 0 type")
      else if negb (bool_decide (c1 = INT64)) then Err (StatusError "Unexpected column 1 type")
      else Ok (row_groups f)
  | _ => Err (StatusError "Unexpected number of columns in delete files")
  end.

(** ** Reader *)

Record Reader := {
  current_group : option RowGroup;      (** [None] before the first and after the last group *)
  unread_paths : list (option string);
  unread_pos : list (option Z);
  next_groups : list RowGroup;
  current_file_path : option string;
  current_pos : option Z;
  layer : Z;
}.

(** The reader before any group, as the constructor leaves it. *)
Definition make_Reader (file : DeleteFile) (l : Z) : Reader :=
  {| current_group := None; unread_paths := []; unread_pos := []; next_groups := file;
     current_file_path := None; current_pos := None; layer := l |}.

Definition NextRowGroup (r : Reader) : bool * Reader :=
  match next_groups r with
  | [] => (false, {| current_group := None; unread_paths := []; unread_pos := []; next_groups := [];
                     current_file_path := current_file_path r; current_pos := current_pos r; layer := layer r |})
  | g :: gs => (true, {| current_group := Some g; unread_paths := path_column g; unread_pos := pos_column g;
                         next_groups := gs; current_file_path := None; current_pos := None; layer := layer r |})
  end.

(** [Equals] compares the new path with [current_file_path_value_], which only
    [NextRowGroup] assigns, and to the empty array: an empty path is taken for
    the path read before it. *)
Definition new_file_path (r : Reader) (file_path_value : string) : option string :=
  if bool_decide (file_path_value = "") then current_file_path r else Some file_path_value.

Definition Next (r : Reader) : result (bool * Reader) :=
  match unread_paths r with
  | [] => Ok (NextRowGroup r)
  | Some p :: paths =>
      match unread_pos r with
      | Some pos :: poss =>
          Ok (true, {| current_group := current_group r; unread_paths := paths; unread_pos := poss;
                       next_groups := next_groups r; current_file_path := new_file_path r p;
                       current_pos := Some pos; layer := layer r |})
      | _ => Err (StatusError "Delete file: unexpected number of rows read")
      end
  | None :: _ => Err (StatusError "Delete file: unexpected number of rows read")
  end.

(** ** ReaderHolder *)

Definition IsStarted (r : Reader) : bool :=
  match current_pos r with Some _ => true | None => false end.

(** [std::pair<std::optional<std::string>, std::optional<int64_t>>]. *)
Definition Position : Type := option string * option Z.

Definition stats_position (m : RowGroupMetaData) : Position :=
  if negb (path_stats_set m) || negb (pos_stats_set m) then (None, None)
  else match path_min_max m with
       | None => (None, None)
       | Some (min_path, _) => (Some min_path, fst <$> pos_min_max m)
       end.

Definition GetPosition (r : Reader) : Position :=
  if IsStarted r then (current_file_path r, current_pos r)
  else match current_group r with
       | Some g => stats_position (metadata g)
       | None => (None, None)
       end.

(** [ReaderHolderGreater]. *)
Definition ReaderHolderGreater (lhs rhs : Reader) : bool := kltb (GetPosition rhs) (GetPosition lhs).

(** ** RowGroupFilter *)

Record Query := { url : string; begin : Z; end_ : Z }.

Inductive FilterResult := kLess | kInter | kGreater.

Definition State (m : RowGroupMetaData) (query : Query) : FilterResult :=
  if negb (path_stats_set m) || negb (pos_stats_set m) then kInter
  else match path_min_max m with
       | None => kInter
       | Some (min_value, max_value) =>
           if kltb max_value (url query) then kLess
           else if kltb (url query) min_value then kGreater
           else if negb (bool_decide (min_value = max_value)) then kInter
           else match pos_min_max m with
                | None => kInter
                | Some (min_pos, max_pos) =>
                    if max_pos <? begin query then kLess
                    else if end_ query <=? min_pos then kGreater
                    else kInter
                end
       end.

(** ** The stream *)

(** [std::priority_queue] ordered by [ReaderHolderGreater]: [top] and [pop] take
    out a reader that is greater than no other; which one of several is not
    specified.  The queue is the list of its elements in any order. *)
Class ReaderQueue := {
  top_pop : list Reader → option (Reader * list Reader);
  top_pop_empty : ∀ q, top_pop q = None ↔ q = [];
  top_pop_perm : ∀ q r q', top_pop q = Some (r, q') → q ≡ₚ r :: q';
  top_pop_least : ∀ q r q' x, top_pop q = Some (r, q') → x ∈ q' → ReaderHolderGreater r x = false;
}.

Record PositionalDeleteStream := {
  queue_ : list Reader;
  last_query_ : option Query;
}.

Definition EnqueueIf (cond : bool) (r : Reader) (q : list Reader) : list Reader :=
  if cond then r :: q else q.

(** The constructor over [urls], the delete files of each layer opened. *)
Definition open_reader (lf : Z * DeleteFile) : list Reader :=
  let '(more, r) := NextRowGroup (make_Reader lf.2 lf.1) in EnqueueIf more r [].

Definition make_PositionalDeleteStream (files : list (Z * DeleteFile)) : PositionalDeleteStream :=
  {| queue_ := flat_map open_reader files; last_query_ := None |}.

Section stream.
Context `{ReaderQueue}.

(** [rows.push_back] unless the position was pushed last or belongs to an
    older layer. *)
Definition push_row (data_layer : Z) (r : Reader) (pos : Z) (rows : list Z) : list Z :=
  if negb (bool_decide (last rows = Some pos)) && (data_layer <=? layer r) then rows ++ [pos] else rows.

(** The merge loop; [None] when the fuel runs out. *)
Fixpoint merge_loop (query : Query) (data_layer : Z) (fuel : nat) (q : list Reader) (rows : list Z) :
    option (result (list Z * list Reader)) :=
  match fuel with
  | O => None
  | S fuel =>
      match top_pop q with
      | None => Some (Ok (rows, q))
      | Some (r, q) =>
          let advance_with rows :=
            match Next r with
            | Err e => Some (Err e)
            | Ok (more, r') => merge_loop query data_layer fuel (EnqueueIf more r' q) rows
            end in
          match current_pos r with
          | None =>
              match current_group r with
              | None => Some (Err (Exn "no row group"))
              | Some g =>
                  match State (metadata g) query with
                  | kLess => let '(more, r') := NextRowGroup r in
                             merge_loop query data_layer fuel (EnqueueIf more r' q) rows
                  | kGreater => Some (Ok (rows, r :: q))
                  | kInter => advance_with rows
                  end
              end
          | Some pos =>
              match current_file_path r with
              | None => Some (Err (Exn "dereference of an empty optional"))
              | Some path =>
                  match kcmp (url query) path with
                  | Lt => Some (Ok (rows, r :: q))
                  | Eq =>
                      if begin query <=? pos then
                        if pos <? end_ query then advance_with (push_row data_layer r pos rows)
                        else Some (Ok (rows, r :: q))
                      else advance_with rows
                  | Gt => advance_with rows
                  end
              end
          end
      end
  end.

(** Queries must be disjoint and ascending. *)
Definition follows (last : option Query) (u : string) (b : Z) : bool :=
  match last with
  | Some l => negb (kltb (u, b) (url l, end_ l))
  | None => true
  end.

Definition GetDeleted (fuel : nat) (s : PositionalDeleteStream) (u : string) (b e data_layer : Z) :
    option (result (list Z * PositionalDeleteStream)) :=
  if follows (last_query_ s) u b then
    let query := {| url := u; begin := b; end_ := e |} in
    match merge_loop query data_layer fuel (queue_ s) [] with
    | None => None
    | Some (Err err) => Some (Err err)
    | Some (Ok (rows, q)) => Some (Ok (rows, {| queue_ := q; last_query_ := Some query |}))
    end
  else Some (Err (Exn "queries must be disjoint and in ascending order")).
End stream.

(** ** Well-formed delete files *)

Definition readable (p : option string) (q : option Z) : Prop :=
  ∃ s z, p = Some s ∧ q = Some z ∧ s ≠ "".

Fixpoint rows_of (paths : list (option string)) (poss : list (option Z)) : list (string * Z) :=
  match paths, poss with
  | Some p :: paths, Some z :: poss => (p, z) :: rows_of paths poss
  | _, _ => []
  end.

Definition group_rows (g : RowGroup) : list (string * Z) := rows_of (path_column g) (pos_column g).
Definition file_rows (f : DeleteFile) : list (string * Z) := flat_map group_rows f.

(** Both columns of a row group have a value in every row, no path is empty,
    and minima and maxima that are recorded bound the values of a non-empty
    group. *)
Record group_ok (g : RowGroup) : Prop := {
  gk_values : Forall2 readable (path_column g) (pos_column g);
  gk_nonempty : is_Some (path_min_max (metadata g)) → group_rows g ≠ [];
  gk_path : ∀ mn mx x, path_min_max (metadata g) = Some (mn, mx) → x ∈ group_rows g →
            kle mn x.1 ∧ kle x.1 mx;
  gk_pos : ∀ mn mx x, pos_min_max (metadata g) = Some (mn, mx) → x ∈ group_rows g →
           mn ≤ x.2 ≤ mx;
}.

(** A position delete file lists its rows by file path, then by position. *)
Record file_ok (f : DeleteFile) : Prop := {
  fk_groups : Forall group_ok f;
  fk_sorted : StronglySorted kle (file_rows f);
}.

(** ** What a reader still has to deliver *)

Definition current_row (r : Reader) : list (string * Z) :=
  match current_file_path r, current_pos r with
  | Some p, Some z => [(p, z)]
  | _, _ => []
  end.

Definition pending (r : Reader) : list (string * Z) :=
  current_row r ++ rows_of (unread_paths r) (unread_pos r) ++ file_rows (next_groups r).

Record reader_ok (r : Reader) : Prop := {
  rk_values : Forall2 readable (unread_paths r) (unread_pos r);
  rk_groups : Forall group_ok (next_groups r);
  rk_sorted : StronglySorted kle (pending r);
  rk_current :
    match current_pos r with
    | Some _ => is_Some (current_file_path r)
    | None => ∃ g, current_group r = Some g ∧ group_ok g ∧
                   unread_paths r = path_column g ∧ unread_pos r = pos_column g
    end;
}.

(** Iterations the reader can still cause. *)
Definition work (r : Reader) : nat :=
  S (length (unread_paths r) + sum_list_with (λ g, S (length (path_column g))) (next_groups r)).

(** [r] gave up the rows [dropped]; unless it is exhausted, [r'] has the rest. *)
Record advanced (r : Reader) (dropped : list (string * Z)) (more : bool) (r' : Reader) : Prop := {
  av_layer : layer r' = layer r;
  av_work : ((if more then work r' else 0) < work r)%nat;
  av_ok : more = true → reader_ok r';
  av_pending : pending r = dropped ++ (if more then pending r' else []);
}.

Lemma NextRowGroup_advanced r :
  Forall group_ok (next_groups r) → StronglySorted kle (pending r) →
  advanced r (current_row r ++ rows_of (unread_paths r) (unread_pos r))
           (NextRowGroup r).1 (NextRowGroup r).2.
Proof.
  intros Hg Hs. unfold NextRowGroup. destruct (next_groups r) as [|g gs] eqn:E; simpl.
  - split; simpl; [done|unfold work; rewrite E; simpl; lia|done|].
    unfold pending. rewrite E. simpl. by rewrite !app_nil_r.
  - apply Forall_cons in Hg as [Hg Hgs]. assert (pending r =
      (current_row r ++ rows_of (unread_paths r) (unread_pos r)) ++ group_rows g ++ file_rows gs) as Hp
      by (unfold pending; rewrite E; simpl; by rewrite <- app_assoc).
    split; simpl; [done|unfold work; rewrite E; simpl; lia| |].
    + intros _. split; simpl; [apply Hg|done| |by eauto].
      rewrite Hp in Hs. by apply StronglySorted_app_1_r in Hs.
    + by rewrite Hp.
Qed.

Lemma Next_advanced r :
  reader_ok r → ∃ more r', Next r = Ok (more, r') ∧ advanced r (current_row r) more r'.
Proof.
  intros [Hv Hg Hs Hc]. unfold Next.
  destruct (unread_paths r) as [|p paths] eqn:Ep; inversion Hv as [|? z ? poss Hread Hv' Ep' Ez]; subst.
  - pose proof (NextRowGroup_advanced r Hg Hs) as Ha. rewrite Ep in Ha. simpl in Ha. rewrite app_nil_r in Ha.
    destruct (NextRowGroup r) as [more r']. by exists more, r'.
  - destruct Hread as (s & pos & -> & -> & Hne). eexists _, _. split; [done|].
    assert (new_file_path r s = Some s) as Hn by (unfold new_file_path; by rewrite bool_decide_false).
    assert (pending r = current_row r ++ (s, pos) :: rows_of paths poss ++ file_rows (next_groups r)) as Hp.
    { unfold pending. rewrite Ep, <- Ez. done. }
    split; simpl; [done|unfold work; simpl; rewrite Ep; simpl; lia| |].
    + intros _. split; simpl; [done|done| |by rewrite Hn].
      unfold pending, current_row at 1; simpl. rewrite Hn.
      rewrite Hp in Hs. by apply StronglySorted_app_1_r in Hs.
    + rewrite Hp. unfold pending, current_row at 2; simpl. by rewrite Hn.
Qed.

(** ** Positions are lower bounds *)

Definition lift (x : string * Z) : Position := (Some x.1, Some x.2).

Lemma lift_le x y : kle (lift x) (lift y) ↔ kle x y.
Proof. done. Qed.

Lemma pair_le {A B} `{KeyOrd A, KeyOrd B} (a a' : A) (b b' : B) :
  kle (a, b) (a', b') ↔ kcmp a a' = Lt ∨ (a = a' ∧ kle b b').
Proof.
  unfold kle at 1. simpl. rewrite <- (kcmp_eq a a'). unfold kle.
  destruct (kcmp a a'); intuition congruence.
Qed.

Lemma Z_kle (a b : Z) : kle a b ↔ a ≤ b.
Proof. unfold kle; simpl. by rewrite Z.compare_gt_iff, Z.nlt_ge. Qed.

Lemma stats_position_le g x :
  group_ok g → x ∈ group_rows g → kle (stats_position (metadata g)) (lift x).
Proof.
  intros [_ _ Hp Hz] Hx. unfold stats_position. case_match; [by destruct x|].
  destruct (path_min_max (metadata g)) as [[mn mx]|] eqn:E; [|by destruct x].
  destruct (Hp mn mx x eq_refl Hx) as [Hmn _]. apply pair_le.
  apply kle_cases in Hmn as [Hmn| ->]; [by left|right]. split; [done|].
  destruct (pos_min_max (metadata g)) as [[a b]|] eqn:Ez; [|done].
  change (kle a x.2). apply Z_kle. by apply (Hz a b x).
Qed.

Lemma stats_position_lower g later x :
  group_ok g → StronglySorted kle (group_rows g ++ later) → x ∈ group_rows g ++ later →
  kle (stats_position (metadata g)) (lift x).
Proof.
  intros Hg Hs [Hx|Hx]%elem_of_app; [by apply stats_position_le|].
  unfold stats_position at 1. case_match eqn:Eset; [by destruct x|].
  destruct (path_min_max (metadata g)) as [[mn mx]|] eqn:E; [|by destruct x].
  destruct (group_rows g) as [|y ys] eqn:Eg; [by destruct (gk_nonempty g Hg)|].
  pose proof (stats_position_le g y Hg ltac:(rewrite Eg; by left)) as Hy.
  unfold stats_position in Hy. rewrite Eset, E in Hy.
  trans (lift y); [done|]. apply lift_le. eapply StronglySorted_app_1_elem_of; [done|by left|done].
Qed.

Lemma position_le r x : reader_ok r → x ∈ pending r → kle (GetPosition r) (lift x).
Proof.
  intros [Hv Hg Hs Hc] Hx. unfold GetPosition, IsStarted. unfold pending, current_row in Hs, Hx.
  destruct (current_pos r) as [z|] eqn:Ez.
  - destruct Hc as [p Hp]. rewrite Hp in Hs, Hx |- *. simpl in Hs, Hx.
    apply elem_of_cons in Hx as [->|Hx]; [done|]. apply SSorted_cons in Hs as [Hle _].
    apply (lift_le (p, z)). by apply Hle.
  - destruct Hc as (g & Hgr & Hgo & Hpa & Hpo). rewrite Hgr, Hpa, Hpo in *.
    destruct (current_file_path r); by apply (stats_position_lower g (file_rows (next_groups r))).
Qed.

(** ** The merge loop *)

Definition pendings (q : list Reader) : list (Z * (string * Z)) :=
  flat_map (λ r, pair (layer r) <$> pending r) q.

Lemma elem_of_pendings q l x : (l, x) ∈ pendings q ↔ ∃ r, r ∈ q ∧ l = layer r ∧ x ∈ pending r.
Proof.
  unfold pendings. rewrite elem_of_flat_map. setoid_rewrite list_elem_of_fmap. naive_solver.
Qed.

Definition works (q : list Reader) : nat := sum_list_with work q.

(** The row [x] of a file of layer [l] lies before the end of the query, and
    was reported if the query asks for it. *)
Definition consumed (query : Query) (data_layer : Z) (rows : list Z) (l : Z) (x : string * Z) : Prop :=
  kcmp x (url query, end_ query) = Lt ∧
  (kle (url query, begin query) x → data_layer ≤ l → x.2 ∈ rows).

Definition asked (query : Query) (data_layer : Z) (P : list (Z * (string * Z))) (p : Z) : Prop :=
  begin query ≤ p < end_ query ∧ ∃ l, data_layer ≤ l ∧ (l, (url query, p)) ∈ P.

Record merge_inv (query : Query) (dl : Z) (P : list (Z * (string * Z))) (q : list Reader) (rows : list Z) :
    Prop := {
  mi_ok : Forall reader_ok q;
  mi_sub : ∀ l x, (l, x) ∈ pendings q → (l, x) ∈ P;
  mi_gone : ∀ l x, (l, x) ∈ P → (l, x) ∈ pendings q ∨ consumed query dl rows l x;
  mi_rows : ∀ p, p ∈ rows → asked query dl P p;
  mi_sorted : StronglySorted Z.lt rows;
  mi_le : ∀ p l x, p ∈ rows → (l, x) ∈ pendings q → kle (url query, p) x;
}.

Section merge.
Context `{ReaderQueue} (query : Query) (dl : Z) (P : list (Z * (string * Z))).
Notation inv := (merge_inv query dl P).

Lemma popped_ok q rows r q' :
  inv q rows → top_pop q = Some (r, q') → reader_ok r ∧ works q = (work r + works q')%nat.
Proof.
  intros Hi Hp%top_pop_perm. split.
  - apply mi_ok in Hi. rewrite Hp in Hi. by inversion Hi.
  - unfold works. by rewrite Hp.
Qed.

(** Every pending row is at or after the position of the reader on top. *)
Lemma top_le q rows r q' l x :
  inv q rows → top_pop q = Some (r, q') → (l, x) ∈ pendings q → kle (GetPosition r) (lift x).
Proof.
  intros Hi Hp (r' & Hr' & -> & Hx)%elem_of_pendings.
  pose proof (top_pop_perm _ _ _ Hp) as Hperm. pose proof (mi_ok _ _ _ _ _ Hi) as Hok.
  assert (reader_ok r') as Hok' by (rewrite Forall_forall in Hok; by apply Hok).
  rewrite Hperm in Hr'. apply elem_of_cons in Hr' as [->|Hr']; [by apply position_le|].
  pose proof (top_pop_least _ _ _ _ Hp Hr') as Hge. unfold ReaderHolderGreater in Hge.
  apply kltb_false in Hge. trans (GetPosition r'); [done|by apply position_le].
Qed.

(** The reader on top gives up rows that are consumed with the new result. *)
Lemma inv_step q rows r q' dropped more r' rows' :
  inv q rows → top_pop q = Some (r, q') → advanced r dropped more r' →
  (∀ x, x ∈ dropped → consumed query dl rows' (layer r) x) →
  (∀ p, p ∈ rows → p ∈ rows') → (∀ p, p ∈ rows' → asked query dl P p) →
  StronglySorted Z.lt rows' →
  (∀ p l x, p ∈ rows' → (l, x) ∈ pendings q → kle (url query, p) x) →
  inv (EnqueueIf more r' q') rows'.
Proof.
  intros Hi Hp [Hl _ Hok Hpend] Hdrop Hsub Hask Hs Hle.
  pose proof (top_pop_perm _ _ _ Hp) as Hperm.
  assert (∀ l x, (l, x) ∈ pendings (EnqueueIf more r' q') → (l, x) ∈ pendings q) as Hin.
  { intros l x. rewrite !elem_of_pendings. setoid_rewrite Hperm. setoid_rewrite elem_of_cons.
    unfold EnqueueIf. destruct more; [|by naive_solver]. setoid_rewrite elem_of_cons.
    intros (r0 & [->|Hr0] & -> & Hx); [exists r|by exists r0; eauto].
    split; [by left|]. split; [done|]. rewrite Hpend, elem_of_app. by right. }
  pose proof (mi_ok _ _ _ _ _ Hi) as Hall. rewrite Hperm in Hall. apply Forall_cons in Hall as [_ Hall].
  split.
  - unfold EnqueueIf. destruct more; [|done]. apply Forall_cons. by split; [apply Hok|].
  - intros l x Hx. by apply (mi_sub _ _ _ _ _ Hi), Hin.
  - intros l x Hx. destruct (mi_gone _ _ _ _ _ Hi l x Hx) as [Hq|[Hlt Hc]].
    + apply elem_of_pendings in Hq as (r0 & Hr0 & -> & Hx0). rewrite Hperm in Hr0.
      apply elem_of_cons in Hr0 as [->|Hr0].
      * rewrite Hpend in Hx0. apply elem_of_app in Hx0 as [Hx0|Hx0]; [right; by apply Hdrop|left].
        destruct more; [|by apply elem_of_nil in Hx0]. apply elem_of_pendings.
        exists r'. split; [by left|done].
      * left. apply elem_of_pendings. exists r0. split; [|done].
        unfold EnqueueIf. destruct more; [by right|done].
    + right. split; [done|]. intros Hb Hd. by apply Hsub, Hc.
  - done.
  - done.
  - intros p l x Hpr Hx. by apply (Hle p l x), Hin.
Qed.

(** Rows that the query does not ask for are skipped. *)
Lemma inv_skip q rows r q' dropped more r' :
  inv q rows → top_pop q = Some (r, q') → advanced r dropped more r' →
  begin query ≤ end_ query →
  (∀ x, x ∈ dropped → kcmp x (url query, begin query) = Lt) →
  inv (EnqueueIf more r' q') rows.
Proof.
  intros Hi Hp Ha Hbe Hlt. eapply inv_step; [done|done|done| |done|by apply Hi|by apply Hi|by apply Hi].
  intros x Hx. specialize (Hlt x Hx). split.
  - apply (klt_le_trans _ (url query, begin query)); [done|]. apply pair_le. right. by rewrite Z_kle.
  - intros Hle. exfalso. apply Hle. by rewrite (kcmp_opp x), Hlt.
Qed.

Lemma push_row_elem r pos rows p :
  p ∈ push_row dl r pos rows ↔ p ∈ rows ∨ (p = pos ∧ dl ≤ layer r).
Proof.
  unfold push_row. destruct (Z.leb_spec dl (layer r)) as [Hl|Hl].
  - case_bool_decide as E; simpl; [|set_solver]. split; [by left|]. intros [?|[-> _]]; [done|].
    apply last_Some in E as [l ->]. set_solver.
  - rewrite andb_false_r. split; [by left|]. intros [?|[_ ?]]; [done|lia].
Qed.

Lemma push_row_sorted r pos rows :
  StronglySorted Z.lt rows → (∀ p, p ∈ rows → p ≤ pos) →
  StronglySorted Z.lt (push_row dl r pos rows).
Proof.
  intros Hs Hle. unfold push_row. case_bool_decide as E; simpl; [done|]. case_match; [|done].
  apply StronglySorted_app_2; [|done|by repeat constructor].
  intros p y Hp ->%list_elem_of_singleton.
  destruct (last rows) as [p'|] eqn:El; [|apply last_None in El as ->; by apply elem_of_nil in Hp].
  assert (p' ≠ pos) as Hne by congruence. apply last_Some in El as [init ->].
  pose proof (Hle p' ltac:(apply elem_of_app; right; by left)) as Hp'.
  apply elem_of_app in Hp as [Hp|Hp%list_elem_of_singleton]; [|subst; lia].
  pose proof (StronglySorted_app_1_elem_of _ _ _ _ _ Hs Hp (list_elem_of_here p' [])). lia.
Qed.

(** The row on top is reported. *)
Lemma inv_push q rows r q' pos more r' :
  inv q rows → top_pop q = Some (r, q') → advanced r (current_row r) more r' →
  current_file_path r = Some (url query) → current_pos r = Some pos →
  begin query ≤ pos < end_ query →
  inv (EnqueueIf more r' q') (push_row dl r pos rows).
Proof.
  intros Hi Hp Ha Hf Hc Hr.
  assert (current_row r = [(url query, pos)]) as Hrow by (unfold current_row; by rewrite Hf, Hc).
  assert ((layer r, (url query, pos)) ∈ pendings q) as Hin.
  { apply elem_of_pendings. exists r. rewrite (top_pop_perm _ _ _ Hp). split; [by left|]. split; [done|].
    unfold pending. rewrite Hrow. by left. }
  eapply inv_step; [done|done|done| | | | |].
  - rewrite Hrow. intros x ->%list_elem_of_singleton. split.
    + apply kltb_true. unfold kltb. simpl. rewrite string_compare_refl.
      assert ((pos ?= end_ query) = Lt) as -> by (apply Z.compare_lt_iff; lia). done.
    + intros _ Hd. apply push_row_elem. by right.
  - intros p Hpr. apply push_row_elem. by left.
  - intros p [Hpr|[-> Hd]]%push_row_elem; [by apply (mi_rows _ _ _ _ _ Hi)|].
    split; [done|]. exists (layer r). split; [done|]. by apply (mi_sub _ _ _ _ _ Hi).
  - apply push_row_sorted; [by apply (mi_sorted _ _ _ _ _ Hi)|]. intros p Hpr.
    pose proof (mi_le _ _ _ _ _ Hi p _ _ Hpr Hin) as Hle. apply pair_le in Hle as [Hlt|[_ Hle]].
    + simpl in Hlt. by rewrite string_compare_refl in Hlt.
    + by apply Z_kle.
  - intros p l x [Hpr|[-> Hd]]%push_row_elem Hx; [by apply (mi_le _ _ _ _ _ Hi p l x)|].
    pose proof (top_le _ _ _ _ _ _ Hi Hp Hx) as Hle. unfold GetPosition, IsStarted in Hle.
    rewrite Hc, Hf in Hle. by apply (lift_le (url query, pos)).
Qed.

(** The loop leaves when no pending row lies before the end of the query. *)
Definition finished (q : list Reader) : Prop :=
  ∀ l x, (l, x) ∈ pendings q → kle (url query, end_ query) x.

Lemma inv_break q rows r q' :
  inv q rows → top_pop q = Some (r, q') → kle (lift (url query, end_ query)) (GetPosition r) →
  inv (r :: q') rows ∧ finished (r :: q').
Proof.
  intros Hi Hp Hle. pose proof (top_pop_perm _ _ _ Hp) as Hperm.
  assert (∀ l x, (l, x) ∈ pendings (r :: q') ↔ (l, x) ∈ pendings q) as Hin
    by (intros; rewrite !elem_of_pendings; by setoid_rewrite Hperm).
  split.
  - destruct Hi as [H1 H2 H3 H4 H5 H6]. rewrite Hperm in H1. split; [done| | |done|done|]; by setoid_rewrite Hin.
  - intros l x Hx%Hin. apply (proj1 (lift_le _ _)). trans (GetPosition r); [done|]. by eapply top_le.
Qed.

Lemma State_less g x :
  group_ok g → State (metadata g) query = kLess → x ∈ group_rows g →
  kcmp x (url query, begin query) = Lt.
Proof.
  intros [_ _ Hpath Hpos] Hst Hx. unfold State in Hst. case_match; [done|].
  destruct (path_min_max (metadata g)) as [[mn mx]|] eqn:E; [|done].
  destruct (Hpath mn mx x eq_refl Hx) as [Hmn Hmx].
  destruct (kltb mx (url query)) eqn:E1.
  { apply kltb_true in E1. pose proof (kle_lt_trans _ _ _ Hmx E1) as Hlt. destruct x; simpl in *. by rewrite Hlt. }
  destruct (kltb (url query) mn) eqn:E2; [done|]. case_bool_decide as E3; [|done]. simpl in Hst.
  destruct (pos_min_max (metadata g)) as [[a b]|] eqn:Ez; [|done].
  destruct (Z.ltb_spec b (begin query)) as [Hb|]; [|by case_match].
  apply kltb_false in E1, E2. subst mx. assert (x.1 = url query) as Hu.
  { apply kle_antisymm; [by trans mn|by trans mn]. }
  destruct (Hpos a b x eq_refl Hx) as [_ Hxb]. destruct x as [p z]; simpl in *. subst p.
  rewrite string_compare_refl. by apply Z.compare_lt_iff; lia.
Qed.

Lemma State_greater g :
  State (metadata g) query = kGreater → kle (lift (url query, end_ query)) (stats_position (metadata g)).
Proof.
  unfold State, stats_position. case_match; [done|].
  destruct (path_min_max (metadata g)) as [[mn mx]|] eqn:E; [|done].
  destruct (kltb mx (url query)) eqn:E1; [done|].
  destruct (kltb (url query) mn) eqn:E2.
  { intros _. apply pair_le. left. by apply kltb_true in E2. }
  case_bool_decide as E3; [|done]. simpl. destruct (pos_min_max (metadata g)) as [[a b]|] eqn:Ez; [|done].
  destruct (Z.ltb_spec b (begin query)); [done|]. destruct (Z.leb_spec (end_ query) a); [|done].
  intros _. apply kltb_false in E1, E2. subst mx. apply pair_le. right. split.
  - simpl. f_equal. by apply kle_antisymm.
  - simpl. change (kle (end_ query) a). by apply Z_kle.
Qed.

Lemma works_enqueue r dropped more r' q :
  advanced r dropped more r' → (works (EnqueueIf more r' q) < work r + works q)%nat.
Proof. intros [_ Hw _ _]. unfold EnqueueIf, works. destruct more; cbn [sum_list_with]; lia. Qed.

Lemma merge_loop_spec fuel : ∀ q rows,
  begin query ≤ end_ query → inv q rows → (works q < fuel)%nat →
  ∃ rows' q', merge_loop query dl fuel q rows = Some (Ok (rows', q')) ∧ inv q' rows' ∧ finished q'.
Proof.
  induction fuel as [|fuel IH]; intros q rows Hbe Hi Hf; [lia|]. cbn [merge_loop].
  destruct (top_pop q) as [[r q']|] eqn:Hp.
  2:{ exists rows, q. split; [done|]. split; [done|]. apply top_pop_empty in Hp as ->. by intros l x ?%elem_of_nil. }
  destruct (popped_ok _ _ _ _ Hi Hp) as [Hok Hw].
  destruct (Next_advanced r Hok) as (more & r1 & Hn & Ha). rewrite Hn.
  pose proof (works_enqueue _ _ _ _ q' Ha) as Hlt.
  destruct (current_pos r) as [pos|] eqn:Hc.
  - pose proof (rk_current r Hok) as Hcur. rewrite Hc in Hcur. destruct Hcur as [path Hpath]. rewrite Hpath.
    assert (current_row r = [(path, pos)]) as Hrow by (unfold current_row; by rewrite Hpath, Hc).
    assert (GetPosition r = lift (path, pos)) as Hpos by (unfold GetPosition, IsStarted; by rewrite Hc, Hpath).
    destruct (kcmp (url query) path) eqn:Ecmp.
    + apply kcmp_eq in Ecmp as <-. destruct (Z.leb_spec (begin query) pos) as [Hb|Hb].
      * destruct (Z.ltb_spec pos (end_ query)) as [He|He].
        -- apply IH; [done|by eapply inv_push|lia].
        -- exists rows, (r :: q'). split; [done|]. eapply inv_break; [done|done|].
           rewrite Hpos. apply lift_le, pair_le. right. by rewrite Z_kle.
      * apply IH; [done| |lia]. eapply inv_skip; [done|done|done|done|].
        rewrite Hrow. intros x ->%list_elem_of_singleton. simpl. rewrite string_compare_refl.
        by apply Z.compare_lt_iff.
    + exists rows, (r :: q'). split; [done|]. eapply inv_break; [done|done|].
      rewrite Hpos. apply lift_le, pair_le. by left.
    + apply IH; [done| |lia]. eapply inv_skip; [done|done|done|done|].
      rewrite Hrow. intros x ->%list_elem_of_singleton. apply kcmp_Gt in Ecmp. simpl in *. by rewrite Ecmp.
  - pose proof (rk_current r Hok) as Hcur. rewrite Hc in Hcur. destruct Hcur as (g & Hg & Hgo & Hpa & Hpo).
    rewrite Hg. assert (current_row r = []) as Hrow by (unfold current_row; rewrite Hc; by destruct (current_file_path r)).
    destruct (State (metadata g) query) eqn:Est.
    + pose proof (NextRowGroup_advanced r (rk_groups r Hok) (rk_sorted r Hok)) as Hr.
      destruct (NextRowGroup r) as [more2 r2]. simpl in Hr.
      pose proof (works_enqueue _ _ _ _ q' Hr). apply IH; [done| |lia].
      eapply inv_skip; [done|done|done|done|]. rewrite Hrow, Hpa, Hpo. simpl. intros x Hx.
      by apply (State_less g).
    + apply IH; [done| |lia]. eapply inv_skip; [done|done|done|done|]. rewrite Hrow. by intros x ?%elem_of_nil.
    + exists rows, (r :: q'). split; [done|]. eapply inv_break; [done|done|].
      unfold GetPosition, IsStarted. rewrite Hc, Hg. by apply State_greater.
Qed.
End merge.

(** ** Queries against the files *)

(** All delete rows of the files, with the layer of their file. *)
Definition delete_rows (files : list (Z * DeleteFile)) : list (Z * (string * Z)) :=
  flat_map (λ lf, pair lf.1 <$> file_rows lf.2) files.

(** The rows of the files from the end of the last query on are pending. *)
Record stream_inv (F : list (Z * (string * Z))) (s : PositionalDeleteStream) : Prop := {
  si_ok : Forall reader_ok (queue_ s);
  si_sub : ∀ l x, (l, x) ∈ pendings (queue_ s) → (l, x) ∈ F;
  si_all : ∀ l x, (l, x) ∈ F →
           (∀ lq, last_query_ s = Some lq → kle (url lq, end_ lq) x) → (l, x) ∈ pendings (queue_ s);
}.

Definition exact_rows (F : list (Z * (string * Z))) (query : Query) (dl : Z) (rows : list Z) : Prop :=
  StronglySorted Z.lt rows ∧ ∀ p, p ∈ rows ↔ asked query dl F p.

Lemma elem_of_delete_rows files l x :
  (l, x) ∈ delete_rows files ↔ ∃ f, (l, f) ∈ files ∧ x ∈ file_rows f.
Proof.
  unfold delete_rows. rewrite elem_of_flat_map. setoid_rewrite list_elem_of_fmap. split.
  - intros ([l' f] & Hin & y & [= -> ->] & Hy). by eauto.
  - intros (f & Hin & Hx). exists (l, f). split; [done|]. by exists x.
Qed.

Lemma open_reader_spec l f r :
  file_ok f → (r ∈ open_reader (l, f) → reader_ok r ∧ layer r = l ∧ pending r = file_rows f) ∧
  (open_reader (l, f) = [] → file_rows f = []).
Proof.
  intros [Hg Hs]. unfold open_reader. simpl. destruct f as [|g gs]; simpl.
  - split; [by intros ?%elem_of_nil|done].
  - apply Forall_cons in Hg as [Hg Hgs]. split; [|done]. intros ->%list_elem_of_singleton.
    assert (∀ p q ps zs gs', pending {| current_group := p; unread_paths := ps; unread_pos := zs; next_groups := gs';
      current_file_path := None; current_pos := None; layer := q |} = rows_of ps zs ++ file_rows gs') as Hp by done.
    rewrite Hp. split; [|done]. split; simpl; [apply Hg|done|done|by eauto].
Qed.

Lemma make_stream_inv files :
  Forall (λ lf, file_ok lf.2) files → stream_inv (delete_rows files) (make_PositionalDeleteStream files).
Proof.
  intros Hok. rewrite Forall_forall in Hok.
  assert (∀ r, r ∈ flat_map open_reader files → ∃ f, (layer r, f) ∈ files ∧ reader_ok r ∧ pending r = file_rows f) as Hr.
  { intros r ([l f] & Hin & Hr)%elem_of_flat_map. specialize (Hok _ Hin).
    apply (proj1 (open_reader_spec l f r Hok)) in Hr as (? & <- & ?). by eauto. }
  split; simpl.
  - apply Forall_forall. intros r (f & _ & ? & _)%Hr. done.
  - intros l x (r & Hin & -> & Hx)%elem_of_pendings. destruct (Hr r Hin) as (f & Hf & _ & Hp).
    apply elem_of_delete_rows. exists f. by rewrite <- Hp.
  - intros l x (f & Hf & Hx)%elem_of_delete_rows _. specialize (Hok _ Hf). simpl in Hok.
    apply elem_of_pendings. destruct (open_reader (l, f)) as [|r rs] eqn:E.
    { apply (proj2 (open_reader_spec l f (make_Reader f l) Hok)) in E. rewrite E in Hx. by apply elem_of_nil in Hx. }
    assert (r ∈ open_reader (l, f)) as Hin by (rewrite E; by left).
    exists r. split; [apply elem_of_flat_map; by exists (l, f)|].
    apply (proj1 (open_reader_spec l f r Hok)) in Hin as (_ & <- & ->). done.
Qed.

Section queries.
Context `{ReaderQueue}.

Lemma GetDeleted_spec F s fuel u b e dl :
  stream_inv F s → follows (last_query_ s) u b = true → b ≤ e → (works (queue_ s) < fuel)%nat →
  ∃ rows s', GetDeleted fuel s u b e dl = Some (Ok (rows, s')) ∧
    exact_rows F {| url := u; begin := b; end_ := e |} dl rows ∧
    stream_inv F s' ∧ last_query_ s' = Some {| url := u; begin := b; end_ := e |}.
Proof.
  intros [Hok Hsub Hall] Hfo Hbe Hfuel. unfold GetDeleted. rewrite Hfo.
  set (query := {| url := u; begin := b; end_ := e |}).
  assert (∀ l x, (l, x) ∈ F → kle (u, b) x → (l, x) ∈ pendings (queue_ s)) as Hpend.
  { intros l x Hx Hle. apply Hall; [done|]. intros lq Hlq. unfold follows in Hfo. rewrite Hlq in Hfo.
    apply negb_true_iff, kltb_false in Hfo. by trans (u, b). }
  destruct (merge_loop_spec query dl (pendings (queue_ s)) fuel (queue_ s) []) as (rows & q' & -> & Hi & Hfin);
    [done| |done|].
  { split; try done; [by left|by intros ? ?%elem_of_nil|constructor|by intros ? ? ? ?%elem_of_nil]. }
  exists rows, {| queue_ := q'; last_query_ := Some query |}. split; [done|]. destruct Hi as [I1 I2 I3 I4 I5 I6].
  split; [split; [done|]|split; [split; simpl|done]].
  - intros p. split.
    + intros (Hr & l & Hl & Hin)%I4. split; [done|]. exists l. split; [done|]. by apply Hsub.
    + intros (Hr & l & Hl & Hin). simpl in Hin.
      assert (kle (u, b) (u, p)) as Hle by (apply pair_le; right; split; [done|apply Z_kle; apply Hr]).
      destruct (I3 l (u, p) (Hpend _ _ Hin Hle)) as [Hq|[_ Hc]]; [|by apply Hc].
      apply Hfin, pair_le in Hq as [Hlt|[_ Hle']].
      * simpl in Hlt. by rewrite string_compare_refl in Hlt.
      * exfalso. destruct Hr as [_ Hr]. subst query. simpl in Hr, Hle'. apply (proj1 (Z_kle e p)) in Hle'. lia.
  - done.
  - intros l x Hx. by apply Hsub, I2.
  - intros l x Hx Hle. specialize (Hle query eq_refl). simpl in Hle.
    assert (kle (u, b) x) as Hb by (trans (u, e); [apply pair_le; right; by rewrite Z_kle|done]).
    destruct (I3 l x (Hpend _ _ Hx Hb)) as [Hq|[Hlt _]]; [done|]. exfalso. apply Hle.
    change (kcmp x (u, e) = Lt) in Hlt. by rewrite (kcmp_opp x), Hlt.
Qed.

(** A call of [GetDeleted] with fuel for all the work its readers have left. *)
Definition get_deleted (s : PositionalDeleteStream) (u : string) (b e data_layer : Z) :
    result (list Z * PositionalDeleteStream) :=
  match GetDeleted (S (works (queue_ s))) s u b e data_layer with
  | Some r => r
  | None => Err (Exn "out of fuel")
  end.

Fixpoint answer (s : PositionalDeleteStream) (queries : list (Query * Z)) : result (list (list Z)) :=
  match queries with
  | [] => Ok []
  | (q, dl) :: queries =>
      let! '(rows, s') := get_deleted s (url q) (begin q) (end_ q) dl in
      let! rest := answer s' queries in Ok (rows :: rest)
  end.

Definition query_le (q q' : Query * Z) : Prop := kle (url q.1, end_ q.1) (url q'.1, begin q'.1).

Lemma get_deleted_spec F s u b e dl :
  stream_inv F s → follows (last_query_ s) u b = true → b ≤ e →
  ∃ rows s', get_deleted s u b e dl = Ok (rows, s') ∧
    exact_rows F {| url := u; begin := b; end_ := e |} dl rows ∧
    stream_inv F s' ∧ last_query_ s' = Some {| url := u; begin := b; end_ := e |}.
Proof.
  intros Hs Hf Hbe. unfold get_deleted.
  destruct (GetDeleted_spec F s (S (works (queue_ s))) u b e dl Hs Hf Hbe ltac:(lia)) as (rows & s' & -> & H').
  by eauto.
Qed.

Lemma answer_spec F queries : ∀ s,
  stream_inv F s → Forall (λ q, begin q.1 ≤ end_ q.1) queries → Sorted query_le queries →
  (∀ q, head queries = Some q → follows (last_query_ s) (url q.1) (begin q.1) = true) →
  ∃ answers, answer s queries = Ok answers ∧ Forall2 (λ q, exact_rows F q.1 q.2) queries answers.
Proof.
  induction queries as [|[q dl] queries IH]; intros s Hs Hbe Hsort Hhead; simpl.
  { exists []. by split. }
  apply Forall_cons in Hbe as [Hq Hbe]. apply Sorted_inv in Hsort as [Hsort Hrel].
  destruct (get_deleted_spec F s (url q) (begin q) (end_ q) dl Hs (Hhead _ eq_refl) Hq)
    as (rows & s' & -> & Hr & Hs' & Hlast). simpl.
  destruct (IH s' Hs' Hbe Hsort) as (answers & -> & Hall).
  { intros q' Hq'. rewrite Hlast. simpl. apply negb_true_iff, kltb_false.
    destruct queries as [|? ?]; simplify_eq/=. by inversion Hrel. }
  exists (rows :: answers). split; [done|]. constructor; [|done]. by destruct q.
Qed.

(** C11: opened over well-formed delete files, the stream answers every sequence
    of ascending disjoint queries without an error, and each answer lists, in
    increasing order and once each, exactly the positions of the requested range
    that some file of the data layer or a newer one deletes from the data file. *)
Theorem positional_delete_stream_exact (files : list (Z * DeleteFile)) (queries : list (Query * Z)) :
  Forall (λ lf, file_ok lf.2) files → Forall (λ q, begin q.1 ≤ end_ q.1) queries →
  Sorted query_le queries →
  ∃ answers, answer (make_PositionalDeleteStream files) queries = Ok answers ∧
    Forall2 (λ '(q, dl) rows, StronglySorted Z.lt rows ∧
      ∀ p, p ∈ rows ↔ begin q ≤ p < end_ q ∧
           ∃ l f, dl ≤ l ∧ (l, f) ∈ files ∧ (url q, p) ∈ file_rows f) queries answers.
Proof.
  intros Hf Hbe Hs.
  destruct (answer_spec (delete_rows files) queries _ (make_stream_inv files Hf) Hbe Hs) as (answers & Ha & Hall).
  { by intros q _. }
  exists answers. split; [done|]. eapply Forall2_impl; [done|]. intros [q dl] rows [Hsort Hrows].
  split; [done|]. intros p. rewrite Hrows. unfold asked. simpl. setoid_rewrite elem_of_delete_rows. naive_solver.
Qed.
End queries.

(** ** A queue *)

(** The leftmost of the least readers. *)
Fixpoint pop_min (q : list Reader) : option (Reader * list Reader) :=
  match q with
  | [] => None
  | r :: q =>
      match pop_min q with
      | None => Some (r, [])
      | Some (m, q') => if ReaderHolderGreater r m then Some (m, r :: q') else Some (r, q)
      end
  end.

Lemma pop_min_perm q : ∀ r q', pop_min q = Some (r, q') → q ≡ₚ r :: q'.
Proof.
  induction q as [|x q IH]; intros r q' E; simpl in E; [done|].
  destruct (pop_min q) as [[m q0]|] eqn:Em.
  - specialize (IH m q0 eq_refl). case_match; simplify_eq/=; [|done]. rewrite IH. apply Permutation_swap.
  - simplify_eq/=. destruct q as [|y q]; [done|]. simpl in Em. by repeat case_match.
Qed.

Lemma pop_min_least q : ∀ r q' x, pop_min q = Some (r, q') → x ∈ q' → ReaderHolderGreater r x = false.
Proof.
  induction q as [|y q IH]; intros r q' x E Hx; simpl in E; [done|].
  destruct (pop_min q) as [[m q0]|] eqn:Em.
  - specialize (IH m q0). pose proof (pop_min_perm _ _ _ Em) as Hperm.
    destruct (ReaderHolderGreater y m) eqn:Eg; simplify_eq/=; unfold ReaderHolderGreater in *.
    + apply kltb_false. apply elem_of_cons in Hx as [->|Hx]; [|by apply kltb_false, IH].
      apply kltb_true in Eg. apply kle_cases. by left.
    + apply kltb_false. apply kltb_false in Eg. rewrite Hperm in Hx.
      apply elem_of_cons in Hx as [->|Hx]; [done|]. trans (GetPosition m); [done|]. by apply kltb_false, IH.
  - simplify_eq/=. by apply elem_of_nil in Hx.
Qed.

#[export] Program Instance min_queue : ReaderQueue := {| top_pop := pop_min |}.
Next Obligation.
  intros [|r q]; simpl; [done|]. split; [|done]. by repeat case_match.
Qed.
Next Obligation. apply pop_min_perm. Qed.
Next Obligation. apply pop_min_least. Qed.

Module PositionalDeleteExample.
Definition rows (l : list (string * Z)) : RowGroup :=
  {| metadata := {| path_stats_set := true; pos_stats_set := true;
                    path_min_max := match l with [] => None | x :: _ => Some (x.1, (List.last l x).1) end;
                    pos_min_max := None |};
     path_column := Some <$> l.*1; pos_column := Some <$> l.*2 |}.
Definition files : list (Z * DeleteFile) :=
  [(0, [rows [("a", 1); ("a", 4)]; rows [("b", 0)]]); (1, [rows [("a", 4); ("a", 7); ("c", 2)]]); (2, [])].
Definition query (u : string) (b e : Z) : Query := {| url := u; begin := b; end_ := e |}.

Lemma rows_group l : group_rows (rows l) = l.
Proof. unfold group_rows; simpl. induction l as [|[p z] l IH]; [done|]. cbn. f_equal. apply IH. Qed.

Lemma rows_ok x l :
  Forall (λ y, y.1 ≠ "" ∧ kle x.1 y.1 ∧ kle y.1 (List.last (x :: l) x).1) (x :: l) →
  group_ok (rows (x :: l)).
Proof.
  intros Hall. split.
  - cbn [rows path_column pos_column]. eapply Forall_impl in Hall; [|intros y [Hy _]; exact Hy].
    revert Hall. generalize (x :: l). intros k. induction 1; simpl; constructor; [|done]. by eexists _, _.
  - intros _. rewrite rows_group. done.
  - intros mn mx y [= <- <-] Hy. rewrite rows_group in Hy. rewrite Forall_forall in Hall. by apply Hall.
  - done.
Qed.

Lemma files_ok : Forall (λ lf, file_ok lf.2) files.
Proof.
  assert (∀ f, Forall group_ok f → Sorted kle (file_rows f) → file_ok f) as Hf
    by (intros; split; [done|apply Sorted_StronglySorted; [apply _|done]]).
  repeat (apply Forall_cons; split); try done; apply Hf;
    repeat (apply Forall_cons; split); try done; try apply rows_ok; repeat constructor; vm_compute; discriminate.
Qed.
End PositionalDeleteExample.

Lemma positional_delete_stream_exact_witness :
  let qs := [(PositionalDeleteExample.query "a" 0 5, 0); (PositionalDeleteExample.query "a" 5 9, 0);
             (PositionalDeleteExample.query "b" 0 3, 1)] in
  answer (make_PositionalDeleteStream PositionalDeleteExample.files) qs = Ok [[1; 4]; [7]; []] ∧
  ∃ answers, answer (make_PositionalDeleteStream PositionalDeleteExample.files) qs = Ok answers ∧
    Forall2 (λ '(q, dl) rows, StronglySorted Z.lt rows ∧
      ∀ p, p ∈ rows ↔ begin q ≤ p < end_ q ∧
           ∃ l f, dl ≤ l ∧ (l, f) ∈ PositionalDeleteExample.files ∧ (url q, p) ∈ file_rows f) qs answers.
Proof.
  intros qs. split; [vm_compute; reflexivity|].
  apply (positional_delete_stream_exact PositionalDeleteExample.files qs).
  - apply PositionalDeleteExample.files_ok.
  - repeat constructor; vm_compute; discriminate.
  - repeat constructor; vm_compute; discriminate.
Defined.
