(* ===== verification/DeleteAppliers.v ===== *)
(** * DeleteAppliers: removing positionally deleted rows from batches

    [IcebergBatch] of [iceberg/streams/iceberg/iceberg_batch.h], and
    [PositionalDeletes] and [PositionalDeleteApplier] of
    [iceberg/streams/iceberg/positional_delete_applier.h]: the applier keeps one
    [PositionalDeleteStream] as long as batches of a partition arrive in
    ascending order of file path and row position, and opens a new one when
    they do not.

    The columns of a batch do not matter here: a batch is its place in the plan,
    its number of rows and its selection vector.  Opening a Parquet file is a
    parameter. *)

From stdpp Require Import base list sorting strings sets.
From Stdlib Require Import ZArith Lia.
From S2P Require Import Prelude OrderedMap Parquet ScanTypes SelectionVector PositionalDelete.

Local Open Scope Z_scope.

(** ** Batches *)

Record IcebergBatch := {
  partition_ : Z;
  layer_ : Z;
  path_ : string;
  row_position_ : Z;
  num_rows : Z;
  selection_vector_ : list Z;
}.

Definition set_selection (sv : list Z) (b : IcebergBatch) : IcebergBatch :=
  {| partition_ := partition_ b; layer_ := layer_ b; path_ := path_ b; row_position_ := row_position_ b;
     num_rows := num_rows b; selection_vector_ := sv |}.

(** ** PositionalDeletes *)

(** [std::map<PartitionId, std::map<LayerId, std::vector<PositionalDeleteInfo>>>]. *)
Definition PositionalDeletes : Type := list (Z * list (Z * list PositionalDeleteInfo)).

(** [urls[l].push_back(path)] for every entry of every layer. *)
Definition GetDeleteUrls (delete_entries : PositionalDeletes) (partition : Z) : result (list (Z * list string)) :=
  match mfind partition delete_entries with
  | None => Err (Exn "out_of_range")
  | Some layers =>
      Ok (foldl (λ urls l, foldl (λ urls info,
            mupdate (λ o, default [] o ++ [pd_path info]) l.1 urls) urls l.2) [] layers)
  end.

(** ** PositionalDeleteApplier *)

Record PositionalDeleteApplier := {
  positional_delete_ : option PositionalDeleteStream;
  current_state_ : option (Z * string * Z);    (** partition, path, row position *)
}.

Definition initial_applier : PositionalDeleteApplier :=
  {| positional_delete_ := None; current_state_ := None |}.

Section applier.
Context `{ReaderQueue}.
(** [IFileReaderProvider::OpenParquet]. *)
Context (OpenParquet : string → result ParquetFile).
Context (pos_del_infos_ : PositionalDeletes).

(** One reader per url of each layer, in the order of the map. *)
Definition open_layer (lu : Z * list string) : result (list (Z * DeleteFile)) :=
  map_ok (λ u, let! f := OpenParquet u in let! d := check_columns f in Ok (lu.1, d)) lu.2.

Definition open_stream (urls : list (Z * list string)) : result PositionalDeleteStream :=
  let! files := map_ok open_layer urls in Ok (make_PositionalDeleteStream (concat files)).

Definition can_reuse_state (st : PositionalDeleteApplier) (batch : IcebergBatch) : bool :=
  match current_state_ st with
  | Some (partition, path, row) =>
      let paths_are_increasing :=
        kltb path (path_ batch) || (bool_decide (path_ batch = path) && (row <=? row_position_ batch)) in
      bool_decide (partition = partition_ batch) && paths_are_increasing
  | None => false
  end.

(** [ReadNext] on the next batch of the input. *)
Definition apply_batch (st : PositionalDeleteApplier) (batch : IcebergBatch) :
    result (IcebergBatch * PositionalDeleteApplier) :=
  let with_stream (st : PositionalDeleteApplier) :=
    match positional_delete_ st with
    | None => Ok (batch, st)
    | Some s =>
        let row := row_position_ batch in
        let row_end := wrap_s 64 (row + num_rows batch) in
        let! '(delete_rows, s') := get_deleted s (path_ batch) row row_end (layer_ batch) in
        let relative := (λ r, wrap_s 64 (r - row)) <$> delete_rows in
        let '(_, sv) := DeleteIfEqual relative (selection_vector_ batch) in
        Ok (set_selection sv batch,
            {| positional_delete_ := Some s';
               current_state_ := Some (partition_ batch, path_ batch, row_end) |})
    end in
  if can_reuse_state st batch then with_stream st
  else
    match mfind (partition_ batch) pos_del_infos_ with
    | None => Ok (batch, initial_applier)
    | Some _ =>
        let! urls := GetDeleteUrls pos_del_infos_ (partition_ batch) in
        let! s := open_stream urls in
        with_stream {| positional_delete_ := Some s; current_state_ := None |}
    end.

Fixpoint apply_batches (st : PositionalDeleteApplier) (batches : list IcebergBatch) : result (list IcebergBatch) :=
  match batches with
  | [] => Ok []
  | b :: batches =>
      let! '(b', st') := apply_batch st b in
      let! rest := apply_batches st' batches in Ok (b' :: rest)
  end.

(** ** What the applier has to remove *)

(** A delete file of the partition, in the layer of the batch or a newer one,
    lists the row. *)
Definition row_deleted (batch : IcebergBatch) (i : Z) : Prop :=
  ∃ layers l infos info f d,
    mfind (partition_ batch) pos_del_infos_ = Some layers ∧ (l, infos) ∈ layers ∧ layer_ batch ≤ l ∧
    info ∈ infos ∧ OpenParquet (pd_path info) = Ok f ∧ check_columns f = Ok d ∧
    (path_ batch, row_position_ batch + i) ∈ file_rows d.

Definition deletes_ok : Prop :=
  ∀ partition layers l infos info, mfind partition pos_del_infos_ = Some layers → (l, infos) ∈ layers →
    info ∈ infos → ∃ f d, OpenParquet (pd_path info) = Ok f ∧ check_columns f = Ok d ∧ file_ok d.

Record batch_ok (b : IcebergBatch) : Prop := {
  bk_rows : 0 ≤ num_rows b;
  bk_range : 0 ≤ row_position_ b ∧ row_position_ b + num_rows b ≤ int64_max;
  bk_sorted : StronglySorted Z.le (selection_vector_ b);
  bk_selected : ∀ i, i ∈ selection_vector_ b → 0 ≤ i < num_rows b;
}.

(** The same batch, with the deleted rows no longer selected. *)
Definition applied (b b' : IcebergBatch) : Prop :=
  ∃ sv, b' = set_selection sv b ∧ sv `sublist_of` selection_vector_ b ∧
        ∀ i, i ∈ sv ↔ i ∈ selection_vector_ b ∧ ¬ row_deleted b i.

(** ** Opening the stream *)

Definition has_url (urls : list (Z * list string)) (l : Z) (u : string) : Prop :=
  ∃ us, mfind l urls = Some us ∧ u ∈ us.

Lemma has_url_push urls l u l' u' :
  keys_sorted urls →
  has_url (mupdate (λ o, default [] o ++ [u]) l urls) l' u' ↔ has_url urls l' u' ∨ (l' = l ∧ u' = u).
Proof.
  intros Hs. unfold has_url. destruct (decide (l = l')) as [->|Hne].
  - rewrite mfind_mupdate_eq. split.
    + intros (us & [= <-] & Hu). apply elem_of_app in Hu as [Hu|Hu%list_elem_of_singleton]; [|by right].
      left. destruct (mfind l' urls); [by eauto|by apply elem_of_nil in Hu].
    + intros [(us & -> & Hu)|[_ ->]]; eexists; (split; [done|]); simpl; apply elem_of_app; [by left|].
      right. by left.
  - rewrite mfind_mupdate_ne by done. naive_solver.
Qed.

Lemma push_urls_spec layers : ∀ urls, keys_sorted urls →
  let out := foldl (λ urls (l : Z * list PositionalDeleteInfo), foldl (λ urls info,
            mupdate (λ o, default [] o ++ [pd_path info]) l.1 urls) urls l.2) urls layers in
  keys_sorted out ∧ ∀ l u, has_url out l u ↔ has_url urls l u ∨
    ∃ infos info, (l, infos) ∈ layers ∧ info ∈ infos ∧ u = pd_path info.
Proof.
  induction layers as [|[l infos] layers IH]; intros urls Hs; simpl.
  { split; [done|]. intros l u. split; [by left|]. by intros [?|(? & ? & ?%elem_of_nil & _)]. }
  assert (let inner := foldl (λ urls info, mupdate (λ o, default [] o ++ [pd_path info]) l urls) urls infos in
    keys_sorted inner ∧ ∀ l' u, has_url inner l' u ↔ has_url urls l' u ∨
      (l' = l ∧ ∃ info, info ∈ infos ∧ u = pd_path info)) as [Hs' Hin].
  { clear IH. revert urls Hs. induction infos as [|info infos IH]; intros urls Hs; simpl.
    - split; [done|]. intros l' u. split; [by left|]. by intros [?|(_ & ? & ?%elem_of_nil & _)].
    - destruct (IH (mupdate (λ o, default [] o ++ [pd_path info]) l urls)) as [Hs' Hi]; [by apply mupdate_sorted|].
      split; [done|]. intros l' u. rewrite Hi, has_url_push by done. setoid_rewrite elem_of_cons. naive_solver. }
  destruct (IH _ Hs') as [Hs'' Hout]. split; [done|]. intros l' u. rewrite Hout, Hin.
  setoid_rewrite elem_of_cons. naive_solver.
Qed.

(** The rows the opened files hold, for a partition of the plan. *)
Definition partition_rows (partition : Z) (F : list (Z * (string * Z))) : Prop :=
  ∀ l x, (l, x) ∈ F ↔ ∃ layers infos info f d, mfind partition pos_del_infos_ = Some layers ∧
    (l, infos) ∈ layers ∧ info ∈ infos ∧ OpenParquet (pd_path info) = Ok f ∧ check_columns f = Ok d ∧
    x ∈ file_rows d.

Lemma open_layer_elem lu ds l d :
  open_layer lu = Ok ds → (l, d) ∈ ds ↔ l = lu.1 ∧ ∃ u f, u ∈ lu.2 ∧ OpenParquet u = Ok f ∧ check_columns f = Ok d.
Proof.
  intros Hopen. rewrite (map_ok_elem _ _ _ _ Hopen). split.
  - intros (u & Hu & E). inv_ok. by eauto 6.
  - intros (-> & u & f & Hu & Hf & Hd). exists u. split; [done|]. by rewrite Hf; simpl; rewrite Hd.
Qed.

Lemma open_stream_spec partition :
  deletes_ok → is_Some (mfind partition pos_del_infos_) →
  ∃ urls s F, GetDeleteUrls pos_del_infos_ partition = Ok urls ∧ open_stream urls = Ok s ∧
    partition_rows partition F ∧ stream_inv F s ∧ last_query_ s = None.
Proof.
  intros Hok [layers Hl]. unfold GetDeleteUrls. rewrite Hl.
  destruct (push_urls_spec layers [] keys_sorted_nil) as [Hs Hin]. revert Hs Hin.
  generalize (foldl (λ urls (l : Z * list PositionalDeleteInfo), foldl (λ urls info,
    mupdate (λ o, default [] o ++ [pd_path info]) l.1 urls) urls l.2) [] layers). intros urls Hs Hin.
  assert (∀ l us u, (l, us) ∈ urls → u ∈ us → ∃ infos info, (l, infos) ∈ layers ∧ info ∈ infos ∧ u = pd_path info) as Hurl.
  { intros l us u Hus Hu. apply mfind_elem_of in Hus; [|done].
    destruct (proj1 (Hin l u)) as [(? & ? & _)|?]; [by exists us|done|done]. }
  destruct (map_ok_exists open_layer urls) as [fss Hfss].
  { intros [l us] Hus. apply map_ok_exists. intros u Hu. destruct (Hurl _ _ _ Hus Hu) as (infos & info & H1 & H2 & ->).
    destruct (Hok _ _ _ _ _ Hl H1 H2) as (f & d & -> & Hd & _). simpl. rewrite Hd. by eexists. }
  assert (∀ l d, (l, d) ∈ concat fss ↔ ∃ infos info f, (l, infos) ∈ layers ∧ info ∈ infos ∧
    OpenParquet (pd_path info) = Ok f ∧ check_columns f = Ok d) as Hfiles.
  { intros l d. rewrite list_elem_of_In, in_concat. setoid_rewrite <- list_elem_of_In. split.
    - intros (ds & Hds & Hd). apply (map_ok_elem _ _ _ _ Hfss) in Hds as ([l' us] & Hus & Hopen).
      apply (open_layer_elem _ _ _ _ Hopen) in Hd as (-> & u & f & Hu & Hf & Hd). simpl in Hu.
      destruct (Hurl _ _ _ Hus Hu) as (infos & info & H1 & H2 & ->). by eauto 8.
    - intros (infos & info & f & H1 & H2 & Hf & Hd).
      destruct (proj2 (Hin l (pd_path info))) as (us & Hus & Hu); [right; by eauto|].
      apply mfind_elem_of in Hus; [|done]. apply map_ok_Forall2 in Hfss.
      apply list_elem_of_lookup in Hus as [i Hi].
      destruct (Forall2_lookup_l _ _ _ _ _ Hfss Hi) as (ds & Hds & Hopen). exists ds. split.
      + by eapply list_elem_of_lookup_2.
      + apply (open_layer_elem _ _ _ _ Hopen). split; [done|]. by exists (pd_path info), f. }
  exists urls, (make_PositionalDeleteStream (concat fss)), (delete_rows (concat fss)).
  split; [done|]. split; [unfold open_stream; by rewrite Hfss|]. split; [|split; [|done]].
  - intros l x. rewrite elem_of_delete_rows. setoid_rewrite Hfiles. rewrite Hl. naive_solver.
  - apply make_stream_inv, Forall_forall. intros [l d] Hd. apply Hfiles in Hd as (infos & info & f & H1 & H2 & Hf & Hd).
    destruct (Hok _ _ _ _ _ Hl H1 H2) as (f' & d' & Hf' & Hd' & Hfo). assert (f' = f) as -> by congruence. by assert (d' = d) as -> by congruence.
Qed.

(** ** The applier *)

(** The stream the applier keeps answers for the partition of its state, up to
    the position of its state. *)
Definition applier_inv (st : PositionalDeleteApplier) : Prop :=
  match current_state_ st with
  | None => True
  | Some (partition, path, row) =>
      ∃ s F b, positional_delete_ st = Some s ∧ partition_rows partition F ∧ stream_inv F s ∧
               last_query_ s = Some {| url := path; begin := b; end_ := row |}
  end.

Lemma wrap_range b : batch_ok b → wrap_s 64 (row_position_ b + num_rows b) = row_position_ b + num_rows b.
Proof. intros [Hn [Hlo Hhi] _ _]. apply wrap_s_64_id. unfold in_i64, int64_min, int64_max in *. lia. Qed.

Lemma relative_rows b (rows : list Z) :
  batch_ok b → (∀ p, p ∈ rows → row_position_ b ≤ p < row_position_ b + num_rows b) →
  (λ r, wrap_s 64 (r - row_position_ b)) <$> rows = (λ r, r - row_position_ b) <$> rows.
Proof.
  intros [Hn [Hlo Hhi] _ _] Hr. apply list_fmap_ext. intros i r Hi%list_elem_of_lookup_2%Hr.
  apply wrap_s_64_id. unfold in_i64, int64_min, int64_max in *. lia.
Qed.

Lemma relative_sorted o (rows : list Z) : StronglySorted Z.lt rows → StronglySorted Z.le ((λ r, r - o) <$> rows).
Proof.
  induction 1 as [|r rows Hs IH Hall]; simpl; constructor; [done|].
  apply Forall_fmap. eapply Forall_impl; [done|]. simpl. lia.
Qed.

Lemma asked_deleted b F i :
  partition_rows (partition_ b) F → 0 ≤ i < num_rows b →
  asked {| url := path_ b; begin := row_position_ b; end_ := row_position_ b + num_rows b |} (layer_ b) F
        (row_position_ b + i) ↔ row_deleted b i.
Proof.
  intros HF Hi. unfold asked, row_deleted. simpl. setoid_rewrite (HF _ _). split.
  - intros (_ & l & Hl & layers & infos & info & f & d & H1 & H2 & H3 & H4 & H5 & H6).
    by exists layers, l, infos, info, f, d.
  - intros (layers & l & infos & info & f & d & H1 & H2 & Hl & H3 & H4 & H5 & H6). split; [lia|].
    exists l. split; [done|]. by exists layers, infos, info, f, d.
Qed.

Lemma sublist_filter_l {A} (p : A → bool) l : List.filter p l `sublist_of` l.
Proof. by apply (sublist_filter p). Qed.

(** A batch whose rows of the stream are known. *)
Lemma with_stream_spec b s F :
  batch_ok b → partition_rows (partition_ b) F → stream_inv F s →
  follows (last_query_ s) (path_ b) (row_position_ b) = true →
  ∃ b' s', (let! '(delete_rows, s') :=
              get_deleted s (path_ b) (row_position_ b) (wrap_s 64 (row_position_ b + num_rows b)) (layer_ b) in
            let '(_, sv) := DeleteIfEqual ((λ r, wrap_s 64 (r - row_position_ b)) <$> delete_rows)
                              (selection_vector_ b) in
            Ok (set_selection sv b,
                {| positional_delete_ := Some s';
                   current_state_ := Some (partition_ b, path_ b, wrap_s 64 (row_position_ b + num_rows b)) |}))
           = Ok (b', s') ∧ applied b b' ∧ applier_inv s'.
Proof.
  intros Hb HF Hs Hfo. pose proof (bk_rows b Hb) as Hn. rewrite (wrap_range b Hb).
  destruct (get_deleted_spec F s (path_ b) (row_position_ b) (row_position_ b + num_rows b) (layer_ b) Hs Hfo ltac:(lia))
    as (rows & s' & -> & [Hsort Hrows] & Hs' & Hlast). simpl.
  rewrite relative_rows; [|done|by intros p [? _]%Hrows].
  rewrite DeleteIfEqual_filter by (apply Hb || by apply relative_sorted).
  eexists _, _. split; [done|]. split.
  - eexists. split; [done|]. split; [apply sublist_filter_l|].
    intros i. rewrite list_elem_of_In, filter_In, <- list_elem_of_In, negb_true_iff.
    unfold mem. rewrite bool_decide_eq_false.
    assert (i ∈ selection_vector_ b →
      i ∈ (λ r, r - row_position_ b) <$> rows ↔ row_deleted b i) as Hiff; [|naive_solver].
    intros Hi%(bk_selected b Hb). rewrite <- (asked_deleted b F i HF Hi), <- Hrows, list_elem_of_fmap. split.
    + intros (r & -> & Hr). by replace (row_position_ b + (r - row_position_ b)) with r by lia.
    + intros Hr. exists (row_position_ b + i). split; [lia|done].
  - simpl. by exists s', F, (row_position_ b).
Qed.

Lemma reuse_follows st b partition path row :
  current_state_ st = Some (partition, path, row) → can_reuse_state st b = true →
  partition = partition_ b ∧ kle (path, row) (path_ b, row_position_ b).
Proof.
  unfold can_reuse_state. intros ->. rewrite andb_true_iff, orb_true_iff, andb_true_iff.
  rewrite !bool_decide_eq_true, Z.leb_le, kltb_true. intros [-> Hle]. split; [done|].
  apply pair_le. rewrite Z_kle. naive_solver.
Qed.

Lemma apply_batch_spec st b :
  deletes_ok → applier_inv st → batch_ok b →
  ∃ b' st', apply_batch st b = Ok (b', st') ∧ applied b b' ∧ applier_inv st'.
Proof.
  intros Hok Hinv Hb. unfold apply_batch. destruct (can_reuse_state st b) eqn:Er.
  - unfold applier_inv in Hinv. destruct (current_state_ st) as [[[partition path] row]|] eqn:Est.
    + destruct (reuse_follows _ _ _ _ _ Est Er) as [-> Hle].
      destruct Hinv as (s & F & b0 & -> & HF & Hs & Hlast). apply (with_stream_spec b s F); [done|done|done|].
      rewrite Hlast. simpl. by apply negb_true_iff, kltb_false.
    + unfold can_reuse_state in Er. by rewrite Est in Er.
  - destruct (mfind (partition_ b) pos_del_infos_) as [layers|] eqn:Ef.
    + destruct (open_stream_spec (partition_ b) Hok ltac:(by eexists)) as (urls & s & F & -> & Ho & HF & Hs & Hl).
      simpl. rewrite Ho. simpl. apply (with_stream_spec b s F); [done|done|done|]. by rewrite Hl.
    + exists b, initial_applier. split; [done|]. split; [|done]. exists (selection_vector_ b).
      split; [by destruct b|]. split; [done|]. intros i. split; [|by intros [? _]].
      intros Hi. split; [done|]. intros (layers & ? & ? & ? & ? & ? & Hf & _). by rewrite Ef in Hf.
Qed.

(** C10: over any sequence of batches, in whatever order of partitions and files,
    the applier delivers every batch, and takes out of its selection exactly the
    rows that a position delete file of its partition lists, the file being in
    the layer of the batch or a newer one; the other rows keep their order. *)
Theorem positional_delete_applier_exact (batches : list IcebergBatch) :
  deletes_ok → Forall batch_ok batches →
  ∃ out, apply_batches initial_applier batches = Ok out ∧ Forall2 applied batches out.
Proof.
  intros Hok Hb. assert (applier_inv initial_applier) as Hi by done. revert Hi.
  generalize initial_applier as st. induction Hb as [|b batches Hb _ IH]; intros st Hi; simpl.
  { exists []. by split. }
  destruct (apply_batch_spec st b Hok Hi Hb) as (b' & st' & -> & Ha & Hi'). simpl.
  destruct (IH st' Hi') as (out & -> & Hall). exists (b' :: out). split; [done|]. by constructor.
Qed.
End applier.

Module AppliersExample.
Definition OpenParquet (path : string) : result ParquetFile :=
  match find (λ lf, String.eqb lf.1 path)
    [("p0", [PositionalDeleteExample.rows [("a", 1); ("a", 4)]; PositionalDeleteExample.rows [("b", 0)]]);
     ("p1", [PositionalDeleteExample.rows [("a", 4); ("a", 7); ("c", 2)]])] with
  | Some (_, f) => Ok {| column_types := [BYTE_ARRAY; INT64]; row_groups := f |}
  | None => Err (StatusError "no such file")
  end.
Definition deletes : PositionalDeletes :=
  [(0, [(0, [{| pd_path := "p0" |}]); (1, [{| pd_path := "p1" |}])])].
Definition batch (partition l : Z) (path : string) (row n : Z) : IcebergBatch :=
  {| partition_ := partition; layer_ := l; path_ := path; row_position_ := row; num_rows := n;
     selection_vector_ := Set_ (Z.to_nat n) |}.
Definition batches : list IcebergBatch :=
  [batch 0 0 "a" 0 5; batch 0 0 "a" 5 3; batch 1 0 "a" 0 2; batch 0 1 "a" 0 5].

Lemma deletes_files_ok : deletes_ok OpenParquet deletes.
Proof.
  intros partition layers l infos info Hm Hl Hi. apply mfind_elem_of in Hm; [|by repeat constructor].
  apply list_elem_of_singleton in Hm as [= -> ->].
  pose proof PositionalDeleteExample.files_ok as Hf. rewrite Forall_forall in Hf.
  apply elem_of_cons in Hl as [[= -> ->]|[= -> ->]%list_elem_of_singleton];
    apply list_elem_of_singleton in Hi as ->; eexists _, _; (split; [done|]); (split; [done|]).
  - by apply (Hf (0, _)); left.
  - by apply (Hf (1, _)); right; left.
Qed.
End AppliersExample.

Lemma positional_delete_applier_exact_witness :
  (let! out := apply_batches AppliersExample.OpenParquet AppliersExample.deletes initial_applier
                             AppliersExample.batches in
   Ok (selection_vector_ <$> out)) = Ok [[0; 2; 3]; [0; 1]; [0; 1]; [0; 1; 2; 3]] ∧
  ∃ out, apply_batches AppliersExample.OpenParquet AppliersExample.deletes initial_applier
                       AppliersExample.batches = Ok out ∧
         Forall2 (applied AppliersExample.OpenParquet AppliersExample.deletes) AppliersExample.batches out.
Proof.
  split; [vm_compute; reflexivity|].
  apply (positional_delete_applier_exact AppliersExample.OpenParquet AppliersExample.deletes AppliersExample.batches).
  - apply AppliersExample.deletes_files_ok.
  - repeat (apply Forall_cons; split); try done; (split; [vm_compute; discriminate|
      split; vm_compute; discriminate|apply Set_sorted|]);
      intros i (y & -> & Hy%elem_of_seq)%list_elem_of_fmap; simpl in *; lia.
Defined.
