(* ===== verification/DeletionVector.v ===== *)
(** * DeletionVector: deletion vectors and their blobs

    [DeletionVector] of [iceberg/deletion_vector.cpp] and
    [DeletionVectorApplier] of
    [iceberg/streams/iceberg/deletion_vector_applier.h].

    The 64-bit Roaring bitmap and the CRC-32 of zlib are not part of the
    repository: they are the operations of a class, with the laws the code relies
    on. *)

From stdpp Require Import base list sorting strings gmap pretty.
From Stdlib Require Import ZArith Lia.
From Stdlib Require Import Strings.Ascii.
From Stdlib Require Strings.Byte.
From S2P Require Import Prelude Bytes CxxText SelectionVector DeleteAppliers.

Local Open Scope Z_scope.

Notation bytes := (list Byte.byte).

(** ** [roaring::Roaring64Map] and [crc32] *)

Class Roaring64Map := {
  bitmap : Type;
  elems : bitmap → list Z;                  (** iteration, [begin()] to [end()] *)
  write : bitmap → bytes;
  readSafe : bytes → result bitmap;
  shrinkToFit : bitmap → bitmap;
  crc32 : bytes → Z;
  elems_sorted : ∀ b, StronglySorted Z.lt (elems b);
  elems_range : ∀ b x, x ∈ elems b → in_u64 x;
  read_write : ∀ b, ∃ b', readSafe (write b) = Ok b' ∧ elems b' = elems b;
  shrink_elems : ∀ b, elems (shrinkToFit b) = elems b;
  crc32_range : ∀ l, 0 ≤ crc32 l ≤ uint32_max;
}.

(** ** Blob layout *)

(** The number is copied in host order, which is little-endian, and reversed. *)
Definition UItoLittleEndianBytes (value : Z) : bytes := rev (le_encode 4 value).

Definition substr (data : bytes) (pos n : nat) : bytes := take n (drop pos data).

Definition GetLen (data : bytes) : result Z :=
  let len := le_decode (rev (substr data 0 4)) in
  let! _ := Ensure (len + 8 =? Z.of_nat (length data)) "deletion vector blob's length doesn't match expected" in
  Ok len.

Definition kMagicSequence : bytes := [Byte.xd1; Byte.xd3; Byte.x39; Byte.x64].
Definition kMagicSequenceOffset : nat := 4.
Definition kDataOffset : nat := 8.

Definition ValidateMagicSequence (data : bytes) : result unit :=
  Ensure (bool_decide (substr data kMagicSequenceOffset 4 = kMagicSequence))
         "blob data contains wrong magic sequence".

Definition GetCheckSum (data : bytes) : Z := le_decode (rev (substr data (length data - 4) 4)).

Definition kBlobType : string := "deletion-vector-v1".
Definition kCardinality : string := "cardinality".
Definition kReferencedDataFile : string := "referenced-data-file".

Record BlobMetadata := {
  bm_type : string;
  bm_fields : list Z;
  bm_snapshot_id : Z;
  bm_sequence_number : Z;
  bm_offset : Z;
  bm_length : Z;
  compression_codec : option string;
  properties : gmap string string;
}.

Section deletion_vector.
Context `{Roaring64Map}.

Record DeletionVector := {
  bitmap_ : bitmap;
  properties_ : gmap string string;
  fields_ : list Z;
}.

(** [rank(x)]: the number of elements that are at most [x]. *)
Definition rank (b : bitmap) (x : Z) : Z := Z.of_nat (count (λ y, y <=? x) (elems b)).
Definition contains (b : bitmap) (x : Z) : bool := bool_decide (x ∈ elems b).

Definition Cardinality (b : bitmap) (l r : Z) : Z :=
  wrap_u 64 (wrap_u 64 (rank b r - rank b l) + (if contains b l then 1 else 0)).

(** The constructor from a blob. *)
Definition make_DeletionVector (blob_metadata : BlobMetadata) (blob : bytes) : result DeletionVector :=
  let size := Z.of_nat (length blob) in
  let! _ := Ensure (bool_decide (bm_type blob_metadata = kBlobType)) "Invalid blob type" in
  let! _ := Ensure (bool_decide (is_Some (properties blob_metadata !! kReferencedDataFile))) "not found" in
  let! _ := Ensure (negb (bool_decide (is_Some (properties blob_metadata !! "compression-codec"))))
                   "deletion vector blob must omit compession-codec in properties" in
  let! _ := Ensure (negb (bool_decide (is_Some (compression_codec blob_metadata))))
                   "deletion vector blob must omit compression-codec in metadata" in
  let! _ := Ensure (bm_length blob_metadata =? size) "deletion vector blob's length doesn't match metadata length" in
  let! _ := Ensure (12 <=? size) "deletion vector blob is too small" in
  let! len := GetLen blob in
  let! _ := ValidateMagicSequence blob in
  match readSafe (substr blob kDataOffset (Z.to_nat (len - 4))) with
  | Err _ => Err (Exn "Failed to deserialize deletion vector")
  | Ok b =>
      match properties blob_metadata !! kCardinality with
      | None => Err (Exn "not found")
      | Some text =>
          let! expected := stoull text in
          let! _ := Ensure (expected =? Cardinality b 0 uint64_max) "cardinality doesn't match" in
          let! _ := Ensure (crc32 (substr blob kMagicSequenceOffset (Z.to_nat len)) =? GetCheckSum blob)
                           "crc32 checksum doesn't match" in
          Ok {| bitmap_ := b; properties_ := properties blob_metadata; fields_ := bm_fields blob_metadata |}
      end
  end.

(** [GetBlob]; a bitmap too large for the length field is shrunk first. *)
Definition blob_of (b : bitmap) (len : Z) : bytes :=
  let body := kMagicSequence ++ write b in
  UItoLittleEndianBytes len ++ body ++ UItoLittleEndianBytes (crc32 (take (Z.to_nat len) body)).

Definition blob_length (b : bitmap) : Z := 4 + Z.of_nat (length (write b)).

Definition GetBlob (dv : DeletionVector) : result bytes :=
  let len := blob_length (bitmap_ dv) in
  if uint32_max <? len then
    let b := shrinkToFit (bitmap_ dv) in
    let len := blob_length b in
    let! _ := Ensure (len <=? uint32_max) "deletion vector is too big to be serialized" in
    Ok (blob_of b len)
  else Ok (blob_of (bitmap_ dv) len).

Definition GetProperties (dv : DeletionVector) : gmap string string :=
  <[kCardinality := pretty (Z.to_N (Cardinality (bitmap_ dv) 0 uint64_max))]> (properties_ dv).

(** [it.move(l)], then the elements up to [r]. *)
Fixpoint move (l : Z) (it : list Z) : list Z :=
  match it with
  | [] => []
  | x :: rest => if x <? l then move l rest else it
  end.

Fixpoint collect (r : Z) (it : list Z) : list Z :=
  match it with
  | [] => []
  | x :: rest => if x <=? r then x :: collect r rest else []
  end.

Definition GetElems (dv : DeletionVector) (l r : Z) : list Z := collect r (move l (elems (bitmap_ dv))).

(** ** DeletionVectorApplier *)

Definition GetRelativeElems (dv : DeletionVector) (start end_ : Z) : result (list Z) :=
  let! _ := Ensure (wrap_u 64 (end_ - start) <=? int32_max) "batch is too large" in
  Ok ((λ pos, wrap_s 32 (wrap_u 64 (pos - start))) <$> GetElems dv start end_).

Definition ApplyDeletionVector (dv : DeletionVector) (batch : IcebergBatch) : result IcebergBatch :=
  let start := wrap_u 64 (row_position_ batch) in
  let end_ := wrap_u 64 (wrap_u 64 (start + wrap_u 64 (num_rows batch)) - 1) in
  let! relative := GetRelativeElems dv start end_ in
  match relative with
  | [] => Ok batch
  | _ => let '(_, sv) := DeleteIfEqual relative (selection_vector_ batch) in Ok (set_selection sv batch)
  end.

(** ** Blobs *)

Lemma wrap_u_64_range v : in_u64 (wrap_u 64 v).
Proof.
  unfold in_u64, wrap_u, uint64_max. change (2 ^ 64) with 18446744073709551616.
  pose proof (Z.mod_pos_bound v 18446744073709551616 eq_refl). lia.
Qed.

Lemma Cardinality_elems b b' l r : elems b' = elems b → Cardinality b' l r = Cardinality b l r.
Proof. intros E. unfold Cardinality, rank, contains. by rewrite E. Qed.

Lemma UIto_length v : length (UItoLittleEndianBytes v) = 4%nat.
Proof. unfold UItoLittleEndianBytes. by rewrite length_rev, le_encode_length. Qed.

Lemma UIto_decode v : 0 ≤ v ≤ uint32_max → le_decode (rev (UItoLittleEndianBytes v)) = v.
Proof.
  intros Hv. unfold UItoLittleEndianBytes. rewrite rev_involutive, le_decode_encode.
  apply Z.mod_small. unfold uint32_max in Hv. change (256 ^ Z.of_nat 4) with 4294967296. lia.
Qed.

Lemma UIto_encode l : length l = 4%nat → UItoLittleEndianBytes (le_decode (rev l)) = l.
Proof.
  intros Hl. unfold UItoLittleEndianBytes.
  rewrite <- (rev_involutive l) at 2. f_equal. rewrite <- (le_encode_decode (rev l)) at 2.
  by rewrite length_rev, Hl.
Qed.

Lemma substr_app a b c pos n : length a = pos → length b = n → substr (a ++ b ++ c) pos n = b.
Proof. intros <- <-. unfold substr. by rewrite drop_app_length, take_app_length. Qed.

(** The layout of a blob: length, magic sequence, bitmap, checksum. *)
Definition layout (data : bytes) : bytes :=
  UItoLittleEndianBytes (4 + Z.of_nat (length data)) ++ (kMagicSequence ++ data) ++
  UItoLittleEndianBytes (crc32 (kMagicSequence ++ data)).

Lemma blob_of_layout b : blob_of b (blob_length b) = layout (write b).
Proof.
  unfold blob_of, layout, blob_length. do 3 f_equal. rewrite take_ge; [done|].
  rewrite length_app. simpl length. lia.
Qed.

Lemma layout_length data : length (layout data) = (12 + length data)%nat.
Proof. unfold layout. rewrite !length_app, !UIto_length. simpl length. lia. Qed.

Record layout_read (data blob : bytes) : Prop := {
  lr_len : GetLen blob = Ok (4 + Z.of_nat (length data));
  lr_magic : ValidateMagicSequence blob = Ok ();
  lr_data : substr blob kDataOffset (length data) = data;
  lr_body : substr blob kMagicSequenceOffset (4 + length data) = kMagicSequence ++ data;
  lr_crc : GetCheckSum blob = crc32 (kMagicSequence ++ data);
}.

Lemma layout_reads data :
  4 + Z.of_nat (length data) ≤ uint32_max → layout_read data (layout data).
Proof.
  intros Hlen. split.
  - assert (substr (layout data) 0 4 = UItoLittleEndianBytes (4 + Z.of_nat (length data))) as Hs
      by (apply (substr_app []); [done|apply UIto_length]).
    unfold GetLen. rewrite Hs, UIto_decode by lia. rewrite layout_length, Ensure_true; [done|]. apply Z.eqb_eq. lia.
  - unfold ValidateMagicSequence, layout. rewrite <- app_assoc.
    rewrite (substr_app _ kMagicSequence) by (done || apply UIto_length). by rewrite bool_decide_true.
  - unfold layout. rewrite <- app_assoc, (app_assoc _ kMagicSequence). apply substr_app; [|done].
    rewrite length_app, UIto_length. done.
  - unfold layout. apply substr_app; [apply UIto_length|]. rewrite length_app. done.
  - unfold GetCheckSum. rewrite layout_length. unfold layout. rewrite app_assoc.
    rewrite <- (app_nil_r (UItoLittleEndianBytes (crc32 _))).
    rewrite substr_app; [by apply UIto_decode, crc32_range| |apply UIto_length].
    rewrite !length_app, UIto_length. simpl length. lia.
Qed.

Lemma GetBlob_layout dv blob :
  GetBlob dv = Ok blob → ∃ b, elems b = elems (bitmap_ dv) ∧ blob = layout (write b) ∧ blob_length b ≤ uint32_max.
Proof.
  unfold GetBlob. destruct (Z.ltb_spec uint32_max (blob_length (bitmap_ dv))) as [Hbig|Hsmall]; intros Hb.
  - inv_ok. match goal with Hle : (_ <=? _) = true |- _ => apply Z.leb_le in Hle end.
    exists (shrinkToFit (bitmap_ dv)). by rewrite blob_of_layout, shrink_elems.
  - inv_ok. exists (bitmap_ dv). by rewrite blob_of_layout.
Qed.

(** The metadata a writer records for a blob. *)
Record describes (m : BlobMetadata) (dv : DeletionVector) (blob : bytes) : Prop := {
  ds_type : bm_type m = kBlobType;
  ds_codec : compression_codec m = None;
  ds_length : bm_length m = Z.of_nat (length blob);
  ds_properties : properties m = GetProperties dv;
}.

(** A deletion vector written with [GetBlob] and [GetProperties] is read
    back by the constructor as a vector with the same deleted rows. *)
Lemma described_reads (dv : DeletionVector) (m : BlobMetadata) (blob : bytes) :
  GetBlob dv = Ok blob → describes m dv blob →
  is_Some (properties_ dv !! kReferencedDataFile) → properties_ dv !! "compression-codec" = None →
  ∃ dv', make_DeletionVector m blob = Ok dv' ∧ elems (bitmap_ dv') = elems (bitmap_ dv) ∧
         properties_ dv' = GetProperties dv.
Proof.
  intros (b & Hb & -> & Hlen)%GetBlob_layout [Ht Hc Hl Hp] Href Hcod.
  destruct (layout_reads (write b) Hlen) as [R1 R2 R3 R4 R5]. destruct (read_write b) as (b' & Hr & Hb').
  assert (∀ k, k ≠ kCardinality → GetProperties dv !! k = properties_ dv !! k) as Hk
    by (intros k Hk; unfold GetProperties; by rewrite lookup_insert_ne).
  unfold make_DeletionVector. rewrite Ht, Hc, Hl, Hp, !Hk, Hcod by done.
  rewrite Ensure_true by by apply bool_decide_true. cbn [rbind].
  rewrite Ensure_true by by apply bool_decide_true. cbn [rbind].
  change (Ensure (negb (bool_decide (is_Some (@None string)))) _) with (Ok ()). cbn [rbind].
  rewrite Ensure_true by apply Z.eqb_refl. cbn [rbind].
  rewrite Ensure_true by (apply Z.leb_le; rewrite layout_length; lia). cbn [rbind].
  rewrite R1. cbn [rbind]. rewrite R2. cbn [rbind].
  replace (Z.to_nat (4 + Z.of_nat (length (write b)) - 4)) with (length (write b)) by lia.
  rewrite R3, Hr. assert (GetProperties dv !! kCardinality = Some _) as -> by apply lookup_insert_eq.
  rewrite stoull_to_string by apply wrap_u_64_range. cbn [rbind].
  rewrite Ensure_true; [|apply Z.eqb_eq; apply Cardinality_elems; congruence]. cbn [rbind].
  replace (Z.to_nat (4 + Z.of_nat (length (write b)))) with (4 + length (write b))%nat by lia.
  rewrite R4, R5, Ensure_true by apply Z.eqb_refl. cbn [rbind].
  eexists. split; [done|]. split; [simpl; congruence|done].
Qed.

(** The constructor accepts only blobs of the documented layout: the length
    field, the magic sequence, a bitmap that deserializes, and the checksum of
    the magic sequence and the bitmap; the recorded cardinality is the number of
    rows of the bitmap. *)
Theorem deletion_vector_accepts_only (m : BlobMetadata) (blob : bytes) (dv : DeletionVector) :
  make_DeletionVector m blob = Ok dv →
  ∃ data, blob = layout data ∧ readSafe data = Ok (bitmap_ dv) ∧ bm_type m = kBlobType ∧
    compression_codec m = None ∧ bm_length m = Z.of_nat (length blob) ∧
    ∃ text, properties m !! kCardinality = Some text ∧ stoull text = Ok (Cardinality (bitmap_ dv) 0 uint64_max).
Proof.
  unfold make_DeletionVector. intros Hm.
  apply rbind_Ok_inv in Hm as (_ & H1%Ensure_Ok_inv%bool_decide_eq_true & Hm).
  apply rbind_Ok_inv in Hm as (_ & _ & Hm). apply rbind_Ok_inv in Hm as (_ & _ & Hm).
  apply rbind_Ok_inv in Hm as (_ & H2%Ensure_Ok_inv & Hm).
  apply rbind_Ok_inv in Hm as (_ & H3%Ensure_Ok_inv%Z.eqb_eq & Hm).
  apply rbind_Ok_inv in Hm as (_ & H4%Ensure_Ok_inv%Z.leb_le & Hm).
  apply rbind_Ok_inv in Hm as (len & H5 & Hm).
  apply rbind_Ok_inv in Hm as (_ & H6%Ensure_Ok_inv%bool_decide_eq_true & Hm).
  destruct (readSafe _) as [b|] eqn:Hr; [|done].
  destruct (properties m !! kCardinality) as [text|] eqn:Ht; [|done].
  apply rbind_Ok_inv in Hm as (expected & H7 & Hm).
  apply rbind_Ok_inv in Hm as (_ & H8%Ensure_Ok_inv%Z.eqb_eq & Hm).
  apply rbind_Ok_inv in Hm as (_ & H9%Ensure_Ok_inv%Z.eqb_eq & Hm). injection Hm as <-. simpl.
  unfold GetLen in H5. inv_ok. match goal with He : (_ =? _) = true |- _ => apply Z.eqb_eq in He as Hsize end.
  set (lenb := substr blob 0 4) in *. set (len := le_decode (rev lenb)) in *.
  assert (length lenb = 4%nat) as Hl4 by (unfold lenb, substr; rewrite length_take, length_drop; lia).
  pose proof (le_decode_range (rev lenb)) as Hrange. fold len in Hrange.
  set (data := substr blob kDataOffset (Z.to_nat (len - 4))) in *.
  assert (length data = Z.to_nat (len - 4)) as Hd
    by (unfold data, substr; rewrite length_take, length_drop; unfold kDataOffset; lia).
  exists data. split; [|split; [done|]; split; [done|]; split; [|split; [done|]; exists text; split; [done|congruence]]].
  - set (body := substr blob kMagicSequenceOffset (Z.to_nat len)) in *.
    assert (body = kMagicSequence ++ data) as Hbody.
    { unfold body, data, substr, kMagicSequenceOffset, kDataOffset.
      rewrite <- H6. unfold substr, kMagicSequenceOffset.
      replace (Z.to_nat len) with (4 + Z.to_nat (len - 4))%nat by lia.
      rewrite <- (take_drop 4 (drop 4 blob)) at 1. rewrite take_app_add'; [|rewrite length_take, length_drop; lia].
      by rewrite drop_drop. }
    unfold layout. rewrite Hd. replace (4 + Z.of_nat (Z.to_nat (len - 4))) with len by lia.
    unfold len at 1. rewrite UIto_encode by done. rewrite <- Hbody, H9.
    unfold GetCheckSum. rewrite UIto_encode by (unfold substr; rewrite length_take, length_drop; lia).
    unfold lenb, body, substr, kMagicSequenceOffset. rewrite drop_0.
    rewrite <- (take_drop 4 blob) at 1. f_equal.
    rewrite <- (take_drop (Z.to_nat len) (drop 4 blob)) at 1. f_equal. rewrite drop_drop.
    rewrite (take_ge _ 4) by (rewrite length_drop; lia). f_equal. lia.
  - destruct (compression_codec m); [|done]. by rewrite bool_decide_true in H2.
Qed.

(** ** Elements of a range *)

Definition in_range (l r x : Z) : bool := (l <=? x) && (x <=? r).

Lemma GetElems_filter dv l r : GetElems dv l r = List.filter (in_range l r) (elems (bitmap_ dv)).
Proof.
  unfold GetElems. generalize (elems_sorted (bitmap_ dv)). generalize (elems (bitmap_ dv)). intros it Hs.
  assert (∀ it, StronglySorted Z.lt it → (∀ x, x ∈ it → l ≤ x) →
    collect r it = List.filter (in_range l r) it) as Hcollect.
  { clear it Hs. induction 1 as [|x it Hs IH Hall]; intros Hl; [done|]. simpl. unfold in_range at 1.
    pose proof (Hl x ltac:(by left)). destruct (Z.leb_spec l x); [|lia]. simpl.
    destruct (Z.leb_spec x r); [f_equal; apply IH; intros; apply Hl; by right|].
    symmetry. rewrite Forall_forall in Hall. destruct (List.filter _ it) as [|y k] eqn:E; [done|].
    assert (In y (List.filter (in_range l r) it)) as Hy by (rewrite E; by left).
    apply filter_In in Hy as [Hy Hr]. apply andb_true_iff in Hr as [_ Hr%Z.leb_le].
    apply list_elem_of_In in Hy. specialize (Hall y Hy). lia. }
  induction Hs as [|x it Hs IH Hall]; [done|]. cbn [move]. destruct (Z.ltb_spec x l) as [Hx|Hx].
  - rewrite IH. simpl. unfold in_range at 2. destruct (Z.leb_spec l x); [lia|done].
  - apply Hcollect; [by constructor|]. intros y [->|Hy]%elem_of_cons; [done|].
    rewrite Forall_forall in Hall. specialize (Hall y Hy). lia.
Qed.

Lemma count_add (p q h : Z → bool) l :
  (∀ x, x ∈ l → (if p x then 1 else 0) = (if q x then 1 else 0) + (if h x then 1 else 0)) →
  Z.of_nat (count p l) = Z.of_nat (count q l) + Z.of_nat (count h l).
Proof.
  induction l as [|x l IH]; intros Hx; [done|]. rewrite !count_cons.
  specialize (IH ltac:(intros; apply Hx; by right)). specialize (Hx x ltac:(by left)).
  destruct (p x), (q x), (h x); lia.
Qed.

Lemma count_eq_elem l x : StronglySorted Z.lt l → count (λ y, y =? x) l = if bool_decide (x ∈ l) then 1%nat else 0%nat.
Proof.
  induction 1 as [|y l Hs IH Hall]; [done|]. rewrite count_cons, IH. rewrite Forall_forall in Hall.
  destruct (Z.eqb_spec y x) as [->|Hne].
  - rewrite (bool_decide_true (x ∈ x :: l)) by by left. rewrite bool_decide_false; [done|].
    intros Hin. specialize (Hall x Hin). lia.
  - assert (x ∈ y :: l ↔ x ∈ l) as Hiff by (rewrite elem_of_cons; naive_solver).
    by rewrite (bool_decide_ext _ _ Hiff).
Qed.

(** [Cardinality(l, r)] is the number of rows that [GetElems(l, r)] returns,
    which are the deleted rows of the closed range in ascending order. *)
Theorem deletion_vector_range (dv : DeletionVector) (l r : Z) :
  l ≤ r → Z.of_nat (length (elems (bitmap_ dv))) ≤ uint64_max →
  GetElems dv l r = List.filter (in_range l r) (elems (bitmap_ dv)) ∧
  Cardinality (bitmap_ dv) l r = Z.of_nat (length (GetElems dv l r)).
Proof.
  intros Hlr Hsize. split; [apply GetElems_filter|]. rewrite GetElems_filter.
  change (length (List.filter (in_range l r) (elems (bitmap_ dv)))) with
    (count (in_range l r) (elems (bitmap_ dv))).
  unfold Cardinality, rank, contains. set (it := elems (bitmap_ dv)) in *.
  assert (Z.of_nat (count (λ y, y <=? r) it) =
    Z.of_nat (count (λ y, y <? l) it) + Z.of_nat (count (in_range l r) it)) as H1.
  { apply count_add. intros x _. unfold in_range.
    destruct (Z.leb_spec x r), (Z.ltb_spec x l), (Z.leb_spec l x); simpl; lia. }
  assert (Z.of_nat (count (λ y, y <=? l) it) =
    Z.of_nat (count (λ y, y <? l) it) + Z.of_nat (count (λ y, y =? l) it)) as H2.
  { apply count_add. intros x _. destruct (Z.leb_spec x l), (Z.ltb_spec x l), (Z.eqb_spec x l); lia. }
  rewrite (count_eq_elem it l (elems_sorted _)) in H2.
  assert (count (in_range l r) it ≤ length it)%nat as H3 by apply List.filter_length_le.
  unfold wrap_u. rewrite Zplus_mod_idemp_l. rewrite Z.mod_small.
  - destruct (bool_decide (l ∈ it)); lia.
  - unfold uint64_max in Hsize. change (2 ^ 64) with 18446744073709551616. destruct (bool_decide (l ∈ it)); lia.
Qed.

(** ** The applier *)

Definition max_batch : Z := 2147483648.

Lemma applier_window b :
  batch_ok b → let start := wrap_u 64 (row_position_ b) in
  let end_ := wrap_u 64 (wrap_u 64 (start + wrap_u 64 (num_rows b)) - 1) in
  start = row_position_ b ∧
  wrap_u 64 (end_ - start) = (if num_rows b =? 0 then uint64_max else num_rows b - 1) ∧
  (1 ≤ num_rows b → end_ = row_position_ b + num_rows b - 1).
Proof.
  intros [Hn [Hlo Hhi] _ _]. unfold int64_max in Hhi. unfold wrap_u, uint64_max.
  change (2 ^ 64) with 18446744073709551616. cbn zeta.
  rewrite (Z.mod_small (row_position_ b)), (Z.mod_small (num_rows b)), (Z.mod_small (_ + _)) by lia.
  split; [done|]. destruct (Z.eqb_spec (num_rows b) 0) as [->|Hne].
  - split; [|lia]. rewrite Zminus_mod_idemp_l.
    replace (row_position_ b + 0 - 1 - row_position_ b) with (-1) by lia. done.
  - rewrite !Z.mod_small by (rewrite ?Z.mod_small by lia; lia). lia.
Qed.

Lemma ApplyDeletionVector_spec (dv : DeletionVector) (b : IcebergBatch) :
  batch_ok b → 1 ≤ num_rows b ≤ max_batch →
  ∃ sv, ApplyDeletionVector dv b = Ok (set_selection sv b) ∧ sv `sublist_of` selection_vector_ b ∧
        ∀ i, i ∈ sv ↔ i ∈ selection_vector_ b ∧ row_position_ b + i ∉ elems (bitmap_ dv).
Proof.
  intros Hb [Hn1 Hn2]. destruct (applier_window b Hb) as (Hs & Hw & He). specialize (He Hn1).
  unfold ApplyDeletionVector. rewrite He, Hs. rewrite He, Hs in Hw. unfold GetRelativeElems.
  destruct (Z.eqb_spec (num_rows b) 0); [lia|].
  rewrite Hw, Ensure_true by (apply Z.leb_le; unfold int32_max, max_batch in *; lia). cbn [rbind].
  rewrite GetElems_filter. set (o := row_position_ b) in *. set (n' := o + num_rows b - 1) in *.
  assert ((λ pos, wrap_s 32 (wrap_u 64 (pos - o))) <$> List.filter (in_range o n') (elems (bitmap_ dv)) =
    (λ pos, pos - o) <$> List.filter (in_range o n') (elems (bitmap_ dv))) as ->.
  { apply list_fmap_ext. intros k x Hk%list_elem_of_lookup_2.
    rewrite list_elem_of_In, filter_In in Hk. destruct Hk as [_ Hk].
    apply andb_true_iff in Hk as [Hk1%Z.leb_le Hk2%Z.leb_le].
    unfold wrap_u. rewrite Z.mod_small by (change (2 ^ 64) with 18446744073709551616; unfold max_batch in *; lia).
    apply wrap_s_32_id. unfold in_i32, int32_min, int32_max, max_batch in *. lia. }
  set (rel := (λ pos, pos - o) <$> List.filter (in_range o n') (elems (bitmap_ dv))).
  assert (StronglySorted Z.le rel) as Hsorted.
  { apply relative_sorted. unfold rel. pose proof (elems_sorted (bitmap_ dv)) as Hel.
    induction Hel as [|x it Hel IH Hall]; simpl; [constructor|]. destruct (in_range o n' x); [|done].
    constructor; [done|]. rewrite Forall_forall in Hall |- *. intros y Hy. apply Hall.
    rewrite list_elem_of_In, filter_In in Hy. apply list_elem_of_In. tauto. }
  assert (∀ i, i ∈ selection_vector_ b → mem rel i = bool_decide (o + i ∈ elems (bitmap_ dv))) as Hmem.
  { intros i Hi%(bk_selected b Hb). apply bool_decide_ext. unfold rel. rewrite list_elem_of_fmap. split.
    - intros (x & -> & Hx). replace (o + (x - o)) with x by lia.
      rewrite list_elem_of_In, filter_In in Hx. apply list_elem_of_In. tauto.
    - intros Hx. exists (o + i). split; [lia|]. rewrite list_elem_of_In, filter_In. split; [by apply list_elem_of_In|].
      apply andb_true_iff. rewrite !Z.leb_le. lia. }
  exists (List.filter (λ i, negb (mem rel i)) (selection_vector_ b)). split; [|split].
  - pose proof (DeleteIfEqual_filter rel _ (bk_sorted b Hb) Hsorted) as Hd. destruct rel as [|x rel'].
    + rewrite List.forallb_filter_id; [by destruct b|]. by apply forallb_forall.
    + by rewrite Hd.
  - apply sublist_filter_l.
  - intros i. rewrite list_elem_of_In, filter_In, <- list_elem_of_In, negb_true_iff.
    split; intros [Hi Hm]; (split; [done|]).
    + rewrite Hmem in Hm by done. by apply bool_decide_eq_false in Hm.
    + rewrite Hmem by done. by apply bool_decide_eq_false.
Qed.

(** The applier takes out of the selection of a batch exactly the rows that
    the deletion vector lists at their position in the data file. *)
Theorem deletion_vector_applier_exact (dv : DeletionVector) (b : IcebergBatch) :
  batch_ok b → 1 ≤ num_rows b ≤ max_batch →
  ∃ sv, ApplyDeletionVector dv b = Ok (set_selection sv b) ∧ sv `sublist_of` selection_vector_ b ∧
        ∀ i, i ∈ sv ↔ i ∈ selection_vector_ b ∧ row_position_ b + i ∉ elems (bitmap_ dv).
Proof. apply ApplyDeletionVector_spec. Qed.

(** A batch without rows, or of more than 2^31 rows, is rejected. *)
Theorem deletion_vector_applier_rejects (dv : DeletionVector) (b : IcebergBatch) :
  batch_ok b → (num_rows b = 0 ∨ max_batch < num_rows b) →
  ApplyDeletionVector dv b = Err (Exn "batch is too large").
Proof.
  intros Hb Hn. destruct (applier_window b Hb) as (_ & Hw & _).
  unfold ApplyDeletionVector, GetRelativeElems. rewrite Hw.
  destruct (Z.leb_spec (if num_rows b =? 0 then uint64_max else num_rows b - 1) int32_max) as [Hle|]; [|done].
  exfalso. unfold int32_max, uint64_max, max_batch in *. destruct (Z.eqb_spec (num_rows b) 0); lia.
Qed.
End deletion_vector.

(** ** An instance: one byte per row, non-zero when the row is deleted *)

Module PlainBitmap.
Definition plain_elems (b : bytes) : list Z :=
  List.filter (λ x, (x <=? uint64_max) && negb (bool_decide (b !! Z.to_nat x = Some Byte.x00)))
              (Set_ (length b)).

Lemma plain_sorted b : StronglySorted Z.lt (plain_elems b).
Proof.
  unfold plain_elems. assert (StronglySorted Z.lt (Set_ (length b))) as Hs.
  { unfold Set_. generalize 0%nat. generalize (length b) as n. induction n as [|n IH]; intros s; simpl; constructor; [done|].
    apply Forall_forall. intros x (y & -> & Hy%elem_of_seq)%list_elem_of_fmap. lia. }
  induction Hs as [|x l Hs IH Hall]; simpl; [constructor|]. case_match; [|done]. constructor; [done|].
  rewrite Forall_forall in Hall |- *. intros y Hy. apply Hall. rewrite list_elem_of_In, filter_In in Hy.
  apply list_elem_of_In. tauto.
Qed.

Lemma plain_range b x : x ∈ plain_elems b → in_u64 x.
Proof.
  unfold plain_elems. rewrite list_elem_of_In, filter_In, <- list_elem_of_In.
  intros [(y & -> & _)%list_elem_of_fmap [Hx%Z.leb_le _]%andb_true_iff]. unfold in_u64. lia.
Qed.

Lemma plain_crc_range l : 0 ≤ le_decode (take 4 l) ≤ uint32_max.
Proof.
  pose proof (le_decode_range (take 4 l)) as Hr. assert (length (take 4 l) ≤ 4)%nat by (rewrite length_take; lia).
  pose proof (Z.pow_le_mono_r 256 (Z.of_nat (length (take 4 l))) 4 ltac:(lia) ltac:(lia)).
  unfold uint32_max. change (256 ^ 4) with 4294967296 in *. lia.
Qed.

#[local] Instance plain_bitmap : Roaring64Map := {|
  bitmap := bytes; elems := plain_elems; write := id; readSafe := Ok; shrinkToFit := id;
  crc32 := λ l, le_decode (take 4 l);
  elems_sorted := plain_sorted; elems_range := plain_range;
  read_write := λ b, ex_intro _ b (conj eq_refl eq_refl); shrink_elems := λ _, eq_refl;
  crc32_range := plain_crc_range |}.

(** Rows 1 and 3 are deleted. *)
Definition dv : DeletionVector :=
  {| bitmap_ := ([Byte.x00; Byte.x01; Byte.x00; Byte.x01] : bitmap);
     properties_ := {[ kReferencedDataFile := "a.parquet" ]}; fields_ := [2147483546] |}.
Definition blob : bytes := match GetBlob dv with Ok b => b | Err _ => [] end.
Definition meta : BlobMetadata :=
  {| bm_type := kBlobType; bm_fields := []; bm_snapshot_id := 1; bm_sequence_number := 1; bm_offset := 4;
     bm_length := Z.of_nat (length blob); compression_codec := None; properties := GetProperties dv |}.
Definition batch (n : Z) : IcebergBatch := AppliersExample.batch 0 0 "a" 1 n.
End PlainBitmap.

#[local] Existing Instance PlainBitmap.plain_bitmap.

Lemma deletion_vector_accepts_only_witness :
  ∃ data, PlainBitmap.blob = layout data ∧ readSafe data = Ok (bitmap_ PlainBitmap.dv) ∧
    bm_type PlainBitmap.meta = kBlobType ∧ compression_codec PlainBitmap.meta = None ∧
    bm_length PlainBitmap.meta = Z.of_nat (length PlainBitmap.blob) ∧
    ∃ text, properties PlainBitmap.meta !! kCardinality = Some text ∧
            stoull text = Ok (Cardinality (bitmap_ PlainBitmap.dv) 0 uint64_max).
Proof.
  apply (deletion_vector_accepts_only PlainBitmap.meta PlainBitmap.blob
    {| bitmap_ := bitmap_ PlainBitmap.dv; properties_ := GetProperties PlainBitmap.dv; fields_ := [] |}).
  reflexivity.
Defined.

Lemma deletion_vector_range_witness :
  GetElems PlainBitmap.dv 1 2 = List.filter (in_range 1 2) (elems (bitmap_ PlainBitmap.dv)) ∧
  Cardinality (bitmap_ PlainBitmap.dv) 1 2 = 1.
Proof.
  apply (deletion_vector_range PlainBitmap.dv 1 2); vm_compute; discriminate.
Defined.

Lemma example_batch_ok n : 0 ≤ n ≤ int64_max - 1 → batch_ok (PlainBitmap.batch n).
Proof.
  intros Hn. split; simpl; [lia|split; [lia|lia]|apply Set_sorted|].
  intros i (y & -> & Hy%elem_of_seq)%list_elem_of_fmap. lia.
Qed.

Lemma deletion_vector_applier_exact_witness :
  ApplyDeletionVector PlainBitmap.dv (PlainBitmap.batch 4) = Ok (set_selection [1; 3] (PlainBitmap.batch 4)) ∧
  ∃ sv, ApplyDeletionVector PlainBitmap.dv (PlainBitmap.batch 4) = Ok (set_selection sv (PlainBitmap.batch 4)) ∧
        sv `sublist_of` selection_vector_ (PlainBitmap.batch 4) ∧
        ∀ i, i ∈ sv ↔ i ∈ selection_vector_ (PlainBitmap.batch 4) ∧ 1 + i ∉ elems (bitmap_ PlainBitmap.dv).
Proof.
  split; [vm_compute; reflexivity|].
  apply (deletion_vector_applier_exact PlainBitmap.dv (PlainBitmap.batch 4)).
  - apply example_batch_ok. vm_compute. split; discriminate.
  - vm_compute. split; discriminate.
Defined.

Lemma deletion_vector_applier_rejects_witness :
  ApplyDeletionVector PlainBitmap.dv (PlainBitmap.batch 0) = Err (Exn "batch is too large").
Proof.
  apply (deletion_vector_applier_rejects PlainBitmap.dv (PlainBitmap.batch 0)).
  - apply example_batch_ok. vm_compute. split; discriminate.
  - by left.
Defined.
