(* ===== verification/DeletionVectorEdits.v ===== *)
(** * DeletionVectorEdits: changing a deletion vector

    The operations of class [DeletionVector] of [iceberg/deletion_vector.cpp] that add and
    remove rows, and the queries of a vector.  They forward to the Roaring bitmap, whose
    changes are the operations of a class with their documented meaning. *)

From stdpp Require Import base list sorting strings gmap.
From Stdlib Require Import ZArith Lia.
From Stdlib Require Strings.Byte.
From S2P Require Import Prelude Bytes DeletionVector.

Local Open Scope Z_scope.

(** ** The changes of [roaring::Roaring64Map] *)

Class RoaringEdits `{Roaring64Map} := {
  addChecked : Z → bitmap → bool * bitmap;
  removeChecked : Z → bitmap → bool * bitmap;
  addMany : list Z → bitmap → bitmap;
  addRangeClosed : Z → Z → bitmap → bitmap;
  removeRangeClosed : Z → Z → bitmap → bitmap;
  bitmap_clear : bitmap → bitmap;
  isEmpty : bitmap → bool;
  maximum : bitmap → Z;
  minimum : bitmap → Z;
  add_elems : ∀ x b y, in_u64 x → y ∈ elems (addChecked x b).2 ↔ y = x ∨ y ∈ elems b;
  add_new : ∀ x b, in_u64 x → (addChecked x b).1 = true ↔ x ∉ elems b;
  remove_elems : ∀ x b y, y ∈ elems (removeChecked x b).2 ↔ y ≠ x ∧ y ∈ elems b;
  remove_old : ∀ x b, (removeChecked x b).1 = true ↔ x ∈ elems b;
  many_elems : ∀ xs b y, Forall in_u64 xs → y ∈ elems (addMany xs b) ↔ y ∈ xs ∨ y ∈ elems b;
  add_range_elems : ∀ l r b y, in_u64 l → in_u64 r → y ∈ elems (addRangeClosed l r b) ↔ l ≤ y ≤ r ∨ y ∈ elems b;
  remove_range_elems : ∀ l r b y, y ∈ elems (removeRangeClosed l r b) ↔ ¬ (l ≤ y ≤ r) ∧ y ∈ elems b;
  clear_elems : ∀ b, elems (bitmap_clear b) = [];
  empty_elems : ∀ b, isEmpty b = true ↔ elems b = [];
  maximum_elem : ∀ b, elems b ≠ [] → maximum b ∈ elems b ∧ ∀ y, y ∈ elems b → y ≤ maximum b;
  minimum_elem : ∀ b, elems b ≠ [] → minimum b ∈ elems b ∧ ∀ y, y ∈ elems b → minimum b ≤ y;
}.

(** ** The operations *)

Section edits.
Context `{RoaringEdits}.

Definition set_bitmap (b : bitmap) (dv : DeletionVector) : DeletionVector :=
  {| bitmap_ := b; properties_ := properties_ dv; fields_ := fields_ dv |}.

Definition Add (x : Z) (dv : DeletionVector) : bool * DeletionVector :=
  let '(changed, b) := addChecked x (bitmap_ dv) in (changed, set_bitmap b dv).
Definition Remove (x : Z) (dv : DeletionVector) : bool * DeletionVector :=
  let '(changed, b) := removeChecked x (bitmap_ dv) in (changed, set_bitmap b dv).
Definition Contains (dv : DeletionVector) (x : Z) : bool := contains (bitmap_ dv) x.
Definition AddMany (vals : list Z) (dv : DeletionVector) : DeletionVector := set_bitmap (addMany vals (bitmap_ dv)) dv.
Definition AddRange (l r : Z) (dv : DeletionVector) : DeletionVector := set_bitmap (addRangeClosed l r (bitmap_ dv)) dv.
Definition RemoveRange (l r : Z) (dv : DeletionVector) : DeletionVector := set_bitmap (removeRangeClosed l r (bitmap_ dv)) dv.
Definition Clear (dv : DeletionVector) : DeletionVector := set_bitmap (bitmap_clear (bitmap_ dv)) dv.
Definition Empty (dv : DeletionVector) : bool := isEmpty (bitmap_ dv).
Definition Max (dv : DeletionVector) : option Z := if Empty dv then None else Some (maximum (bitmap_ dv)).
Definition Min (dv : DeletionVector) : option Z := if Empty dv then None else Some (minimum (bitmap_ dv)).

(** The constructor from a bitmap; [GetFields]. *)
Definition of_bitmap (m : BlobMetadata) (b : bitmap) : DeletionVector :=
  {| bitmap_ := b; properties_ := properties m; fields_ := bm_fields m |}.
Definition GetFields (dv : DeletionVector) : list Z := fields_ dv.

(** ** Sequences of changes *)

Inductive edit :=
  | EAdd (x : Z) | ERemove (x : Z) | EAddMany (vals : list Z) | EAddRange (l r : Z) | ERemoveRange (l r : Z) | EClear.

Definition edit_ok (e : edit) : Prop :=
  match e with
  | EAdd x | ERemove x => in_u64 x
  | EAddMany vals => Forall in_u64 vals
  | EAddRange l r | ERemoveRange l r => in_u64 l ∧ in_u64 r
  | EClear => True
  end.

Definition apply (dv : DeletionVector) (e : edit) : DeletionVector :=
  match e with
  | EAdd x => (Add x dv).2
  | ERemove x => (Remove x dv).2
  | EAddMany vals => AddMany vals dv
  | EAddRange l r => AddRange l r dv
  | ERemoveRange l r => RemoveRange l r dv
  | EClear => Clear dv
  end.

(** The specification: what a change says of one row, if it says anything. *)
Definition verdict (e : edit) (x : Z) : option bool :=
  match e with
  | EAdd y => if x =? y then Some true else None
  | ERemove y => if x =? y then Some false else None
  | EAddMany vals => if bool_decide (x ∈ vals) then Some true else None
  | EAddRange l r => if in_range l r x then Some true else None
  | ERemoveRange l r => if in_range l r x then Some false else None
  | EClear => Some false
  end.

(** The last change that says something of the row decides. *)
Definition deleted_after (es : list edit) (before : bool) (x : Z) : bool := foldl (λ d e, default d (verdict e x)) before es.

Lemma in_range_true l r x : in_range l r x = true ↔ l ≤ x ≤ r.
Proof. unfold in_range. rewrite andb_true_iff, !Z.leb_le. done. Qed.

Local Ltac by_row := cbn; rewrite ?bool_decide_eq_true; intuition congruence.

Lemma apply_verdict dv e x : edit_ok e → Contains (apply dv e) x = default (Contains dv x) (verdict e x).
Proof.
  intros He. apply Bool.eq_iff_eq_true. unfold Contains, contains. rewrite bool_decide_eq_true. destruct e; cbn in *; unfold Add, Remove.
  - pose proof (add_elems x0 (bitmap_ dv) x He) as Ha. destruct (addChecked _ _). cbn in *. rewrite Ha.
    destruct (Z.eqb_spec x x0); by_row.
  - pose proof (remove_elems x0 (bitmap_ dv) x) as Ha. destruct (removeChecked _ _). cbn in *. rewrite Ha.
    destruct (Z.eqb_spec x x0); by_row.
  - rewrite many_elems by done. destruct (bool_decide_reflect (x ∈ vals)); by_row.
  - rewrite add_range_elems, <- in_range_true by tauto. destruct (in_range l r x); by_row.
  - rewrite remove_range_elems, <- in_range_true. destruct (in_range l r x); by_row.
  - rewrite clear_elems, elem_of_nil. done.
Qed.

Lemma apply_properties dv e : properties_ (apply dv e) = properties_ dv ∧ fields_ (apply dv e) = fields_ dv.
Proof. destruct e; cbn; unfold Add, Remove; by repeat case_match. Qed.

Lemma applied es dv :
  Forall edit_ok es →
  (∀ x, Contains (foldl apply dv es) x = deleted_after es (Contains dv x) x) ∧
  properties_ (foldl apply dv es) = properties_ dv ∧ fields_ (foldl apply dv es) = fields_ dv.
Proof.
  intros Hes. revert dv. induction Hes as [|e es He _ IH]; intros dv; [done|]. cbn. destruct (IH (apply dv e)) as (Hc & Hp & Hf).
  destruct (apply_properties dv e) as [Hp' Hf']. rewrite Hp, Hf, Hp', Hf'. split; [|done]. intros x. by rewrite Hc, apply_verdict.
Qed.

(** [Add] and [Remove] say whether they changed the vector; [Min], [Max] and [Empty] are
    those of the deleted rows. *)
Theorem vector_queries (dv : DeletionVector) (x : Z) :
  (in_u64 x → (Add x dv).1 = negb (Contains dv x)) ∧ (Remove x dv).1 = Contains dv x ∧
  (Empty dv = true ↔ ∀ y, Contains dv y = false) ∧
  (Min dv = None ↔ Empty dv = true) ∧ (Max dv = None ↔ Empty dv = true) ∧
  (∀ lo hi, Min dv = Some lo → Max dv = Some hi →
     Contains dv lo = true ∧ Contains dv hi = true ∧ ∀ y, Contains dv y = true → lo ≤ y ≤ hi).
Proof.
  assert (∀ y, Contains dv y = true ↔ y ∈ elems (bitmap_ dv)) as Hc by (intros; apply bool_decide_eq_true).
  assert (Empty dv = true ↔ elems (bitmap_ dv) = []) as He by apply empty_elems.
  split; [|split; [|split; [|split; [|split]]]].
  - intros Hx. apply Bool.eq_iff_eq_true. unfold Add. pose proof (add_new x (bitmap_ dv) Hx) as Ha. destruct (addChecked _ _). cbn in *.
    by rewrite Ha, negb_true_iff, <- Hc, not_true_iff_false.
  - apply Bool.eq_iff_eq_true. unfold Remove. pose proof (remove_old x (bitmap_ dv)) as Ha. destruct (removeChecked _ _). cbn in *. by rewrite Ha, Hc.
  - rewrite He. split.
    + intros E y. apply not_true_iff_false. rewrite Hc, E. apply not_elem_of_nil.
    + intros Hn. destruct (elems (bitmap_ dv)) as [|y l] eqn:E; [done|]. pose proof (Hn y) as Hy.
      apply not_true_iff_false in Hy. rewrite Hc in Hy. destruct Hy. by left.
  - unfold Min. by destruct (Empty dv).
  - unfold Max. by destruct (Empty dv).
  - unfold Min, Max. intros lo hi. destruct (Empty dv) eqn:E; [done|]. intros [= <-] [= <-].
    assert (elems (bitmap_ dv) ≠ []) as Hne by (intros Hn; apply He in Hn; congruence). setoid_rewrite Hc.
    destruct (maximum_elem _ Hne), (minimum_elem _ Hne). naive_solver.
Qed.

(** A vector that was changed, written with [GetBlob] and [GetProperties] and read
    back deletes a row exactly when the last change that names the row deletes it, or, if
    none does, when the vector deleted it before. *)
Theorem edited_vector_roundtrip (dv : DeletionVector) (es : list edit) (m : BlobMetadata) (blob : bytes) :
  Forall edit_ok es → GetBlob (foldl apply dv es) = Ok blob → describes m (foldl apply dv es) blob →
  is_Some (properties_ dv !! kReferencedDataFile) → properties_ dv !! "compression-codec" = None →
  ∃ dv', make_DeletionVector m blob = Ok dv' ∧ ∀ x, Contains dv' x = deleted_after es (Contains dv x) x.
Proof.
  intros Hes Hb Hm Href Hcod. destruct (applied es dv Hes) as (Hc & Hp & _). rewrite <- Hp in Href, Hcod.
  destruct (described_reads _ m blob Hb Hm Href Hcod) as (dv' & Hdv & He & _). exists dv'. split; [done|].
  intros x. rewrite <- Hc. unfold Contains, contains. by rewrite He.
Qed.

End edits.

(** ** An instance: the rows in eight bytes each *)

Module RowList.
Definition row_elems (l : list Z) : list Z := merge_sort Z.le (remove_dups (List.filter (in_range 0 uint64_max) l)).

Fixpoint decode_rows (n : nat) (data : bytes) : list Z :=
  match n with O => [] | S n => le_decode (take 8 data) :: decode_rows n (drop 8 data) end.
Definition encode_rows (l : list Z) : bytes := flat_map (le_encode 8) l.

Lemma elem_of_rows l x : x ∈ row_elems l ↔ x ∈ l ∧ in_u64 x.
Proof.
  unfold row_elems. rewrite merge_sort_Permutation, elem_of_remove_dups, !list_elem_of_In, filter_In.
  by rewrite in_range_true.
Qed.

Lemma rows_sorted l : StronglySorted Z.lt (row_elems l).
Proof.
  pose proof (StronglySorted_merge_sort Z.le (remove_dups (List.filter (in_range 0 uint64_max) l))) as Hs.
  assert (NoDup (row_elems l)) as Hn by (unfold row_elems; rewrite merge_sort_Permutation; apply NoDup_remove_dups).
  unfold row_elems in *. induction Hs as [|x r Hs IH Hall]; [constructor|]. apply NoDup_cons in Hn as [Hx Hn]. constructor; [by apply IH|].
  rewrite Forall_forall in Hall |- *. intros y Hy. specialize (Hall y Hy). assert (x ≠ y) by (by intros ->). lia.
Qed.

Lemma rows_unique l1 l2 : (∀ x, x ∈ row_elems l1 ↔ x ∈ row_elems l2) → row_elems l1 = row_elems l2.
Proof.
  intros Hx. eapply (StronglySorted_unique Z.le); [apply StronglySorted_merge_sort; apply _..|].
  unfold row_elems in *. apply NoDup_Permutation; [rewrite merge_sort_Permutation; apply NoDup_remove_dups..|done].
Qed.

Lemma decode_encode_rows l : Forall in_u64 l → decode_rows (length l) (encode_rows l) = l.
Proof.
  induction 1 as [|x l Hx _ IH]; [done|]. cbn [length encode_rows flat_map decode_rows]. fold (encode_rows l).
  rewrite take_app_length', drop_app_length', IH by (by rewrite le_encode_length). f_equal.
  rewrite le_decode_encode. apply Z.mod_small. unfold in_u64, uint64_max in Hx. lia.
Qed.

Lemma encode_rows_length l : length (encode_rows l) = (8 * length l)%nat.
Proof. induction l as [|x l IH]; [done|]. unfold encode_rows in *. cbn [flat_map length]. rewrite length_app, le_encode_length, IH. lia. Qed.

Lemma rows_read_write b :
  ∃ b', Ok (decode_rows (length (encode_rows (row_elems b)) / 8) (encode_rows (row_elems b))) = @Ok (list Z) b' ∧ row_elems b' = row_elems b.
Proof.
  eexists. split; [done|]. rewrite encode_rows_length, Nat.mul_comm, Nat.div_mul by done.
  rewrite decode_encode_rows by (apply Forall_forall; intros x [_ Hx]%elem_of_rows; done).
  apply rows_unique. intros x. rewrite !elem_of_rows. tauto.
Qed.

#[local] Instance row_bitmap : Roaring64Map := {|
  bitmap := list Z; elems := row_elems; write := λ b, encode_rows (row_elems b);
  readSafe := λ data, Ok (decode_rows (length data / 8) data); shrinkToFit := id;
  crc32 := λ l, le_decode (take 4 l);
  elems_sorted := rows_sorted; elems_range := λ b x Hx, proj2 (proj1 (elem_of_rows b x) Hx);
  read_write := rows_read_write; shrink_elems := λ _, eq_refl;
  crc32_range := PlainBitmap.plain_crc_range |}.

Definition without (p : Z → bool) (b : list Z) : list Z := List.filter (λ x, negb (p x)) b.
Definition rows (l r : Z) : list Z := (λ i, l + Z.of_nat i) <$> seq 0 (Z.to_nat (r - l + 1)).

Lemma elem_of_without p b x : x ∈ row_elems (without p b) ↔ p x = false ∧ x ∈ row_elems b.
Proof. unfold without. rewrite !elem_of_rows, !list_elem_of_In, filter_In, negb_true_iff. tauto. Qed.

Lemma elem_of_range l r x : x ∈ rows l r ↔ l ≤ x ≤ r.
Proof.
  unfold rows. rewrite list_elem_of_fmap. split.
  - intros (i & -> & Hi%elem_of_seq). lia.
  - intros Hx. exists (Z.to_nat (x - l)). split; [lia|]. apply elem_of_seq. lia.
Qed.

Lemma elem_of_add l b x : Forall in_u64 l → x ∈ row_elems (l ++ b) ↔ x ∈ l ∨ x ∈ row_elems b.
Proof. rewrite Forall_forall. intros Hl. rewrite !elem_of_rows, elem_of_app. naive_solver. Qed.

Lemma range_ok l r : in_u64 l → in_u64 r → Forall in_u64 (rows l r).
Proof. intros Hl Hr. apply Forall_forall. intros x Hx%elem_of_range. unfold in_u64 in *. lia. Qed.

#[local] Program Instance row_edits : RoaringEdits := {|
  addChecked := λ x b, (bool_decide (x ∉ row_elems b), [x] ++ b);
  removeChecked := λ x b, (bool_decide (x ∈ row_elems b), without (Z.eqb x) b);
  addMany := λ xs b, xs ++ b;
  addRangeClosed := λ l r b, rows l r ++ b;
  removeRangeClosed := λ l r b, without (in_range l r) b;
  bitmap_clear := λ _, [];
  isEmpty := λ b, bool_decide (row_elems b = []);
  maximum := λ b, default 0 (last (row_elems b));
  minimum := λ b, default 0 (head (row_elems b)) |}.
Next Obligation. intros x b y Hx. change (y ∈ row_elems ([x] ++ b) ↔ y = x ∨ y ∈ row_elems b). rewrite elem_of_add by by apply Forall_singleton. by rewrite list_elem_of_singleton. Qed.
Next Obligation. intros x b Hx. cbn. apply bool_decide_eq_true. Qed.
Next Obligation. intros x b y. change (y ∈ row_elems (without (Z.eqb x) b) ↔ y ≠ x ∧ y ∈ row_elems b). rewrite elem_of_without, Z.eqb_neq. naive_solver. Qed.
Next Obligation. intros x b. cbn. apply bool_decide_eq_true. Qed.
Next Obligation. intros xs b y Hxs. cbn. by apply elem_of_add. Qed.
Next Obligation. intros l r b y Hl Hr. change (y ∈ row_elems (rows l r ++ b) ↔ l ≤ y ≤ r ∨ y ∈ row_elems b). rewrite elem_of_add by by apply range_ok. by rewrite elem_of_range. Qed.
Next Obligation. intros l r b y. change (y ∈ row_elems (without (in_range l r) b) ↔ ¬ (l ≤ y ≤ r) ∧ y ∈ row_elems b). by rewrite elem_of_without, <- not_true_iff_false, in_range_true. Qed.
Next Obligation. done. Qed.
Next Obligation. intros b. cbn. apply bool_decide_eq_true. Qed.
Next Obligation.
  intros b Hne. cbn in *. pose proof (rows_sorted b) as Hs. destruct (row_elems b) as [|z r _] using rev_ind; [done|].
  rewrite last_snoc. cbn. split; [apply elem_of_app; right; by left|]. intros y [Hy|Hy]%elem_of_app.
  - apply StronglySorted_app in Hs as (Hlt & _). specialize (Hlt y z Hy ltac:(by left)). lia.
  - apply list_elem_of_singleton in Hy as ->. done.
Qed.
Next Obligation.
  intros b Hne. cbn in *. pose proof (rows_sorted b) as Hs. destruct (row_elems b) as [|z r]; [done|]. cbn. split; [by left|].
  apply StronglySorted_inv in Hs as [_ Hall]. rewrite Forall_forall in Hall. intros y [->|Hy]%elem_of_cons; [done|].
  specialize (Hall y Hy). lia.
Qed.

Definition dv : DeletionVector :=
  {| bitmap_ := ([1; 3] : bitmap); properties_ := {[ kReferencedDataFile := "a.parquet" ]}; fields_ := [2147483546] |}.
Definition changes : list edit := [EAddRange 5 9; ERemove 7; EAdd 3; EAddMany [20; 7]; ERemoveRange 0 2].
Definition changed : DeletionVector := foldl apply dv changes.
Definition blob : bytes := match GetBlob changed with Ok b => b | Err _ => [] end.
Definition meta : BlobMetadata :=
  {| bm_type := kBlobType; bm_fields := []; bm_snapshot_id := 1; bm_sequence_number := 1; bm_offset := 4;
     bm_length := Z.of_nat (length blob); compression_codec := None; properties := GetProperties changed |}.
End RowList.

#[local] Existing Instance RowList.row_bitmap.
#[local] Existing Instance RowList.row_edits.

Lemma edited_vector_roundtrip_witness :
  elems (bitmap_ RowList.changed) = [3; 5; 6; 7; 8; 9; 20] ∧
  ∃ dv', make_DeletionVector RowList.meta RowList.blob = Ok dv' ∧
    ∀ x, Contains dv' x = deleted_after RowList.changes (Contains RowList.dv x) x.
Proof.
  split; [vm_compute; reflexivity|]. apply (edited_vector_roundtrip RowList.dv RowList.changes RowList.meta RowList.blob).
  - unfold RowList.changes. repeat (apply Forall_cons; split); try apply Forall_nil; cbn; unfold in_u64; repeat split; try done.
  - vm_compute. reflexivity.
  - split; reflexivity.
  - eexists. reflexivity.
  - reflexivity.
Defined.
