(* ===== verification/FileReading.v ===== *)
(** * FileReading: which row groups of a data file are read, and their rows

    [RowGroupMetaToFileOffset] of [iceberg/common/rg_metadata.cpp],
    [FileReaderBuilder::GetRowGroupsToRetrieve] of
    [iceberg/streams/iceberg/file_reader_builder.cpp], and [FilteringStream] of
    [iceberg/streams/iceberg/filtering_stream.cpp], which reads the columns of
    the row filter first and the other columns only for batches that have
    selected rows. *)

From stdpp Require Import base list sorting strings sets.
From Stdlib Require Import ZArith Lia.
From S2P Require Import Prelude Streams Parquet ScanTypes ScanBuilder Segments.

Local Open Scope Z_scope.

(** ** Row groups of the segments *)

Definition RowGroupMetaToFileOffset (m : RowGroupMeta) : result Z :=
  if file_offset m =? 0 then
    let! _ := Ensure (negb (data_page_offset m =? 0)) "File offset is not set in file" in
    Ok (data_page_offset m)
  else Ok (file_offset m).

(** The inner loop; the segments are those from [last_not_mapped_part_id] on.
    It says whether the row group is taken. *)
Fixpoint find_segment (off : Z) (segments : list Segment) : bool * list Segment :=
  match segments with
  | [] => (false, [])
  | s :: rest =>
      if (offset s <=? off) && ((off <? seg_end s) || (length_ s =? 0)) then (true, segments)
      else if seg_end s <=? off then find_segment off rest
      else (false, segments)
  end.

Fixpoint row_groups_loop (i : Z) (groups : list RowGroupMeta) (segments : list Segment) : result (list Z) :=
  match groups with
  | [] => Ok []
  | g :: groups =>
      let! off := RowGroupMetaToFileOffset g in
      let '(taken, segments) := find_segment off segments in
      let! rest := row_groups_loop (i + 1) groups segments in
      Ok (if taken then i :: rest else rest)
  end.

Definition GetRowGroupsToRetrieve (groups : list RowGroupMeta) (segments : list Segment) : result (list Z) :=
  row_groups_loop 0 groups segments.

(** ** What is read *)

(** Segments in file order that do not overlap; only the last may be open. *)
Fixpoint disjoint_segments (l : list Segment) : Prop :=
  match l with
  | a :: ((b :: _) as rest) => length_ a ≠ 0 ∧ offset a + length_ a ≤ offset b ∧ disjoint_segments rest
  | _ => True
  end.

Definition coveredb (l : list Segment) (p : Z) : bool :=
  existsb (λ s, (offset s <=? p) && ((length_ s =? 0) || (p <? offset s + length_ s))) l.

Lemma coveredb_spec l p : coveredb l p = true ↔ covered l p.
Proof.
  unfold coveredb, covered, seg_covers. rewrite existsb_exists. setoid_rewrite <- list_elem_of_In.
  apply exist_proper; intros s. rewrite andb_true_iff, orb_true_iff, Z.leb_le, Z.eqb_eq, Z.ltb_lt. done.
Qed.

Lemma disjoint_cons s l :
  disjoint_segments (s :: l) → Forall seg_ok (s :: l) →
  disjoint_segments l ∧ ∀ p, covered l p → length_ s ≠ 0 ∧ offset s + length_ s ≤ p.
Proof.
  revert s. induction l as [|b l IH]; intros s Hd Hok; simpl in Hd.
  { split; [done|]. by intros p ?%covered_nil. }
  destruct Hd as (Hne & Hle & Hd). apply Forall_cons in Hok as [_ Hok]. split; [done|].
  intros p [[Hb _]|Hc]%covered_cons; [by split; [|lia]|].
  apply Forall_cons in Hok as Hok'. destruct Hok' as [(Hob & Hlb & _) _].
  destruct (IH b Hd Hok) as [_ Hc']. apply Hc' in Hc. lia.
Qed.

(** The loop decides whether the offset is covered, and keeps every segment
    that covers a later offset. *)
Lemma find_segment_spec off l :
  disjoint_segments l → Forall seg_ok l →
  let '(taken, l') := find_segment off l in
  taken = coveredb l off ∧ disjoint_segments l' ∧ Forall seg_ok l' ∧
  ∀ p, off ≤ p → coveredb l' p = coveredb l p.
Proof.
  induction l as [|s l IH]; intros Hd Hok; [done|]. cbn [find_segment].
  apply Forall_cons in Hok as Hok'. destruct Hok' as [Hs Hok'].
  destruct (disjoint_cons s l Hd Hok) as [Hd' Hlater]. rewrite (seg_end_ok s Hs).
  destruct ((offset s <=? off) && ((off <? offset s + length_ s) || (length_ s =? 0))) eqn:E.
  { split_and!; try done. symmetry. cbn [coveredb existsb]. rewrite orb_true_iff. left.
    rewrite andb_true_iff, orb_true_iff in *. tauto. }
  destruct (Z.leb_spec (offset s + length_ s) off) as [Hend|Hend].
  - specialize (IH Hd' Hok'). destruct (find_segment off l) as [taken l'].
    destruct IH as (-> & Hd1 & Hok1 & Hcov).
    assert (∀ p, off ≤ p → coveredb (s :: l) p = coveredb l p) as Hskip.
    { intros p Hp. cbn [coveredb existsb]. destruct Hs as (Ho & Hl & _).
      destruct (Z.leb_spec (offset s) off); [|lia]. simpl in E. rewrite orb_false_iff in E. destruct E as [_ E].
      rewrite E. simpl. destruct (Z.ltb_spec p (offset s + length_ s)); [lia|]. by rewrite andb_false_r. }
    split_and!; [by rewrite Hskip by lia|done|done|]. intros p Hp. by rewrite Hskip, Hcov.
  - split_and!; try done. symmetry. apply not_true_iff_false. rewrite coveredb_spec, covered_cons.
    intros [[H1 H2]|Hc].
    + rewrite andb_false_iff, orb_false_iff, Z.leb_gt, Z.ltb_ge, Z.eqb_neq in E. lia.
    + destruct (Hlater _ Hc). lia.
Qed.

(** The numbers, from [i] on, of the row groups at covered offsets. *)
Fixpoint covered_groups (i : Z) (offs : list Z) (l : list Segment) : list Z :=
  match offs with
  | [] => []
  | off :: offs => if coveredb l off then i :: covered_groups (i + 1) offs l else covered_groups (i + 1) offs l
  end.

Lemma covered_groups_ext i offs l l' :
  (∀ p, p ∈ offs → coveredb l p = coveredb l' p) → covered_groups i offs l = covered_groups i offs l'.
Proof.
  revert i. induction offs as [|off offs IH]; intros i Hc; simpl; [done|].
  rewrite Hc by by left. rewrite (IH (i + 1)); [done|]. intros p Hp. apply Hc. by right.
Qed.

Lemma row_groups_loop_spec groups offs : ∀ i l,
  map_ok RowGroupMetaToFileOffset groups = Ok offs → StronglySorted Z.le offs →
  disjoint_segments l → Forall seg_ok l →
  row_groups_loop i groups l = Ok (covered_groups i offs l).
Proof.
  revert offs. induction groups as [|g groups IH]; intros offs i l Ho Hs Hd Hok; simpl in Ho; inv_ok; [done|].
  match goal with H : RowGroupMetaToFileOffset g = Ok ?o |- _ => rename o into off; cbn [row_groups_loop]; rewrite H end.
  match goal with H : map_ok _ groups = Ok ?o |- _ => rename o into offs'; rename H into Hoffs end.
  cbn [rbind covered_groups]. apply SSorted_cons in Hs as [Hle Hs].
  pose proof (find_segment_spec off l Hd Hok) as Hf. destruct (find_segment off l) as [taken l'].
  destruct Hf as (-> & Hd' & Hok' & Hcov). rewrite (IH offs' (i + 1) l' Hoffs Hs Hd' Hok'). cbn [rbind].
  rewrite (covered_groups_ext _ _ l' l) by (intros p Hp; apply Hcov, Hle, Hp). by destruct (coveredb l off).
Qed.

Lemma elem_of_covered_groups offs l : ∀ i j,
  j ∈ covered_groups i offs l ↔ i ≤ j ∧ ∃ off, offs !! Z.to_nat (j - i) = Some off ∧ covered l off.
Proof.
  induction offs as [|off offs IH]; intros i j; simpl.
  { split; [by intros ?%elem_of_nil|]. by intros (_ & ? & ? & _). }
  assert (∀ j, j ∈ covered_groups (i + 1) offs l ↔
    i < j ∧ ∃ o, (off :: offs) !! Z.to_nat (j - i) = Some o ∧ covered l o) as Hrest.
  { intros k. rewrite IH. split.
    - intros (Hk & o & Ho & Hc). split; [lia|]. exists o. split; [|done].
      by replace (Z.to_nat (k - i)) with (S (Z.to_nat (k - (i + 1)))) by lia.
    - intros (Hk & o & Ho & Hc). split; [lia|]. exists o. split; [|done].
      by replace (Z.to_nat (k - i)) with (S (Z.to_nat (k - (i + 1)))) in Ho by lia. }
  destruct (coveredb l off) eqn:E.
  - apply coveredb_spec in E. rewrite elem_of_cons, Hrest. split.
    + intros [->|(? & ?)]; [|by split; [lia|]]. split; [lia|]. rewrite Z.sub_diag. by exists off.
    + intros (Hj & Ho). destruct (decide (j = i)) as [->|]; [by left|right]. by split; [lia|].
  - rewrite Hrest. split; [by intros (? & ?); split; [lia|]|].
    intros (Hj & o & Ho & Hc). split; [|by eauto]. destruct (decide (j = i)) as [->|]; [|lia]. exfalso.
    rewrite Z.sub_diag in Ho. simplify_eq/=. apply coveredb_spec in Hc. congruence.
Qed.

Lemma covered_groups_sorted i offs l : StronglySorted Z.lt (covered_groups i offs l).
Proof.
  revert i. induction offs as [|off offs IH]; intros i; simpl; [constructor|].
  destruct (coveredb l off); [|done]. constructor; [done|].
  apply Forall_forall. intros j [Hj _]%elem_of_covered_groups. lia.
Qed.

(** For row groups in file order and disjoint segments, the reader takes
    exactly the row groups whose offset lies in a segment, once each and in
    order; when the segments of a file are dealt out to two readers, each of
    these row groups is taken by exactly one of them. *)
Theorem row_groups_exact (groups : list RowGroupMeta) (offs : list Z) (l1 l2 : list Segment) :
  map_ok RowGroupMetaToFileOffset groups = Ok offs → StronglySorted Z.le offs →
  disjoint_segments (l1 ++ l2) → Forall seg_ok (l1 ++ l2) →
  ∃ r r1 r2, GetRowGroupsToRetrieve groups (l1 ++ l2) = Ok r ∧
    GetRowGroupsToRetrieve groups l1 = Ok r1 ∧ GetRowGroupsToRetrieve groups l2 = Ok r2 ∧
    StronglySorted Z.lt r ∧
    (∀ i, i ∈ r ↔ 0 ≤ i ∧ ∃ off, offs !! Z.to_nat i = Some off ∧ covered (l1 ++ l2) off) ∧
    (∀ i, i ∈ r ↔ i ∈ r1 ∨ i ∈ r2) ∧ (∀ i, i ∈ r1 → i ∈ r2 → False).
Proof.
  intros Ho Hs Hd Hok.
  assert (disjoint_segments l1 ∧ disjoint_segments l2 ∧ ∀ p, covered l1 p → covered l2 p → False) as (Hd1 & Hd2 & Hdis).
  { clear -Hd Hok. induction l1 as [|s l1 IH]; [by split_and!; [| |intros p ?%covered_nil]|].
    simpl in Hd, Hok. destruct (disjoint_cons s (l1 ++ l2) Hd Hok) as [Hd' Hlater].
    apply Forall_cons in Hok as [Hs Hok]. destruct (IH Hd' Hok) as (H1 & H2 & H3). split_and!; [|done|].
    - destruct l1 as [|b l1]; [done|]. simpl in Hd |- *. tauto.
    - intros p [Hsp|Hc]%covered_cons Hp; [|by apply (H3 p)].
      destruct (Hlater p) as [Hne Hle]; [|destruct Hsp; lia].
      destruct Hp as (s2 & Hin & Hc2). exists s2. split; [|done]. apply elem_of_app. by right. }
  apply Forall_app in Hok as Hok'. destruct Hok' as [Hok1 Hok2].
  exists (covered_groups 0 offs (l1 ++ l2)), (covered_groups 0 offs l1), (covered_groups 0 offs l2).
  unfold GetRowGroupsToRetrieve. do 3 (split; [by apply row_groups_loop_spec|]).
  split; [apply covered_groups_sorted|]. setoid_rewrite elem_of_covered_groups. setoid_rewrite Z.sub_0_r.
  split; [done|]. assert (∀ p, covered (l1 ++ l2) p ↔ covered l1 p ∨ covered l2 p) as Hcov.
  { intros p. unfold covered. setoid_rewrite elem_of_app. naive_solver. }
  split.
  - intros i. setoid_rewrite Hcov. naive_solver.
  - intros i (_ & off & Hoff & Hc) (_ & off' & Hoff' & Hc'). simplify_eq. by apply (Hdis off).
Qed.

(** A row group of which only the position matters. *)
Definition group_at (offset page : Z) : RowGroupMeta :=
  {| file_offset := offset; data_page_offset := page; rg_num_rows := 1; rg_fields := []; column_chunks := [] |}.

Lemma row_groups_exact_witness :
  let groups := [group_at 4 4; group_at 0 90;
                 group_at 200 204] in
  let l1 := [seg 4 86] in let l2 := [seg 90 110; seg 200 0] in
  ∃ r r1 r2, GetRowGroupsToRetrieve groups (l1 ++ l2) = Ok r ∧
    GetRowGroupsToRetrieve groups l1 = Ok r1 ∧ GetRowGroupsToRetrieve groups l2 = Ok r2 ∧
    StronglySorted Z.lt r ∧
    (∀ i, i ∈ r ↔ 0 ≤ i ∧ ∃ off, [4; 90; 200] !! Z.to_nat i = Some off ∧ covered (l1 ++ l2) off) ∧
    (∀ i, i ∈ r ↔ i ∈ r1 ∨ i ∈ r2) ∧ (∀ i, i ∈ r1 → i ∈ r2 → False).
Proof.
  intros groups l1 l2. apply (row_groups_exact groups [4; 90; 200] l1 l2).
  - reflexivity.
  - repeat constructor; lia.
  - simpl. lia.
  - repeat constructor; simpl; unfold int64_max; lia.
Defined.

(** ** Planned segments *)

Lemma segments_from_head o l : ∃ len rest, segments_from o l = {| offset := o; length_ := len |} :: rest.
Proof. destruct l as [|o' l]; simpl; eauto. Qed.

Lemma segments_from_spec l : ∀ o,
  StronglySorted Z.lt (o :: l) → 0 ≤ o → Forall (λ x, x ≤ int64_max) (o :: l) →
  disjoint_segments (segments_from o l) ∧ Forall seg_ok (segments_from o l) ∧
  ∀ p, o ≤ p → covered (segments_from o l) p.
Proof.
  induction l as [|o' l IH]; intros o Hs Ho Hmax.
  { apply Forall_cons in Hmax as [Hmax _]. simpl. split; [done|]. split.
    - repeat constructor; simpl; lia.
    - intros p Hp. apply covered_cons. left. split; [done|by left]. }
  apply SSorted_cons in Hs as [Hlt Hs]. apply Forall_cons in Hmax as [_ Hmax].
  pose proof (Hlt o' ltac:(by left)) as Hoo. apply Forall_cons in Hmax as Hm. destruct Hm as [Ho' _].
  destruct (IH o' Hs ltac:(lia) Hmax) as (Hd & Hok & Hcov). cbn [segments_from].
  assert (wrap_s 64 (o' - o) = o' - o) as Hw
    by (apply wrap_s_64_id; unfold in_i64, int64_min, int64_max in *; lia). rewrite ?Hw.
  destruct (segments_from_head o' l) as (len & rest & E). split; [|split].
  - rewrite E in Hd |- *. cbn [disjoint_segments]. simpl offset; simpl length_. split; [lia|]. split; [lia|done].
  - constructor; [split; simpl; lia|done].
  - intros p Hp. apply covered_cons. destruct (Z.ltb_spec p o') as [Hpo|Hpo]; [left|right; by apply Hcov].
    split; simpl; [done|right; lia].
Qed.

(** No position is in two segments. *)
Definition apart (l : list Segment) : Prop :=
  ∀ i j s t p, l !! i = Some s → l !! j = Some t → seg_covers s p → seg_covers t p → i = j.

Lemma disjoint_segments_apart l : disjoint_segments l → Forall seg_ok l → apart l.
Proof.
  induction l as [|a l IH]; intros Hd Hok; [done|].
  destruct (disjoint_cons a l Hd Hok) as [Hd' Hlater]. apply Forall_cons in Hok as [_ Hok].
  assert (∀ (j : nat) t p, l !! j = Some t → seg_covers t p → seg_covers a p → False) as Hno.
  { intros j t p Hj Ht Ha. destruct (Hlater p) as [Hne Hle]; [exists t; split; [by eapply list_elem_of_lookup_2|done]|].
    destruct Ha. lia. }
  intros [|i] [|j] s t p Hi Hj Hs Ht; simplify_eq/=; [done|by destruct (Hno j t p)|by destruct (Hno i s p)|].
  f_equal. by apply (IH Hd' Hok i j s t p).
Qed.

(** C25: the segments that the planner derives from the split offsets of a data file,
    for ascending split offsets: no position of the file is in two of them, every position
    from the first split offset on (from 4 on, when there are no split offsets) is in one,
    and a reader given all of them takes every row group of the file exactly once, when
    the row groups have offsets in file order that do not precede the first split offset. *)
Theorem planned_segments_read_everything (f : list Z) (groups : list RowGroupMeta) (offs : list Z) :
  StronglySorted Z.lt f → Forall (λ x, 0 ≤ x ≤ int64_max) f →
  map_ok RowGroupMetaToFileOffset groups = Ok offs → StronglySorted Z.le offs →
  (∀ off, off ∈ offs → default 4 (head f) ≤ off) →
  apart (make_segments f) ∧
  (∀ p, default 4 (head f) ≤ p → covered (make_segments f) p) ∧
  GetRowGroupsToRetrieve groups (make_segments f) = Ok (Z.of_nat <$> seq 0 (length groups)).
Proof.
  intros Hf Hr Ho Hs Hfirst.
  assert (disjoint_segments (make_segments f) ∧ Forall seg_ok (make_segments f) ∧
    ∀ p, default 4 (head f) ≤ p → covered (make_segments f) p) as (Hd & Hok & Hcov).
  { destruct f as [|o f].
    - apply (segments_from_spec [] 4); [repeat constructor|lia|repeat constructor; unfold int64_max; lia].
    - apply (segments_from_spec f o); [done| |].
      + apply Forall_cons in Hr as [Hr _]. lia.
      + eapply Forall_impl; [done|]. simpl. lia. }
  split; [by apply disjoint_segments_apart|]. split; [done|].
  unfold GetRowGroupsToRetrieve. rewrite (row_groups_loop_spec groups offs 0 (make_segments f) Ho Hs Hd Hok). f_equal.
  apply map_ok_Forall2, Forall2_length in Ho. rewrite Ho. clear -Hcov Hfirst.
  assert (∀ i : nat, covered_groups (Z.of_nat i) offs (make_segments f) = Z.of_nat <$> seq i (length offs)) as H;
    [|apply (H 0%nat)].
  induction offs as [|off offs IH]; intros i; [done|]. cbn [covered_groups length seq].
  assert (coveredb (make_segments f) off = true) as -> by (apply coveredb_spec, Hcov, Hfirst; by left).
  rewrite fmap_cons. f_equal. replace (Z.of_nat i + 1) with (Z.of_nat (S i)) by lia.
  apply IH. intros o Hin. apply Hfirst. by right.
Qed.

Lemma planned_segments_read_everything_witness :
  apart (make_segments [4; 200]) ∧ (∀ p, 4 ≤ p → covered (make_segments [4; 200]) p) ∧
  GetRowGroupsToRetrieve [group_at 4 4; group_at 0 90;
    group_at 200 204] (make_segments [4; 200]) = Ok [0; 1; 2].
Proof.
  apply (planned_segments_read_everything [4; 200] [group_at 4 4;
    group_at 0 90; group_at 200 204] [4; 90; 200]).
  - repeat constructor.
  - repeat constructor; vm_compute; discriminate.
  - reflexivity.
  - repeat constructor; lia.
  - intros off Hoff. simpl. rewrite !elem_of_cons, elem_of_nil in Hoff. lia.
Defined.

(** ** FilteringStream *)

Section filtering_stream.
Context {Column : Type}.

(** [ArrowBatchWithRowPosition]: a record batch and the number of its first row
    in the file. *)
Record ArrowBatch := {
  ab_position : Z;               (** [row_position] *)
  ab_rows : Z;                   (** [num_rows()] *)
  ab_columns : list Column;
}.

(** [IRowFilter::ApplyFilter]: the selected rows of a batch. *)
Context (ApplyFilter : ArrowBatch → result (list Z)).

Definition Concatenate (a b : ArrowBatch) : result ArrowBatch :=
  let! _ := Ensure (ab_position a =? ab_position b) "batches' row positions are different" in
  let! _ := Ensure (ab_rows a =? ab_rows b) "batches have different sizes" in
  Ok {| ab_position := ab_position a; ab_rows := ab_rows a; ab_columns := ab_columns a ++ ab_columns b |}.

(** What the two input streams have left, and [rows_skipped_]. *)
Record FilteringStream := {
  filter_stream : stream ArrowBatch;
  data_stream : stream ArrowBatch;
  rows_skipped : Z;
}.

(** [while (rows_skipped_ > 0)]. *)
Fixpoint skip_rows (skipped : Z) (data : stream ArrowBatch) : result (Z * stream ArrowBatch) :=
  if 0 <? skipped then
    match data with
    | Done => Err (Exn "internal error. data_stream has ended before filter_stream")
    | Fail e => Err e
    | Next d data => skip_rows (skipped - ab_rows d) data
    end
  else Ok (skipped, data).

(** The rest of [ReadNext] once the filter selects rows of [batch_filter]; a
    null [batch_data] is dereferenced. *)
Definition read_data (skipped : Z) (data : stream ArrowBatch) (batch_filter : ArrowBatch) :
    result (ArrowBatch * stream ArrowBatch) :=
  let! '(skipped, data) := skip_rows skipped data in
  let! _ := Ensure (skipped =? 0)
    "internal error. data_stream batch sizes don't match filter_stream batch sizes." in
  let! '(batch_data, data) := ReadNext data in
  match batch_data with
  | None => Err (Exn "null batch")
  | Some d => let! b := Concatenate d batch_filter in Ok (b, data)
  end.

(** [while (true)], by recursion on the filter stream. *)
Fixpoint filtering_loop (filter data : stream ArrowBatch) (skipped : Z) :
    result (option (ArrowBatch * list Z) * FilteringStream) :=
  match filter with
  | Done => Ok (None, {| filter_stream := Done; data_stream := data; rows_skipped := skipped |})
  | Fail e => Err e
  | Next f filter =>
      let! selection_vector := ApplyFilter f in
      if bool_decide (selection_vector = []) then filtering_loop filter data (skipped + ab_rows f)
      else
        let! '(b, data) := read_data skipped data f in
        Ok (Some (b, selection_vector), {| filter_stream := filter; data_stream := data; rows_skipped := 0 |})
  end.

Definition filtering_ReadNext (s : FilteringStream) : result (option (ArrowBatch * list Z) * FilteringStream) :=
  filtering_loop (filter_stream s) (data_stream s) (rows_skipped s).

(** The batches it delivers, with their selections. *)
Fixpoint filtered (filter data : stream ArrowBatch) (skipped : Z) : stream (ArrowBatch * list Z) :=
  match filter with
  | Done => Done
  | Fail e => Fail e
  | Next f filter =>
      match ApplyFilter f with
      | Err e => Fail e
      | Ok selection_vector =>
          if bool_decide (selection_vector = []) then filtered filter data (skipped + ab_rows f)
          else match read_data skipped data f with
               | Err e => Fail e
               | Ok (b, data) => Next (b, selection_vector) (filtered filter data 0)
               end
      end
  end.

Lemma filtering_implements :
  implements filtering_ReadNext (λ s, filtered (filter_stream s) (data_stream s) (rows_skipped s)).
Proof.
  intros [filter data skipped]. unfold filtering_ReadNext. cbn [filter_stream data_stream rows_skipped].
  revert skipped. induction filter as [|e|f filter IH]; intros skipped; cbn [filtering_loop filtered]; [done|done|].
  destruct (ApplyFilter f) as [sel|e]; cbn [rbind]; [|done]. case_bool_decide; [apply IH|].
  by destruct (read_data skipped data f) as [[b data']|e].
Qed.

(** The two streams deliver the same batches of rows, none of them empty. *)
Definition same_rows (f d : ArrowBatch) : Prop :=
  ab_position d = ab_position f ∧ ab_rows d = ab_rows f ∧ 0 < ab_rows f.

Definition joined (f d : ArrowBatch) : ArrowBatch :=
  {| ab_position := ab_position f; ab_rows := ab_rows f; ab_columns := ab_columns d ++ ab_columns f |}.

Context (selection : ArrowBatch → list Z).

(** The batches that have selected rows, with all their columns. *)
Fixpoint selected (filter data : list ArrowBatch) : list (ArrowBatch * list Z) :=
  match filter, data with
  | f :: filter, d :: data =>
      if bool_decide (selection f = []) then selected filter data
      else (joined f d, selection f) :: selected filter data
  | _, _ => []
  end.

Definition total_rows (l : list ArrowBatch) : Z := foldr (λ b n, ab_rows b + n) 0 l.

Lemma skip_rows_spec skipped_batches data :
  Forall (λ b, 0 < ab_rows b) skipped_batches →
  skip_rows (total_rows skipped_batches) (of_list (skipped_batches ++ data)) = Ok (0, of_list data).
Proof.
  induction 1 as [|b l Hb Hl IH]; simpl.
  { by destruct data. }
  assert (0 ≤ total_rows l) as Hn by (clear -Hl; induction Hl; simpl; lia).
  destruct (Z.ltb_spec 0 (ab_rows b + total_rows l)); [|lia].
  replace (ab_rows b + total_rows l - ab_rows b) with (total_rows l) by lia. done.
Qed.

Lemma read_data_spec pend f d data :
  Forall (λ b, 0 < ab_rows b) pend → same_rows f d →
  read_data (total_rows pend) (of_list (pend ++ d :: data)) f = Ok (joined f d, of_list data).
Proof.
  intros Hp (Hpos & Hrows & _). unfold read_data. rewrite skip_rows_spec by done. cbn [rbind].
  rewrite Ensure_true by done. cbn. unfold Concatenate. by rewrite Hpos, Hrows, !Z.eqb_refl.
Qed.

Lemma filtered_spec filter : ∀ data pend,
  Forall (λ f, ApplyFilter f = Ok (selection f)) filter →
  Forall2 same_rows filter data → Forall (λ b, 0 < ab_rows b) pend →
  filtered (of_list filter) (of_list (pend ++ data)) (total_rows pend) = of_list (selected filter data).
Proof.
  induction filter as [|f filter IH]; intros data pend Ha Hf Hp; inversion Hf as [|? d ? data' Hd Hf']; subst; [done|].
  apply Forall_cons in Ha as [Ha Ha']. cbn [selected filtered of_list]. rewrite Ha. case_bool_decide as Hsel.
  - assert (total_rows (pend ++ [d]) = total_rows pend + ab_rows f) as Ht.
    { destruct Hd as (_ & <- & _). clear. induction pend as [|b pend IH]; simpl; [lia|]. rewrite IH. lia. }
    specialize (IH data' (pend ++ [d]) Ha' Hf'). rewrite Ht, <- app_assoc in IH. apply IH.
    apply Forall_app. split; [done|]. constructor; [|done]. destruct Hd. lia.
  - rewrite read_data_spec by done. cbn [of_list]. f_equal. by apply (IH data' []).
Qed.

(** When the filter columns and the other columns arrive in the same
    batches, the stream delivers, in order, exactly the batches in which the row
    filter selects a row, with the columns of both streams side by side and the
    selection of the filter; it never mixes up rows of the two streams. *)
Theorem filtering_stream_exact (filter data : list ArrowBatch) :
  Forall (λ f, ApplyFilter f = Ok (selection f)) filter → Forall2 same_rows filter data →
  implements filtering_ReadNext (λ s, filtered (filter_stream s) (data_stream s) (rows_skipped s)) ∧
  run (filtered (of_list filter) (of_list data) 0) = Ok (selected filter data).
Proof.
  intros Ha Hf. split; [apply filtering_implements|].
  pose proof (filtered_spec filter data [] Ha Hf (Forall_nil_2 _)) as E. cbn in E. rewrite E. apply run_of_list.
Qed.
End filtering_stream.
Arguments ArrowBatch : clear implicits.

Lemma filtering_stream_exact_witness :
  let fb p n c := {| ab_position := p; ab_rows := n; ab_columns := [c] |} in
  let keep (b : ArrowBatch string) := if (ab_position b =? 0) then [] else [0; 1] in
  run (filtered (λ b, Ok (keep b)) (of_list [fb 0 5 "k"; fb 5 2 "k"]) (of_list [fb 0 5 "v"; fb 5 2 "v"]) 0)
  = Ok [({| ab_position := 5; ab_rows := 2; ab_columns := ["v"; "k"] |}, [0; 1])].
Proof.
  intros fb keep.
  apply (filtering_stream_exact (λ b, Ok (keep b)) keep [fb 0 5 "k"; fb 5 2 "k"] [fb 0 5 "v"; fb 5 2 "v"]);
    repeat constructor.
Defined.
