(* ===== verification/EqualityDelete.v ===== *)
(** * EqualityDelete: the tables of deleted rows

    The three implementations of [EqualityDelete] under
    [iceberg/equality_delete/]: [GenericEqualityDelete] (rows as byte strings),
    [SpecializedDeleteOneColumn] and [SpecializedDeleteMultipleColumn] (rows
    packed into an integer), and [MakeEqualityDelete], which chooses one.

    An Arrow array is its type, the byte width of the type ([byte_width()], -1
    for variable width) and, per row, the validity bit and the value stored in
    the slot; the slot of a null row holds a value too, which Arrow leaves
    unspecified.  A row of several arrays is the list of their cells.  These are
    the contents of the tables; [DeleteTables] has the same operations with their
    allocations, which the memory limit may refuse.
    What C++ leaves undefined (a write past a buffer, a comparison of bytes
    never written) is an error whose message starts with "undefined". *)

From stdpp Require Import base list sorting strings gmap.
From Stdlib Require Import ZArith Lia.
From Stdlib Require Strings.Byte.
From S2P Require Import Prelude Bytes.

Local Open Scope Z_scope.

(** ** Arrow arrays *)

Module Arrow.
Inductive type :=
| BOOL | INT8 | INT16 | INT32 | INT64 | FLOAT | DOUBLE | STRING | BINARY | FIXED_SIZE_BINARY
| DATE32 | TIME64 | TIMESTAMP | DECIMAL128 | LIST | OTHER.
End Arrow.
#[export] Instance arrow_type_eq_dec : EqDecision Arrow.type.
Proof. solve_decision. Defined.

(** A stored value: a number (booleans as 0 or 1, floats by their bits, read as a
    signed number), or bytes. *)
Inductive raw := Num (v : Z) | Text (b : list Byte.byte).
#[export] Instance raw_eq_dec : EqDecision raw.
Proof. solve_decision. Defined.

Record cell := {
  type_id : Arrow.type;
  byte_width : Z;
  is_null : bool;
  view : raw;               (** [GetView(row)], also under a null *)
}.

Definition num (c : cell) : Z := match view c with Num v => v | Text _ => 0 end.
Definition text (c : cell) : list Byte.byte := match view c with Text b => b | Num _ => [] end.

(** What the row means: a null hides the stored value. *)
Definition value_of (c : cell) : option raw := if is_null c then None else Some (view c).

(** ** [safe::UpdateMax] *)

Definition UpdateMax {K} `{Countable K} (m : gmap K Z) (key : K) (value : Z) : gmap K Z :=
  match m !! key with
  | None => <[key := value]> m
  | Some old_value => <[key := Z.max old_value value]> m
  end.

(** ** GenericEqualityDelete *)

Definition GetWidth (c : cell) : result Z :=
  if negb (byte_width c =? -1) then Ok (byte_width c)
  else match type_id c with
       | Arrow.STRING | Arrow.BINARY => Ok (4 + Z.of_nat (length (text c)))
       | _ => Err (StatusError "GetWidth: unexpected type")
       end.

(** The bytes that [WriteToData] writes. *)
Definition WriteStringViewToData (b : list Byte.byte) : list Byte.byte :=
  le_encode 4 (Z.of_nat (length b)) ++ b.

Definition WriteToData (c : cell) : result (list Byte.byte) :=
  match type_id c with
  | Arrow.BOOL | Arrow.INT8 => Ok (le_encode 1 (num c))
  | Arrow.INT16 => Ok (le_encode 2 (num c))
  | Arrow.INT32 | Arrow.FLOAT | Arrow.DATE32 => Ok (le_encode 4 (num c))
  | Arrow.INT64 | Arrow.DOUBLE | Arrow.TIME64 | Arrow.TIMESTAMP => Ok (le_encode 8 (num c))
  | Arrow.STRING | Arrow.BINARY | Arrow.FIXED_SIZE_BINARY | Arrow.DECIMAL128 | Arrow.LIST =>
      Ok (WriteStringViewToData (text c))
  | Arrow.OTHER => Err (StatusError "WriteToData: unexpected type")
  end.

Fixpoint null_bitmask (i : Z) (cells : list cell) : Z :=
  match cells with
  | [] => 0
  | c :: cells => Z.lor (if is_null c then Z.shiftl 1 i else 0) (null_bitmask (i + 1) cells)
  end.

Fixpoint total_width (cells : list cell) : result Z :=
  match cells with
  | [] => Ok 0
  | c :: cells =>
      if is_null c then total_width cells
      else let! w := GetWidth c in let! rest := total_width cells in Ok (w + rest)
  end.

(** Writing behind the bytes written so far, into a buffer of [size] bytes. *)
Definition put (size : Z) (data bytes : list Byte.byte) : result (list Byte.byte) :=
  let! _ := Ensure (Z.of_nat (length (data ++ bytes)) <=? size) "undefined: write past the end of the key" in
  Ok (data ++ bytes).

Fixpoint write_cells (size : Z) (cells : list cell) (data : list Byte.byte) : result (list Byte.byte) :=
  match cells with
  | [] => Ok data
  | c :: cells =>
      if is_null c then write_cells size cells data
      else let! b := WriteToData c in
           let! data := put size data b in
           write_cells size cells data
  end.

(** [SizedPtr] keeps the size in the 16 bits above a 48-bit address: the bytes
    that [operator==] and the hash see. *)
Definition SizedPtr (data : list Byte.byte) : list Byte.byte :=
  take (Z.to_nat (wrap_u 16 (Z.of_nat (length data)))) data.

(** The constructor of [GenericDeleteKey].  A buffer that is not written to its
    end would be compared with indeterminate bytes in it. *)
Definition GenericDeleteKey (cells : list cell) : result (list Byte.byte) :=
  let mask := null_bitmask 0 cells in
  let! width := total_width cells in
  let size := wrap_u 32 (8 + width) in
  let! data := put size [] (le_encode 8 mask) in
  let! data := write_cells size cells data in
  let! _ := Ensure (Z.of_nat (length data) =? size) "undefined: bytes of the key are not written" in
  Ok (SizedPtr data).

Notation GenericTable := (gmap (list Byte.byte) Z).

Definition generic_Add (values : GenericTable) (columns : nat) (rows : list (list cell)) (delete_layer : Z) :
    result GenericTable :=
  if (64 <? Z.of_nat columns) then
    Err (StatusError "GenericEqualityDelete is not implemented for more than 64 columns")
  else fold_ok (λ values cells, let! key := GenericDeleteKey cells in Ok (UpdateMax values key delete_layer))
         values rows.

Definition layer_at_least (o : option Z) (data_layer : Z) : bool :=
  match o with Some delete_layer => data_layer <=? delete_layer | None => false end.

Definition generic_IsDeleted (values : GenericTable) (cells : list cell) (data_layer : Z) : result bool :=
  let! key := GenericDeleteKey cells in Ok (layer_at_least (values !! key) data_layer).

(** ** SpecializedDeleteOneColumn *)

Record OneColumn := {
  one_type : Arrow.type;
  contains_null : bool;
  one_values : gmap Z Z;
}.

Definition one_add_row (delete_layer : Z) (d : OneColumn) (cells : list cell) : result OneColumn :=
  match cells with
  | [c] =>
      if is_null c
      then Ok {| one_type := one_type d; contains_null := true; one_values := one_values d |}
      else Ok {| one_type := one_type d; contains_null := contains_null d;
                 one_values := UpdateMax (one_values d) (num c) delete_layer |}
  | _ => Err (StatusError "SpecializedDeleteOneColumn (Add): unexpected number of columns")
  end.

Definition one_Add (d : OneColumn) (types : list Arrow.type) (rows : list (list cell)) (delete_layer : Z) :
    result OneColumn :=
  match types with
  | [t] =>
      if negb (bool_decide (t = one_type d))
      then Err (StatusError "SpecializedDeleteOneColumn (Add): unexpected type")
      else fold_ok (one_add_row delete_layer) d rows
  | _ => Err (StatusError "SpecializedDeleteOneColumn (Add): unexpected number of columns")
  end.

Definition one_IsDeleted (d : OneColumn) (cells : list cell) (data_layer : Z) : result bool :=
  match cells with
  | c :: _ =>
      if is_null c then Ok (contains_null d)
      else Ok (layer_at_least (one_values d !! num c) data_layer)
  | [] => Err (Exn "no column")
  end.

(** ** SpecializedDeleteMultipleColumn *)

Definition TypeToBitWidth (t : Arrow.type) : result Z :=
  match t with
  | Arrow.INT16 => Ok 16
  | Arrow.INT32 => Ok 32
  | Arrow.INT64 | Arrow.TIMESTAMP => Ok 64
  | _ => Err (StatusError "TypeToBitWidth: unsupported type")
  end.

Record MultipleColumn := {
  value_bits : Z;                        (** width of [ValueType]: 32, 64 or 128 *)
  types_ : list Arrow.type;
  order_ : list nat;
  bit_width_ : list Z;
  values_ : gmap Z Z;
  values_with_nulls_ : gmap Z (gmap Z Z);
}.

(** The number [new_value << current_shift] adds, in [value_bits] bits. *)
Definition add_value (bits : Z) (w v : Z) (st : Z * Z) : Z * Z :=
  let '(result, current_shift) := st in
  (wrap_u bits (result + wrap_u bits (Z.shiftl (wrap_u w v) current_shift)), current_shift + w).

Definition construct_with (skip_nulls : bool) (d : MultipleColumn) (cells : list cell) : Z :=
  fst (foldl (λ st id,
    match cells !! id, bit_width_ d !! id with
    | Some c, Some w => if skip_nulls && is_null c then st else add_value (value_bits d) w (num c) st
    | _, _ => st
    end) (0, 0) (order_ d)).

Definition ConstructRow := construct_with true.
Definition ConstructRowIgnoreNulls := construct_with false.

(** [uint8_t nulls_mask]. *)
Definition nulls_mask (d : MultipleColumn) (cells : list cell) : Z :=
  foldl (λ mask id, match cells !! id with
                    | Some c => if is_null c then wrap_u 8 (Z.lor mask (Z.shiftl 1 (Z.of_nat id))) else mask
                    | None => mask
                    end) 0 (order_ d).

Definition set_values (v : gmap Z Z) (d : MultipleColumn) : MultipleColumn :=
  {| value_bits := value_bits d; types_ := types_ d; order_ := order_ d; bit_width_ := bit_width_ d;
     values_ := v; values_with_nulls_ := values_with_nulls_ d |}.
Definition set_null_values (v : gmap Z (gmap Z Z)) (d : MultipleColumn) : MultipleColumn :=
  {| value_bits := value_bits d; types_ := types_ d; order_ := order_ d; bit_width_ := bit_width_ d;
     values_ := values_ d; values_with_nulls_ := v |}.

Definition multiple_add_row (with_nulls : bool) (delete_layer : Z) (d : MultipleColumn) (cells : list cell) :
    MultipleColumn :=
  if negb with_nulls then set_values (UpdateMax (values_ d) (ConstructRow d cells) delete_layer) d
  else
    let mask := nulls_mask d cells in
    let key := ConstructRowIgnoreNulls d cells in
    if mask =? 0 then set_values (UpdateMax (values_ d) key delete_layer) d
    else set_null_values
           (<[mask := UpdateMax (default ∅ (values_with_nulls_ d !! mask)) key delete_layer]> (values_with_nulls_ d)) d.

Definition multiple_Add (d : MultipleColumn) (types : list Arrow.type) (rows : list (list cell)) (delete_layer : Z) :
    result MultipleColumn :=
  if negb (bool_decide (length types = length (types_ d)))
  then Err (StatusError "SpecializedDeleteMultipleColumn (Add): unexpected number of columns")
  else if negb (bool_decide (types = types_ d))
  then Err (StatusError "SpecializedDeleteMultipleColumn (Add): unexpected type")
  else
    let with_nulls := existsb (existsb is_null) rows in
    if with_nulls && (9 <=? Z.of_nat (length types))
    then Err (StatusError "Equality deletes with nulls and more than 8 columns are not supported")
    else Ok (foldl (multiple_add_row with_nulls delete_layer) d rows).

Definition multiple_IsDeleted (d : MultipleColumn) (cells : list cell) (data_layer : Z) : bool :=
  if negb (existsb is_null cells) then layer_at_least (values_ d !! ConstructRow d cells) data_layer
  else match values_with_nulls_ d !! nulls_mask d cells with
       | None => false
       | Some values => layer_at_least (values !! ConstructRowIgnoreNulls d cells) data_layer
       end.

(** ** MakeEqualityDelete *)

Inductive EqualityDelete :=
| GenericDelete (values : GenericTable)
| OneColumnDelete (d : OneColumn)
| MultipleColumnDelete (d : MultipleColumn).

Definition one_column_type (t : Arrow.type) : bool :=
  match t with Arrow.INT16 | Arrow.INT32 | Arrow.INT64 | Arrow.TIMESTAMP => true | _ => false end.

(** [std::sort] with the comparison [widths[lhs] > widths[rhs]]: the order of
    columns of one width is not specified. *)
Class WidthSort := {
  sort_by_width : list Z → list nat → list nat;
  sort_by_width_perm : ∀ widths order, sort_by_width widths order ≡ₚ order;
}.

Definition wider (widths : list Z) (a b : nat) : Prop := default 0 (widths !! b) ≤ default 0 (widths !! a).
Instance wider_dec widths a b : Decision (wider widths a b).
Proof. unfold wider. apply _. Defined.
Definition stable_width_sort : WidthSort :=
  {| sort_by_width := λ widths, merge_sort (wider widths);
     sort_by_width_perm := λ widths order, merge_sort_Permutation (wider widths) order |}.

Definition MakeEqualityDelete `{WidthSort} (schema : list Arrow.type) (use_specialized_deletes : bool) : result EqualityDelete :=
  if negb use_specialized_deletes then Ok (GenericDelete ∅)
  else match schema with
       | [t] => if one_column_type t
                then Ok (OneColumnDelete {| one_type := t; contains_null := false; one_values := ∅ |})
                else Ok (GenericDelete ∅)
       | _ =>
           match map_ok TypeToBitWidth schema with
           | Err _ => Ok (GenericDelete ∅)                            (** not [all_types_good] *)
           | Ok widths =>
               let total_width := foldr Z.add 0 widths in
               if 128 <? total_width then Ok (GenericDelete ∅)
               else Ok (MultipleColumnDelete
                 {| value_bits := if total_width <=? 32 then 32 else if total_width <=? 64 then 64 else 128;
                    types_ := schema; order_ := sort_by_width widths (seq 0 (length widths));
                    bit_width_ := widths; values_ := ∅; values_with_nulls_ := ∅ |})
           end
       end.

(** ** The interface *)

Definition Add (d : EqualityDelete) (types : list Arrow.type) (rows : list (list cell)) (delete_layer : Z) :
    result EqualityDelete :=
  match d with
  | GenericDelete v => let! v := generic_Add v (length types) rows delete_layer in Ok (GenericDelete v)
  | OneColumnDelete d => let! d := one_Add d types rows delete_layer in Ok (OneColumnDelete d)
  | MultipleColumnDelete d => let! d := multiple_Add d types rows delete_layer in Ok (MultipleColumnDelete d)
  end.

Definition IsDeleted (d : EqualityDelete) (cells : list cell) (data_layer : Z) : result bool :=
  match d with
  | GenericDelete v => generic_IsDeleted v cells data_layer
  | OneColumnDelete d => one_IsDeleted d cells data_layer
  | MultipleColumnDelete d => Ok (multiple_IsDeleted d cells data_layer)
  end.

Definition Size (d : EqualityDelete) : Z :=
  match d with
  | GenericDelete v => Z.of_nat (size v)
  | OneColumnDelete d => Z.of_nat (size (one_values d)) + (if contains_null d then 1 else 0)
  | MultipleColumnDelete d =>
      foldr (λ p n, Z.of_nat (size p.2) + n) (Z.of_nat (size (values_ d))) (map_to_list (values_with_nulls_ d))
  end.

(** ** What a table of deleted rows has to answer *)

Definition row_value (cells : list cell) : list (option raw) := value_of <$> cells.

(** The row equals a deleted row, null to null, of the data layer or a newer one. *)
Definition matches (adds : list (list cell * Z)) (cells : list cell) (data_layer : Z) : bool :=
  existsb (λ a, bool_decide (row_value a.1 = row_value cells) && (data_layer <=? a.2)) adds.

(** The rows added by successive calls of [Add], each with its layer. *)
Definition added (batches : list (list (list cell) * Z)) : list (list cell * Z) :=
  flat_map (λ b, (λ cells, (cells, b.2)) <$> b.1) batches.

Definition add_batches (d : EqualityDelete) (types : list Arrow.type) (batches : list (list (list cell) * Z)) :
    result EqualityDelete :=
  fold_ok (λ d b, Add d types b.1 b.2) d batches.

Definition is_generic (d : EqualityDelete) : bool := match d with GenericDelete _ => true | _ => false end.

(** Bytes of a number of a type, for the types stored as numbers. *)
Definition number_bytes (t : Arrow.type) : option nat :=
  match t with
  | Arrow.INT8 => Some 1%nat
  | Arrow.INT16 => Some 2%nat
  | Arrow.INT32 | Arrow.FLOAT | Arrow.DATE32 => Some 4%nat
  | Arrow.INT64 | Arrow.DOUBLE | Arrow.TIME64 | Arrow.TIMESTAMP => Some 8%nat
  | _ => None
  end.

(** A cell as Arrow stores it, of a type the tables support. *)
Definition cell_ok (c : cell) : Prop :=
  match number_bytes (type_id c) with
  | Some n => byte_width c = Z.of_nat n ∧ ∃ v, view c = Num v ∧ wrap_s (8 * Z.of_nat n) v = v
  | None => (type_id c = Arrow.STRING ∨ type_id c = Arrow.BINARY) ∧ byte_width c = -1 ∧ ∃ b, view c = Text b
  end.

(** The bytes of a cell in a key. *)
Definition image (c : cell) : list Byte.byte :=
  if is_null c then []
  else match number_bytes (type_id c) with
       | Some n => le_encode n (num c)
       | None => WriteStringViewToData (text c)
       end.
Definition images (cells : list cell) : list Byte.byte := flat_map image cells.

(** A row of a schema whose key takes less than 2^16 bytes. *)
Record row_ok (schema : list Arrow.type) (cells : list cell) : Prop := {
  ro_types : type_id <$> cells = schema;
  ro_cells : ∀ c, c ∈ cells → is_null c = false → cell_ok c;
  ro_short : Z.of_nat (length (images cells)) < 65528;
}.

(** ** Tables *)

Lemma UpdateMax_layer {K} `{Countable K} (m : gmap K Z) k v k' dl :
  layer_at_least (UpdateMax m k v !! k') dl =
  layer_at_least (m !! k') dl || (bool_decide (k = k') && (dl <=? v)).
Proof.
  unfold UpdateMax. destruct (decide (k = k')) as [->|Hne].
  - rewrite bool_decide_true by done. simpl.
    destruct (m !! k') as [o|] eqn:E; rewrite lookup_insert; rewrite decide_True by done; simpl; [|done].
    destruct (Z.leb_spec dl (Z.max o v)), (Z.leb_spec dl o), (Z.leb_spec dl v); simpl; lia || done.
  - rewrite bool_decide_false, andb_false_l, orb_false_r by done.
    destruct (m !! k); by rewrite lookup_insert_ne.
Qed.

(** A table of keys holds the rows [adds], through [key]; rows for which [key]
    is [None] are not in it. *)
Definition holds {K} `{Countable K} (m : gmap K Z) (key : list cell → option K) (adds : list (list cell * Z)) : Prop :=
  ∀ k dl, layer_at_least (m !! k) dl =
    existsb (λ a, bool_decide (key a.1 = Some k) && (dl <=? a.2)) adds.

Lemma holds_empty {K} `{Countable K} (key : list cell → option K) : holds ∅ key [].
Proof. intros k dl. by rewrite lookup_empty. Qed.

Lemma holds_add {K} `{Countable K} m (key : list cell → option K) adds cells k dl :
  holds m key adds → key cells = Some k → holds (UpdateMax m k dl) key (adds ++ [(cells, dl)]).
Proof.
  intros Hm Hk k' l. rewrite UpdateMax_layer, Hm, existsb_app. simpl. rewrite orb_false_r, Hk.
  f_equal. f_equal. apply bool_decide_ext. naive_solver.
Qed.

Lemma holds_skip {K} `{Countable K} m (key : list cell → option K) adds cells dl :
  holds m key adds → key cells = None → holds m key (adds ++ [(cells, dl)]).
Proof.
  intros Hm Hk k' l. rewrite Hm, existsb_app. simpl.
  rewrite Hk, bool_decide_false by done. by rewrite andb_false_l, !orb_false_r.
Qed.

(** A key that separates the rows added from the row asked for answers exactly. *)
Lemma holds_matches {K} `{Countable K} m (key : list cell → option K) adds cells k dl :
  holds m key adds → key cells = Some k →
  (∀ a, a ∈ adds → key a.1 = Some k ↔ row_value a.1 = row_value cells) →
  layer_at_least (m !! k) dl = matches adds cells dl.
Proof.
  intros Hm Hk Hinj. rewrite Hm. unfold matches. clear Hm.
  induction adds as [|a adds IH]; [done|]. simpl. rewrite IH by (intros; apply Hinj; by right).
  f_equal. f_equal. apply bool_decide_ext, Hinj. by left.
Qed.

(** ** The generic key *)

Lemma cell_written c :
  cell_ok c → is_null c = false →
  GetWidth c = Ok (Z.of_nat (length (image c))) ∧ WriteToData c = Ok (image c).
Proof.
  unfold cell_ok, GetWidth, WriteToData, image. intros Hc ->.
  destruct (number_bytes (type_id c)) as [n|] eqn:E.
  - destruct Hc as [-> _]. rewrite le_encode_length.
    destruct (Z.eqb_spec (Z.of_nat n) (-1)); [lia|]. simpl.
    destruct (type_id c); simplify_eq/=; done.
  - destruct Hc as (Ht & -> & b & Hb). change (negb (-1 =? -1)) with false. cbv iota. unfold WriteStringViewToData, text. rewrite Hb.
    rewrite length_app, le_encode_length, Nat2Z.inj_add.
    destruct Ht as [-> | ->]; done.
Qed.

Lemma total_width_images cells :
  (∀ c, c ∈ cells → is_null c = false → cell_ok c) →
  total_width cells = Ok (Z.of_nat (length (images cells))).
Proof.
  unfold images. induction cells as [|c cells IH]; intros Hok; simpl; [done|].
  specialize (IH (λ c Hc, Hok c ltac:(by right))). destruct (is_null c) eqn:En.
  - rewrite IH. unfold image. by rewrite En.
  - destruct (cell_written c) as [-> _]; [apply Hok; [by left|done]|done|].
    cbn [rbind]. rewrite IH. cbn [rbind]. by rewrite length_app, Nat2Z.inj_add.
Qed.

Lemma write_cells_images size cells data :
  (∀ c, c ∈ cells → is_null c = false → cell_ok c) →
  Z.of_nat (length (data ++ images cells)) ≤ size →
  write_cells size cells data = Ok (data ++ images cells).
Proof.
  unfold images. revert data. induction cells as [|c cells IH]; intros data Hok Hs; simpl in *.
  { by rewrite app_nil_r. }
  destruct (is_null c) eqn:En.
  - unfold image in *. rewrite En in *. apply IH; [|done]. intros; apply Hok; [by right|done].
  - destruct (cell_written c) as [_ ->]; [apply Hok; [by left|done]|done|]. cbn [rbind].
    unfold put. rewrite Ensure_true.
    2:{ apply Z.leb_le. rewrite !length_app in Hs. rewrite length_app. lia. }
    cbn [rbind]. rewrite IH; [by rewrite <- app_assoc|intros; apply Hok; [by right|done]|by rewrite <- app_assoc].
Qed.

(** Every byte of the key lies in its buffer, and the buffer is filled. *)
Lemma GenericDeleteKey_sized cells :
  (∀ c, c ∈ cells → is_null c = false → cell_ok c) → Z.of_nat (length (images cells)) < 2 ^ 32 - 8 →
  GenericDeleteKey cells = Ok (SizedPtr (le_encode 8 (null_bitmask 0 cells) ++ images cells)).
Proof.
  intros Hok Hlen. change (2 ^ 32) with 4294967296 in Hlen.
  unfold GenericDeleteKey. rewrite total_width_images by done. cbn [rbind].
  assert (wrap_u 32 (8 + Z.of_nat (length (images cells))) = 8 + Z.of_nat (length (images cells))) as ->.
  { unfold wrap_u. change (2 ^ 32) with 4294967296. apply Z.mod_small. lia. }
  unfold put. rewrite app_nil_l, le_encode_length, Ensure_true by (apply Z.leb_le; lia).
  cbn [rbind]. rewrite write_cells_images by (done || rewrite length_app, le_encode_length; lia).
  cbn [rbind]. rewrite Ensure_true; [done|]. apply Z.eqb_eq. rewrite length_app, le_encode_length. lia.
Qed.

Lemma GenericDeleteKey_short schema cells :
  row_ok schema cells → GenericDeleteKey cells = Ok (le_encode 8 (null_bitmask 0 cells) ++ images cells).
Proof.
  intros [_ Hok Hs]. change (2 ^ 32) with 4294967296 in *. rewrite GenericDeleteKey_sized; [|done|lia].
  f_equal. unfold SizedPtr. apply take_ge. rewrite length_app, le_encode_length.
  unfold wrap_u. change (2 ^ 16) with 65536. rewrite Z.mod_small; lia.
Qed.

Lemma null_bitmask_testbit cells i j :
  0 ≤ i → 0 ≤ j → Z.testbit (null_bitmask i cells) j =
    (i <=? j) && match cells !! Z.to_nat (j - i) with Some c => is_null c | None => false end.
Proof.
  revert i. induction cells as [|c cells IH]; intros i Hi Hj; simpl.
  { by rewrite Z.bits_0, andb_false_r. }
  rewrite Z.lor_spec, IH by lia.
  assert (Z.testbit (if is_null c then Z.shiftl 1 i else 0) j = is_null c && (i =? j)) as ->.
  { destruct (is_null c); [by rewrite Z.shiftl_1_l, Z.pow2_bits_eqb by lia|by rewrite Z.bits_0]. }
  destruct (Z.eqb_spec i j) as [->|Hne].
  - rewrite Z.sub_diag. simpl. rewrite Z.leb_refl. destruct (Z.leb_spec (j + 1) j); [lia|]. simpl.
    by rewrite andb_true_r, orb_false_r.
  - rewrite andb_false_r. simpl. destruct (Z.leb_spec i j); simpl.
    + destruct (Z.leb_spec (i + 1) j); [|lia]. simpl.
      replace (Z.to_nat (j - i)) with (S (Z.to_nat (j - (i + 1)))) by lia. done.
    + destruct (Z.leb_spec (i + 1) j); [lia|done].
Qed.

(** The first 64 columns are null in both rows or in neither. *)
Lemma null_bitmask_inj cells cells' :
  length cells = length cells' → (length cells ≤ 64)%nat →
  le_encode 8 (null_bitmask 0 cells) = le_encode 8 (null_bitmask 0 cells') →
  is_null <$> cells = is_null <$> cells'.
Proof.
  intros Hlen H64 E. apply (f_equal le_decode) in E. rewrite !le_decode_encode in E.
  change (256 ^ Z.of_nat 8) with (2 ^ 64) in E.
  apply list_eq_same_length with (length cells); [by rewrite length_fmap|by rewrite length_fmap|].
  intros i x y Hi Hx Hy. rewrite list_lookup_fmap in Hx, Hy.
  apply (f_equal (λ v, Z.testbit v (Z.of_nat i))) in E.
  rewrite !Z.mod_pow2_bits_low, !null_bitmask_testbit, Z.sub_0_r, Nat2Z.id in E by lia.
  destruct (Z.leb_spec 0 (Z.of_nat i)); [|lia]. simpl in E.
  destruct (cells !! i), (cells' !! i); simplify_eq/=. done.
Qed.

(** The image of a cell delimits itself and determines its value. *)
Lemma image_inj c c' rest rest' :
  cell_ok c → cell_ok c' → is_null c = false → is_null c' = false → type_id c = type_id c' →
  Z.of_nat (length (image c)) < 65528 → Z.of_nat (length (image c')) < 65528 →
  image c ++ rest = image c' ++ rest' → view c = view c' ∧ rest = rest'.
Proof.
  unfold cell_ok, image. intros Hc Hc' -> -> Ht. rewrite <- Ht in *.
  destruct (number_bytes (type_id c)) as [n|] eqn:En.
  - destruct Hc as (_ & v & Hv & Hw), Hc' as (_ & v' & Hv' & Hw'). unfold num. rewrite Hv, Hv'.
    intros _ _ E. apply app_inj_1 in E as [E ->]; [|by rewrite !le_encode_length].
    split; [|done]. f_equal. apply (le_encode_inj n); try done.
    destruct (type_id c); simplify_eq/=; lia.
  - destruct Hc as (_ & _ & b & Hb), Hc' as (_ & _ & b' & Hb'). unfold text. rewrite Hb, Hb'.
    unfold WriteStringViewToData. rewrite !length_app, !le_encode_length, <- !app_assoc.
    intros Hl Hl' E. apply app_inj_1 in E as [El E]; [|by rewrite !le_encode_length].
    apply (f_equal le_decode) in El. rewrite !le_decode_encode in El.
    change (256 ^ Z.of_nat 4) with 4294967296 in El. rewrite !Z.mod_small in El by lia.
    apply app_inj_1 in E as [-> ->]; [done|lia].
Qed.

Lemma images_inj cells cells' :
  type_id <$> cells = type_id <$> cells' → is_null <$> cells = is_null <$> cells' →
  (∀ c, c ∈ cells → is_null c = false → cell_ok c) → (∀ c, c ∈ cells' → is_null c = false → cell_ok c) →
  Z.of_nat (length (images cells)) < 65528 → Z.of_nat (length (images cells')) < 65528 →
  images cells = images cells' → row_value cells = row_value cells'.
Proof.
  unfold images, row_value. revert cells'.
  induction cells as [|c cells IH]; intros [|c' cells'] Ht Hn Hok Hok' Hl Hl' E; try done.
  cbn [flat_map] in *. rewrite !fmap_cons in *. injection Ht as Ht Hts. injection Hn as Hn Hns.
  rewrite length_app in Hl, Hl'. unfold value_of at 1 3. rewrite <- Hn.
  destruct (is_null c) eqn:En.
  - f_equal. apply IH; try done; try lia; try (intros; first [apply Hok; [by right|done] | apply Hok'; [by right|done]]).
    assert (image c = [] ∧ image c' = []) as [Z1 Z2] by (unfold image; by rewrite <- Hn, En).
    by rewrite Z1, Z2 in E.
  - apply image_inj in E as [-> E]; try done; try lia; try (first [apply Hok; [by left|done] | apply Hok'; [by left|done]]).
    f_equal. apply IH; try done; try lia; intros; first [apply Hok; [by right|done] | apply Hok'; [by right|done]].
Qed.

(** Equal rows have equal images. *)
Lemma key_of_value cells cells' :
  type_id <$> cells = type_id <$> cells' → row_value cells = row_value cells' →
  images cells = images cells' ∧ ∀ i, null_bitmask i cells = null_bitmask i cells'.
Proof.
  unfold images, row_value. revert cells'.
  induction cells as [|c cells IH]; intros [|c' cells'] Ht E; try done.
  rewrite !fmap_cons in *. injection Ht as Ht Hts. injection E as E Es.
  destruct (IH _ Hts Es) as [IHi IHm]. unfold value_of in E. cbn [flat_map null_bitmask].
  assert (is_null c = is_null c' ∧ image c = image c') as [Hn Hi].
  { unfold image, num, text. rewrite <- Ht. destruct (is_null c), (is_null c'); try done.
    injection E as ->. done. }
  split; [by rewrite Hi, IHi|]. intros i. by rewrite Hn, IHm.
Qed.

#[local] Instance Ok_inj {A} : Inj eq eq (@Ok A).
Proof. intros a b E. by injection E. Qed.

Definition generic_key (cells : list cell) : option (list Byte.byte) :=
  match GenericDeleteKey cells with Ok k => Some k | Err _ => None end.

Lemma generic_key_inj schema cells cells' :
  (length schema ≤ 64)%nat → row_ok schema cells → row_ok schema cells' →
  GenericDeleteKey cells = GenericDeleteKey cells' ↔ row_value cells = row_value cells'.
Proof.
  intros H64 Hc Hc'. rewrite !(GenericDeleteKey_short schema) by done.
  pose proof (ro_types _ _ Hc) as Ht. rewrite <- (ro_types _ _ Hc') in Ht.
  assert (length cells = length schema) as Hlen by (rewrite <- (ro_types _ _ Hc); by rewrite length_fmap).
  split.
  - intros [Hm Hi]%(inj Ok)%app_inj_1; [|by rewrite !le_encode_length].
    apply images_inj; try done; try apply Hc; try apply Hc'.
    apply null_bitmask_inj; [|lia|done]. apply (f_equal length) in Ht. by rewrite !length_fmap in Ht.
  - intros E. destruct (key_of_value cells cells' Ht E) as [-> Hm]. by rewrite Hm.
Qed.

Lemma fold_ok_total {A S} (P : S → list A → Prop) (Q : A → Prop) (f : S → A → result S) l :
  (∀ p x s, P s p → Q x → ∃ s', f s x = Ok s' ∧ P s' (p ++ [x])) →
  ∀ s p, P s p → Forall Q l → ∃ s', fold_ok f s l = Ok s' ∧ P s' (p ++ l).
Proof.
  intros Hstep. induction l as [|x l IH]; intros s p Hs Hq; simpl.
  { exists s. by rewrite app_nil_r. }
  apply Forall_cons in Hq as [Hx Hl]. destruct (Hstep p x s Hs Hx) as (s' & -> & Hs'). cbn [rbind].
  destruct (IH s' _ Hs' Hl) as (s'' & E & H). exists s''. split; [done|].
  by rewrite <- app_assoc in H.
Qed.

(** ** Packing a row without nulls into an integer *)

Fixpoint packed (l : list (Z * Z)) : Z :=
  match l with [] => 0 | (w, v) :: l => wrap_u w v + 2 ^ w * packed l end.
Definition total (l : list Z) : Z := foldr Z.add 0 l.

Lemma total_cons w l : total (w :: l) = w + total l.
Proof. done. Qed.

Lemma packed_range l : Forall (λ p, 0 ≤ p.1) l → 0 ≤ packed l < 2 ^ total (fst <$> l) ∧ 0 ≤ total (fst <$> l).
Proof.
  induction 1 as [|[w v] l Hw Hl [IH IH']]; [done|]. rewrite fmap_cons, total_cons.
  cbn [fst packed] in *. rewrite Z.pow_add_r by lia. unfold wrap_u.
  pose proof (Z.pow_pos_nonneg 2 w ltac:(lia) Hw) as Hp2.
  pose proof (Z.mod_pos_bound v (2 ^ w) ltac:(lia)). nia.
Qed.

Lemma packed_inj l l' :
  Forall (λ p, 0 ≤ p.1) l → fst <$> l = fst <$> l' → packed l = packed l' →
  (λ p, wrap_u p.1 p.2) <$> l = (λ p, wrap_u p.1 p.2) <$> l'.
Proof.
  intros H. revert l'. induction H as [|[w v] l Hw Hl IH]; intros [|[w' v'] l'] Hf E; try done.
  rewrite !fmap_cons in *. injection Hf as <- Hf. simpl in *. unfold wrap_u in *.
  pose proof (Z.pow_pos_nonneg 2 w ltac:(lia) Hw) as Hp2.
  pose proof (Z.mod_pos_bound v (2 ^ w) ltac:(lia)). pose proof (Z.mod_pos_bound v' (2 ^ w) ltac:(lia)).
  destruct (Z.div_mod_unique (2 ^ w) (packed l) (packed l') (v mod 2 ^ w) (v' mod 2 ^ w)) as [E' ->];
    [by left|by left|lia|].
  by rewrite (IH l' Hf E').
Qed.

Lemma add_values_packed bits l :
  Forall (λ p, 0 ≤ p.1) l → ∀ res shift,
  0 ≤ shift → 0 ≤ res < 2 ^ shift → shift + total (fst <$> l) ≤ bits →
  (foldl (λ st p, add_value bits p.1 p.2 st) (res, shift) l).1 = res + 2 ^ shift * packed l.
Proof.
  induction 1 as [|[w v] l Hw Hl IH]; intros res shift Hs Hr Hb; cbn [foldl packed]; [simpl; lia|].
  rewrite fmap_cons, total_cons in Hb. cbn [fst snd add_value] in *. pose proof (packed_range l Hl) as [_ Ht].
  pose proof (Z.pow_pos_nonneg 2 w ltac:(lia) Hw) as Hp2.
  pose proof (Z.mod_pos_bound v (2 ^ w) ltac:(lia)) as Hv.
  rewrite Z.shiftl_mul_pow2 by lia.
  assert (2 ^ (shift + w) ≤ 2 ^ bits) by (apply Z.pow_le_mono_r; lia).
  assert (2 ^ (shift + w) = 2 ^ shift * 2 ^ w) as Hp by (apply Z.pow_add_r; lia).
  unfold wrap_u in *. rewrite (Z.mod_small (_ * _)) by nia. rewrite Z.mod_small by nia.
  rewrite IH by (lia || nia). rewrite Hp. lia.
Qed.

Definition digits (order : list nat) (widths : list Z) (cells : list cell) : list (Z * Z) :=
  omap (λ id, match cells !! id, widths !! id with Some c, Some w => Some (w, num c) | _, _ => None end) order.

Lemma construct_digits skip d cells :
  existsb is_null cells = false →
  construct_with skip d cells =
  (foldl (λ st p, add_value (value_bits d) p.1 p.2 st) (0, 0) (digits (order_ d) (bit_width_ d) cells)).1.
Proof.
  intros Hn. unfold construct_with. f_equal. generalize (0, 0). unfold digits.
  induction (order_ d) as [|id order IH]; intros st; [done|]. simpl.
  destruct (cells !! id) as [c|] eqn:Ec; [|apply IH].
  destruct (bit_width_ d !! id) as [w|]; [|apply IH]. simpl.
  rewrite (proj1 (existsb_false is_null cells) Hn c) by (by eapply list_elem_of_lookup_2).
  rewrite andb_false_r. apply IH.
Qed.

Lemma digits_fst order widths cells :
  length cells = length widths → (∀ id, id ∈ order → (id < length widths)%nat) →
  fst <$> digits order widths cells = (λ id, default 0 (widths !! id)) <$> order.
Proof.
  unfold digits. induction order as [|id order IH]; intros Hl Hid; [done|]. simpl.
  assert (id < length widths)%nat as Hi by (apply Hid; by left).
  destruct (lookup_lt_is_Some_2 cells id) as [c Hc]; [lia|].
  destruct (lookup_lt_is_Some_2 widths id) as [w Hw]; [lia|].
  rewrite Hc, Hw. simpl. f_equal. apply IH; [done|]. intros; apply Hid; by right.
Qed.

Lemma digits_snd order widths cells id c w :
  id ∈ order → cells !! id = Some c → widths !! id = Some w → (w, num c) ∈ digits order widths cells.
Proof. intros Hid Hc Hw. unfold digits. apply list_elem_of_omap. exists id. by rewrite Hc, Hw. Qed.

Lemma total_perm l l' : l ≡ₚ l' → total l = total l'.
Proof. unfold total. induction 1; simpl; lia. Qed.

Lemma total_seq widths : total ((λ id, default 0 (widths !! id)) <$> seq 0 (length widths)) = total widths.
Proof.
  f_equal. apply list_eq. intros i. rewrite list_lookup_fmap.
  destruct (decide (i < length widths)%nat) as [Hi|Hi].
  - rewrite lookup_seq_lt by done. destruct (lookup_lt_is_Some_2 widths i Hi) as [w Hw]. simpl. by rewrite Hw.
  - rewrite lookup_seq_ge by lia. rewrite lookup_ge_None_2 by lia. done.
Qed.

Lemma digits_inj order widths cells cells' :
  length cells = length widths → length cells' = length widths →
  (∀ id, id ∈ order → (id < length widths)%nat) →
  (λ p, wrap_u p.1 p.2) <$> digits order widths cells = (λ p, wrap_u p.1 p.2) <$> digits order widths cells' →
  ∀ id c c' w, id ∈ order → cells !! id = Some c → cells' !! id = Some c' → widths !! id = Some w →
  wrap_u w (num c) = wrap_u w (num c').
Proof.
  intros Hl Hl'. unfold digits. induction order as [|i order IH]; intros Hin E id c c' w Hid Hc Hc' Hw.
  { by apply elem_of_nil in Hid. }
  assert (i < length widths)%nat as Hi by (apply Hin; by left).
  destruct (lookup_lt_is_Some_2 cells i) as [d Hd]; [lia|].
  destruct (lookup_lt_is_Some_2 cells' i) as [d' Hd']; [lia|].
  destruct (lookup_lt_is_Some_2 widths i) as [u Hu]; [lia|].
  simpl in E. rewrite Hd, Hd', Hu in E. simpl in E. injection E as E1 E2.
  apply elem_of_cons in Hid as [->|Hid]; [by simplify_eq|].
  by apply (IH (λ j Hj, Hin j ltac:(by right)) E2 id).
Qed.

Record multi_ok (schema : list Arrow.type) (d : MultipleColumn) : Prop := {
  mo_types : types_ d = schema;
  mo_widths : Forall2 (λ t w, TypeToBitWidth t = Ok w) schema (bit_width_ d);
  mo_order : order_ d ≡ₚ seq 0 (length (bit_width_ d));
  mo_fits : total (bit_width_ d) ≤ value_bits d;
  mo_small : total (bit_width_ d) ≤ 128;
}.

Definition multi_key (d : MultipleColumn) (cells : list cell) : option Z :=
  if existsb is_null cells then None else Some (ConstructRow d cells).

Lemma TypeToBitWidth_bytes t w : TypeToBitWidth t = Ok w → ∃ n, number_bytes t = Some n ∧ w = 8 * Z.of_nat n ∧ 16 ≤ w.
Proof. destruct t; intros [=<-]; eexists; done. Qed.

Lemma wrap_s_u w v v' : wrap_u w v = wrap_u w v' → wrap_s w v = wrap_s w v'.
Proof. unfold wrap_u, wrap_s. by intros ->. Qed.

Section multiple.
Context (schema : list Arrow.type) (d : MultipleColumn) (Hd : multi_ok schema d).

Lemma widths_length : length (bit_width_ d) = length schema.
Proof. symmetry. by eapply Forall2_length, mo_widths. Qed.

Lemma row_length cells : row_ok schema cells → length cells = length schema.
Proof. intros [<- _ _]. by rewrite length_fmap. Qed.

Lemma order_elem id : id ∈ order_ d ↔ (id < length (bit_width_ d))%nat.
Proof. rewrite (mo_order _ _ Hd), elem_of_seq. lia. Qed.

Lemma widths_ge w : w ∈ bit_width_ d → 16 ≤ w.
Proof.
  intros [i Hw]%list_elem_of_lookup_1.
  destruct (Forall2_lookup_r _ _ _ _ _ (mo_widths _ _ Hd) Hw) as (t & _ & (n & _ & _ & H)%TypeToBitWidth_bytes).
  done.
Qed.

Lemma digits_nonneg cells : Forall (λ p, 0 ≤ p.1) (digits (order_ d) (bit_width_ d) cells).
Proof.
  apply Forall_forall. intros [w v] (id & _ & E)%list_elem_of_omap.
  destruct (cells !! id); [|done]. destruct (bit_width_ d !! id) eqn:Ew; simplify_eq/=.
  apply list_elem_of_lookup_2, widths_ge in Ew. lia.
Qed.

Lemma ConstructRow_packed skip cells :
  row_ok schema cells → existsb is_null cells = false →
  construct_with skip d cells = packed (digits (order_ d) (bit_width_ d) cells).
Proof.
  intros Hc Hn. rewrite construct_digits, add_values_packed with (res := 0) (shift := 0).
  - lia.
  - apply digits_nonneg.
  - lia.
  - simpl. lia.
  - rewrite digits_fst.
    + rewrite (total_perm _ ((λ id, default 0 (bit_width_ d !! id)) <$> seq 0 (length (bit_width_ d)))).
      * rewrite total_seq. apply Hd.
      * f_equiv. apply Hd.
    + rewrite row_length by done. by rewrite widths_length.
    + intros id. by rewrite order_elem.
  - done.
Qed.

Lemma ConstructRow_inj cells cells' :
  row_ok schema cells → row_ok schema cells' →
  existsb is_null cells = false → existsb is_null cells' = false →
  ConstructRow d cells = ConstructRow d cells' → row_value cells = row_value cells'.
Proof.
  intros Hc Hc' Hn Hn'. unfold ConstructRow. rewrite !ConstructRow_packed by done. intros E.
  assert (length cells = length (bit_width_ d) ∧ length cells' = length (bit_width_ d)) as [Hl Hl'].
  { rewrite !row_length by done. by rewrite widths_length. }
  apply packed_inj in E; [|apply digits_nonneg|rewrite !digits_fst; try done; intros id; by rewrite order_elem].
  pose proof (digits_inj _ _ _ _ Hl Hl' (λ id, proj1 (order_elem id)) E) as Hdig.
  unfold row_value. apply list_eq_same_length with (length cells); [by rewrite length_fmap; lia|by rewrite length_fmap|].
  intros i x y Hi Hx Hy. rewrite list_lookup_fmap in Hx, Hy.
  destruct (lookup_lt_is_Some_2 (bit_width_ d) i) as [w Hw]; [lia|].
  destruct (cells !! i) as [c|] eqn:Ec; [|done]. destruct (cells' !! i) as [c'|] eqn:Ec'; [|done].
  specialize (Hdig i c c' w ltac:(apply order_elem; lia) Ec Ec' Hw).
  destruct (Forall2_lookup_r _ _ _ _ _ (mo_widths _ _ Hd) Hw) as (t & Ht & (n & Hb & -> & _)%TypeToBitWidth_bytes).
  assert (type_id c = t ∧ type_id c' = t) as [Htc Htc'].
  { pose proof Ht as Ht'. rewrite <- (ro_types _ _ Hc), list_lookup_fmap, Ec in Ht.
    rewrite <- (ro_types _ _ Hc'), list_lookup_fmap, Ec' in Ht'. by simplify_eq/=. }
  assert (is_null c = false) as Nc by (apply (proj1 (existsb_false is_null cells) Hn), (list_elem_of_lookup_2 _ _ _ Ec)).
  assert (is_null c' = false) as Nc'
    by (apply (proj1 (existsb_false is_null cells') Hn'), (list_elem_of_lookup_2 _ _ _ Ec')).
  pose proof (ro_cells _ _ Hc c (list_elem_of_lookup_2 _ _ _ Ec) Nc) as Kc.
  pose proof (ro_cells _ _ Hc' c' (list_elem_of_lookup_2 _ _ _ Ec') Nc') as Kc'.
  unfold cell_ok in Kc, Kc'. rewrite Htc, Hb in Kc. rewrite Htc', Hb in Kc'.
  destruct Kc as (_ & v & Hv & Wv), Kc' as (_ & v' & Hv' & Wv').
  unfold num in Hdig. rewrite Hv, Hv' in Hdig. apply wrap_s_u in Hdig. rewrite Wv, Wv' in Hdig.
  simplify_eq/=. unfold value_of. rewrite Nc, Nc'. by rewrite Hv, Hv'.
Qed.

Lemma ConstructRow_value cells cells' :
  row_value cells = row_value cells' →
  existsb is_null cells = false → existsb is_null cells' = false →
  ConstructRow d cells = ConstructRow d cells'.
Proof.
  intros E Hn Hn'. unfold ConstructRow. rewrite !construct_digits by done. do 2 f_equal.
  unfold digits. apply list_omap_ext, Forall_Forall2_diag, Forall_forall. intros id _.
  pose proof (f_equal (lookup id) E) as Ei. unfold row_value in Ei. rewrite !list_lookup_fmap in Ei.
  destruct (cells !! id) as [c|] eqn:Ec, (cells' !! id) as [c'|] eqn:Ec'; simpl in Ei; try done.
  injection Ei as Ei. unfold value_of in Ei.
  rewrite (proj1 (existsb_false is_null cells) Hn c (list_elem_of_lookup_2 _ _ _ Ec)) in Ei.
  rewrite (proj1 (existsb_false is_null cells') Hn' c' (list_elem_of_lookup_2 _ _ _ Ec')) in Ei.
  injection Ei as Ei. unfold num. by rewrite Ei.
Qed.

(** Equal rows are null in the same columns. *)
Lemma row_value_nulls cells cells' :
  row_value cells = row_value cells' → existsb is_null cells = existsb is_null cells'.
Proof.
  unfold row_value. revert cells'. induction cells as [|c cells IH]; intros [|c' cells'] E; try done.
  rewrite !fmap_cons in E. injection E as E Es. simpl. rewrite (IH _ Es). f_equal.
  unfold value_of in E. by destruct (is_null c), (is_null c').
Qed.

Lemma multi_key_inj cells cells' k :
  row_ok schema cells → row_ok schema cells' → existsb is_null cells' = false → multi_key d cells' = Some k →
  multi_key d cells = Some k ↔ row_value cells = row_value cells'.
Proof.
  unfold multi_key. intros Hc Hc' Hn'. rewrite Hn'. intros [= <-]. split.
  - destruct (existsb is_null cells) eqn:Hn; [done|]. intros [= E]. by apply ConstructRow_inj.
  - intros E. rewrite (row_value_nulls _ _ E), Hn'. f_equal. apply ConstructRow_value; try done.
    by rewrite (row_value_nulls _ _ E).
Qed.

(** The packed columns fit the 8 bits of the mask. *)
Lemma columns_le_8 : (length schema ≤ 8)%nat.
Proof.
  rewrite <- widths_length. pose proof (mo_small _ _ Hd) as H. pose proof widths_ge as Hge.
  assert (16 * Z.of_nat (length (bit_width_ d)) ≤ total (bit_width_ d)) as Hl; [|lia].
  clear H. induction (bit_width_ d) as [|w l IH]; [done|]. rewrite total_cons. cbn [length].
  pose proof (Hge w ltac:(by left)). specialize (IH (λ u Hu, Hge u ltac:(by right))). lia.
Qed.

Lemma wrap_u_8_lor a b : wrap_u 8 (Z.lor a b) = Z.lor (wrap_u 8 a) (wrap_u 8 b).
Proof. unfold wrap_u. rewrite <- !Z.land_ones by lia. by rewrite Z.land_lor_distr_l. Qed.

Lemma mask_bit id : (id < 8)%nat → wrap_u 8 (Z.shiftl 1 (Z.of_nat id)) ≠ 0.
Proof. intros H. do 8 (destruct id as [|id]; [done|]). lia. Qed.

Lemma nulls_mask_zero cells :
  row_ok schema cells → nulls_mask d cells = 0 ↔ existsb is_null cells = false.
Proof.
  intros Hc. unfold nulls_mask.
  assert (∀ order mask, (∀ id, id ∈ order → (id < 8)%nat) → wrap_u 8 mask = mask →
    foldl (λ mask id, match cells !! id with
                      | Some c => if is_null c then wrap_u 8 (Z.lor mask (Z.shiftl 1 (Z.of_nat id))) else mask
                      | None => mask
                      end) mask order = 0 ↔
    mask = 0 ∧ ∀ id c, id ∈ order → cells !! id = Some c → is_null c = false) as Hgen.
  { induction order as [|id order IH]; intros mask H8 Hm; cbn [foldl].
    { split; [|tauto]. intros ->. split; [done|]. by intros ? ? ?%elem_of_nil. }
    setoid_rewrite elem_of_cons. pose proof (λ j Hj, H8 j (list_elem_of_further j id order Hj)) as H8'.
    assert (∀ (P : Prop), (∀ c, cells !! id = Some c → is_null c = false) →
      (P ∧ ∀ j c, j ∈ order → cells !! j = Some c → is_null c = false) ↔
      (P ∧ ∀ j c, j = id ∨ j ∈ order → cells !! j = Some c → is_null c = false)) as Hskip by naive_solver.
    destruct (cells !! id) as [c|] eqn:Ec.
    - destruct (is_null c) eqn:En.
      + rewrite IH; [|done|].
        2:{ unfold wrap_u. by rewrite Zmod_mod. }
        rewrite wrap_u_8_lor, Z.lor_eq_0_iff. split.
        * intros [[_ []%mask_bit] _]. apply H8. by left.
        * intros [_ H]. by rewrite (H id c (or_introl eq_refl) Ec) in En.
      + rewrite IH by done. apply Hskip. naive_solver.
    - rewrite IH by done. apply Hskip. naive_solver. }
  rewrite Hgen; [|intros id Hid%order_elem; pose proof columns_le_8; rewrite widths_length in Hid; lia|done].
  rewrite existsb_false. split.
  - intros [_ H] c [i Hi]%list_elem_of_lookup_1. apply (H i c); [|done].
    apply order_elem. rewrite widths_length, <- (row_length _ Hc). by eapply lookup_lt_Some.
  - intros H. split; [done|]. intros id c _ Hi. apply H. by eapply list_elem_of_lookup_2.
Qed.
End multiple.

(** ** The three tables implement the specification *)

Definition one_key (cells : list cell) : option Z :=
  match cells with [c] => if is_null c then None else Some (num c) | _ => None end.

Inductive implements (schema : list Arrow.type) : EqualityDelete → list (list cell * Z) → Prop :=
| impl_generic m adds :
    (length schema ≤ 64)%nat → holds m generic_key adds → implements schema (GenericDelete m) adds
| impl_one d adds :
    schema = [one_type d] → one_column_type (one_type d) = true → holds (one_values d) one_key adds →
    implements schema (OneColumnDelete d) adds
| impl_multiple d adds :
    multi_ok schema d → holds (values_ d) (multi_key d) adds → implements schema (MultipleColumnDelete d) adds.

Lemma make_implements `{WidthSort} schema use_specialized :
  (length schema ≤ 64)%nat → ∃ d, MakeEqualityDelete schema use_specialized = Ok d ∧ implements schema d [].
Proof.
  intros H64. unfold MakeEqualityDelete.
  assert (implements schema (GenericDelete ∅) []) as Hgen by (constructor; [done|apply holds_empty]).
  destruct use_specialized; simpl; [|by eauto].
  assert (∃ d, match map_ok TypeToBitWidth schema with
    | Err _ => Ok (GenericDelete ∅)
    | Ok widths => if 128 <? foldr Z.add 0 widths then Ok (GenericDelete ∅)
        else Ok (MultipleColumnDelete
          {| value_bits := if foldr Z.add 0 widths <=? 32 then 32 else if foldr Z.add 0 widths <=? 64 then 64 else 128;
             types_ := schema; order_ := sort_by_width widths (seq 0 (length widths));
             bit_width_ := widths; values_ := ∅; values_with_nulls_ := ∅ |})
    end = Ok d ∧ implements schema d []) as Hmany.
  { destruct (map_ok TypeToBitWidth schema) as [widths|] eqn:Ew; [|by eauto].
    destruct (Z.ltb_spec 128 (foldr Z.add 0 widths)); [by eauto|]. eexists. split; [done|].
    apply impl_multiple; [|apply holds_empty]. split; simpl; try done.
    - by apply map_ok_Forall2.
    - apply sort_by_width_perm.
    - unfold total. repeat case_match; lia. }
  destruct schema as [|t [|t' schema]]; try done.
  destruct (one_column_type t) eqn:Et; [|by eauto].
  eexists. split; [done|]. apply impl_one; [done|done|apply holds_empty].
Qed.

Definition with_layer (dl : Z) (rows : list (list cell)) : list (list cell * Z) := (λ cells, (cells, dl)) <$> rows.

Lemma generic_Add_implements schema m adds rows dl :
  implements schema (GenericDelete m) adds → Forall (row_ok schema) rows →
  ∃ m', generic_Add m (length schema) rows dl = Ok m' ∧ implements schema (GenericDelete m') (adds ++ with_layer dl rows).
Proof.
  intros Hi Hrows. inversion Hi as [? ? H64 Hm| |]; subst. unfold generic_Add.
  destruct (Z.ltb_spec 64 (Z.of_nat (length schema))); [lia|].
  destruct (fold_ok_total (λ m p, implements schema (GenericDelete m) (adds ++ with_layer dl p)) (row_ok schema)
    (λ values cells, let! key := GenericDeleteKey cells in Ok (UpdateMax values key dl)) rows) with (s := m) (p := @nil (list cell))
    as (m' & E & Hm'); [| |done|by eauto].
  - intros p cells s Hs Hc. pose proof (GenericDeleteKey_short schema cells Hc) as Ek. rewrite Ek. cbn [rbind].
    eexists. split; [done|]. unfold with_layer. rewrite fmap_app, app_assoc. simpl.
    inversion Hs; subst. constructor; [done|]. apply holds_add; [done|]. unfold generic_key. by rewrite Ek.
  - by rewrite app_nil_r.
Qed.

Lemma one_Add_implements schema d adds rows dl :
  implements schema (OneColumnDelete d) adds → Forall (row_ok schema) rows →
  ∃ d', one_Add d schema rows dl = Ok d' ∧ implements schema (OneColumnDelete d') (adds ++ with_layer dl rows).
Proof.
  intros Hi Hrows. inversion Hi as [|? ? Hs Ht Hm|]; subst. unfold one_Add. rewrite bool_decide_true by done. simpl.
  assert (∀ d0 p, one_type d0 = one_type d → holds (one_values d0) one_key (adds ++ with_layer dl p) →
    implements [one_type d] (OneColumnDelete d0) (adds ++ with_layer dl p)) as Hmk.
  { intros d0 p E H. apply impl_one; [by rewrite E|by rewrite E|done]. }
  destruct (fold_ok_total (λ d0 p, one_type d0 = one_type d ∧ holds (one_values d0) one_key (adds ++ with_layer dl p))
    (row_ok [one_type d]) (one_add_row dl) rows) with (s := d) (p := @nil (list cell)) as (d' & E & Hd' & H);
    [| |done|by eauto].
  - intros p cells s [Hs1 Hs2] Hc. unfold with_layer in *. rewrite fmap_app, app_assoc. simpl.
    pose proof (ro_types _ _ Hc) as Hty. destruct cells as [|c [|c' cells]]; try done. simpl.
    destruct (is_null c) eqn:En; eexists; (split; [done|]); (split; [done|]).
    + apply holds_skip; [done|]. simpl. by rewrite En.
    + apply holds_add; [done|]. simpl. by rewrite En.
  - by rewrite app_nil_r.
Qed.

Lemma multiple_add_row_ok schema with_nulls dl d adds cells :
  multi_ok schema d → holds (values_ d) (multi_key d) adds → row_ok schema cells →
  (existsb is_null cells = true → with_nulls = true) →
  let d' := multiple_add_row with_nulls dl d cells in
  multi_ok schema d' ∧ holds (values_ d') (multi_key d') (adds ++ [(cells, dl)]).
Proof.
  intros Hd Hh Hc Hw. unfold multiple_add_row. destruct with_nulls; simpl.
  - pose proof (nulls_mask_zero schema d Hd cells Hc) as Hz.
    destruct (Z.eqb_spec (nulls_mask d cells) 0) as [E|E].
    + split; [by destruct Hd|]. apply (holds_add _ (multi_key d)); [done|].
      unfold multi_key. rewrite (proj1 Hz E). f_equal.
      unfold ConstructRow, ConstructRowIgnoreNulls. by rewrite !(ConstructRow_packed schema) by tauto.
    + split; [by destruct Hd|]. apply (holds_skip _ (multi_key d)); [done|].
      unfold multi_key. destruct (existsb is_null cells); [done|]. tauto.
  - split; [by destruct Hd|]. apply (holds_add _ (multi_key d)); [done|].
    unfold multi_key. destruct (existsb is_null cells); [by specialize (Hw eq_refl)|done].
Qed.

Lemma multiple_Add_implements schema d adds rows dl :
  implements schema (MultipleColumnDelete d) adds → Forall (row_ok schema) rows →
  ∃ d', multiple_Add d schema rows dl = Ok d' ∧
        implements schema (MultipleColumnDelete d') (adds ++ with_layer dl rows).
Proof.
  intros Hi Hrows. inversion Hi as [| |? ? Hd Hm]; subst. unfold multiple_Add.
  rewrite (mo_types _ _ Hd), !bool_decide_true by done. simpl.
  pose proof (columns_le_8 schema d Hd).
  destruct (Z.leb_spec 9 (Z.of_nat (length schema))); [lia|]. rewrite andb_false_r.
  eexists. split; [done|].
  assert (∀ cells, cells ∈ rows → existsb is_null cells = true → existsb (existsb is_null) rows = true) as Hw.
  { intros cells Hc Hn. apply existsb_exists. exists cells. by rewrite <- list_elem_of_In. }
  revert Hw. generalize (existsb (existsb is_null) rows) as with_nulls. intros with_nulls Hw.
  clear Hi. unfold with_layer. revert d adds Hd Hm. induction rows as [|cells rows IH]; intros d adds Hd Hm.
  { simpl. rewrite app_nil_r. by constructor. }
  apply Forall_cons in Hrows as [Hc Hrows].
  destruct (multiple_add_row_ok schema with_nulls dl d adds cells Hd Hm Hc (Hw cells ltac:(by left))) as [Hd' Hm'].
  rewrite fmap_cons. cbn [foldl].
  replace (adds ++ (cells, dl) :: _) with ((adds ++ [(cells, dl)]) ++ ((λ cells, (cells, dl)) <$> rows))
    by by rewrite <- app_assoc.
  apply IH; try done. intros; eapply Hw; [by right|done].
Qed.

Lemma Add_implements schema d adds rows dl :
  implements schema d adds → Forall (row_ok schema) rows →
  ∃ d', Add d schema rows dl = Ok d' ∧ implements schema d' (adds ++ with_layer dl rows) ∧ is_generic d' = is_generic d.
Proof.
  intros Hi Hrows. destruct d as [m|d|d]; simpl.
  - destruct (generic_Add_implements schema m adds rows dl) as (m' & -> & H); eauto.
  - destruct (one_Add_implements schema d adds rows dl) as (d' & -> & H); eauto.
  - destruct (multiple_Add_implements schema d adds rows dl) as (d' & -> & H); eauto.
Qed.

Lemma IsDeleted_implements schema d adds cells dl :
  implements schema d adds → (∀ a, a ∈ adds → row_ok schema a.1) → row_ok schema cells →
  is_generic d = true ∨ existsb is_null cells = false →
  IsDeleted d cells dl = Ok (matches adds cells dl).
Proof.
  intros Hi Hadds Hc Hn. destruct Hi as [m adds H64 Hm|d adds Hs Ht Hm|d adds Hd Hm]; simpl in *.
  - unfold generic_IsDeleted. pose proof (GenericDeleteKey_short schema cells Hc) as Ek. rewrite Ek. cbn [rbind].
    f_equal. eapply holds_matches; [done|by unfold generic_key; rewrite Ek|].
    intros a Ha. rewrite <- (generic_key_inj schema); [|done|by apply Hadds|done].
    unfold generic_key. rewrite Ek, (GenericDeleteKey_short schema a.1) by (by apply Hadds).
    split; [by intros ->%(inj Some)|by intros ->%(inj Ok)].
  - destruct Hn as [Hn|Hn]; [done|]. pose proof (ro_types _ _ Hc) as Hty. rewrite Hs in Hty.
    destruct cells as [|c [|c' cells]]; try done. simpl in Hn. rewrite orb_false_r in Hn. simpl. rewrite Hn. f_equal.
    eapply holds_matches; [done|by simpl; rewrite Hn|].
    intros [cs l] Ha. apply Hadds in Ha. simpl in *. pose proof (ro_types _ _ Ha) as Hty'. rewrite Hs in Hty'.
    destruct cs as [|c' [|c'' cs]]; try done. simpl.
    pose proof (ro_cells _ _ Hc c ltac:(by left) Hn) as Kc. injection Hty as Hty. injection Hty' as Hty'.
    unfold row_value. simpl. unfold value_of. rewrite Hn. destruct (is_null c') eqn:En; [done|].
    pose proof (ro_cells _ _ Ha c' ltac:(by left) En) as Kc'.
    unfold cell_ok in Kc, Kc'. rewrite Hty in Kc. rewrite Hty' in Kc'. unfold num.
    destruct (one_type d); simpl in Ht, Kc, Kc'; try done;
      destruct Kc as (_ & v & -> & _), Kc' as (_ & v' & -> & _); naive_solver.
  - destruct Hn as [Hn|Hn]; [done|]. unfold multiple_IsDeleted. rewrite Hn. simpl. f_equal.
    eapply holds_matches; [done|by unfold multi_key; rewrite Hn|].
    intros a Ha. apply (multi_key_inj schema); try done; [by apply Hadds|]. unfold multi_key. by rewrite Hn.
Qed.

(** A table without rows deletes nothing. *)
Lemma Size_zero schema d adds cells dl :
  implements schema d adds → row_ok schema cells → is_generic d = true ∨ existsb is_null cells = false →
  Size d ≤ 0 → IsDeleted d cells dl = Ok false.
Proof.
  intros Hi Hc Hn Hs. destruct Hi as [m adds H64 Hm|d adds Hsc Ht Hm|d adds Hd Hm]; cbn [Size is_generic IsDeleted] in *.
  - unfold generic_IsDeleted. rewrite (GenericDeleteKey_short schema cells Hc). cbn [rbind].
    rewrite (map_size_empty_inv m) by lia. by rewrite lookup_empty.
  - destruct Hn as [Hn|Hn]; [done|]. pose proof (ro_types _ _ Hc) as Hty. rewrite Hsc in Hty.
    destruct cells as [|c [|c' cells]]; try done. simpl in Hn. rewrite orb_false_r in Hn. simpl. rewrite Hn.
    rewrite (map_size_empty_inv (one_values d)) by (case_match; lia). by rewrite lookup_empty.
  - destruct Hn as [Hn|Hn]; [done|]. unfold multiple_IsDeleted. rewrite Hn. simpl.
    rewrite (map_size_empty_inv (values_ d)); [by rewrite lookup_empty|].
    assert (Z.of_nat (size (values_ d)) ≤ foldr (λ p n, Z.of_nat (size p.2) + n) (Z.of_nat (size (values_ d)))
      (map_to_list (values_with_nulls_ d))); [|lia].
    clear. induction (map_to_list (values_with_nulls_ d)); simpl; lia.
Qed.

(** ** Sizes *)

Lemma UpdateMax_size {K} `{Countable K} (m : gmap K Z) k v : (size (UpdateMax m k v) ≤ S (size m))%nat.
Proof. unfold UpdateMax. destruct (m !! k) as [o|] eqn:E; rewrite map_size_insert, E; simpl; lia. Qed.

Lemma fold_ok_measure {A S} (mu : S → Z) (f : S → A → result S) l s s' :
  (∀ s x s', f s x = Ok s' → mu s' ≤ mu s + 1) → fold_ok f s l = Ok s' → mu s' ≤ mu s + Z.of_nat (length l).
Proof.
  intros Hf. revert s. induction l as [|x l IH]; intros s E; simpl in E; inv_ok; [simpl; lia|].
  apply IH in E. apply Hf in Ha. cbn [length]. lia.
Qed.

Lemma sizes_perm (n : Z) (l l' : list (Z * gmap Z Z)) :
  l ≡ₚ l' → foldr (λ p n, Z.of_nat (size p.2) + n) n l = foldr (λ p n, Z.of_nat (size p.2) + n) n l'.
Proof. induction 1; cbn [foldr]; lia. Qed.

Lemma null_sizes_add (n : Z) (M : gmap Z (gmap Z Z)) k m :
  (size m ≤ S (size (default ∅ (M !! k) : gmap Z Z)))%nat →
  foldr (λ p n, Z.of_nat (size p.2) + n) n (map_to_list (<[k := m]> M)) ≤
  foldr (λ p n, Z.of_nat (size p.2) + n) n (map_to_list M) + 1.
Proof.
  intros Hm. rewrite <- insert_delete_eq.
  rewrite (sizes_perm _ _ _ (map_to_list_insert (delete k M) k m ltac:(by rewrite lookup_delete_eq))).
  cbn [foldr snd]. destruct (M !! k) as [m0|] eqn:E; simpl in Hm.
  - rewrite <- (sizes_perm _ _ _ (map_to_list_delete M k m0 E)). cbn [foldr snd]. lia.
  - rewrite delete_id by done. rewrite map_size_empty in Hm. lia.
Qed.

Lemma multiple_add_row_size with_nulls dl d cells :
  Size (MultipleColumnDelete (multiple_add_row with_nulls dl d cells)) ≤ Size (MultipleColumnDelete d) + 1.
Proof.
  assert (∀ k, Size (MultipleColumnDelete (set_values (UpdateMax (values_ d) k dl) d)) ≤
    Size (MultipleColumnDelete d) + 1) as Hv.
  { intros k. cbn [Size values_ values_with_nulls_ set_values]. pose proof (UpdateMax_size (values_ d) k dl).
    induction (map_to_list (values_with_nulls_ d)); cbn [foldr]; lia. }
  unfold multiple_add_row. destruct with_nulls; simpl negb; cbv iota; [|apply Hv].
  destruct (nulls_mask d cells =? 0); [apply Hv|].
  cbn [Size values_ values_with_nulls_ set_null_values]. apply null_sizes_add, UpdateMax_size.
Qed.

(** [Size] grows by at most one per row. *)
Lemma Add_size d types rows dl d' :
  Add d types rows dl = Ok d' → Size d' ≤ Size d + Z.of_nat (length rows).
Proof.
  destruct d as [m|d|d]; cbn [Add]; intros E; inv_ok; cbn [Size].
  - unfold generic_Add in *. case_match; [done|].
    eapply (fold_ok_measure (λ m : GenericTable, Z.of_nat (size m))); [|done].
    intros s x s' E. apply rbind_Ok_inv in E as (key & _ & [= <-]). pose proof (UpdateMax_size s key dl). lia.
  - unfold one_Add in *. destruct types as [|t [|t' types]]; [done| |done]. case_match; [done|].
    eapply (fold_ok_measure (λ d, Size (OneColumnDelete d))); [|done].
    intros s x s' E. unfold one_add_row in E. destruct x as [|c [|c' x]]; [done| |done].
    destruct (is_null c); inv_ok; cbn [Size one_values contains_null].
    + destruct (contains_null s); lia.
    + pose proof (UpdateMax_size (one_values s) (num c) dl). lia.
  - unfold multiple_Add in *. do 3 (case_match; [done|]). inv_ok.
    change (Size (MultipleColumnDelete (foldl (multiple_add_row (existsb (existsb is_null) rows) dl) d rows)) ≤
      Size (MultipleColumnDelete d) + Z.of_nat (length rows)).
    generalize (existsb (existsb is_null) rows). intros b. clear.
    revert d. induction rows as [|cells rows IH]; intros d; cbn [foldl length]; [lia|].
    specialize (IH (multiple_add_row b dl d cells)). pose proof (multiple_add_row_size b dl d cells). lia.
Qed.

Lemma add_batches_implements schema d adds batches :
  implements schema d adds → Forall (λ b, Forall (row_ok schema) b.1) batches →
  ∃ d', add_batches d schema batches = Ok d' ∧ implements schema d' (adds ++ added batches) ∧
        is_generic d' = is_generic d.
Proof.
  intros Hi Hb. unfold add_batches.
  destruct (fold_ok_total (λ d' p, implements schema d' (adds ++ added p) ∧ is_generic d' = is_generic d)
    (λ b, Forall (row_ok schema) b.1) (λ d b, Add d schema b.1 b.2) batches) with (s := d)
    (p := @nil (list (list cell) * Z)) as (d' & E & Hd' & Hg); [| |done|by eauto].
  - intros p b s [Hs Hg] Hrows. destruct (Add_implements schema s _ b.1 b.2 Hs Hrows) as (s' & -> & Hs' & Hg').
    exists s'. split; [done|]. split; [|congruence]. unfold added in *. rewrite flat_map_app, app_assoc. simpl.
    by rewrite app_nil_r.
  - unfold added. simpl. by rewrite app_nil_r.
Qed.

Lemma added_elem schema batches a :
  Forall (λ b, Forall (row_ok schema) b.1) batches → a ∈ added batches → row_ok schema a.1.
Proof.
  rewrite Forall_forall. intros Hb (b & Hin & (cells & -> & Hc)%list_elem_of_fmap)%elem_of_flat_map.
  apply Hb in Hin. rewrite Forall_forall in Hin. by apply Hin.
Qed.

(** ** Where the tables deviate *)

Definition number_cell (t : Arrow.type) (width : Z) (null : bool) (v : Z) : cell :=
  {| type_id := t; byte_width := width; is_null := null; view := Num v |}.
Definition text_cell (t : Arrow.type) (width : Z) (b : list Byte.byte) : cell :=
  {| type_id := t; byte_width := width; is_null := false; view := Text b |}.

(** One integer column.  A deleted null deletes the null rows of every data
    file, also of the layers newer than the delete, to which it does not apply. *)
Theorem one_column_null_ignores_layers `{WidthSort} (slot slot' delete_layer data_layer : Z) :
  let row := [number_cell Arrow.INT64 8 true slot] in
  let data := [number_cell Arrow.INT64 8 true slot'] in
  ∃ d, (let! d0 := MakeEqualityDelete [Arrow.INT64] true in Add d0 [Arrow.INT64] [row] delete_layer) = Ok d ∧
       IsDeleted d data data_layer = Ok true ∧
       matches [(row, delete_layer)] data data_layer = (data_layer <=? delete_layer).
Proof.
  eexists. split; [done|]. split; [done|]. unfold matches. simpl. by rewrite orb_false_r.
Qed.

(** Several integer columns.  The values that two equal rows happen to hold
    under a null take part in the comparison: the delete misses its row. *)
Theorem multiple_column_null_slots (layer : Z) :
  let types := [Arrow.INT32; Arrow.INT32] in
  let row := [number_cell Arrow.INT32 4 true 0; number_cell Arrow.INT32 4 false 1] in
  let data := [number_cell Arrow.INT32 4 true 7; number_cell Arrow.INT32 4 false 1] in
  ∃ d, (let! d0 := @MakeEqualityDelete stable_width_sort types true in Add d0 types [row] layer) = Ok d ∧
       IsDeleted d data layer = Ok false ∧ IsDeleted d row layer = Ok true ∧
       matches [(row, layer)] data layer = true.
Proof.
  eexists. split; [by vm_compute|]. split; [by vm_compute|]. split.
  - trans (Ok (layer <=? layer)); [by vm_compute|by rewrite Z.leb_refl].
  - unfold matches. simpl. by rewrite Z.leb_refl.
Qed.

(** The size of a generic key is kept in 16 bits.  Of keys of 65536 bytes
    nothing is compared: one deleted string of that length deletes every other. *)
Theorem generic_long_keys_collide (b b' : list Byte.byte) (layer : Z)
    (Hb : length b = Z.to_nat 65524) (Hb' : length b' = Z.to_nat 65524) :
  (let! m := generic_Add ∅ 1 [[text_cell Arrow.STRING (-1) b]] layer in
   generic_IsDeleted m [text_cell Arrow.STRING (-1) b'] layer) = Ok true.
Proof.
  assert (∀ t, length t = Z.to_nat 65524 → GenericDeleteKey [text_cell Arrow.STRING (-1) t] = Ok []) as Hk.
  { intros t Ht.
    assert (length (images [text_cell Arrow.STRING (-1) t]) = Z.to_nat 65528) as Hl.
    { change (images _) with (WriteStringViewToData t ++ []). rewrite app_nil_r. unfold WriteStringViewToData.
      rewrite length_app, le_encode_length. lia. }
    rewrite GenericDeleteKey_sized.
    - f_equal. unfold SizedPtr. rewrite length_app, le_encode_length, Hl, Nat2Z.inj_add, Z2Nat.id by lia.
      change (wrap_u 16 (Z.of_nat 8 + 65528)) with 0. by rewrite take_0.
    - intros c ->%list_elem_of_singleton _. split; [by left|]. split; [done|]. by eexists.
    - rewrite Hl. change (2 ^ 32) with 4294967296. lia. }
  unfold generic_Add, generic_IsDeleted. cbn [fold_ok]. rewrite !Hk by done. cbn [rbind].
  change (64 <? Z.of_nat 1) with false. cbv iota. cbn [rbind].
  rewrite UpdateMax_layer, bool_decide_true by done. rewrite Z.leb_refl. by rewrite orb_true_r.
Qed.

(** For a value of fixed size (a decimal, a UUID) the key's buffer has room
    for the value and not for the four bytes of its length, which are written
    too: the write leaves the buffer. *)
Theorem generic_fixed_size_overflow (t : Arrow.type) (b : list Byte.byte)
    (Ht : t = Arrow.FIXED_SIZE_BINARY ∨ t = Arrow.DECIMAL128) (Hb : Z.of_nat (length b) < 2 ^ 32 - 8) :
  GenericDeleteKey [text_cell t (Z.of_nat (length b)) b] =
  Err (Exn "undefined: write past the end of the key").
Proof.
  change (2 ^ 32) with 4294967296 in Hb. unfold GenericDeleteKey. cbn [total_width is_null text_cell].
  assert (GetWidth (text_cell t (Z.of_nat (length b)) b) = Ok (Z.of_nat (length b))) as ->.
  { unfold GetWidth. cbn [byte_width text_cell]. by destruct (Z.eqb_spec (Z.of_nat (length b)) (-1)); [lia|]. }
  cbn [rbind].
  rewrite Z.add_0_r. assert (wrap_u 32 (8 + Z.of_nat (length b)) = 8 + Z.of_nat (length b)) as ->.
  { unfold wrap_u. change (2 ^ 32) with 4294967296. apply Z.mod_small. lia. }
  unfold put at 1. rewrite app_nil_l, le_encode_length, Ensure_true by (apply Z.leb_le; lia). cbn [rbind].
  cbn [write_cells is_null]. assert (WriteToData (text_cell t (Z.of_nat (length b)) b) = Ok (WriteStringViewToData b))
    as -> by (by destruct Ht as [-> | ->]).
  cbn [rbind]. unfold put, WriteStringViewToData, Ensure. rewrite !length_app, !le_encode_length.
  destruct (Z.leb_spec (Z.of_nat (8 + (4 + length b))) (8 + Z.of_nat (length b))); [lia|]. done.
Qed.

(** ** Witnesses *)

#[local] Existing Instance stable_width_sort.

Definition int_row (a b : Z) : list cell := [number_cell Arrow.INT32 4 false a; number_cell Arrow.INT64 8 false b].

Lemma int_row_ok a b : in_i32 a → in_i64 b → row_ok [Arrow.INT32; Arrow.INT64] (int_row a b).
Proof.
  intros Ha Hb. split; [done| |].
  - intros c Hc _. repeat (apply elem_of_cons in Hc as [->|Hc]); [| |by apply elem_of_nil in Hc].
    + split; [done|]. exists a. split; [done|]. by apply wrap_s_32_id.
    + split; [done|]. exists b. split; [done|]. by apply wrap_s_64_id.
  - change (images _) with (le_encode 4 a ++ (le_encode 8 b ++ [])).
    rewrite !length_app, !le_encode_length. simpl. lia.
Qed.

Lemma generic_long_keys_collide_witness :
  (let! m := generic_Add ∅ 1 [[text_cell Arrow.STRING (-1) (replicate (Z.to_nat 65524) Byte.x61)]] 1 in
   generic_IsDeleted m [text_cell Arrow.STRING (-1) (replicate (Z.to_nat 65524) Byte.x62)] 1) = Ok true.
Proof. apply generic_long_keys_collide; apply length_replicate. Defined.

Lemma generic_fixed_size_overflow_witness :
  GenericDeleteKey [text_cell Arrow.DECIMAL128 (Z.of_nat (length (replicate 16 Byte.x00))) (replicate 16 Byte.x00)] =
  Err (Exn "undefined: write past the end of the key").
Proof. apply generic_fixed_size_overflow; [by right|done]. Defined.
