(* ===== verification/MemoryAccounting.v ===== *)
(** * MemoryAccounting: the memory limit of equality deletes

    [MemoryState], [LimitedAllocator], [ExceptionFlagGuard] and the wrapper
    [safe::FlatHashMap] of [iceberg/equality_delete/utils.h], and the keys of
    [generic_delete.h] that count their own bytes.

    The sizes are [size_t]: they wrap at [2^64].  The hash map of Abseil is a parameter
    ([AbslMap]): when it grows and how many bytes its array takes. *)

From stdpp Require Import base list strings gmap.
From Stdlib Require Import ZArith Lia.
From S2P Require Import Prelude Bytes EqualityDelete.

Local Open Scope Z_scope.

Definition size_max : Z := uint64_max.
Definition usize (v : Z) : Z := wrap_u 64 v.

(** ** [MemoryState] *)

Record MemoryState := {
  max_size_ : option Z;
  allow_throw_ : bool;
  limit_exceeded_ : bool;
  allocated_size_ : Z;
  throw_on_alloc_exceeded_ : bool;
}.

Definition make_MemoryState (max_size : option Z) (throw_if_memory_limit_exceeded : bool) : MemoryState :=
  {| max_size_ := max_size; allow_throw_ := true; limit_exceeded_ := false; allocated_size_ := 0;
     throw_on_alloc_exceeded_ := throw_if_memory_limit_exceeded |}.

Definition set_allocated (v : Z) (s : MemoryState) : MemoryState :=
  {| max_size_ := max_size_ s; allow_throw_ := allow_throw_ s; limit_exceeded_ := limit_exceeded_ s; allocated_size_ := v;
     throw_on_alloc_exceeded_ := throw_on_alloc_exceeded_ s |}.
Definition set_exceeded (s : MemoryState) : MemoryState :=
  {| max_size_ := max_size_ s; allow_throw_ := allow_throw_ s; limit_exceeded_ := true; allocated_size_ := allocated_size_ s;
     throw_on_alloc_exceeded_ := throw_on_alloc_exceeded_ s |}.
Definition set_allow (b : bool) (s : MemoryState) : MemoryState :=
  {| max_size_ := max_size_ s; allow_throw_ := b; limit_exceeded_ := limit_exceeded_ s; allocated_size_ := allocated_size_ s;
     throw_on_alloc_exceeded_ := throw_on_alloc_exceeded_ s |}.

(** A computation on the shared state returns, throws, or ends the process. *)
Inductive outcome (A : Type) := Returned (a : A) | Threw (f : failure) | Terminated.
Arguments Returned {A} _.
Arguments Threw {A} _.
Arguments Terminated {A}.

Definition mem (A : Type) : Type := MemoryState → outcome A * MemoryState.

#[export] Instance mem_ret : MRet mem := λ A a s, (Returned a, s).
#[export] Instance mem_bind : MBind mem := λ A B k c s,
  match c s with
  | (Returned a, s) => k a s
  | (Threw f, s) => (Threw f, s)
  | (Terminated, s) => (Terminated, s)
  end.

Definition bad_alloc : failure := Exn "std::bad_alloc".
Definition throw {A} (f : failure) : mem A := λ s, (Threw f, s).
Definition modify (f : MemoryState → MemoryState) : mem unit := λ s, (Returned (), f s).

(** The destructor of a local object: [c] runs however the body ends. *)
Definition finally {A} (body : mem A) (c : MemoryState → MemoryState) : mem A := λ s, let '(r, s) := body s in (r, c s).

Definition AllocateCommon (bytes : Z) (s : MemoryState) : result unit * MemoryState :=
  let exceeds := match max_size_ s with Some max => usize (max - allocated_size_ s) <? bytes | None => false end in
  if exceeds && (throw_on_alloc_exceeded_ s && allow_throw_ s) then (Err (StatusError "Error to allocate"), s)
  else let s := if exceeds then set_exceeded s else s in
       (Ok (), set_allocated (usize (allocated_size_ s + bytes)) s).

Definition Allocate (size : Z) : mem unit := λ s,
  match AllocateCommon size s with (Ok _, s) => (Returned (), s) | (Err _, s) => (Threw bad_alloc, s) end.
Definition AllocateArray (size num_elems : Z) : mem unit := Allocate (usize (size * num_elems)).

(** [AllocateWithStatus]: the caller returns the status. *)
Definition AllocateWithStatus (size : Z) : mem unit := λ s,
  match AllocateCommon size s with (Ok _, s) => (Returned (), s) | (Err e, s) => (Threw e, s) end.

Definition Deallocate (size : Z) (s : MemoryState) : MemoryState := set_allocated (usize (allocated_size_ s - size)) s.
Definition DeallocateArray (size num_elems : Z) (s : MemoryState) : MemoryState :=
  set_allocated (usize (allocated_size_ s - usize (num_elems * size))) s.

Definition SetExceptionFlag (flag : bool) : mem unit := λ s,
  let s := set_allow flag s in
  if flag && (limit_exceeded_ s && throw_on_alloc_exceeded_ s) then (Threw bad_alloc, s) else (Returned (), s).

Definition RemainingAllocateSize (s : MemoryState) : Z :=
  match max_size_ s with Some max => usize (max - allocated_size_ s) | None => size_max end.

Definition CheckLimitsBeforeAllocation (predicted : Z) : mem unit := λ s,
  if (RemainingAllocateSize s <? predicted) && throw_on_alloc_exceeded_ s then (Threw bad_alloc, s) else (Returned (), s).

(** [LimitedAllocator<T>]: [size] is [sizeof(T)]. *)
Definition allocate (size n : Z) : mem unit := AllocateArray size n.
Definition deallocate (size n : Z) : MemoryState → MemoryState := DeallocateArray size n.

(** A guard around a block.  Its destructor is not allowed to throw. *)
Definition ExceptionFlagGuard {A} (initial_state : bool) (block : mem A) : mem A := λ s,
  match SetExceptionFlag initial_state s with
  | (Returned _, s) =>
      match block s with
      | (Terminated, s) => (Terminated, s)
      | (r, s) =>
          match SetExceptionFlag (negb initial_state) s with
          | (Returned _, s) => (r, s)
          | (_, s) => (Terminated, s)
          end
      end
  | (Threw f, s) => (Threw f, s)
  | (Terminated, s) => (Terminated, s)
  end.

(** ** [safe::FlatHashMap] *)

(** The hash map of Abseil: whether [size + 1] exceeds the load factor, the new capacity
    when one more element does not fit, the capacity that [reserve] of a number of
    elements gives an empty map, and the bytes of an array of slots of a size, by its
    capacity. *)
Class AbslMap := {
  over_load : Z → Z → bool;
  next_capacity : Z → Z → option Z;
  reserve_capacity : Z → option Z;
  array_bytes : Z → Z → Z;
}.

Section map.
Context `{AbslMap} `{Countable K} (sizeof_T : Z).
(** What the destructor of a key gives back. *)
Context (key_bytes : K → Z).

Record FlatHashMap := { values : gmap K Z; capacity : Z }.

Definition empty_map : FlatHashMap := {| values := ∅; capacity := 0 |}.
Definition Size (t : FlatHashMap) : Z := Z.of_nat (size (values t)).
Definition Get (t : FlatHashMap) (key : K) : option Z := values t !! key.

Definition release (key : K) : MemoryState → MemoryState := Deallocate (key_bytes key).
(** The keys of the old array are destroyed once they are copied to the new one. *)
Definition release_all (t : FlatHashMap) (s : MemoryState) : MemoryState :=
  foldr (λ kv s, release kv.1 s) s (map_to_list (values t)).

(** [values_[key] = value]. *)
Definition assign (key : K) (value : Z) (t : FlatHashMap) : mem FlatHashMap :=
  let store cap := {| values := <[key := value]> (values t); capacity := cap |} in
  match Get t key with
  | Some _ => mret (store (capacity t))
  | None =>
      match next_capacity (Size t) (capacity t) with
      | None => mret (store (capacity t))
      | Some cap =>
          allocate 1 (array_bytes sizeof_T cap) ≫= λ _,
          modify (release_all t) ≫= λ _,
          modify (if capacity t =? 0 then id else deallocate 1 (array_bytes sizeof_T (capacity t))) ≫= λ _,
          mret (store cap)
      end
  end.

Definition predicted_realloc_size (t : FlatHashMap) : Z :=
  if over_load (Size t) (capacity t) then usize (usize (2 * capacity t) * sizeof_T) else sizeof_T.

(** The parameter [key] is destroyed at the end. *)
Definition Set_ (key : K) (value : Z) (t : FlatHashMap) : mem FlatHashMap :=
  finally
    (CheckLimitsBeforeAllocation (predicted_realloc_size t) ≫= λ _,
     ExceptionFlagGuard false (assign key value t))
    (release key).

(** [Reserve] of an empty map. *)
Definition Reserve (size : Z) (t : FlatHashMap) : mem FlatHashMap :=
  match reserve_capacity size with
  | None => mret t
  | Some cap => allocate 1 (array_bytes sizeof_T cap) ≫= λ _, mret {| values := values t; capacity := cap |}
  end.

Definition safe_UpdateMax (t : FlatHashMap) (key : K) (value : Z) : mem FlatHashMap :=
  match Get t key with
  | None => Set_ key value t
  | Some old_value => Set_ key (old_value `max` value) t
  end.

End map.

(** ** The ledger

    What the state promises as long as exceptions are allowed: it counts the bytes of the
    live blocks and refuses exactly the blocks that do not fit the limit. *)

Inductive memory_op := OAllocate (bytes : Z) | ODeallocate (i : nat).

(** The sizes of the live blocks, and whether each operation succeeded. *)
Definition ledger_step (max : Z) (live : list Z) (op : memory_op) : bool * list Z :=
  match op with
  | OAllocate b => if foldr Z.add 0 live + b <=? max then (true, b :: live) else (false, live)
  | ODeallocate i => (true, delete i live)
  end.

Definition state_step (live : list Z) (s : MemoryState) (op : memory_op) : bool * MemoryState :=
  match op with
  | OAllocate b => match Allocate b s with (Returned _, s) => (true, s) | (_, s) => (false, s) end
  | ODeallocate i => (true, match live !! i with Some b => Deallocate b s | None => s end)
  end.

Fixpoint ledger_run (max : Z) (live : list Z) (ops : list memory_op) : list bool * list Z :=
  match ops with
  | [] => ([], live)
  | op :: ops => let '(r, live) := ledger_step max live op in let '(rs, live) := ledger_run max live ops in (r :: rs, live)
  end.

(** The blocks that are live are those of the allocations that returned. *)
Fixpoint state_run (live : list Z) (s : MemoryState) (ops : list memory_op) : list bool * MemoryState :=
  match ops with
  | [] => ([], s)
  | op :: ops =>
      let '(r, s) := state_step live s op in
      let live := match op with OAllocate b => if r then b :: live else live | ODeallocate i => delete i live end in
      let '(rs, s) := state_run live s ops in (r :: rs, s)
  end.

Definition total (live : list Z) : Z := foldr Z.add 0 live.

Record counts (max : Z) (live : list Z) (s : MemoryState) : Prop := {
  ct_max : max_size_ s = Some max;
  ct_range : 0 ≤ max ≤ size_max;
  ct_live : Forall (λ b, 0 ≤ b ≤ size_max) live;
  ct_total : allocated_size_ s = total live;
  ct_limit : total live ≤ max;
  ct_throws : throw_on_alloc_exceeded_ s = true;
  ct_allowed : allow_throw_ s = true;
  ct_exceeded : limit_exceeded_ s = false;
}.

Lemma usize_small v : 0 ≤ v ≤ size_max → usize v = v.
Proof. intros Hv. unfold usize, wrap_u, size_max, uint64_max in *. apply Z.mod_small. lia. Qed.

Lemma total_nonneg live : Forall (λ b, 0 ≤ b ≤ size_max) live → 0 ≤ total live.
Proof. induction 1 as [|b live Hb _ IH]; cbn; [done|]. unfold total in IH. lia. Qed.

Lemma total_delete live i b : live !! i = Some b → total live = b + total (delete i live).
Proof.
  revert i. induction live as [|x live IH]; intros [|i] Hi; cbn in *; try done; [injection Hi as ->; done|].
  specialize (IH i Hi). change (x + total live = b + (x + total (delete i live))). lia.
Qed.

Lemma counts_step max live s op :
  counts max live s → match op with OAllocate b => 0 ≤ b ≤ size_max | _ => True end →
  (state_step live s op).1 = (ledger_step max live op).1 ∧
  counts max (ledger_step max live op).2 (state_step live s op).2.
Proof.
  intros Hc Hop. pose proof (total_nonneg _ (ct_live _ _ _ Hc)) as Hnn. destruct op as [b|i]; cbn.
  - unfold Allocate, AllocateCommon. rewrite (ct_max _ _ _ Hc), (ct_throws _ _ _ Hc), (ct_allowed _ _ _ Hc), (ct_total _ _ _ Hc).
    pose proof (ct_range _ _ _ Hc). pose proof (ct_limit _ _ _ Hc). rewrite usize_small by lia. fold (total live). cbn [andb].
    destruct (Z.ltb_spec (max - total live) b), (Z.leb_spec (total live + b) max); try lia; cbn; [done|].
    split; [done|]. assert (total (b :: live) = b + total live) as Et by done.
    rewrite (ct_total _ _ _ Hc), (usize_small (total live + b)) by lia.
    destruct Hc. split; cbn [set_allocated max_size_ allow_throw_ limit_exceeded_ allocated_size_ throw_on_alloc_exceeded_]; try done; [by constructor|lia|lia].
  - split; [done|]. destruct (live !! i) as [b|] eqn:E.
    + pose proof (total_delete _ _ _ E) as Ht. pose proof (Forall_lookup_1 _ _ _ _ (ct_live _ _ _ Hc) E) as Hb.
      cbn beta in Hb. pose proof (total_nonneg (delete i live) (Forall_delete _ _ _ (ct_live _ _ _ Hc))) as Hd. unfold Deallocate.
      rewrite (ct_total _ _ _ Hc), (usize_small (total live - b)) by (pose proof (ct_range _ _ _ Hc); pose proof (ct_limit _ _ _ Hc); lia).
      destruct Hc. split; cbn [set_allocated max_size_ allow_throw_ limit_exceeded_ allocated_size_ throw_on_alloc_exceeded_]; try done; [by apply Forall_delete|lia|lia].
    + apply lookup_ge_None in E. rewrite delete_take_drop, take_ge, drop_ge, app_nil_r by lia. done.
Qed.

(** C37: with a limit and exceptions allowed, the state counts exactly the live blocks: a
    sequence of allocations and deallocations of live blocks succeeds and fails as in the
    ledger, an allocation failing exactly when its bytes do not fit; the counter is the sum
    of the live blocks and never exceeds the limit. *)
Theorem memory_state_ledger (max : Z) (ops : list memory_op) :
  0 ≤ max ≤ size_max → Forall (λ op, match op with OAllocate b => 0 ≤ b ≤ size_max | _ => True end) ops →
  let '(rs, s) := state_run [] (make_MemoryState (Some max) true) ops in
  let '(rs', live) := ledger_run max [] ops in
  rs = rs' ∧ allocated_size_ s = total live ∧ total live ≤ max.
Proof.
  intros Hmax Hops. assert (counts max [] (make_MemoryState (Some max) true)) as Hc by (split; cbn; (done || lia)).
  revert Hc. generalize (@nil Z), (make_MemoryState (Some max) true).
  induction Hops as [|op ops Hop _ IH]; intros live s Hc; [cbn; split; [done|]; split; [apply Hc|apply Hc]|].
  destruct (counts_step max live s op Hc Hop) as [Er Hc']. cbn [state_run ledger_run].
  destruct (state_step live s op) as [r s'] eqn:Es, (ledger_step max live op) as [r' live'] eqn:El. cbn in Er, Hc'. subst r'.
  assert (match op with OAllocate b => if r then b :: live else live | ODeallocate i => delete i live end = live') as ->.
  { destruct op; cbn in El; [case_match; by simplify_eq|by simplify_eq]. }
  specialize (IH live' s' Hc'). destruct (state_run live' s' ops), (ledger_run max live' ops). naive_solver.
Qed.

Lemma memory_state_ledger_witness :
  (state_run [] (make_MemoryState (Some 10) true) [OAllocate 4; OAllocate 4; OAllocate 4; ODeallocate 0; OAllocate 6]).1
  = [true; true; false; true; true].
Proof.
  pose proof (memory_state_ledger 10 [OAllocate 4; OAllocate 4; OAllocate 4; ODeallocate 0; OAllocate 6]) as Hw.
  destruct (state_run [] (make_MemoryState (Some 10) true) [OAllocate 4; OAllocate 4; OAllocate 4; ODeallocate 0; OAllocate 6]) as [rs s] eqn:E.
  destruct (ledger_run 10 [] [OAllocate 4; OAllocate 4; OAllocate 4; ODeallocate 0; OAllocate 6]) as [rs' live] eqn:E'.
  cbn. destruct Hw as (-> & _ & _).
  - vm_compute. split; discriminate.
  - repeat (apply Forall_cons; split); try apply Forall_nil; try exact I; vm_compute; split; discriminate.
  - vm_compute in E'. injection E' as <- _. reflexivity.
Defined.

(** ** Insertions under a limit *)

Section insertion.
Context `{AbslMap} `{Countable K} (sizeof_T : Z).

(** Keys that count no bytes of their own. *)
Definition plain (_ : K) : Z := 0.

(** The bytes that an assignment takes from the allocator and gives back. *)
Definition grown (t : FlatHashMap (K := K)) (key : K) : option Z := match Get t key with Some _ => None | None => next_capacity (Size t) (capacity t) end.
Definition taken (t : FlatHashMap (K := K)) (key : K) : Z := from_option (array_bytes sizeof_T) 0 (grown t key).
Definition given_back (t : FlatHashMap (K := K)) (key : K) : Z :=
  match grown t key with Some _ => if capacity t =? 0 then 0 else array_bytes sizeof_T (capacity t) | None => 0 end.
Definition assigned (t : FlatHashMap (K := K)) (key : K) (value : Z) : FlatHashMap (K := K) :=
  {| values := <[key := value]> (values t); capacity := default (capacity t) (grown t key) |}.

Record limited (max : Z) (t : FlatHashMap (K := K)) (s : MemoryState) : Prop := {
  lm_max : max_size_ s = Some max;
  lm_range : 0 ≤ max ≤ size_max;
  lm_allocated : 0 ≤ allocated_size_ s ≤ max;
  lm_throws : throw_on_alloc_exceeded_ s = true;
  lm_allowed : allow_throw_ s = true;
  lm_exceeded : limit_exceeded_ s = false;
  lm_array : capacity t ≠ 0 → 0 ≤ array_bytes sizeof_T (capacity t) ≤ allocated_size_ s;
  lm_next : ∀ key, 0 ≤ taken t key ≤ size_max;
}.

Lemma set_same s : set_allocated (allocated_size_ s) s = s.
Proof. by destruct s. Qed.

Lemma release_plain key s : 0 ≤ allocated_size_ s ≤ size_max → release plain key s = s.
Proof. intros Hs. unfold release, Deallocate, plain. rewrite Z.sub_0_r, usize_small by done. apply set_same. Qed.

Lemma release_all_plain (t : FlatHashMap (K := K)) s : 0 ≤ allocated_size_ s ≤ size_max → release_all plain t s = s.
Proof. intros Hs. unfold release_all. induction (map_to_list (values t)) as [|kv l IH]; [done|]. cbn. by rewrite IH, release_plain. Qed.

Lemma usize_range v : 0 ≤ usize v ≤ size_max.
Proof. unfold usize, wrap_u, size_max, uint64_max. pose proof (Z.mod_pos_bound v (2 ^ 64) ltac:(lia)). lia. Qed.

(** An assignment while the guard holds exceptions back. *)
Lemma assign_held max t key value s :
  limited max t s →
  ∃ s', assign sizeof_T plain key value t (set_allow false s) = (Returned (assigned t key value), s') ∧
  (taken t key ≤ max - allocated_size_ s →
     s' = set_allow false (set_allocated (allocated_size_ s + taken t key - given_back t key) s)) ∧
  (max - allocated_size_ s < taken t key → limit_exceeded_ s' = true ∧ throw_on_alloc_exceeded_ s' = true).
Proof.
  intros [Hm Hr Ha Ht Hal He Harr Hn]. specialize (Hn key). unfold assign, assigned, taken, given_back, grown in *.
  destruct (Get t key) as [o|]; cbn in *.
  { exists (set_allow false s). split; [done|]. split; [|lia]. intros _. rewrite Z.add_0_r, Z.sub_0_r. by rewrite set_same. }
  destruct (next_capacity (Size t) (capacity t)) as [cap|]; cbn in *.
  2:{ exists (set_allow false s). split; [done|]. split; [|lia]. intros _. rewrite Z.add_0_r, Z.sub_0_r. by rewrite set_same. }
  unfold mbind, mem_bind, allocate, AllocateArray, Allocate, AllocateCommon, modify, mret, mem_ret. cbn.
  rewrite Hm, Ht, (Z.mul_1_l (array_bytes sizeof_T cap)), (usize_small (array_bytes sizeof_T cap)) by done. rewrite (usize_small (max - allocated_size_ s)) by lia.
  rewrite andb_false_r. eexists. split; [reflexivity|]. rewrite release_all_plain by apply usize_range.
  destruct (Z.ltb_spec (max - allocated_size_ s) (array_bytes sizeof_T cap)) as [Hlt|Hge].
  - split; [lia|]. intros _. case_match; cbn; done.
  - split; [|lia]. intros _. cbn. rewrite (usize_small (allocated_size_ s + array_bytes sizeof_T cap)) by lia.
    destruct (Z.eqb_spec (capacity t) 0) as [E|E]; cbn; [by rewrite Z.sub_0_r|]. specialize (Harr E).
    unfold deallocate, DeallocateArray. cbn. rewrite (Z.mul_1_r (array_bytes sizeof_T (capacity t))), (usize_small (array_bytes sizeof_T (capacity t))) by lia.
    by rewrite usize_small by lia.
Qed.

(** C38: what [Set] of the wrapper of the hash map does when the limit is enforced, for
    keys that count no bytes of their own (those of the specialized tables; the keys of
    the generic table change the count when they are copied).  [limited]: there is a limit,
    exceptions are allowed, the limit has not been exceeded before, and the count, at most
    the limit, includes the array of the map, whose next array has fewer than 2^64 bytes.
    If the predicted size does not fit, [Set] throws and neither the map nor the state has
    changed; if it fits, and the array that the map takes fits, the value is stored and
    exactly the bytes of the new array less those of the old one are counted; if the
    prediction fits but the array does not, the destructor of the guard finds the limit
    exceeded and the process is terminated. *)
Theorem set_under_limit max t (key : K) value s :
  limited max t s →
  Set_ sizeof_T plain key value t s = (Threw bad_alloc, s) ∧ max - allocated_size_ s < predicted_realloc_size sizeof_T t ∨
  predicted_realloc_size sizeof_T t ≤ max - allocated_size_ s ∧
    ((taken t key ≤ max - allocated_size_ s ∧
      Set_ sizeof_T plain key value t s =
        (Returned (assigned t key value), set_allocated (allocated_size_ s + taken t key - given_back t key) s)) ∨
     (max - allocated_size_ s < taken t key ∧ (Set_ sizeof_T plain key value t s).1 = Terminated)).
Proof.
  intros Hl. destruct (assign_held max t key value s Hl) as (s' & Ea & Hfit & Hover). pose proof Hl as [Hm Hr Ha Ht Hal He Harr Hn].
  unfold Set_, finally, mbind, mem_bind, CheckLimitsBeforeAllocation, RemainingAllocateSize. rewrite Hm, Ht, (usize_small (max - allocated_size_ s)) by lia.
  destruct (Z.ltb_spec (max - allocated_size_ s) (predicted_realloc_size sizeof_T t)) as [Hp|Hp]; cbn [andb].
  { left. split; [|done]. by rewrite release_plain by lia. }
  right. split; [done|]. unfold ExceptionFlagGuard, SetExceptionFlag. cbn [andb negb]. rewrite Ea.
  destruct (Z_le_gt_dec (taken t key) (max - allocated_size_ s)) as [Hk|Hk].
  - left. split; [done|]. rewrite (Hfit Hk). cbn. rewrite He. cbn.
    assert (0 ≤ given_back t key ≤ allocated_size_ s) as Hg.
    { unfold given_back. destruct (grown t key); [|lia]. destruct (Z.eqb_spec (capacity t) 0); [lia|by apply Harr]. }
    specialize (Hn key). rewrite release_plain by (cbn; lia). f_equal. destruct s; cbn in *. by rewrite Hal.
  - right. destruct (Hover ltac:(lia)) as [E1 E2]. split; [lia|]. cbn. by rewrite E1, E2.
Qed.
End insertion.

(** ** A map in the manner of Abseil

    The load factor is reported as 1, an array is filled to seven eighths, and the next
    array has twice the slots and one; a slot takes its size and a byte. *)
Definition swiss_table : AbslMap := {|
  over_load size cap := cap <? size + 1;
  next_capacity size cap := if size <? cap - cap / 8 then None else Some (2 * cap + 1);
  reserve_capacity size := if size =? 0 then None else Some (2 ^ (Z.log2 (size + (size - 1) / 7) + 1) - 1);
  array_bytes sizeof_T cap := sizeof_T * cap + cap + 16 + 8;
|}.
#[local] Existing Instance swiss_table.

(** Fourteen keys in fifteen slots: the next key needs a new array, which the prediction
    leaves out. *)
Definition full_table : FlatHashMap (K := Z) :=
  {| values := list_to_map ((λ i, (Z.of_nat i, 0)) <$> seq 0 14); capacity := 15 |}.
Definition near_limit : MemoryState :=
  {| max_size_ := Some 400; allow_throw_ := true; limit_exceeded_ := false; allocated_size_ := 279; throw_on_alloc_exceeded_ := true |}.

Lemma near_limit_ok : limited 16 400 full_table near_limit.
Proof.
  split; try done.
  intros key. unfold taken, grown. destruct (Get full_table key); [done|].
  replace (next_capacity (Size full_table) (capacity full_table)) with (Some 31) by (vm_compute; reflexivity).
  vm_compute. split; discriminate.
Qed.

(** The limit is not reported as [std::bad_alloc]: the process is terminated. *)
Lemma set_under_limit_witness :
  predicted_realloc_size 16 full_table ≤ 121 ∧ 121 < taken 16 full_table 14 ∧
  (Set_ 16 plain 14 1 full_table near_limit).1 = Terminated.
Proof.
  destruct (set_under_limit 16 400 full_table 14 1 near_limit near_limit_ok) as [[_ Hp]|[Hp [[Hk _]|[Hk Ht]]]].
  - vm_compute in Hp. discriminate Hp.
  - vm_compute in Hk. by destruct Hk.
  - split; [exact Hp|]. split; [exact Hk|exact Ht].
Defined.

(** ** Keys that count their bytes

    [GenericDeleteKey] counts its bytes in its constructor and gives them back in its
    destructor.  A copy of it, as [Set] and the map make, counts nothing and gives the
    bytes back all the same. *)

Definition count_key (size : Z) : mem unit := Allocate 4 ≫= λ _, AllocateArray 1 size.
Definition generic_key_bytes (key : list Byte.byte) : Z := 4 + Z.of_nat (length key).

(** One step of [GenericEqualityDelete::Add]. *)
Definition generic_add_row `{AbslMap} (sizeof_T size : Z) (key : list Byte.byte) (delete_layer : Z) (t : FlatHashMap (K := list Byte.byte)) : mem (FlatHashMap (K := list Byte.byte)) :=
  count_key size ≫= λ _,
  finally (safe_UpdateMax sizeof_T generic_key_bytes t key delete_layer) (release generic_key_bytes key).

Definition no_growth `{AbslMap} (t : FlatHashMap (K := list Byte.byte)) (key : list Byte.byte) : Prop :=
  Get t key = None → next_capacity (Size t) (capacity t) = None.

Lemma usize_shift v : ∃ q, usize v = v + q * 2 ^ 64.
Proof. exists (- (v / 2 ^ 64)). unfold usize, wrap_u. rewrite Z.mod_eq by lia. lia. Qed.
Lemma usize_mod v q : usize (v + q * 2 ^ 64) = usize v.
Proof. apply Z_mod_plus_full. Qed.

Lemma count_release a n : usize (usize (usize (usize (a + 4) + usize n) - (4 + n)) - (4 + n)) = usize (a - (4 + n)).
Proof.
  destruct (usize_shift n) as [q1 ->], (usize_shift (a + 4)) as [q2 ->].
  destruct (usize_shift (a + 4 + q2 * 2 ^ 64 + (n + q1 * 2 ^ 64))) as [q3 ->].
  destruct (usize_shift (a + 4 + q2 * 2 ^ 64 + (n + q1 * 2 ^ 64) + q3 * 2 ^ 64 - (4 + n))) as [q4 ->].
  rewrite <- (usize_mod (a - (4 + n)) (q1 + q2 + q3 + q4)). f_equal. lia.
Qed.

(** A row that is added to the table of generic keys lowers the count by the size of its
    key, whether or not the key is new. *)
Lemma generic_row_uncounted `{AbslMap} sizeof_T key delete_layer t s :
  max_size_ s = None → limit_exceeded_ s = false → allow_throw_ s = true → no_growth t key →
  Z.of_nat (length key) ≤ uint32_max → 0 ≤ sizeof_T ≤ size_max →
  ∃ t', generic_add_row sizeof_T (Z.of_nat (length key)) key delete_layer t s =
    (Returned t', set_allocated (usize (allocated_size_ s - generic_key_bytes key)) s) ∧
    values t' = UpdateMax (values t) key delete_layer.
Proof.
  intros Hm He Hal Hg Hlen Hsz.
  assert (∀ v, assign sizeof_T generic_key_bytes key v t = mret {| values := <[key := v]> (values t); capacity := capacity t |}) as Ha.
  { intros v. unfold assign. unfold no_growth in Hg. destruct (Get t key) eqn:E; [done|]. by rewrite (Hg eq_refl). }
  assert (predicted_realloc_size sizeof_T t ≤ size_max) as Hp.
  { unfold predicted_realloc_size. case_match; [apply usize_range|lia]. }
  assert (∀ v s1, max_size_ s1 = None → limit_exceeded_ s1 = false → allow_throw_ s1 = true →
    Set_ sizeof_T generic_key_bytes key v t s1 =
    (Returned {| values := <[key := v]> (values t); capacity := capacity t |}, release generic_key_bytes key s1)) as Hset.
  { intros v s1 Hm1 He1 Ha1. unfold Set_, finally, mbind, mem_bind, CheckLimitsBeforeAllocation, RemainingAllocateSize. rewrite Hm1.
    destruct (Z.ltb_spec size_max (predicted_realloc_size sizeof_T t)); [lia|]. cbn [andb].
    unfold ExceptionFlagGuard, SetExceptionFlag. cbn [andb negb]. rewrite Ha. cbn. rewrite He1. cbn. f_equal. f_equal.
    destruct s1; cbn in *. by rewrite Ha1. }
  exists {| values := UpdateMax (values t) key delete_layer; capacity := capacity t |}. split; [|done].
  unfold generic_add_row, count_key, AllocateArray, Allocate, AllocateCommon, mbind, mem_bind. rewrite (Z.mul_1_l (Z.of_nat (length key))), Hm.
  cbn [andb set_allocated max_size_ allocated_size_]. rewrite Hm. cbn [andb].
  unfold finally, safe_UpdateMax, UpdateMax, Get. 
  change (usize (allocated_size_ s - generic_key_bytes key)) with (usize (allocated_size_ s - (4 + Z.of_nat (length key)))). rewrite <- count_release.
  by destruct (values t !! key) as [o|]; rewrite Hset by done.
Qed.

(** The rows of a file, one after the other. *)
Fixpoint generic_add_rows `{AbslMap} (sizeof_T : Z) (keys : list (list Byte.byte)) (delete_layer : Z) (t : FlatHashMap (K := list Byte.byte)) :
    mem (FlatHashMap (K := list Byte.byte)) :=
  match keys with
  | [] => mret t
  | key :: keys => generic_add_row sizeof_T (Z.of_nat (length key)) key delete_layer t ≫= generic_add_rows sizeof_T keys delete_layer
  end.

(** After two rows with keys of a hundred bytes the state allows more than its limit. *)
Definition long_key (b : Byte.byte) : list Byte.byte := replicate 100 b.
Lemma limit_raised :
  let '(_, s) := generic_add_rows 16 [long_key Byte.x01; long_key Byte.x02] 1 empty_map (make_MemoryState (Some 1000) true) in
  1000 < RemainingAllocateSize s.
Proof. vm_compute. reflexivity. Qed.

(** ** The guard of the specialized table

    [SpecializedDeleteOneColumn::Add] sets the flag for each row, with a guard whose
    destructor clears it again: from then on no allocation outside a row is refused. *)
Definition one_add_key `{AbslMap} (sizeof_T key delete_layer : Z) (t : FlatHashMap (K := Z)) : mem (FlatHashMap (K := Z)) :=
  ExceptionFlagGuard true (safe_UpdateMax sizeof_T plain t key delete_layer).

Lemma one_column_flag_cleared `{AbslMap} sizeof_T key delete_layer t s t' s' :
  one_add_key sizeof_T key delete_layer t s = (Returned t', s') → allow_throw_ s' = false.
Proof.
  unfold one_add_key, ExceptionFlagGuard. destruct (SetExceptionFlag true s) as [[u|f|] s1]; [|done|done].
  destruct (safe_UpdateMax sizeof_T plain t key delete_layer s1) as [[a|f|] s2]; cbn; [|done|done]. by intros [= <- <-].
Qed.
