(* ===== verification/DeleteTables.v ===== *)
(** * DeleteTables: the tables of deleted rows under the memory limit

    The tables of [EqualityDelete] as the program runs them: each allocation is
    counted by the [MemoryState] that the tables of a handler share, and may be
    refused.  [EqualityDelete] has the contents of the tables; a [DeleteTable] adds
    the capacities of its hash maps, and its operations ([make_table], [table_Add],
    [table_IsDeleted]) are computations in the monad [mem] of [MemoryAccounting]:
    they return, throw, or end the process.

    The relation [tracks] connects an operation with the one on contents: whatever
    the state, it returns only what the contents say, and when the limit is not
    enforced ([throw_if_memory_limit_exceeded] is false) it returns or fails just as
    they do.  The destructor of a table, which gives its bytes back to a state that
    is destroyed with it, is left out. *)

From stdpp Require Import base list strings gmap.
From Stdlib Require Import ZArith Lia.
From S2P Require Import Prelude Bytes MemoryAccounting EqualityDelete.

Local Open Scope Z_scope.

(** ** The operations *)

Definition lift {A} (r : result A) : mem A := λ s, match r with Ok a => (Returned a, s) | Err f => (Threw f, s) end.

Fixpoint fold_mem {A S} (f : S → A → mem S) (s : S) (l : list A) : mem S :=
  match l with [] => mret s | x :: l => f s x ≫= λ s, fold_mem f s l end.

(** A computation whose failure ends what the caller is doing. *)
Definition run_mem {A} (c : mem A) (s : MemoryState) : result (A * MemoryState) :=
  match c s with
  | (Returned a, s) => Ok (a, s)
  | (Threw f, _) => Err f
  | (Terminated, _) => Err (Exn "std::terminate")
  end.

(** The result is as [P] says; it is a failure only where the limit is enforced. *)
Definition settles {A} (throws : bool) (P : A → Prop) (r : result A) : Prop :=
  match r with Ok a => P a | Err _ => throws = true end.

Lemma settles_bind {A B} throws (P : A → Prop) (Q : B → Prop) r k :
  settles throws P r → (∀ a, P a → settles throws Q (k a)) → settles throws Q (let! a := r in k a).
Proof. intros Hr Hk. destruct r; cbn in *; [by apply Hk|done]. Qed.

Lemma settles_impl {A} throws (P Q : A → Prop) r : settles throws P r → (∀ a, P a → Q a) → settles throws Q r.
Proof. intros Hr HPQ. destruct r; cbn in *; [by apply HPQ|done]. Qed.

Lemma settles_quiet {A} (P : A → Prop) r : settles false P r → ∃ a, r = Ok a ∧ P a.
Proof. destruct r; cbn; [by eauto|done]. Qed.

Record DeleteTable := {
  table : EqualityDelete;
  slots : Z;                     (** capacity of [values_] *)
  null_slots : gmap Z Z;         (** capacities of the maps of [values_with_nulls_] *)
}.

Definition map_of {K} `{Countable K} (m : gmap K Z) (cap : Z) : FlatHashMap (K := K) := {| values := m; capacity := cap |}.

(** [sizeof(std::pair<const Key, Layer>)], by the key. *)
Definition generic_slot : Z := 40.
Definition one_slot (t : Arrow.type) : Z := match t with Arrow.INT16 | Arrow.INT32 => 8 | _ => 16 end.
Definition multiple_slot (bits : Z) : Z := if bits <=? 32 then 8 else if bits <=? 64 then 16 else 32.

Section tables.
Context `{WidthSort} `{AbslMap}.

(** [Reserve] for the specialized tables. *)
Definition make_table (schema : list Arrow.type) (use_specialized_deletes : bool) (num_rows : Z) : mem DeleteTable :=
  lift (MakeEqualityDelete schema use_specialized_deletes) ≫= λ d,
  match d with
  | GenericDelete _ => mret {| table := d; slots := 0; null_slots := ∅ |}
  | OneColumnDelete o =>
      Reserve (one_slot (one_type o)) num_rows (map_of (one_values o) 0) ≫= λ m,
      mret {| table := d; slots := capacity m; null_slots := ∅ |}
  | MultipleColumnDelete o =>
      Reserve (multiple_slot (value_bits o)) num_rows (map_of (values_ o) 0) ≫= λ m,
      mret {| table := d; slots := capacity m; null_slots := ∅ |}
  end.

(** The constructor of [GenericDeleteKey] counts the bytes of the key. *)
Definition counted_key (cells : list cell) : mem (list Byte.byte) :=
  lift (total_width cells) ≫= λ width,
  count_key (wrap_u 32 (8 + width)) ≫= λ _,
  lift (GenericDeleteKey cells).

Definition generic_row (delete_layer : Z) (t : FlatHashMap (K := list Byte.byte)) (cells : list cell) :
    mem (FlatHashMap (K := list Byte.byte)) :=
  counted_key cells ≫= λ key,
  finally (safe_UpdateMax generic_slot generic_key_bytes t key delete_layer) (release generic_key_bytes key).

Definition one_row (delete_layer : Z) (d : OneColumn * Z) (cells : list cell) : mem (OneColumn * Z) :=
  match cells with
  | [c] =>
      if is_null c
      then mret ({| one_type := one_type d.1; contains_null := true; one_values := one_values d.1 |}, d.2)
      else one_add_key (one_slot (one_type d.1)) (num c) delete_layer (map_of (one_values d.1) d.2) ≫= λ m,
           mret ({| one_type := one_type d.1; contains_null := contains_null d.1; one_values := values m |}, capacity m)
  | _ => throw (StatusError "SpecializedDeleteOneColumn (Add): unexpected number of columns")
  end.

(** [ConstructRow] and [ConstructRowIgnoreNulls] count a value; each row of [Add] counts one more. *)
Definition counted_row (construct : MultipleColumn → list cell → Z) (d : MultipleColumn) (cells : list cell) : mem Z :=
  AllocateWithStatus (value_bits d / 8) ≫= λ _, mret (construct d cells).

Definition multiple_row (with_nulls : bool) (delete_layer : Z) (t : MultipleColumn * (Z * gmap Z Z)) (cells : list cell) :
    mem (MultipleColumn * (Z * gmap Z Z)) :=
  let '(d, (cap, nulls)) := t in
  let slot := multiple_slot (value_bits d) in
  let into_values key :=
    safe_UpdateMax slot plain (map_of (values_ d) cap) key delete_layer ≫= λ m,
    mret (set_values (values m) d, (capacity m, nulls)) in
  AllocateWithStatus (value_bits d / 8) ≫= λ _,
  if negb with_nulls then counted_row ConstructRow d cells ≫= into_values
  else
    counted_row ConstructRowIgnoreNulls d cells ≫= λ key,
    let mask := nulls_mask d cells in
    if mask =? 0 then into_values key
    else
      safe_UpdateMax slot plain (map_of (default ∅ (values_with_nulls_ d !! mask)) (default 0 (nulls !! mask))) key
        delete_layer ≫= λ m,
      mret (set_null_values (<[mask := values m]> (values_with_nulls_ d)) d, (cap, <[mask := capacity m]> nulls)).

Definition table_Add (t : DeleteTable) (types : list Arrow.type) (rows : list (list cell)) (delete_layer : Z) :
    mem DeleteTable :=
  match table t with
  | GenericDelete v =>
      if 64 <? Z.of_nat (length types)
      then throw (StatusError "GenericEqualityDelete is not implemented for more than 64 columns")
      else fold_mem (generic_row delete_layer) (map_of v (slots t)) rows ≫= λ m,
           mret {| table := GenericDelete (values m); slots := capacity m; null_slots := ∅ |}
  | OneColumnDelete d =>
      match types with
      | [ty] =>
          if negb (bool_decide (ty = one_type d))
          then throw (StatusError "SpecializedDeleteOneColumn (Add): unexpected type")
          else fold_mem (one_row delete_layer) (d, slots t) rows ≫= λ m,
               mret {| table := OneColumnDelete m.1; slots := m.2; null_slots := ∅ |}
      | _ => throw (StatusError "SpecializedDeleteOneColumn (Add): unexpected number of columns")
      end
  | MultipleColumnDelete d =>
      if negb (bool_decide (length types = length (types_ d)))
      then throw (StatusError "SpecializedDeleteMultipleColumn (Add): unexpected number of columns")
      else if negb (bool_decide (types = types_ d))
      then throw (StatusError "SpecializedDeleteMultipleColumn (Add): unexpected type")
      else
        let with_nulls := existsb (existsb is_null) rows in
        if with_nulls && (9 <=? Z.of_nat (length types))
        then throw (StatusError "Equality deletes with nulls and more than 8 columns are not supported")
        else fold_mem (multiple_row with_nulls delete_layer) (d, (slots t, null_slots t)) rows ≫= λ m,
             mret {| table := MultipleColumnDelete m.1; slots := m.2.1; null_slots := m.2.2 |}
  end.

Definition table_IsDeleted (t : DeleteTable) (cells : list cell) (data_layer : Z) : mem bool :=
  match table t with
  | GenericDelete v =>
      counted_key cells ≫= λ key,
      finally (mret (layer_at_least (v !! key) data_layer)) (release generic_key_bytes key)
  | OneColumnDelete d => lift (one_IsDeleted d cells data_layer)
  | MultipleColumnDelete d =>
      if negb (existsb is_null cells) then
        counted_row ConstructRow d cells ≫= λ value, mret (layer_at_least (values_ d !! value) data_layer)
      else match values_with_nulls_ d !! nulls_mask d cells with
           | None => mret false
           | Some values =>
               counted_row ConstructRowIgnoreNulls d cells ≫= λ value,
               mret (layer_at_least (values !! value) data_layer)
           end
  end.
End tables.

(** ** An operation and its contents *)

Notation throws s := (throw_on_alloc_exceeded_ s).

(** Whatever the state, [c] returns only what [r] is; it fails otherwise than [r] only
    where the limit is enforced. *)
Definition tracks {A B} (f : A → B) (c : mem A) (r : result B) : Prop :=
  ∀ s, throws (c s).2 = throws s ∧
       match (c s).1 with
       | Returned a => r = Ok (f a)
       | Threw e => throws s = true ∨ r = Err e
       | Terminated => throws s = true
       end.

Lemma tracks_ret {A B} (f : A → B) a b : f a = b → tracks f (mret a) (Ok b).
Proof. intros <- s. done. Qed.

Lemma tracks_throw {A B} (f : A → B) e : tracks f (throw e) (Err e).
Proof. intros s. split; [done|]. by right. Qed.

Lemma tracks_lift {A} (r : result A) : tracks id (lift r) r.
Proof. intros s. unfold lift. destruct r; cbn; [done|]. split; [done|]. by right. Qed.

Lemma tracks_bind {A A' B B'} (f : A → A') (g : B → B') c r (k : A → mem B) (kr : A' → result B') :
  tracks f c r → (∀ a, tracks g (k a) (kr (f a))) → tracks g (c ≫= k) (let! a := r in kr a).
Proof.
  intros Hc Hk s. destruct (Hc s) as [Ht Ho]. unfold mbind, mem_bind. destruct (c s) as [[a|e|] s1]; cbn in *.
  - subst r. cbn [rbind]. destruct (Hk a s1) as [Ht1 Ho1]. rewrite Ht in Ht1, Ho1. done.
  - split; [done|]. destruct Ho as [?| ->]; [by left|by right].
  - done.
Qed.

Lemma tracks_finally {A B} (f : A → B) c r g : tracks f c r → (∀ s, throws (g s) = throws s) → tracks f (finally c g) r.
Proof. intros Hc Hg s. destruct (Hc s) as [Ht Ho]. unfold finally. destruct (c s) as [o s1]; cbn in *. by rewrite Hg. Qed.

Lemma tracks_map {A B C} (f : A → B) (g : C → B) (k : A → C) c r : tracks f c r → (∀ a, g (k a) = f a) →
  tracks g (c ≫= λ a, mret (k a)) r.
Proof.
  intros Hc Hg. replace r with (let! b := r in Ok b) by by destruct r.
  eapply tracks_bind; [done|]. intros a. by apply tracks_ret.
Qed.

Lemma tracks_fold {A S S'} (g : S → S') (f : S → A → mem S) (fr : S' → A → result S') l s :
  (∀ s x, tracks g (f s x) (fr (g s) x)) → tracks g (fold_mem f s l) (fold_ok fr (g s) l).
Proof.
  intros Hf. revert s. induction l as [|x l IH]; intros s; cbn [fold_mem fold_ok]; [by apply tracks_ret|].
  eapply tracks_bind; [apply Hf|]. intros s1. apply IH.
Qed.

Lemma fold_ok_pure {A S} (f : S → A → S) l s : fold_ok (λ s x, Ok (f s x)) s l = Ok (foldl f s l).
Proof. revert s. induction l as [|x l IH]; intros s; cbn; [done|]. apply IH. Qed.

(** *** What the state does *)

Lemma tracks_allocate n : tracks id (Allocate n) (Ok ()).
Proof.
  intros s. unfold Allocate, AllocateCommon. destruct (max_size_ s) as [m|]; cbn; [|by split].
  destruct (_ <? _); cbn; [|by split]. destruct (throws s) eqn:E; cbn; [|by split].
  destruct (allow_throw_ s); cbn; (split; [done|]); by try left.
Qed.

Lemma tracks_allocate_status n : tracks id (AllocateWithStatus n) (Ok ()).
Proof.
  intros s. unfold AllocateWithStatus, AllocateCommon. destruct (max_size_ s) as [m|]; cbn; [|by split].
  destruct (_ <? _); cbn; [|by split]. destruct (throws s) eqn:E; cbn; [|by split].
  destruct (allow_throw_ s); cbn; (split; [done|]); by try left.
Qed.

Lemma tracks_check n : tracks id (CheckLimitsBeforeAllocation n) (Ok ()).
Proof.
  intros s. unfold CheckLimitsBeforeAllocation. destruct (_ <? _), (throws s) eqn:E; cbn; (split; [done|]); by try left.
Qed.

Lemma tracks_modify g : (∀ s, throws (g s) = throws s) → tracks id (modify g) (Ok ()).
Proof. intros Hg s. unfold modify. by split; [apply Hg|]. Qed.

Lemma tracks_guard {A B} (f : A → B) b c r : tracks f c r → tracks f (ExceptionFlagGuard b c) r.
Proof.
  intros Hc s. unfold ExceptionFlagGuard, SetExceptionFlag. cbn.
  destruct (Hc (set_allow b s)) as [Ht Ho]. cbn in Ht, Ho. destruct (throws s) eqn:Es.
  - destruct (b && _); cbn; [by rewrite Es; split; [|left]|].
    destruct (c (set_allow b s)) as [[a|e|] s1]; cbn in *; [| |by rewrite Ht];
      destruct (negb b && _); cbn; rewrite Ht; (split; [done|]); try done; by left.
  - rewrite andb_false_r, andb_false_r. cbn. destruct (c (set_allow b s)) as [[a|e|] s1]; cbn in *; [| |done];
      rewrite Ht, andb_false_r, andb_false_r; cbn; by rewrite Ht.
Qed.

Lemma release_throws {K} (kb : K → Z) k s : throws (release kb k s) = throws s.
Proof. done. Qed.

Lemma release_all_throws {K} `{Countable K} (kb : K → Z) t s : throws (release_all kb t s) = throws s.
Proof. unfold release_all. by induction (map_to_list (values t)). Qed.

Section maps.
Context `{AbslMap} `{Countable K} (sizeof_T : Z) (key_bytes : K → Z).

Lemma tracks_assign key value t : tracks values (assign sizeof_T key_bytes key value t) (Ok (<[key := value]> (values t))).
Proof.
  unfold assign. destruct (Get t key); [by apply tracks_ret|]. destruct (next_capacity _ _); [|by apply tracks_ret].
  apply (tracks_bind id values _ (Ok ()) _ (λ _, Ok _)); [apply tracks_allocate|]. intros _.
  apply (tracks_bind id values _ (Ok ()) _ (λ _, Ok _)); [apply tracks_modify, release_all_throws|]. intros _.
  apply (tracks_bind id values _ (Ok ()) _ (λ _, Ok _)); [apply tracks_modify; intros s; by destruct (_ =? _)|].
  intros _. by apply tracks_ret.
Qed.

Lemma tracks_Set key value t : tracks values (Set_ sizeof_T key_bytes key value t) (Ok (<[key := value]> (values t))).
Proof.
  apply tracks_finally; [|apply release_throws].
  apply (tracks_bind id values _ (Ok ()) _ (λ _, Ok _)); [apply tracks_check|]. intros _. apply tracks_guard, tracks_assign.
Qed.

Lemma tracks_UpdateMax t key value :
  tracks values (safe_UpdateMax sizeof_T key_bytes t key value) (Ok (UpdateMax (values t) key value)).
Proof. unfold safe_UpdateMax, UpdateMax, Get. destruct (values t !! key); apply tracks_Set. Qed.

Lemma tracks_Reserve n (t : FlatHashMap (K := K)) : tracks values (Reserve sizeof_T n t) (Ok (values t)).
Proof.
  unfold Reserve. destruct (reserve_capacity n); [|by apply tracks_ret].
  apply (tracks_bind id values _ (Ok ()) _ (λ _, Ok _)); [apply tracks_allocate|]. intros _. by apply tracks_ret.
Qed.
End maps.

(** *** The tables *)

Section tables_track.
Context `{WidthSort} `{AbslMap}.

Lemma tracks_make schema use n : tracks table (make_table schema use n) (MakeEqualityDelete schema use).
Proof.
  assert (tracks table (make_table schema use n) (let! d := MakeEqualityDelete schema use in Ok d)) as Ht;
    [|by destruct (MakeEqualityDelete schema use)].
  eapply tracks_bind; [apply tracks_lift|]. intros [v|o|o]; cbn [id].
  - by apply tracks_ret.
  - apply (tracks_bind values table _ (Ok (one_values o)) _ (λ _, Ok _)); [apply tracks_Reserve|]. intros m. by apply tracks_ret.
  - apply (tracks_bind values table _ (Ok (values_ o)) _ (λ _, Ok _)); [apply tracks_Reserve|]. intros m. by apply tracks_ret.
Qed.

Lemma tracks_key cells : tracks id (counted_key cells) (GenericDeleteKey cells).
Proof.
  assert (GenericDeleteKey cells = (let! _ := total_width cells in GenericDeleteKey cells)) as Er
    by (unfold GenericDeleteKey; by destruct (total_width cells)).
  assert (tracks id (counted_key cells) (let! _ := total_width cells in GenericDeleteKey cells)) as Ht; [|by rewrite <- Er in Ht].
  apply (tracks_bind id id _ (total_width cells) _ (λ _, GenericDeleteKey cells)); [apply tracks_lift|]. intros w.
  apply (tracks_bind id id _ (Ok ()) _ (λ _, GenericDeleteKey cells)); [|intros _; apply tracks_lift].
  apply (tracks_bind id id _ (Ok ()) _ (λ _, Ok ())); [apply tracks_allocate|]. intros _. apply tracks_allocate.
Qed.

Lemma tracks_generic_row layer t cells :
  tracks values (generic_row layer t cells)
    (let! key := GenericDeleteKey cells in Ok (UpdateMax (values t) key layer)).
Proof.
  eapply tracks_bind; [apply tracks_key|]. intros key. apply tracks_finally; [apply tracks_UpdateMax|apply release_throws].
Qed.

Lemma tracks_one_row layer d cells : tracks fst (one_row layer d cells) (one_add_row layer d.1 cells).
Proof.
  unfold one_row, one_add_row. destruct cells as [|c [|c' cells]]; [apply tracks_throw| |apply tracks_throw].
  destruct (is_null c); [by apply tracks_ret|].
  apply (tracks_bind values fst _ (Ok (UpdateMax (one_values d.1) (num c) layer)) _
    (λ m, Ok {| one_type := one_type d.1; contains_null := contains_null d.1; one_values := m |})).
  - apply tracks_guard, (tracks_UpdateMax _ _ (map_of (one_values d.1) d.2)).
  - intros m. by apply tracks_ret.
Qed.

Lemma tracks_counted_row construct d cells : tracks id (counted_row construct d cells) (Ok (construct d cells)).
Proof.
  apply (tracks_bind id id _ (Ok ()) _ (λ _, Ok (construct d cells))); [apply tracks_allocate_status|].
  intros _. by apply tracks_ret.
Qed.

Lemma tracks_multiple_row with_nulls layer t cells :
  tracks fst (multiple_row with_nulls layer t cells) (Ok (multiple_add_row with_nulls layer t.1 cells)).
Proof.
  destruct t as [d [cap nulls]]. unfold multiple_row, multiple_add_row. cbn [fst].
  apply (tracks_bind id fst _ (Ok ()) _ (λ _, Ok _)); [apply tracks_allocate_status|]. intros _.
  destruct with_nulls; cbn [negb].
  - apply (tracks_bind id fst _ (Ok (ConstructRowIgnoreNulls d cells)) _ (λ key, Ok
      (if nulls_mask d cells =? 0 then set_values (UpdateMax (values_ d) key layer) d
       else set_null_values (<[nulls_mask d cells := UpdateMax (default ∅ (values_with_nulls_ d !! nulls_mask d cells)) key layer]>
              (values_with_nulls_ d)) d))); [apply tracks_counted_row|].
    intros key. cbn [id]. destruct (nulls_mask d cells =? 0).
    + eapply (tracks_bind values fst _ (Ok (UpdateMax (values_ d) key layer)) _ (λ m, Ok (set_values m d)));
        [apply (tracks_UpdateMax _ _ (map_of (values_ d) cap))|]. intros m. by apply tracks_ret.
    + eapply (tracks_bind values fst _ (Ok (UpdateMax (default ∅ (values_with_nulls_ d !! nulls_mask d cells)) key layer)) _
        (λ m, Ok (set_null_values (<[nulls_mask d cells := m]> (values_with_nulls_ d)) d)));
        [apply (tracks_UpdateMax _ _ (map_of (default ∅ (values_with_nulls_ d !! nulls_mask d cells)) _))|].
      intros m. by apply tracks_ret.
  - apply (tracks_bind id fst _ (Ok (ConstructRow d cells)) _ (λ key, Ok (set_values (UpdateMax (values_ d) key layer) d)));
      [apply tracks_counted_row|]. intros key. cbn [id].
    eapply (tracks_bind values fst _ (Ok (UpdateMax (values_ d) key layer)) _ (λ m, Ok (set_values m d)));
      [apply (tracks_UpdateMax _ _ (map_of (values_ d) cap))|]. intros m. by apply tracks_ret.
Qed.

Lemma tracks_Add t types rows layer : tracks table (table_Add t types rows layer) (Add (table t) types rows layer).
Proof.
  unfold table_Add. destruct (table t) as [v|d|d]; cbn [Add].
  - unfold generic_Add. destruct (64 <? _); [apply tracks_throw|].
    eapply (tracks_bind values table _ _ _ (λ v, Ok (GenericDelete v)));
      [apply (tracks_fold values _ _ rows (map_of v (slots t))); apply tracks_generic_row|]. intros m. by apply tracks_ret.
  - unfold one_Add. destruct types as [|ty [|ty' types]]; [apply tracks_throw| |apply tracks_throw].
    destruct (negb _); [apply tracks_throw|].
    eapply (tracks_bind fst table _ _ _ (λ v, Ok (OneColumnDelete v)));
      [apply (tracks_fold fst _ _ rows (d, slots t)); apply tracks_one_row|]. intros m. by apply tracks_ret.
  - unfold multiple_Add. destruct (negb _); [apply tracks_throw|]. destruct (negb _); [apply tracks_throw|].
    destruct (_ && _); [apply tracks_throw|].
    eapply (tracks_bind fst table _ (Ok _) _ (λ v, Ok (MultipleColumnDelete v))).
    + rewrite <- fold_ok_pure. eapply (tracks_fold fst _ _ rows (d, (slots t, null_slots t))). apply tracks_multiple_row.
    + intros m. by apply tracks_ret.
Qed.

Lemma tracks_IsDeleted t cells layer : tracks id (table_IsDeleted t cells layer) (IsDeleted (table t) cells layer).
Proof.
  unfold table_IsDeleted. destruct (table t) as [v|d|d]; cbn [IsDeleted].
  - eapply tracks_bind; [apply tracks_key|]. intros key. apply tracks_finally; [by apply tracks_ret|apply release_throws].
  - apply tracks_lift.
  - unfold multiple_IsDeleted. destruct (negb _).
    + apply (tracks_bind id id _ (Ok (ConstructRow d cells)) _ (λ k, Ok (layer_at_least (values_ d !! k) layer)));
        [apply tracks_counted_row|]. intros key. by apply tracks_ret.
    + destruct (values_with_nulls_ d !! nulls_mask d cells) as [vs|]; [|by apply tracks_ret].
      apply (tracks_bind id id _ (Ok (ConstructRowIgnoreNulls d cells)) _ (λ k, Ok (layer_at_least (vs !! k) layer)));
        [apply tracks_counted_row|]. intros key. by apply tracks_ret.
Qed.

(** A run from a state. *)
Lemma tracks_settles {A B} (f : A → B) c b s :
  tracks f c (Ok b) → settles (throws s) (λ p, f p.1 = b ∧ throws p.2 = throws s) (run_mem c s).
Proof.
  intros Hc. destruct (Hc s) as [Ht Ho]. unfold run_mem. destruct (c s) as [[a|e|] s1]; cbn in *; [|by destruct Ho|done].
  injection Ho as ->. by split.
Qed.

Definition add_all (t : DeleteTable) (types : list Arrow.type) (batches : list (list (list cell) * Z)) : mem DeleteTable :=
  fold_mem (λ t b, table_Add t types b.1 b.2) t batches.

Lemma tracks_add_all t types batches : tracks table (add_all t types batches) (add_batches (table t) types batches).
Proof. apply tracks_fold. intros t' b. apply tracks_Add. Qed.

End tables_track.

(** ** Examples *)

#[local] Existing Instance stable_width_sort.
#[local] Existing Instance swiss_table.

Definition sample_batches : list (list (list cell) * Z) := [([int_row 1 2; int_row (-1) 5], 3); ([int_row 1 2], 1)].
Definition sample_query (row : list cell) (s : MemoryState) : outcome bool :=
  ((make_table [Arrow.INT32; Arrow.INT64] true 3 ≫= λ t,
    add_all t [Arrow.INT32; Arrow.INT64] sample_batches ≫= λ t, table_IsDeleted t row 2) s).1.

(** A limit of 100 bytes, which the maps exceed: enforced, it is reported. *)
Lemma limit_enforced : sample_query (int_row 1 2) (make_MemoryState (Some 100) true) = Threw bad_alloc.
Proof. vm_compute. reflexivity. Qed.

