(* ===== verification/EqualityDeleteHandler.v ===== *)
(** * EqualityDeleteHandler: applying equality delete files to batches

    [EqualityDeleteHandler] of [iceberg/equality_delete/handler.cpp], which
    materializes the delete files of a partition into one table per set of
    field ids; [EqualityDeletes] and [EqualityDeleteApplier] of
    [iceberg/streams/iceberg/equality_delete_applier.h]; and [FieldIdMapper] of
    [iceberg/streams/iceberg/mapper.h].

    Opening a Parquet file is a parameter; an opened file is its columns, its
    number of rows and the batches of rows its reader delivers.  A pointer to a
    table is the key of the table in [materialized_deletes_], whose entries are
    never removed.  The tables of a handler share its [MemoryState]; an allocation
    that it refuses ends the scan, and the state it leaves is not modelled. *)

From stdpp Require Import base list sorting strings gmap pretty.
From Stdlib Require Import ZArith Lia.
From S2P Require Import Prelude OrderedMap Bytes ScanTypes SelectionVector.
From S2P Require Import PositionalDelete DeleteAppliers MemoryAccounting EqualityDelete DeleteTables.

Local Open Scope Z_scope.

(** ** Equality delete files *)

Record EqualityDeleteFile := {
  columns : list (Z * Arrow.type);             (** field id and type *)
  file_num_rows : Z;                           (** [metadata()->num_rows()] *)
  file_batches : list (list (list cell));
}.

Definition GetParquetFieldIds (f : EqualityDeleteFile) : list Z := (columns f).*1.

(** [field_id_to_position.emplace(id, i)] for the ids asked for. *)
Fixpoint positions_loop (i : nat) (parquet_ids field_ids : list Z) (m : list (Z * nat)) : list (Z * nat) :=
  match parquet_ids with
  | [] => m
  | id :: parquet_ids =>
      positions_loop (S i) parquet_ids field_ids
        (if bool_decide (id ∈ field_ids) then mupdate (λ o, default i o) id m else m)
  end.

(** The columns of the reader, by position: their types and rows. *)
Definition project {A} (positions : list nat) (row : list A) : list A := omap (λ p, row !! p) positions.

Definition PrepareRecordBatchReader (f : EqualityDeleteFile) (field_ids : list Z) :
    result (list Arrow.type * list (list (list cell))) :=
  let field_id_to_position := positions_loop 0 (GetParquetFieldIds f) field_ids [] in
  if forallb (λ id, match mfind id field_id_to_position with Some _ => true | None => false end) field_ids
  then let positions := field_id_to_position.*2 in
       Ok (project positions (columns f).*2, map (map (project positions)) (file_batches f))
  else Err (StatusError "Column with field id is not found in equality delete file").

(** ** EqualityDeleteHandler *)

Record Config := {
  max_rows : Z;
  use_specialized_deletes : bool;
  equality_delete_max_mb_size : Z;
  throw_if_memory_limit_exceeded : bool;
}.

Record EqualityDeleteHandler := {
  current_rows_ : Z;
  materialized_deletes_ : list (list Z * DeleteTable);
  deletes_for_current_row_group_ : list (list Z * list Z);       (** table, field ids *)
  prepared_batches_ : list (list Z * list (list cell));          (** table, arrays *)
  shared_state_ : MemoryState;
  current_data_layer_ : option Z;
}.

Definition make_EqualityDeleteHandler (config : Config) : EqualityDeleteHandler :=
  {| current_rows_ := 0; materialized_deletes_ := []; deletes_for_current_row_group_ := [];
     prepared_batches_ := [];
     shared_state_ := make_MemoryState (Some (usize (1024 * 1024 * equality_delete_max_mb_size config)))
                        (throw_if_memory_limit_exceeded config);
     current_data_layer_ := None |}.

Definition set_shared_state (s : MemoryState) (h : EqualityDeleteHandler) : EqualityDeleteHandler :=
  {| current_rows_ := current_rows_ h; materialized_deletes_ := materialized_deletes_ h;
     deletes_for_current_row_group_ := deletes_for_current_row_group_ h; prepared_batches_ := prepared_batches_ h;
     shared_state_ := s; current_data_layer_ := current_data_layer_ h |}.

Definition PrepareDeletesForFile (data_layer : Z) (h : EqualityDeleteHandler) : bool * EqualityDeleteHandler :=
  let deletes := omap (λ e : list Z * DeleteTable, if 0 <? Size (table e.2) then Some (e.1, e.1) else None)
                      (materialized_deletes_ h) in
  (negb (is_nil deletes),
   {| current_rows_ := current_rows_ h; materialized_deletes_ := materialized_deletes_ h;
      deletes_for_current_row_group_ := deletes; prepared_batches_ := prepared_batches_ h;
      shared_state_ := shared_state_ h; current_data_layer_ := Some data_layer |}).

(** [std::map::at]. *)
Definition at_ {V} (m : list (Z * V)) (id : Z) : result V :=
  match mfind id m with Some v => Ok v | None => Err (Exn "out_of_range") end.

Definition PrepareDeletesForBatch (field_id_to_array : list (Z * list cell)) (h : EqualityDeleteHandler) :
    result EqualityDeleteHandler :=
  let! prepared := map_ok (λ d : list Z * list Z,
      let! batch := map_ok (at_ field_id_to_array) d.2 in Ok (d.1, batch)) (deletes_for_current_row_group_ h) in
  Ok {| current_rows_ := current_rows_ h; materialized_deletes_ := materialized_deletes_ h;
        deletes_for_current_row_group_ := deletes_for_current_row_group_ h; prepared_batches_ := prepared;
        shared_state_ := shared_state_ h; current_data_layer_ := current_data_layer_ h |}.

Definition GetEqualityDeleteFieldIds (h : EqualityDeleteHandler) : list Z :=
  mset (concat (materialized_deletes_ h).*1).

(** The cells of a row, one per array. *)
Definition cells_at (arrays : list (list cell)) (row : Z) : result (list cell) :=
  map_ok (λ a : list cell, match a !! Z.to_nat row with Some c => Ok c | None => Err (Exn "undefined: row out of range") end)
    arrays.

Fixpoint any_deleted (tables : list (list Z * DeleteTable)) (prepared : list (list Z * list (list cell)))
    (data_layer row : Z) (s : MemoryState) : result (bool * MemoryState) :=
  match prepared with
  | [] => Ok (false, s)
  | (delete_ptr, arrays) :: prepared =>
      let! cells := cells_at arrays row in
      let! '(deleted, s) := match mfind delete_ptr tables with
                            | Some d => run_mem (table_IsDeleted d cells data_layer) s
                            | None => Err (Exn "undefined: dangling pointer")
                            end in
      if deleted : bool then Ok (true, s) else any_deleted tables prepared data_layer row s
  end.

Definition handler_IsDeleted (h : EqualityDeleteHandler) (row : Z) : result (bool * EqualityDeleteHandler) :=
  match current_data_layer_ h with
  | None => Err (Exn "current_data_layer is not set")
  | Some data_layer =>
      let! '(deleted, s) := any_deleted (materialized_deletes_ h) (prepared_batches_ h) data_layer row (shared_state_ h) in
      Ok (deleted, set_shared_state s h)
  end.

(** ** FieldIdMapper *)

Definition unnamed (c : N) (field_id : Z) : string := "__unnamed_c" +:+ pretty c +:+ "_f" +:+ pretty field_id.

(** [while (true)]: at most one candidate per used name is taken. *)
Fixpoint GenerateNameForUnnamedColumn (fuel : nat) (c : N) (used_names : list string) (field_id : Z) : string :=
  match fuel with
  | O => unnamed c field_id
  | S fuel => if bool_decide (unnamed c field_id ∈ used_names)
              then GenerateNameForUnnamedColumn fuel (c + 1) used_names field_id
              else unnamed c field_id
  end.

Definition FieldIdToColumnName (known_field_id_to_name : list (Z * string)) (field_id : Z) : string :=
  match mfind field_id known_field_id_to_name with
  | Some name => name
  | None => GenerateNameForUnnamedColumn (length known_field_id_to_name) 0 known_field_id_to_name.*2 field_id
  end.

(** ** EqualityDeletes *)

Definition EqualityDeletes : Type := list (Z * list (Z * list EqualityDeleteInfo)).

(** The field ids a reader adds to the columns of a data file. *)
Definition GetFieldIds (deletes : EqualityDeletes) (partition layer : Z) : list Z :=
  match mfind partition deletes with
  | None => []
  | Some layers =>
      mset (flat_map (λ l : Z * list EqualityDeleteInfo,
        if l.1 <? layer then [] else flat_map field_ids l.2) layers)
  end.

(** ** EqualityDeleteApplier *)

(** A batch with its record batch: columns by name. *)
Record DataBatch := { place : IcebergBatch; record_batch : list (string * list cell) }.

(** [RecordBatch::GetColumnByName]: null unless exactly one column has the name. *)
Definition GetColumnByName (name : string) (b : DataBatch) : option (list cell) :=
  match List.filter (λ c, bool_decide (c.1 = name)) (record_batch b) with
  | [c] => Some c.2
  | _ => None
  end.

Record EqualityDeleteApplier := {
  equality_delete_handler_ : option EqualityDeleteHandler;
  eq_current_state_ : option Z;
}.

Definition initial_equality_applier : EqualityDeleteApplier :=
  {| equality_delete_handler_ := None; eq_current_state_ := None |}.

Section applier.
Context `{WidthSort} `{AbslMap}.
Context (OpenParquet : string → result EqualityDeleteFile).
Context (config : Config).
Context (equality_deletes_ : EqualityDeletes).
Context (known_field_id_to_name : list (Z * string)).

Definition ParseEqualityDeleteFile (types : list Arrow.type) (batches : list (list (list cell)))
    (equality_delete : DeleteTable) (delete_layer : Z) : mem DeleteTable :=
  fold_mem (λ d rows, table_Add d types rows delete_layer) equality_delete batches.

Definition AppendDelete (url : string) (field_ids_vec : list Z) (delete_layer : Z) (h : EqualityDeleteHandler) :
    result EqualityDeleteHandler :=
  let! f := OpenParquet url in
  let rows := wrap_u 64 (current_rows_ h + wrap_u 64 (file_num_rows f)) in
  if max_rows config <? rows then Err (StatusError "Equality delete rows limit exceeded") else
  let field_ids := mset field_ids_vec in
  let! '(types, batches) := PrepareRecordBatchReader f field_ids in
  let! '(eq_del, s) := match mfind field_ids (materialized_deletes_ h) with
                       | Some d => Ok (d, shared_state_ h)
                       | None => run_mem (make_table types (use_specialized_deletes config) (wrap_u 64 (file_num_rows f)))
                                   (shared_state_ h)
                       end in
  let! '(eq_del, s) := run_mem (ParseEqualityDeleteFile types batches eq_del delete_layer) s in
  let materialized := minsert field_ids eq_del (materialized_deletes_ h) in
  Ok {| current_rows_ := foldl (λ n e, wrap_u 64 (n + Size (table e.2))) 0 materialized;
        materialized_deletes_ := materialized;
        deletes_for_current_row_group_ := deletes_for_current_row_group_ h;
        prepared_batches_ := prepared_batches_ h;
        shared_state_ := s;
        current_data_layer_ := current_data_layer_ h |}.

(** [SetDeletes] on the handler just emplaced. *)
Definition SetDeletes (partition : Z) : result EqualityDeleteHandler :=
  match mfind partition equality_deletes_ with
  | None => Ok (make_EqualityDeleteHandler config)
  | Some layers =>
      fold_ok (λ h (l : Z * list EqualityDeleteInfo),
        fold_ok (λ h del, AppendDelete (ed_path del) (field_ids del) l.1 h) h l.2)
        (make_EqualityDeleteHandler config) layers
  end.

Definition MakeFieldIdToArray (b : DataBatch) (h : EqualityDeleteHandler) : result (list (Z * list cell)) :=
  fold_ok (λ m id,
    match GetColumnByName (FieldIdToColumnName known_field_id_to_name id) b with
    | None => Err (Exn "EqualityDeleteApplier: column is not found")
    | Some a => Ok (mupdate (λ o, default a o) id m)
    end) [] (GetEqualityDeleteFieldIds h).

(** [EraseIf] with a predicate that counts memory and can throw. *)
Fixpoint erase_deleted (h : EqualityDeleteHandler) (sv : list Z) : result (list Z * EqualityDeleteHandler) :=
  match sv with
  | [] => Ok ([], h)
  | row :: sv =>
      let! '(deleted, h) := handler_IsDeleted h row in
      let! '(rest, h) := erase_deleted h sv in
      Ok (if deleted : bool then rest else row :: rest, h)
  end.

Definition ApplyDeletes (b : DataBatch) (h : EqualityDeleteHandler) : result (DataBatch * EqualityDeleteHandler) :=
  let '(any, h) := PrepareDeletesForFile (layer_ (place b)) h in
  if any : bool then
    let! field_id_to_array := MakeFieldIdToArray b h in
    let! h := PrepareDeletesForBatch field_id_to_array h in
    let! '(sv, h) := erase_deleted h (selection_vector_ (place b)) in
    Ok ({| place := set_selection sv (place b); record_batch := record_batch b |}, h)
  else Ok (b, h).

(** [ReadNext] on the next batch of the input. *)
Definition equality_ReadNext (st : EqualityDeleteApplier) (b : DataBatch) :
    result (DataBatch * EqualityDeleteApplier) :=
  let partition := partition_ (place b) in
  let! h := if bool_decide (eq_current_state_ st = Some partition)
            then match equality_delete_handler_ st with Some h => Ok h | None => Err (Exn "undefined: no handler") end
            else SetDeletes partition in
  let! '(b, h) := ApplyDeletes b h in
  Ok (b, {| equality_delete_handler_ := Some h; eq_current_state_ := Some partition |}).

Fixpoint equality_apply_all (st : EqualityDeleteApplier) (batches : list DataBatch) : result (list DataBatch) :=
  match batches with
  | [] => Ok []
  | b :: batches =>
      let! '(b', st') := equality_ReadNext st b in
      let! rest := equality_apply_all st' batches in Ok (b' :: rest)
  end.
End applier.

(** ** Reading the columns of a delete file *)

Fixpoint index_of (id : Z) (l : list Z) : option nat :=
  match l with [] => None | x :: l => if bool_decide (x = id) then Some O else S <$> index_of id l end.

(** The cells of a row of the file under the given field ids. *)
Definition file_cells (f : EqualityDeleteFile) (ids : list Z) (row : list cell) : list cell :=
  omap (λ id, index_of id (GetParquetFieldIds f) ≫= λ p, row !! p) ids.

Lemma index_of_elem id l : id ∈ l ↔ is_Some (index_of id l).
Proof.
  induction l as [|x l IH]; simpl.
  { split; [by intros ?%elem_of_nil|by intros []]. }
  rewrite elem_of_cons. case_bool_decide as E; [subst; naive_solver|].
  rewrite fmap_is_Some, <- IH. naive_solver.
Qed.

Lemma positions_loop_spec parquet_ids ids : ∀ i m, keys_sorted m →
  let out := positions_loop i parquet_ids ids m in
  keys_sorted out ∧ ∀ id, mfind id out =
    match mfind id m with
    | Some p => Some p
    | None => if bool_decide (id ∈ ids) then (λ p, i + p)%nat <$> index_of id parquet_ids else None
    end.
Proof.
  induction parquet_ids as [|x l IH]; intros i m Hm; cbn [positions_loop index_of].
  { split; [done|]. intros id. destruct (mfind id m); [done|]. by case_bool_decide. }
  destruct (IH (S i) (if bool_decide (x ∈ ids) then mupdate (λ o, default i o) x m else m)) as [Hs Hf].
  { case_bool_decide; [by apply mupdate_sorted|done]. }
  split; [done|]. intros id. rewrite Hf. clear Hf.
  assert (∀ o : option nat, (λ p, S i + p)%nat <$> o = (λ p, i + p)%nat <$> (S <$> o)) as HS
    by (intros [p|]; simpl; [f_equal; lia|done]).
  destruct (decide (x = id)) as [->|Hne].
  - rewrite (bool_decide_true (id = id)) by done. case_bool_decide as Hin.
    + rewrite mfind_mupdate_eq. destruct (mfind id m); simpl; [done|f_equal; lia].
    + by destruct (mfind id m).
  - rewrite (bool_decide_false (x = id)) by done. rewrite HS.
    assert (mfind id (if bool_decide (x ∈ ids) then mupdate (λ o, default i o) x m else m) = mfind id m) as ->; [|done].
    case_bool_decide; [by apply mfind_mupdate_ne|done].
Qed.

Lemma values_by_key {V} (m : list (Z * V)) : keys_sorted m → m.*2 = omap (λ id, mfind id m) m.*1.
Proof.
  intros Hm. assert (∀ l, (∀ e, e ∈ l → e ∈ m) → l.*2 = omap (λ id, mfind id m) l.*1) as Hg; [|by apply Hg].
  induction l as [|[k v] l IH]; intros Hl; [done|]. simpl.
  rewrite (proj2 (mfind_elem_of m k v Hm)) by (apply Hl; by left).
  f_equal. apply IH. intros; apply Hl; by right.
Qed.

Lemma omap_omap {A B C} (f : A → option B) (g : B → option C) (l : list A) : omap g (omap f l) = omap (λ x, f x ≫= g) l.
Proof.
  induction l as [|x l IH]; [done|]. simpl. destruct (f x) as [y|]; simpl; [|exact IH]. destruct (g y); [f_equal|]; exact IH.
Qed.

Lemma PrepareRecordBatchReader_spec f ids :
  StronglySorted klt ids → (∀ id, id ∈ ids → id ∈ GetParquetFieldIds f) →
  PrepareRecordBatchReader f ids =
  Ok (omap (λ id, index_of id (GetParquetFieldIds f) ≫= λ p, (columns f).*2 !! p) ids,
      map (map (file_cells f ids)) (file_batches f)).
Proof.
  intros Hs Hall. unfold PrepareRecordBatchReader.
  destruct (positions_loop_spec (GetParquetFieldIds f) ids 0 [] keys_sorted_nil) as [Hm Hf].
  revert Hm Hf. generalize (positions_loop 0 (GetParquetFieldIds f) ids []). intros m Hm Hf. simpl in Hf.
  assert (∀ id, id ∈ ids → mfind id m = index_of id (GetParquetFieldIds f)) as Hin.
  { intros id Hid. rewrite Hf, bool_decide_true by done. by destruct (index_of id (GetParquetFieldIds f)). }
  assert (forallb (λ id, match mfind id m with Some _ => true | None => false end) ids = true) as ->.
  { apply forallb_forall. intros id Hid%list_elem_of_In. rewrite Hin by done.
    by destruct (proj1 (index_of_elem _ _) (Hall id Hid)) as [p ->]. }
  assert (m.*1 = ids) as Hk.
  { apply sorted_same; [done|done|]. intros id. rewrite list_elem_of_fmap. split.
    - intros ([k p] & -> & He). apply mfind_elem_of in He; [|done]. rewrite Hf in He. simpl. by case_bool_decide.
    - intros Hid. destruct (proj1 (index_of_elem _ _) (Hall id Hid)) as [p Hp].
      exists (id, p). split; [done|]. apply mfind_elem_of; [done|]. by rewrite Hin. }
  assert (m.*2 = omap (λ id, index_of id (GetParquetFieldIds f)) ids) as ->.
  { rewrite values_by_key, Hk by done. apply list_omap_ext, Forall_Forall2_diag, Forall_forall. apply Hin. }
  unfold project, file_cells. rewrite omap_omap. do 2 f_equal.
  apply map_ext. intros rows. apply map_ext. intros row. by rewrite omap_omap.
Qed.

(** ** Names of unnamed columns *)

Lemma unnamed_inj c c' id : unnamed c id = unnamed c' id → c = c'.
Proof.
  unfold unnamed. intros E%append_inj_l. apply append_inj_len in E as [E _]; [by apply (inj pretty)|].
  apply (f_equal String.length) in E. rewrite !append_length in E. lia.
Qed.

Lemma generated_used fuel : ∀ c used id,
  GenerateNameForUnnamedColumn fuel c used id ∈ used →
  ∀ k, (k ≤ fuel)%nat → unnamed (c + N.of_nat k) id ∈ used.
Proof.
  induction fuel as [|fuel IH]; intros c used id Hin k Hk; cbn [GenerateNameForUnnamedColumn] in Hin.
  - replace (c + N.of_nat k)%N with c by lia. done.
  - case_bool_decide as E; [|done]. destruct k as [|k].
    + by replace (c + N.of_nat 0)%N with c by lia.
    + replace (c + N.of_nat (S k))%N with (c + 1 + N.of_nat k)%N by lia. apply IH; [done|lia].
Qed.

(** A column without a name gets one that no known column has. *)
Lemma FieldIdToColumnName_fresh known id :
  mfind id known = None → FieldIdToColumnName known id ∉ known.*2.
Proof.
  intros Hid Hin. unfold FieldIdToColumnName in Hin. rewrite Hid in Hin.
  pose proof (generated_used _ _ _ _ Hin) as Hall.
  set (names := (λ k, unnamed (0 + N.of_nat k) id) <$> seq 0 (S (length known))).
  assert (NoDup names) as Hnd.
  { apply NoDup_fmap_2_strong; [|apply NoDup_seq]. intros i j _ _ E%unnamed_inj. lia. }
  assert (names ⊆+ known.*2) as Hsub%submseteq_length.
  { apply NoDup_submseteq; [done|]. intros x (k & -> & Hk%elem_of_seq)%list_elem_of_fmap. apply Hall. lia. }
  unfold names in Hsub. rewrite !length_fmap, length_seq in Hsub. lia.
Qed.

(** Digits, which no underscore is. *)
Definition underscore : Ascii.ascii := Ascii.ascii_of_nat 95.

Fixpoint no_underscore (s : string) : Prop :=
  match s with EmptyString => True | String c s => c ≠ underscore ∧ no_underscore s end.

Lemma pretty_no_underscore (n : N) : no_underscore (pretty n).
Proof.
  assert (∀ x s, no_underscore s → no_underscore (pretty_N_go x s)) as Hgo.
  { intros x. induction (N.lt_wf_0 x) as [x _ IH]. intros s Hs.
    destruct (decide (0 < x)%N) as [Hx|Hx]; [|by assert (x = 0%N) as -> by lia].
    rewrite pretty_N_go_step by done. apply IH; [apply N.div_lt; lia|]. split; [|done].
    unfold pretty_N_char. intros E. repeat (case_match; try done). }
  unfold pretty, pretty_N. case_match; [by split|]. by apply Hgo.
Qed.

Lemma split_underscore a b x y :
  no_underscore a → no_underscore b → a +:+ String underscore x = b +:+ String underscore y → x = y.
Proof.
  revert b. induction a as [|c a IH]; intros [|d b] Ha Hb E; cbn in *.
  - by injection E.
  - injection E as E1 E2. by destruct Hb.
  - injection E as E1 E2. by destruct Ha.
  - injection E as -> E. apply (IH b); [apply Ha|apply Hb|done].
Qed.

Lemma unnamed_id_inj c c' id id' : unnamed c id = unnamed c' id' → id = id'.
Proof.
  unfold unnamed. intros E%append_inj_l.
  apply (split_underscore (pretty c) (pretty c')) in E; [|apply pretty_no_underscore..].
  cbn in E. injection E as E. by apply (inj pretty) in E.
Qed.

Lemma generated_unnamed fuel : ∀ c used id, ∃ c', GenerateNameForUnnamedColumn fuel c used id = unnamed c' id.
Proof.
  induction fuel as [|fuel IH]; intros c used id; cbn [GenerateNameForUnnamedColumn]; [by eexists|].
  case_bool_decide; [apply IH|by eexists].
Qed.

(** Different fields have different column names. *)
Lemma FieldIdToColumnName_inj known id id' :
  keys_sorted known → NoDup known.*2 → FieldIdToColumnName known id = FieldIdToColumnName known id' → id = id'.
Proof.
  intros Hs Hd E. destruct (mfind id known) as [n|] eqn:E1, (mfind id' known) as [n'|] eqn:E2.
  - unfold FieldIdToColumnName in E. rewrite E1, E2 in E. subst n'. apply mfind_elem_of in E1, E2; [|done..].
    apply list_elem_of_lookup in E1 as [i Hi]. apply list_elem_of_lookup in E2 as [j Hj].
    assert (i = j) as <-; [|congruence].
    apply (NoDup_lookup _ _ _ n Hd); rewrite list_lookup_fmap; [by rewrite Hi|by rewrite Hj].
  - destruct (FieldIdToColumnName_fresh _ _ E2). rewrite <- E. unfold FieldIdToColumnName. rewrite E1.
    apply mfind_elem_of in E1; [|done]. apply list_elem_of_fmap. by exists (id, n).
  - destruct (FieldIdToColumnName_fresh _ _ E1). rewrite E. unfold FieldIdToColumnName. rewrite E2.
    apply mfind_elem_of in E2; [|done]. apply list_elem_of_fmap. by exists (id', n').
  - unfold FieldIdToColumnName in E. rewrite E1, E2 in E.
    destruct (generated_unnamed (length known) 0 known.*2 id) as [c Hc].
    destruct (generated_unnamed (length known) 0 known.*2 id') as [c' Hc'].
    rewrite Hc, Hc' in E. by apply unnamed_id_inj in E.
Qed.

(** ** The rows of the equality deletes of a partition *)

Definition key_of (info : EqualityDeleteInfo) : list Z := mset (field_ids info).
Lemma key_of_elem info id : id ∈ key_of info → id ∈ field_ids info.
Proof. apply elem_of_mset. Qed.
Definition eq_file_rows (f : EqualityDeleteFile) : list (list cell) := concat (file_batches f).

(** A delete file whose columns have the types [ty] of the table's fields. *)
Record eq_file_ok (ty : Z → Arrow.type) (info : EqualityDeleteInfo) (f : EqualityDeleteFile) : Prop := {
  fk_columns : ∀ id, id ∈ field_ids info → id ∈ GetParquetFieldIds f;
  fk_types : ∀ id t, (id, t) ∈ columns f → t = ty id;
  fk_rows : ∀ r, r ∈ eq_file_rows f → row_ok (ty <$> key_of info) (file_cells f (key_of info) r);
  fk_num : file_num_rows f = Z.of_nat (length (eq_file_rows f));
  fk_width : (length (key_of info) ≤ 64)%nat;
}.

Lemma index_of_lookup id l p : index_of id l = Some p → l !! p = Some id.
Proof.
  revert p. induction l as [|x l IH]; intros p E; simpl in E; [done|].
  case_bool_decide as Ex; [by simplify_eq|]. apply fmap_Some in E as (q & Hq & ->). by apply IH.
Qed.

Lemma file_types_ok ty info f :
  eq_file_ok ty info f →
  omap (λ id, index_of id (GetParquetFieldIds f) ≫= λ p, (columns f).*2 !! p) (key_of info) = ty <$> key_of info.
Proof.
  intros Hf. assert (∀ ids : list Z, (∀ id, id ∈ ids → id ∈ GetParquetFieldIds f) →
    omap (λ id, index_of id (GetParquetFieldIds f) ≫= λ p, (columns f).*2 !! p) ids = ty <$> ids) as Hg.
  { induction ids as [|id ids IH]; intros Hids; [done|]. simpl.
    destruct (proj1 (index_of_elem _ _) (Hids id ltac:(by left))) as [p Hp]. rewrite Hp. simpl.
    apply index_of_lookup in Hp. unfold GetParquetFieldIds in Hp. rewrite list_lookup_fmap in Hp.
    rewrite list_lookup_fmap. destruct (columns f !! p) as [[id' t]|] eqn:Ec; simplify_eq/=.
    f_equal; [by apply (fk_types _ _ _ Hf), (list_elem_of_lookup_2 _ _ _ Ec)|].
    apply IH. intros; apply Hids; by right. }
  apply Hg. intros id Hid%key_of_elem. by apply (fk_columns _ _ _ Hf).
Qed.

(** The deletes of a partition, oldest layer first. *)
Definition partition_deletes (deletes : EqualityDeletes) (partition : Z) : list (Z * EqualityDeleteInfo) :=
  match mfind partition deletes with
  | None => []
  | Some layers => flat_map (λ l : Z * list EqualityDeleteInfo, (λ d, (l.1, d)) <$> l.2) layers
  end.

Lemma fold_ok_nested {A B S} (f : S → Z * A → result S) (layers : list (B * list A)) (g : B → Z) s :
  fold_ok (λ s (l : B * list A), fold_ok (λ s x, f s (g l.1, x)) s l.2) s layers =
  fold_ok f s (flat_map (λ l : B * list A, (λ d, (g l.1, d)) <$> l.2) layers).
Proof.
  revert s. induction layers as [|[b xs] layers IH]; intros s; [done|]. cbn [fold_ok flat_map fst snd].
  rewrite fold_ok_app.
  assert (∀ s, fold_ok (λ s x, f s (g b, x)) s xs = fold_ok f s ((λ d, (g b, d)) <$> xs)) as ->.
  { induction xs as [|x xs IHx]; intros s0; [done|]. rewrite fmap_cons. cbn [fold_ok].
    destruct (f s0 (g b, x)); cbn [rbind]; [apply IHx|done]. }
  destruct (fold_ok f s ((λ d, (g b, d)) <$> xs)); cbn [rbind]; [apply IH|done].
Qed.

Definition total_size (m : list (list Z * DeleteTable)) : Z := foldr (λ e n, Size (table e.2) + n) 0 m.

Lemma Size_nonneg d : 0 ≤ Size d.
Proof.
  destruct d as [m|d|d]; cbn [Size]; [lia|case_match; lia|].
  induction (map_to_list (values_with_nulls_ d)); cbn [foldr]; lia.
Qed.

Lemma total_size_nonneg m : 0 ≤ total_size m.
Proof. unfold total_size. induction m as [|[k d] m IH]; simpl; [done|]. pose proof (Size_nonneg (table d)). lia. Qed.

Lemma total_size_insert k d m :
  total_size (minsert k d m) = total_size m + Size (table d) - match mfind k m with Some d0 => Size (table d0) | None => 0 end.
Proof.
  unfold minsert, total_size. induction m as [|[k' d'] m IH]; [simpl; lia|].
  cbn [mupdate mfind foldr]. destruct (kcmp k k'); cbn [foldr snd]; [lia|lia|]. rewrite IH. lia.
Qed.

Lemma rows_sum m n :
  0 ≤ n → n + total_size m ≤ uint64_max → foldl (λ n (e : list Z * DeleteTable), wrap_u 64 (n + Size (table e.2))) n m = n + total_size m.
Proof.
  revert n. induction m as [|[k d] m IH]; intros n Hn Hb; cbn [foldl]; [unfold total_size; simpl; lia|].
  change (total_size ((k, d) :: m)) with (Size (table d) + total_size m) in *.
  pose proof (Size_nonneg (table d)). pose proof (total_size_nonneg m). cbn [snd].
  assert (wrap_u 64 (n + Size (table d)) = n + Size (table d)) as ->.
  { unfold wrap_u. apply Z.mod_small. change (2 ^ 64) with 18446744073709551616. unfold uint64_max in Hb. lia. }
  rewrite IH; lia.
Qed.

Section exact.
Context `{WidthSort} `{AbslMap}.
Context (OpenParquet : string → result EqualityDeleteFile).
Context (config : Config).
Context (equality_deletes_ : EqualityDeletes).
Context (known_field_id_to_name : list (Z * string)).
Context (ty : Z → Arrow.type).

Notation append := (λ h (ld : Z * EqualityDeleteInfo),
  AppendDelete OpenParquet config (ed_path ld.2) (field_ids ld.2) ld.1 h).

Definition rows_of (info : EqualityDeleteInfo) : Z :=
  match OpenParquet (ed_path info) with Ok f => file_num_rows f | Err _ => 0 end.
Definition rows_total (l : list (Z * EqualityDeleteInfo)) : Z := foldr (λ ld n, rows_of ld.2 + n) 0 l.

Lemma rows_total_snoc l ld : rows_total (l ++ [ld]) = rows_total l + rows_of ld.2.
Proof. unfold rows_total. induction l as [|x l IH]; simpl; [lia|]. rewrite IH. lia. Qed.

Definition openable (info : EqualityDeleteInfo) : Prop :=
  ∃ f, OpenParquet (ed_path info) = Ok f ∧ eq_file_ok ty info f.

(** The rows the deletes [l] put into the table of the fields [K]. *)
Definition added_by (l : list (Z * EqualityDeleteInfo)) (K : list Z) (cells : list cell) (layer : Z) : Prop :=
  ∃ info f r, (layer, info) ∈ l ∧ key_of info = K ∧ OpenParquet (ed_path info) = Ok f ∧
    r ∈ eq_file_rows f ∧ cells = file_cells f K r.

Definition table_ok (l : list (Z * EqualityDeleteInfo)) (K : list Z) (d : EqualityDelete) : Prop :=
  ∃ adds, implements (ty <$> K) d adds ∧ (∀ a, a ∈ adds → row_ok (ty <$> K) a.1) ∧
    (use_specialized_deletes config = false → is_generic d = true) ∧
    ∀ cells layer, (cells, layer) ∈ adds ↔ added_by l K cells layer.

Record handler_inv (l : list (Z * EqualityDeleteInfo)) (h : EqualityDeleteHandler) : Prop := {
  hi_sorted : keys_sorted (materialized_deletes_ h);
  hi_tables : ∀ K d, mfind K (materialized_deletes_ h) = Some d → table_ok l K (table d);
  hi_all : ∀ layer info, (layer, info) ∈ l → is_Some (mfind (key_of info) (materialized_deletes_ h));
  hi_keys : ∀ K, is_Some (mfind K (materialized_deletes_ h)) → ∃ layer info, (layer, info) ∈ l ∧ key_of info = K;
  hi_rows : current_rows_ h = total_size (materialized_deletes_ h);
  hi_bound : total_size (materialized_deletes_ h) ≤ rows_total l;
  hi_throws : throws (shared_state_ h) = throw_if_memory_limit_exceeded config;
}.

Lemma handler_inv_empty : handler_inv [] (make_EqualityDeleteHandler config).
Proof.
  split; simpl; try done; first [apply keys_sorted_nil|by intros ? ? ?%elem_of_nil|by intros ? []].
Qed.

Lemma added_by_snoc l layer info f K cells layer' :
  OpenParquet (ed_path info) = Ok f →
  added_by (l ++ [(layer, info)]) K cells layer' ↔
  added_by l K cells layer' ∨
  (layer' = layer ∧ key_of info = K ∧ ∃ r, r ∈ eq_file_rows f ∧ cells = file_cells f K r).
Proof.
  intros Hf. unfold added_by. setoid_rewrite elem_of_app. setoid_rewrite list_elem_of_singleton. split.
  - intros (info' & f' & r & [Hin|[= -> ->]] & HK & Ho & Hr & Hc).
    + left. by exists info', f', r.
    + right. assert (f' = f) as -> by congruence. by eauto 6.
  - intros [(info' & f' & r & Hin & HK & Ho & Hr & Hc)|(-> & HK & r & Hr & Hc)].
    + exists info', f', r. auto.
    + exists info, f, r. auto.
Qed.

(** The contents of a table after a delete file. *)
Definition parsed (types : list Arrow.type) (batches : list (list (list cell))) (d : EqualityDelete) (layer : Z) :
    result EqualityDelete :=
  fold_ok (λ d rows, Add d types rows layer) d batches.

Lemma tracks_parse types batches t layer :
  tracks table (ParseEqualityDeleteFile types batches t layer) (parsed types batches (table t) layer).
Proof. apply (tracks_fold table). intros s x. apply tracks_Add. Qed.

Lemma parse_as_batches types batches d layer :
  parsed types batches d layer = add_batches d types ((λ rows, (rows, layer)) <$> batches).
Proof.
  unfold parsed, add_batches. revert d.
  induction batches as [|rows batches IH]; intros d; [done|]. rewrite fmap_cons. cbn [fold_ok fst snd].
  destruct (Add d types rows layer); cbn [rbind]; [apply IH|done].
Qed.

Lemma parse_size types batches d layer d' :
  parsed types batches d layer = Ok d' →
  Size d' ≤ Size d + Z.of_nat (length (concat batches)).
Proof.
  unfold parsed. revert d. induction batches as [|rows batches IH]; intros d E; cbn [fold_ok] in E.
  - injection E as <-. simpl. lia.
  - apply rbind_Ok_inv in E as (d1 & E1%Add_size & E%IH). cbn [concat]. rewrite length_app. lia.
Qed.

Lemma added_layer layer batches cells layer' :
  (cells, layer') ∈ added ((λ rows, (rows, layer)) <$> batches) ↔ layer' = layer ∧ cells ∈ concat batches.
Proof.
  unfold added. rewrite elem_of_flat_map, list_elem_of_In, in_concat. setoid_rewrite <- list_elem_of_In.
  setoid_rewrite list_elem_of_fmap. split.
  - intros (b & (rows & -> & Hrows) & c & [= -> ->] & Hc). split; [done|]. by exists rows.
  - intros (-> & rows & Hrows & Hc). exists (rows, layer). split; [by exists rows|]. by exists cells.
Qed.

Lemma projected_rows f K cells :
  cells ∈ concat (map (map (file_cells f K)) (file_batches f)) ↔
  ∃ r, r ∈ eq_file_rows f ∧ cells = file_cells f K r.
Proof.
  rewrite <- concat_map. unfold eq_file_rows. rewrite list_elem_of_In, in_map_iff.
  setoid_rewrite <- list_elem_of_In. naive_solver.
Qed.

Lemma Make_empty schema use d :
  MakeEqualityDelete schema use = Ok d → Size d = 0 ∧ (use = false → is_generic d = true).
Proof.
  unfold MakeEqualityDelete. intros E. destruct use; simpl in E; [|by simplify_eq].
  repeat case_match; simplify_eq/=; done.
Qed.

(** The table a delete file is added to: the one of its fields, or a new one. *)
Lemma table_for l h info f :
  handler_inv l h → OpenParquet (ed_path info) = Ok f → eq_file_ok ty info f →
  settles (throw_if_memory_limit_exceeded config)
    (λ p, table_ok l (key_of info) (table p.1) ∧
       Size (table p.1) = match mfind (key_of info) (materialized_deletes_ h) with Some d => Size (table d) | None => 0 end ∧
       throws p.2 = throw_if_memory_limit_exceeded config)
    match mfind (key_of info) (materialized_deletes_ h) with
    | Some d => Ok (d, shared_state_ h)
    | None => run_mem (make_table (ty <$> key_of info) (use_specialized_deletes config) (wrap_u 64 (file_num_rows f)))
                (shared_state_ h)
    end.
Proof.
  intros Hh Hf Hok. destruct (mfind (key_of info) (materialized_deletes_ h)) as [d|] eqn:E.
  { split; [by apply (hi_tables _ _ Hh)|]. split; [done|apply Hh]. }
  destruct (make_implements (ty <$> key_of info) (use_specialized_deletes config)) as (d & Ed & Hi).
  { rewrite length_fmap. apply (fk_width _ _ _ Hok). }
  rewrite <- (hi_throws _ _ Hh). eapply settles_impl; [eapply tracks_settles; rewrite <- Ed; apply tracks_make|].
  intros [t s] [Et Es]. cbn [fst snd] in *. rewrite Et. destruct (Make_empty _ _ _ Ed) as [Hs Hg]. split; [|done].
  exists []. split; [done|]. split; [by intros ? ?%elem_of_nil|]. split; [done|].
  intros cells layer. split; [by intros ?%elem_of_nil|].
  intros (info' & f' & r & Hin & HK & _). destruct (hi_all _ _ Hh _ _ Hin) as [d' Hd']. rewrite HK, E in Hd'. done.
Qed.

Lemma table_add l layer info f d :
  OpenParquet (ed_path info) = Ok f → eq_file_ok ty info f → table_ok l (key_of info) d →
  ∃ d', parsed (ty <$> key_of info) (map (map (file_cells f (key_of info))) (file_batches f)) d layer
        = Ok d' ∧ table_ok (l ++ [(layer, info)]) (key_of info) d'.
Proof.
  intros Hf Hok (adds & Hi & Hadds & Hg & Hiff). rewrite parse_as_batches.
  set (bs := (λ rows, (rows, layer)) <$> map (map (file_cells f (key_of info))) (file_batches f)).
  assert (Forall (λ b, Forall (row_ok (ty <$> key_of info)) b.1) bs) as Hbs.
  { apply Forall_fmap, Forall_forall. intros rows Hrows. apply Forall_forall. simpl. intros cells Hc.
    assert (cells ∈ concat (map (map (file_cells f (key_of info))) (file_batches f))) as Hin.
    { rewrite list_elem_of_In, in_concat. exists rows. by rewrite <- !list_elem_of_In. }
    apply projected_rows in Hin as (r & Hr & ->). by apply (fk_rows _ _ _ Hok). }
  destruct (add_batches_implements (ty <$> key_of info) d adds bs Hi Hbs) as (d' & E & Hi' & Hg').
  exists d'. split; [done|]. exists (adds ++ added bs). split; [done|]. split; [|split].
  - intros a [Ha|Ha]%elem_of_app; [by apply Hadds|by eapply added_elem].
  - intros Hu. rewrite Hg'. by apply Hg.
  - intros cells layer'. rewrite elem_of_app, Hiff, (added_by_snoc _ _ _ f) by done.
    unfold bs. rewrite added_layer, projected_rows. naive_solver.
Qed.

Lemma table_other l layer info K d : key_of info ≠ K → table_ok l K d → table_ok (l ++ [(layer, info)]) K d.
Proof.
  intros Hne (adds & Hi & Ha & Hg & Hiff). exists adds. split; [done|]. split; [done|]. split; [done|].
  intros cells layer'. rewrite Hiff. unfold added_by. setoid_rewrite elem_of_app.
  setoid_rewrite list_elem_of_singleton. naive_solver.
Qed.

Lemma AppendDelete_spec l h layer info :
  handler_inv l h → openable info → rows_total (l ++ [(layer, info)]) ≤ max_rows config →
  max_rows config ≤ uint64_max →
  settles (throw_if_memory_limit_exceeded config) (handler_inv (l ++ [(layer, info)]))
    (AppendDelete OpenParquet config (ed_path info) (field_ids info) layer h).
Proof.
  intros Hh (f & Hf & Hok) Hrows Hmax. unfold AppendDelete. rewrite Hf. cbn [rbind].
  rewrite rows_total_snoc in Hrows. cbn [snd] in Hrows. unfold rows_of in Hrows. rewrite Hf in Hrows.
  pose proof (hi_rows _ _ Hh) as Hcur. pose proof (hi_bound _ _ Hh) as Hb.
  pose proof (total_size_nonneg (materialized_deletes_ h)) as Hnn. pose proof (fk_num _ _ _ Hok) as Hnum.
  assert (wrap_u 64 (current_rows_ h + wrap_u 64 (file_num_rows f)) = current_rows_ h + file_num_rows f) as ->.
  { unfold wrap_u. unfold uint64_max in Hmax. change (2 ^ 64) with 18446744073709551616.
    rewrite (Z.mod_small (file_num_rows f)) by lia. apply Z.mod_small. lia. }
  destruct (Z.ltb_spec (max_rows config) (current_rows_ h + file_num_rows f)); [lia|].
  fold (key_of info). rewrite PrepareRecordBatchReader_spec; [|apply mset_sorted|].
  2:{ intros id Hid%key_of_elem. by apply (fk_columns _ _ _ Hok). }
  cbn [rbind]. rewrite (file_types_ok ty info f Hok).
  eapply settles_bind; [by apply (table_for l h info f)|]. intros [d s] (Hd & Hsd & Hs). cbn [fst snd] in *.
  destruct (table_add l layer info f (table d) Hf Hok Hd) as (d1 & Ep & Hd').
  eapply settles_bind; [rewrite <- Hs; eapply tracks_settles; rewrite <- Ep; apply tracks_parse|].
  intros [d' s'] [Ed' Hs']. cbn [fst snd] in *. subst d1. rewrite Hs in Hs'.
  apply parse_size in Ep. rewrite concat_map in Ep || rewrite <- concat_map in Ep.
  rewrite length_map in Ep. fold (eq_file_rows f) in Ep. rewrite <- Hnum in Ep.
  assert (total_size (minsert (key_of info) d' (materialized_deletes_ h)) ≤
    total_size (materialized_deletes_ h) + file_num_rows f) as Hts.
  { rewrite total_size_insert. lia. }
  unfold minsert in *. split; cbn [materialized_deletes_ current_rows_ shared_state_].
  - by apply mupdate_sorted, Hh.
  - intros K d0. destruct (decide (key_of info = K)) as [<-|Hne].
    + rewrite mfind_mupdate_eq. by intros [= <-].
    + rewrite mfind_mupdate_ne by (done || apply Hh). intros E. apply table_other; [done|]. by apply (hi_tables _ _ Hh).
  - intros layer' info' [Hin|[= -> ->]%list_elem_of_singleton]%elem_of_app; [|by rewrite mfind_mupdate_eq].
    destruct (decide (key_of info = key_of info')) as [->|Hne]; [by rewrite mfind_mupdate_eq|].
    rewrite mfind_mupdate_ne by (done || apply Hh). by eapply (hi_all _ _ Hh).
  - intros K HK. destruct (decide (key_of info = K)) as [<-|Hne].
    + exists layer, info. split; [|done]. apply elem_of_app. right. by left.
    + rewrite mfind_mupdate_ne in HK by (done || apply Hh). destruct (hi_keys _ _ Hh K HK) as (l0 & i0 & Hin & E).
      exists l0, i0. split; [|done]. apply elem_of_app. by left.
  - rewrite rows_sum; lia.
  - rewrite rows_total_snoc. cbn [snd]. unfold rows_of. rewrite Hf. lia.
  - done.
Qed.

Definition deletes_ok (partition : Z) : Prop :=
  (∀ layer info, (layer, info) ∈ partition_deletes equality_deletes_ partition → openable info) ∧
  rows_total (partition_deletes equality_deletes_ partition) ≤ max_rows config ≤ uint64_max.

Lemma rows_of_nonneg info : openable info → 0 ≤ rows_of info.
Proof. intros (f & Hf & Hok). unfold rows_of. rewrite Hf, (fk_num _ _ _ Hok). lia. Qed.

Lemma SetDeletes_spec partition :
  deletes_ok partition →
  settles (throw_if_memory_limit_exceeded config) (handler_inv (partition_deletes equality_deletes_ partition))
    (SetDeletes OpenParquet config equality_deletes_ partition).
Proof.
  unfold deletes_ok, SetDeletes, partition_deletes. destruct (mfind partition equality_deletes_) as [layers|].
  2:{ intros _. apply handler_inv_empty. }
  rewrite (fold_ok_nested append layers (λ l, l)).
  generalize (flat_map (λ l : Z * list EqualityDeleteInfo, (λ d, (l.1, d)) <$> l.2) layers). intros l [Hopen [Hrows Hmax]].
  assert (∀ l2 l1 h, l = l1 ++ l2 → handler_inv l1 h →
    settles (throw_if_memory_limit_exceeded config) (handler_inv l) (fold_ok append h l2)) as Hg.
  { induction l2 as [|[layer info] l2 IH]; intros l1 h El Hh; cbn [fold_ok fst snd].
    { rewrite app_nil_r in El. by subst. }
    assert (∀ x, x ∈ l2 → openable x.2) as H2.
    { intros [? ?] Hx. eapply Hopen. rewrite El. apply elem_of_app. right. right. exact Hx. }
    assert (0 ≤ rows_total l2) as Hl2.
    { clear -H2. induction l2 as [|x l2 IH]; [done|]. unfold rows_total. cbn [foldr].
      pose proof (rows_of_nonneg _ (H2 x ltac:(by left))). specialize (IH (λ y Hy, H2 y ltac:(by right))).
      unfold rows_total in IH. lia. }
    assert (rows_total l = rows_total (l1 ++ [(layer, info)]) + rows_total l2) as Ht.
    { rewrite El, rows_total_snoc. unfold rows_total. rewrite foldr_app. cbn [foldr snd]. clear.
      induction l1 as [|x l1 IH]; cbn [foldr]; [lia|]. lia. }
    eapply settles_bind; [apply (AppendDelete_spec l1 h layer info Hh); [|lia|done]|].
    { eapply Hopen. rewrite El. apply elem_of_app. right. by left. }
    intros h' Hh'. apply (IH (l1 ++ [(layer, info)])); [|done]. by rewrite <- app_assoc. }
  apply (Hg l []); [done|apply handler_inv_empty].
Qed.

(** ** Applying the tables to a batch *)

Definition column_of (b : DataBatch) (id : Z) : option (list cell) :=
  GetColumnByName (FieldIdToColumnName known_field_id_to_name id) b.

(** The cells of row [i] of the batch under the given field ids. *)
Definition data_cells (b : DataBatch) (ids : list Z) (i : Z) : list cell :=
  omap (λ id, column_of b id ≫= λ a, a !! Z.to_nat i) ids.

(** A row of an equality delete file of the partition, of the layer of the batch
    or a newer one, agrees with row [i] on the fields of the delete. *)
Definition row_deleted_by (l : list (Z * EqualityDeleteInfo)) (b : DataBatch) (i : Z) : Prop :=
  ∃ layer info f r, (layer, info) ∈ l ∧ layer_ (place b) ≤ layer ∧ OpenParquet (ed_path info) = Ok f ∧
    r ∈ eq_file_rows f ∧ row_value (file_cells f (key_of info) r) = row_value (data_cells b (key_of info) i).

Record data_ok (l : list (Z * EqualityDeleteInfo)) (b : DataBatch) : Prop := {
  dk_columns : ∀ layer info id, (layer, info) ∈ l → id ∈ field_ids info →
    ∃ a, column_of b id = Some a ∧ ∀ i, i ∈ selection_vector_ (place b) → is_Some (a !! Z.to_nat i);
  dk_rows : ∀ layer info i, (layer, info) ∈ l → i ∈ selection_vector_ (place b) →
    row_ok (ty <$> key_of info) (data_cells b (key_of info) i);
  dk_nulls : ∀ layer info i, (layer, info) ∈ l → i ∈ selection_vector_ (place b) →
    use_specialized_deletes config = false ∨ existsb is_null (data_cells b (key_of info) i) = false;
}.

Section batch.
Context (l : list (Z * EqualityDeleteInfo)) (h : EqualityDeleteHandler) (b : DataBatch).
Context (Hh : handler_inv l h) (Hb : data_ok l b).

(** What the table of the fields [K] says of row [i]. *)
Lemma table_answer K d i :
  mfind K (materialized_deletes_ h) = Some d → i ∈ selection_vector_ (place b) →
  ∃ ans, IsDeleted (table d) (data_cells b K i) (layer_ (place b)) = Ok ans ∧ (Size (table d) ≤ 0 → ans = false) ∧
    (ans = true ↔ ∃ cells layer, added_by l K cells layer ∧ layer_ (place b) ≤ layer ∧
                    row_value cells = row_value (data_cells b K i)).
Proof.
  intros Hd Hi. destruct (hi_tables _ _ Hh K d Hd) as (adds & Himp & Hadds & Hg & Hiff).
  destruct (hi_keys _ _ Hh K ltac:(by eexists)) as (layer0 & info0 & Hin0 & HK). subst K.
  pose proof (dk_rows _ _ Hb _ _ _ Hin0 Hi) as Hrow.
  assert (is_generic (table d) = true ∨ existsb is_null (data_cells b (key_of info0) i) = false) as Hn.
  { destruct (dk_nulls _ _ Hb _ _ _ Hin0 Hi) as [Hu|Hn]; [left; by apply Hg|by right]. }
  pose proof (IsDeleted_implements _ _ _ _ (layer_ (place b)) Himp Hadds Hrow Hn) as E.
  eexists. split; [exact E|]. split.
  - intros Hs. rewrite (Size_zero _ _ _ _ _ Himp Hrow Hn Hs) in E. by injection E.
  - unfold matches. rewrite existsb_exists. setoid_rewrite <- list_elem_of_In.
    setoid_rewrite andb_true_iff. setoid_rewrite bool_decide_eq_true. setoid_rewrite Z.leb_le. split.
    + intros ([cells layer] & Ha%Hiff & Hv & Hl). by exists cells, layer.
    + intros (cells & layer & Ha%Hiff & Hl & Hv). by exists (cells, layer).
Qed.

Lemma key_columns K id :
  is_Some (mfind K (materialized_deletes_ h)) → id ∈ K →
  ∃ a, column_of b id = Some a ∧ ∀ i, i ∈ selection_vector_ (place b) → is_Some (a !! Z.to_nat i).
Proof.
  intros HK Hid. destruct (hi_keys _ _ Hh K HK) as (layer & info & Hin & <-).
  apply (dk_columns _ _ Hb layer info id Hin). by apply key_of_elem.
Qed.

Lemma MakeFieldIdToArray_spec :
  ∃ m, MakeFieldIdToArray known_field_id_to_name b h = Ok m ∧
    ∀ id, id ∈ GetEqualityDeleteFieldIds h → mfind id m = column_of b id.
Proof.
  unfold MakeFieldIdToArray.
  destruct (fold_ok_total (λ (m : list (Z * list cell)) p, keys_sorted m ∧
      (∀ id a, mfind id m = Some a → column_of b id = Some a) ∧ ∀ id, id ∈ p → is_Some (mfind id m))
    (λ id, is_Some (column_of b id))
    (λ m id, match GetColumnByName (FieldIdToColumnName known_field_id_to_name id) b with
             | None => Err (Exn "EqualityDeleteApplier: column is not found")
             | Some a => Ok (mupdate (λ o, default a o) id m)
             end) (GetEqualityDeleteFieldIds h)) with (s := @nil (Z * list cell)) (p := @nil Z)
    as (m & E & Hs & Hcol & Hall).
  - intros p id m (Hs & Hcol & Hall) [a Ha]. unfold column_of in Ha. rewrite Ha. eexists. split; [done|].
    split; [by apply mupdate_sorted|]. split.
    + intros id' a'. destruct (decide (id = id')) as [<-|Hne].
      * rewrite mfind_mupdate_eq. intros [= <-]. destruct (mfind id m) eqn:Em; [by apply Hcol|done].
      * rewrite mfind_mupdate_ne by done. apply Hcol.
    + intros id' Hid. destruct (decide (id = id')) as [<-|Hne]; [by rewrite mfind_mupdate_eq|].
      rewrite mfind_mupdate_ne by done. apply Hall. apply elem_of_app in Hid as [?|?%list_elem_of_singleton]; by subst.
  - split; [apply keys_sorted_nil|]. split; [done|]. by intros ? ?%elem_of_nil.
  - apply Forall_forall. intros id Hid. unfold GetEqualityDeleteFieldIds in Hid.
    apply (proj1 (elem_of_mset _ _)) in Hid. rewrite list_elem_of_In, in_concat in Hid.
    destruct Hid as (K & HK & Hid). apply list_elem_of_In in HK, Hid.
    apply list_elem_of_fmap in HK as ([K' d] & -> & HK). apply mfind_elem_of in HK; [|apply Hh].
    destruct (key_columns K' id) as (a & -> & _); [by eexists|done|by eexists].
  - exists m. split; [done|]. intros id Hid. simpl in Hall. destruct (Hall id Hid) as [a Ha].
    rewrite Ha. symmetry. by apply Hcol.
Qed.

(** The arrays of a table, and the cells of a row in them. *)
Definition arrays_of (K : list Z) : list (list cell) := omap (column_of b) K.

Lemma arrays_of_spec K m :
  is_Some (mfind K (materialized_deletes_ h)) →
  (∀ id, id ∈ GetEqualityDeleteFieldIds h → mfind id m = column_of b id) →
  map_ok (at_ m) K = Ok (arrays_of K).
Proof.
  intros HK Hm. assert (∀ id, id ∈ K → ∃ a, column_of b id = Some a ∧ at_ m id = Ok a) as Hat.
  { intros id Hid. destruct (key_columns K id HK Hid) as (a & Ha & _). exists a. split; [done|].
    unfold at_. rewrite Hm, Ha; [done|]. destruct HK as [d Hd]. apply mfind_elem_of in Hd; [|apply Hh].
    apply elem_of_mset. rewrite list_elem_of_In, in_concat. exists K.
    split; apply list_elem_of_In; [|done]. apply list_elem_of_fmap. by exists (K, d). }
  unfold arrays_of. clear HK. induction K as [|id K IH]; [done|]. cbn [map_ok].
  destruct (Hat id ltac:(by left)) as (a & Ha & ->). cbn [rbind].
  rewrite IH by (intros; apply Hat; by right). cbn [rbind]. simpl. by rewrite Ha.
Qed.

Lemma cells_at_spec K i :
  is_Some (mfind K (materialized_deletes_ h)) → i ∈ selection_vector_ (place b) →
  cells_at (arrays_of K) i = Ok (data_cells b K i).
Proof.
  intros HK Hi. pose proof (λ id Hid, key_columns K id HK Hid) as Hcol.
  unfold cells_at, arrays_of, data_cells. clear HK. induction K as [|id K IH]; [done|]. simpl.
  destruct (Hcol id ltac:(by left)) as (a & Ha & Hrow). rewrite Ha. simpl. destruct (Hrow i Hi) as [c Hc].
  rewrite Hc. cbn [rbind]. specialize (IH (λ id' Hid', Hcol id' ltac:(by right))).
  match goal with |- rbind ?x _ = _ => replace x with (Ok (data_cells b K i)) by (symmetry; exact IH) end. done.
Qed.

(** A row that the table of the fields [K] deletes. *)
Definition hit (K : list Z) (i : Z) : Prop :=
  ∃ cells layer, added_by l K cells layer ∧ layer_ (place b) ≤ layer ∧ row_value cells = row_value (data_cells b K i).

Lemma any_deleted_spec keys i s :
  (∀ K, K ∈ keys → is_Some (mfind K (materialized_deletes_ h))) → i ∈ selection_vector_ (place b) →
  settles (throws s) (λ p, (p.1 = true ↔ ∃ K, K ∈ keys ∧ hit K i) ∧ throws p.2 = throws s)
    (any_deleted (materialized_deletes_ h) ((λ K, (K, arrays_of K)) <$> keys) (layer_ (place b)) i s).
Proof.
  intros HK Hi. revert s. induction keys as [|K keys IH]; intros s.
  { split; [|done]. split; [done|]. by intros (? & ?%elem_of_nil & _). }
  destruct (HK K ltac:(by left)) as [d Hd]. destruct (table_answer K d i Hd Hi) as (a & Ea & _ & Ha).
  rewrite fmap_cons. cbn [any_deleted]. rewrite cells_at_spec by (done || by apply HK; left). cbn [rbind].
  rewrite Hd. eapply settles_bind; [eapply tracks_settles; rewrite <- Ea; apply tracks_IsDeleted|].
  intros [a' s'] [Ea' Es]. cbn in Ea', Es. subst a'. destruct a.
  - split; [|done]. split; [|done]. setoid_rewrite elem_of_cons. intros _. exists K. split; [by left|]. by apply Ha.
  - rewrite <- Es. eapply settles_impl; [apply IH; intros; apply HK; by right|].
    intros [ans s''] [Hans Es']. cbn in *. split; [|done]. setoid_rewrite elem_of_cons. rewrite Hans. split; [naive_solver|].
    intros (K' & [->|HK'] & Hhit); [|by eauto]. by apply Ha in Hhit.
Qed.

(** The tables [PrepareDeletesForFile] passes over delete nothing. *)
Lemma hits_are_deleted i :
  i ∈ selection_vector_ (place b) →
  (∃ K, K ∈ omap (λ e : list Z * DeleteTable, if 0 <? Size (table e.2) then Some e.1 else None) (materialized_deletes_ h)
        ∧ hit K i) ↔ row_deleted_by l b i.
Proof.
  intros Hi. unfold hit, added_by, row_deleted_by. split.
  - intros (K & _ & cells & layer & (info & f & r & Hin & <- & Hf & Hr & ->) & Hl & Hv).
    by exists layer, info, f, r.
  - intros (layer & info & f & r & Hin & Hl & Hf & Hr & Hv).
    assert (hit (key_of info) i) as Hhit.
    { exists (file_cells f (key_of info) r), layer. split; [|done]. by exists info, f, r. }
    exists (key_of info). split; [|done]. destruct (hi_all _ _ Hh _ _ Hin) as [d Hd].
    apply list_elem_of_omap. exists (key_of info, d). split; [by apply mfind_elem_of; [apply Hh|]|]. simpl.
    destruct (Z.ltb_spec 0 (Size (table d))) as [Hs|Hs]; [done|].
    destruct (table_answer _ d i Hd Hi) as (ans & _ & Hz & Ha). apply Ha in Hhit. by rewrite Hz in Hhit.
Qed.

(** The same batch, with the deleted rows no longer selected. *)
Definition eq_applied (b' : DataBatch) : Prop :=
  ∃ sv, b' = {| place := set_selection sv (place b); record_batch := record_batch b |} ∧
    sv `sublist_of` selection_vector_ (place b) ∧
    ∀ i, i ∈ sv ↔ i ∈ selection_vector_ (place b) ∧ ¬ row_deleted_by l b i.

(** A handler of which only the memory state has changed. *)
Definition same_tables (h1 h2 : EqualityDeleteHandler) : Prop :=
  ∃ s, h2 = set_shared_state s h1 ∧ throws s = throws (shared_state_ h1).

Lemma handler_IsDeleted_spec h' keys i :
  materialized_deletes_ h' = materialized_deletes_ h →
  prepared_batches_ h' = (λ K, (K, arrays_of K)) <$> keys →
  current_data_layer_ h' = Some (layer_ (place b)) →
  keys = omap (λ e : list Z * DeleteTable, if 0 <? Size (table e.2) then Some e.1 else None) (materialized_deletes_ h) →
  i ∈ selection_vector_ (place b) →
  settles (throws (shared_state_ h')) (λ p, (p.1 = true ↔ row_deleted_by l b i) ∧ same_tables h' p.2) (handler_IsDeleted h' i).
Proof.
  intros Hm Hp Hc Hk Hi. unfold handler_IsDeleted. rewrite Hc, Hm, Hp.
  eapply settles_bind; [apply (any_deleted_spec keys i); [|done]|].
  - subst keys. intros K ([K' d] & He & E)%list_elem_of_omap. simpl in E.
    destruct (0 <? Size (table d)); [|done]. injection E as <-. exists d. apply mfind_elem_of; [apply Hh|done].
  - intros [ans s'] [Ha Hs]. cbn in *. split; [|by eexists]. rewrite Ha, Hk. by apply hits_are_deleted.
Qed.

Lemma erase_deleted_spec keys sv : ∀ h',
  materialized_deletes_ h' = materialized_deletes_ h →
  prepared_batches_ h' = (λ K, (K, arrays_of K)) <$> keys →
  current_data_layer_ h' = Some (layer_ (place b)) →
  keys = omap (λ e : list Z * DeleteTable, if 0 <? Size (table e.2) then Some e.1 else None) (materialized_deletes_ h) →
  (∀ i, i ∈ sv → i ∈ selection_vector_ (place b)) →
  settles (throws (shared_state_ h'))
    (λ p, p.1 `sublist_of` sv ∧ (∀ i, i ∈ p.1 ↔ i ∈ sv ∧ ¬ row_deleted_by l b i) ∧ same_tables h' p.2)
    (erase_deleted h' sv).
Proof.
  induction sv as [|i sv IH]; intros h' Hm Hp Hc Hk Hsv; cbn [erase_deleted].
  { split; [done|]. split; [|by exists (shared_state_ h'); destruct h']. intros i. rewrite !elem_of_nil. tauto. }
  eapply settles_bind; [apply (handler_IsDeleted_spec h' keys i); try done; apply Hsv; by left|].
  intros [ans h1] [Hans (s & Eh & Es)]. cbn [fst snd] in *. subst h1.
  eapply settles_bind; [rewrite <- Es; apply (IH (set_shared_state s h')); try done; intros; apply Hsv; by right|].
  intros [rest h2] (Hsub & Hrest & s' & Eh & Es'). cbn [fst snd] in *. subst h2. split; [by destruct ans; constructor|].
  split; [|by exists s'; rewrite Es'].
  intros i'. cbn [fst]. rewrite elem_of_cons. destruct ans; [|rewrite elem_of_cons]; rewrite Hrest.
  - assert (row_deleted_by l b i) as Hd by (by apply Hans). naive_solver.
  - assert (¬ row_deleted_by l b i) as Hd by (by rewrite <- Hans). naive_solver.
Qed.

Lemma map_ok_fmap {A B} (f : A → result B) (g : A → B) (xs : list A) :
  (∀ x, x ∈ xs → f x = Ok (g x)) → map_ok f xs = Ok (g <$> xs).
Proof.
  induction xs as [|x xs IH]; intros Hf; [done|]. cbn [map_ok]. rewrite Hf by by left. cbn [rbind].
  rewrite IH by (intros; apply Hf; by right). done.
Qed.

Lemma ApplyDeletes_spec :
  settles (throw_if_memory_limit_exceeded config) (λ p, eq_applied p.1 ∧ handler_inv l p.2)
    (ApplyDeletes known_field_id_to_name b h).
Proof.
  unfold ApplyDeletes, PrepareDeletesForFile.
  set (keys := omap (λ e : list Z * DeleteTable, if 0 <? Size (table e.2) then Some e.1 else None) (materialized_deletes_ h)).
  assert (omap (λ e : list Z * DeleteTable, if 0 <? Size (table e.2) then Some (e.1, e.1) else None)
    (materialized_deletes_ h) = (λ K, (K, K)) <$> keys) as ->.
  { unfold keys. clear. induction (materialized_deletes_ h) as [|e m IH]; [done|]. simpl.
    destruct (0 <? Size (table e.2)); simpl; [f_equal|]; exact IH. }
  set (h1 := {| current_rows_ := current_rows_ h |}).
  assert (handler_inv l h1) as Hh1 by (destruct Hh; by split).
  destruct (is_nil ((λ K, (K, K)) <$> keys)) eqn:En; cbn [negb].
  - apply is_nil_true, fmap_nil_inv in En. split; [|done]. cbn [fst].
    exists (selection_vector_ (place b)). split; [by destruct b as [[]]|]. split; [done|].
    intros i. split; [|by intros [? _]]. intros Hi. split; [done|].
    rewrite <- (hits_are_deleted i Hi). fold keys. rewrite En. by intros (? & ?%elem_of_nil & _).
  - destruct MakeFieldIdToArray_spec as (m & Em & Hm). unfold MakeFieldIdToArray in *.
    change (GetEqualityDeleteFieldIds h1) with (GetEqualityDeleteFieldIds h). rewrite Em. cbn [rbind].
    unfold PrepareDeletesForBatch. change (deletes_for_current_row_group_ h1) with ((λ K, (K, K)) <$> keys).
    rewrite (map_ok_fmap _ (λ d, (d.1, arrays_of d.1))).
    2:{ intros [K K'] (K0 & [= -> ->] & HK)%list_elem_of_fmap. cbn [fst snd].
        rewrite arrays_of_spec; [done| |done].
        apply list_elem_of_omap in HK as ([K d] & He & E). simpl in E.
        destruct (0 <? Size (table d)); [|done]. injection E as <-. exists d. apply mfind_elem_of; [apply Hh|done]. }
    cbn [rbind]. rewrite <- list_fmap_compose.
    match goal with |- context [erase_deleted ?h0 _] => set (h2 := h0) end.
    rewrite <- (hi_throws _ _ Hh). eapply settles_bind; [by apply (erase_deleted_spec keys _ h2)|].
    intros [sv h3] (Hsub & Hsv & s & Eh & Es). cbn [fst snd] in *. subst h3. split; [by exists sv|]. destruct Hh. split; try done.
    cbn. by rewrite Es.
Qed.
End batch.

(** ** The applier *)

Definition equality_applier_inv (st : EqualityDeleteApplier) : Prop :=
  match eq_current_state_ st with
  | None => True
  | Some partition =>
      ∃ h, equality_delete_handler_ st = Some h ∧ handler_inv (partition_deletes equality_deletes_ partition) h
  end.

(** The deletes of the partition of a batch. *)
Definition deletes_of (b : DataBatch) : list (Z * EqualityDeleteInfo) :=
  partition_deletes equality_deletes_ (partition_ (place b)).

Lemma equality_ReadNext_settles st b :
  equality_applier_inv st → deletes_ok (partition_ (place b)) → data_ok (deletes_of b) b →
  settles (throw_if_memory_limit_exceeded config)
    (λ p, eq_applied (deletes_of b) b p.1 ∧ equality_applier_inv p.2)
    (equality_ReadNext OpenParquet config equality_deletes_ known_field_id_to_name st b).
Proof.
  intros Hst Hd Hb. unfold equality_ReadNext. eapply (settles_bind _ (handler_inv (deletes_of b))).
  { case_bool_decide as E; [|by apply SetDeletes_spec].
    unfold equality_applier_inv in Hst. rewrite E in Hst. by destruct Hst as (h & -> & Hh). }
  intros h Hh. eapply settles_bind; [by apply (ApplyDeletes_spec (deletes_of b) h b)|].
  intros [b' h'] [Ha Hh']. split; [done|]. by exists h'.
Qed.

Lemma equality_ReadNext_spec st b :
  throw_if_memory_limit_exceeded config = false →
  equality_applier_inv st → deletes_ok (partition_ (place b)) → data_ok (deletes_of b) b →
  ∃ b' st', equality_ReadNext OpenParquet config equality_deletes_ known_field_id_to_name st b = Ok (b', st') ∧
    eq_applied (deletes_of b) b b' ∧ equality_applier_inv st'.
Proof.
  intros Hq Hst Hd Hb. pose proof (equality_ReadNext_settles st b Hst Hd Hb) as Hs. rewrite Hq in Hs.
  apply settles_quiet in Hs as ([b' st'] & E & Ha & Hi). by exists b', st'.
Qed.

End exact.

(** ** An example: one partition, deletes on field 1 and on fields 1 and 2 *)

Module EqualityExample.
#[local] Existing Instance stable_width_sort.
#[local] Existing Instance swiss_table.

Definition ty (id : Z) : Arrow.type := if id =? 1 then Arrow.INT32 else Arrow.INT64.
Definition int32 (v : Z) : cell := number_cell Arrow.INT32 4 false v.
Definition int64 (v : Z) : cell := number_cell Arrow.INT64 8 false v.

(** ["e0"] deletes 5 in field 1, ["e1"] deletes 7, 2 in fields 1 and 2. *)
Definition f0 : EqualityDeleteFile :=
  {| columns := [(1, Arrow.INT32)]; file_num_rows := 1; file_batches := [[[int32 5]]] |}.
Definition f1 : EqualityDeleteFile :=
  {| columns := [(2, Arrow.INT64); (1, Arrow.INT32)]; file_num_rows := 1; file_batches := [[[int64 2; int32 7]]] |}.
Definition OpenParquet (path : string) : result EqualityDeleteFile :=
  if String.eqb path "e0" then Ok f0 else if String.eqb path "e1" then Ok f1 else Err (StatusError "no such file").
Definition e0 : EqualityDeleteInfo := {| ed_path := "e0"; field_ids := [1] |}.
Definition e1 : EqualityDeleteInfo := {| ed_path := "e1"; field_ids := [2; 1] |}.
Definition deletes : EqualityDeletes := [(0, [(0, [e0]); (1, [e1])])].
Definition config : Config :=
  {| max_rows := 100; use_specialized_deletes := true; equality_delete_max_mb_size := 1;
     throw_if_memory_limit_exceeded := false |}.
Definition names : list (Z * string) := [(1, "a")].

(** Field 2 has no name in the query: its column is ["__unnamed_c0_f2"]. *)
Definition batch (layer : Z) : DataBatch :=
  {| place := {| partition_ := 0; layer_ := layer; path_ := "d"; row_position_ := 0; num_rows := 4;
                 selection_vector_ := [0; 1; 2; 3] |};
     record_batch := [("a", [int32 5; int32 7; int32 7; int32 1]);
                      ("__unnamed_c0_f2", [int64 1; int64 2; int64 3; int64 4])] |}.

Lemma int_cell_ok t w n v : number_bytes t = Some n → w = Z.of_nat n → wrap_s (8 * Z.of_nat n) v = v →
  cell_ok (number_cell t w false v).
Proof. intros Ht -> Hv. unfold cell_ok. cbn [type_id number_cell]. rewrite Ht. split; [done|]. by exists v. Qed.

Lemma row1_ok v : in_i32 v → row_ok [Arrow.INT32] [int32 v].
Proof.
  intros Hv. split; [done| |].
  - intros c ->%list_elem_of_singleton _. by apply (int_cell_ok _ _ 4); [| |apply wrap_s_32_id].
  - change (images _) with (le_encode 4 v ++ []). rewrite length_app, le_encode_length. simpl. lia.
Qed.

Lemma ty_ok id t (l : list (Z * Arrow.type)) : forallb (λ e, bool_decide (e.2 = ty e.1)) l = true → (id, t) ∈ l → t = ty id.
Proof.
  rewrite forallb_forall. intros Hl Hin%list_elem_of_In. specialize (Hl _ Hin). by apply bool_decide_eq_true in Hl.
Qed.

Lemma e0_ok : openable OpenParquet ty e0.
Proof.
  exists f0. split; [done|]. split; [done| | |done|vm_compute; lia].
  - intros id t. by apply ty_ok.
  - intros r ->%list_elem_of_singleton. apply (row1_ok 5). unfold_ints. lia.
Qed.

Lemma e1_ok : openable OpenParquet ty e1.
Proof.
  exists f1. split; [done|]. split; [| | |done|vm_compute; lia].
  - intros id Hid. exact Hid.
  - intros id t. by apply ty_ok.
  - intros r ->%list_elem_of_singleton. apply (int_row_ok 7 2); unfold_ints; lia.
Qed.

Lemma all_ok : deletes_ok OpenParquet config deletes ty 0.
Proof.
  split; [|by vm_compute].
  intros layer info [[= -> ->]|[[= -> ->]|?%elem_of_nil]%elem_of_cons]%elem_of_cons; [apply e0_ok|apply e1_ok|done].
Qed.

Lemma row_elem i : i ∈ [0; 1; 2; 3] → i = 0 ∨ i = 1 ∨ i = 2 ∨ i = 3.
Proof. rewrite !elem_of_cons, elem_of_nil. tauto. Qed.

Lemma batch_data_ok layer : data_ok config names ty (deletes_of deletes (batch layer)) (batch layer).
Proof.
  split.
  - intros l info id [[= -> ->]|[[= -> ->]|?%elem_of_nil]%elem_of_cons]%elem_of_cons Hid; [| |done];
      repeat (apply elem_of_cons in Hid as [->|Hid]); try (by apply elem_of_nil in Hid);
      (eexists; split; [by vm_compute|]); intros i [->|[->|[->| ->]]]%row_elem; by eexists.
  - intros l info i [[= -> ->]|[[= -> ->]|?%elem_of_nil]%elem_of_cons]%elem_of_cons Hi; [| |done];
      apply row_elem in Hi as [->|[->|[->| ->]]];
      first [apply (row1_ok 5)|apply (row1_ok 7)|apply (row1_ok 1)|apply (int_row_ok 5 1)|apply (int_row_ok 7 2)
            |apply (int_row_ok 7 3)|apply (int_row_ok 1 4)]; unfold_ints; lia.
  - intros l info i [[= -> ->]|[[= -> ->]|?%elem_of_nil]%elem_of_cons]%elem_of_cons Hi; [| |done];
      right; apply row_elem in Hi as [->|[->|[->| ->]]]; by vm_compute.
Qed.
End EqualityExample.

(** The applier asks for the columns of every delete of the partition,
    while a data file is read with the columns of the deletes that apply to it
    ([GetFieldIds]).  A data file newer than the deletes is read without their
    columns and the query fails, although no delete applies. *)
Theorem equality_applier_missing_column :
  GetFieldIds EqualityExample.deletes 0 2 = [] ∧
  (∀ b i, layer_ (place b) = 2 →
    ¬ row_deleted_by EqualityExample.OpenParquet EqualityExample.names
        (partition_deletes EqualityExample.deletes 0) b i) ∧
  @equality_apply_all stable_width_sort swiss_table EqualityExample.OpenParquet EqualityExample.config EqualityExample.deletes
    EqualityExample.names initial_equality_applier
    [{| place := set_selection [0] (place (EqualityExample.batch 2)); record_batch := [("b", [EqualityExample.int64 1])] |}]
  = Err (Exn "EqualityDeleteApplier: column is not found").
Proof.
  split; [done|]. split; [|by vm_compute].
  intros b i Hl (layer & info & f & r & Hin & Hle & _). rewrite Hl in Hle.
  apply elem_of_cons in Hin as [[= -> ->]|Hin]; [lia|]. apply list_elem_of_singleton in Hin as [= -> ->]. lia.
Qed.

