(* ===== verification/Json.v ===== *)
(** * Json: documents, and the accessors of [iceberg/common/json_parse.cpp]

    A [rapidjson::Value] is a JSON tree; an integer is kept as such ([IsInt],
    [IsInt64] are ranges), a number written with a fraction or an exponent is a
    [double].  Members of an object keep their order, and a lookup finds the
    first one.  [HasMember] and [operator[]] assert that they are called on an
    object.

    Rapidjson itself is not part of the repository: what depends on it (printing
    and parsing of text, the test and the conversion for [float]) is a class with
    the documented laws. *)

From stdpp Require Import base list sorting strings countable pretty.
From Stdlib Require Import ZArith Lia Ascii.
From S2P Require Import Prelude OrderedMap FilterValue.

Local Open Scope Z_scope.

Unset Elimination Schemes.
Inductive json :=
| JNull
| JBool (b : bool)
| JInt (v : Z)
| JDouble (d : flt)
| JString (s : string)
| JArray (l : list json)
| JObject (members : list (string * json)).
Set Elimination Schemes.

(** ** The document API *)

Definition find_member (name : string) (members : list (string * json)) : option json :=
  snd <$> List.find (λ m, String.eqb m.1 name) members.

Definition IsObject (d : json) : bool := match d with JObject _ => true | _ => false end.
Definition IsString (d : json) : bool := match d with JString _ => true | _ => false end.
Definition IsArray (d : json) : bool := match d with JArray _ => true | _ => false end.

Definition HasMember (d : json) (name : string) : result bool :=
  match d with
  | JObject m => Ok (match find_member name m with Some _ => true | None => false end)
  | _ => Err (Exn "assertion failed: IsObject()")
  end.

Definition get_member (d : json) (name : string) : result json :=
  match d with
  | JObject m => match find_member name m with Some v => Ok v | None => Err (Exn "assertion failed: no such member") end
  | _ => Err (Exn "assertion failed: IsObject()")
  end.

Definition is_i32 (v : Z) : bool := (int32_min <=? v) && (v <=? int32_max).
Definition is_i64 (v : Z) : bool := (int64_min <=? v) && (v <=? int64_max).

(** A C string ends at its first NUL. *)
Fixpoint c_str (s : string) : string :=
  match s with
  | EmptyString => EmptyString
  | String c s => if Ascii.eqb c Ascii.zero then EmptyString else String c (c_str s)
  end.

(** ** [json_parse] *)

(** [Ensure(HasMember)], [Ensure(document[name].Is...)], [Get...]. *)
Definition ExtractField {A} (get : json → option A) (d : json) (field_name : string) : result A :=
  let! has := HasMember d field_name in
  let! _ := Ensure has "!document.HasMember" in
  let! v := get_member d field_name in
  match get v with Some a => Ok a | None => Err (Exn "document member has a wrong type") end.

Definition as_string (d : json) : option string := match d with JString s => Some s | _ => None end.
Definition as_int64 (d : json) : option Z := match d with JInt v => if is_i64 v then Some v else None | _ => None end.
Definition as_int32 (d : json) : option Z := match d with JInt v => if is_i32 v then Some v else None | _ => None end.
Definition as_bool (d : json) : option bool := match d with JBool b => Some b | _ => None end.

Definition ExtractStringField := ExtractField as_string.
Definition ExtractInt64Field := ExtractField as_int64.
Definition ExtractInt32Field := ExtractField as_int32.
Definition ExtractBooleanField := ExtractField as_bool.

(** Missing members and members of another type are both [std::nullopt]. *)
Definition ExtractOptionalField {A} (get : json → option A) (d : json) (field_name : string) : result (option A) :=
  let! has := HasMember d field_name in
  if has : bool then let! v := get_member d field_name in Ok (get v) else Ok None.

Definition ExtractOptionalInt32Field := ExtractOptionalField as_int32.
Definition ExtractOptionalInt64Field := ExtractOptionalField as_int64.

(** [result.emplace]: the first member of a name stays. *)
Definition JsonToStringMap (d : json) : result (list (string * string)) :=
  match d with
  | JObject members =>
      fold_ok (λ m e, match e.2 with
                      | JString v => Ok (mupdate (λ o, default (c_str v) o) (c_str e.1) m)
                      | _ => Err (Exn "!it->value.IsString()")
                      end) [] members
  | _ => Err (Exn "!document.IsObject()")
  end.

Definition ExtractStringMap (d : json) (field_name : string) : result (list (string * string)) :=
  let! has := HasMember d field_name in
  let! _ := Ensure has "!document.HasMember" in
  let! v := get_member d field_name in
  JsonToStringMap v.

(** ** Builders and readers shared by [serializer.cpp] and [puffin.cpp] *)

Definition Serialize_string (s : string) : json := JString (c_str s).

Definition Serialize_optional {A} (ser : A → json) (maybe_value : option A) : json :=
  match maybe_value with Some v => ser v | None => JNull end.

Definition Extract {A} (Deserialize : json → result A) (document : json) (field_name : string) : result A :=
  let! has := HasMember document field_name in
  let! _ := Ensure has "ExtractPrimitive: !document.HasMember" in
  let! v := get_member document field_name in
  Deserialize v.

Definition primitive {A} (get : json → option A) (d : json) : result A :=
  match get d with Some a => Ok a | None => Err (Exn "Deserialize (primitive): wrong type") end.

Definition Deserialize_bool := primitive as_bool.
Definition Deserialize_int32 := primitive as_int32.
Definition Deserialize_int64 := primitive as_int64.
Definition Deserialize_string := primitive as_string.

Definition Deserialize_optional {A} (de : json → result A) (d : json) : result (option A) :=
  match d with JNull => Ok None | _ => let! v := de d in Ok (Some v) end.

Definition Deserialize_vector {A} (de : json → result A) (d : json) : result (list A) :=
  match d with JArray l => map_ok de l | _ => Err (Exn "Deserialize (array): wrong type") end.

Definition EnsureObject (d : json) : result unit := Ensure (IsObject d) "Deserialize: wrong type".

(** ** Induction and depth *)

Section json_ind.
Context (P : json → Prop)
  (HNull : P JNull) (HBool : ∀ b, P (JBool b)) (HInt : ∀ v, P (JInt v)) (HDouble : ∀ d, P (JDouble d))
  (HString : ∀ s, P (JString s)) (HArray : ∀ l, Forall P l → P (JArray l))
  (HObject : ∀ m, Forall (λ e, P e.2) m → P (JObject m)).

Fixpoint json_ind (d : json) : P d :=
  match d with
  | JNull => HNull
  | JBool b => HBool b
  | JInt v => HInt v
  | JDouble x => HDouble x
  | JString s => HString s
  | JArray l => HArray l ((fix go l := match l return Forall P l with
                                       | [] => Forall_nil_2 P
                                       | x :: l => Forall_cons_2 P x l (json_ind x) (go l)
                                       end) l)
  | JObject m => HObject m ((fix go m := match m return Forall (λ e, P e.2) m with
                                         | [] => Forall_nil_2 _
                                         | x :: m => Forall_cons_2 (λ e, P e.2) x m (json_ind x.2) (go m)
                                         end) m)
  end.
End json_ind.

Fixpoint json_depth (d : json) : nat :=
  match d with
  | JArray l => S (foldr (λ x n, max (json_depth x) n) 0%nat l)
  | JObject m => S (foldr (λ e n, max (json_depth e.2) n) 0%nat m)
  | _ => 1%nat
  end.

Lemma json_depth_elem l x : x ∈ l → (json_depth x < json_depth (JArray l))%nat.
Proof.
  simpl. induction l as [|y l IH]; [by intros ?%elem_of_nil|].
  intros [->|Hx]%elem_of_cons; simpl; [lia|]. specialize (IH Hx). lia.
Qed.

Lemma find_member_elem name m v : find_member name m = Some v → (name, v) ∈ m.
Proof.
  unfold find_member. intros ([n w] & Hf & ->)%fmap_Some. apply find_some in Hf as [Hin E].
  apply String.eqb_eq in E. simpl in *. subst. by apply list_elem_of_In.
Qed.

Lemma json_depth_member d name v : get_member d name = Ok v → (json_depth v < json_depth d)%nat.
Proof.
  destruct d as [| | | | | |m]; simpl; try done. destruct (find_member name m) eqn:E; [|done].
  intros [= ->]. apply find_member_elem in E. induction m as [|[n w] m IH]; [by apply elem_of_nil in E|].
  apply elem_of_cons in E as [[= <- <-]|E]; simpl; [lia|]. specialize (IH E). lia.
Qed.

(** ** Round trips *)

(** [de] reads back what [ser] builds, for the values that satisfy [P]. *)
Definition inverts {A} (ser : A → json) (de : json → result A) (P : A → Prop) : Prop :=
  ∀ a, P a → de (ser a) = Ok a.

Lemma inverts_list {A} (ser : A → json) de P :
  inverts ser de P → ∀ l, Forall P l → map_ok de (List.map ser l) = Ok l.
Proof.
  intros Hi l. induction 1 as [|a l Ha _ IH]; [done|]. simpl. rewrite Hi by done. simpl. by rewrite IH.
Qed.

(** The same for a writer that can fail. *)
Lemma map_ok_inverse {A} (W : A → result json) (R : json → result A) l :
  Forall (λ a, ∃ j, W a = Ok j ∧ R j = Ok a) l → ∃ js, map_ok W l = Ok js ∧ map_ok R js = Ok l.
Proof.
  induction 1 as [|a l (j & Ej & Dj) _ (js & E & D)]; [by exists []|].
  exists (j :: js). cbn [map_ok]. by rewrite Ej, E, Dj, D.
Qed.

(** No NUL inside: [std::string] and [const char*] agree. *)
Definition no_nul (s : string) : Prop := c_str s = s.

Lemma as_int32_ok v : in_i32 v → as_int32 (JInt v) = Some v.
Proof.
  unfold as_int32, is_i32. unfold_ints. intros H.
  destruct (Z.leb_spec (-2147483648) v), (Z.leb_spec v 2147483647); simpl; lia || done.
Qed.
Lemma as_int64_ok v : in_i64 v → as_int64 (JInt v) = Some v.
Proof.
  unfold as_int64, is_i64. unfold_ints. intros H.
  destruct (Z.leb_spec (-9223372036854775808) v), (Z.leb_spec v 9223372036854775807); simpl; lia || done.
Qed.

(** *** Reading what was built *)

Lemma Extract_member {A} (de : json → result A) m name v :
  find_member name m = Some v → Extract de (JObject m) name = de v.
Proof. unfold Extract, HasMember, get_member. by intros ->. Qed.

Lemma Deserialize_string_ok s : Deserialize_string (JString s) = Ok s.
Proof. done. Qed.
Lemma Deserialize_bool_ok b : Deserialize_bool (JBool b) = Ok b.
Proof. done. Qed.

(** Read the members of an object whose names are known. *)
Ltac extract :=
  repeat (erewrite Extract_member by reflexivity; cbn [rbind snd];
          rewrite ?Deserialize_string_ok, ?Deserialize_bool_ok; cbn [rbind]).

Definition optional_ok {A} (P : A → Prop) (o : option A) : Prop := ∀ a, o = Some a → P a.

Lemma primitive_ok {A} (get : json → option A) d a : get d = Some a → primitive get d = Ok a.
Proof. unfold primitive. by intros ->. Qed.

Lemma Deserialize_int32_ok v : in_i32 v → Deserialize_int32 (JInt v) = Ok v.
Proof. intros Hv. by apply primitive_ok, as_int32_ok. Qed.
Lemma Deserialize_int64_ok v : in_i64 v → Deserialize_int64 (JInt v) = Ok v.
Proof. intros Hv. by apply primitive_ok, as_int64_ok. Qed.

Lemma Extract_inv {A} (de : json → result A) d name a :
  Extract de d name = Ok a → ∃ v, get_member d name = Ok v ∧ de v = Ok a.
Proof.
  unfold Extract. intros E. apply rbind_Ok_inv in E as (has & Eh & E).
  apply rbind_Ok_inv in E as (u & Eu & E). apply rbind_Ok_inv in E as (v & Ev & E). by eauto.
Qed.

Lemma EnsureObject_object m : EnsureObject (JObject m) = Ok ().
Proof. done. Qed.

(** An object of strings in the order of a [std::map] is read back as the map. *)
Definition string_members (m : list (string * string)) : list (string * json) :=
  (λ e, (e.1, JString e.2)) <$> m.

Lemma mupdate_last {V} (f : option V → V) (m : list (string * V)) k :
  (∀ k', k' ∈ m.*1 → klt k' k) → mupdate f k m = m ++ [(k, f None)].
Proof.
  induction m as [|[k' v] m IH]; intros Hk; [done|]. cbn [mupdate app].
  assert (klt k' k) as Hlt by (apply Hk; by left). unfold klt in Hlt.
  rewrite (kcmp_opp k' k), Hlt. simpl. f_equal. apply IH. intros. apply Hk. by right.
Qed.

Lemma JsonToStringMap_members m :
  keys_sorted m → Forall (λ e, no_nul e.1 ∧ no_nul e.2) m → JsonToStringMap (JObject (string_members m)) = Ok m.
Proof.
  intros Hs Hn. unfold JsonToStringMap, string_members.
  assert (∀ l acc, Forall (λ e, no_nul e.1 ∧ no_nul e.2) l → keys_sorted (acc ++ l) →
    fold_ok (λ m e, match e.2 with
                    | JString v => Ok (mupdate (λ o, default (c_str v) o) (c_str e.1) m)
                    | _ => Err (Exn "!it->value.IsString()")
                    end) acc ((λ e : string * string, (e.1, JString e.2)) <$> l) = Ok (acc ++ l)) as Hg; [|by apply Hg].
  clear m Hs Hn. induction l as [|[k v] l IH]; intros acc Hn Hs; [by rewrite app_nil_r|].
  apply Forall_cons in Hn as [[Hk Hv] Hn]. unfold no_nul in Hk, Hv. cbn [fst snd] in Hk, Hv.
  rewrite fmap_cons. cbn [fold_ok rbind fst snd]. rewrite Hk, Hv.
  rewrite mupdate_last.
  - simpl. rewrite IH; [by rewrite <- app_assoc|done|by rewrite <- app_assoc].
  - intros k' Hk'. unfold keys_sorted in Hs. rewrite fmap_app in Hs.
    apply StronglySorted_app in Hs as (Hall & _ & _). by apply Hall; [|left].
Qed.

(** ** Text and [float] *)

(** No [double] inside: these are printed with 17 digits and parsed back only
    approximately. *)
Fixpoint exact (d : json) : bool :=
  match d with
  | JDouble _ => false
  | JArray l => forallb exact l
  | JObject m => forallb (λ e, exact e.2) m
  | JInt v => (int64_min <=? v) && (v <=? uint64_max)
  | _ => true
  end.

Class RapidJson := {
  Write : json → string;
  Parse : string → json;                   (** [JNull] when the text is no JSON *)
  IsFloat : flt → bool;
  GetFloat : flt → flt;                    (** [static_cast<float>] *)
  parse_write : ∀ d, exact d = true → Parse (Write d) = d;
  write_nonempty : ∀ d, Write d ≠ EmptyString;
  write_no_nul : ∀ d, no_nul (Write d);    (** NUL is escaped *)
  PrettyWrite : json → string;             (** with white space *)
  parse_pretty : ∀ d, exact d = true → Parse (PrettyWrite d) = d;
  pretty_no_nul : ∀ d, no_nul (PrettyWrite d);
  GetFloat_float : ∀ bits, IsFloat (decode_float bits) = true → GetFloat (decode_float bits) = decode_float bits;
}.

(** ** An implementation of the class, for examples: texts are numbers in binary *)

Module JsonExample.
Definition leaf : Type := unit + (bool + (Z + string)).

Fixpoint to_tree (d : json) : gen_tree leaf :=
  match d with
  | JNull | JDouble _ => GenLeaf (inl ())
  | JBool b => GenLeaf (inr (inl b))
  | JInt v => GenLeaf (inr (inr (inl v)))
  | JString s => GenLeaf (inr (inr (inr s)))
  | JArray l => GenNode 0 (List.map to_tree l)
  | JObject m => GenNode 1 (List.map (λ e, GenNode 2 [GenLeaf (inr (inr (inr e.1))); to_tree e.2]) m)
  end.

Fixpoint of_tree (t : gen_tree leaf) : json :=
  match t with
  | GenLeaf (inl _) => JNull
  | GenLeaf (inr (inl b)) => JBool b
  | GenLeaf (inr (inr (inl v))) => JInt v
  | GenLeaf (inr (inr (inr s))) => JString s
  | GenNode 0 l => JArray (List.map of_tree l)
  | GenNode _ l =>
      JObject (List.map (λ x, match x with
                              | GenNode _ [GenLeaf (inr (inr (inr s))); y] => (s, of_tree y)
                              | _ => (EmptyString, JNull)
                              end) l)
  end.

Lemma of_to_tree d : exact d = true → of_tree (to_tree d) = d.
Proof.
  induction d as [|b|v|x|s|l IH|m IH] using json_ind; simpl; try done.
  - intros He. f_equal. rewrite map_map. induction IH as [|x l Hx _ IHl]; [done|].
    simpl in *. apply andb_true_iff in He as [H1 H2]. rewrite Hx, IHl; done.
  - intros He. f_equal. rewrite map_map. induction IH as [|[k x] m Hx _ IHm]; [done|].
    simpl in *. apply andb_true_iff in He as [H1 H2]. rewrite Hx, IHm; done.
Qed.

Fixpoint bits (p : positive) : string :=
  match p with xH => "." | xO p => String "0" (bits p) | xI p => String "1" (bits p) end.
Fixpoint of_bits (s : string) : option positive :=
  match s with
  | String "0" s => xO <$> of_bits s
  | String "1" s => xI <$> of_bits s
  | String "." EmptyString => Some xH
  | _ => None
  end.

Lemma of_bits_bits p : of_bits (bits p) = Some p.
Proof. induction p as [p IH|p IH|]; simpl; by rewrite ?IH. Qed.

Definition parse (s : string) : json :=
  match of_bits s ≫= decode with Some t => of_tree t | None => JNull end.

Lemma parse_bits d : exact d = true → parse (bits (encode (to_tree d))) = d.
Proof. intros He. unfold parse. rewrite of_bits_bits. simpl. rewrite decode_encode. by apply of_to_tree. Qed.

Lemma bits_no_nul p : no_nul (bits p).
Proof. unfold no_nul. induction p as [p IH|p IH|]; simpl; by rewrite ?IH. Qed.

Program Definition binary_json : RapidJson :=
  {| Write := λ d, bits (encode (to_tree d)); PrettyWrite := λ d, bits (encode (to_tree d)); Parse := parse;
     IsFloat := λ _, true; GetFloat := λ x, x |}.
Next Obligation. intros d He. by apply parse_bits. Qed.
Next Obligation. intros d. cbn beta. by destruct (encode (to_tree d)) as [p|p|]. Qed.
Next Obligation. intros d. apply bits_no_nul. Qed.
Next Obligation. intros d He. by apply parse_bits. Qed.
Next Obligation. intros d. apply bits_no_nul. Qed.
Next Obligation. done. Qed.
End JsonExample.
