(* ===== verification/FilterSerializer.v ===== *)
(** * FilterSerializer: the JSON form of row filters

    [iceberg/filter/representation/serializer.cpp]: the tables of names, the
    serializer from expressions to JSON trees and the deserializer back, and
    [FilterToString] / [StringToFilter].

    The overloads [Serialize] and [Deserialize<T>] have one definition per type.
    [Deserialize<NodePtr>] follows the members of a document; its fuel is the
    depth of the document, which every member it follows decreases. *)

From stdpp Require Import base list strings.
From Stdlib Require Import ZArith Lia.
From S2P Require Import Prelude OrderedMap FilterValue Json.

Local Open Scope Z_scope.

(** ** Names *)

Definition kNodeType := "node-type".
Definition kFunctionSignature := "func-sig".
Definition kArgumentTypes := "arg-types".
Definition kFunctionID := "func-id".
Definition kLogicalOperation := "logic-op".
Definition kArguments := "args".
Definition kColumnName := "col-name".
Definition kValueType := "val-type".
Definition kValue := "value".
Definition kCondition := "cond".
Definition kThen := "then".
Definition kElse := "else".
Definition kUseOr := "use-or".
Definition kLhs := "lhs".
Definition kRhs := "rhs".
Definition kMonths := "months".
Definition kMicros := "micros".

Inductive NodeType := kVariable | kConst | kFunction | kIf | kScalarOverArrayFunction | kLogical.
#[export] Instance NodeType_eq_dec : EqDecision NodeType.
Proof. solve_decision. Defined.

Section names.
Context {E : Type} `{EqDecision E}.

Definition IsBijection (map : list (E * string)) : bool :=
  forallb (λ l, forallb (λ r, eqb (bool_decide (l.1 = r.1)) (String.eqb l.2 r.2)) map) map.

Definition ElementToStringView (map : list (E * string)) (elem : E) : result string :=
  match List.find (λ e, bool_decide (elem = e.1)) map with
  | Some e => Ok e.2
  | None => Err (StatusError "unexpected node type")
  end.

Definition StringViewToElement (map : list (E * string)) (elem : string) : result E :=
  match List.find (λ e, String.eqb elem e.2) map with
  | Some e => Ok e.1
  | None => Err (StatusError "unexpected string_view")
  end.
End names.

Definition nodetype_string : list (NodeType * string) :=
  [(kVariable, "var"); (kConst, "const"); (kFunction, "func"); (kIf, "if");
   (kScalarOverArrayFunction, "funcarr"); (kLogical, "logical")].

Definition functionid_string : list (FunctionID * string) :=
  [(kLessThan, "kLessThan"); (kGreaterThan, "kGreaterThan"); (kLessThanOrEqualTo, "kLessThanOrEqualTo");
   (kGreaterThanOrEqualTo, "kGreaterThanOrEqualTo"); (kEqual, "kEqual"); (kNotEqual, "kNotEqual");
   (kAddWithChecks, "kAddWithChecks"); (kSubtractWithChecks, "kSubtractWithChecks");
   (kMultiplyWithChecks, "kMultiplyWithChecks"); (kDivideWithChecks, "kDivideWithChecks");
   (kModuloWithChecks, "kModuloWithChecks"); (kAddWithoutChecks, "kAddWithoutChecks");
   (kSubtractWithoutChecks, "kSubtractWithoutChecks"); (kMultiplyWithoutChecks, "kMultiplyWithoutChecks");
   (kDivideWithoutChecks, "kDivideWithoutChecks"); (kBitwiseAnd, "kBitwiseAnd"); (kBitwiseOr, "kBitwiseOr");
   (kXor, "kXor"); (kBitwiseNot, "kBitwiseNot"); (kAbsolute, "kAbsolute"); (kNegative, "kNegative");
   (kLike, "kLike"); (kILike, "kILike"); (kNotLike, "kNotLike"); (kNotILike, "kNotILike"); (kSign, "kSign");
   (kCeil, "kCeil"); (kFloor, "kFloor"); (kRound, "kRound"); (kSqrt, "kSqrt"); (kCbrt, "kCbrt"); (kExp, "kExp");
   (kLog10, "kLog10"); (kSin, "kSin"); (kCos, "kCos"); (kTan, "kTan"); (kCot, "kCot"); (kAtan, "kAtan");
   (kAtan2, "kAtan2"); (kSinh, "kSinh"); (kCosh, "kCosh"); (kTanh, "kTanh"); (kAsin, "kAsin"); (kAcos, "kAcos");
   (kCharLength, "kCharLength"); (kLower, "kLower"); (kUpper, "kUpper"); (kLTrim, "kLTrim"); (kRTrim, "kRTrim");
   (kBTrim, "kBTrim"); (kSubstring, "kSubstring"); (kLocate, "kLocate"); (kIsNull, "kIsNull");
   (kConcatenate, "kConcatenate"); (kExtractTimestamp, "kExtractTimestamp"); (kCastTimestamp, "kCastTimestamp");
   (kCastTimestamptz, "kCastTimestamptz"); (kDateDiff, "kDateDiff"); (kDateTrunc, "kDateTrunc");
   (kCastFloat8, "kCastFloat8"); (kCastInt8, "kCastInt8"); (kCastInt4, "kCastInt4"); (kCastDate, "kCastDate")].

Definition valuetype_string : list (ValueType * string) :=
  [(VT.kBool, "bool"); (VT.kInt2, "int2"); (VT.kInt4, "int4"); (VT.kInt8, "int8"); (VT.kFloat4, "float4");
   (VT.kFloat8, "float8"); (VT.kNumeric, "numeric"); (VT.kString, "string"); (VT.kDate, "date");
   (VT.kTimestamp, "timestamp"); (VT.kTimestamptz, "timestamptz"); (VT.kTime, "time"); (VT.kInterval, "interval")].

Definition logicalop_string : list (Operation * string) := [(kAnd, "kAnd"); (kOr, "kOr"); (kNot, "kNot")].

Definition NodeTypeToString := ElementToStringView nodetype_string.
Definition StringToNodeType := StringViewToElement nodetype_string.
Definition FunctionIDToString := ElementToStringView functionid_string.
Definition StringToFunctionID := StringViewToElement functionid_string.
Definition ValueTypeToString := ElementToStringView valuetype_string.
Definition StringToValueType := StringViewToElement valuetype_string.
Definition LogicalOperationToString := ElementToStringView logicalop_string.
Definition StringToLogicalOperation := StringViewToElement logicalop_string.

(** The [static_assert]s. *)
Example tables_are_bijections :
  IsBijection nodetype_string && IsBijection functionid_string && IsBijection valuetype_string &&
  IsBijection logicalop_string = true.
Proof. vm_compute. reflexivity. Qed.

(** ** Serializer *)

Definition Serialize_name (name : result string) : result json := let! s := name in Ok (Serialize_string s).

Definition Serialize_interval (i : Z * Z) : json := JObject [(kMonths, JInt i.1); (kMicros, JInt i.2)].

Definition Serialize_phys (t : ValueType) : phys t → json :=
  match t with
  | VT.kBool => JBool
  | VT.kFloat4 | VT.kFloat8 => JDouble
  | VT.kNumeric | VT.kString => Serialize_string
  | VT.kInterval => Serialize_interval
  | _ => JInt
  end.

Definition Serialize_ArrayHolder (a : ArrayHolder) : result json :=
  let! t := Serialize_name (ValueTypeToString (a_type a)) in
  Ok (JObject [(kValueType, t);
               (kValue, JArray (List.map (Serialize_optional (Serialize_phys (a_type a))) (a_values a)))]).

Definition Serialize_Value (v : Value) : result json :=
  let! t := Serialize_name (ValueTypeToString (v_type v)) in
  Ok (JObject [(kValueType, t); (kValue, Serialize_optional (Serialize_phys (v_type v)) (v_value v))]).

Definition Serialize_FunctionSignature (s : FunctionSignature) : result json :=
  let! args := map_ok (λ t, Serialize_name (ValueTypeToString t)) (argument_types s) in
  let! ret := Serialize_name (ValueTypeToString (return_type s)) in
  let! id := Serialize_name (FunctionIDToString (function_id s)) in
  Ok (JObject [(kArgumentTypes, JArray args); (kValueType, ret); (kFunctionID, id)]).

Fixpoint Serialize (node : Node) : result json :=
  let go_list := fix go (l : list Node) : result (list json) :=
    match l with
    | [] => Ok []
    | x :: l => let! j := Serialize x in let! js := go l in Ok (j :: js)
    end in
  match node with
  | VariableNode value_type column_name =>
      let! nt := Serialize_name (NodeTypeToString kVariable) in
      let! t := Serialize_name (ValueTypeToString value_type) in
      Ok (JObject [(kNodeType, nt); (kValueType, t); (kColumnName, Serialize_string column_name)])
  | ConstNode value =>
      let! nt := Serialize_name (NodeTypeToString kConst) in
      let! v := Serialize_Value value in
      Ok (JObject [(kNodeType, nt); (kValue, v)])
  | IfNode condition then_node else_node =>
      let! nt := Serialize_name (NodeTypeToString kIf) in
      let! c := Serialize condition in
      let! t := Serialize then_node in
      let! e := Serialize else_node in
      Ok (JObject [(kNodeType, nt); (kCondition, c); (kThen, t); (kElse, e)])
  | LogicalNode operation arguments =>
      let! nt := Serialize_name (NodeTypeToString kLogical) in
      let! op := Serialize_name (LogicalOperationToString operation) in
      let! args := go_list arguments in
      Ok (JObject [(kNodeType, nt); (kLogicalOperation, op); (kArguments, JArray args)])
  | FunctionNode function_signature arguments =>
      let! nt := Serialize_name (NodeTypeToString kFunction) in
      let! s := Serialize_FunctionSignature function_signature in
      let! args := go_list arguments in
      Ok (JObject [(kNodeType, nt); (kFunctionSignature, s); (kArguments, JArray args)])
  | ScalarOverArrayFunctionNode function_signature use_or scalar array =>
      let! nt := Serialize_name (NodeTypeToString kScalarOverArrayFunction) in
      let! s := Serialize_FunctionSignature function_signature in
      let! lhs := Serialize scalar in
      let! rhs := Serialize_ArrayHolder array in
      Ok (JObject [(kNodeType, nt); (kFunctionSignature, s); (kUseOr, JBool use_or); (kLhs, lhs); (kRhs, rhs)])
  end.

(** ** Deserializer *)

(** The range of [int16_t] is not checked. *)
Definition Deserialize_int16 (d : json) : result Z := let! v := Deserialize_int32 d in Ok (wrap_s 16 v).
Definition Deserialize_double := primitive (λ d, match d with JDouble x => Some x | _ => None end).

Definition Deserialize_ValueType (d : json) : result ValueType :=
  match d with JString s => StringToValueType (c_str s) | _ => Err (Exn "Deserialize (ValueType): wrong type") end.

Definition Deserialize_interval (d : json) : result (Z * Z) :=
  let! _ := EnsureObject d in
  let! months := Extract Deserialize_int64 d kMonths in
  let! micros := Extract Deserialize_int64 d kMicros in
  Ok (months, micros).

Definition Deserialize_FunctionSignature (d : json) : result FunctionSignature :=
  let! _ := EnsureObject d in
  let! id := Extract Deserialize_string d kFunctionID in
  let! id := StringToFunctionID id in
  let! ret := Extract Deserialize_string d kValueType in
  let! ret := StringToValueType ret in
  let! args := Extract (Deserialize_vector Deserialize_ValueType) d kArgumentTypes in
  Ok {| function_id := id; return_type := ret; argument_types := args |}.

Section deserializer.
Context `{RapidJson}.

Definition Deserialize_float :=
  primitive (λ d, match d with JDouble x => if IsFloat x then Some (GetFloat x) else None | _ => None end).

Definition Deserialize_phys (t : ValueType) : json → result (phys t) :=
  match t with
  | VT.kBool => Deserialize_bool
  | VT.kInt2 => Deserialize_int16
  | VT.kInt4 | VT.kDate => Deserialize_int32
  | VT.kInt8 | VT.kTimestamp | VT.kTimestamptz | VT.kTime => Deserialize_int64
  | VT.kFloat4 => Deserialize_float
  | VT.kFloat8 => Deserialize_double
  | VT.kNumeric | VT.kString => Deserialize_string
  | VT.kInterval => Deserialize_interval
  end.

Definition Deserialize_ArrayHolder (d : json) : result ArrayHolder :=
  let! _ := EnsureObject d in
  let! t := Extract Deserialize_string d kValueType in
  let! t := StringToValueType t in
  let! values := Extract (Deserialize_vector (Deserialize_optional (Deserialize_phys t))) d kValue in
  Ok {| a_type := t; a_values := values |}.

Definition Deserialize_Value (d : json) : result Value :=
  let! _ := EnsureObject d in
  let! t := Extract Deserialize_string d kValueType in
  let! t := StringToValueType t in
  let! value := Extract (Deserialize_optional (Deserialize_phys t)) d kValue in
  Ok {| v_type := t; v_value := value |}.

Fixpoint Deserialize_Node (fuel : nat) (d : json) : result Node :=
  match fuel with
  | O => Err (Exn "out of fuel")
  | S fuel =>
      let! nt := Extract Deserialize_string d kNodeType in
      let! nt := StringToNodeType nt in
      let! _ := EnsureObject d in
      match nt with
      | kConst => let! v := Extract Deserialize_Value d kValue in Ok (ConstNode v)
      | kVariable =>
          let! t := Extract Deserialize_string d kValueType in
          let! t := StringToValueType t in
          let! column_name := Extract Deserialize_string d kColumnName in
          Ok (VariableNode t column_name)
      | kIf =>
          let! condition := Extract (Deserialize_Node fuel) d kCondition in
          let! then_node := Extract (Deserialize_Node fuel) d kThen in
          let! else_node := Extract (Deserialize_Node fuel) d kElse in
          Ok (IfNode condition then_node else_node)
      | kLogical =>
          let! op := Extract Deserialize_string d kLogicalOperation in
          let! op := StringToLogicalOperation op in
          let! arguments := Extract (Deserialize_vector (Deserialize_Node fuel)) d kArguments in
          make_LogicalNode op arguments
      | kFunction =>
          let! s := Extract Deserialize_FunctionSignature d kFunctionSignature in
          let! arguments := Extract (Deserialize_vector (Deserialize_Node fuel)) d kArguments in
          make_FunctionNode s arguments
      | kScalarOverArrayFunction =>
          let! s := Extract Deserialize_FunctionSignature d kFunctionSignature in
          let! use_or := Extract Deserialize_bool d kUseOr in
          let! lhs := Extract (Deserialize_Node fuel) d kLhs in
          let! rhs := Extract Deserialize_ArrayHolder d kRhs in
          make_ScalarOverArrayFunctionNode s use_or lhs rhs
      end
  end.

Definition Deserialize (d : json) : result Node := Deserialize_Node (json_depth d) d.

(** ** Text; a null [NodePtr] is [None] *)

Definition FilterToString (node : option Node) : result string :=
  match node with
  | None => Ok EmptyString
  | Some n => let! j := Serialize n in Ok (c_str (Write j))
  end.

Definition StringToFilter (row_filter : string) : result (option Node) :=
  if String.eqb row_filter EmptyString then Ok None
  else let! n := Deserialize (Parse row_filter) in Ok (Some n).
End deserializer.

(** ** The tables are inverse to each other *)

Lemma ValueType_name t : ∃ s, ValueTypeToString t = Ok s ∧ StringToValueType s = Ok t ∧ no_nul s.
Proof. destruct t; eexists; (split; [reflexivity|]); by split. Qed.
Lemma FunctionID_name f : ∃ s, FunctionIDToString f = Ok s ∧ StringToFunctionID s = Ok f ∧ no_nul s.
Proof. destruct f; eexists; (split; [reflexivity|]); by split. Qed.
Lemma LogicalOperation_name o :
  ∃ s, LogicalOperationToString o = Ok s ∧ StringToLogicalOperation s = Ok o ∧ no_nul s.
Proof. destruct o; eexists; (split; [reflexivity|]); by split. Qed.
Lemma NodeType_name nt : ∃ s, NodeTypeToString nt = Ok s ∧ StringToNodeType s = Ok nt ∧ no_nul s.
Proof. destruct nt; eexists; (split; [reflexivity|]); by split. Qed.

Lemma Serialize_name_ok name s : name = Ok s → no_nul s → Serialize_name name = Ok (JString s).
Proof. intros -> Hs. unfold Serialize_name, Serialize_string. simpl. by rewrite Hs. Qed.

(** ** Values that survive *)

Section roundtrip.
Context `{RapidJson}.

(** A value in the range of its physical type; strings have no NUL, a [float] is
    one that [IsFloat] admits. *)
Definition phys_ok (t : ValueType) : phys t → Prop :=
  match t with
  | VT.kBool | VT.kFloat8 => λ _, True
  | VT.kInt2 => in_i16
  | VT.kInt4 | VT.kDate => in_i32
  | VT.kInt8 | VT.kTimestamp | VT.kTimestamptz | VT.kTime => in_i64
  | VT.kFloat4 => λ x, ∃ bits, x = decode_float bits ∧ IsFloat x = true
  | VT.kNumeric | VT.kString => no_nul
  | VT.kInterval => λ i, in_i64 i.1 ∧ in_i64 i.2
  end.

Lemma phys_roundtrip t : inverts (Serialize_phys t) (Deserialize_phys t) (phys_ok t).
Proof.
  intros v Hv. destruct t; simpl in *;
    try (by apply Deserialize_int32_ok); try (by apply Deserialize_int64_ok); try done;
    try (unfold Serialize_string; by rewrite Hv).
  - unfold Deserialize_int16. rewrite Deserialize_int32_ok by (unfold_ints; lia). simpl. f_equal. by apply wrap_s_16_id.
  - destruct Hv as (bits & -> & Hf). apply primitive_ok. rewrite Hf. f_equal. by apply GetFloat_float.
  - destruct v as [months micros], Hv as [H1 H2]. unfold Deserialize_interval, Serialize_interval. simpl in *.
    extract. rewrite !Deserialize_int64_ok by done. done.
Qed.

Lemma phys_not_null t v : Serialize_phys t v ≠ JNull.
Proof. by destruct t. Qed.

Lemma optional_roundtrip t :
  inverts (Serialize_optional (Serialize_phys t)) (Deserialize_optional (Deserialize_phys t)) (optional_ok (phys_ok t)).
Proof.
  intros [v|] Hv; [|done]. specialize (Hv v eq_refl). simpl. unfold Deserialize_optional.
  pose proof (phys_not_null t v).
  destruct (Serialize_phys t v) eqn:E; try done; rewrite <- E, (phys_roundtrip t v Hv); done.
Qed.

Definition value_ok (v : Value) : Prop := optional_ok (phys_ok (v_type v)) (v_value v).
Definition array_ok (a : ArrayHolder) : Prop := Forall (optional_ok (phys_ok (a_type a))) (a_values a).

Lemma Value_roundtrip v : value_ok v → ∃ j, Serialize_Value v = Ok j ∧ Deserialize_Value j = Ok v.
Proof.
  intros Hv. unfold Serialize_Value. destruct (ValueType_name (v_type v)) as (s & E & Es & Hs).
  rewrite (Serialize_name_ok _ s E Hs). cbn [rbind]. eexists. split; [done|].
  unfold Deserialize_Value, EnsureObject. cbn [IsObject Ensure rbind]. extract. rewrite Es. cbn [rbind]. extract.
  rewrite optional_roundtrip by done. by destruct v.
Qed.

Lemma ArrayHolder_roundtrip a :
  array_ok a → ∃ j, Serialize_ArrayHolder a = Ok j ∧ Deserialize_ArrayHolder j = Ok a.
Proof.
  intros Ha. unfold Serialize_ArrayHolder. destruct (ValueType_name (a_type a)) as (s & E & Es & Hs).
  rewrite (Serialize_name_ok _ s E Hs). cbn [rbind]. eexists. split; [done|].
  unfold Deserialize_ArrayHolder, EnsureObject. cbn [IsObject Ensure rbind]. extract. rewrite Es. cbn [rbind]. extract.
  unfold Deserialize_vector. rewrite (inverts_list _ _ _ (optional_roundtrip (a_type a))) by done. by destruct a.
Qed.

Lemma types_roundtrip ts :
  ∃ js, map_ok (λ t, Serialize_name (ValueTypeToString t)) ts = Ok js ∧ map_ok Deserialize_ValueType js = Ok ts.
Proof.
  apply map_ok_inverse, Forall_forall. intros t _. destruct (ValueType_name t) as (s & Es & Ds & Hs).
  exists (JString s). split; [by apply Serialize_name_ok|]. cbn [Deserialize_ValueType]. by rewrite Hs.
Qed.

Lemma FunctionSignature_roundtrip s :
  ∃ j, Serialize_FunctionSignature s = Ok j ∧ Deserialize_FunctionSignature j = Ok s.
Proof.
  destruct s as [f r ts]. unfold Serialize_FunctionSignature. cbn [argument_types return_type function_id].
  destruct (types_roundtrip ts) as (js & -> & D). cbn [rbind].
  destruct (ValueType_name r) as (sr & Er & Dr & Hr). rewrite (Serialize_name_ok _ sr Er Hr). cbn [rbind].
  destruct (FunctionID_name f) as (sf & Ef & Df & Hf). rewrite (Serialize_name_ok _ sf Ef Hf). cbn [rbind].
  eexists. split; [done|]. unfold Deserialize_FunctionSignature, EnsureObject. cbn [IsObject Ensure rbind].
  extract. rewrite Df. cbn [rbind]. extract. rewrite Dr. cbn [rbind]. extract.
  cbn [Deserialize_vector]. rewrite D. done.
Qed.

(** The checks of the constructors, on every node. *)
Fixpoint arity_ok (n : Node) : Prop :=
  let all := fix go (l : list Node) : Prop := match l with [] => True | x :: l => arity_ok x ∧ go l end in
  match n with
  | VariableNode _ _ | ConstNode _ => True
  | IfNode c t e => arity_ok c ∧ arity_ok t ∧ arity_ok e
  | LogicalNode op args => (op = kNot → length args = 1%nat) ∧ all args
  | FunctionNode s args => length (argument_types s) = length args ∧ all args
  | ScalarOverArrayFunctionNode s _ x a => length (argument_types s) = 2%nat ∧ (0 < Size a)%nat ∧ arity_ok x
  end.

(** Every constant satisfies [PV], every column name [PS]. *)
Fixpoint leaves (PV : ∀ t, phys t → Prop) (PS : string → Prop) (n : Node) : Prop :=
  let all := fix go (l : list Node) : Prop := match l with [] => True | x :: l => leaves PV PS x ∧ go l end in
  match n with
  | VariableNode _ column_name => PS column_name
  | ConstNode v => optional_ok (PV (v_type v)) (v_value v)
  | IfNode c t e => leaves PV PS c ∧ leaves PV PS t ∧ leaves PV PS e
  | LogicalNode _ args | FunctionNode _ args => all args
  | ScalarOverArrayFunctionNode _ _ x a =>
      leaves PV PS x ∧ Forall (optional_ok (PV (a_type a))) (a_values a)
  end.

Definition node_ok (n : Node) : Prop := arity_ok n ∧ leaves phys_ok no_nul n.

Definition survives (n : Node) : Prop :=
  ∃ j, Serialize n = Ok j ∧ ∀ fuel, (json_depth j ≤ fuel)%nat → Deserialize_Node fuel j = Ok n.

Lemma survives_list (args : list Node) :
  Forall survives args →
  ∃ js, (fix go (l : list Node) : result (list json) :=
          match l with [] => Ok [] | x :: l => let! j := Serialize x in let! js := go l in Ok (j :: js) end) args = Ok js ∧
        ∀ fuel, (json_depth (JArray js) ≤ S fuel)%nat → Deserialize_vector (Deserialize_Node fuel) (JArray js) = Ok args.
Proof.
  induction 1 as [|n args (j & E & D) _ (js & Es & Ds)]; [by exists []|].
  rewrite E. cbn [rbind]. rewrite Es. cbn [rbind]. eexists. split; [done|]. intros fuel Hd.
  cbn [Deserialize_vector map_ok] in *. cbn [json_depth foldr] in Hd. rewrite D by lia. cbn [rbind].
  rewrite Ds; [done|]. cbn [json_depth]. lia.
Qed.

Lemma nested_Forall (P : Node → Prop) l :
  (fix go (l : list Node) : Prop := match l with [] => True | x :: l => P x ∧ go l end) l ↔ Forall P l.
Proof.
  induction l as [|x l IH]; [by split; [intros _; constructor|]|]. rewrite Forall_cons. by rewrite IH.
Qed.

Lemma survives_args args :
  Forall (λ n, arity_ok n → leaves phys_ok no_nul n → survives n) args →
  Forall arity_ok args → Forall (leaves phys_ok no_nul) args →
  ∃ js, (fix go (l : list Node) : result (list json) :=
          match l with [] => Ok [] | x :: l => let! j := Serialize x in let! js := go l in Ok (j :: js) end) args = Ok js ∧
        ∀ fuel, (json_depth (JArray js) ≤ S fuel)%nat → Deserialize_vector (Deserialize_Node fuel) (JArray js) = Ok args.
Proof.
  intros IH Ha Hl. apply survives_list. rewrite Forall_forall in *. intros n Hn. by apply IH; [|apply Ha|apply Hl].
Qed.

Definition node_name (nt : NodeType) : string :=
  match NodeTypeToString nt with Ok s => s | Err _ => EmptyString end.
Lemma Serialize_node_name nt : Serialize_name (NodeTypeToString nt) = Ok (JString (node_name nt)).
Proof. by destruct nt. Qed.
Lemma StringToNodeType_name nt : StringToNodeType (node_name nt) = Ok nt.
Proof. by destruct nt. Qed.
(** Open the object of a node of a known type. *)
Ltac open_node Hd fuel :=
  intros [|fuel] Hd; [simpl in Hd; lia|]; cbn [Deserialize_Node]; rewrite EnsureObject_object;
  erewrite Extract_member by reflexivity; cbn [rbind snd];
  rewrite Deserialize_string_ok; cbn [rbind]; rewrite StringToNodeType_name; cbn [rbind];
  cbn [json_depth foldr snd] in Hd.

Lemma node_survives n : arity_ok n → leaves phys_ok no_nul n → survives n.
Proof.
  unfold survives. induction n as [t c|v|c t e IHc IHt IHe|o args IH|s args IH|s u x a IH] using Node_nested_ind;
    intros Ha Hl; cbn [Serialize]; rewrite ?Serialize_node_name; cbn [rbind].
  - destruct (ValueType_name t) as (s & E & D & Hs). rewrite (Serialize_name_ok _ s E Hs). cbn [rbind].
    eexists. split; [reflexivity|]. open_node Hd fuel.
    extract. rewrite D. cbn [rbind]. extract. unfold Serialize_string. rewrite Deserialize_string_ok. cbn [rbind].
    by rewrite (Hl : c_str c = c).
  - destruct (Value_roundtrip v Hl) as (j & -> & D). eexists. split; [reflexivity|].
    open_node Hd fuel. extract. by rewrite D.
  - cbn [arity_ok leaves] in Ha, Hl. destruct Ha as (A1 & A2 & A3), Hl as (L1 & L2 & L3).
    destruct (IHc A1 L1) as (jc & -> & Dc), (IHt A2 L2) as (jt & -> & Dt), (IHe A3 L3) as (je & -> & De).
    eexists. split; [reflexivity|]. open_node Hd fuel. extract. rewrite Dc by lia. rewrite Dt by lia. rewrite De by lia. done.
  - cbn [arity_ok leaves] in Ha, Hl. destruct Ha as [A1 A2]. apply nested_Forall in A2, Hl.
    destruct (survives_args args IH A2 Hl) as (js & Es & Ds). destruct (LogicalOperation_name o) as (s & E & D & Hn).
    rewrite (Serialize_name_ok _ s E Hn). cbn [rbind]. rewrite Es. eexists. split; [reflexivity|].
    open_node Hd fuel. extract.
    rewrite D. cbn [rbind]. extract. rewrite Ds by (cbn [json_depth]; lia). cbn [rbind].
    unfold make_LogicalNode. rewrite Ensure_true; [done|]. apply negb_true_iff, andb_false_iff.
    destruct (decide (o = kNot)) as [Ho|Ho]; [right|left].
    + rewrite bool_decide_true by auto. done.
    + by rewrite bool_decide_false.
  - cbn [arity_ok leaves] in Ha, Hl. destruct Ha as [A1 A2]. apply nested_Forall in A2, Hl.
    destruct (survives_args args IH A2 Hl) as (js & Es & Ds). destruct (FunctionSignature_roundtrip s) as (sj & -> & D). cbn [rbind].
    rewrite Es. eexists. split; [reflexivity|].
    open_node Hd fuel. extract.
    rewrite D. cbn [rbind]. extract. rewrite Ds by (cbn [json_depth]; lia). cbn [rbind].
    unfold make_FunctionNode. by rewrite bool_decide_true by done.
  - cbn [arity_ok leaves] in Ha, Hl. destruct Ha as (A1 & A2 & A3), Hl as [L1 L2].
    destruct (FunctionSignature_roundtrip s) as (sj & -> & D). cbn [rbind].
    destruct (IH A3 L1) as (jx & -> & Dx), (ArrayHolder_roundtrip a L2) as (ja & -> & Da). cbn [rbind].
    eexists. split; [reflexivity|]. open_node Hd fuel. extract. rewrite D. cbn [rbind]. extract.
    rewrite Dx by lia. cbn [rbind]. extract. rewrite Da. cbn [rbind].
    unfold make_ScalarOverArrayFunctionNode. by rewrite !bool_decide_true by done.
Qed.

Lemma StringToFilter_Write j :
  exact j = true → StringToFilter (Write j) = let! n := Deserialize j in Ok (Some n).
Proof.
  intros He. unfold StringToFilter.
  destruct (String.eqb_spec (Write j) EmptyString) as [W|_]; [by destruct (write_nonempty j)|].
  by rewrite parse_write.
Qed.

(** C32: a filter is read back unchanged, from the JSON tree that [Serialize] makes of it
    and, when no floating-point constant has to pass through decimal digits ([exact]), from
    its text.  Assumed of the filter ([node_ok]): its nodes pass the checks of their
    constructors (a function has as many arguments as its signature says, NOT has one, an
    array is not empty); integer, date, time and interval constants are in the ranges of
    their types; no string or numeric constant and no column name contains a NUL (which
    would cut it); and a constant of type float is a value that the library takes for a
    float. *)
Theorem filter_roundtrip (n : Node) (Hn : node_ok n) :
  ∃ j, Serialize n = Ok j ∧ Deserialize j = Ok n ∧
       (exact j = true → (let! s := FilterToString (Some n) in StringToFilter s) = Ok (Some n)).
Proof.
  destruct Hn as [Ha Hl]. destruct (node_survives n Ha Hl) as (j & E & D). exists j.
  assert (Deserialize j = Ok n) as Dj by (by apply D). split; [done|]. split; [done|]. intros He.
  unfold FilterToString. rewrite E. cbn [rbind]. by rewrite write_no_nul, StringToFilter_Write, Dj.
Qed.

(** ** What is deserialized is well formed *)

Definition phys_in_range (t : ValueType) : phys t → Prop :=
  match t with
  | VT.kInt2 => in_i16
  | VT.kInt4 | VT.kDate => in_i32
  | VT.kInt8 | VT.kTimestamp | VT.kTimestamptz | VT.kTime => in_i64
  | VT.kInterval => λ i, in_i64 i.1 ∧ in_i64 i.2
  | _ => λ _, True
  end.

Lemma int32_range d v : Deserialize_int32 d = Ok v → in_i32 v.
Proof.
  unfold Deserialize_int32, primitive, as_int32, is_i32. destruct d; try done.
  destruct (Z.leb_spec int32_min v0), (Z.leb_spec v0 int32_max); simpl; try done. intros [= <-]. done.
Qed.
Lemma int64_range d v : Deserialize_int64 d = Ok v → in_i64 v.
Proof.
  unfold Deserialize_int64, primitive, as_int64, is_i64. destruct d; try done.
  destruct (Z.leb_spec int64_min v0), (Z.leb_spec v0 int64_max); simpl; try done. intros [= <-]. done.
Qed.

Lemma wrap_s_16_range v : in_i16 (wrap_s 16 v).
Proof.
  unfold wrap_s. unfold_ints. change (2 ^ 16 / 2) with 32768. change (2 ^ 16) with 65536.
  pose proof (Z.mod_pos_bound v 65536). case_match; lia.
Qed.

Lemma phys_range t d v : Deserialize_phys t d = Ok v → phys_in_range t v.
Proof.
  destruct t; cbn [Deserialize_phys phys_in_range]; try done; try apply int32_range; try apply int64_range.
  - unfold Deserialize_int16. intros E. apply rbind_Ok_inv in E as (w & _ & [= <-]). apply wrap_s_16_range.
  - unfold Deserialize_interval. intros E. apply rbind_Ok_inv in E as (? & _ & E).
    apply rbind_Ok_inv in E as (m & Em & E). apply rbind_Ok_inv in E as (u & Eu & [= <-]).
    apply Extract_inv in Em as (? & _ & Em%int64_range), Eu as (? & _ & Eu%int64_range). done.
Qed.

Lemma optional_range t d o :
  Deserialize_optional (Deserialize_phys t) d = Ok o → optional_ok (phys_in_range t) o.
Proof.
  unfold Deserialize_optional. intros E v ->.
  destruct d; [done|apply rbind_Ok_inv in E as (w & Ew & [= <-]); by eapply phys_range..].
Qed.

Lemma Value_range d v : Deserialize_Value d = Ok v → optional_ok (phys_in_range (v_type v)) (v_value v).
Proof.
  unfold Deserialize_Value. intros E. repeat (apply rbind_Ok_inv in E as (? & ? & E)).
  injection E as <-. cbn [v_type v_value].
  match goal with H : Extract (Deserialize_optional _) _ _ = _ |- _ => apply Extract_inv in H as (w & _ & Hw) end.
  by eapply optional_range.
Qed.

Lemma ArrayHolder_range d a :
  Deserialize_ArrayHolder d = Ok a → Forall (optional_ok (phys_in_range (a_type a))) (a_values a).
Proof.
  unfold Deserialize_ArrayHolder. intros E. repeat (apply rbind_Ok_inv in E as (? & ? & E)).
  injection E as <-. cbn [a_type a_values].
  match goal with H : Extract (Deserialize_vector _) _ _ = _ |- _ => apply Extract_inv in H as (w & _ & Hw) end.
  destruct w; try done. cbn [Deserialize_vector] in Hw. apply Forall_forall. intros o Ho.
  apply (map_ok_elem _ _ _ o Hw) in Ho as (j & _ & Hj). by eapply optional_range.
Qed.

Definition typed (n : Node) : Prop := arity_ok n ∧ leaves phys_in_range (λ _, True) n.

Lemma vector_typed fuel d args :
  (∀ d n, Deserialize_Node fuel d = Ok n → typed n) →
  Deserialize_vector (Deserialize_Node fuel) d = Ok args → Forall typed args.
Proof.
  intros IH E. destruct d; try done. apply Forall_forall. intros n Hn.
  apply (map_ok_elem _ _ _ n E) in Hn as (j & _ & Hj). by eapply IH.
Qed.

Lemma typed_args args : Forall typed args →
  Forall arity_ok args ∧ Forall (leaves phys_in_range (λ _, True)) args.
Proof. intros H0. by apply Forall_and. Qed.

Lemma Deserialize_typed fuel : ∀ d n, Deserialize_Node fuel d = Ok n → typed n.
Proof.
  induction fuel as [|fuel IH]; intros d n E; [done|]. cbn [Deserialize_Node] in E.
  apply rbind_Ok_inv in E as (name & _ & E). apply rbind_Ok_inv in E as (nt & _ & E).
  apply rbind_Ok_inv in E as (? & _ & E). destruct nt.
  - repeat (apply rbind_Ok_inv in E as (? & ? & E)). by injection E as <-.
  - apply rbind_Ok_inv in E as (v & (? & _ & Hv%Value_range)%Extract_inv & [= <-]). by split.
  - apply rbind_Ok_inv in E as (s & _ & E).
    apply rbind_Ok_inv in E as (args & (? & _ & [Ha Ha']%(vector_typed _ _ _ IH)%typed_args)%Extract_inv & E).
    unfold make_FunctionNode in E. apply rbind_Ok_inv in E as (? & Hc%Ensure_Ok_inv%bool_decide_eq_true & [= <-]).
    by split; cbn [arity_ok leaves]; [split; [done|]|]; apply nested_Forall.
  - apply rbind_Ok_inv in E as (c & (? & _ & [Hc Hc']%IH)%Extract_inv & E).
    apply rbind_Ok_inv in E as (t & (? & _ & [Ht Ht']%IH)%Extract_inv & E).
    apply rbind_Ok_inv in E as (e & (? & _ & [He He']%IH)%Extract_inv & [= <-]). by split.
  - apply rbind_Ok_inv in E as (s & _ & E). apply rbind_Ok_inv in E as (u & _ & E).
    apply rbind_Ok_inv in E as (y & (? & _ & [Hx Hx']%IH)%Extract_inv & E).
    apply rbind_Ok_inv in E as (a & (? & _ & Ha%ArrayHolder_range)%Extract_inv & E).
    unfold make_ScalarOverArrayFunctionNode in E.
    apply rbind_Ok_inv in E as (? & H1%Ensure_Ok_inv%bool_decide_eq_true & E).
    apply rbind_Ok_inv in E as (? & H2%Ensure_Ok_inv%bool_decide_eq_true & [= <-]). by split.
  - apply rbind_Ok_inv in E as (o & _ & E). apply rbind_Ok_inv in E as (op & _ & E).
    apply rbind_Ok_inv in E as (args & (? & _ & [Ha Ha']%(vector_typed _ _ _ IH)%typed_args)%Extract_inv & E).
    unfold make_LogicalNode in E. apply rbind_Ok_inv in E as (? & Hc%Ensure_Ok_inv & [= <-]).
    split; cbn [arity_ok leaves]; [split|by apply nested_Forall]; [|by apply nested_Forall].
    intros ->. apply negb_true_iff, andb_false_iff in Hc as [Hc|Hc]; [done|].
    apply negb_false_iff, bool_decide_eq_true in Hc. done.
Qed.

(** Whatever document is read, a filter that [StringToFilter] returns is well
    typed: every constant is in the range of its physical type, [kNot] has one
    argument, functions have as many arguments as their signature and array
    functions a signature of two over a non-empty array. *)
Theorem string_to_filter_typed (s : string) (n : Node) :
  StringToFilter s = Ok (Some n) → arity_ok n ∧ leaves phys_in_range (λ _, True) n.
Proof.
  unfold StringToFilter. destruct (String.eqb s EmptyString); [done|]. intros E.
  apply rbind_Ok_inv in E as (m & E & [= <-]). by eapply Deserialize_typed.
Qed.

(** The range of [int16_t] is not checked: a constant outside of it is another
    constant after reading. *)
Theorem int16_constant_wraps : Deserialize_phys VT.kInt2 (JInt 65541) = Ok 5.
Proof. reflexivity. Qed.

(** Text that is no JSON leaves a document that is no object, and the first
    access to a member is an assertion of rapidjson, not an error of
    [Deserialize]. *)
Theorem malformed_filter_asserts (s : string) :
  s ≠ EmptyString → Parse s = JNull → StringToFilter s = Err (Exn "assertion failed: IsObject()").
Proof.
  intros Hs Hp. unfold StringToFilter. destruct (String.eqb_spec s EmptyString); [done|]. by rewrite Hp.
Qed.
End roundtrip.

(** A string constant is cut at its first NUL. *)
Theorem nul_cuts_strings : Serialize_string (String.append "a" (String Ascii.zero "b")) = Serialize_string "a".
Proof. reflexivity. Qed.

(** ** Examples: [NOT (a < 5)], with [a] an [int4] *)

Definition example_signature : FunctionSignature :=
  {| function_id := kLessThan; return_type := VT.kBool; argument_types := [VT.kInt4; VT.kInt4] |}.
Definition example_filter : Node :=
  LogicalNode kNot [FunctionNode example_signature
    [VariableNode VT.kInt4 "a"; ConstNode {| v_type := VT.kInt4; v_value := Some 5 |}]].
Definition example_document : json := match Serialize example_filter with Ok j => j | Err _ => JNull end.

#[local] Existing Instance JsonExample.binary_json.

Lemma example_filter_ok : node_ok example_filter.
Proof. repeat split; try done. all: cbn in *; unfold_ints; try naive_solver lia. Qed.

Lemma filter_roundtrip_witness :
  ∃ j, Serialize example_filter = Ok j ∧ Deserialize j = Ok example_filter ∧
       (exact j = true → (let! s := FilterToString (Some example_filter) in StringToFilter s) = Ok (Some example_filter)).
Proof. apply (filter_roundtrip). apply example_filter_ok. Defined.

Lemma string_to_filter_typed_witness :
  arity_ok example_filter ∧ leaves phys_in_range (λ _, True) example_filter.
Proof.
  apply (string_to_filter_typed (Write example_document) example_filter).
  rewrite StringToFilter_Write by reflexivity. reflexivity.
Defined.
