(* ===== verification/Puffin.v ===== *)
(** * Puffin: files of blobs with a JSON footer

    [iceberg/puffin.h] and [iceberg/puffin.cpp]: [PuffinFileBuilder], the two
    readers of the footer ([MakeFooter] on a string, [ReadFooter] on a file), and
    the accessors of blobs, with the cache of the deserialized footer as state.

    Layout: magic, blobs, magic, footer, size of the footer, flags, magic. *)

From stdpp Require Import base list sorting strings gmap.
From Stdlib Require Import ZArith Lia.
From Stdlib Require Strings.Byte.
From S2P Require Import Prelude Bytes SelectionVector DeleteAppliers DeletionVector FilterValue Json.

Local Open Scope Z_scope.

Definition kPuffinMagicBytes : bytes := [Byte.x50; Byte.x46; Byte.x41; Byte.x31].

Definition kType := "type".
Definition kFields := "fields".
Definition kSnapshotId := "snapshot-id".
Definition kSequenceNumber := "sequence-number".
Definition kOffset := "offset".
Definition kLength := "length".
Definition kCompressionCodec := "compression-codec".
Definition kProperties := "properties".
Definition kBlobs := "blobs".

Record DeserializedFooter := { blobs : list BlobMetadata; footer_properties : gmap string string }.

(** ** Footers to JSON *)

Definition key_le (a b : string * string) : Prop := String.leb a.1 b.1 = true.
#[export] Instance key_le_dec : RelDecision key_le := λ a b, decide (String.leb a.1 b.1 = true).

(** A [std::map] is iterated in the order of its keys. *)
Definition Serialize_map (props : gmap string string) : json :=
  JObject (List.map (λ e, (c_str e.1, Serialize_string e.2)) (merge_sort key_le (map_to_list props))).

Definition Serialize_BlobMetadata (b : BlobMetadata) : json :=
  JObject [(kFields, JArray (List.map JInt (bm_fields b)));
           (kType, Serialize_string (bm_type b));
           (kCompressionCodec, Serialize_optional Serialize_string (compression_codec b));
           (kLength, JInt (bm_length b));
           (kOffset, JInt (bm_offset b));
           (kProperties, Serialize_map (properties b));
           (kSequenceNumber, JInt (bm_sequence_number b));
           (kSnapshotId, JInt (bm_snapshot_id b))].

Definition Serialize_DeserializedFooter (f : DeserializedFooter) : json :=
  JObject [(kBlobs, JArray (List.map Serialize_BlobMetadata (blobs f)));
           (kProperties, Serialize_map (footer_properties f))].

Definition Extract_optional {A} (de : json → result A) (d : json) (field_name : string) : result (option A) :=
  let! has := HasMember d field_name in
  if has : bool then let! v := get_member d field_name in Deserialize_optional de v else Ok None.

(** [result.emplace], for members that are strings; others are ignored. *)
Definition add_member (m : gmap string string) (e : string * json) : gmap string string :=
  match e.2 with
  | JString v => match m !! c_str e.1 with Some _ => m | None => <[c_str e.1 := c_str v]> m end
  | _ => m
  end.

Definition Deserialize_map (d : json) : result (gmap string string) :=
  match d with
  | JObject members => Ok (fold_left add_member members ∅)
  | _ => Err (Exn "Deserialize (map): wrong type")
  end.

Definition Deserialize_BlobMetadata (d : json) : result BlobMetadata :=
  let! _ := EnsureObject d in
  let! type := Extract Deserialize_string d kType in
  let! fields := Extract (Deserialize_vector Deserialize_int32) d kFields in
  let! snapshot_id := Extract Deserialize_int64 d kSnapshotId in
  let! sequence_number := Extract Deserialize_int64 d kSequenceNumber in
  let! offset := Extract Deserialize_int64 d kOffset in
  let! len := Extract Deserialize_int64 d kLength in
  let! codec := Extract_optional Deserialize_string d kCompressionCodec in
  let! props := Extract Deserialize_map d kProperties in
  Ok {| bm_type := type; bm_fields := fields; bm_snapshot_id := snapshot_id; bm_sequence_number := sequence_number;
        bm_offset := offset; bm_length := len; compression_codec := codec; properties := props |}.

Definition Deserialize_DeserializedFooter (d : json) : result DeserializedFooter :=
  let! _ := EnsureObject d in
  let! blobs := Extract (Deserialize_vector Deserialize_BlobMetadata) d kBlobs in
  let! props := Extract Deserialize_map d kProperties in
  Ok {| blobs := blobs; footer_properties := props |}.

(** ** The trailer *)

Definition ParseTrailerView (trailer : bytes) : result Z :=
  if (length trailer <? 12)%nat then Err (StatusError "Failed to read Puffin trailer")
  else if negb (bool_decide (substr trailer 8 4 = kPuffinMagicBytes)) then
    Err (StatusError "PuffinFile is incorrect: magic bytes after footer are incorrect")
  else
    let flags := le_decode (substr trailer 4 4) in
    if negb (Z.land flags 1 =? 0) then Err (StatusError "Compressed puffin files are not supported yet")
    else Ok (wrap_s 32 (le_decode (substr trailer 0 4))).

Definition ExtractPayload (payload_with_magic : bytes) : result bytes :=
  if (length payload_with_magic <? 4)%nat || negb (bool_decide (substr payload_with_magic 0 4 = kPuffinMagicBytes)) then
    Err (StatusError "PuffinFile is incorrect: magic bytes before footer are incorrect")
  else Ok (drop 4 payload_with_magic).

(** [std::string_view::substr], which throws past the end; the arguments are of
    type [size_t]. *)
Definition sv_substr (data : bytes) (pos n : Z) : result bytes :=
  let size := Z.of_nat (length data) in
  if size <? pos then Err (Exn "out_of_range")
  else Ok (substr data (Z.to_nat pos) (Z.to_nat (Z.min n size))).

Record Footer := { payload_ : bytes; deserialized_footer_cache_ : option DeserializedFooter }.
Definition make_Footer (payload : bytes) : Footer := {| payload_ := payload; deserialized_footer_cache_ := None |}.

Definition MakeFooter (data : bytes) : result Footer :=
  let size := Z.of_nat (length data) in
  if size <? 16 then Err (StatusError "PuffinFile is incorrect: file is too small") else
  let! trailer := sv_substr data (size - 12) uint64_max in
  let! footer_payload_size := ParseTrailerView trailer in
  if size <? wrap_u 64 (16 + wrap_u 64 footer_payload_size) then
    Err (StatusError "PuffinFile is incorrect: file is too small")
  else
    let! payload_with_magic := sv_substr data (wrap_u 64 (size - wrap_u 64 (wrap_s 32 (16 + footer_payload_size))))
                                              (wrap_u 64 (wrap_s 32 (4 + footer_payload_size))) in
    let! footer_payload := ExtractPayload payload_with_magic in
    Ok (make_Footer footer_payload).

(** [arrow::io::RandomAccessFile]. *)
Record RandomAccessFile := { GetSize : result Z; ReadAt : Z → Z → result bytes }.

Definition ReadFooter (file : RandomAccessFile) : result Footer :=
  let! file_size := GetSize file in
  if file_size <? 16 then Err (StatusError "PuffinFile is incorrect: file is too small") else
  let! trailer_buffer := ReadAt file (file_size - 12) 12 in
  let! footer_payload_size := ParseTrailerView trailer_buffer in
  if file_size <? wrap_s 32 (16 + footer_payload_size) then
    Err (StatusError "PuffinFile is incorrect: file is too small")
  else
    let! payload_buffer := ReadAt file (file_size - 16 - footer_payload_size) (wrap_s 32 (4 + footer_payload_size)) in
    let! footer_payload := ExtractPayload payload_buffer in
    Ok (make_Footer footer_payload).

Record PuffinFile := { data_ : bytes; footer_ : Footer }.

Definition make_PuffinFile (data : bytes) : result PuffinFile :=
  if (length data <? 4)%nat then Err (StatusError "PuffinFile is incorrect: file is too small")
  else if negb (bool_decide (substr data 0 4 = kPuffinMagicBytes)) then
    Err (StatusError "PuffinFile is incorrect: magic bytes are incorrect")
  else let! footer := MakeFooter data in Ok {| data_ := data; footer_ := footer |}.

(** ** Accessors *)

Section puffin.
Context `{RapidJson}.

Definition parse_footer (payload : bytes) : result DeserializedFooter :=
  Deserialize_DeserializedFooter (Parse (string_of_bytes payload)).

Definition GetDeserializedFooter (f : Footer) : result (DeserializedFooter * Footer) :=
  match deserialized_footer_cache_ f with
  | Some d => Ok (d, f)
  | None => let! d := parse_footer (payload_ f) in
            Ok (d, {| payload_ := payload_ f; deserialized_footer_cache_ := Some d |})
  end.

Definition GetBlobsCount (f : Footer) : result (nat * Footer) :=
  let! '(footer, f) := GetDeserializedFooter f in Ok (length (blobs footer), f).

Definition GetBlobMetadata (f : Footer) (blob_number : nat) : result (BlobMetadata * Footer) :=
  let! '(footer, f) := GetDeserializedFooter f in
  match blobs footer !! blob_number with
  | Some m => Ok (m, f)
  | None => Err (Exn "requested blob number does not exist")
  end.

Definition puffin_GetBlob (p : PuffinFile) (blob_number : nat) : result (bytes * PuffinFile) :=
  let! '(blob_meta, f) := GetBlobMetadata (footer_ p) blob_number in
  let offset := bm_offset blob_meta in
  let len := bm_length blob_meta in
  let! _ := Ensure ((0 <=? offset) && (0 <=? len) && (wrap_u 64 (offset + len) <? Z.of_nat (length (data_ p))))
                   "unexpected blob request" in
  let! blob := sv_substr (data_ p) offset len in
  Ok (blob, {| data_ := data_ p; footer_ := f |}).

(** ** Builder *)

Record Blob := {
  b_data : bytes;
  b_properties : gmap string string;
  b_fields : list Z;
  blob_type : string;
}.

Record PuffinFileBuilder := {
  blobs_ : list Blob;
  sequence_number_ : option Z;
  snapshot_id_ : option Z;
}.

Definition empty_builder : PuffinFileBuilder := {| blobs_ := []; sequence_number_ := None; snapshot_id_ := None |}.
Definition SetSequenceNumber (n : Z) (b : PuffinFileBuilder) : PuffinFileBuilder :=
  {| blobs_ := blobs_ b; sequence_number_ := Some n; snapshot_id_ := snapshot_id_ b |}.
Definition SetSnapshotId (n : Z) (b : PuffinFileBuilder) : PuffinFileBuilder :=
  {| blobs_ := blobs_ b; sequence_number_ := sequence_number_ b; snapshot_id_ := Some n |}.
Definition AppendBlob (data : bytes) (props : gmap string string) (fields : list Z) (type : string)
    (b : PuffinFileBuilder) : PuffinFileBuilder :=
  {| blobs_ := blobs_ b ++ [{| b_data := data; b_properties := props; b_fields := fields; blob_type := type |}];
     sequence_number_ := sequence_number_ b; snapshot_id_ := snapshot_id_ b |}.

Definition blob_metadata (sequence_number snapshot_id : Z) (offset : nat) (blob : Blob) : BlobMetadata :=
  {| bm_type := blob_type blob; bm_fields := b_fields blob; bm_snapshot_id := snapshot_id;
     bm_sequence_number := sequence_number; bm_offset := Z.of_nat offset; bm_length := Z.of_nat (length (b_data blob));
     compression_codec := None; properties := b_properties blob |}.

Definition append_step (sequence_number snapshot_id : Z) (st : bytes * list BlobMetadata) (blob : Blob) :=
  let '(result, blob_meta) := st in
  (result ++ b_data blob, blob_meta ++ [blob_metadata sequence_number snapshot_id (length result) blob]).

Definition CreateFooter (footer : DeserializedFooter) : bytes :=
  bytes_of_string (c_str (Write (Serialize_DeserializedFooter footer))).

(** The bytes of the file. *)
Definition build_data (bs : list Blob) (sequence_number snapshot_id : Z) : bytes :=
  let '(result, blob_meta) := fold_left (append_step sequence_number snapshot_id) bs (kPuffinMagicBytes, []) in
  let result := result ++ kPuffinMagicBytes in
  let footer := CreateFooter {| blobs := blob_meta; footer_properties := {["created-by" := "iceberg-cpp"]} |} in
  let footer_size := wrap_s 32 (Z.of_nat (length footer)) in
  result ++ footer ++ le_encode 4 footer_size ++ [Byte.x30; Byte.x30; Byte.x30; Byte.x30] ++ kPuffinMagicBytes.

Definition Build (b : PuffinFileBuilder) : result PuffinFile :=
  let! _ := Ensure (negb (bool_decide (blobs_ b = []))) "building puffin file without blobs is not supported" in
  match sequence_number_ b, snapshot_id_ b with
  | Some sequence_number, Some snapshot_id =>
      match make_PuffinFile (build_data (blobs_ b) sequence_number snapshot_id) with
      | Ok f => Ok f
      | Err _ => Err (Exn "not a puffin file")
      end
  | None, _ => Err (Exn "PuffinFileBuilder: sequence_number is not set")
  | _, None => Err (Exn "PuffinFileBuilder: snapshot_id is not set")
  end.
End puffin.

(** ** Footers survive their JSON form *)

Definition map_no_nul (m : gmap string string) : Prop := map_Forall (λ k v, no_nul k ∧ no_nul v) m.

Lemma add_members_fresh l : ∀ acc : gmap string string,
  NoDup l.*1 → (∀ k, k ∈ l.*1 → acc !! k = None) → Forall (λ e, no_nul e.1 ∧ no_nul e.2) l →
  fold_left add_member (List.map (λ e, (c_str e.1, Serialize_string e.2)) l) acc = list_to_map l ∪ acc.
Proof.
  induction l as [|[k v] l IH]; intros acc Hnd Hk Hn; [by rewrite list_to_map_nil, (left_id_L ∅ (∪))|].
  apply NoDup_cons in Hnd as [Hnot Hnd]. apply Forall_cons in Hn as [[Hnk Hnv] Hn]. cbn [fst snd] in Hnk, Hnv.
  cbn [List.map fold_left fst snd]. unfold add_member at 2, Serialize_string. cbn [fst snd].
  rewrite Hnk, Hnv, Hnk, Hnv. rewrite Hk by by left. rewrite IH; [|done| |done].
  - rewrite list_to_map_cons, <- insert_union_l. symmetry. by apply insert_union_r, not_elem_of_list_to_map.
  - intros k' Hk'. rewrite lookup_insert_ne by (intros ->; done). apply Hk. by right.
Qed.

Lemma map_roundtrip m : map_no_nul m → Deserialize_map (Serialize_map m) = Ok m.
Proof.
  intros Hm. unfold Deserialize_map, Serialize_map. f_equal.
  pose proof (merge_sort_Permutation key_le (map_to_list m)) as Hp.
  assert (NoDup (merge_sort key_le (map_to_list m)).*1) as Hnd
    by (rewrite Hp; apply NoDup_fst_map_to_list).
  rewrite add_members_fresh; [|done|done|].
  - rewrite (right_id_L ∅ (∪)), (list_to_map_proper _ (map_to_list m)) by done. apply list_to_map_to_list.
  - rewrite Hp. apply map_Forall_to_list in Hm. eapply Forall_impl; [exact Hm|]. by intros [k v].
Qed.

Record blob_metadata_ok (b : BlobMetadata) : Prop := {
  bo_type : no_nul (bm_type b);
  bo_fields : Forall in_i32 (bm_fields b);
  bo_snapshot : in_i64 (bm_snapshot_id b);
  bo_sequence : in_i64 (bm_sequence_number b);
  bo_offset : in_i64 (bm_offset b);
  bo_length : in_i64 (bm_length b);
  bo_codec : ∀ c, compression_codec b = Some c → no_nul c;
  bo_properties : map_no_nul (properties b);
}.

Lemma Extract_optional_member {A} (de : json → result A) m name v :
  find_member name m = Some v → Extract_optional de (JObject m) name = Deserialize_optional de v.
Proof. unfold Extract_optional, HasMember, get_member. by intros ->. Qed.

Lemma blob_metadata_roundtrip : inverts Serialize_BlobMetadata Deserialize_BlobMetadata blob_metadata_ok.
Proof.
  intros b Hb. destruct b as [type fields sid seq offset len codec props].
  destruct Hb as [H1 H2 H3 H4 H5 H6 H7 H8]. simpl in *.
  unfold Deserialize_BlobMetadata, Serialize_BlobMetadata.
  cbn [bm_type bm_fields bm_snapshot_id bm_sequence_number bm_offset bm_length compression_codec properties].
  rewrite EnsureObject_object. cbn [rbind]. extract.
  unfold Serialize_string at 1. rewrite Deserialize_string_ok. cbn [rbind]. extract.
  cbn [Deserialize_vector]. rewrite (inverts_list JInt Deserialize_int32 in_i32) by (done || exact Deserialize_int32_ok).
  cbn [rbind]. do 4 (extract; rewrite Deserialize_int64_ok by done; cbn [rbind]).
  erewrite Extract_optional_member by reflexivity. cbn [snd].
  assert (Deserialize_optional Deserialize_string (Serialize_optional Serialize_string codec) = Ok codec) as ->.
  { destruct codec as [c|]; [|done]. simpl. unfold Serialize_string. by rewrite (H7 c eq_refl). }
  cbn [rbind]. extract. rewrite map_roundtrip by done. cbn [rbind]. by rewrite H1.
Qed.

Record footer_ok (f : DeserializedFooter) : Prop := {
  fo_blobs : Forall blob_metadata_ok (blobs f);
  fo_properties : map_no_nul (footer_properties f);
}.

Lemma footer_roundtrip : inverts Serialize_DeserializedFooter Deserialize_DeserializedFooter footer_ok.
Proof.
  intros f [Hb Hp]. unfold Deserialize_DeserializedFooter, Serialize_DeserializedFooter.
  rewrite EnsureObject_object. cbn [rbind]. extract. cbn [Deserialize_vector].
  rewrite (inverts_list _ _ _ blob_metadata_roundtrip) by done. cbn [rbind]. extract.
  rewrite map_roundtrip by done. by destruct f.
Qed.

Lemma exact_int v : in_i64 v → exact (JInt v) = true.
Proof.
  unfold_ints. intros Hv. cbn [exact]. unfold uint64_max.
  destruct (Z.leb_spec int64_min v), (Z.leb_spec v 18446744073709551615); unfold_ints; simpl; lia || done.
Qed.

Lemma forallb_map {A B} (f : A → B) p l : (∀ x, x ∈ l → p (f x) = true) → forallb p (List.map f l) = true.
Proof.
  intros Hp. apply forallb_forall. intros y Hy. apply in_map_iff in Hy as (x & <- & Hx).
  apply Hp. by apply list_elem_of_In.
Qed.

Lemma exact_map m : exact (Serialize_map m) = true.
Proof. by apply forallb_map. Qed.

Lemma exact_BlobMetadata b : blob_metadata_ok b → exact (Serialize_BlobMetadata b) = true.
Proof.
  intros [_ H2 H3 H4 H5 H6 _ _]. unfold Serialize_BlobMetadata. cbn [exact forallb snd].
  rewrite (forallb_map JInt exact).
  2: { intros v Hv. rewrite Forall_forall in H2. apply exact_int. specialize (H2 v Hv). unfold_ints. lia. }
  rewrite exact_map.
  pose proof (exact_int _ H3) as E3. pose proof (exact_int _ H4) as E4. pose proof (exact_int _ H5) as E5.
  pose proof (exact_int _ H6) as E6. cbn [exact] in E3, E4, E5, E6. rewrite E3, E4, E5, E6.
  by destruct (compression_codec b).
Qed.

Lemma exact_footer f : footer_ok f → exact (Serialize_DeserializedFooter f) = true.
Proof.
  intros [Hb Hp]. unfold Serialize_DeserializedFooter. cbn [exact forallb snd].
  rewrite (forallb_map _ exact); [by rewrite exact_map|].
  intros b Hin. rewrite Forall_forall in Hb. by apply exact_BlobMetadata, Hb.
Qed.

Lemma parse_CreateFooter `{RapidJson} f : footer_ok f → parse_footer (CreateFooter f) = Ok f.
Proof.
  intros Hf. unfold parse_footer, CreateFooter, string_of_bytes, bytes_of_string.
  rewrite write_no_nul, String.string_of_list_byte_of_string, parse_write by by apply exact_footer.
  by apply footer_roundtrip.
Qed.

(** ** The layout is read back *)

Definition kFlags : bytes := [Byte.x30; Byte.x30; Byte.x30; Byte.x30].
Definition trailer_of (n : Z) : bytes := le_encode 4 n ++ kFlags ++ kPuffinMagicBytes.

Lemma trailer_length n : length (trailer_of n) = 12%nat.
Proof. unfold trailer_of. by rewrite !length_app, le_encode_length. Qed.

Lemma ParseTrailerView_trailer n : in_i32 n → ParseTrailerView (trailer_of n) = Ok n.
Proof.
  intros Hn. unfold ParseTrailerView. rewrite trailer_length. cbn [Nat.ltb Nat.leb].
  assert (substr (trailer_of n) 8 4 = kPuffinMagicBytes) as ->.
  { unfold trailer_of. rewrite app_assoc, <- (app_nil_r kPuffinMagicBytes) at 1. apply substr_app; [|done].
    by rewrite length_app, le_encode_length. }
  assert (substr (trailer_of n) 4 4 = kFlags) as -> by (apply substr_app; [apply le_encode_length|done]).
  assert (substr (trailer_of n) 0 4 = le_encode 4 n) as -> by (apply (substr_app []); [done|apply le_encode_length]).
  rewrite bool_decide_true by done. cbn [negb]. change (Z.land (le_decode kFlags) 1 =? 0) with true. cbn [negb].
  f_equal. rewrite le_decode_encode. change (256 ^ Z.of_nat 4) with (2 ^ 32).
  unfold wrap_s. rewrite Z.mod_mod by done. apply (wrap_s_32_id n Hn).
Qed.

Lemma sv_substr_app a b c pos n :
  pos = Z.of_nat (length a) → n = Z.of_nat (length b) → sv_substr (a ++ b ++ c) pos n = Ok b.
Proof.
  intros -> ->. unfold sv_substr. rewrite !length_app.
  destruct (Z.ltb_spec (Z.of_nat (length a + (length b + length c))) (Z.of_nat (length a))); [lia|].
  f_equal. apply substr_app; [lia|]. lia.
Qed.

Lemma sv_substr_tail a b pos n :
  pos = Z.of_nat (length a) → Z.of_nat (length b) ≤ n → sv_substr (a ++ b) pos n = Ok b.
Proof.
  intros -> Hn. unfold sv_substr, substr. rewrite !length_app.
  destruct (Z.ltb_spec (Z.of_nat (length a + length b)) (Z.of_nat (length a))); [lia|].
  f_equal. rewrite Nat2Z.id, drop_app_length. apply take_ge. lia.
Qed.

Lemma wrap_u_64_id v : in_u64 v → wrap_u 64 v = v.
Proof. intros [H1 H2]. apply Z.mod_small. unfold uint64_max in H2. lia. Qed.

Lemma MakeFooter_layout pre payload :
  let data := pre ++ (kPuffinMagicBytes ++ payload) ++ trailer_of (Z.of_nat (length payload)) in
  Z.of_nat (length data) ≤ int32_max → MakeFooter data = Ok (make_Footer payload).
Proof.
  intros data Hsize. pose proof (trailer_length (Z.of_nat (length payload))) as Ht.
  assert (length data = length pre + (4 + length payload) + 12)%nat as Hd
    by (unfold data; rewrite !length_app, Ht; simpl; lia).
  assert (in_i32 (Z.of_nat (length payload)) ∧ in_i32 (16 + Z.of_nat (length payload)) ∧
          in_i32 (4 + Z.of_nat (length payload))) as (R1 & R2 & R3) by (unfold_ints; lia).
  assert (in_u64 (Z.of_nat (length payload)) ∧ in_u64 (16 + Z.of_nat (length payload)) ∧
          in_u64 (4 + Z.of_nat (length payload)) ∧
          in_u64 (Z.of_nat (length data) - (16 + Z.of_nat (length payload)))) as (U1 & U2 & U3 & U4)
    by (unfold in_u64, uint64_max; unfold_ints; lia).
  unfold MakeFooter. destruct (Z.ltb_spec (Z.of_nat (length data)) 16); [lia|].
  unfold data at 1. rewrite app_assoc, sv_substr_tail.
  2: { fold data. rewrite length_app. simpl length. lia. }
  2: { rewrite Ht. unfold uint64_max. lia. }
  cbn [rbind]. rewrite ParseTrailerView_trailer by done. cbn [rbind].
  rewrite !wrap_s_32_id, (wrap_u_64_id (Z.of_nat (length payload))), (wrap_u_64_id (16 + _)),
    (wrap_u_64_id (4 + _)), wrap_u_64_id by done.
  destruct (Z.ltb_spec (Z.of_nat (length data)) (16 + Z.of_nat (length payload))); [lia|].
  unfold data at 1. rewrite sv_substr_app; [|fold data; lia|rewrite length_app; simpl length; lia].
  cbn [rbind]. unfold ExtractPayload. rewrite length_app.
  change (length kPuffinMagicBytes) with 4%nat. cbn [Nat.ltb Nat.leb Nat.add orb].
  rewrite bool_decide_true by done. done.
Qed.

Section reads.
Context `{RapidJson}.

(** What the loop of [Build] has done for the blobs so far. *)
Lemma append_blobs seq sid bs : ∀ res ms,
  fold_left (append_step seq sid) bs (res, ms) =
  (res ++ concat (b_data <$> bs),
   ms ++ imap (λ i b, blob_metadata seq sid (length res + length (concat (b_data <$> take i bs))) b) bs).
Proof.
  induction bs as [|b bs IH]; intros res ms; [by rewrite !app_nil_r|].
  cbn [fold_left append_step]. rewrite IH. f_equal; [by rewrite fmap_cons; cbn [concat]; rewrite app_assoc|].
  rewrite imap_cons, <- app_assoc. cbn [app]. do 2 f_equal.
  - f_equal. simpl. lia.
  - apply imap_ext. intros i x _. unfold compose. cbn [take]. rewrite fmap_cons. cbn [concat]. f_equal. rewrite !length_app. lia.
Qed.

Definition footer_of (bs : list Blob) (seq sid : Z) : DeserializedFooter :=
  {| blobs := imap (λ i b, blob_metadata seq sid (4 + length (concat (b_data <$> take i bs))) b) bs;
     footer_properties := {["created-by" := "iceberg-cpp"]} |}.

Lemma build_data_layout bs seq sid :
  build_data bs seq sid =
  (kPuffinMagicBytes ++ concat (b_data <$> bs)) ++ (kPuffinMagicBytes ++ CreateFooter (footer_of bs seq sid)) ++
  trailer_of (wrap_s 32 (Z.of_nat (length (CreateFooter (footer_of bs seq sid))))).
Proof.
  unfold build_data. rewrite append_blobs. cbn [app]. unfold footer_of. unfold trailer_of, kFlags.
  by rewrite <- !app_assoc.
Qed.

Record blob_ok (b : Blob) : Prop := {
  bl_type : no_nul (blob_type b);
  bl_fields : Forall in_i32 (b_fields b);
  bl_properties : map_no_nul (b_properties b);
}.

(** A builder with all its parts, whose file is small enough for the 32-bit size
    of the footer. *)
Record builder_ok (b : PuffinFileBuilder) (seq sid : Z) : Prop := {
  bu_blobs : blobs_ b ≠ [];
  bu_sequence : sequence_number_ b = Some seq;
  bu_snapshot : snapshot_id_ b = Some sid;
  bu_ranges : in_i64 seq ∧ in_i64 sid;
  bu_each : Forall blob_ok (blobs_ b);
  bu_size : Z.of_nat (length (build_data (blobs_ b) seq sid)) ≤ int32_max;
}.

Lemma take_concat_length {A} (l : list (list A)) i : (length (concat (take i l)) ≤ length (concat l))%nat.
Proof. rewrite <- (take_drop i l) at 2. rewrite concat_app, length_app. lia. Qed.

Lemma data_length_elem bs b : b ∈ bs → (length (b_data b) ≤ length (concat (b_data <$> bs)))%nat.
Proof.
  intros (l1 & l2 & ->)%list_elem_of_split. rewrite fmap_app, fmap_cons, concat_app. cbn [concat].
  rewrite !length_app. lia.
Qed.

Lemma footer_of_ok b seq sid : builder_ok b seq sid → footer_ok (footer_of (blobs_ b) seq sid).
Proof.
  intros [_ _ _ [Hs1 Hs2] He Hsize]. rewrite build_data_layout, !length_app, trailer_length in Hsize.
  split; [|by apply map_Forall_singleton].
  apply Forall_forall. intros m (i & Hi)%list_elem_of_lookup. cbn [footer_of blobs] in Hi.
  rewrite list_lookup_imap in Hi. apply fmap_Some in Hi as (blob & Hb & ->).
  apply list_elem_of_lookup_2 in Hb. rewrite Forall_forall in He. destruct (He _ Hb) as [H1 H2 H3].
  pose proof (take_concat_length (b_data <$> blobs_ b) i) as Hc. rewrite <- fmap_take in Hc.
  pose proof (data_length_elem _ _ Hb). split; cbn -[in_i64]; try done; unfold_ints; lia.
Qed.

(** The footer of a file is [d], whether it was parsed already or not. *)
Definition cached_as (f : Footer) (d : DeserializedFooter) : Prop :=
  parse_footer (payload_ f) = Ok d ∧
  (deserialized_footer_cache_ f = None ∨ deserialized_footer_cache_ f = Some d).

Lemma GetDeserializedFooter_cached f d :
  cached_as f d → ∃ f', GetDeserializedFooter f = Ok (d, f') ∧ cached_as f' d.
Proof.
  intros [Hp [Hc|Hc]]; unfold GetDeserializedFooter; rewrite Hc.
  - rewrite Hp. cbn [rbind]. eexists. split; [done|]. split; [done|by right].
  - eexists. split; [done|]. split; [done|by right].
Qed.

Lemma GetDeserializedFooter_keeps f d d' f' :
  cached_as f d → GetDeserializedFooter f = Ok (d', f') → cached_as f' d.
Proof. intros (f1 & E & Hf)%GetDeserializedFooter_cached E'. rewrite E in E'. by injection E' as <- <-. Qed.

(** Reads of an object, each leaving its cache behind. *)
Inductive read_step (p : PuffinFile) : PuffinFile → Prop :=
| read_blob i blob p' : puffin_GetBlob p i = Ok (blob, p') → read_step p p'
| read_metadata i m f : GetBlobMetadata (footer_ p) i = Ok (m, f) → read_step p {| data_ := data_ p; footer_ := f |}
| read_count n f : GetBlobsCount (footer_ p) = Ok (n, f) → read_step p {| data_ := data_ p; footer_ := f |}.

Lemma metadata_keeps f d i m f' : cached_as f d → GetBlobMetadata f i = Ok (m, f') → cached_as f' d.
Proof.
  intros Hc E. unfold GetBlobMetadata in E. apply rbind_Ok_inv in E as ([d' f1] & E1 & E).
  destruct (blobs d' !! i); [|done]. injection E as -> ->. by eapply GetDeserializedFooter_keeps.
Qed.

Lemma read_step_keeps p p' d :
  read_step p p' → cached_as (footer_ p) d → data_ p' = data_ p ∧ cached_as (footer_ p') d.
Proof.
  intros [i blob p1 E|i m f E|n f E] Hc.
  - unfold puffin_GetBlob in E. apply rbind_Ok_inv in E as ([m f] & Em & E).
    apply rbind_Ok_inv in E as (u & _ & E). apply rbind_Ok_inv in E as (x & _ & [= _ <-]).
    split; [done|]. by eapply metadata_keeps.
  - split; [done|]. by eapply metadata_keeps.
  - unfold GetBlobsCount in E. apply rbind_Ok_inv in E as ([d' f1] & E1 & [= _ <-]).
    split; [done|]. by eapply GetDeserializedFooter_keeps.
Qed.

Lemma reads_keep p p' d :
  rtc read_step p p' → cached_as (footer_ p) d → data_ p' = data_ p ∧ cached_as (footer_ p') d.
Proof.
  induction 1 as [p|p p1 p2 H1 _ IH]; intros Hc; [done|].
  destruct (read_step_keeps _ _ _ H1 Hc) as [E1 Hc1]. destruct (IH Hc1) as [E2 Hc2]. split; [congruence|done].
Qed.

Lemma GetBlobMetadata_cached f d i m :
  cached_as f d → blobs d !! i = Some m → ∃ f', GetBlobMetadata f i = Ok (m, f').
Proof.
  intros (f1 & E & _)%GetDeserializedFooter_cached Hm. unfold GetBlobMetadata. rewrite E. cbn [rbind].
  rewrite Hm. by eexists.
Qed.

Lemma GetBlob_cached p d i m a blob c :
  cached_as (footer_ p) d → blobs d !! i = Some m → data_ p = a ++ blob ++ c → c ≠ [] →
  bm_offset m = Z.of_nat (length a) → bm_length m = Z.of_nat (length blob) →
  Z.of_nat (length (data_ p)) ≤ int32_max →
  ∃ p', puffin_GetBlob p i = Ok (blob, p').
Proof.
  intros Hc Hm Hd Hne Ho Hl Hs. destruct (GetBlobMetadata_cached _ _ _ _ Hc Hm) as (f & E).
  unfold puffin_GetBlob. rewrite E. cbn [rbind]. rewrite Ho, Hl.
  assert (length c ≠ 0)%nat by by destruct c.
  rewrite Hd, !length_app in *. rewrite wrap_u_64_id by (unfold_ints; lia). rewrite Ensure_true.
  - cbn [rbind]. rewrite sv_substr_app by done. by eexists.
  - apply andb_true_iff. split; [apply andb_true_iff; split; apply Z.leb_le|apply Z.ltb_lt]; lia.
Qed.

Lemma substr_magic c : substr (kPuffinMagicBytes ++ c) 0 4 = kPuffinMagicBytes.
Proof. done. Qed.

Lemma Build_reads b seq sid :
  builder_ok b seq sid →
  ∃ p, Build b = Ok p ∧ data_ p = build_data (blobs_ b) seq sid ∧
       cached_as (footer_ p) (footer_of (blobs_ b) seq sid).
Proof.
  intros Hb. pose proof (footer_of_ok _ _ _ Hb) as Hf. destruct Hb as [Hne H1 H2 _ _ Hs].
  unfold Build. rewrite Ensure_true by by rewrite bool_decide_false. cbn [rbind]. rewrite H1, H2.
  rewrite build_data_layout in Hs |- *. set (payload := CreateFooter _) in *.
  assert (in_i32 (Z.of_nat (length payload))) as Hp by (rewrite !length_app in Hs; unfold_ints; lia).
  rewrite (wrap_s_32_id _ Hp) in Hs |- *.
  unfold make_PuffinFile.
  match goal with |- context [(?n <? 4)%nat] => destruct (Nat.ltb_spec n 4) as [Hlt|_] end.
  { rewrite !length_app in Hlt. simpl in Hlt. lia. }
  rewrite <- (app_assoc kPuffinMagicBytes), substr_magic.
  rewrite bool_decide_true by done. cbn [negb]. rewrite (app_assoc kPuffinMagicBytes).
  rewrite MakeFooter_layout by done. cbn [rbind]. eexists. split; [done|]. split; [done|].
  split; [by apply parse_CreateFooter|by left].
Qed.

Lemma Build_blob p b seq sid i blob :
  builder_ok b seq sid → data_ p = build_data (blobs_ b) seq sid →
  cached_as (footer_ p) (footer_of (blobs_ b) seq sid) → blobs_ b !! i = Some blob →
  (∃ p', puffin_GetBlob p i = Ok (b_data blob, p')) ∧
  (∃ offset f, GetBlobMetadata (footer_ p) i = Ok (blob_metadata seq sid offset blob, f)).
Proof.
  intros Hb Hd Hc Hi.
  assert (∃ m, blobs (footer_of (blobs_ b) seq sid) !! i = Some m ∧
               m = blob_metadata seq sid (4 + length (concat (b_data <$> take i (blobs_ b)))) blob) as (m & Hm & Em).
  { eexists. split; [|done]. cbn [footer_of blobs]. by rewrite list_lookup_imap, Hi. }
  split; [|subst m; destruct (GetBlobMetadata_cached _ _ _ _ Hc Hm) as (f & Ef); by eauto].
  pose proof (bu_size _ _ _ Hb) as Hs. rewrite <- Hd in Hs.
  rewrite build_data_layout in Hd. rewrite <- (take_drop_middle _ _ _ Hi) in Hd at 1.
  rewrite fmap_app, fmap_cons, concat_app in Hd. cbn [concat] in Hd. rewrite <- !app_assoc in Hd.
  rewrite (app_assoc kPuffinMagicBytes) in Hd.
  eapply GetBlob_cached; [done|done|exact Hd| | | |done]; subst m; cbn [blob_metadata bm_offset bm_length].
  - intros E%(f_equal length). rewrite !length_app, trailer_length in E. simpl in E. lia.
  - by rewrite length_app.
  - done.
Qed.

(** A file that [Build] writes, read any number of times in any order,
    returns for each number below the number of blobs the appended data, and the
    type, fields, properties, snapshot and sequence number it was appended with. *)
Theorem puffin_roundtrip (b : PuffinFileBuilder) (seq sid : Z) :
  builder_ok b seq sid →
  ∃ p, Build b = Ok p ∧ ∀ p', rtc read_step p p' →
    (∃ f, GetBlobsCount (footer_ p') = Ok (length (blobs_ b), f)) ∧
    ∀ i blob, blobs_ b !! i = Some blob →
      (∃ p'', puffin_GetBlob p' i = Ok (b_data blob, p'')) ∧
      (∃ offset f, GetBlobMetadata (footer_ p') i = Ok (blob_metadata seq sid offset blob, f)).
Proof.
  intros Hb. destruct (Build_reads b seq sid Hb) as (p & Hp & Hd & Hc). exists p. split; [done|].
  intros p' Hr. destruct (reads_keep _ _ _ Hr Hc) as [Hd' Hc']. rewrite Hd in Hd'. split.
  - destruct (GetDeserializedFooter_cached _ _ Hc') as (f & E & _). unfold GetBlobsCount. rewrite E. cbn [rbind].
    eexists. do 2 f_equal. cbn [footer_of blobs]. apply length_imap.
  - intros i blob Hi. by apply Build_blob with b.
Qed.

(** ** Deletion vectors in Puffin files *)

Context `{Roaring64Map}.

Definition vector_builder (dv : DeletionVector) (blob : bytes) (seq sid : Z) : PuffinFileBuilder :=
  SetSnapshotId sid (SetSequenceNumber seq (AppendBlob blob (GetProperties dv) (fields_ dv) kBlobType empty_builder)).

(** C31: a deletion vector stored in a Puffin file, with [GetBlob] and
    [GetProperties], and taken out of it again, with [GetBlob] and
    [GetBlobMetadata] of the file, deletes the same rows. *)
Theorem deletion_vector_puffin_roundtrip (dv : DeletionVector) (blob : bytes) (seq sid : Z) :
  GetBlob dv = Ok blob → builder_ok (vector_builder dv blob seq sid) seq sid →
  is_Some (properties_ dv !! kReferencedDataFile) → properties_ dv !! "compression-codec" = None →
  ∃ p p' m f dv', Build (vector_builder dv blob seq sid) = Ok p ∧ puffin_GetBlob p 0 = Ok (blob, p') ∧
    GetBlobMetadata (footer_ p') 0 = Ok (m, f) ∧ make_DeletionVector m blob = Ok dv' ∧
    elems (bitmap_ dv') = elems (bitmap_ dv) ∧ properties_ dv' = GetProperties dv.
Proof.
  intros Hg Hb Href Hcod. destruct (Build_reads _ _ _ Hb) as (p & Hp & Hd & Hc).
  destruct (Build_blob p _ seq sid 0 _ Hb Hd Hc eq_refl) as [(p' & Hp') _].
  destruct (read_step_keeps p p' _ (read_blob _ _ _ _ Hp') Hc) as [Hd' Hc']. rewrite Hd in Hd'.
  destruct (Build_blob p' _ seq sid 0 _ Hb Hd' Hc' eq_refl) as [_ (offset & f & Hm)].
  set (m := blob_metadata _ _ _ _) in Hm.
  destruct (described_reads dv m blob) as (dv' & Hv); [done|by split|done..|].
  exists p, p', m, f, dv'. by repeat (split; [done|]).
Qed.
End reads.

(** ** The two readers of the footer *)

(** A file with the given contents: reads inside the file return its bytes. *)
Record file_of (file : RandomAccessFile) (data : bytes) : Prop := {
  fi_size : GetSize file = Ok (Z.of_nat (length data));
  fi_read : ∀ pos n, 0 ≤ pos → 0 ≤ n → pos + n ≤ Z.of_nat (length data) →
            ReadAt file pos n = Ok (substr data (Z.to_nat pos) (Z.to_nat n));
}.

(** On a file whose trailer gives a size of the footer that is neither
    negative nor within 16 of the largest [int32_t], the reader of files and the
    reader of strings find the same footer or the same error. *)
Theorem read_footer_agrees (file : RandomAccessFile) (data : bytes) :
  file_of file data → Z.of_nat (length data) ≤ int64_max →
  (∀ n, ParseTrailerView (substr data (length data - 12) 12) = Ok n → 0 ≤ n ≤ int32_max - 16) →
  ReadFooter file = MakeFooter data.
Proof.
  intros [Hsize Hread] Hl Hn. unfold ReadFooter, MakeFooter. rewrite Hsize. cbn [rbind].
  destruct (Z.ltb_spec (Z.of_nat (length data)) 16) as [|H16]; [done|].
  rewrite Hread by lia. cbn [rbind].
  change (Z.to_nat 12) with 12%nat.
  replace (Z.to_nat (Z.of_nat (length data) - 12)) with (length data - 12)%nat by lia.
  unfold sv_substr at 1. destruct (Z.ltb_spec (Z.of_nat (length data)) (Z.of_nat (length data) - 12)); [lia|].
  replace (substr data (Z.to_nat (Z.of_nat (length data) - 12)) (Z.to_nat (Z.min uint64_max (Z.of_nat (length data)))))
    with (substr data (length data - 12) 12).
  2: { unfold substr. rewrite !take_ge by (rewrite length_drop; unfold_ints; lia). f_equal. lia. }
  cbn [rbind]. destruct (ParseTrailerView (substr data (length data - 12) 12)) as [n|e] eqn:E; [|done].
  specialize (Hn n eq_refl). cbn [rbind].
  rewrite !wrap_s_32_id by (unfold_ints; lia).
  rewrite (wrap_u_64_id n), (wrap_u_64_id (16 + n)), (wrap_u_64_id (4 + n)) by (unfold_ints; lia).
  destruct (Z.ltb_spec (Z.of_nat (length data)) (16 + n)); [done|].
  rewrite wrap_u_64_id by (unfold_ints; lia). rewrite Hread by lia. cbn [rbind].
  unfold sv_substr. destruct (Z.ltb_spec (Z.of_nat (length data)) (Z.of_nat (length data) - (16 + n))); [lia|].
  cbn [rbind]. do 3 f_equal; lia.
Qed.

(** A size of -12 in the trailer passes the check, and the closing magic bytes
    are taken for those before the footer. *)
Theorem negative_footer_size :
  MakeFooter (kPuffinMagicBytes ++ trailer_of (-12)) = Ok (make_Footer []).
Proof. vm_compute. reflexivity. Qed.

(** ** Examples *)

Module PuffinExample.
Definition file (data : bytes) : RandomAccessFile :=
  {| GetSize := Ok (Z.of_nat (length data)); ReadAt := λ pos n, Ok (substr data (Z.to_nat pos) (Z.to_nat n)) |}.
Definition builder : PuffinFileBuilder :=
  SetSnapshotId 7 (SetSequenceNumber 3
    (AppendBlob [Byte.x01; Byte.x02] {["k" := "v"]} [1; 2] "t"
      (AppendBlob [Byte.x03] ∅ [] "u" empty_builder))).
End PuffinExample.

#[local] Existing Instance JsonExample.binary_json.
#[local] Existing Instance PlainBitmap.plain_bitmap.

Lemma example_builder_ok : builder_ok PuffinExample.builder 3 7.
Proof.
  split; [done|done|done|split; unfold_ints; lia| |apply Z.leb_le; vm_compute; reflexivity].
  apply Forall_cons_2; [|apply Forall_cons_2, Forall_nil_2]; split; cbn [blob_type b_fields b_properties]; try done.
  - repeat constructor; unfold_ints; lia.
  - by apply map_Forall_singleton.
Qed.

Lemma puffin_roundtrip_witness :
  ∃ p, Build PuffinExample.builder = Ok p ∧ ∀ p', rtc read_step p p' →
    (∃ f, GetBlobsCount (footer_ p') = Ok (length (blobs_ PuffinExample.builder), f)) ∧
    ∀ i blob, blobs_ PuffinExample.builder !! i = Some blob →
      (∃ p'', puffin_GetBlob p' i = Ok (b_data blob, p'')) ∧
      (∃ offset f, GetBlobMetadata (footer_ p') i = Ok (blob_metadata 3 7 offset blob, f)).
Proof. apply puffin_roundtrip. apply example_builder_ok. Defined.

Lemma deletion_vector_puffin_roundtrip_witness :
  ∃ p p' m f dv', Build (vector_builder PlainBitmap.dv PlainBitmap.blob 3 7) = Ok p ∧
    puffin_GetBlob p 0 = Ok (PlainBitmap.blob, p') ∧
    GetBlobMetadata (footer_ p') 0 = Ok (m, f) ∧ make_DeletionVector m PlainBitmap.blob = Ok dv' ∧
    elems (bitmap_ dv') = [1; 3] ∧ properties_ dv' = GetProperties PlainBitmap.dv.
Proof.
  apply (deletion_vector_puffin_roundtrip PlainBitmap.dv PlainBitmap.blob 3 7).
  - vm_compute. reflexivity.
  - split; [done|done|done|split; unfold_ints; lia| |apply Z.leb_le; vm_compute; reflexivity].
    apply Forall_cons_2, Forall_nil_2. split; cbn [blob_type b_fields b_properties fields_ PlainBitmap.dv]; [done| |].
    { repeat constructor; unfold_ints; lia. }
    unfold map_no_nul, GetProperties. apply map_Forall_insert_2; [done|]. by apply map_Forall_singleton.
  - vm_compute. eexists. reflexivity.
  - vm_compute. reflexivity.
Defined.

Lemma trailer_zero :
  let data := kPuffinMagicBytes ++ kPuffinMagicBytes ++ trailer_of 0 in
  ParseTrailerView (substr data (length data - 12) 12) = Ok 0.
Proof. vm_compute. reflexivity. Qed.

Lemma read_footer_agrees_witness :
  let data := kPuffinMagicBytes ++ kPuffinMagicBytes ++ trailer_of 0 in
  ReadFooter (PuffinExample.file data) = MakeFooter data.
Proof.
  apply read_footer_agrees.
  - by split.
  - vm_compute. discriminate.
  - intros n. rewrite trailer_zero. intros [= <-]. unfold_ints. lia.
Defined.
