(* ===== verification/Literals.v ===== *)
(** * Literals: default values of columns and their JSON form

    [DeserializeLiteral] of [iceberg/literals.cpp] and [SerializeLiteral] of
    [iceberg/table_metadata.cpp].

    Printing of Arrow scalars, the ISO 8601 parser and the parser of decimals
    belong to Arrow: they are a class, whose laws say that dates, times and
    timestamps of the years 1 to 9999 and integral decimals are printed in the form
    the parsers read.  A [static_pointer_cast] to another class than that of the
    object, which is undefined in C++, is an error here. *)

From stdpp Require Import base list strings pretty.
From Stdlib Require Import ZArith Lia.
From Stdlib Require Import Strings.Ascii.
From Stdlib Require Strings.Byte.
From S2P Require Import Prelude Bytes CxxText OrderedMap FilterValue Scalars Types Json.

Local Open Scope Z_scope.

Definition units_per_second (u : ArrowTimeUnit) : Z :=
  match u with SECOND => 1 | MILLI => 1000 | MICRO => 1000000 | NANO => 1000000000 end.

(** The years 1 to 9999, in seconds since the epoch. *)
Definition in_years (s : Z) : Prop := -62135596800 ≤ s < 253402300800.
Definition kMidnight : string := "1970-01-01T".

Class ArrowText := {
  ScalarToString : Scalar → string;
  ParseISO8601 : string → ArrowTimeUnit → option Z;
  Decimal128FromString : string → option Z;
  text_string : ∀ s, ScalarToString (StringScalar s) = s;
  text_binary : ∀ b, ScalarToString (BinaryScalar b) = string_of_bytes b;
  text_fixed : ∀ b w, ScalarToString (FixedSizeBinaryScalar b w) = string_of_bytes b;
  text_decimal : ∀ v p, ScalarToString (Decimal128Scalar v p 0) = pretty v;
  parse_date : ∀ v, in_years (v * 86400) → ParseISO8601 (ScalarToString (Date32Scalar v)) SECOND = Some (v * 86400);
  parse_time : ∀ v, 0 ≤ v < 86400 * 1000000 →
    ParseISO8601 (kMidnight +:+ ScalarToString (Time64Scalar v MICRO)) MICRO = Some v;
  parse_timestamp : ∀ v u tz, in_i64 v → in_years (v / units_per_second u) →
    ParseISO8601 (ScalarToString (TimestampScalar v u tz)) u = Some v;
  parse_decimal : ∀ v, Z.abs v < 10 ^ 38 → Decimal128FromString (pretty v) = Some v;
  parse_decimal_exp : ∀ v, Z.abs v < 10 ^ 38 → Decimal128FromString (pretty v +:+ "E+0") = Some v;
  no_nul_time : ∀ v u, no_nul (ScalarToString (Time64Scalar v u));
}.

(** ** Text *)

Definition hexDigit (v : Z) : Ascii.ascii :=
  match String.get (Z.to_nat v) "0123456789abcdef" with Some c => c | None => Ascii.zero end.

Definition hex_of_byte (b : Byte.byte) : string :=
  String (hexDigit (Z.shiftr (Z_of_byte b) 4)) (String (hexDigit (Z.land (Z_of_byte b) 15)) EmptyString).

Fixpoint ConvertBinaryToHexadecimal (binary : list Byte.byte) : string :=
  match binary with
  | [] => EmptyString
  | b :: binary => hex_of_byte b +:+ ConvertBinaryToHexadecimal binary
  end.

Fixpoint hex_pairs (s : string) : result (list Byte.byte) :=
  match s with
  | String a (String b s) =>
      let! v := stoi16 (String a (String b EmptyString)) in
      let! bytes := hex_pairs s in
      Ok (byte_of_Z v :: bytes)
  | _ => Ok []
  end.

Definition DeserializeHexadecimal (str : string) : result (list Byte.byte) :=
  let! _ := Ensure (Nat.even (String.length str)) "Expected even number of characters" in
  hex_pairs str.

Fixpoint insert_at (n : nat) (c : Ascii.ascii) (s : string) : string :=
  match n, s with
  | S n, String x s => String x (insert_at n c s)
  | _, s => String c s
  end.

Fixpoint remove_char (c : Ascii.ascii) (s : string) : string :=
  match s with
  | EmptyString => EmptyString
  | String x s => if Ascii.eqb x c then remove_char c s else String x (remove_char c s)
  end.

(** [str.back() == '0'], [str.pop_back()]. *)
Fixpoint pop_zero (s : string) : option string :=
  match s with
  | EmptyString => None
  | String c EmptyString => if Ascii.eqb c "0" then Some EmptyString else None
  | String c s => String c <$> pop_zero s
  end.

Fixpoint pop_zeros (n : nat) (s : string) : result string :=
  match n with
  | O => Ok s
  | S n => match pop_zero s with
           | Some s => pop_zeros n s
           | None => Err (Exn "Decimals with a negative scale must have at least -scale zeros at the end")
           end
  end.

Fixpoint zeros (n : nat) : string := match n with O => EmptyString | S n => String "0" (zeros n) end.

(** [str.find("E+")], and the texts before and after. *)
Fixpoint split_exponent (s : string) : option (string * string) :=
  match s with
  | String "E" (String "+" rest) => Some (EmptyString, rest)
  | String c s => (λ p, (String c p.1, p.2)) <$> split_exponent s
  | EmptyString => None
  end.

(** ** Serializing *)

Section literals.
Context `{RapidJson} `{ArrowText}.

Definition bad_cast : result json := Err (Exn "static_pointer_cast to another class").

Definition SerializeDecimal (scale : Z) (s : Scalar) : result json :=
  let! str := pop_zeros (Z.to_nat (- scale)) (ScalarToString s) in
  Ok (JString (str +:+ "E+" +:+ pretty (- scale))).

Definition SerializeUuid (s : Scalar) : result json :=
  let str := ConvertBinaryToHexadecimal (bytes_of_string (ScalarToString s)) in
  let! _ := Ensure (bool_decide (String.length str = 32%nat)) "uuid length must be 32 characters without delimiters" in
  Ok (JString (insert_at 8 "-" (insert_at 12 "-" (insert_at 16 "-" (insert_at 20 "-" str))))).

Definition SerializeBytes (s : Scalar) : result json :=
  Ok (JString (ConvertBinaryToHexadecimal (bytes_of_string (ScalarToString s)))).

Fixpoint SerializeLiteral (type : Type_) (scalar : Scalar) : result json :=
  match type with
  | DecimalType _ scale => SerializeDecimal scale scalar
  | FixedType _ => SerializeBytes scalar
  | ListType _ _ element =>
      match scalar with
      | ListScalar _ values => let! l := map_ok (SerializeLiteral element) values in Ok (JArray l)
      | _ => bad_cast
      end
  | PrimitiveType id =>
      match id with
      | kBoolean => match scalar with BooleanScalar b => Ok (JBool b) | _ => bad_cast end
      | kInt => match scalar with Int32Scalar v => Ok (JInt v) | _ => bad_cast end
      | kLong => match scalar with Int64Scalar v => Ok (JInt v) | _ => bad_cast end
      | kFloat => match scalar with FloatScalar x => Ok (JDouble x) | _ => bad_cast end
      | kDouble => match scalar with DoubleScalar x => Ok (JDouble x) | _ => bad_cast end
      | kDate | kTime | kTimestamp | kTimestamptz | kTimestampNs | kTimestamptzNs | kString =>
          Ok (JString (ScalarToString scalar))
      | kUuid => SerializeUuid scalar
      | kFixed | kBinary => SerializeBytes scalar
      | kDecimal | kList => bad_cast
      | _ => Err (Exn "Unsupported type")
      end
  end.

(** ** Deserializing *)

Fixpoint ConvertToDataType (type : Type_) : result DataType :=
  match type with
  | DecimalType precision scale => Ok (Decimal128Type precision scale)
  | FixedType size => Ok (FixedSizeBinaryType size)
  | ListType _ _ element => let! t := ConvertToDataType element in Ok (ListDataType t)
  | PrimitiveType id =>
      match id with
      | kBoolean => Ok BooleanType
      | kInt => Ok Int32Type
      | kLong => Ok Int64Type
      | kFloat => Ok FloatType
      | kDouble => Ok DoubleType
      | kDate => Ok Date32Type
      | kTime => Ok (Time64Type MICRO)
      | kTimestamp => Ok (TimestampType MICRO EmptyString)
      | kTimestamptz => Ok (TimestampType MICRO "UTC")
      | kTimestampNs => Ok (TimestampType NANO EmptyString)
      | kTimestamptzNs => Ok (TimestampType NANO "UTC")
      | kString => Ok StringType
      | kUuid => Ok (FixedSizeBinaryType 16)
      | kBinary => Ok BinaryType
      | kDecimal | kFixed | kList => Err (Exn "static_pointer_cast to another class")
      | _ => Err (Exn "Unsupported type")
      end
  end.

Definition ExpectString (d : json) : result string :=
  match d with JString s => Ok s | _ => Err (Exn "Expected String value") end.

Definition ParseTime (d : json) (u : ArrowTimeUnit) : result Z :=
  let! s := ExpectString d in
  match ParseISO8601 s u with Some v => Ok v | None => Err (Exn "Failed to parse Date/Timestamp") end.

Definition kMaxPrecision : Z := 38.

Definition DeserializeDecimal (precision scale : Z) (d : json) : result Scalar :=
  let! s := ExpectString d in
  let str := c_str s in
  let! '(str, precision, scale) :=
    (if scale <? 0 then
       match split_exponent str with
       | None => Err (Exn "Negative scale values must be presented in scientific notation")
       | Some (digits, exponent) =>
           let! str_scale := stoi exponent in
           let! _ := Ensure (str_scale =? - scale) "The exponent must equal the negated scale" in
           Ok (digits +:+ zeros (Z.to_nat str_scale), precision + str_scale, 0)
       end
     else Ok (str, precision, scale)) in
  let! _ := Ensure (precision <=? kMaxPrecision) "Decimal precision greater than 38 is unsupported" in
  match Decimal128FromString str with
  | Some v => Ok (Decimal128Scalar v precision scale)
  | None => Err (Exn "failed to convert string to decimal")
  end.

Definition DeserializeFixed (size : Z) (text : string) : result Scalar :=
  let! buffer := DeserializeHexadecimal text in
  let! _ := Ensure (Z.of_nat (length buffer) =? size) "Expected String length" in
  Ok (FixedSizeBinaryScalar buffer size).

(** [ArrayBuilder::AppendScalars] fails on a scalar of another type. *)
Definition AppendScalars (type : DataType) (scalars : list Scalar) : result unit :=
  Ensure (forallb (λ s, bool_decide (scalar_type s = type)) scalars) "Failed to add scalars to ArrayBuilder".

Definition timestamp (d : json) (u : ArrowTimeUnit) (tz : string) : result Scalar :=
  let! v := ParseTime d u in Ok (TimestampScalar v u tz).

Fixpoint DeserializeScalar (type : Type_) (d : json) : result Scalar :=
  match type with
  | DecimalType precision scale => DeserializeDecimal precision scale d
  | FixedType size => let! s := ExpectString d in DeserializeFixed size s
  | ListType _ _ element =>
      match d with
      | JArray l =>
          let! scalars := map_ok (DeserializeScalar element) l in
          let! t := ConvertToDataType element in
          let! _ := AppendScalars t scalars in
          Ok (ListScalar t scalars)
      | _ => Err (Exn "Expected String value")
      end
  | PrimitiveType id =>
      match id with
      | kBoolean => match d with JBool b => Ok (BooleanScalar b) | _ => Err (Exn "assertion failed: IsBool()") end
      | kInt => match as_int32 d with Some v => Ok (Int32Scalar v) | None => Err (Exn "Expected Int value") end
      | kLong => match as_int64 d with Some v => Ok (Int64Scalar v) | None => Err (Exn "Expected Int64 value") end
      | kFloat => match d with
                  | JDouble x => if IsFloat x then Ok (FloatScalar (GetFloat x)) else Err (Exn "Expected Float value")
                  | _ => Err (Exn "Expected Float value")
                  end
      | kDouble => match d with JDouble x => Ok (DoubleScalar x) | _ => Err (Exn "Expected Double value") end
      | kDate => let! v := ParseTime d SECOND in Ok (Date32Scalar (wrap_s 32 (Z.quot v 86400)))
      | kTime => let! s := ExpectString d in
                 match ParseISO8601 (kMidnight +:+ c_str s) MICRO with
                 | Some v => Ok (Time64Scalar v MICRO)
                 | None => Err (Exn "Failed to parse Time")
                 end
      | kTimestamp => timestamp d MICRO EmptyString
      | kTimestamptz => timestamp d MICRO "UTC"
      | kTimestampNs => timestamp d NANO EmptyString
      | kTimestamptzNs => timestamp d NANO "UTC"
      | kString => let! s := ExpectString d in Ok (StringScalar (c_str s))
      | kUuid => let! s := ExpectString d in DeserializeFixed 16 (remove_char "-" s)
      | kBinary => let! s := ExpectString d in let! b := DeserializeHexadecimal s in Ok (BinaryScalar b)
      | kDecimal | kFixed | kList => Err (Exn "static_pointer_cast to another class")
      | _ => Err (Exn "Unsupported type")
      end
  end.

Definition DeserializeLiteral (type : Type_) (d : json) : result Literal :=
  let! s := DeserializeScalar type d in Ok {| scalar_ := s |}.

(** [MakeArrayFromScalar]. *)
Definition MakeColumn (l : Literal) (length : Z) : list Scalar := replicate (Z.to_nat length) (scalar_ l).
End literals.

(** ** Hexadecimal digits are read back *)

Lemma hex_byte_roundtrip b s :
  hex_pairs (hex_of_byte b +:+ s) = let! bytes := hex_pairs s in Ok (b :: bytes).
Proof. by destruct b. Qed.

Lemma hex_pairs_roundtrip l : hex_pairs (ConvertBinaryToHexadecimal l) = Ok l.
Proof. induction l as [|b l IH]; [done|]. cbn [ConvertBinaryToHexadecimal]. by rewrite hex_byte_roundtrip, IH. Qed.

Lemma hex_length l : String.length (ConvertBinaryToHexadecimal l) = (2 * length l)%nat.
Proof. induction l as [|b l IH]; [done|]. cbn [ConvertBinaryToHexadecimal length]. rewrite append_length, IH. simpl. lia. Qed.

Lemma hexadecimal_roundtrip l : DeserializeHexadecimal (ConvertBinaryToHexadecimal l) = Ok l.
Proof.
  unfold DeserializeHexadecimal. rewrite hex_length, Ensure_true; [apply hex_pairs_roundtrip|].
  apply Nat.even_spec. by exists (length l).
Qed.

Lemma remove_insert n c s : remove_char c (insert_at n c s) = remove_char c s.
Proof.
  revert s. induction n as [|n IH]; intros [|x s]; cbn [insert_at remove_char]; rewrite ?Ascii.eqb_refl; try done.
  by rewrite IH.
Qed.

Lemma remove_dash_hex l : remove_char "-" (ConvertBinaryToHexadecimal l) = ConvertBinaryToHexadecimal l.
Proof.
  induction l as [|b l IH]; [done|]. cbn [ConvertBinaryToHexadecimal]. rewrite <- IH at 2. by destruct b.
Qed.

(** ** Decimals *)

Fixpoint no_char (x : Ascii.ascii) (s : string) : bool :=
  match s with EmptyString => true | String c s => negb (Ascii.eqb c x) && no_char x s end.

Lemma no_char_append x a b : no_char x (a +:+ b) = no_char x a && no_char x b.
Proof.
  induction a as [|c a IH]; [done|]. rewrite append_cons. cbn [no_char]. by rewrite IH, andb_assoc.
Qed.

Lemma no_char_go x n : digit_value x = None → ∀ s, no_char x s = true → no_char x (pretty_N_go n s) = true.
Proof.
  intros Hx. induction (N.lt_wf_0 n) as [n _ IH]. intros s Hs.
  destruct (decide (n = 0)%N) as [->|Hn]; [by rewrite pretty_N_go_0|].
  rewrite pretty_N_go_step by lia. pose proof (N.div_lt n 10 ltac:(lia) ltac:(lia)).
  apply IH; [done|]. cbn [no_char]. rewrite Hs, andb_true_r. pose proof (N.mod_lt n 10 ltac:(lia)).
  destruct (Ascii.eqb_spec (pretty_N_char (n mod 10)) x) as [E|]; [|done].
  pose proof (digit_value_char (n mod 10) ltac:(lia)) as Hd. rewrite E in Hd. congruence.
Qed.

Lemma no_char_pretty x (z : Z) : digit_value x = None → x ≠ "-"%char → no_char x (pretty z) = true.
Proof.
  intros Hx Hm. assert (∀ n : N, no_char x (pretty n) = true) as Hn.
  { intros n. unfold pretty, pretty_N. case_decide; [|by apply no_char_go].
    cbn [no_char]. destruct (Ascii.eqb_spec "0" x) as [<-|]; done. }
  destruct z as [|p|p]; [apply (Hn 0%N)|apply (Hn (Npos p))|]. change (no_char x ("-" +:+ pretty (Npos p)) = true).
  rewrite no_char_append, Hn, andb_true_r. cbn [no_char]. destruct (Ascii.eqb_spec "-" x) as [<-|]; done.
Qed.

Lemma no_char_nul s : no_char Ascii.zero s = true → no_nul s.
Proof.
  unfold no_nul. induction s as [|c s IH]; [done|]. cbn [no_char c_str]. intros [Hc Hs]%andb_true_iff.
  apply negb_true_iff in Hc. by rewrite Hc, IH.
Qed.

Lemma split_exponent_ok digits exp :
  no_char "E" digits = true → split_exponent (digits +:+ "E+" +:+ exp) = Some (digits, exp).
Proof.
  induction digits as [|c s IH]; [done|]. rewrite append_cons. cbn [no_char]. intros [Hc Hs]%andb_true_iff.
  destruct c as [[] [] [] [] [] [] [] []]; try discriminate Hc; cbn [split_exponent]; by rewrite IH.
Qed.

Lemma pop_zero_append s : pop_zero (s +:+ "0") = Some s.
Proof.
  induction s as [|c s IH]; [done|]. rewrite append_cons. cbn [pop_zero]. rewrite IH. by destruct s.
Qed.

Lemma zeros_snoc n : zeros (S n) = zeros n +:+ "0".
Proof. induction n as [|n IH]; [done|]. change (zeros (S (S n))) with (String "0" (zeros (S n))). rewrite IH at 1. done. Qed.

Lemma pop_zeros_append n s : pop_zeros n (s +:+ zeros n) = Ok s.
Proof.
  revert s. induction n as [|n IH]; intros s; [by rewrite append_nil_r|]. cbn [pop_zeros].
  by rewrite zeros_snoc, <- append_assoc, pop_zero_append.
Qed.

(** ** Values that survive *)

Section roundtrip.
Context `{RapidJson} `{ArrowText}.

Definition timestamp_ok (v : Z) (u : ArrowTimeUnit) : Prop := in_i64 v ∧ in_years (v / units_per_second u).

(** The scalars a column of the type can have as its default, in the range of
    their type; a decimal with a positive scale is not among them. *)
Fixpoint literal_ok (type : Type_) (s : Scalar) : Prop :=
  match type, s with
  | PrimitiveType kBoolean, BooleanScalar _ | PrimitiveType kDouble, DoubleScalar _
  | PrimitiveType kBinary, BinaryScalar _ => True
  | PrimitiveType kInt, Int32Scalar v => in_i32 v
  | PrimitiveType kLong, Int64Scalar v => in_i64 v
  | PrimitiveType kFloat, FloatScalar x => ∃ bits, x = decode_float bits ∧ IsFloat x = true
  | PrimitiveType kDate, Date32Scalar v => in_years (v * 86400)
  | PrimitiveType kTime, Time64Scalar v u => u = MICRO ∧ 0 ≤ v < 86400 * 1000000
  | PrimitiveType kTimestamp, TimestampScalar v u tz => u = MICRO ∧ tz = EmptyString ∧ timestamp_ok v u
  | PrimitiveType kTimestamptz, TimestampScalar v u tz => u = MICRO ∧ tz = "UTC" ∧ timestamp_ok v u
  | PrimitiveType kTimestampNs, TimestampScalar v u tz => u = NANO ∧ tz = EmptyString ∧ timestamp_ok v u
  | PrimitiveType kTimestamptzNs, TimestampScalar v u tz => u = NANO ∧ tz = "UTC" ∧ timestamp_ok v u
  | PrimitiveType kString, StringScalar s => no_nul s
  | PrimitiveType kUuid, FixedSizeBinaryScalar b w => length b = 16%nat ∧ w = 16
  | DecimalType p scale, Decimal128Scalar v p' scale' =>
      0 < p ∧ scale ≤ 0 ∧ scale' = 0 ∧ p' = p - scale ∧ p' ≤ 38 ∧ Z.abs v < 10 ^ 38 ∧
      ∃ digits, pretty v = digits +:+ zeros (Z.to_nat (- scale))
  | FixedType size, FixedSizeBinaryScalar b w => w = size ∧ Z.of_nat (length b) = size
  | ListType _ _ element, ListScalar t values =>
      ConvertToDataType element = Ok t ∧ Forall (λ s, literal_ok element s ∧ scalar_type s = t) values
  | _, _ => False
  end.

Lemma decimal_roundtrip p scale v p' scale' :
  literal_ok (DecimalType p scale) (Decimal128Scalar v p' scale') →
  ∃ j, SerializeDecimal scale (Decimal128Scalar v p' scale') = Ok j ∧
       DeserializeDecimal p scale j = Ok (Decimal128Scalar v p' scale').
Proof.
  intros (Hp0 & Hs & -> & -> & Hp & Hv & digits & Ed). unfold SerializeDecimal.
  rewrite text_decimal, Ed, pop_zeros_append. cbn [rbind]. eexists. split; [done|].
  pose proof (no_char_pretty "E" v eq_refl ltac:(done)) as HE. rewrite Ed, no_char_append in HE.
  apply andb_true_iff in HE as [HE _].
  pose proof (no_char_pretty Ascii.zero v eq_refl ltac:(done)) as Hz. rewrite Ed, no_char_append in Hz.
  apply andb_true_iff in Hz as [Hz _].
  unfold DeserializeDecimal. cbn [ExpectString rbind].
  assert (c_str (digits +:+ "E+" +:+ pretty (- scale)) = digits +:+ "E+" +:+ pretty (- scale)) as ->.
  { apply no_char_nul. by rewrite !no_char_append, Hz, no_char_pretty. }
  destruct (Z.ltb_spec scale 0) as [Hn|Hn].
  - rewrite split_exponent_ok by done. rewrite stoi_pretty by (unfold_ints; lia). cbn [rbind].
    rewrite Z.eqb_refl. cbn [Ensure rbind]. rewrite <- Ed, Ensure_true by (apply Z.leb_le; unfold kMaxPrecision; lia).
    cbn [rbind]. by rewrite parse_decimal.
  - assert (scale = 0) as -> by lia. cbn [rbind]. cbn in Ed. rewrite append_nil_r in Ed. subst digits.
    rewrite Ensure_true by (apply Z.leb_le; unfold kMaxPrecision; lia). cbn [rbind].
    rewrite (parse_decimal_exp v) by done. do 2 f_equal. lia.
Qed.

Lemma fixed_roundtrip size b text :
  Z.of_nat (length b) = size → text = ConvertBinaryToHexadecimal b →
  DeserializeFixed size text = Ok (FixedSizeBinaryScalar b size).
Proof.
  intros Hl ->. unfold DeserializeFixed. rewrite hexadecimal_roundtrip. cbn [rbind].
  by rewrite Ensure_true by by apply Z.eqb_eq.
Qed.

Lemma string_bytes b : bytes_of_string (string_of_bytes b) = b.
Proof. apply String.list_byte_of_string_of_list_byte. Qed.

Lemma ParseTime_ok s u v : ParseISO8601 s u = Some v → ParseTime (JString s) u = Ok v.
Proof. intros E. unfold ParseTime. cbn [ExpectString rbind]. by rewrite E. Qed.

Lemma timestamp_roundtrip v u tz :
  timestamp_ok v u →
  timestamp (JString (ScalarToString (TimestampScalar v u tz))) u tz = Ok (TimestampScalar v u tz).
Proof. intros [Hv Hy]. unfold timestamp. by rewrite (ParseTime_ok _ _ v) by by apply parse_timestamp. Qed.

Lemma date_roundtrip v :
  in_years (v * 86400) →
  (let! x := ParseTime (JString (ScalarToString (Date32Scalar v))) SECOND in
   Ok (Date32Scalar (wrap_s 32 (Z.quot x 86400)))) = Ok (Date32Scalar v).
Proof.
  intros Hy. rewrite (ParseTime_ok _ _ (v * 86400)) by by apply parse_date. cbn [rbind].
  rewrite Z.quot_mul by done. rewrite wrap_s_32_id; [done|]. unfold in_years in Hy. unfold_ints. lia.
Qed.

Lemma uuid_roundtrip b :
  length b = 16%nat →
  ∃ j, SerializeUuid (FixedSizeBinaryScalar b 16) = Ok j ∧
       DeserializeScalar (PrimitiveType kUuid) j = Ok (FixedSizeBinaryScalar b 16).
Proof.
  intros Hl. unfold SerializeUuid. rewrite text_fixed, string_bytes, hex_length, Hl. cbn [bool_decide Ensure rbind].
  eexists. split; [done|]. cbn [DeserializeScalar ExpectString rbind]. rewrite !remove_insert, remove_dash_hex.
  apply fixed_roundtrip; [lia|done].
Qed.

Lemma values_roundtrip e t values :
  (∀ s, literal_ok e s → ∃ j, SerializeLiteral e s = Ok j ∧ DeserializeScalar e j = Ok s) →
  Forall (λ s, literal_ok e s ∧ scalar_type s = t) values →
  ∃ js, map_ok (SerializeLiteral e) values = Ok js ∧ map_ok (DeserializeScalar e) js = Ok values ∧
        AppendScalars t values = Ok ().
Proof.
  intros IH. induction 1 as [|s values [Hs Ht] _ (js & E1 & E2 & E3)]; [by exists []|].
  destruct (IH s Hs) as (j & Ej & Dj). exists (j :: js). cbn [map_ok]. rewrite Ej, E1, Dj, E2.
  repeat split. unfold AppendScalars in *. cbn [forallb]. by rewrite bool_decide_true by done.
Qed.

(** The default value of a column, written to JSON and read back with the
    type of the column, is the same value. *)
Lemma literal_survives (type : Type_) (s : Scalar) :
  literal_ok type s → ∃ j, SerializeLiteral type s = Ok j ∧ DeserializeScalar type j = Ok s.
Proof.
  revert s. induction type as [id|p sc|size|eid req e IH]; intros s Hs.
  - destruct id; try done; destruct s; try done; cbn [SerializeLiteral]; try (by eexists).
    + eexists. split; [done|]. cbn [DeserializeScalar]. by rewrite as_int32_ok.
    + eexists. split; [done|]. cbn [DeserializeScalar]. by rewrite as_int64_ok.
    + destruct Hs as (bits & -> & Hf). eexists. split; [done|]. cbn [DeserializeScalar]. by rewrite Hf, GetFloat_float.
    + eexists. split; [done|]. by apply date_roundtrip.
    + destruct Hs as [-> Hv]. eexists. split; [done|]. cbn [DeserializeScalar ExpectString rbind].
      rewrite no_nul_time, parse_time by done. done.
    + destruct Hs as (-> & -> & Hv). eexists. split; [done|]. by apply timestamp_roundtrip.
    + destruct Hs as (-> & -> & Hv). eexists. split; [done|]. by apply timestamp_roundtrip.
    + destruct Hs as (-> & -> & Hv). eexists. split; [done|]. by apply timestamp_roundtrip.
    + destruct Hs as (-> & -> & Hv). eexists. split; [done|]. by apply timestamp_roundtrip.
    + eexists. split; [done|]. cbn [DeserializeScalar ExpectString rbind]. rewrite text_string. by rewrite Hs.
    + destruct Hs as [Hl ->]. by apply uuid_roundtrip.
    + eexists. split; [done|]. cbn [DeserializeScalar ExpectString rbind].
      by rewrite text_binary, string_bytes, hexadecimal_roundtrip.
  - destruct s; try done. by apply decimal_roundtrip.
  - destruct s; try done. destruct Hs as [-> Hl]. eexists. split; [done|].
    cbn [DeserializeScalar ExpectString rbind]. rewrite text_fixed, string_bytes. by apply fixed_roundtrip.
  - destruct s; try done. destruct Hs as [Et Hv]. destruct (values_roundtrip e _ _ IH Hv) as (js & E1 & E2 & E3).
    cbn [SerializeLiteral]. rewrite E1. cbn [rbind]. eexists. split; [done|]. cbn [DeserializeScalar].
    rewrite E2. cbn [rbind]. rewrite Et. cbn [rbind]. rewrite E3. done.
Qed.
End roundtrip.

(** ** An implementation of the class, for examples: times are printed as numbers *)

Module TextExample.
Definition parse_Z (s : string) : option Z :=
  let '(neg, s) := take_sign s in
  if starts_with_digit digit_value s then
    match take_digits 10 digit_value 0 s with
    | (v, EmptyString) => Some (if neg : bool then - v else v)
    | _ => None
    end
  else None.

Lemma parse_Z_pretty z : parse_Z (pretty z) = Some z.
Proof.
  destruct (take_signed z EmptyString eq_refl) as (neg & s & _ & E2 & E3 & v & E4 & E5).
  rewrite append_nil_r in E2. unfold parse_Z. by rewrite E2, E3, E4, E5.
Qed.

Definition to_text (s : Scalar) : string :=
  match s with
  | StringScalar s => s
  | BinaryScalar b | FixedSizeBinaryScalar b _ => string_of_bytes b
  | Decimal128Scalar v _ _ | Time64Scalar v _ | TimestampScalar v _ _ => pretty v
  | Date32Scalar v => pretty (v * 86400)
  | _ => EmptyString
  end.

Definition parse_iso (s : string) (u : ArrowTimeUnit) : option Z :=
  match parse_Z s with Some v => Some v | None => parse_Z (drop_chars 11 s).1 end.

Definition parse_decimal_text (s : string) : option Z :=
  match parse_Z s with
  | Some v => Some v
  | None => match split_exponent s with Some (digits, "0") => parse_Z digits | _ => None end
  end.

#[local] Obligation Tactic := idtac.
#[export] Program Instance text : ArrowText :=
  {| ScalarToString := to_text; ParseISO8601 := parse_iso; Decimal128FromString := parse_decimal_text |}.
Next Obligation. done. Qed.
Next Obligation. done. Qed.
Next Obligation. done. Qed.
Next Obligation. done. Qed.
Next Obligation. intros v _. unfold parse_iso. cbn [to_text]. by rewrite parse_Z_pretty. Qed.
Next Obligation.
  intros v _. unfold parse_iso. cbn [to_text]. rewrite <- (parse_Z_pretty v). done.
Qed.
Next Obligation. intros v u tz _ _. unfold parse_iso. cbn [to_text]. by rewrite parse_Z_pretty. Qed.
Next Obligation. intros v _. unfold parse_decimal_text. by rewrite parse_Z_pretty. Qed.
Next Obligation.
  intros v _. unfold parse_decimal_text.
  destruct (take_signed v "E+0" eq_refl) as (neg & s & _ & E2 & E3 & w & E4 & E5).
  unfold parse_Z at 1. rewrite E2, E3, E4.
  change "E+0" with ("E+" +:+ "0"). rewrite split_exponent_ok by by apply no_char_pretty. apply parse_Z_pretty.
Qed.
Next Obligation. intros v u. by apply no_char_nul, no_char_pretty. Qed.
End TextExample.

(** A decimal with a positive scale is written with the exponent [E+-scale],
    which is no exponent. *)
Theorem positive_scale_text `{ArrowText} s :
  ScalarToString s = "123.45" → SerializeLiteral (DecimalType 10 2) s = Ok (JString "123.45E+-2").
Proof. intros E. cbn [SerializeLiteral]. unfold SerializeDecimal. by rewrite E. Qed.
