(* ===== verification/MetadataJson.v ===== *)
(** * MetadataJson: table metadata files

    [WriteTableMetadataV2] and [ReadTableMetadataV2] of
    [iceberg/table_metadata.cpp].  A writer returns the members it adds to its
    document.  The type strings are parsed through a [std::stringstream], whose
    target for the size of [fixed] is not initialized: its value is a parameter. *)

From stdpp Require Import base list sorting strings pretty.
From Stdlib Require Import ZArith Lia.
From Stdlib Require Import Strings.Ascii.
From S2P Require Import Prelude Bytes CxxText OrderedMap FilterValue Scalars Types ScanTypes TableMetadata Json Literals.

Local Open Scope Z_scope.

Module Names.
Definition format_version : string := "format-version".
Definition table_uuid : string := "table-uuid".
Definition location : string := "location".
Definition last_sequence_number : string := "last-sequence-number".
Definition last_updated_ms : string := "last-updated-ms".
Definition last_column_id : string := "last-column-id".
Definition current_schema_id : string := "current-schema-id".
Definition schemas : string := "schemas".
Definition partition_specs : string := "partition-specs".
Definition default_spec_id : string := "default-spec-id".
Definition last_partition_id : string := "last-partition-id".
Definition properties : string := "properties".
Definition current_snapshot_id : string := "current-snapshot-id".
Definition snapshots : string := "snapshots".
Definition snapshot_log : string := "snapshot-log".
Definition metadata_log : string := "metadata-log".
Definition sort_orders : string := "sort-orders".
Definition default_sort_order_id : string := "default-sort-order-id".
Definition refs : string := "refs".
Definition fields : string := "fields".
Definition type : string := "type".
Definition list : string := "list".
Definition element_id : string := "element-id".
Definition element_required : string := "element-required".
Definition element : string := "element".
Definition struct_ : string := "struct".
Definition schema_id : string := "schema-id".
Definition id : string := "id".
Definition name : string := "name".
Definition required : string := "required".
Definition initial_default : string := "initial-default".
Definition write_default : string := "write-default".
Definition source_id : string := "source-id".
Definition field_id : string := "field-id".
Definition transform : string := "transform".
Definition spec_id : string := "spec-id".
Definition snapshot_id : string := "snapshot-id".
Definition parent_snapshot_id : string := "parent-snapshot-id".
Definition sequence_number : string := "sequence-number".
Definition timestamp_ms : string := "timestamp-ms".
Definition operation : string := "operation".
Definition summary : string := "summary".
Definition manifest_list : string := "manifest-list".
Definition metadata_file : string := "metadata-file".
Definition order_id : string := "order-id".
Definition direction : string := "direction".
Definition null_order : string := "null-order".
Definition asc : string := "asc".
Definition desc : string := "desc".
Definition nulls_first : string := "nulls-first".
Definition nulls_last : string := "nulls-last".
Definition min_snapshots_to_keep : string := "min-snapshots-to-keep".
Definition max_snapshot_age_ms : string := "max-snapshot-age-ms".
Definition max_ref_age_ms : string := "max-ref-age-ms".
Definition statistics : string := "statistics".
Definition statistics_path : string := "statistics-path".
Definition file_size_in_bytes : string := "file-size-in-bytes".
Definition file_footer_size_in_bytes : string := "file-footer-size-in-bytes".
Definition blob_metadata : string := "blob-metadata".
End Names.

Definition member : Type := string * json.
Definition opt_member (name : string) (o : option json) : list member :=
  match o with Some v => [(name, v)] | None => [] end.
(** [if (container.empty()) return;]. *)
Definition unless_empty {A} (l : list A) (v : json) : option json := match l with [] => None | _ => Some v end.

Section metadata_json.
Context `{RapidJson} `{ArrowText} (uninitialized : Z).

(** ** Writer *)

Fixpoint WriteDataType (type : Type_) (field_name : string) : result (list member) :=
  match type with
  | ListType element_id element_required element_type =>
      let! element := WriteDataType element_type Names.element in
      Ok [(field_name, JObject ([(Names.type, JString Names.list); (Names.element_id, JInt element_id);
                                 (Names.element_required, JBool element_required)] ++ element))]
  | _ => let! s := ToString type in Ok [(field_name, JString s)]
  end.

Definition WriteDefault (name : string) (type : Type_) (literal : option Literal) : result (list member) :=
  match literal with
  | None => Ok []
  | Some l => let! j := SerializeLiteral type (scalar_ l) in Ok [(name, j)]
  end.

Definition WriteField (field : NestedField) : result json :=
  let! type := WriteDataType (nf_type field) Names.type in
  let! initial := WriteDefault Names.initial_default (nf_type field) (nf_initial_default field) in
  let! write := WriteDefault Names.write_default (nf_type field) (nf_write_default field) in
  Ok (JObject ([(Names.id, JInt (nf_field_id field)); (Names.name, JString (nf_name field));
                (Names.required, JBool (nf_is_required field))] ++ type ++ initial ++ write)).

Definition WriteSchema (s : Schema) : result json :=
  let! fields := map_ok WriteField (Columns s) in
  Ok (JObject [(Names.type, JString Names.struct_); (Names.schema_id, JInt (schema_id_ s));
               (Names.fields, JArray fields)]).

Definition WriteSchemas (array : list Schema) : result (list member) :=
  let! l := map_ok WriteSchema array in Ok [(Names.schemas, JArray l)].

Definition WritePartitionField (f : PartitionField) : json :=
  JObject [(Names.source_id, JInt (source_id f)); (Names.field_id, JInt (pf_field_id f));
           (Names.name, JString (pf_name f)); (Names.transform, JString (transform f))].

Definition WritePartitionSpec (array : list PartitionSpec) : list member :=
  [(Names.partition_specs,
    JArray (List.map (λ s, JObject [(Names.spec_id, JInt (spec_id s));
                                    (Names.fields, JArray (List.map WritePartitionField (spec_fields s)))]) array))].

Definition WriteStringMap (values : list (string * string)) : list member :=
  List.map (λ e, (e.1, JString e.2)) values.

Definition WriteSnapshot (snap : Snapshot) : result json :=
  let! _ := Ensure (bool_decide (is_Some (mfind Names.operation (summary snap)))) "no operation in summary" in
  Ok (JObject ([(Names.sequence_number, JInt (snap_sequence_number snap)); (Names.snapshot_id, JInt (snapshot_id snap))] ++
               opt_member Names.parent_snapshot_id (JInt <$> parent_snapshot_id snap) ++
               [(Names.timestamp_ms, JInt (snap_timestamp_ms snap));
                (Names.summary, JObject (WriteStringMap (summary snap)));
                (Names.manifest_list, JString (manifest_list_location snap))] ++
               opt_member Names.schema_id (JInt <$> snap_schema_id snap))).

Definition WriteSnapshots (snaps : list Snapshot) : result (list member) :=
  let! l := map_ok WriteSnapshot snaps in Ok (opt_member Names.snapshots (unless_empty snaps (JArray l))).

Definition WriteProperties (values : list (string * string)) : list member :=
  opt_member Names.properties (unless_empty values (JObject (WriteStringMap values))).

Definition WriteBlobMetadata (b : BlobMetadata) : json :=
  JObject (WriteProperties (blob_properties b) ++
           [(Names.sequence_number, JInt (blob_sequence_number b)); (Names.snapshot_id, JInt (blob_snapshot_id b));
            (Names.type, JString (blob_type b)); (Names.fields, JArray (List.map JInt (blob_field_ids b)))]).

Definition WriteStatistic (s : Statistics) : json :=
  JObject [(Names.statistics_path, JString (statistics_path s)); (Names.snapshot_id, JInt (stat_snapshot_id s));
           (Names.file_size_in_bytes, JInt (file_size_in_bytes s));
           (Names.file_footer_size_in_bytes, JInt (file_footer_size_in_bytes s));
           (Names.blob_metadata, JArray (List.map WriteBlobMetadata (stat_blob_metadata s)))].

Definition WriteStatistics (stats : list Statistics) : list member :=
  [(Names.statistics, JArray (List.map WriteStatistic stats))].

Definition WriteSnapshotLogEntry (e : SnapshotLog) : json :=
  JObject [(Names.timestamp_ms, JInt (log_timestamp_ms e)); (Names.snapshot_id, JInt (log_snapshot_id e))].

Definition WriteSnapshotLog (log : list SnapshotLog) : list member :=
  opt_member Names.snapshot_log (unless_empty log (JArray (List.map WriteSnapshotLogEntry log))).

Definition WriteMetadataLogEntry (e : MetadataLog) : json :=
  JObject [(Names.timestamp_ms, JInt (ml_timestamp_ms e)); (Names.metadata_file, JString (metadata_file e))].

Definition WriteMetadataLog (log : list MetadataLog) : list member :=
  opt_member Names.metadata_log (unless_empty log (JArray (List.map WriteMetadataLogEntry log))).

Definition WriteSortField (f : SortField) : json :=
  JObject [(Names.transform, JString (sf_transform f)); (Names.source_id, JInt (sf_source_id f));
           (Names.direction, JString (match sf_direction f with kAsc => Names.asc | kDesc => Names.desc end));
           (Names.null_order,
            JString (match sf_null_order f with kNullsFirst => Names.nulls_first | kNullsLast => Names.nulls_last end))].

Definition WriteSortOrder (array : list SortOrder) : list member :=
  [(Names.sort_orders,
    JArray (List.map (λ s, JObject [(Names.order_id, JInt (order_id s));
                                    (Names.fields, JArray (List.map WriteSortField (sort_fields s)))]) array))].

Definition WriteRefField (r : SnapshotRef) : json :=
  JObject ([(Names.snapshot_id, JInt (ref_snapshot_id r)); (Names.type, JString (ref_type r))] ++
           opt_member Names.min_snapshots_to_keep (JInt <$> min_snapshots_to_keep r) ++
           opt_member Names.max_snapshot_age_ms (JInt <$> max_snapshot_age_ms r) ++
           opt_member Names.max_ref_age_ms (JInt <$> max_ref_age_ms r)).

Definition WriteRefs (values : list (string * SnapshotRef)) : list member :=
  opt_member Names.refs (unless_empty values (JObject (List.map (λ e, (e.1, WriteRefField e.2)) values))).

(** The document of [WriteTableMetadataV2]. *)
Definition document_members (m : TableMetadataV2) (schemas snapshots : list member) : list member :=
  [(Names.format_version, JInt 2); (Names.table_uuid, JString (table_uuid m)); (Names.location, JString (location m));
   (Names.last_sequence_number, JInt (last_sequence_number m)); (Names.last_updated_ms, JInt (last_updated_ms m));
   (Names.last_column_id, JInt (last_column_id m)); (Names.current_schema_id, JInt (current_schema_id m))] ++
  schemas ++ [(Names.default_spec_id, JInt (default_spec_id m))] ++ WritePartitionSpec (partition_specs m) ++
  [(Names.last_partition_id, JInt (last_partition_id m));
   (Names.default_sort_order_id, JInt (default_sort_order_id m))] ++
  WriteSortOrder (sort_orders m) ++ WriteProperties (table_properties m) ++ WriteStatistics (statistics m) ++
  opt_member Names.current_snapshot_id (JInt <$> current_snapshot_id m) ++ WriteRefs (refs m) ++ snapshots ++
  WriteSnapshotLog (snapshot_log m) ++ WriteMetadataLog (metadata_log m).

Definition WriteDocument (m : TableMetadataV2) : result json :=
  let! schemas := WriteSchemas (schemas m) in
  let! snapshots := WriteSnapshots (snapshots m) in
  Ok (JObject (document_members m schemas snapshots)).

Definition WriteTableMetadataV2 (m : TableMetadataV2) (pretty : bool) : result string :=
  let! d := WriteDocument m in
  Ok (c_str (if pretty then PrettyWrite d else Write d)).

(** ** Reader *)

Definition ProcessArray {A} (f : json → result A) (array : json) : result (list A) :=
  match array with JArray l => map_ok f l | _ => Err (Exn "!array.IsArray()") end.

Definition ExtractArray {A} (f : json → result A) (d : json) (field_name : string) : result (list A) :=
  let! has := HasMember d field_name in
  let! _ := Ensure has "!document.HasMember" in
  let! v := get_member d field_name in
  ProcessArray f v.

Definition ExtractOptional {A} (f : json → result A) (d : json) (field_name : string) : result (option A) :=
  let! has := HasMember d field_name in
  if has : bool then let! v := get_member d field_name in let! a := f v in Ok (Some a) else Ok None.

Definition parse_decimal_type (str : string) : result Type_ :=
  let ss := ignore 8 (stream_of str) in
  let '(precision, ss) := extract_int ss (-1) in
  let ss := ignore 1 ss in
  let '(scale, _) := extract_int ss (-1) in
  make_DecimalType precision scale.

Definition parse_fixed_type (str : string) : result Type_ :=
  let ss := ignore 6 (stream_of str) in
  let '(size, _) := extract_int ss uninitialized in
  make_FixedType size.

Fixpoint JsonToDataType_fuel (fuel : nat) (value : json) : result Type_ :=
  match fuel with
  | O => Err (Exn "out of fuel")
  | S fuel =>
      match value with
      | JString s =>
          let str := c_str s in
          match NameToPrimitiveType str with
          | Some id => Ok (PrimitiveType id)
          | None =>
              if String.prefix "decimal" str then parse_decimal_type str
              else if String.prefix "fixed" str then parse_fixed_type str
              else Err (Exn "unknown type")
          end
      | JObject _ =>
          let! has := HasMember value Names.type in
          let! _ := Ensure has "!value.HasMember type" in
          let! type := ExtractStringField value Names.type in
          if String.eqb type Names.list then
            let! element_field_id := ExtractInt32Field value Names.element_id in
            let! element_required := ExtractBooleanField value Names.element_required in
            let! has := HasMember value Names.element in
            let! _ := Ensure has "!value.HasMember element" in
            let! element := get_member value Names.element in
            let! element_type := JsonToDataType_fuel fuel element in
            Ok (ListType element_field_id element_required element_type)
          else Err (Exn "unknown type")
      | _ => Err (Exn "unknown type")
      end
  end.

(** Each element type is a member of the document before: its depth is enough. *)
Definition JsonToDataType (value : json) : result Type_ := JsonToDataType_fuel (json_depth value) value.

Definition ExtractOptionalLiteral (d : json) (field_name : string) (type : Type_) : result (option Literal) :=
  ExtractOptional (DeserializeLiteral type) d field_name.

Definition JsonToField (d : json) : result NestedField :=
  let! field_id := ExtractInt32Field d Names.id in
  let! name := ExtractStringField d Names.name in
  let! is_required := ExtractBooleanField d Names.required in
  let! has := HasMember d Names.type in
  let! _ := Ensure has "document.HasMember type" in
  let! v := get_member d Names.type in
  let! type := JsonToDataType v in
  let! initial_default := ExtractOptionalLiteral d Names.initial_default type in
  let! write_default := ExtractOptionalLiteral d Names.write_default type in
  Ok {| nf_name := name; nf_field_id := field_id; nf_is_required := is_required; nf_type := type;
        nf_initial_default := initial_default; nf_write_default := write_default |}.

Definition ExtractSchemaFields (d : json) : result (list NestedField) := ExtractArray JsonToField d Names.fields.

Definition EnsureIsObject (d : json) : result unit := Ensure (IsObject d) "!document.IsObject()".

Definition JsonToSchema (d : json) : result Schema :=
  let! _ := EnsureIsObject d in
  let! schema_id := ExtractInt32Field d Names.schema_id in
  let! fields := ExtractSchemaFields d in
  Ok {| schema_id_ := schema_id; fields_ := fields |}.

Definition ExtractSchemas (d : json) : result (list Schema) := ExtractArray JsonToSchema d Names.schemas.

Definition JsonToPartitionField (d : json) : result PartitionField :=
  let! source_id := ExtractInt32Field d Names.source_id in
  let! field_id := ExtractInt32Field d Names.field_id in
  let! name := ExtractStringField d Names.name in
  let! transform := ExtractStringField d Names.transform in
  Ok {| source_id := source_id; pf_field_id := field_id; pf_name := name; transform := transform |}.

Definition JsonPartitionSpec (d : json) : result PartitionSpec :=
  let! _ := EnsureIsObject d in
  let! id := ExtractInt32Field d Names.spec_id in
  let! fields := ExtractArray JsonToPartitionField d Names.fields in
  Ok {| spec_id := id; spec_fields := fields |}.

Definition ExtractPartitionSpecs (d : json) : result (list PartitionSpec) :=
  ExtractArray JsonPartitionSpec d Names.partition_specs.

Definition JsonToSnapshot (d : json) : result Snapshot :=
  let! _ := EnsureIsObject d in
  let! snapshot_id := ExtractInt64Field d Names.snapshot_id in
  let! parent := ExtractOptionalInt64Field d Names.parent_snapshot_id in
  let! sequence_number := ExtractInt64Field d Names.sequence_number in
  let! timestamp_ms := ExtractInt64Field d Names.timestamp_ms in
  let! manifest_list := ExtractStringField d Names.manifest_list in
  let! summary := ExtractStringMap d Names.summary in
  let! _ := Ensure (bool_decide (is_Some (mfind Names.operation summary))) "!summary.contains operation" in
  let! schema_id := ExtractOptionalInt64Field d Names.schema_id in
  Ok {| snapshot_id := snapshot_id; parent_snapshot_id := parent; snap_sequence_number := sequence_number;
        snap_timestamp_ms := timestamp_ms; manifest_list_location := manifest_list; summary := summary;
        snap_schema_id := schema_id |}.

Definition JsonToFieldId (d : json) : result Z :=
  match as_int32 d with Some v => Ok v | None => Err (Exn "!document.IsInt()") end.

Definition JsonToBlobMetadata (d : json) : result BlobMetadata :=
  let! type := ExtractStringField d Names.type in
  let! snapshot_id := ExtractInt64Field d Names.snapshot_id in
  let! sequence_number := ExtractInt64Field d Names.sequence_number in
  let! field_ids := ExtractArray JsonToFieldId d Names.fields in
  let! properties := ExtractStringMap d Names.properties in
  Ok {| blob_type := type; blob_snapshot_id := snapshot_id; blob_sequence_number := sequence_number;
        blob_field_ids := field_ids; blob_properties := properties |}.

Definition JsonToStatistics (d : json) : result Statistics :=
  let! _ := EnsureIsObject d in
  let! path := ExtractStringField d Names.statistics_path in
  let! snapshot_id := ExtractInt64Field d Names.snapshot_id in
  let! size := ExtractInt64Field d Names.file_size_in_bytes in
  let! footer_size := ExtractInt64Field d Names.file_footer_size_in_bytes in
  let! blobs := ExtractArray JsonToBlobMetadata d Names.blob_metadata in
  Ok {| stat_snapshot_id := snapshot_id; statistics_path := path; file_size_in_bytes := size;
        file_footer_size_in_bytes := footer_size; key_metadata := None; stat_blob_metadata := blobs |}.

Definition ExtractSnapshots (d : json) : result (option (list Snapshot)) :=
  ExtractOptional (ProcessArray JsonToSnapshot) d Names.snapshots.

Definition JsonToSnapshotLogEntry (d : json) : result SnapshotLog :=
  let! _ := EnsureIsObject d in
  let! timestamp_ms := ExtractInt64Field d Names.timestamp_ms in
  let! snapshot_id := ExtractInt64Field d Names.snapshot_id in
  Ok {| log_timestamp_ms := timestamp_ms; log_snapshot_id := snapshot_id |}.

Definition ExtractSnapshotLog (d : json) : result (option (list SnapshotLog)) :=
  ExtractOptional (ProcessArray JsonToSnapshotLogEntry) d Names.snapshot_log.

Definition JsonToMetadataLogEntry (d : json) : result MetadataLog :=
  let! _ := EnsureIsObject d in
  let! timestamp_ms := ExtractInt64Field d Names.timestamp_ms in
  let! file := ExtractStringField d Names.metadata_file in
  Ok {| ml_timestamp_ms := timestamp_ms; metadata_file := file |}.

Definition ExtractMetadataLog (d : json) : result (option (list MetadataLog)) :=
  ExtractOptional (ProcessArray JsonToMetadataLogEntry) d Names.metadata_log.

Definition ExtractProperties (d : json) : result (option (list (string * string))) :=
  ExtractOptional JsonToStringMap d Names.properties.

Definition JsonToSortField (d : json) : result SortField :=
  let! _ := EnsureIsObject d in
  let! direction := ExtractStringField d Names.direction in
  let! null_order := ExtractStringField d Names.null_order in
  let! transform := ExtractStringField d Names.transform in
  let! source_id := ExtractInt32Field d Names.source_id in
  Ok {| sf_transform := transform; sf_source_id := source_id;
        sf_direction := if String.eqb direction Names.asc || String.eqb direction "ASC" then kAsc else kDesc;
        sf_null_order := if String.eqb null_order Names.nulls_first then kNullsFirst else kNullsLast |}.

(** A missing [fields] member is an assertion here. *)
Definition JsonToSortOrders (d : json) : result SortOrder :=
  let! _ := EnsureIsObject d in
  let! id := ExtractInt32Field d Names.order_id in
  let! v := get_member d Names.fields in
  let! fields := ProcessArray JsonToSortField v in
  Ok {| order_id := id; sort_fields := fields |}.

Definition ExtractSortOrders (d : json) : result (list SortOrder) := ExtractArray JsonToSortOrders d Names.sort_orders.

Definition JsonToRef (d : json) : result SnapshotRef :=
  let! _ := EnsureIsObject d in
  let! snapshot_id := ExtractInt64Field d Names.snapshot_id in
  let! type := ExtractStringField d Names.type in
  let! keep := ExtractOptionalInt32Field d Names.min_snapshots_to_keep in
  let! age := ExtractOptionalInt64Field d Names.max_snapshot_age_ms in
  let! ref_age := ExtractOptionalInt64Field d Names.max_ref_age_ms in
  Ok {| ref_snapshot_id := snapshot_id; ref_type := type; min_snapshots_to_keep := keep;
        max_snapshot_age_ms := age; max_ref_age_ms := ref_age |}.

(** [result.emplace]: the first member of a name stays. *)
Definition JsonToRefsMap (d : json) : result (list (string * SnapshotRef)) :=
  match d with
  | JObject members =>
      fold_ok (λ m e, let! r := JsonToRef e.2 in Ok (mupdate (default r) (c_str e.1) m)) [] members
  | _ => Err (Exn "!document.IsObject()")
  end.

Definition ExtractRefs (d : json) : result (option (list (string * SnapshotRef))) :=
  ExtractOptional JsonToRefsMap d Names.refs.

Definition ExtractStatistics (d : json) : result (option (list Statistics)) :=
  ExtractOptional (ProcessArray JsonToStatistics) d Names.statistics.

Definition MakeTableMetadataV2 (d : json) : result TableMetadataV2 :=
  let! table_uuid := ExtractStringField d Names.table_uuid in
  let! location := ExtractStringField d Names.location in
  let! last_sequence_number := ExtractInt64Field d Names.last_sequence_number in
  let! last_updated_ms := ExtractInt64Field d Names.last_updated_ms in
  let! last_column_id := ExtractInt32Field d Names.last_column_id in
  let! schemas := ExtractSchemas d in
  let! current_schema_id := ExtractInt32Field d Names.current_schema_id in
  let! partition_specs := ExtractPartitionSpecs d in
  let! default_spec_id := ExtractInt32Field d Names.default_spec_id in
  let! last_partition_id := ExtractInt32Field d Names.last_partition_id in
  let! properties := ExtractProperties d in
  let! current_snapshot_id := ExtractOptionalInt64Field d Names.current_snapshot_id in
  let! snapshots := ExtractSnapshots d in
  let! snapshot_log := ExtractSnapshotLog d in
  let! metadata_log := ExtractMetadataLog d in
  let! sort_orders := ExtractSortOrders d in
  let! default_sort_order_id := ExtractInt32Field d Names.default_sort_order_id in
  let! refs := ExtractRefs d in
  let! statistics := ExtractStatistics d in
  Build {| bu_table_uuid := Some table_uuid; bu_location := Some location;
           bu_last_sequence_number := Some last_sequence_number; bu_last_updated_ms := Some last_updated_ms;
           bu_last_column_id := Some last_column_id; bu_schemas := Some schemas;
           bu_current_schema_id := Some current_schema_id; bu_partition_specs := Some partition_specs;
           bu_default_spec_id := Some default_spec_id; bu_last_partition_id := Some last_partition_id;
           bu_properties := properties; bu_current_snapshot_id := current_snapshot_id; bu_snapshots := snapshots;
           bu_snapshot_log := snapshot_log; bu_metadata_log := metadata_log; bu_sort_orders := Some sort_orders;
           bu_default_sort_order_id := Some default_sort_order_id; bu_refs := refs; bu_statistics := statistics |}.

(** No metadata ([None]) for text that is no JSON object. *)
Definition ReadTableMetadataV2 (text : string) : result (option TableMetadataV2) :=
  let d := Parse text in
  if IsObject d then let! m := MakeTableMetadataV2 d in Ok (Some m) else Ok None.
End metadata_json.

(** ** Looking up members *)

Lemma find_cons n k v m : find_member n ((k, v) :: m) = if String.eqb k n then Some v else find_member n m.
Proof. unfold find_member. cbn [List.find fst]. by destruct (String.eqb k n). Qed.

Lemma find_opt n k o m :
  find_member n (opt_member k o ++ m) =
  if String.eqb k n then match o with Some v => Some v | None => find_member n m end else find_member n m.
Proof. destruct o; [apply find_cons|]. by destruct (String.eqb k n). Qed.

Lemma find_opt_last n k o : find_member n (opt_member k o) = if String.eqb k n then o else None.
Proof. destruct o; [apply find_cons|]. by destruct (String.eqb k n). Qed.

Lemma find_nil n : find_member n [] = None.
Proof. done. Qed.

Lemma option_eta (o : option json) : match o with Some v => Some v | None => None end = o.
Proof. by destruct o. Qed.

(** Evaluate the lookup of a name in a list of members with known names. *)
Ltac lookup :=
  repeat first [rewrite find_cons | rewrite find_opt | rewrite find_opt_last | rewrite find_nil];
  repeat match goal with
         | |- context [String.eqb ?a ?b] =>
             let r := eval vm_compute in (String.eqb a b) in change (String.eqb a b) with r; cbv iota
         end;
  rewrite ?option_eta; reflexivity.

Lemma Extract_string_at m n s : find_member n m = Some (JString s) → ExtractStringField (JObject m) n = Ok s.
Proof. unfold ExtractStringField, ExtractField, HasMember, get_member. by intros ->. Qed.
Lemma Extract_bool_at m n b : find_member n m = Some (JBool b) → ExtractBooleanField (JObject m) n = Ok b.
Proof. unfold ExtractBooleanField, ExtractField, HasMember, get_member. by intros ->. Qed.
Lemma Extract_int32_at m n v : find_member n m = Some (JInt v) → in_i32 v → ExtractInt32Field (JObject m) n = Ok v.
Proof.
  unfold ExtractInt32Field, ExtractField, HasMember, get_member. intros -> Hv. cbn [rbind Ensure]. by rewrite as_int32_ok.
Qed.
Lemma Extract_int64_at m n v : find_member n m = Some (JInt v) → in_i64 v → ExtractInt64Field (JObject m) n = Ok v.
Proof.
  unfold ExtractInt64Field, ExtractField, HasMember, get_member. intros -> Hv. cbn [rbind Ensure]. by rewrite as_int64_ok.
Qed.

Definition opt_in (P : Z → Prop) (o : option Z) : Prop := ∀ v, o = Some v → P v.

Lemma Extract_opt_int32_at m n o :
  find_member n m = (JInt <$> o) → opt_in in_i32 o → ExtractOptionalInt32Field (JObject m) n = Ok o.
Proof.
  unfold ExtractOptionalInt32Field, ExtractOptionalField, HasMember, get_member. intros -> Ho.
  destruct o as [v|]; [|done]. cbn [fmap option_fmap option_map rbind]. by rewrite as_int32_ok by by apply Ho.
Qed.
Lemma Extract_opt_int64_at m n o :
  find_member n m = (JInt <$> o) → opt_in in_i64 o → ExtractOptionalInt64Field (JObject m) n = Ok o.
Proof.
  unfold ExtractOptionalInt64Field, ExtractOptionalField, HasMember, get_member. intros -> Ho.
  destruct o as [v|]; [|done]. cbn [fmap option_fmap option_map rbind]. by rewrite as_int64_ok by by apply Ho.
Qed.

Lemma ExtractArray_at {A} (f : json → result A) m n l :
  find_member n m = Some (JArray l) → ExtractArray f (JObject m) n = map_ok f l.
Proof. unfold ExtractArray, HasMember, get_member. by intros ->. Qed.

Lemma ExtractOptional_at {A} (f : json → result A) m n o :
  find_member n m = o →
  ExtractOptional f (JObject m) n = match o with Some v => let! a := f v in Ok (Some a) | None => Ok None end.
Proof. unfold ExtractOptional, HasMember, get_member. intros ->. by destruct o. Qed.

Lemma ExtractStringMap_at m n v : find_member n m = Some v → ExtractStringMap (JObject m) n = JsonToStringMap v.
Proof. unfold ExtractStringMap, HasMember, get_member. by intros ->. Qed.

Lemma HasMember_at m n v : find_member n m = Some v → HasMember (JObject m) n = Ok true.
Proof. unfold HasMember. by intros ->. Qed.
Lemma get_member_at m n v : find_member n m = Some v → get_member (JObject m) n = Ok v.
Proof. unfold get_member. by intros ->. Qed.

Lemma EnsureIsObject_object m : EnsureIsObject (JObject m) = Ok ().
Proof. done. Qed.

(** Read the next member of an object with known names; what remains are the
    ranges of its integers. *)
Ltac read_member :=
  first
    [ rewrite EnsureIsObject_object
    | erewrite Extract_string_at by lookup
    | erewrite Extract_bool_at by lookup
    | erewrite Extract_int32_at; [|lookup|done]
    | erewrite Extract_int64_at; [|lookup|done]
    | erewrite Extract_opt_int32_at; [|lookup|done]
    | erewrite Extract_opt_int64_at; [|lookup|done] ];
  cbn [rbind].

(** ** Parts of the document *)

Record string_map_ok (m : list (string * string)) : Prop := {
  sm_sorted : keys_sorted m;
  sm_nul : Forall (λ e, no_nul e.1 ∧ no_nul e.2) m;
}.

Lemma string_map_roundtrip m : string_map_ok m → JsonToStringMap (JObject (WriteStringMap m)) = Ok m.
Proof. intros [Hs Hn]. by apply JsonToStringMap_members. Qed.

Record partition_field_ok (f : PartitionField) : Prop := {
  pfo_source : in_i32 (source_id f);
  pfo_field : in_i32 (pf_field_id f);
}.
Lemma partition_field_roundtrip : inverts WritePartitionField JsonToPartitionField partition_field_ok.
Proof. intros f [H1 H2]. unfold JsonToPartitionField, WritePartitionField. do 4 read_member. by destruct f. Qed.

Record sort_field_ok (f : SortField) : Prop := { sfo_source : in_i32 (sf_source_id f) }.
Lemma sort_field_roundtrip : inverts WriteSortField JsonToSortField sort_field_ok.
Proof.
  intros f [H1]. unfold JsonToSortField, WriteSortField. do 5 read_member. destruct f as [t s [] []]; done.
Qed.

Record log_ok (e : SnapshotLog) : Prop := { lo_time : in_i64 (log_timestamp_ms e); lo_id : in_i64 (log_snapshot_id e) }.
Lemma snapshot_log_roundtrip : inverts WriteSnapshotLogEntry JsonToSnapshotLogEntry log_ok.
Proof. intros e [H1 H2]. unfold JsonToSnapshotLogEntry, WriteSnapshotLogEntry. do 3 read_member. by destruct e. Qed.

Record metadata_log_ok (e : MetadataLog) : Prop := { mlo_time : in_i64 (ml_timestamp_ms e) }.
Lemma metadata_log_roundtrip : inverts WriteMetadataLogEntry JsonToMetadataLogEntry metadata_log_ok.
Proof. intros e [H1]. unfold JsonToMetadataLogEntry, WriteMetadataLogEntry. do 3 read_member. by destruct e. Qed.

Record ref_ok (r : SnapshotRef) : Prop := {
  ro_id : in_i64 (ref_snapshot_id r);
  ro_keep : opt_in in_i32 (min_snapshots_to_keep r);
  ro_age : opt_in in_i64 (max_snapshot_age_ms r);
  ro_ref_age : opt_in in_i64 (max_ref_age_ms r);
}.
Lemma ref_roundtrip : inverts WriteRefField JsonToRef ref_ok.
Proof.
  intros r [H1 H2 H3 H4]. unfold JsonToRef, WriteRefField. cbn [app]. do 6 read_member. by destruct r.
Qed.

Lemma refs_map_roundtrip (m : list (string * SnapshotRef)) :
  keys_sorted m → Forall (λ e, no_nul e.1 ∧ ref_ok e.2) m →
  JsonToRefsMap (JObject (List.map (λ e, (e.1, WriteRefField e.2)) m)) = Ok m.
Proof.
  unfold JsonToRefsMap. change m with ([] ++ m) at 1 4. generalize ([] : list (string * SnapshotRef)) as acc.
  induction m as [|[k r] m IH]; intros acc Hs Hm; [by rewrite app_nil_r|].
  apply Forall_cons in Hm as [[Hk Hr] Hm]. cbn [fst snd] in Hk, Hr.
  cbn [List.map fold_ok fst snd]. rewrite (ref_roundtrip r Hr). cbn [rbind]. rewrite Hk, mupdate_last.
  - cbn [rbind]. change (default r None) with r. rewrite IH; [by rewrite <- app_assoc| |done]. by rewrite <- app_assoc.
  - intros k' Hk'. unfold keys_sorted in Hs. rewrite fmap_app in Hs.
    apply StronglySorted_app in Hs as (Hall & _ & _). by apply Hall; [|left].
Qed.

Record partition_spec_ok (s : PartitionSpec) : Prop := {
  pso_id : in_i32 (spec_id s);
  pso_fields : Forall partition_field_ok (spec_fields s);
}.
Lemma partition_spec_roundtrip :
  inverts (λ s, JObject [(Names.spec_id, JInt (spec_id s));
                         (Names.fields, JArray (List.map WritePartitionField (spec_fields s)))])
          JsonPartitionSpec partition_spec_ok.
Proof.
  intros s [H1 H2]. unfold JsonPartitionSpec. do 2 read_member.
  erewrite ExtractArray_at by lookup. rewrite (inverts_list _ _ _ partition_field_roundtrip) by done. by destruct s.
Qed.

Record sort_order_ok (s : SortOrder) : Prop := {
  soo_id : in_i32 (order_id s);
  soo_fields : Forall sort_field_ok (sort_fields s);
}.
Lemma sort_order_roundtrip :
  inverts (λ s, JObject [(Names.order_id, JInt (order_id s));
                         (Names.fields, JArray (List.map WriteSortField (sort_fields s)))])
          JsonToSortOrders sort_order_ok.
Proof.
  intros s [H1 H2]. unfold JsonToSortOrders. do 2 read_member. erewrite get_member_at by lookup. cbn [rbind ProcessArray].
  rewrite (inverts_list _ _ _ sort_field_roundtrip) by done. by destruct s.
Qed.

(** Blobs with no properties are not read back. *)
Record stat_blob_ok (b : BlobMetadata) : Prop := {
  sbo_snapshot : in_i64 (blob_snapshot_id b);
  sbo_sequence : in_i64 (blob_sequence_number b);
  sbo_fields : Forall in_i32 (blob_field_ids b);
  sbo_properties : string_map_ok (blob_properties b);
  sbo_nonempty : blob_properties b ≠ [];
}.
Lemma JsonToFieldId_int : inverts JInt JsonToFieldId in_i32.
Proof. intros v Hv. unfold JsonToFieldId. by rewrite as_int32_ok. Qed.

Lemma stat_blob_roundtrip : inverts WriteBlobMetadata JsonToBlobMetadata stat_blob_ok.
Proof.
  intros b [H1 H2 H3 H4 H5]. unfold JsonToBlobMetadata, WriteBlobMetadata, WriteProperties.
  assert (unless_empty (blob_properties b) (JObject (WriteStringMap (blob_properties b))) =
          Some (JObject (WriteStringMap (blob_properties b)))) as -> by by destruct (blob_properties b).
  cbn [opt_member app]. do 3 read_member. erewrite ExtractArray_at by lookup.
  rewrite (inverts_list _ _ _ JsonToFieldId_int) by done. cbn [rbind].
  erewrite ExtractStringMap_at by lookup. rewrite string_map_roundtrip by done. by destruct b.
Qed.

(** The key metadata is not written. *)
Record statistics_ok (s : Statistics) : Prop := {
  sto_snapshot : in_i64 (stat_snapshot_id s);
  sto_size : in_i64 (file_size_in_bytes s);
  sto_footer : in_i64 (file_footer_size_in_bytes s);
  sto_key : key_metadata s = None;
  sto_blobs : Forall stat_blob_ok (stat_blob_metadata s);
}.
Lemma statistics_roundtrip : inverts WriteStatistic JsonToStatistics statistics_ok.
Proof.
  intros s [H1 H2 H3 H4 H5]. unfold JsonToStatistics, WriteStatistic. do 5 read_member.
  erewrite ExtractArray_at by lookup. rewrite (inverts_list _ _ _ stat_blob_roundtrip) by done.
  destruct s. cbn in H4. by subst.
Qed.

Record snapshot_ok (s : Snapshot) : Prop := {
  sno_id : in_i64 (snapshot_id s);
  sno_parent : opt_in in_i64 (parent_snapshot_id s);
  sno_sequence : in_i64 (snap_sequence_number s);
  sno_time : in_i64 (snap_timestamp_ms s);
  sno_summary : string_map_ok (summary s);
  sno_operation : is_Some (mfind Names.operation (summary s));
  sno_schema : opt_in in_i64 (snap_schema_id s);
}.
Lemma snapshot_roundtrip s : snapshot_ok s → ∃ j, WriteSnapshot s = Ok j ∧ JsonToSnapshot j = Ok s.
Proof.
  intros [H1 H2 H3 H4 H5 H6 H7]. unfold WriteSnapshot. rewrite Ensure_true by by apply bool_decide_true. cbn [rbind app].
  eexists. split; [done|]. unfold JsonToSnapshot. do 6 read_member.
  erewrite ExtractStringMap_at by lookup. rewrite string_map_roundtrip by done. cbn [rbind].
  rewrite Ensure_true by by apply bool_decide_true. cbn [rbind]. read_member. by destruct s.
Qed.

(** ** Types and schemas *)

Fixpoint type_ok (t : Type_) : Prop :=
  match t with
  | PrimitiveType id => is_Some (PrimitiveTypeToName id)
  | DecimalType p s => 0 < p ≤ 38 ∧ in_i32 s
  | FixedType n => 0 < n ∧ in_i32 n
  | ListType id _ e => in_i32 id ∧ type_ok e
  end.

Lemma extract_int_space x target : extract_int (stream_of (String " "%char x)) target = extract_int (stream_of x) target.
Proof. done. Qed.

Lemma ignore_text a b : ignore (String.length a) (stream_of (a +:+ b)) = stream_of b.
Proof.
  unfold ignore, stream_of. cbn [good rest].
  assert (drop_chars (String.length a) (a +:+ b) = (b, true)) as ->; [|done].
  induction a as [|c a IH]; [by destruct b|]. exact IH.
Qed.

Lemma decimal_type_roundtrip p s :
  0 < p ≤ 38 → in_i32 s →
  parse_decimal_type ("decimal(" +:+ pretty p +:+ ", " +:+ pretty s +:+ ")") = Ok (DecimalType p s).
Proof.
  intros Hp Hs. unfold parse_decimal_type. rewrite (ignore_text "decimal(").
  rewrite extract_int_pretty by (done || unfold_ints; lia). cbv beta iota zeta.
  match goal with |- context [ignore 1 ?st] =>
    change st with (stream_of ("," +:+ String " "%char (pretty s +:+ ")"))) end.
  rewrite (ignore_text ","), extract_int_space, extract_int_pretty by done.
  unfold make_DecimalType. rewrite Ensure_true; [done|]. apply andb_true_iff. by rewrite !bool_decide_eq_true.
Qed.

Lemma fixed_type_roundtrip u n :
  0 < n → in_i32 n → parse_fixed_type u ("fixed(" +:+ pretty n +:+ ")") = Ok (FixedType n).
Proof.
  intros Hn Hi. unfold parse_fixed_type. rewrite (ignore_text "fixed("), extract_int_pretty by done.
  unfold make_FixedType. by rewrite bool_decide_true.
Qed.

Lemma c_str_type s : no_char Ascii.zero s = true → c_str s = s.
Proof. apply no_char_nul. Qed.

(** What a type writes under a name is read back as the type. *)
Lemma data_type_roundtrip u t name :
  type_ok t → ∃ j, WriteDataType t name = Ok [(name, j)] ∧
    ∀ fuel, (json_depth j ≤ fuel)%nat → JsonToDataType_fuel u fuel j = Ok t.
Proof.
  revert name. induction t as [id|p s|n|eid req e IH]; intros name Ht; cbn [WriteDataType ToString].
  - destruct Ht as [str Hs]. rewrite Hs. cbn [rbind]. eexists. split; [done|]. intros [|fuel] Hf; [simpl in Hf; lia|].
    cbn [JsonToDataType_fuel]. assert (c_str str = str) as -> by (destruct id; vm_compute in Hs; try discriminate Hs; by injection Hs as <-).
    by rewrite (PrimitiveTypeToName_Some _ _ Hs).
  - destruct Ht as [Hp Hs]. eexists. split; [done|]. intros [|fuel] Hf; [simpl in Hf; lia|].
    cbn [JsonToDataType_fuel]. rewrite c_str_type by by rewrite !no_char_append, !no_char_pretty.
    change (NameToPrimitiveType _) with (@None TypeID). cbv iota.
    change (String.prefix "decimal" _) with true. cbv iota. by apply decimal_type_roundtrip.
  - destruct Ht as [Hn Hi]. eexists. split; [done|]. intros [|fuel] Hf; [simpl in Hf; lia|].
    cbn [JsonToDataType_fuel]. rewrite c_str_type by by rewrite !no_char_append, !no_char_pretty.
    change (NameToPrimitiveType _) with (@None TypeID). cbv iota.
    change (String.prefix "decimal" _) with false. cbv iota.
    change (String.prefix "fixed" _) with true. cbv iota. by apply fixed_type_roundtrip.
  - destruct Ht as [Hi He]. destruct (IH Names.element He) as (j & -> & Dj). cbn [rbind app].
    eexists. split; [done|]. intros [|fuel] Hf; [simpl in Hf; lia|]. cbn [JsonToDataType_fuel].
    erewrite HasMember_at by lookup. cbn [rbind Ensure]. read_member.
    change (String.eqb Names.list Names.list) with true. cbv iota. do 2 read_member.
    erewrite HasMember_at by lookup. cbn [rbind Ensure]. erewrite get_member_at by lookup. cbn [rbind].
    rewrite Dj; [done|]. cbn [json_depth foldr snd] in Hf. lia.
Qed.

Section schemas.
Context `{RapidJson} `{ArrowText} (uninitialized : Z).

Definition default_ok (t : Type_) (d : option Literal) : Prop := ∀ l, d = Some l → literal_ok t (scalar_ l).

Lemma default_roundtrip name t d :
  default_ok t d → ∃ o, WriteDefault name t d = Ok (opt_member name o) ∧
    match o with Some v => let! a := DeserializeLiteral t v in Ok (Some a) | None => Ok None end = Ok d.
Proof.
  intros Hd. destruct d as [[s]|]; [|by exists None].
  destruct (literal_survives t s (Hd _ eq_refl)) as (j & Ej & Dj). exists (Some j).
  unfold WriteDefault, DeserializeLiteral. cbn [scalar_]. by rewrite Ej, Dj.
Qed.

Record field_ok (f : NestedField) : Prop := {
  fio_id : in_i32 (nf_field_id f);
  fio_type : type_ok (nf_type f);
  fio_initial : default_ok (nf_type f) (nf_initial_default f);
  fio_write : default_ok (nf_type f) (nf_write_default f);
}.
Lemma field_roundtrip f : field_ok f → ∃ j, WriteField f = Ok j ∧ JsonToField uninitialized j = Ok f.
Proof.
  intros [H1 H2 H3 H4]. unfold WriteField.
  destruct (data_type_roundtrip uninitialized _ Names.type H2) as (jt & -> & Dt). cbn [rbind].
  destruct (default_roundtrip Names.initial_default _ _ H3) as (oi & -> & Di). cbn [rbind].
  destruct (default_roundtrip Names.write_default _ _ H4) as (ow & -> & Dw). cbn [rbind app].
  eexists. split; [done|]. unfold JsonToField. do 3 read_member.
  erewrite HasMember_at by lookup. cbn [rbind Ensure]. erewrite get_member_at by lookup. cbn [rbind].
  unfold JsonToDataType. rewrite Dt by done. cbn [rbind]. unfold ExtractOptionalLiteral.
  erewrite ExtractOptional_at by lookup. rewrite Di. cbn [rbind].
  erewrite ExtractOptional_at by lookup. rewrite Dw. by destruct f.
Qed.

Record schema_ok (s : Schema) : Prop := {
  sco_id : in_i32 (schema_id_ s);
  sco_fields : Forall field_ok (fields_ s);
}.
Lemma schema_roundtrip s : schema_ok s → ∃ j, WriteSchema s = Ok j ∧ JsonToSchema uninitialized j = Ok s.
Proof.
  intros [H1 H2]. unfold WriteSchema, Columns.
  destruct (map_ok_inverse WriteField (JsonToField uninitialized) (fields_ s)) as (js & -> & D).
  { eapply Forall_impl; [exact H2|]. apply field_roundtrip. }
  cbn [rbind]. eexists. split; [done|]. unfold JsonToSchema. do 2 read_member. unfold ExtractSchemaFields.
  erewrite ExtractArray_at by lookup. rewrite D. by destruct s.
Qed.

(** ** The document *)

(** Metadata in the ranges of its types, whose maps have no NUL. *)
Record metadata_ok (m : TableMetadataV2) : Prop := {
  mo_valid : valid m;
  mo_current : current_snapshot_id m ≠ Some (-1);
  mo_sequence : 0 ≤ last_sequence_number m ≤ int64_max;
  mo_updated : in_i64 (last_updated_ms m);
  mo_column : 0 ≤ last_column_id m ≤ int32_max;
  mo_schema : 0 ≤ current_schema_id m ≤ int32_max;
  mo_spec : 0 ≤ default_spec_id m ≤ int32_max;
  mo_partition : 0 ≤ last_partition_id m ≤ int32_max;
  mo_order : 0 ≤ default_sort_order_id m ≤ int32_max;
  mo_snapshot : opt_in in_i64 (current_snapshot_id m);
  mo_schemas : Forall schema_ok (schemas m);
  mo_specs : Forall partition_spec_ok (partition_specs m);
  mo_properties : string_map_ok (table_properties m);
  mo_snapshots : Forall snapshot_ok (snapshots m);
  mo_log : Forall log_ok (snapshot_log m);
  mo_mlog : Forall metadata_log_ok (metadata_log m);
  mo_orders : Forall sort_order_ok (sort_orders m);
  mo_refs : keys_sorted (refs m) ∧ Forall (λ e, no_nul e.1 ∧ ref_ok e.2) (refs m);
  mo_statistics : Forall statistics_ok (statistics m);
}.

(** A container that is written unless it is empty is read back, with a default. *)
Lemma optional_list_roundtrip {A} (W : A → json) (R : json → result A) P l :
  inverts W R P → Forall P l →
  ∃ o, match unless_empty l (JArray (List.map W l)) with
       | Some v => let! a := ProcessArray R v in Ok (Some a) | None => Ok None end = Ok o ∧ default [] o = l.
Proof.
  intros Hi Hl. destruct l as [|a l]; [by exists None|]. exists (Some (a :: l)). split; [|done].
  cbn [unless_empty ProcessArray]. by rewrite (inverts_list _ _ _ Hi) by done.
Qed.

Lemma optional_map_roundtrip {A} (R : json → result (list A)) l j :
  R j = Ok l →
  ∃ o, match unless_empty l j with Some v => let! a := R v in Ok (Some a) | None => Ok None end = Ok o ∧
       default [] o = l.
Proof. intros E. destruct l as [|a l]; [by exists None|]. exists (Some (a :: l)). cbn [unless_empty]. by rewrite E. Qed.

Lemma assert_ge_ok v name : 0 ≤ v → assert_ge v 0 name = Ok ().
Proof. intros Hv. unfold assert_ge. by destruct (Z.ltb_spec v 0); [lia|]. Qed.

(** [Build] on the parts of valid metadata gives the metadata. *)
Lemma Build_parts m op on ol om oref :
  metadata_ok m → default [] op = table_properties m → default [] on = snapshots m →
  default [] ol = snapshot_log m → default [] om = metadata_log m → default [] oref = refs m →
  Build {| bu_table_uuid := Some (table_uuid m); bu_location := Some (location m);
           bu_last_sequence_number := Some (last_sequence_number m); bu_last_updated_ms := Some (last_updated_ms m);
           bu_last_column_id := Some (last_column_id m); bu_schemas := Some (schemas m);
           bu_current_schema_id := Some (current_schema_id m); bu_partition_specs := Some (partition_specs m);
           bu_default_spec_id := Some (default_spec_id m); bu_last_partition_id := Some (last_partition_id m);
           bu_properties := op; bu_current_snapshot_id := current_snapshot_id m; bu_snapshots := on;
           bu_snapshot_log := ol; bu_metadata_log := om; bu_sort_orders := Some (sort_orders m);
           bu_default_sort_order_id := Some (default_sort_order_id m); bu_refs := oref;
           bu_statistics := Some (statistics m) |} = Ok m.
Proof.
  intros [Hv Hcur H1 _ H3 H4 H5 H6 H7 _ _ _ _ _ _ _ _ _ _] Ep En El Em Er. unfold Build.
  cbn [bu_table_uuid bu_location bu_last_sequence_number bu_last_updated_ms bu_last_column_id bu_schemas
       bu_current_schema_id bu_partition_specs bu_default_spec_id bu_last_partition_id bu_properties
       bu_current_snapshot_id bu_snapshots bu_snapshot_log bu_metadata_log bu_sort_orders bu_default_sort_order_id
       bu_refs bu_statistics assert_has_value rbind].
  rewrite !assert_ge_ok by lia. cbn [rbind]. rewrite Ep, En, El, Em, Er.
  apply make_TableMetadataV2_exact. split; [done|].
  rewrite bool_decide_false by done. by destruct m.
Qed.

(** What the reader finds under each name. *)
Record document_has (d : list member) (m : TableMetadataV2) (js jn : list json) : Prop := {
  dh_uuid : find_member Names.table_uuid d = Some (JString (table_uuid m));
  dh_location : find_member Names.location d = Some (JString (location m));
  dh_sequence : find_member Names.last_sequence_number d = Some (JInt (last_sequence_number m));
  dh_updated : find_member Names.last_updated_ms d = Some (JInt (last_updated_ms m));
  dh_column : find_member Names.last_column_id d = Some (JInt (last_column_id m));
  dh_schemas : find_member Names.schemas d = Some (JArray js);
  dh_schema : find_member Names.current_schema_id d = Some (JInt (current_schema_id m));
  dh_specs : find_member Names.partition_specs d =
    Some (JArray (List.map (λ s, JObject [(Names.spec_id, JInt (spec_id s));
                                          (Names.fields, JArray (List.map WritePartitionField (spec_fields s)))])
                           (partition_specs m)));
  dh_spec : find_member Names.default_spec_id d = Some (JInt (default_spec_id m));
  dh_partition : find_member Names.last_partition_id d = Some (JInt (last_partition_id m));
  dh_properties : find_member Names.properties d =
    unless_empty (table_properties m) (JObject (WriteStringMap (table_properties m)));
  dh_snapshot : find_member Names.current_snapshot_id d = (JInt <$> current_snapshot_id m);
  dh_snapshots : find_member Names.snapshots d = unless_empty (snapshots m) (JArray jn);
  dh_log : find_member Names.snapshot_log d =
    unless_empty (snapshot_log m) (JArray (List.map WriteSnapshotLogEntry (snapshot_log m)));
  dh_mlog : find_member Names.metadata_log d =
    unless_empty (metadata_log m) (JArray (List.map WriteMetadataLogEntry (metadata_log m)));
  dh_orders : find_member Names.sort_orders d =
    Some (JArray (List.map (λ s, JObject [(Names.order_id, JInt (order_id s));
                                          (Names.fields, JArray (List.map WriteSortField (sort_fields s)))])
                           (sort_orders m)));
  dh_order : find_member Names.default_sort_order_id d = Some (JInt (default_sort_order_id m));
  dh_refs : find_member Names.refs d =
    unless_empty (refs m) (JObject (List.map (λ e, (e.1, WriteRefField e.2)) (refs m)));
  dh_statistics : find_member Names.statistics d = Some (JArray (List.map WriteStatistic (statistics m)));
}.

Lemma document_lookups m js jn :
  document_has (document_members m [(Names.schemas, JArray js)]
                                 (opt_member Names.snapshots (unless_empty (snapshots m) (JArray jn)))) m js jn.
Proof.
  unfold document_members, WritePartitionSpec, WriteSortOrder, WriteStatistics, WriteProperties, WriteRefs,
    WriteSnapshotLog, WriteMetadataLog. cbn [app]. split; lookup.
Qed.

(** Each reader on its part. *)
Lemma document_reads d m js jn :
  metadata_ok m → document_has d m js jn → map_ok (JsonToSchema uninitialized) js = Ok (schemas m) →
  map_ok JsonToSnapshot jn = Ok (snapshots m) → MakeTableMetadataV2 uninitialized (JObject d) = Ok m.
Proof.
  intros Hm [L1 L2 L3 L4 L5 L6 L7 L8 L9 L10 L11 L12 L13 L14 L15 L16 L17 L18 L19] Ds Dn.
  pose proof Hm as [_ _ H1 H2 H3 H4 H5 H6 H7 H8 _ Hspec Hprop _ Hlog Hmlog Hord [Hrs Hr] Hstat].
  unfold MakeTableMetadataV2.
  rewrite (Extract_string_at _ _ _ L1), (Extract_string_at _ _ _ L2). cbn [rbind].
  rewrite (Extract_int64_at _ _ _ L3), (Extract_int64_at _ _ _ L4), (Extract_int32_at _ _ _ L5) by (unfold_ints; lia).
  cbn [rbind]. unfold ExtractSchemas. rewrite (ExtractArray_at _ _ _ _ L6), Ds. cbn [rbind].
  rewrite (Extract_int32_at _ _ _ L7) by (unfold_ints; lia). cbn [rbind].
  unfold ExtractPartitionSpecs. rewrite (ExtractArray_at _ _ _ _ L8), (inverts_list _ _ _ partition_spec_roundtrip) by done.
  cbn [rbind]. rewrite (Extract_int32_at _ _ _ L9), (Extract_int32_at _ _ _ L10) by (unfold_ints; lia). cbn [rbind].
  unfold ExtractProperties. rewrite (ExtractOptional_at _ _ _ _ L11).
  destruct (optional_map_roundtrip JsonToStringMap _ _ (string_map_roundtrip _ Hprop)) as (op & -> & Ep). cbn [rbind].
  rewrite (Extract_opt_int64_at _ _ _ L12) by done. cbn [rbind].
  unfold ExtractSnapshots. rewrite (ExtractOptional_at _ _ _ _ L13).
  destruct (optional_map_roundtrip (ProcessArray JsonToSnapshot) (snapshots m) (JArray jn) Dn) as (on & -> & En).
  cbn [rbind]. unfold ExtractSnapshotLog. rewrite (ExtractOptional_at _ _ _ _ L14).
  destruct (optional_list_roundtrip _ _ _ _ snapshot_log_roundtrip Hlog) as (ol & -> & El). cbn [rbind].
  unfold ExtractMetadataLog. rewrite (ExtractOptional_at _ _ _ _ L15).
  destruct (optional_list_roundtrip _ _ _ _ metadata_log_roundtrip Hmlog) as (om & -> & Em). cbn [rbind].
  unfold ExtractSortOrders. rewrite (ExtractArray_at _ _ _ _ L16), (inverts_list _ _ _ sort_order_roundtrip) by done.
  cbn [rbind]. rewrite (Extract_int32_at _ _ _ L17) by (unfold_ints; lia). cbn [rbind].
  unfold ExtractRefs. rewrite (ExtractOptional_at _ _ _ _ L18).
  destruct (optional_map_roundtrip JsonToRefsMap _ _ (refs_map_roundtrip _ Hrs Hr)) as (oref & -> & Eref). cbn [rbind].
  unfold ExtractStatistics. rewrite (ExtractOptional_at _ _ _ _ L19). cbn [ProcessArray].
  rewrite (inverts_list _ _ _ statistics_roundtrip) by done. cbn [rbind].
  by apply Build_parts.
Qed.

Lemma document_roundtrip m :
  metadata_ok m → ∃ j, WriteDocument m = Ok j ∧ IsObject j = true ∧ MakeTableMetadataV2 uninitialized j = Ok m.
Proof.
  intros Hm. unfold WriteDocument, WriteSchemas, WriteSnapshots.
  destruct (map_ok_inverse WriteSchema (JsonToSchema uninitialized) (schemas m)) as (js & -> & Ds).
  { eapply Forall_impl; [exact (mo_schemas _ Hm)|]. apply schema_roundtrip. }
  destruct (map_ok_inverse WriteSnapshot JsonToSnapshot (snapshots m)) as (jn & -> & Dn).
  { eapply Forall_impl; [exact (mo_snapshots _ Hm)|]. apply snapshot_roundtrip. }
  cbn [rbind]. eexists. split; [done|]. split; [done|].
  eapply document_reads; [done|apply document_lookups|done..].
Qed.

(** C26: metadata that satisfies [metadata_ok] is read back unchanged from the JSON document
    that is made of it, and, when no floating-point default has to pass through decimal
    digits ([exact]), from the text that [WriteTableMetadataV2] makes, pretty or not, by
    [ReadTableMetadataV2].
    [metadata_ok]: the metadata is valid, its numbers are in the ranges of their types, ids
    and counters that the builder checks are not negative, and the current snapshot is not
    the one numbered -1; the keys and values of its maps have no NUL; every snapshot has an
    operation in its summary; decimal types have a precision of 1 to 38, fixed types a
    positive size; defaults are of types and values that [SerializeLiteral] and
    [DeserializeScalar] agree on (decimal defaults with a positive scale, for instance, are
    not); every blob of a statistics file has properties, which are not written when they
    are empty and then are missing; and no statistics file has key metadata, which is not
    written. *)
Theorem metadata_roundtrip (m : TableMetadataV2) :
  metadata_ok m →
  ∃ j, WriteDocument m = Ok j ∧ MakeTableMetadataV2 uninitialized j = Ok m ∧
       (exact j = true → ∀ pretty,
          (let! s := WriteTableMetadataV2 m pretty in ReadTableMetadataV2 uninitialized s) = Ok (Some m)).
Proof.
  intros Hm. destruct (document_roundtrip m Hm) as (j & Ej & Hj & Dj). exists j. split; [done|]. split; [done|].
  intros He pretty. unfold WriteTableMetadataV2, ReadTableMetadataV2. rewrite Ej. cbn [rbind].
  assert (Parse (c_str (if pretty then PrettyWrite j else Write j)) = j) as ->.
  { destruct pretty; [rewrite pretty_no_nul; by apply parse_pretty|rewrite write_no_nul; by apply parse_write]. }
  by rewrite Hj, Dj.
Qed.

(** C30: whatever text is read, metadata that [ReadTableMetadataV2] returns is
    valid: the current schema, the default partition specification and the current
    snapshot are among those listed, and the getters find them. *)
Theorem read_metadata_valid (text : string) (m : TableMetadataV2) :
  ReadTableMetadataV2 uninitialized text = Ok (Some m) → valid m ∧ getters_total m.
Proof.
  unfold ReadTableMetadataV2. destruct (IsObject (Parse text)); [|done]. intros E.
  apply rbind_Ok_inv in E as (m' & E & [= <-]). assert (valid m'); [|by split; [|apply valid_getters]].
  unfold MakeTableMetadataV2 in E. do 19 (apply rbind_Ok_inv in E as (? & _ & E)). by eapply builder_valid.
Qed.
End schemas.

(** ** Examples *)

Module JsonMetadataExample.
Definition snapshot : Snapshot :=
  {| snapshot_id := 7; parent_snapshot_id := None; snap_sequence_number := 1; snap_timestamp_ms := 1000;
     manifest_list_location := "s3://b/m.avro"; summary := [("operation", "append")]; snap_schema_id := Some 0 |}.
Definition field : NestedField :=
  {| nf_name := "d"; nf_field_id := 1; nf_is_required := false; nf_type := ListType 2 false (DecimalType 10 2);
     nf_initial_default := None; nf_write_default := None |}.
Definition int_field : NestedField :=
  {| nf_name := "n"; nf_field_id := 3; nf_is_required := true; nf_type := PrimitiveType kInt;
     nf_initial_default := Some {| scalar_ := Int32Scalar 5 |}; nf_write_default := None |}.
Definition metadata : TableMetadataV2 :=
  {| table_uuid := "u"; location := "s3://b"; last_sequence_number := 1; last_updated_ms := 1000; last_column_id := 3;
     schemas := [{| schema_id_ := 0; fields_ := [field; int_field] |}]; current_schema_id := 0;
     partition_specs := [{| spec_id := 0; spec_fields := [] |}]; default_spec_id := 0; last_partition_id := 999;
     table_properties := [("a", "1"); ("b", "2")]; current_snapshot_id := Some 7; snapshots := [snapshot];
     snapshot_log := [{| log_timestamp_ms := 1000; log_snapshot_id := 7 |}]; metadata_log := [];
     sort_orders := [{| order_id := 0; sort_fields := [] |}]; default_sort_order_id := 0;
     refs := [("main", {| ref_snapshot_id := 7; ref_type := "branch"; min_snapshots_to_keep := None;
                          max_snapshot_age_ms := Some 5; max_ref_age_ms := None |})];
     statistics := [] |}.
End JsonMetadataExample.

#[local] Existing Instance JsonExample.binary_json.
#[local] Existing Instance TextExample.text.

Definition example_document : json :=
  match WriteDocument JsonMetadataExample.metadata with Ok j => j | Err _ => JNull end.

Lemma example_metadata_valid : valid JsonMetadataExample.metadata.
Proof. apply default_checks_valid. repeat constructor. Qed.

Lemma example_metadata_ok : metadata_ok JsonMetadataExample.metadata.
Proof.
  split; try done; try (cbn; unfold_ints; lia).
  - apply example_metadata_valid.
  - intros v [= <-]. done.
  - apply Forall_cons_2, Forall_nil_2. split; [done|]. cbn [fields_].
    apply Forall_cons_2; [|apply Forall_cons_2, Forall_nil_2]; split; cbn; try done; try (unfold_ints; lia).
    by intros l [= <-].
  - by repeat constructor.
  - split; repeat constructor.
  - apply Forall_cons_2, Forall_nil_2. split; try done.
    + split; repeat constructor.
    + by intros v [= <-].
  - by repeat constructor.
  - by repeat constructor.
  - split; [repeat constructor|]. apply Forall_cons_2, Forall_nil_2. split; [done|]. by split; cbn; try done; intros v [= <-].
Qed.

Lemma metadata_roundtrip_witness :
  ∃ j, WriteDocument JsonMetadataExample.metadata = Ok j ∧ MakeTableMetadataV2 0 j = Ok JsonMetadataExample.metadata ∧
       (exact j = true → ∀ pretty,
          (let! s := WriteTableMetadataV2 JsonMetadataExample.metadata pretty in ReadTableMetadataV2 0 s) =
          Ok (Some JsonMetadataExample.metadata)).
Proof. apply (metadata_roundtrip 0). apply example_metadata_ok. Defined.

Lemma read_metadata_valid_witness :
  valid JsonMetadataExample.metadata ∧ getters_total JsonMetadataExample.metadata.
Proof.
  apply (read_metadata_valid 0 (Write example_document)). unfold ReadTableMetadataV2.
  rewrite parse_write by (vm_compute; reflexivity). vm_compute. reflexivity.
Defined.

(** Statistics with a blob that has no properties are written without the
    member, and what was written is rejected by the reader. *)
Theorem empty_blob_properties_unreadable (b : BlobMetadata) :
  in_i64 (blob_snapshot_id b) → in_i64 (blob_sequence_number b) → Forall in_i32 (blob_field_ids b) →
  blob_properties b = [] → JsonToBlobMetadata (WriteBlobMetadata b) = Err (Exn "!document.HasMember").
Proof.
  intros H1 H2 H3 E. unfold JsonToBlobMetadata, WriteBlobMetadata, WriteProperties. rewrite E. cbn [unless_empty opt_member app].
  do 3 read_member. erewrite ExtractArray_at by lookup. rewrite (inverts_list _ _ _ JsonToFieldId_int) by done. done.
Qed.

(** The size of a [fixed] type without digits is whatever the variable held before. *)
Theorem fixed_without_size (uninitialized : Z) : JsonToDataType uninitialized (JString "fixed[") = make_FixedType uninitialized.
Proof. done. Qed.
