(* ===== verification/ColumnReading.v ===== *)
(** * ColumnReading: the columns of a data file, by field id

    [SchemaNameMapper] of [iceberg/streams/iceberg/schema_name_mapper.cpp],
    [RowGroupReader] and [RowGroupReaderWithRowNumber] of
    [iceberg/streams/arrow/row_group_reader.h], [ParquetFileReader] of
    [iceberg/streams/arrow/file_reader.h], [ProjectionStream] of
    [iceberg/streams/arrow/projection_stream.h], [DefaultValueApplier] of
    [iceberg/streams/iceberg/default_value_applier.h] and
    [FileReaderBuilder::MakeFinalStream] of
    [iceberg/streams/iceberg/file_reader_builder.cpp], which chains them.

    An open Parquet file is a parameter: its metadata and the record batches
    that [GetRecordBatchReader] delivers.  The arrays of the columns are left
    abstract. *)

From stdpp Require Import base list sorting strings gmap.
From Stdlib Require Import ZArith Lia.
From S2P Require Import Prelude OrderedMap Streams Scalars Parquet ScanTypes FileReading Json Literals EqualityDeleteHandler.

Local Open Scope Z_scope.

(** ** SchemaNameMapper *)

Definition names : string := "names".
Definition field_id : string := "field-id".

(** [mp_.insert] must insert. *)
Definition insert_name (id : Z) (mp : gmap string Z) (name : json) : result (gmap string Z) :=
  match name with
  | JString s =>
      match mp !! c_str s with
      | None => Ok (<[c_str s := id]> mp)
      | Some _ => Err (Exn "names at the same level are not unique")
      end
  | _ => Err (Exn "names field must be an array of strings")
  end.

Definition mapper_element (mp : gmap string Z) (element : json) : result (gmap string Z) :=
  let! _ := Ensure (IsObject element) "doc elements must be objects" in
  let! has := HasMember element names in
  let! _ := Ensure has "doc elements must contain names field" in
  let! names_field := get_member element names in
  match names_field with
  | JArray values =>
      let! has_id := HasMember element field_id in
      if has_id : bool then
        let! id := get_member element field_id in
        match as_int32 id with
        | Some id => fold_ok (insert_name id) mp values
        | None => Err (Exn "field-id field must be an int")
        end
      else Ok mp
  | _ => Err (Exn "names field must be an array")
  end.

(** [SchemaNameMapper::Mapper::Mapper]. *)
Definition make_Mapper (doc : json) : result (gmap string Z) :=
  match doc with
  | JArray elements => fold_ok mapper_element ∅ elements
  | _ => Err (Exn "doc is not an Array")
  end.

Section mapper.
Context `{RapidJson}.
(** A text that is no JSON parses to [JNull], which is no array. *)
Definition make_SchemaNameMapper (text : string) : result (gmap string Z) := make_Mapper (Parse text).
End mapper.

Definition GetFieldIdByName (mp : gmap string Z) (name : string) : option Z := mp !! name.

(** ** Fields of the file *)

Definition InsertOrFail (mp : gmap Z nat) (key : Z) (value : nat) : result (gmap Z nat) :=
  match mp !! key with
  | None => Ok (<[key := value]> mp)
  | Some _ => Err (Exn "field ids are not unique")
  end.

(** From field number [i] on. *)
Fixpoint index_loop (schema_name_mapper : option (gmap string Z)) (i : nat) (fields : list FieldNode)
    (mp : gmap Z nat) : result (gmap Z nat) :=
  match fields with
  | [] => Ok mp
  | field :: fields =>
      let! mp :=
        if 0 <=? fn_field_id field then InsertOrFail mp (fn_field_id field) i
        else match schema_name_mapper with
             | None => Ok mp
             | Some mapper =>
                 match GetFieldIdByName mapper (fn_name field) with
                 | Some id => InsertOrFail mp id i
                 | None => Ok mp
                 end
             end in
      index_loop schema_name_mapper (S i) fields mp
  end.

Definition MakeFieldIdToIndexMap (fields : list FieldNode) (schema_name_mapper : option (gmap string Z)) :
    result (gmap Z nat) := index_loop schema_name_mapper 0 fields ∅.

Record ParquetColumnInfo := {
  ci_field_id : Z;
  column_position : option nat;
  parquet_name : string;
  result_name : string;
}.

(** [mapper] is [known_field_id_to_name_] of the [FieldIdMapper]. *)
Definition GetParquetColumnInfos (fields : list FieldNode) (schema_name_mapper : option (gmap string Z))
    (mapper : list (Z * string)) (field_ids : list Z) : result (list ParquetColumnInfo) :=
  let! field_id_to_index := MakeFieldIdToIndexMap fields schema_name_mapper in
  Ok ((λ id,
    match field_id_to_index !! id with
    | Some i => {| ci_field_id := id; column_position := Some i;
                   parquet_name := match fields !! i with Some f => fn_name f | None => "" end;
                   result_name := FieldIdToColumnName mapper id |}
    | None => {| ci_field_id := id; column_position := None; parquet_name := "";
                 result_name := FieldIdToColumnName mapper id |}
    end) <$> field_ids).

Section reading.
Context {Array : Type}.
(** The array of a list of scalars. *)
Context (array_of : list Scalar → Array).

Abbreviation Column := (string * Array)%type.

(** ** Readers of a Parquet file *)

Record RecordBatch := { rb_rows : Z; rb_columns : list Column }.

(** [parquet::arrow::FileReader]: the metadata, and the record batches of a row
    group with the given leaf columns. *)
Record FileReader := {
  fr_fields : list FieldNode;
  fr_row_groups : list RowGroupMeta;
  GetRecordBatchReader : Z → list Z → result (stream RecordBatch);
}.

(** The number of the first row of a row group. *)
Definition first_row (f : FileReader) (row_group_to_read : Z) : Z :=
  foldl (λ current_row g, wrap_s 64 (current_row + rg_num_rows g)) 0
    (take (Z.to_nat row_group_to_read) (fr_row_groups f)).

(** [RowGroupReaderWithRowNumber::ReadNext] on the next record batch. *)
Definition number_batch (current_row : Z) (batch : RecordBatch) : result (ArrowBatch Column * Z) :=
  Ok ({| ab_position := current_row; ab_rows := rb_rows batch; ab_columns := rb_columns batch |},
      wrap_s 64 (current_row + rb_rows batch)).

Definition RowGroupReaderWithRowNumber (f : FileReader) (columns : list Z) (_ : unit) (row_group_to_read : Z) :
    result (stream (ArrowBatch Column) * unit) :=
  let! rg_reader := GetRecordBatchReader f row_group_to_read columns in
  Ok (smap number_batch (first_row f row_group_to_read) rg_reader, ()).

Definition file_reader_ReadNext (f : FileReader) (columns : list Z) :=
  concat_ReadNext (RowGroupReaderWithRowNumber f columns).

(** What [ParquetFileReader] delivers. *)
Definition ParquetFileReader (f : FileReader) (row_groups columns : list Z) : stream (ArrowBatch Column) :=
  concat_streams (RowGroupReaderWithRowNumber f columns) () (of_list row_groups).

(** ** ProjectionStream *)

(** [Schema::GetFieldIndex]: the number of the field, unless several have the name. *)
Definition GetFieldIndex (name : string) (columns : list Column) : option nat :=
  match List.filter (λ ic : nat * Column, bool_decide (ic.2.1 = name)) (imap pair columns) with
  | [ic] => Some ic.1
  | _ => None
  end.

Definition SelectColumns (indices : list nat) (columns : list Column) : list Column :=
  omap (λ i, columns !! i) indices.

Definition MakeProjection (old_name_to_new_name : list (string * string)) (batch : ArrowBatch Column) :
    result (ArrowBatch Column) :=
  let indices := omap (λ on : string * string, GetFieldIndex on.1 (ab_columns batch)) old_name_to_new_name in
  let projection_wo_renaming := SelectColumns indices (ab_columns batch) in
  let! renamed := map_ok (λ c : Column,
    match mfind c.1 old_name_to_new_name with
    | Some new_name => Ok (new_name, c.2)
    | None => Err (Exn "out_of_range")
    end) projection_wo_renaming in
  Ok {| ab_position := ab_position batch; ab_rows := ab_rows batch; ab_columns := renamed |}.

Definition ProjectionStream (old_name_to_new_name : list (string * string)) (input : stream (ArrowBatch Column)) :
    stream (ArrowBatch Column) :=
  smap (pure_step (MakeProjection old_name_to_new_name)) () input.

(** ** DefaultValueApplier *)

Definition add_default (default_value_map : list (Z * Literal)) (batch : ArrowBatch Column)
    (field_id_with_name : Z * string) : result (ArrowBatch Column) :=
  match mfind field_id_with_name.1 default_value_map with
  | None => Err (Exn "out_of_range")
  | Some literal =>
      Ok {| ab_position := ab_position batch; ab_rows := ab_rows batch;
            ab_columns := ab_columns batch ++
              [(field_id_with_name.2, array_of (MakeColumn literal (ab_rows batch)))] |}
  end.

Definition add_defaults (default_value_map : list (Z * Literal)) (remaining : list (Z * string))
    (batch : ArrowBatch Column) : result (ArrowBatch Column) :=
  fold_ok (add_default default_value_map) batch remaining.

Definition DefaultValueApplier (default_value_map : list (Z * Literal)) (remaining : list (Z * string))
    (input : stream (ArrowBatch Column)) : stream (ArrowBatch Column) :=
  smap (pure_step (add_defaults default_value_map remaining)) () input.

(** ** MakeFinalStream *)

Definition parquet_name_to_result_name (cols : list ParquetColumnInfo) : list (string * string) :=
  foldl (λ m col, match column_position col with
                  | Some _ => minsert (parquet_name col) (result_name col) m
                  | None => m
                  end) [] cols.

Definition MakeFinalStream (f : FileReader) (schema_name_mapper : option (gmap string Z))
    (mapper : list (Z * string)) (default_value_map : list (Z * Literal)) (matching_row_groups field_ids : list Z) :
    result (stream (ArrowBatch Column)) :=
  let! cols := GetParquetColumnInfos (fr_fields f) schema_name_mapper mapper field_ids in
  let col_positions := omap (λ col, Z.of_nat <$> column_position col) cols in
  let result := ParquetFileReader f matching_row_groups col_positions in
  let result := ProjectionStream (parquet_name_to_result_name cols) result in
  let remaining := omap (λ col,
    match column_position col, mfind (ci_field_id col) default_value_map with
    | None, Some _ => Some (ci_field_id col, result_name col)
    | _, _ => None
    end) cols in
  Ok (DefaultValueApplier default_value_map remaining result).
End reading.
Arguments FileReader : clear implicits.
Arguments RecordBatch : clear implicits.

(** ** Numbers of fields *)

Lemma InsertOrFail_inv mp key value mp' : InsertOrFail mp key value = Ok mp' → mp' = <[key := value]> mp ∧ mp !! key = None.
Proof. unfold InsertOrFail. destruct (mp !! key); [done|]. by intros [= <-]. Qed.

(** Every number of the map is that of a field, and no two ids share one. *)
Record index_ok (n : nat) (mp : gmap Z nat) : Prop := {
  ix_range : ∀ id i, mp !! id = Some i → (i < n)%nat;
  ix_inj : ∀ id id' i, mp !! id = Some i → mp !! id' = Some i → id = id';
}.

Lemma index_ok_insert n mp id : index_ok n mp → index_ok (S n) (<[id := n]> mp).
Proof.
  intros [Hr Hi]. split.
  - intros id' i [[_ <-]|[_ H]]%lookup_insert_Some; [lia|]. apply Hr in H. lia.
  - intros id1 id2 i [[<- <-]|[Hne H1]]%lookup_insert_Some [[<- Hn]|[Hne2 H2]]%lookup_insert_Some; try done.
    + apply Hr in H2. lia.
    + apply Hr in H1. lia.
    + by eapply Hi.
Qed.

Lemma index_ok_mono n mp : index_ok n mp → index_ok (S n) mp.
Proof. intros [Hr Hi]. split; [|done]. intros id i H%Hr. lia. Qed.

Lemma index_loop_ok mapper fields : ∀ n mp mp',
  index_ok n mp → index_loop mapper n fields mp = Ok mp' → index_ok (n + length fields) mp'.
Proof.
  induction fields as [|f fields IH]; intros n mp mp' Hok H; cbn [index_loop] in H.
  { injection H as <-. by rewrite Nat.add_0_r. }
  apply rbind_Ok_inv in H as (mp1 & H1 & H). apply IH in H; [cbn [length]; by rewrite Nat.add_succ_r|].
  destruct (0 <=? fn_field_id f).
  { apply InsertOrFail_inv in H1 as [-> _]. by apply index_ok_insert. }
  destruct mapper as [mapper|]; [|injection H1 as <-; by apply index_ok_mono].
  destruct (GetFieldIdByName mapper (fn_name f)) as [id|]; [|injection H1 as <-; by apply index_ok_mono].
  apply InsertOrFail_inv in H1 as [-> _]. by apply index_ok_insert.
Qed.

Lemma MakeFieldIdToIndexMap_ok fields mapper mp :
  MakeFieldIdToIndexMap fields mapper = Ok mp → index_ok (length fields) mp.
Proof. intros H. apply (index_loop_ok mapper fields 0 ∅); [|done]. by split. Qed.

(** ** Lists of optional values *)

Lemma omap_split {A B} (f g h : A → option B) (l : list A) :
  (∀ x, x ∈ l → h x = f x ∧ g x = None ∨ h x = g x ∧ f x = None) → omap h l ≡ₚ omap f l ++ omap g l.
Proof.
  induction l as [|x l IH]; intros Hx; [done|]. cbn [omap list_omap].
  assert (omap h l ≡ₚ omap f l ++ omap g l) as IH' by (apply IH; intros y Hy; apply Hx; by right).
  destruct (Hx x) as [[-> ->]|[-> ->]]; [by left| |].
  - destruct (f x); [by simpl; f_equiv|done].
  - destruct (g x); [|done]. rewrite IH'. apply Permutation_middle.
Qed.

Lemma NoDup_omap {A B} (f : A → option B) (l : list A) :
  NoDup l → (∀ x y b, x ∈ l → y ∈ l → f x = Some b → f y = Some b → x = y) → NoDup (omap f l).
Proof.
  induction 1 as [|x l Hx Hl IH]; intros Hinj; simpl; [constructor|].
  assert (NoDup (omap f l)) as H' by (apply IH; intros y z b Hy Hz; apply Hinj; by right).
  destruct (f x) as [b|] eqn:E; [|done]. constructor; [|done].
  intros (y & Hy & Ey)%list_elem_of_omap. assert (x = y) as <-; [|done].
  apply (Hinj x y b); [by left|by right|done|done].
Qed.

Lemma omap_fmap {A B C} (f : A → B) (g : B → option C) (l : list A) : omap g (f <$> l) = omap (λ x, g (f x)) l.
Proof. induction l as [|x l IH]; [done|]. cbn. destruct (g (f x)); [f_equal|]; exact IH. Qed.

Lemma omap_ext_in {A B} (f g : A → option B) (l : list A) : (∀ x, x ∈ l → f x = g x) → omap f l = omap g l.
Proof.
  induction l as [|x l IH]; intros H; [done|]. cbn [omap list_omap]. rewrite H by by left.
  assert (omap f l = omap g l) as E by (apply IH; intros y Hy; apply H; by right). cbn in E. by rewrite E.
Qed.

(** ** Projections *)

Section projections.
Context {Array : Type}.
Abbreviation Column := (string * Array)%type.

(** The column of a name, where there is one. *)
Definition column_named (name : string) (columns : list Column) : option Array :=
  snd <$> List.find (λ c, bool_decide (c.1 = name)) columns.

Lemma column_named_Some name a (columns : list Column) :
  NoDup columns.*1 → column_named name columns = Some a ↔ (name, a) ∈ columns.
Proof.
  unfold column_named. induction columns as [|[n b] columns IH]; simpl; intros Hd.
  { split; [done|by intros ?%elem_of_nil]. }
  apply NoDup_cons in Hd as [Hn Hd]. rewrite elem_of_cons. case_bool_decide as E; simpl.
  - subst. split; [by intros [= <-]; left|]. intros [[= ->]|Hin]; [done|]. destruct Hn.
    apply list_elem_of_fmap. by exists (name, a).
  - rewrite IH by done. split; [by right|]. intros [[= -> _]|]; [done|done].
Qed.

Lemma column_named_None name (columns : list Column) : column_named name columns = None ↔ name ∉ columns.*1.
Proof.
  unfold column_named. induction columns as [|[n b] columns IH]; simpl.
  { split; [intros _; apply not_elem_of_nil|done]. }
  rewrite not_elem_of_cons. case_bool_decide as E; simpl; [naive_solver|]. rewrite IH. naive_solver.
Qed.

Lemma column_named_perm name (columns columns' : list Column) :
  NoDup columns.*1 → columns ≡ₚ columns' → column_named name columns = column_named name columns'.
Proof.
  intros Hd Hp. assert (NoDup columns'.*1) as Hd' by (by rewrite <- Hp).
  destruct (column_named name columns') as [a|] eqn:E.
  - apply column_named_Some; [done|]. rewrite Hp. by apply column_named_Some.
  - apply column_named_None. rewrite Hp. by apply column_named_None.
Qed.

Lemma filter_imap_none (name : string) (columns : list Column) (f : nat → nat) :
  name ∉ columns.*1 →
  List.filter (λ ic : nat * Column, bool_decide (ic.2.1 = name)) (imap (λ i c, (f i, c)) columns) = [].
Proof.
  revert f. induction columns as [|[n b] columns IH]; intros f Hn; [done|].
  rewrite imap_cons. simpl in Hn. apply not_elem_of_cons in Hn as [Hne Hn]. cbn [List.filter fst snd].
  rewrite bool_decide_false by done. exact (IH (λ i, f (S i)) Hn).
Qed.

Lemma GetFieldIndex_spec name (columns : list Column) :
  NoDup columns.*1 → (GetFieldIndex name columns ≫= λ i, columns !! i) = pair name <$> column_named name columns.
Proof.
  unfold GetFieldIndex, column_named.
  assert (∀ f : nat → nat, NoDup columns.*1 →
    match List.filter (λ ic : nat * Column, bool_decide (ic.2.1 = name)) (imap (λ i c, (f i, c)) columns) with
    | [ic] => ∃ i, ic.1 = f i ∧ columns !! i = Some ic.2 ∧
        pair name <$> (snd <$> List.find (λ c : Column, bool_decide (c.1 = name)) columns) = Some ic.2
    | _ => (snd <$> List.find (λ c : Column, bool_decide (c.1 = name)) columns) = None
    end) as Hf.
  { induction columns as [|[n b] columns IH]; intros f Hd; [done|]. rewrite imap_cons.
    change (imap ((λ i c, (f i, c)) ∘ S) columns) with (imap (λ i c, (f (S i), c)) columns).
    simpl in Hd. apply NoDup_cons in Hd as [Hn Hd]. cbn [List.filter List.find fst snd]. case_bool_decide as E.
    - subst n. rewrite (filter_imap_none name columns (λ i, f (S i)) Hn). exists O. by split_and!.
    - specialize (IH (λ i, f (S i)) Hd).
      destruct (List.filter _ _) as [|ic [|]]; try done. destruct IH as (i & H1 & H2 & H3).
      exists (S i). by split_and!. }
  intros Hd. specialize (Hf id Hd). change (imap (λ i c, (id i, c)) columns) with (imap pair columns) in Hf.
  destruct (List.filter _ _) as [|ic [|]]; simpl; [by rewrite Hf| |by rewrite Hf].
  destruct Hf as (i & -> & H2 & ->). exact H2.
Qed.

Lemma MakeProjection_spec (m : list (string * string)) (b : ArrowBatch Column) :
  keys_sorted m → NoDup (ab_columns b).*1 →
  MakeProjection m b = Ok {| ab_position := ab_position b; ab_rows := ab_rows b;
    ab_columns := omap (λ on : string * string, pair on.2 <$> column_named on.1 (ab_columns b)) m |}.
Proof.
  intros Hm Hd. unfold MakeProjection, SelectColumns. rewrite omap_omap.
  rewrite (omap_ext_in _ (λ on : string * string, pair on.1 <$> column_named on.1 (ab_columns b)))
    by (intros; by apply GetFieldIndex_spec).
  assert (∀ m', (∀ on, on ∈ m' → on ∈ m) →
    map_ok (λ c : Column, match mfind c.1 m with Some n => Ok (n, c.2) | None => Err (Exn "out_of_range") end)
      (omap (λ on : string * string, pair on.1 <$> column_named on.1 (ab_columns b)) m') =
    Ok (omap (λ on : string * string, pair on.2 <$> column_named on.1 (ab_columns b)) m')) as ->; [|done|done].
  induction m' as [|[o n] m' IH]; intros Hin; [done|]. cbn [omap list_omap fst snd].
  assert (mfind o m = Some n) as Ho by (apply mfind_elem_of; [done|apply Hin; by left]).
  specialize (IH ltac:(intros on Hon; apply Hin; by right)). simpl in IH.
  destruct (column_named o (ab_columns b)); simpl; [rewrite Ho; simpl|]; by rewrite IH.
Qed.
End projections.

(** ** What a data file delivers *)

Section final_stream.
Context {Array : Type} (array_of : list Scalar → Array).
Abbreviation Column := (string * Array)%type.
Context (f : FileReader Array) (chunks : Z → list (RecordBatch Array)).

(** What [parquet::arrow::FileReader] promises of a file without nested
    columns: a row group arrives in the same batches of rows whichever columns
    are asked for, and a batch has the columns asked for. *)
Record reader_ok : Prop := {
  ro_names : NoDup (fn_name <$> fr_fields f);
  ro_columns : ∀ g c, c ∈ chunks g → (rb_columns c).*1 = fn_name <$> fr_fields f;
  ro_read : flat_schema (fr_fields f) → ∀ g cols, 0 ≤ g < Z.of_nat (length (fr_row_groups f)) → NoDup cols →
    (∀ c, c ∈ cols → 0 ≤ c < Z.of_nat (length (fr_fields f))) →
    ∃ batches, GetRecordBatchReader f g cols = Ok (of_list batches) ∧
      Forall2 (λ c b, rb_rows b = rb_rows c ∧ rb_columns b ≡ₚ omap (λ i, rb_columns c !! Z.to_nat i) cols)
        (chunks g) batches;
}.

Fixpoint number_all (row : Z) (l : list (RecordBatch Array)) : list (ArrowBatch Column) :=
  match l with
  | [] => []
  | b :: l => {| ab_position := row; ab_rows := rb_rows b; ab_columns := rb_columns b |} ::
              number_all (wrap_s 64 (row + rb_rows b)) l
  end.

(** The batches of the row groups with all their columns. *)
Definition file_batches (groups : list Z) : list (ArrowBatch Column) :=
  concat ((λ g, number_all (first_row f g) (chunks g)) <$> groups).

(** The same rows, and the columns [cols] of them. *)
Definition selects (cols : list Z) (p b : ArrowBatch Column) : Prop :=
  ab_position b = ab_position p ∧ ab_rows b = ab_rows p ∧
  ab_columns b ≡ₚ omap (λ i, ab_columns p !! Z.to_nat i) cols.

Lemma number_smap cols row l l' :
  Forall2 (λ c b, rb_rows b = rb_rows c ∧ rb_columns b ≡ₚ omap (λ i, rb_columns c !! Z.to_nat i) cols) l l' →
  ∃ out, smap number_batch row (of_list l') = of_list out ∧ Forall2 (selects cols) (number_all row l) out.
Proof.
  intros Hl. revert row. induction Hl as [|c b l l' [Hr Hc] _ IH]; intros row; simpl; [by exists []; split|].
  rewrite Hr. destruct (IH (wrap_s 64 (row + rb_rows c))) as (out & -> & Hout). eexists (_ :: out). split; [done|].
  constructor; [|done]. by split_and!.
Qed.

Lemma ParquetFileReader_spec groups cols :
  reader_ok → flat_schema (fr_fields f) →
  (∀ g, g ∈ groups → 0 ≤ g < Z.of_nat (length (fr_row_groups f))) → NoDup cols →
  (∀ c, c ∈ cols → 0 ≤ c < Z.of_nat (length (fr_fields f))) →
  ∃ out, ParquetFileReader f groups cols = of_list out ∧ Forall2 (selects cols) (file_batches groups) out.
Proof.
  intros Hf Hflat Hg Hd Hc. unfold ParquetFileReader.
  destruct (concat_streams_spec (RowGroupReaderWithRowNumber f cols) (λ _, True)
    (λ g, 0 ≤ g < Z.of_nat (length (fr_row_groups f)))
    (λ g out, Forall2 (selects cols) (number_all (first_row f g) (chunks g)) out)) with (b := ()) (keys := groups)
    as (ls & -> & Hls); [|done|by apply Forall_forall|].
  - intros [] g _ Hgr. destruct (ro_read Hf Hflat g cols Hgr Hd Hc) as (batches & Hb & Hall).
    destruct (number_smap cols (first_row f g) _ _ Hall) as (out & Ho & Hout). exists out, ().
    split; [|done]. unfold RowGroupReaderWithRowNumber. rewrite Hb. cbn [rbind]. by rewrite Ho.
  - eexists. split; [done|]. unfold file_batches. clear -Hls.
    induction Hls as [|g out groups ls H _ IH]; simpl; [constructor|]. by apply Forall2_app.
Qed.

(** ** By field id *)

Context (schema_name_mapper : option (gmap string Z)) (mapper : list (Z * string)).
Context (default_value_map : list (Z * Literal)) (idx : gmap Z nat).

(** The array of a field: its column in the file, or else its default. *)
Definition requested (p : ArrowBatch Column) (id : Z) : option Array :=
  match idx !! id with
  | Some i => snd <$> ab_columns p !! i
  | None => (λ l, array_of (MakeColumn l (ab_rows p))) <$> mfind id default_value_map
  end.

Definition requested_columns (ids : list Z) (p : ArrowBatch Column) : list Column :=
  omap (λ id, pair (FieldIdToColumnName mapper id) <$> requested p id) ids.

Definition delivers (ids : list Z) (p b : ArrowBatch Column) : Prop :=
  ab_position b = ab_position p ∧ ab_rows b = ab_rows p ∧ ab_columns b ≡ₚ requested_columns ids p.

Context (Hf : reader_ok) (Hflat : flat_schema (fr_fields f)).
Context (Hidx : MakeFieldIdToIndexMap (fr_fields f) schema_name_mapper = Ok idx).

Lemma idx_field id i : idx !! id = Some i → ∃ fld, fr_fields f !! i = Some fld.
Proof. intros H. apply lookup_lt_is_Some, (ix_range _ _ (MakeFieldIdToIndexMap_ok _ _ _ Hidx) _ _ H). Qed.

(** The columns of the file among the fields asked for, under their own names. *)
Definition file_columns (ids : list Z) (p : ArrowBatch Column) : list Column :=
  omap (λ id, idx !! id ≫= λ i, ab_columns p !! i) ids.

(** The names of these columns, and the names they get. *)
Definition renaming (ids : list Z) : list (string * string) :=
  omap (λ id, idx !! id ≫= λ i, (λ fld, (fn_name fld, FieldIdToColumnName mapper id)) <$> fr_fields f !! i) ids.

Lemma same_field_id id id' i i' (n : string) :
  idx !! id = Some i → idx !! id' = Some i' →
  fn_name <$> fr_fields f !! i = Some n → fn_name <$> fr_fields f !! i' = Some n → id = id'.
Proof.
  intros Hi Hi' Hn Hn'. rewrite <- list_lookup_fmap in Hn, Hn'.
  assert (i = i') as <- by (by eapply (NoDup_lookup _ _ _ _ (ro_names Hf))).
  by eapply (ix_inj _ _ (MakeFieldIdToIndexMap_ok _ _ _ Hidx)).
Qed.

Lemma renaming_names ids : NoDup ids → NoDup (renaming ids).*1.
Proof.
  intros Hd. unfold renaming. rewrite list_fmap_omap. apply NoDup_omap; [done|]. intros id id' n _ _.
  destruct (idx !! id) as [i|] eqn:Ei; [|done]. destruct (idx !! id') as [i'|] eqn:Ei'; [|done]. cbn.
  destruct (fr_fields f !! i) as [fld|] eqn:E; [|done]. destruct (fr_fields f !! i') as [fld'|] eqn:E'; [|done].
  intros [= <-] [= Hn]. eapply same_field_id; [done|done| |]; [by rewrite E|by rewrite E'; simpl; rewrite Hn].
Qed.

Lemma file_columns_names ids p :
  NoDup ids → (ab_columns p).*1 = fn_name <$> fr_fields f → NoDup (file_columns ids p).*1.
Proof.
  intros Hd Hp. unfold file_columns. rewrite list_fmap_omap. apply NoDup_omap; [done|]. intros id id' n _ _.
  destruct (idx !! id) as [i|] eqn:Ei; [|done]. destruct (idx !! id') as [i'|] eqn:Ei'; [|done]. cbn.
  rewrite <- !list_lookup_fmap, Hp, !list_lookup_fmap. by apply same_field_id.
Qed.

Lemma minsert_renaming l : ∀ acc, keys_sorted acc → NoDup (acc.*1 ++ l.*1) →
  let out := foldl (λ m on, minsert (on.1 : string) (on.2 : string) m) acc l in keys_sorted out ∧ out ≡ₚ acc ++ l.
Proof.
  induction l as [|[o n] l IH]; intros acc Hs Hd; simpl; [by rewrite app_nil_r|].
  assert (mfind o acc = None) as Hnone.
  { destruct (mfind o acc) as [v|] eqn:E; [|done]. apply mfind_elem_of in E; [|done].
    apply NoDup_app in Hd as (_ & Hd & _). destruct (Hd o); [|by left].
    apply list_elem_of_fmap. by exists (o, v). }
  destruct (IH (minsert o n acc)) as [Hs' Hp]; [by apply mupdate_sorted| |].
  - rewrite (minsert_new o n acc Hnone Hs). simpl. simpl in Hd. by rewrite <- Permutation_middle in Hd.
  - split; [done|]. rewrite Hp, (minsert_new o n acc Hnone Hs). simpl. apply Permutation_middle.
Qed.

Definition info_of (id : Z) : ParquetColumnInfo :=
  match idx !! id with
  | Some i => {| ci_field_id := id; column_position := Some i;
                 parquet_name := match fr_fields f !! i with Some fld => fn_name fld | None => "" end;
                 result_name := FieldIdToColumnName mapper id |}
  | None => {| ci_field_id := id; column_position := None; parquet_name := "";
               result_name := FieldIdToColumnName mapper id |}
  end.

Lemma parquet_name_to_result_name_spec ids :
  NoDup ids → keys_sorted (parquet_name_to_result_name (info_of <$> ids)) ∧
              parquet_name_to_result_name (info_of <$> ids) ≡ₚ renaming ids.
Proof.
  intros Hd. destruct (minsert_renaming (renaming ids) [] keys_sorted_nil) as [Hs Hp];
    [by apply renaming_names|].
  assert (∀ acc, foldl (λ m col, match column_position col with
                  | Some _ => minsert (parquet_name col) (result_name col) m | None => m end) acc (info_of <$> ids) =
    foldl (λ m on, minsert (on.1 : string) (on.2 : string) m) acc (renaming ids)) as E;
    [|unfold parquet_name_to_result_name; rewrite E; by split].
  unfold renaming. clear Hs Hp Hd. induction ids as [|id ids IH]; intros acc; [done|].
  cbn [fmap list_fmap foldl omap list_omap]. destruct (idx !! id) as [i|] eqn:Ei.
  - destruct (idx_field id i Ei) as [fld Efld]. cbn. rewrite Efld. cbn. rewrite <- IH.
    f_equal. unfold info_of. by rewrite Ei, Efld.
  - cbn. rewrite <- IH. f_equal. unfold info_of. by rewrite Ei.
Qed.

Lemma projected_columns ids p b :
  NoDup ids → (ab_columns p).*1 = fn_name <$> fr_fields f → ab_columns b ≡ₚ file_columns ids p →
  omap (λ on : string * string, pair on.2 <$> column_named on.1 (ab_columns b)) (renaming ids) =
  omap (λ id, idx !! id ≫= λ i, pair (FieldIdToColumnName mapper id) <$> (snd <$> ab_columns p !! i)) ids.
Proof.
  intros Hd Hp Hb. unfold renaming. rewrite omap_omap. apply omap_ext_in. intros id Hid.
  destruct (idx !! id) as [i|] eqn:Ei; [|done]. cbn. destruct (idx_field id i Ei) as [fld Efld]. rewrite Efld. cbn.
  assert (∃ a, ab_columns p !! i = Some (fn_name fld, a)) as [a Ea].
  { assert ((ab_columns p).*1 !! i = Some (fn_name fld)) as H by (by rewrite Hp, list_lookup_fmap, Efld).
    rewrite list_lookup_fmap in H. destruct (ab_columns p !! i) as [[n a]|]; [|done]. injection H as ->. by exists a. }
  rewrite Ea. cbn. assert (column_named (fn_name fld) (ab_columns b) = Some a) as ->; [|done].
  apply column_named_Some; [rewrite Hb; by apply file_columns_names|]. rewrite Hb. unfold file_columns.
  apply list_elem_of_omap. exists id. by rewrite Ei.
Qed.

Definition remaining (ids : list Z) : list (Z * string) :=
  omap (λ id, match idx !! id, mfind id default_value_map with
              | None, Some _ => Some (id, FieldIdToColumnName mapper id)
              | _, _ => None
              end) ids.

Lemma add_defaults_spec ids (b : ArrowBatch Column) :
  add_defaults array_of default_value_map (remaining ids) b =
  Ok {| ab_position := ab_position b; ab_rows := ab_rows b;
        ab_columns := ab_columns b ++ omap (λ id,
          match idx !! id with
          | None => pair (FieldIdToColumnName mapper id) <$>
              ((λ l, array_of (MakeColumn l (ab_rows b))) <$> mfind id default_value_map)
          | Some _ => None
          end) ids |}.
Proof.
  unfold remaining, add_defaults. revert b. induction ids as [|id ids IH]; intros b; cbn [omap list_omap].
  { destruct b. simpl. by rewrite app_nil_r. }
  destruct (idx !! id); [apply IH|]. destruct (mfind id default_value_map) as [l|] eqn:El; [|apply IH].
  cbn [fold_ok fmap option_fmap option_map]. unfold add_default at 1. cbn [fst snd]. rewrite El. cbn [rbind].
  rewrite IH. cbn [ab_position ab_rows ab_columns]. by rewrite <- app_assoc.
Qed.

Lemma requested_columns_split ids p :
  requested_columns ids p ≡ₚ
  omap (λ id, idx !! id ≫= λ i, pair (FieldIdToColumnName mapper id) <$> (snd <$> ab_columns p !! i)) ids ++
  omap (λ id, match idx !! id with
              | None => pair (FieldIdToColumnName mapper id) <$>
                  ((λ l, array_of (MakeColumn l (ab_rows p))) <$> mfind id default_value_map)
              | Some _ => None
              end) ids.
Proof.
  apply omap_split. intros id _. unfold requested. destruct (idx !! id) as [i|]; [by left|by right].
Qed.

Lemma positions_omap (ids : list Z) :
  omap (λ col, Z.of_nat <$> column_position col) (info_of <$> ids) = omap (λ id, Z.of_nat <$> idx !! id) ids.
Proof. rewrite omap_fmap. apply omap_ext_in. intros id _. unfold info_of. by destruct (idx !! id). Qed.

(** The stream of the fields [ids] of the row groups. *)
Lemma MakeFinalStream_spec groups ids :
  NoDup ids → (∀ g, g ∈ groups → 0 ≤ g < Z.of_nat (length (fr_row_groups f))) →
  ∃ out, MakeFinalStream array_of f schema_name_mapper mapper default_value_map groups ids = Ok (of_list out) ∧
         Forall2 (delivers ids) (file_batches groups) out.
Proof.
  intros Hd Hg. set (cols := omap (λ id, Z.of_nat <$> idx !! id) ids).
  pose proof (MakeFieldIdToIndexMap_ok _ _ _ Hidx) as [Hr Hi].
  destruct (ParquetFileReader_spec groups cols Hf Hflat Hg) as (bs & Hbs & Hsel).
  { apply NoDup_omap; [done|]. intros id id' c _ _ (i & Ei & ->)%fmap_Some (i' & Ei' & ?)%fmap_Some.
    assert (i' = i) as -> by lia. by eapply Hi. }
  { intros c (id & _ & (i & Ei%Hr & ->)%fmap_Some)%list_elem_of_omap. lia. }
  destruct (parquet_name_to_result_name_spec ids Hd) as [Hs Hm].
  set (m := parquet_name_to_result_name (info_of <$> ids)) in *.
  assert (∃ out, map_ok (λ b, let! b := MakeProjection m b in add_defaults array_of default_value_map (remaining ids) b)
    bs = Ok out ∧ Forall2 (delivers ids) (file_batches groups) out) as (out & Hout & Hall).
  { assert (Forall (λ p, (ab_columns p).*1 = fn_name <$> fr_fields f) (file_batches groups)) as Hnames.
    { apply Forall_forall. intros p Hp. unfold file_batches in Hp. apply list_elem_of_In, in_concat in Hp as (l & Hl & Hp).
      apply list_elem_of_In, list_elem_of_fmap in Hl as (g & -> & _). apply list_elem_of_In in Hp.
      pose proof (λ c, ro_columns Hf g c) as Hc. clear -Hc Hp. revert Hp. generalize (first_row f g).
      induction (chunks g) as [|c l IH]; intros row Hp; [by apply elem_of_nil in Hp|].
      apply elem_of_cons in Hp as [->|Hp]; [apply Hc; by left|]. eapply IH; [|done]. intros c' Hc'. apply Hc. by right. }
    clear Hbs Hg. induction Hsel as [|p b ps bs (Hpos & Hrows & Hcols) _ IH]; [by exists []|].
    apply Forall_cons in Hnames as [Hp Hnames]. destruct (IH Hnames) as (out & Hout & Hall).
    assert (ab_columns b ≡ₚ file_columns ids p) as Hb.
    { rewrite Hcols. unfold cols, file_columns. rewrite omap_omap. apply reflexive_eq, omap_ext_in. intros id _.
      destruct (idx !! id); [|done]. cbn. by rewrite Nat2Z.id. }
    cbn [map_ok]. rewrite MakeProjection_spec; [|done|rewrite Hb; by apply file_columns_names]. cbn [rbind].
    rewrite add_defaults_spec. cbn [rbind ab_rows ab_columns ab_position]. rewrite Hout. cbn [rbind].
    eexists. split; [done|]. constructor; [|done]. split_and!; [done|done|]. cbn [ab_columns].
    rewrite requested_columns_split, Hm, (projected_columns ids p b) by done. by rewrite Hrows. }
  exists out. split; [|done]. unfold MakeFinalStream, GetParquetColumnInfos. rewrite Hidx. cbn [rbind].
  change ((λ id, match idx !! id with Some i => _ | None => _ end) <$> ids) with (info_of <$> ids).
  rewrite positions_omap. fold cols m. rewrite Hbs.
  assert (omap (λ col, match column_position col, mfind (ci_field_id col) default_value_map with
    | None, Some _ => Some (ci_field_id col, result_name col) | _, _ => None end) (info_of <$> ids) = remaining ids) as ->.
  { rewrite omap_fmap. apply omap_ext_in. intros id _. unfold info_of. by destruct (idx !! id). }
  f_equal. unfold DefaultValueApplier, ProjectionStream. clear -Hout. revert out Hout.
  induction bs as [|b bs IH]; intros out Hout; cbn [map_ok] in Hout; [by injection Hout as <-|].
  apply rbind_Ok_inv in Hout as (b2 & H1 & Hout). apply rbind_Ok_inv in H1 as (b1 & H1 & H2).
  apply rbind_Ok_inv in Hout as (out' & Hout & [= <-]). cbn [of_list smap]. unfold pure_step at 2.
  rewrite H1. cbn [rbind smap]. unfold pure_step at 1. rewrite H2. cbn [rbind]. by rewrite (IH _ Hout).
Qed.
End final_stream.
