(* ===== verification/StreamAssembly.v ===== *)
(** * StreamAssembly: from planned data files to batches of live rows

    [FileReaderBuilder::Build] of
    [iceberg/streams/iceberg/file_reader_builder.cpp], [DataScanner] of
    [iceberg/streams/iceberg/data_scan.h], [IcebergProjectionStream] of
    [iceberg/streams/iceberg/projection_stream.h] and
    [IcebergScanBuilder::MakeIcebergStream] of
    [iceberg/streams/iceberg/builder.h], which chains the reader of the data
    files with the appliers of equality and positional deletes.

    Files are parameters: the provider opens a path as a data file, as a position
    delete file, as an equality delete file or as a deletion vector.  Logging is
    left out. *)

From stdpp Require Import base list sorting strings gmap.
From Stdlib Require Import ZArith Lia.
From S2P Require Import Prelude OrderedMap Streams Scalars Types Parquet ScanTypes SelectionVector PositionalDelete.
From S2P Require Import DeleteAppliers DeletionVector FileReading EqualityDelete EqualityDeleteHandler.
From S2P Require Import Json Literals ColumnReading.

Local Open Scope Z_scope.

(** ** Inputs *)

Abbreviation column := (string * list cell)%type.

(** [AnnotatedDataPath]. *)
Record AnnotatedDataPath := {
  adp_partition : Z;
  adp_layer : Z;
  adp_path : string;
  segments_ : list Segment;
  dv_info_ : option DeletionVectorInfo;
}.

(** [ice_filter::IRowFilter]. *)
Record IRowFilter := {
  involved_field_ids_ : list Z;
  row_ApplyFilter : ArrowBatch column → result (list Z);
}.

Definition PassThroughFilter (field_ids : list Z) : IRowFilter :=
  {| involved_field_ids_ := field_ids; row_ApplyFilter := λ b, Ok (Set_ (Z.to_nat (ab_rows b))) |}.

(** [IFileReaderProvider], as its users see the files. *)
Record IFileReaderProvider `{Roaring64Map} := {
  OpenData : string → result (FileReader (list cell));
  OpenPositionDeletes : string → result ParquetFile;
  OpenEqualityDeletes : string → result EqualityDeleteFile;
  OpenDeletionVector : string → Z → Z → result DeletionVector;
}.

(** [std::sort], then [erase(unique)]. *)
Definition sort_unique (l : list Z) : list Z := mset l.

(** [std::set_difference] of two sorted ranges without repetitions. *)
Definition set_difference (a b : list Z) : list Z := List.filter (λ x, negb (bool_decide (x ∈ b))) a.

Section builder.
Context `{Roaring64Map} `{WidthSort} `{MemoryAccounting.AbslMap} `{ReaderQueue}.
Context (array_of : list Scalar → list cell).
Context (file_reader_provider : IFileReaderProvider).

(** ** FileReaderBuilder *)

(** What the constructor stores. *)
Record FileReaderBuilder := {
  field_ids_to_retrieve_ : list Z;
  fb_equality_deletes_ : EqualityDeletes;
  mapper_ : list (Z * string);
  rg_filter_ : option (RowGroupMeta → result bool);
  row_filter_ : IRowFilter;
  schema_name_mapper_ : option (gmap string Z);
  default_value_map_ : list (Z * Literal);
}.

(** The members that [Build] changes. *)
Record BuilderState := {
  last_data_file_path_ : string;
  last_dv_ : option DeletionVector;
}.

Definition initial_builder_state : BuilderState := {| last_data_file_path_ := ""; last_dv_ := None |}.

(** A null row filter becomes the filter that passes everything. *)
Definition make_FileReaderBuilder (field_ids_to_retrieve : list Z) (equality_deletes : EqualityDeletes)
    (mapper : list (Z * string)) (rg_filter : option (RowGroupMeta → result bool)) (row_filter : option IRowFilter)
    (schema_name_mapper : option (gmap string Z)) (default_value_map : list (Z * Literal)) : FileReaderBuilder :=
  {| field_ids_to_retrieve_ := field_ids_to_retrieve; fb_equality_deletes_ := equality_deletes; mapper_ := mapper;
     rg_filter_ := rg_filter; row_filter_ := default (PassThroughFilter []) row_filter;
     schema_name_mapper_ := schema_name_mapper; default_value_map_ := default_value_map |}.

Context (fb : FileReaderBuilder).

Definition field_ids_required (a : AnnotatedDataPath) : list Z :=
  sort_unique (field_ids_to_retrieve_ fb ++ GetFieldIds (fb_equality_deletes_ fb) (adp_partition a) (adp_layer a)).

Definition field_ids_for_filter : list Z := sort_unique (involved_field_ids_ (row_filter_ fb)).

Definition field_ids_for_data (a : AnnotatedDataPath) : list Z :=
  set_difference (field_ids_required a) field_ids_for_filter.

(** The row groups that [rg_filter_] does not skip. *)
Definition matching_row_groups (groups : list RowGroupMeta) (row_groups_matching_offsets : list Z) : result (list Z) :=
  match rg_filter_ fb with
  | None => Ok row_groups_matching_offsets
  | Some CanSkipRowGroup =>
      fold_ok (λ result rg_ind,
        match groups !! Z.to_nat rg_ind with
        | None => Err (Exn "row group is out of range")
        | Some rg_meta =>
            let! skip := CanSkipRowGroup rg_meta in
            Ok (if skip : bool then result else result ++ [rg_ind])
        end) [] row_groups_matching_offsets
  end.

(** [IcebergBatch] of a batch of the filtering stream. *)
Definition make_IcebergBatch (a : AnnotatedDataPath) (bs : ArrowBatch column * list Z) : DataBatch :=
  {| place := {| partition_ := adp_partition a; layer_ := adp_layer a; path_ := adp_path a;
                 row_position_ := ab_position bs.1; num_rows := ab_rows bs.1; selection_vector_ := bs.2 |};
     record_batch := ab_columns bs.1 |}.

(** [DeletionVectorApplier::ReadNext] on the next batch of the input. *)
Definition apply_deletion_vector (dv : DeletionVector) (b : DataBatch) : result DataBatch :=
  let! p := ApplyDeletionVector dv (place b) in Ok {| place := p; record_batch := record_batch b |}.

(** The end of [Build]: the deletion vector of the last path is kept. *)
Definition update_dv (a : AnnotatedDataPath) (st : BuilderState) : result BuilderState :=
  if bool_decide (adp_path a = last_data_file_path_ st) then Ok st
  else match dv_info_ a with
       | None => Ok {| last_data_file_path_ := adp_path a; last_dv_ := None |}
       | Some dv_info =>
           let! dv := OpenDeletionVector file_reader_provider (dv_path dv_info) (dv_offset dv_info) (dv_length dv_info) in
           Ok {| last_data_file_path_ := adp_path a; last_dv_ := Some dv |}
       end.

Definition Build (st : BuilderState) (a : AnnotatedDataPath) : result (stream DataBatch * BuilderState) :=
  let! arrow_reader := OpenData file_reader_provider (adp_path a) in
  let! row_groups_matching_offsets := GetRowGroupsToRetrieve (fr_row_groups arrow_reader) (segments_ a) in
  let! matching := matching_row_groups (fr_row_groups arrow_reader) row_groups_matching_offsets in
  let! data_stream := MakeFinalStream array_of arrow_reader (schema_name_mapper_ fb) (mapper_ fb)
                        (default_value_map_ fb) matching (field_ids_for_data a) in
  let! filter_stream := MakeFinalStream array_of arrow_reader (schema_name_mapper_ fb) (mapper_ fb)
                          (default_value_map_ fb) matching field_ids_for_filter in
  let result := smap (pure_step (λ bs, Ok (make_IcebergBatch a bs))) ()
                  (filtered (row_ApplyFilter (row_filter_ fb)) filter_stream data_stream 0) in
  let! st := update_dv a st in
  Ok (match last_dv_ st with
      | Some dv => smap (pure_step (apply_deletion_vector dv)) () result
      | None => result
      end, st).

(** ** DataScanner *)

Definition DataScanner_ReadNext := concat_ReadNext Build.

(** What it delivers for the data files of [meta_stream]. *)
Definition DataScanner (meta_stream : stream AnnotatedDataPath) : stream DataBatch :=
  concat_streams Build initial_builder_state meta_stream.
End builder.

(** ** MakeIcebergStream *)

(** [field_id_to_column_name[col.field_id] = col.name]. *)
Definition MakeMapper (schema : Schema) : list (Z * string) :=
  foldl (λ m col, minsert (nf_field_id col) (nf_name col) m) [] (Columns schema).

(** [insert] keeps the first value of a key. *)
Definition MakeDefaultValueMap (schema : Schema) : list (Z * Literal) :=
  foldl (λ m col, match nf_initial_default col with
                  | Some literal => mupdate (λ o, default literal o) (nf_field_id col) m
                  | None => m
                  end) [] (Columns schema).

(** [IcebergProjectionStream::ReadNext] on the next batch of the input: the
    projection is computed, and the batch that came in is handed on. *)
Definition project_batch (old_name_to_new_name : list (string * string)) (b : DataBatch) : result DataBatch :=
  let batch_with_row_number :=
    {| ab_position := row_position_ (place b); ab_rows := num_rows (place b); ab_columns := record_batch b |} in
  let! _ := MakeProjection old_name_to_new_name batch_with_row_number in
  Ok {| place := place b; record_batch := ab_columns batch_with_row_number |}.

Definition MakeFinalProjection (mapper : list (Z * string)) (field_ids_to_retrieve : list Z) : list (string * string) :=
  foldl (λ projection id, let name := FieldIdToColumnName mapper id in minsert name name projection) []
    field_ids_to_retrieve.

Section make_iceberg_stream.
Context `{Roaring64Map} `{WidthSort} `{MemoryAccounting.AbslMap} `{ReaderQueue} `{RapidJson}.
Context (array_of : list Scalar → list cell).
Context (file_reader_provider : IFileReaderProvider).

(** [PositionalDeleteApplier::ReadNext] on a batch with its columns. *)
Definition positional_step (deletes : PositionalDeletes) (st : PositionalDeleteApplier) (b : DataBatch) :
    result (DataBatch * PositionalDeleteApplier) :=
  let! '(p, st) := apply_batch (OpenPositionDeletes file_reader_provider) deletes st (place b) in
  Ok ({| place := p; record_batch := record_batch b |}, st).

Definition MakeIcebergStream (meta_stream : stream AnnotatedDataPath) (positional_deletes : PositionalDeletes)
    (equality_deletes : EqualityDeletes) (cfg : option Config)
    (rg_filter : option (RowGroupMeta → result bool)) (row_filter : option IRowFilter)
    (schema : Schema) (field_ids_to_retrieve : list Z) (schema_name_mapping : option string) :
    result (stream DataBatch) :=
  let mapper := MakeMapper schema in
  let! schema_name_mapper :=
    match schema_name_mapping with
    | Some text => let! m := make_SchemaNameMapper text in Ok (Some m)
    | None => Ok None
    end in
  let stream_builder := make_FileReaderBuilder field_ids_to_retrieve equality_deletes mapper rg_filter row_filter
                          schema_name_mapper (MakeDefaultValueMap schema) in
  let stream := DataScanner array_of file_reader_provider stream_builder meta_stream in
  let! stream :=
    if negb (is_nil equality_deletes) then
      match cfg with
      | None => Err (Exn "equality deletes are present, but config for equality deletes is not set")
      | Some cfg =>
          Ok (smap (equality_ReadNext (OpenEqualityDeletes file_reader_provider) cfg equality_deletes mapper)
                initial_equality_applier stream)
      end
    else Ok stream in
  let stream :=
    if negb (is_nil positional_deletes) then smap (positional_step positional_deletes) initial_applier stream
    else stream in
  Ok (smap (pure_step (project_batch (MakeFinalProjection mapper field_ids_to_retrieve))) () stream).
End make_iceberg_stream.
