(* ===== verification/Execution.v ===== *)
(** * Execution: the rows that a scan delivers

    The contract of [IcebergScanBuilder::MakeIcebergStream] and its proof: the
    chain of readers and appliers delivers, for every planned data file, the
    batches of its row groups, with the rows selected that the row filter keeps
    and that no deletion vector, equality delete or positional delete removes. *)

From stdpp Require Import base list sorting strings gmap.
From Stdlib Require Import ZArith Lia.
From S2P Require Import Prelude OrderedMap Streams Scalars Types Parquet ScanTypes SelectionVector PositionalDelete.
From S2P Require Import DeleteAppliers DeletionVector FileReading EqualityDelete EqualityDeleteHandler.
From S2P Require Import Json Literals ColumnReading StreamAssembly.

Local Open Scope Z_scope.

(** ** Lists *)

Lemma Forall2_compose {A B C} (P : A → B → Prop) (Q : B → C → Prop) (R : A → C → Prop) l k m :
  (∀ x y z, P x y → Q y z → R x z) → Forall2 P l k → Forall2 Q k m → Forall2 R l m.
Proof.
  intros HR Hl. revert m. induction Hl; intros m Hm; inversion Hm; subst; constructor; eauto.
Qed.

Lemma Forall2_keys {A B} (R : A → B → Prop) (l : list A) (k : list B) :
  Forall2 R l k → Forall (λ b, ∃ a, a ∈ l ∧ R a b) k.
Proof.
  intros Hl. apply Forall_forall. intros b [i Hi]%list_elem_of_lookup.
  destruct (Forall2_lookup_r _ _ _ _ _ Hl Hi) as (a & Ha & HR). exists a. split; [by eapply list_elem_of_lookup_2|done].
Qed.

(** ** Row groups *)

Lemma row_groups_loop_range groups : ∀ i segments out,
  row_groups_loop i groups segments = Ok out → ∀ g, g ∈ out → i ≤ g < i + Z.of_nat (length groups).
Proof.
  induction groups as [|m groups IH]; intros i segments out H g Hg; cbn [row_groups_loop] in H.
  { injection H as <-. by apply elem_of_nil in Hg. }
  apply rbind_Ok_inv in H as (off & _ & H). destruct (find_segment off segments) as [taken segments'].
  apply rbind_Ok_inv in H as (rest & Hrest & H). injection H as <-. cbn [length].
  assert (g ∈ rest → i ≤ g < i + Z.of_nat (S (length groups))) as Hin by (intros Hr; apply (IH _ _ _ Hrest) in Hr; lia).
  destruct taken; [|by apply Hin]. apply elem_of_cons in Hg as [->|Hg]; [lia|by apply Hin].
Qed.

Lemma matching_row_groups_sub fb groups offs out :
  matching_row_groups fb groups offs = Ok out → out `sublist_of` offs.
Proof.
  unfold matching_row_groups. destruct (rg_filter_ fb) as [skip|]; [|by intros [= <-]].
  assert (∀ acc offs out, fold_ok (λ result rg_ind, match groups !! Z.to_nat rg_ind with
    | None => Err (Exn "row group is out of range")
    | Some rg_meta => let! sk := skip rg_meta in Ok (if sk : bool then result else result ++ [rg_ind]) end) acc offs = Ok out →
    ∃ kept, out = acc ++ kept ∧ kept `sublist_of` offs) as Hf.
  { clear. intros acc offs. revert acc. induction offs as [|g offs IH]; intros acc out H; cbn [fold_ok] in H.
    { injection H as <-. exists []. by rewrite app_nil_r. }
    apply rbind_Ok_inv in H as (acc1 & H1 & H). apply IH in H as (kept & -> & Hk).
    destruct (groups !! Z.to_nat g); [|done]. apply rbind_Ok_inv in H1 as ([] & _ & [= <-]).
    - exists kept. split; [done|]. by constructor.
    - exists (g :: kept). rewrite <- app_assoc. split; [done|]. by constructor. }
  intros H. by apply Hf in H as (kept & -> & Hk).
Qed.

(** ** Batches up to the order of their columns *)

Lemma GetColumnByName_named name b :
  NoDup (record_batch b).*1 → GetColumnByName name b = column_named name (record_batch b).
Proof.
  unfold GetColumnByName, column_named. generalize (record_batch b) as columns.
  assert (∀ columns : list column, name ∉ columns.*1 →
    List.filter (λ c, bool_decide (c.1 = name)) columns = []) as Hnone.
  { induction columns as [|[n a] columns IH]; intros Hn; simpl; [done|]. simpl in Hn.
    apply not_elem_of_cons in Hn as [Hne Hn]. rewrite bool_decide_false by done. by apply IH. }
  induction columns as [|[n a] columns IH]; intros Hd; simpl; [done|]. simpl in Hd.
  apply NoDup_cons in Hd as [Hn Hd]. case_bool_decide as E; simpl; [|by apply IH].
  subst. by rewrite Hnone.
Qed.

(** The batch [b'] is [b] with some rows no longer selected; the columns may
    stand in another order. *)
Record refines_batch (b b' : DataBatch) : Prop := {
  rf_place : place b' = set_selection (selection_vector_ (place b')) (place b);
  rf_sub : selection_vector_ (place b') `sublist_of` selection_vector_ (place b);
  rf_columns : record_batch b' ≡ₚ record_batch b;
}.

Lemma refines_batch_trans a b c : refines_batch a b → refines_batch b c → refines_batch a c.
Proof.
  intros [Hp Hs Hc] [Hp' Hs' Hc']. split; [|by etrans|by etrans].
  rewrite Hp' at 1. rewrite Hp. by destruct (place a).
Qed.

Lemma refines_same b b' :
  refines_batch b b' → partition_ (place b') = partition_ (place b) ∧ layer_ (place b') = layer_ (place b) ∧
  path_ (place b') = path_ (place b) ∧ row_position_ (place b') = row_position_ (place b) ∧
  num_rows (place b') = num_rows (place b).
Proof. intros [-> _ _]. by destruct (place b). Qed.

Lemma refines_elem b b' i :
  refines_batch b b' → i ∈ selection_vector_ (place b') → i ∈ selection_vector_ (place b).
Proof. intros Hr Hi. eapply elem_of_sublist; [done|apply Hr]. Qed.

Lemma refines_batch_ok b b' : refines_batch b b' → batch_ok (place b) → batch_ok (place b').
Proof.
  intros Hr Hb. destruct (refines_same _ _ Hr) as (_ & _ & _ & Hp & Hn). split.
  - rewrite Hn. apply Hb.
  - rewrite Hp, Hn. apply Hb.
  - pose proof (bk_sorted _ Hb) as Hsort. pose proof (rf_sub _ _ Hr) as Hsub. clear -Hsort Hsub.
    induction Hsub as [|x l k Hs IH|x l k Hs IH]; [constructor| |]; apply SSorted_cons in Hsort as [Hx Hsort].
    + apply SSorted_cons. split; [|by apply IH]. intros y Hy. apply Hx. by eapply elem_of_sublist.
    + by apply IH.
  - intros i Hi. rewrite Hn. apply Hb. by eapply refines_elem.
Qed.

Section columns_up_to.
Context (names : list (Z * string)) (b b' : DataBatch).
Context (Hr : refines_batch b b') (Hd : NoDup (record_batch b).*1).

Lemma refines_column id : column_of names b' id = column_of names b id.
Proof.
  unfold column_of. rewrite !GetColumnByName_named; [|done|by rewrite (rf_columns _ _ Hr)].
  apply column_named_perm; [by rewrite (rf_columns _ _ Hr)|apply Hr].
Qed.

Lemma refines_cells ids i : data_cells names b' ids i = data_cells names b ids i.
Proof. unfold data_cells. apply omap_ext_in. intros id _. by rewrite refines_column. Qed.

Lemma refines_row_deleted_by open l i : row_deleted_by open names l b' i ↔ row_deleted_by open names l b i.
Proof.
  unfold row_deleted_by. destruct (refines_same _ _ Hr) as (_ & Hl & _). rewrite Hl.
  by setoid_rewrite refines_cells.
Qed.

Lemma refines_data_ok cfg ty l : data_ok cfg names ty l b → data_ok cfg names ty l b'.
Proof.
  intros [H1 H2 H3]. split.
  - intros layer info id Hl Hid. destruct (H1 _ _ _ Hl Hid) as (a & Ha & Hs). exists a.
    rewrite refines_column. split; [done|]. intros i Hi. by eapply Hs, refines_elem.
  - intros layer info i Hl Hi. rewrite refines_cells. by eapply H2, refines_elem.
  - intros layer info i Hl Hi. rewrite refines_cells. by eapply H3, refines_elem.
Qed.
End columns_up_to.

Lemma refines_pos_deleted open deletes b b' i :
  refines_batch b b' → row_deleted open deletes (place b') i ↔ row_deleted open deletes (place b) i.
Proof.
  intros Hr. destruct (refines_same _ _ Hr) as (H1 & H2 & H3 & H4 & _). unfold row_deleted.
  by rewrite H1, H2, H3, H4.
Qed.

(** ** Names of the columns of a batch *)

Lemma NoDup_mset (l : list Z) : NoDup (mset l).
Proof.
  pose proof (mset_sorted l) as Hs. induction Hs as [|x xs _ IH Hall]; constructor; [|done].
  intros Hin. rewrite Forall_forall in Hall. by apply (klt_irrefl x), Hall.
Qed.

Section names.
Context {Array : Type} (array_of : list Scalar → Array) (mapper : list (Z * string)).
Context (defaults : list (Z * Literal)) (idx : gmap Z nat).
Context (Hsort : keys_sorted mapper) (Hnames : NoDup mapper.*2).
Abbreviation columns_of := (requested_columns array_of mapper defaults idx).

Lemma requested_columns_names ids p : NoDup ids → NoDup (columns_of ids p).*1.
Proof.
  intros Hd. unfold requested_columns. rewrite list_fmap_omap. apply NoDup_omap; [done|].
  intros id id' n _ _ (c & Hc & ->)%fmap_Some (c' & Hc' & E)%fmap_Some.
  apply fmap_Some in Hc as (x & _ & ->). apply fmap_Some in Hc' as (x' & _ & ->).
  by apply (FieldIdToColumnName_inj mapper).
Qed.

Lemma column_named_requested ids p cols id :
  NoDup ids → cols ≡ₚ columns_of ids p → id ∈ ids →
  column_named (FieldIdToColumnName mapper id) cols = requested array_of defaults idx p id.
Proof.
  intros Hd Hp Hid. assert (NoDup cols.*1) as Hc by (rewrite Hp; by apply requested_columns_names).
  destruct (requested array_of defaults idx p id) as [x|] eqn:E.
  - apply column_named_Some; [done|]. rewrite Hp. apply list_elem_of_omap. exists id. by rewrite E.
  - apply column_named_None. rewrite Hp. unfold requested_columns. rewrite list_fmap_omap.
    intros (id' & _ & (c & Hc' & En)%fmap_Some)%list_elem_of_omap. apply fmap_Some in Hc' as (x & Hx & ->).
    apply (FieldIdToColumnName_inj mapper) in En; [|done|done]. subst. congruence.
Qed.
End names.

(** ** What the chain has to deliver *)

Section execution.
Context `{Roaring64Map} `{WidthSort} `{MemoryAccounting.AbslMap} `{ReaderQueue} `{RapidJson}.
Context (array_of : list Scalar → list cell) (files : IFileReaderProvider).
(** The record batches of the row groups of the data files. *)
Context (chunks : string → Z → list (RecordBatch (list cell))).
Context (fb : FileReaderBuilder).
(** The row filter decides on the arrays of the fields it involves. *)
Context (matches : list (option (list cell)) → Z → bool).

Definition groups_read (a : AnnotatedDataPath) (f : FileReader (list cell)) : result (list Z) :=
  let! offs := GetRowGroupsToRetrieve (fr_row_groups f) (segments_ a) in matching_row_groups fb (fr_row_groups f) offs.

(** The batches of the row groups that are read, with all columns. *)
Definition path_batches (a : AnnotatedDataPath) : list (ArrowBatch column) :=
  match OpenData files (adp_path a) with
  | Ok f => match groups_read a f with Ok gs => file_batches f (chunks (adp_path a)) gs | Err _ => [] end
  | Err _ => []
  end.

Definition path_index (a : AnnotatedDataPath) : gmap Z nat :=
  match OpenData files (adp_path a) with
  | Ok f => match MakeFieldIdToIndexMap (fr_fields f) (schema_name_mapper_ fb) with Ok m => m | Err _ => ∅ end
  | Err _ => ∅
  end.

(** The array of a field, from the file or by default. *)
Definition field_array (a : AnnotatedDataPath) : ArrowBatch column → Z → option (list cell) :=
  requested array_of (default_value_map_ fb) (path_index a).

Definition ids_read (a : AnnotatedDataPath) : list Z := field_ids_for_data fb a ++ field_ids_for_filter fb.

Definition filter_rows (a : AnnotatedDataPath) (p : ArrowBatch column) : list Z :=
  List.filter (λ i, matches (field_array a p <$> field_ids_for_filter fb) i) (Set_ (Z.to_nat (ab_rows p))).

(** The batch with the fields asked for and the rows that pass the filter. *)
Definition planned (a : AnnotatedDataPath) (p : ArrowBatch column) : DataBatch :=
  make_IcebergBatch a
    ({| ab_position := ab_position p; ab_rows := ab_rows p;
        ab_columns := requested_columns array_of (mapper_ fb) (default_value_map_ fb) (path_index a) (ids_read a) p |},
     filter_rows a p).

Definition kept (a : AnnotatedDataPath) : list (ArrowBatch column) :=
  List.filter (λ p, negb (is_nil (filter_rows a p))) (path_batches a).

(** All batches, in the order of the data files. *)
Definition scanned (metas : list AnnotatedDataPath) : list (AnnotatedDataPath * ArrowBatch column) :=
  flat_map (λ a, pair a <$> kept a) metas.

Definition dv_of (a : AnnotatedDataPath) : result (option DeletionVector) :=
  match dv_info_ a with
  | None => Ok None
  | Some i => let! dv := OpenDeletionVector files (dv_path i) (dv_offset i) (dv_length i) in Ok (Some dv)
  end.

Definition dv_deleted (a : AnnotatedDataPath) (p : ArrowBatch column) (i : Z) : Prop :=
  ∃ dv, dv_of a = Ok (Some dv) ∧ ab_position p + i ∈ elems (bitmap_ dv).

(** ** What it relies on *)

(** A batch of rows within the file. *)
Definition rows_ok (p : ArrowBatch column) : Prop :=
  1 ≤ ab_rows p ≤ max_batch ∧ 0 ≤ ab_position p ∧ ab_position p + ab_rows p ≤ int64_max.

(** The data file can be read. *)
Record path_ok (a : AnnotatedDataPath) : Prop := {
  po_file : ∃ f idx gs, OpenData files (adp_path a) = Ok f ∧ reader_ok f (chunks (adp_path a)) ∧
    flat_schema (fr_fields f) ∧ MakeFieldIdToIndexMap (fr_fields f) (schema_name_mapper_ fb) = Ok idx ∧
    groups_read a f = Ok gs;
  po_rows : Forall rows_ok (path_batches a);
  po_dv : ∃ d, dv_of a = Ok d;
  po_path : adp_path a ≠ "";
}.

(** The contract of a row filter: ascending numbers of the rows on which it holds. *)
Definition row_filter_ok : Prop := ∀ b, NoDup (ab_columns b).*1 →
  row_ApplyFilter (row_filter_ fb) b =
  Ok (List.filter (λ i, matches ((λ id, column_named (FieldIdToColumnName (mapper_ fb) id) (ab_columns b))
                                  <$> field_ids_for_filter fb) i) (Set_ (Z.to_nat (ab_rows b)))).

Definition mapper_ok : Prop := keys_sorted (mapper_ fb) ∧ NoDup (mapper_ fb).*2.

(** Entries of one data file agree on its deletion vector. *)
Definition dvs_agree (metas : list AnnotatedDataPath) : Prop :=
  ∀ a a', a ∈ metas → a' ∈ metas → adp_path a = adp_path a' → dv_info_ a = dv_info_ a'.

(** ** The reader of a data file *)

Context (Hmapper : mapper_ok) (Hfilter : row_filter_ok).

Lemma ids_read_nodup a : NoDup (ids_read a).
Proof.
  unfold ids_read, field_ids_for_data, set_difference. apply NoDup_app. split_and!; [|  |apply NoDup_mset].
  - apply NoDup_ListNoDup, List.NoDup_filter, NoDup_ListNoDup, NoDup_mset.
  - intros id. rewrite list_elem_of_In, filter_In, negb_true_iff, bool_decide_eq_false. naive_solver.
Qed.

Lemma planned_names a p : NoDup (record_batch (planned a p)).*1.
Proof. destruct Hmapper. by apply requested_columns_names; [| |apply ids_read_nodup]. Qed.

Lemma filter_rows_sub a p : filter_rows a p `sublist_of` Set_ (Z.to_nat (ab_rows p)).
Proof. apply sublist_filter_l. Qed.

Lemma planned_batch_ok a p : rows_ok p → batch_ok (place (planned a p)).
Proof.
  intros (Hn & Hp & Hm). assert (batch_ok (set_selection (Set_ (Z.to_nat (ab_rows p))) (place (planned a p)))) as Hb.
  { split; simpl; [lia|lia|apply Set_sorted|]. intros i (y & -> & Hy%elem_of_seq)%list_elem_of_fmap. lia. }
  apply (refines_batch_ok {| place := set_selection (Set_ (Z.to_nat (ab_rows p))) (place (planned a p));
                             record_batch := record_batch (planned a p) |}); [|done].
  split; [done|apply filter_rows_sub|done].
Qed.

(** The filter sees the arrays of the fields it involves. *)
Lemma filter_sees a p b :
  delivers array_of (mapper_ fb) (default_value_map_ fb) (path_index a) (field_ids_for_filter fb) p b →
  row_ApplyFilter (row_filter_ fb) b = Ok (filter_rows a p).
Proof.
  intros (_ & Hrows & Hcols). destruct Hmapper as [Hs Hn]. assert (NoDup (field_ids_for_filter fb)) as Hd by apply NoDup_mset.
  rewrite Hfilter by (rewrite Hcols; by apply requested_columns_names). unfold filter_rows. rewrite Hrows. f_equal.
  assert ((λ id, column_named (FieldIdToColumnName (mapper_ fb) id) (ab_columns b)) <$> field_ids_for_filter fb =
    field_array a p <$> field_ids_for_filter fb) as ->; [|done].
  apply list_fmap_ext. intros k id Hid%list_elem_of_lookup_2. by eapply column_named_requested.
Qed.

(** What the filtering stream delivers for a batch. *)
Definition after_filter (a : AnnotatedDataPath) (p : ArrowBatch column) (b : DataBatch) : Prop :=
  refines_batch (planned a p) b ∧ selection_vector_ (place b) = filter_rows a p.

Lemma filtered_batches a ps fs ds :
  Forall rows_ok ps →
  Forall2 (delivers array_of (mapper_ fb) (default_value_map_ fb) (path_index a) (field_ids_for_filter fb)) ps fs →
  Forall2 (delivers array_of (mapper_ fb) (default_value_map_ fb) (path_index a) (field_ids_for_data fb a)) ps ds →
  ∃ out, filtered (row_ApplyFilter (row_filter_ fb)) (of_list fs) (of_list ds) 0 = of_list out ∧
    Forall2 (after_filter a) (List.filter (λ p, negb (is_nil (filter_rows a p))) ps) (make_IcebergBatch a <$> out).
Proof.
  intros Hrows Hf Hd.
  set (sel := λ b, match row_ApplyFilter (row_filter_ fb) b with Ok s => s | Err _ => [] end).
  exists (selected sel fs ds). split.
  - apply (filtered_spec _ sel fs ds []); [| |constructor].
    + clear Hd. induction Hf as [|p b ps fs Hb _ IH]; constructor; [|apply IH; by apply Forall_cons in Hrows as [_ ?]].
      unfold sel. by rewrite (filter_sees a p b Hb).
    + revert ds Hd. induction Hf as [|p b ps fs Hb _ IH]; intros ds Hd; inversion Hd as [|? d ? ds' Hd1 Hd2]; subst;
        constructor; apply Forall_cons in Hrows as [Hp Hrows]; [|by apply IH].
      destruct Hb as (E1 & E2 & _), Hd1 as (E3 & E4 & _), Hp. split_and!; [congruence|congruence|lia].
  - revert ds Hd. induction Hf as [|p b ps fs Hb _ IH]; intros ds Hd; inversion Hd as [|? d ? ds' Hd1 Hd2]; subst;
      [constructor|]. apply Forall_cons in Hrows as [Hp Hrows]. cbn [selected List.filter].
    assert (sel b = filter_rows a p) as Hsel by (unfold sel; by rewrite (filter_sees a p b Hb)). rewrite Hsel.
    specialize (IH Hrows ds' Hd2). destruct (filter_rows a p) as [|i rest] eqn:Er; cbn [is_nil negb].
    { rewrite bool_decide_true by done. exact IH. }
    rewrite bool_decide_false by done. rewrite fmap_cons. constructor; [|exact IH].
    destruct Hb as (E1 & E2 & E3), Hd1 as (_ & _ & E6). split; [|by rewrite Er]. split.
    + unfold planned, make_IcebergBatch, joined, set_selection. cbn. by rewrite E1, E2.
    + cbn. by rewrite Er.
    + cbn. unfold ids_read, requested_columns. rewrite omap_app. by rewrite E3, E6.
Qed.

(** What the builder remembers is the deletion vector of the last path. *)
Definition builder_inv (metas : list AnnotatedDataPath) (st : BuilderState) : Prop :=
  last_data_file_path_ st = "" ∨
  ∃ a, a ∈ metas ∧ last_data_file_path_ st = adp_path a ∧ dv_of a = Ok (last_dv_ st).

Lemma update_dv_spec metas st a :
  dvs_agree metas → builder_inv metas st → a ∈ metas → path_ok a →
  ∃ st', update_dv files a st = Ok st' ∧ dv_of a = Ok (last_dv_ st') ∧ builder_inv metas st'.
Proof.
  intros Hag Hinv Ha Hok. unfold update_dv. case_bool_decide as E.
  - exists st. split; [done|]. split; [|done]. destruct Hinv as [He|(a' & Ha' & Hp & Hdv)].
    + destruct (po_path a Hok). congruence.
    + rewrite <- Hdv. unfold dv_of. rewrite (Hag a a'); [done|done|done|congruence].
  - destruct (po_dv a Hok) as [d Hd]. unfold dv_of in Hd. destruct (dv_info_ a) as [i|] eqn:Ei.
    + apply rbind_Ok_inv in Hd as (dv & Hopen & _). rewrite Hopen. cbn [rbind]. eexists. split; [done|].
      assert (dv_of a = Ok (Some dv)) as Hdv by (unfold dv_of; by rewrite Ei, Hopen).
      split; [done|]. right. by exists a.
    + eexists. split; [done|]. assert (dv_of a = Ok None) as Hdv by (unfold dv_of; by rewrite Ei).
      split; [done|]. right. by exists a.
Qed.

Definition after_dv (a : AnnotatedDataPath) (p : ArrowBatch column) (b : DataBatch) : Prop :=
  refines_batch (planned a p) b ∧
  ∀ i, i ∈ selection_vector_ (place b) ↔ i ∈ filter_rows a p ∧ ¬ dv_deleted a p i.

Lemma apply_dv_spec a p b dv :
  rows_ok p → after_filter a p b → dv_of a = Ok (Some dv) →
  ∃ b', apply_deletion_vector dv b = Ok b' ∧ after_dv a p b'.
Proof.
  intros Hp [Hr Hs] Hdv. pose proof (refines_batch_ok _ _ Hr (planned_batch_ok a p Hp)) as Hb.
  destruct (refines_same _ _ Hr) as (_ & _ & _ & Hpos & Hn). destruct Hp as (Hn1 & _).
  destruct (ApplyDeletionVector_spec dv (place b) Hb) as (sv & E & Hsub & Hsv); [by rewrite Hn|].
  unfold apply_deletion_vector. rewrite E. cbn [rbind]. eexists. split; [done|]. split.
  - eapply refines_batch_trans; [done|]. by split; [by destruct (place b)|cbn; by destruct (place b)|].
  - intros i. cbn. rewrite Hsv, Hs, Hpos. split; (intros [Hi Hd]; split; [done|]).
    + intros (dv' & Hdv' & Hin). rewrite Hdv in Hdv'. by injection Hdv' as <-.
    + intros Hin. apply Hd. by exists dv.
Qed.

Lemma no_dv a p b : after_filter a p b → dv_of a = Ok None → after_dv a p b.
Proof.
  intros [Hr Hs] Hdv. split; [done|]. intros i. rewrite Hs. split; [|by intros [? _]]. intros Hi. split; [done|].
  intros (dv & Hdv' & _). congruence.
Qed.

Lemma Build_spec metas st a :
  dvs_agree metas → builder_inv metas st → a ∈ metas → path_ok a →
  ∃ l st', Build array_of files fb st a = Ok (of_list l, st') ∧ Forall2 (after_dv a) (kept a) l ∧ builder_inv metas st'.
Proof.
  intros Hag Hinv Ha Hok. destruct (po_file a Hok) as (f & idx & gs & Hopen & Hreader & Hflat & Hidx & Hgs).
  pose proof (po_rows a Hok) as Hrows. unfold kept.
  assert (path_index a = idx) as Ei by (unfold path_index; by rewrite Hopen, Hidx).
  assert (path_batches a = file_batches f (chunks (adp_path a)) gs) as Eb by (unfold path_batches; by rewrite Hopen, Hgs).
  apply rbind_Ok_inv in Hgs as (offs & Hoffs & Hgs).
  assert (∀ g, g ∈ gs → 0 ≤ g < Z.of_nat (length (fr_row_groups f))) as Hrange.
  { intros g Hg. eapply elem_of_sublist in Hg; [|by eapply matching_row_groups_sub].
    apply (row_groups_loop_range _ _ _ _ Hoffs) in Hg. lia. }
  pose proof (ids_read_nodup a) as (Hd & _ & Hdf)%NoDup_app.
  destruct (MakeFinalStream_spec array_of f (chunks (adp_path a)) (schema_name_mapper_ fb) (mapper_ fb)
    (default_value_map_ fb) idx Hreader Hflat Hidx gs _ Hd Hrange) as (ds & Hds & Hdall).
  destruct (MakeFinalStream_spec array_of f (chunks (adp_path a)) (schema_name_mapper_ fb) (mapper_ fb)
    (default_value_map_ fb) idx Hreader Hflat Hidx gs _ Hdf Hrange) as (fs & Hfs & Hfall).
  rewrite <- Eb, <- Ei in Hdall, Hfall. destruct (filtered_batches a _ fs ds Hrows Hfall Hdall) as (out & Hout & Hall).
  destruct (update_dv_spec metas st a Hag Hinv Ha Hok) as (st' & Hst & Hdv & Hinv').
  unfold Build. rewrite Hopen. cbn [rbind]. rewrite Hoffs. cbn [rbind]. rewrite Hgs. cbn [rbind].
  rewrite Hds. cbn [rbind]. rewrite Hfs. cbn [rbind]. rewrite Hst. cbn [rbind]. rewrite Hout.
  rewrite (smap_pure_Ok _ out (make_IcebergBatch a <$> out)) by (by apply map_ok_fmap).
  assert (Forall rows_ok (List.filter (λ p, negb (is_nil (filter_rows a p))) (path_batches a))) as Hrows'.
  { rewrite Forall_forall in Hrows |- *. intros p. rewrite list_elem_of_In, filter_In, <- list_elem_of_In. naive_solver. }
  destruct (last_dv_ st') as [dv|].
  - assert (∃ l, map_ok (apply_deletion_vector dv) (make_IcebergBatch a <$> out) = Ok l ∧
      Forall2 (after_dv a) (List.filter (λ p, negb (is_nil (filter_rows a p))) (path_batches a)) l) as (l & Hl & Hall').
    { clear -Hrows' Hall Hdv Hmapper. induction Hall as [|p b ps bs Hb _ IH]; [by exists []|].
      apply Forall_cons in Hrows' as [Hp Hrows']. destruct (IH Hrows') as (l & Hl & Hall').
      destruct (apply_dv_spec a p b dv Hp Hb Hdv) as (b' & Hb' & Hafter). exists (b' :: l).
      split; [|by constructor]. cbn [map_ok]. rewrite Hb'. cbn [rbind]. by rewrite Hl. }
    exists l, st'. by rewrite (smap_pure_Ok _ _ _ Hl).
  - eexists _, st'. split; [done|]. split; [|done]. eapply Forall2_impl; [done|]. intros p b Hb. by apply no_dv.
Qed.

Lemma DataScanner_spec metas :
  dvs_agree metas → Forall path_ok metas →
  ∃ out, DataScanner array_of files fb (of_list metas) = of_list out ∧
    Forall2 (λ ap b, after_dv ap.1 ap.2 b) (scanned metas) out.
Proof.
  intros Hag Hok. unfold DataScanner.
  destruct (concat_streams_spec (Build array_of files fb) (builder_inv metas) (λ a, a ∈ metas ∧ path_ok a)
    (λ a l, Forall2 (after_dv a) (kept a) l)) with (b := initial_builder_state) (keys := metas) as (ls & -> & Hls).
  - intros st a Hinv [Ha Hpath]. by apply Build_spec.
  - by left.
  - rewrite Forall_forall in Hok |- *. intros a Ha. by split; [|apply Hok].
  - eexists. split; [done|]. unfold scanned. clear -Hls. induction Hls as [|a l metas ls Hl _ IH]; simpl; [constructor|].
    apply Forall2_app; [|done]. by apply Forall2_fmap_l.
Qed.
End execution.

(** ** The whole chain *)

Section scan.
Context `{Roaring64Map} `{WidthSort} `{MemoryAccounting.AbslMap} `{ReaderQueue} `{RapidJson}.
Context (array_of : list Scalar → list cell) (files : IFileReaderProvider).
Context (chunks : string → Z → list (RecordBatch (list cell))).
Context (matches : list (option (list cell)) → Z → bool) (ty : Z → Arrow.type).

(** The arguments of [MakeIcebergStream]. *)
Context (metas : list AnnotatedDataPath) (positional_deletes : PositionalDeletes) (equality_deletes : EqualityDeletes).
Context (cfg : option Config) (rg_filter : option (RowGroupMeta → result bool)) (row_filter : option IRowFilter).
Context (schema : Schema) (field_ids : list Z) (schema_name_mapping : option string).
Context (schema_name_mapper : option (gmap string Z)).

Definition scan_builder : FileReaderBuilder :=
  make_FileReaderBuilder field_ids equality_deletes (MakeMapper schema) rg_filter row_filter schema_name_mapper
    (MakeDefaultValueMap schema).

Abbreviation plan_batch := (planned array_of files scan_builder matches).
Abbreviation plan_batches := (scanned array_of files chunks scan_builder matches metas).

(** The rows of the batch that the scan has to deliver. *)
Definition live_row (a : AnnotatedDataPath) (p : ArrowBatch column) (i : Z) : Prop :=
  i ∈ filter_rows array_of files scan_builder matches a p ∧ ¬ dv_deleted files a p i ∧
  ¬ row_deleted_by (OpenEqualityDeletes files) (MakeMapper schema)
      (deletes_of equality_deletes (plan_batch a p)) (plan_batch a p) i ∧
  ¬ row_deleted (OpenPositionDeletes files) positional_deletes (place (plan_batch a p)) i.

Definition live_batch (ap : AnnotatedDataPath * ArrowBatch column) (b : DataBatch) : Prop :=
  refines_batch (plan_batch ap.1 ap.2) b ∧
  ∀ i, i ∈ selection_vector_ (place b) ↔ live_row ap.1 ap.2 i.

(** What the scan relies on: readable files, a row filter that keeps its
    contract, distinct column names, and for equality deletes a configuration and
    the columns of all deletes of the partition in every batch. *)
Record scan_ok : Prop := {
  so_names : NoDup (MakeMapper schema).*2;
  so_mapping : match schema_name_mapping with
               | Some text => make_SchemaNameMapper text = Ok (default ∅ schema_name_mapper) ∧ is_Some schema_name_mapper
               | None => schema_name_mapper = None
               end;
  so_filter : row_filter_ok scan_builder matches;
  so_files : Forall (path_ok files chunks scan_builder) metas;
  so_dvs : dvs_agree metas;
  so_positional : DeleteAppliers.deletes_ok (OpenPositionDeletes files) positional_deletes;
  so_equality : equality_deletes ≠ [] → ∃ c, cfg = Some c ∧ throw_if_memory_limit_exceeded c = false ∧ ∀ a p, (a, p) ∈ plan_batches →
    EqualityDeleteHandler.deletes_ok (OpenEqualityDeletes files) c equality_deletes ty (adp_partition a) ∧
    data_ok c (MakeMapper schema) ty (deletes_of equality_deletes (plan_batch a p)) (plan_batch a p);
}.

Context (Hok : scan_ok).

Lemma MakeMapper_sorted : keys_sorted (MakeMapper schema).
Proof.
  unfold MakeMapper. generalize (@keys_sorted_nil Z string _). generalize (@nil (Z * string)).
  induction (Columns schema) as [|c cs IH]; intros m Hm; simpl; [done|]. by apply IH, mupdate_sorted.
Qed.

Lemma MakeFinalProjection_sorted mapper ids : keys_sorted (MakeFinalProjection mapper ids).
Proof.
  unfold MakeFinalProjection. generalize (@keys_sorted_nil string string _). generalize (@nil (string * string)).
  induction ids as [|id ids IH]; intros m Hm; simpl; [done|]. by apply IH, mupdate_sorted.
Qed.

Lemma scan_mapper_ok : mapper_ok scan_builder.
Proof. split; [apply MakeMapper_sorted|apply Hok]. Qed.

(** The batch of a key, when only the equality deletes are left to apply. *)
Definition after_equality (ap : AnnotatedDataPath * ArrowBatch column) (b : DataBatch) : Prop :=
  refines_batch (plan_batch ap.1 ap.2) b ∧
  ∀ i, i ∈ selection_vector_ (place b) ↔
    i ∈ filter_rows array_of files scan_builder matches ap.1 ap.2 ∧ ¬ dv_deleted files ap.1 ap.2 i ∧
    ¬ row_deleted_by (OpenEqualityDeletes files) (MakeMapper schema)
      (deletes_of equality_deletes (plan_batch ap.1 ap.2)) (plan_batch ap.1 ap.2) i.

Lemma equality_stage c out :
  cfg = Some c → equality_deletes ≠ [] →
  Forall2 (λ ap b, after_dv array_of files scan_builder matches ap.1 ap.2 b) plan_batches out →
  ∃ out', smap (equality_ReadNext (OpenEqualityDeletes files) c equality_deletes (MakeMapper schema))
            initial_equality_applier (of_list out) = of_list out' ∧ Forall2 after_equality plan_batches out'.
Proof.
  intros Hc Hne Hout. destruct (so_equality Hok Hne) as (c' & Hc' & Hquiet & Hdata). assert (c' = c) as -> by congruence.
  destruct (smap_spec (equality_ReadNext (OpenEqualityDeletes files) c equality_deletes (MakeMapper schema))
    (equality_applier_inv (OpenEqualityDeletes files) c equality_deletes ty)
    (λ b, ∃ ap, ap ∈ plan_batches ∧ after_dv array_of files scan_builder matches ap.1 ap.2 b)
    (λ b b', eq_applied (OpenEqualityDeletes files) (MakeMapper schema) (deletes_of equality_deletes b) b b'))
    with (st := initial_equality_applier) (l := out) as (out' & -> & Hout').
  - intros st b Hst ([a p] & Hap & Hr & _). destruct (Hdata a p Hap) as [Hdel Hd]. simpl in Hr.
    destruct (refines_same _ _ Hr) as (Hpart & _).
    assert (deletes_of equality_deletes b = deletes_of equality_deletes (plan_batch a p)) as El
      by (unfold deletes_of; by rewrite Hpart).
    apply (equality_ReadNext_spec _ _ _ _ ty); [done|done|by rewrite Hpart|].
    rewrite El. eapply refines_data_ok; [done|apply planned_names, scan_mapper_ok|done].
  - done.
  - by apply Forall2_keys.
  - eexists. split; [done|]. eapply Forall2_compose; [|exact Hout|exact Hout'].
    intros [a p] b b' [Hr Hs] (sv & -> & Hsub & Hsv). cbn [fst snd] in *. split.
    + eapply refines_batch_trans; [done|]. split; [done|done|done].
    + intros i. cbn. rewrite Hsv, Hs.
      assert (deletes_of equality_deletes b = deletes_of equality_deletes (plan_batch a p)) as ->
        by (unfold deletes_of; by rewrite (proj1 (refines_same _ _ Hr))).
      rewrite (refines_row_deleted_by _ _ _ Hr); [tauto|apply planned_names, scan_mapper_ok].
Qed.

Lemma scanned_rows_ok a p : (a, p) ∈ plan_batches → rows_ok p.
Proof.
  intros (a' & Ha & Hp)%elem_of_flat_map. apply list_elem_of_fmap in Hp as (p' & [= -> ->] & Hp).
  unfold kept in Hp. rewrite list_elem_of_In, filter_In, <- list_elem_of_In in Hp. destruct Hp as [Hp _].
  pose proof (so_files Hok) as Hf. rewrite Forall_forall in Hf. pose proof (po_rows _ _ _ _ (Hf _ Ha)) as Hr.
  rewrite Forall_forall in Hr. by apply Hr.
Qed.

Lemma positional_stage out :
  Forall2 after_equality plan_batches out →
  ∃ out', smap (positional_step files positional_deletes) initial_applier (of_list out) = of_list out' ∧
          Forall2 live_batch plan_batches out'.
Proof.
  intros Hout.
  destruct (smap_spec (positional_step files positional_deletes)
    (applier_inv (OpenPositionDeletes files) positional_deletes) (λ b, ∃ ap, ap ∈ plan_batches ∧ after_equality ap b)
    (λ b b', record_batch b' = record_batch b ∧
       applied (OpenPositionDeletes files) positional_deletes (place b) (place b')))
    with (st := initial_applier) (l := out) as (out' & -> & Hout').
  - intros st b Hst ([a p] & Hap & Hr & _).
    destruct (apply_batch_spec _ _ st (place b) (so_positional Hok) Hst) as (q & st' & E & Ha & Hst').
    { eapply refines_batch_ok; [done|]. by eapply planned_batch_ok, scanned_rows_ok. }
    unfold positional_step. rewrite E. cbn [rbind]. by eexists _, _.
  - done.
  - by apply Forall2_keys.
  - eexists. split; [done|]. eapply Forall2_compose; [|exact Hout|exact Hout'].
    intros [a p] b b' [Hr Hs] (Hcols & sv & Hpl & Hsub & Hsv). cbn [fst snd] in *. split.
    + eapply refines_batch_trans; [done|]. split; [by rewrite Hpl|by rewrite Hpl|by rewrite Hcols].
    + intros i. rewrite Hpl. cbn. rewrite Hsv, Hs, (refines_pos_deleted _ _ _ _ _ Hr). unfold live_row. tauto.
Qed.

Lemma no_equality_deletes ap b :
  equality_deletes = [] → after_dv array_of files scan_builder matches ap.1 ap.2 b → after_equality ap b.
Proof.
  intros He [Hr Hs]. split; [done|]. intros i. rewrite Hs. split; [|tauto]. intros [Hi Hd]. split_and!; [done|done|].
  intros (layer & info & f & r & Hin & _). unfold deletes_of in Hin. rewrite He in Hin. by apply elem_of_nil in Hin.
Qed.

Lemma no_positional_deletes ap b : positional_deletes = [] → after_equality ap b → live_batch ap b.
Proof.
  intros He [Hr Hs]. split; [done|]. intros i. rewrite Hs. unfold live_row. split; [|tauto].
  intros (Hi & Hd & Hq). split_and!; [done|done|done|].
  intros (layers & l & infos & info & f & d & Hm & _). by rewrite He in Hm.
Qed.

Lemma projection_stage m out :
  keys_sorted m → Forall2 live_batch plan_batches out →
  smap (pure_step (project_batch m)) () (of_list out) = of_list out.
Proof.
  intros Hm Hout. apply smap_pure_Ok. assert (out = id <$> out) as E by (by rewrite list_fmap_id).
  rewrite E at 2. apply map_ok_fmap. intros b Hb. apply Forall2_keys in Hout. rewrite Forall_forall in Hout.
  destruct (Hout b Hb) as ([a p] & _ & Hr & _). unfold project_batch. rewrite MakeProjection_spec; [by destruct b|done|].
  cbn. rewrite (rf_columns _ _ Hr). apply planned_names, scan_mapper_ok.
Qed.

(** The stream of the scan, for a client of the chain. *)
Lemma MakeIcebergStream_spec :
  ∃ out, MakeIcebergStream array_of files (of_list metas) positional_deletes equality_deletes cfg rg_filter row_filter
           schema field_ids schema_name_mapping = Ok (of_list out) ∧ Forall2 live_batch plan_batches out.
Proof.
  destruct (DataScanner_spec array_of files chunks scan_builder matches scan_mapper_ok (so_filter Hok) metas
    (so_dvs Hok) (so_files Hok)) as (out & Hout & Hall).
  unfold MakeIcebergStream.
  assert ((match schema_name_mapping with
    | Some text => let! m := make_SchemaNameMapper text in Ok (Some m) | None => Ok None end) = Ok schema_name_mapper) as ->.
  { pose proof (so_mapping Hok) as Hmap. destruct schema_name_mapping; [|by rewrite Hmap].
    destruct Hmap as [-> [m ->]]. done. }
  cbn [rbind]. fold scan_builder. rewrite Hout.
  assert (∃ out1, (if negb (is_nil equality_deletes) then
      match cfg with
      | None => Err (Exn "equality deletes are present, but config for equality deletes is not set")
      | Some c => Ok (smap (equality_ReadNext (OpenEqualityDeletes files) c equality_deletes (MakeMapper schema))
                        initial_equality_applier (of_list out))
      end else Ok (of_list out)) = Ok (of_list out1) ∧ Forall2 after_equality plan_batches out1) as (out1 & -> & Hall1).
  { destruct (is_nil equality_deletes) eqn:En; cbn [negb].
    - apply is_nil_true in En. exists out. split; [done|]. eapply Forall2_impl; [done|].
      intros ap b. by apply no_equality_deletes.
    - assert (equality_deletes ≠ []) as Hne by (by intros ->). destruct (so_equality Hok Hne) as (c & Hc & _).
      destruct (equality_stage c out Hc Hne Hall) as (out1 & E & Hall1). exists out1. by rewrite Hc, E. }
  cbn [rbind]. assert (∃ out2, (if negb (is_nil positional_deletes)
    then smap (positional_step files positional_deletes) initial_applier (of_list out1) else of_list out1) = of_list out2 ∧
    Forall2 live_batch plan_batches out2) as (out2 & -> & Hall2).
  { destruct (is_nil positional_deletes) eqn:En; cbn [negb]; [|by apply positional_stage].
    apply is_nil_true in En. exists out1. split; [done|]. eapply Forall2_impl; [done|].
    intros ap b. by apply no_positional_deletes. }
  exists out2. split; [|done]. f_equal. apply projection_stage; [apply MakeFinalProjection_sorted|done].
Qed.

End scan.
