(* ===== verification/Driver.v ===== *)
(** * Driver: executing a scan plan

    The program of [iceberg/streams/main.cpp]: [MetaStream], which lists the data
    files of a plan in the order in which they are read, the delete files of the
    plan by partition and layer, and the stream that [main] reads; and the
    theorem that ties planning and execution together. *)

From stdpp Require Import base list sorting strings gmap.
From Stdlib Require Import ZArith Lia.
From S2P Require Import Prelude OrderedMap Streams Scalars Types Parquet ScanTypes Layering TableMetadata ScanBuilder PartitionRules ScanSpec Planner.
From S2P Require Import SelectionVector PositionalDelete DeleteAppliers DeletionVector FileReading EqualityDelete.
From S2P Require Import EqualityDeleteHandler Json Literals ColumnReading StreamAssembly Execution.

Local Open Scope Z_scope.

(** [std::sort] of the entries of a layer by path; entries with equal paths may
    come in any order. *)
Class PathSort := {
  sort_by_path : list DataEntry → list DataEntry;
  sort_by_path_perm : ∀ l, sort_by_path l ≡ₚ l;
}.

Definition path_le (a b : DataEntry) : Prop := kle (de_path a) (de_path b).
Instance path_le_dec a b : Decision (path_le a b).
Proof. unfold path_le, kle. apply _. Defined.
Definition stable_path_sort : PathSort :=
  {| sort_by_path := merge_sort path_le; sort_by_path_perm := merge_sort_Permutation path_le |}.

(** ** MetaStream *)

Section meta_stream.
Context `{PathSort}.

Definition annotate (partition_id layer_id : nat) (data_entry : DataEntry) : AnnotatedDataPath :=
  {| adp_partition := Z.of_nat partition_id; adp_layer := Z.of_nat layer_id; adp_path := de_path data_entry;
     segments_ := parts data_entry; dv_info_ := dv data_entry |}.

(** The layers of a partition, the newest first. *)
Definition partition_entries (partition_id : nat) (layers : Partition) : list AnnotatedDataPath :=
  concat (rev (imap (λ layer_id l, annotate partition_id layer_id <$> sort_by_path (l_data_entries_ l)) layers)).

Definition InitializeAllEntries (planned_meta : ScanMetadata) : list AnnotatedDataPath :=
  concat (imap partition_entries (partitions planned_meta)).
End meta_stream.

(** ** The delete files of the plan *)

(** [m[partition_id][layer_id] = value]. *)
Definition assign_layer {V} (m : list (Z * list (Z * V))) (x : nat * nat * V) : list (Z * list (Z * V)) :=
  mupdate (λ o, minsert (Z.of_nat x.1.2) x.2 (default [] o)) (Z.of_nat x.1.1) m.

(** The layers in the order of the two loops. *)
Definition numbered_layers {V} (get : Layer → V) (partitions : list Partition) : list (nat * nat * V) :=
  concat (imap (λ partition_id layers, imap (λ layer_id l, (partition_id, layer_id, get l)) layers) partitions).

Definition layer_map_of {V} (get : Layer → V) (scan_metadata : ScanMetadata) : list (Z * list (Z * V)) :=
  foldl assign_layer [] (numbered_layers get (partitions scan_metadata)).

Definition pos_del_info : ScanMetadata → PositionalDeletes := layer_map_of l_positional_delete_entries_.
Definition eq_del_info : ScanMetadata → EqualityDeletes := layer_map_of l_equality_delete_entries_.

(** ** The stream of [main] *)

Definition eq_del_config : Config := 
  {| max_rows := 1000000; use_specialized_deletes := false; equality_delete_max_mb_size := 10;
     throw_if_memory_limit_exceeded := false |}.

Section main.
Context `{PathSort} `{Roaring64Map} `{WidthSort} `{MemoryAccounting.AbslMap} `{ReaderQueue} `{RapidJson}.
Context (array_of : list Scalar → list cell) (files : IFileReaderProvider).

(** The arguments that come from the plan. *)
Definition plan_stream (scan_metadata : ScanMetadata) (cfg : option Config)
    (rg_filter : option (RowGroupMeta → result bool)) (row_filter : option IRowFilter) (schema : Schema)
    (field_ids_to_retrieve : list Z) (schema_name_mapping : option string) : result (stream DataBatch) :=
  MakeIcebergStream array_of files (of_list (InitializeAllEntries scan_metadata)) (pos_del_info scan_metadata)
    (eq_del_info scan_metadata) cfg rg_filter row_filter schema field_ids_to_retrieve schema_name_mapping.

Definition main_stream (table_metadata : TableMetadataV2) (scan_metadata : ScanMetadata) : result (stream DataBatch) :=
  let schema_name_mapping := mfind "schema.name-mapping.default" (table_properties table_metadata) in
  let! schema := GetCurrentSchema table_metadata in
  plan_stream scan_metadata (Some eq_del_config) None None schema [1] schema_name_mapping.
End main.

(** ** Lists by position *)

Lemma elem_of_imap {A B} (f : nat → A → B) l y : y ∈ imap f l ↔ ∃ i x, l !! i = Some x ∧ y = f i x.
Proof.
  rewrite list_elem_of_lookup. setoid_rewrite list_lookup_imap. split.
  - intros (i & (x & Hx & ->)%fmap_Some). by exists i, x.
  - intros (i & x & Hx & ->). exists i. by rewrite Hx.
Qed.

Lemma elem_of_concat {A} (ls : list (list A)) x : x ∈ concat ls ↔ ∃ l, l ∈ ls ∧ x ∈ l.
Proof. rewrite list_elem_of_In, in_concat. by setoid_rewrite list_elem_of_In. Qed.

Lemma elem_of_entries `{PathSort} plan a :
  a ∈ InitializeAllEntries plan ↔
  ∃ i q j l x, partitions plan !! i = Some q ∧ q !! j = Some l ∧ x ∈ l_data_entries_ l ∧ a = annotate i j x.
Proof.
  unfold InitializeAllEntries. rewrite elem_of_concat. setoid_rewrite elem_of_imap. split.
  - intros (es & (i & q & Hq & ->) & Ha). unfold partition_entries in Ha.
    apply elem_of_concat in Ha as (ls & Hls & Ha). rewrite list_elem_of_In, <- in_rev, <- list_elem_of_In in Hls.
    apply elem_of_imap in Hls as (j & l & Hl & ->). apply list_elem_of_fmap in Ha as (x & -> & Hx).
    rewrite sort_by_path_perm in Hx. by exists i, q, j, l, x.
  - intros (i & q & j & l & x & Hq & Hl & Hx & ->). eexists. split; [by exists i, q|]. unfold partition_entries.
    apply elem_of_concat. exists (annotate i j <$> sort_by_path (l_data_entries_ l)). split.
    + rewrite list_elem_of_In, <- in_rev, <- list_elem_of_In. apply elem_of_imap. by exists j, l.
    + apply list_elem_of_fmap. exists x. by rewrite sort_by_path_perm.
Qed.

(** The data files that are read are those of the plan. *)
Lemma entries_paths `{PathSort} plan : adp_path <$> InitializeAllEntries plan ≡ₚ plan_paths plan.
Proof.
  unfold InitializeAllEntries, plan_paths.
  assert (∀ i q, adp_path <$> partition_entries i q ≡ₚ de_path <$> flat_map l_data_entries_ q) as Hq.
  { intros i q. unfold partition_entries.
    assert (∀ ls : list (list AnnotatedDataPath), concat (rev ls) ≡ₚ concat ls) as Hrev.
    { induction ls as [|l ls IH]; [done|]. simpl.
      rewrite concat_app, IH. simpl. rewrite app_nil_r. apply Permutation_app_comm. }
    assert (∀ f : nat → nat, adp_path <$> concat (imap (λ j l, annotate i (f j) <$> sort_by_path (l_data_entries_ l)) q)
      ≡ₚ de_path <$> flat_map l_data_entries_ q) as Hf; [|rewrite Hrev; apply (Hf (λ j, j))].
    induction q as [|l q IH]; intros f; [done|]. rewrite imap_cons. simpl.
    rewrite !fmap_app, <- list_fmap_compose. f_equiv; [by rewrite sort_by_path_perm|]. apply (IH (λ j, f (S j))). }
  assert (∀ (f : nat → nat) ps, adp_path <$> concat (imap (λ i q, partition_entries (f i) q) ps) ≡ₚ
    de_path <$> flat_map (flat_map l_data_entries_) ps) as Hall; [|by apply (Hall (λ i, i))].
  intros f ps. revert f. induction ps as [|q ps IH]; intros f; [done|]. rewrite imap_cons. simpl.
  rewrite !fmap_app, Hq. f_equiv. apply (IH (λ i, f (S i))).
Qed.

(** ** The delete files of a partition *)

Section layer_maps.
Context {V : Type}.

(** The map holds [v] for the layer of the partition. *)
Definition holds (m : list (Z * list (Z * V))) (partition layer : Z) (v : V) : Prop :=
  ∃ layers, mfind partition m = Some layers ∧ (layer, v) ∈ layers.

Definition nested_sorted (m : list (Z * list (Z * V))) : Prop :=
  keys_sorted m ∧ ∀ p layers, mfind p m = Some layers → keys_sorted layers.

Lemma assign_layer_spec m i j v :
  nested_sorted m → (∀ v', ¬ holds m (Z.of_nat i) (Z.of_nat j) v') →
  nested_sorted (assign_layer m (i, j, v)) ∧
  ∀ p l v', holds (assign_layer m (i, j, v)) p l v' ↔
    holds m p l v' ∨ (p = Z.of_nat i ∧ l = Z.of_nat j ∧ v' = v).
Proof.
  intros [Hs Hin] Hnew. unfold assign_layer. cbn [fst snd].
  set (o := mfind (Z.of_nat i) m). assert (keys_sorted (default [] o)) as Ho.
  { unfold o. destruct (mfind (Z.of_nat i) m) as [ls|] eqn:E; [by eapply Hin|apply keys_sorted_nil]. }
  assert (mfind (Z.of_nat j) (default [] o) = None) as Hnone.
  { destruct (mfind (Z.of_nat j) (default [] o)) as [v'|] eqn:E; [|done]. destruct (Hnew v').
    unfold o in *. destruct (mfind (Z.of_nat i) m) as [ls|] eqn:Em; [|done]. exists ls. split; [done|].
    by apply mfind_elem_of. }
  split; [split|].
  - by apply mupdate_sorted.
  - intros p layers. destruct (decide (Z.of_nat i = p)) as [<-|Hne].
    + rewrite mfind_mupdate_eq. intros [= <-]. by apply mupdate_sorted.
    + rewrite mfind_mupdate_ne by done. apply Hin.
  - intros p l v'. unfold holds. destruct (decide (Z.of_nat i = p)) as [<-|Hne].
    + rewrite mfind_mupdate_eq. fold o. split.
      * intros (layers & [= <-] & Hl). rewrite (minsert_new _ _ _ Hnone Ho), elem_of_cons in Hl.
        destruct Hl as [[= -> ->]|Hl]; [by right|]. left. destruct o as [ls|]; [by exists ls|by apply elem_of_nil in Hl].
      * intros Hl. eexists. split; [done|]. rewrite (minsert_new _ _ _ Hnone Ho), elem_of_cons.
        destruct Hl as [(ls & Hls & Hl)|(_ & -> & ->)]; [right|by left]. by rewrite Hls.
    + rewrite mfind_mupdate_ne by done. naive_solver.
Qed.

Lemma assign_layers_spec xs : ∀ m,
  nested_sorted m → NoDup xs.*1 → (∀ x v, x ∈ xs → ¬ holds m (Z.of_nat x.1.1) (Z.of_nat x.1.2) v) →
  ∀ p l v, holds (foldl assign_layer m xs) p l v ↔
    holds m p l v ∨ ∃ i j, (i, j, v) ∈ xs ∧ p = Z.of_nat i ∧ l = Z.of_nat j.
Proof.
  induction xs as [|[[i j] w] xs IH]; intros m Hm Hd Hnew p l v; simpl.
  { split; [by left|]. by intros [?|(? & ? & ?%elem_of_nil & _)]. }
  simpl in Hd. apply NoDup_cons in Hd as [Hx Hd].
  destruct (assign_layer_spec m i j w Hm) as [Hm' Hh]; [intros v'; apply (Hnew (i, j, w)); by left|].
  rewrite IH; [| done|done|].
  - rewrite Hh. setoid_rewrite elem_of_cons. naive_solver.
  - intros [[i' j'] w'] v' Hin [H1|(H1 & H2 & _)]%Hh; [by apply (Hnew (i', j', w') v'); [right|]|].
    cbn in H1, H2. assert (i' = i) as -> by lia. assert (j' = j) as -> by lia. destruct Hx.
    apply list_elem_of_fmap. by exists (i, j, w').
Qed.

Context (get : Layer → V).

Lemma elem_of_numbered_layers ps i j v :
  (i, j, v) ∈ numbered_layers get ps ↔ ∃ q l, ps !! i = Some q ∧ q !! j = Some l ∧ v = get l.
Proof.
  unfold numbered_layers. rewrite elem_of_concat. setoid_rewrite elem_of_imap. split.
  - intros (xs & (i' & q & Hq & ->) & (j' & l & Hl & [= -> -> ->])%elem_of_imap). by exists q, l.
  - intros (q & l & Hq & Hl & ->). eexists. split; [by exists i, q|]. apply elem_of_imap. by exists j, l.
Qed.

Lemma numbered_nodup ps : NoDup (numbered_layers get ps).*1.
Proof.
  unfold numbered_layers.
  assert (∀ n : nat, NoDup (concat (imap (λ i layers, imap (λ j l, ((n + i)%nat, j, get l)) layers) ps)).*1 ∧
    ∀ x, x ∈ (concat (imap (λ i layers, imap (λ j l, ((n + i)%nat, j, get l)) layers) ps)).*1 → (n ≤ x.1)%nat) as H;
    [|apply (H 0%nat)].
  induction ps as [|q ps IH]; intros n; [split; [constructor|by intros x ?%elem_of_nil]|].
  rewrite imap_cons.
  assert (imap ((λ i layers, imap (λ j l, ((n + i)%nat, j, get l)) layers) ∘ S) ps =
    imap (λ i layers, imap (λ j l, ((S n + i)%nat, j, get l)) layers) ps) as ->.
  { apply imap_ext. intros i layers _. cbn. by rewrite Nat.add_succ_r. }
  cbn [concat]. rewrite fmap_app. destruct (IH (S n)) as [Hd Hn].
  assert (∀ x, x ∈ (imap (λ j l, ((n + 0)%nat, j, get l)) q).*1 → x.1 = n) as Hfirst.
  { intros x (y & -> & (j & l & _ & ->)%elem_of_imap)%list_elem_of_fmap. cbn. lia. }
  split.
  - apply NoDup_app. split_and!; [| |done].
    + apply (NoDup_fmap_1 snd). rewrite <- list_fmap_compose.
      assert ((snd ∘ fst) <$> imap (λ j l, ((n + 0)%nat, j, get l)) q = seq 0 (length q)) as ->; [|apply NoDup_seq].
      apply list_eq. intros k. rewrite list_lookup_fmap, list_lookup_imap.
      destruct (q !! k) as [l|] eqn:E; cbn.
      * symmetry. apply lookup_seq. split; [done|]. by eapply lookup_lt_Some.
      * symmetry. apply lookup_seq_ge. by apply lookup_ge_None.
    + intros x Hx1%Hfirst Hx2%Hn. lia.
  - intros x [Hx1%Hfirst|Hx2%Hn]%elem_of_app; lia.
Qed.

Lemma holds_layer_map plan p l v :
  holds (layer_map_of get plan) p l v ↔
  ∃ i j q layer, p = Z.of_nat i ∧ l = Z.of_nat j ∧ partitions plan !! i = Some q ∧ q !! j = Some layer ∧ v = get layer.
Proof.
  unfold layer_map_of. rewrite assign_layers_spec.
  - setoid_rewrite elem_of_numbered_layers. unfold holds. naive_solver.
  - split; [apply keys_sorted_nil|done].
  - apply numbered_nodup.
  - intros x v' _ (layers & ? & _). done.
Qed.
End layer_maps.

(** ** Each data file has one place in the plan *)

Lemma NoDup_fmap_eq {A B} (f : A → B) (l : list A) a b : NoDup (f <$> l) → a ∈ l → b ∈ l → f a = f b → a = b.
Proof.
  intros Hd [i Hi]%list_elem_of_lookup [j Hj]%list_elem_of_lookup E.
  assert (i = j) as <-; [|congruence].
  apply (NoDup_lookup _ _ _ (f a) Hd); rewrite list_lookup_fmap; [by rewrite Hi|by rewrite Hj, E].
Qed.

Lemma one_place `{PathSort} plan i q j l x i' q' j' l' x' :
  NoDup (plan_paths plan) → partitions plan !! i = Some q → q !! j = Some l → x ∈ l_data_entries_ l →
  partitions plan !! i' = Some q' → q' !! j' = Some l' → x' ∈ l_data_entries_ l' → de_path x = de_path x' →
  i = i' ∧ j = j' ∧ x = x'.
Proof.
  intros Hd Hq Hl Hx Hq' Hl' Hx' E. rewrite <- entries_paths in Hd.
  assert (annotate i j x = annotate i' j' x') as Ea.
  { apply (NoDup_fmap_eq adp_path _ _ _ Hd); [| |done]; apply elem_of_entries; [by exists i, q, j, l, x|].
    by exists i', q', j', l', x'. }
  injection Ea as E1 E2 E3 E4 E5. destruct x, x'. simpl in *. split_and!; [lia|lia|congruence].
Qed.

Lemma live_data_elem es x : x ∈ flat_map live_data es ↔ ∃ e, e ∈ es ∧ live e = true ∧ is_data e = true ∧ x = entry_data e.
Proof.
  rewrite elem_of_flat_map. apply exist_proper. intros e. unfold live_data.
  destruct (live e), (is_data e); simpl; rewrite ?list_elem_of_singleton, ?elem_of_nil; naive_solver.
Qed.

Lemma one_entry es e e' :
  NoDup (de_path <$> flat_map live_data es) → e ∈ es → e' ∈ es → live e = true → is_data e = true →
  live e' = true → is_data e' = true → file_path (data_file e) = file_path (data_file e') → e = e'.
Proof.
  intros Hd He He' Hl Hda Hl' Hda' E. induction es as [|a es IH]; [by apply elem_of_nil in He|].
  simpl in Hd. rewrite fmap_app in Hd. apply NoDup_app in Hd as (_ & Hdis & Hd).
  assert (∀ y y', y = a → y' ∈ es → live y = true → is_data y = true → live y' = true → is_data y' = true →
    file_path (data_file y) = file_path (data_file y') → False) as Hno.
  { intros y y' -> Hy' H1 H2 H3 H4 H5. apply (Hdis (file_path (data_file a))).
    - unfold live_data. rewrite H1, H2. by left.
    - apply list_elem_of_fmap. exists (entry_data y'). split; [done|]. apply live_data_elem. by exists y'. }
  apply elem_of_cons in He as [Hea|He], He' as [Hea'|He']; [congruence| | |by apply IH].
  - destruct (Hno e e'); done.
  - destruct (Hno e' e); done.
Qed.

(** ** From manifests to rows *)

Section table_scan.
Context `{PathSort} `{Roaring64Map} `{WidthSort} `{MemoryAccounting.AbslMap} `{ReaderQueue} `{RapidJson}.
Context (array_of : list Scalar → list cell) (files : IFileReaderProvider).
Context (chunks : string → Z → list (RecordBatch (list cell))).
Context (matches : list (option (list cell)) → Z → bool) (ty : Z → Arrow.type).

(** The entries of the manifests and the plan made of them. *)
Context (m : TableMetadataV2) (sch : Schema) (es : list ManifestEntry) (pl : Planner) (plan : ScanMetadata).
Context (Hadd : fold_ok (planner_AddEntry m sch) empty_planner es = Ok pl) (Hres : planner_GetResult sch pl = Ok plan).
Context (Hvalid : entry_ranges_valid es) (Hread : partitions_readable es) (Hdistinct : NoDup (de_path <$> flat_map live_data es)).

(** A position delete file of the table that must be applied to the data file
    lists the row. *)
Definition table_pos_deleted (ed : ManifestEntry) (row : Z) : Prop :=
  ∃ ep f d, pos_rule es ed ep ∧ OpenPositionDeletes files (file_path (data_file ep)) = Ok f ∧
    check_columns f = Ok d ∧ (file_path (data_file ed), row) ∈ file_rows d.

(** A row of an equality delete file of the table that must be applied to the
    data file agrees with row [i] of the batch on the fields of the delete. *)
Definition table_eq_deleted (names : list (Z * string)) (ed : ManifestEntry) (batch : DataBatch) (i : Z) : Prop :=
  ∃ ee f r, eq_rule es ed ee ∧ OpenEqualityDeletes files (file_path (data_file ee)) = Ok f ∧ r ∈ eq_file_rows f ∧
    row_value (file_cells f (key_of (entry_eq ee)) r) = row_value (data_cells names batch (key_of (entry_eq ee)) i).

(** A position delete file lists rows of files within its recorded path range, and of the
    file it references where it references one. *)
Definition bounds_honest : Prop := ∀ ep f d path row, ep ∈ es → is_pos ep = true →
  OpenPositionDeletes files (file_path (data_file ep)) = Ok f → check_columns f = Ok d →
  (path, row) ∈ file_rows d → may_mention ep path.

Context (Hbounds : bounds_honest).

Lemma table_plan_exact : plan_exact es plan.
Proof. eapply planner_of_plan_exact; [by eapply planner_AddEntries_of|done..]. Qed.

Lemma plan_paths_nodup : NoDup (plan_paths plan).
Proof. by rewrite (ex_data _ _ table_plan_exact). Qed.

Section entry.
Context (i : nat) (q : Partition) (j : nat) (l : Layer) (x : DataEntry) (ed : ManifestEntry).
Context (Hq : partitions plan !! i = Some q) (Hl : q !! j = Some l) (Hx : x ∈ l_data_entries_ l).
Context (Hed : ed ∈ es) (Hlive : live ed = true) (Hdata : is_data ed = true).
Context (Hpath : file_path (data_file ed) = de_path x).

(** The layers from that of the entry on are those that the plan applies to it. *)
Lemma newer_layers (q' : Partition) x' i' j' li lj :
  q' ∈ partitions plan → de_path x' = de_path x → q' !! i' = Some li → x' ∈ l_data_entries_ li →
  q' !! j' = Some lj → (i' ≤ j')%nat → q !! j' = Some lj ∧ (j ≤ j')%nat.
Proof.
  intros [n Hn]%list_elem_of_lookup E Hli Hx' Hlj Hle.
  destruct (one_place plan i q j l x n q' i' li x' plan_paths_nodup) as (-> & -> & ->); try done.
  assert (q' = q) as -> by congruence. done.
Qed.

Lemma pos_deleted_table (batch : IcebergBatch) (row : Z) :
  partition_ batch = Z.of_nat i → layer_ batch = Z.of_nat j → path_ batch = de_path x →
  row_deleted (OpenPositionDeletes files) (pos_del_info plan) batch row ↔
  table_pos_deleted ed (row_position_ batch + row).
Proof.
  intros Hp Hly Hpa. unfold row_deleted, table_pos_deleted. rewrite Hp, Hly, Hpa, Hpath. split.
  - intros (layers & k & infos & info & f & d & Hm & Hk & Hle & Hinfo & Hf & Hd & Hrow).
    assert (holds (pos_del_info plan) (Z.of_nat i) k infos) as Hh by (by exists layers).
    apply holds_layer_map in Hh as (i' & j' & q' & lk & E & -> & Hq' & Hlk & ->).
    assert (i' = i) as -> by lia. assert (q' = q) as -> by congruence.
    destruct (ex_pos_sound _ _ table_plan_exact q x info) as (ed' & ep & Hreq & [Hsame _] & Hinf).
    { by eapply list_elem_of_lookup_2. }
    { exists j, j', l, lk. split_and!; [done|done|lia|done|done]. }
    assert (ed' = ed) as ->.
    { pose proof Hreq as [(H1' & H2' & H3') _ _ _]. apply (one_entry es); try done. by rewrite Hpath. }
    subst info. by exists ep, f, d.
  - intros (ep & f & d & Hreq & Hf & Hd & Hrow). pose proof Hreq as [_ (Hep & _ & Hpos) _ _].
    destruct (ex_pos_complete _ _ table_plan_exact ed ep Hreq) as (q' & x' & Hq' & [Hsame _] & Hap).
    { rewrite Hpath. by eapply Hbounds. }
    destruct Hap as (i' & j' & li & lj & Hli & Hlj & Hle & Hx' & Hy).
    destruct (newer_layers q' x' i' j' li lj) as [Hj Hjj]; try done.
    { rewrite <- Hsame. exact Hpath. }
    assert (holds (pos_del_info plan) (Z.of_nat i) (Z.of_nat j') (l_positional_delete_entries_ lj)) as (layers & Hm & Hin).
    { apply holds_layer_map. by exists i, j', q, lj. }
    exists layers, (Z.of_nat j'), (l_positional_delete_entries_ lj), {| pd_path := file_path (data_file ep) |}, f, d.
    split_and!; try done. lia.
Qed.

Lemma eq_deleted_table (names : list (Z * string)) (batch : DataBatch) (row : Z) :
  partition_ (place batch) = Z.of_nat i → layer_ (place batch) = Z.of_nat j →
  row_deleted_by (OpenEqualityDeletes files) names (deletes_of (eq_del_info plan) batch) batch row ↔
  table_eq_deleted names ed batch row.
Proof.
  intros Hp Hly. unfold row_deleted_by, table_eq_deleted, deletes_of, partition_deletes. rewrite Hp, Hly. split.
  - intros (k & info & f & r & Hin & Hle & Hf & Hr & Hv).
    destruct (mfind (Z.of_nat i) (eq_del_info plan)) as [layers|] eqn:Em; [|by apply elem_of_nil in Hin].
    apply elem_of_flat_map in Hin as ([k' infos] & Hk & Hinfo). apply list_elem_of_fmap in Hinfo as (info' & E & Hinfo).
    injection E as -> ->.
    assert (holds (eq_del_info plan) (Z.of_nat i) k' infos) as Hh by (by exists layers).
    apply holds_layer_map in Hh as (i' & j' & q' & lk & E & -> & Hq' & Hlk & ->). cbn in *.
    assert (i' = i) as -> by lia. assert (q' = q) as -> by congruence.
    destruct (ex_eq_sound _ _ table_plan_exact q x info') as (ed' & ee & Hreq & [Hsame _] & <-).
    { by eapply list_elem_of_lookup_2. }
    { exists j, j', l, lk. split_and!; [done|done|lia|done|done]. }
    assert (ed' = ed) as ->.
    { pose proof Hreq as [(H1' & H2' & H3') _ _ _]. apply (one_entry es); try done. by rewrite Hpath. }
    by exists ee, f, r.
  - intros (ee & f & r & Hreq & Hf & Hr & Hv).
    destruct (ex_eq_complete _ _ table_plan_exact ed ee Hreq) as (q' & x' & Hq' & [Hsame _] & Hap).
    destruct Hap as (i' & j' & li & lj & Hli & Hlj & Hle & Hx' & Hy).
    destruct (newer_layers q' x' i' j' li lj) as [Hj Hjj]; try done.
    { rewrite <- Hsame. exact Hpath. }
    assert (holds (eq_del_info plan) (Z.of_nat i) (Z.of_nat j') (l_equality_delete_entries_ lj)) as (layers & Hm & Hin).
    { apply holds_layer_map. by exists i, j', q, lj. }
    exists (Z.of_nat j'), (entry_eq ee), f, r. split_and!; try done; [|lia]. rewrite Hm.
    apply elem_of_flat_map. eexists. split; [done|]. apply list_elem_of_fmap. by exists (entry_eq ee).
Qed.
End entry.

(** ** The whole path *)

Context (cfg : option Config) (rg_filter : option (RowGroupMeta → result bool)) (row_filter : option IRowFilter).
Context (schema : Schema) (field_ids : list Z) (schema_name_mapping : option string).
Context (schema_name_mapper : option (gmap string Z)).

Abbreviation builder := (scan_builder (eq_del_info plan) rg_filter row_filter schema field_ids schema_name_mapper).

(** A batch of the data file of a live manifest entry, with the rows that pass
    the filter and that no delete of the table removes. *)
Definition table_batch (ap : AnnotatedDataPath * ArrowBatch column) (batch : DataBatch) : Prop :=
  ∃ ed, ed ∈ es ∧ live ed = true ∧ is_data ed = true ∧ file_path (data_file ed) = adp_path ap.1 ∧
    refines_batch (planned array_of files builder matches ap.1 ap.2) batch ∧
    ∀ i, i ∈ selection_vector_ (place batch) ↔
      i ∈ filter_rows array_of files builder matches ap.1 ap.2 ∧ ¬ dv_deleted files ap.1 ap.2 i ∧
      ¬ table_eq_deleted (MakeMapper schema) ed (planned array_of files builder matches ap.1 ap.2) i ∧
      ¬ table_pos_deleted ed (ab_position ap.2 + i).

Lemma live_table_batch ap batch :
  ap.1 ∈ InitializeAllEntries plan →
  live_batch array_of files matches (pos_del_info plan) (eq_del_info plan) rg_filter row_filter schema field_ids
    schema_name_mapper ap batch → table_batch ap batch.
Proof.
  destruct ap as [a p]. cbn. intros Ha [Hr Hrows].
  apply elem_of_entries in Ha as (i & q & j & l & x & Hq & Hl & Hx & ->).
  assert (de_path x ∈ de_path <$> flat_map live_data es) as Hin.
  { rewrite <- (ex_data _ _ table_plan_exact), <- entries_paths. apply list_elem_of_fmap.
    exists (annotate i j x). split; [done|]. apply elem_of_entries. by exists i, q, j, l, x. }
  apply list_elem_of_fmap in Hin as (y & Hy & (ed & Hed & Hlive & Hdata & ->)%live_data_elem).
  exists ed. split_and!; try done. intros r. rewrite Hrows. unfold live_row.
  rewrite (eq_deleted_table i q j l x ed); try done.
  rewrite (pos_deleted_table i q j l x ed); try done.
Qed.

End table_scan.
