(* ===== verification/ScanExample.v ===== *)
(** * ScanExample: a table read from its manifests

    A table with one data file of four rows, a position delete file and an
    equality delete file, planned and executed: the witness that the hypotheses
    of the end-to-end theorems can hold together. *)

From stdpp Require Import base list sorting strings gmap.
From Stdlib Require Import ZArith Lia.
From S2P Require Import Prelude OrderedMap Streams Scalars Types Parquet ScanTypes Layering TableMetadata ScanBuilder PartitionRules ScanSpec Planner.
From S2P Require Import SelectionVector PositionalDelete DeleteAppliers DeletionVector FileReading EqualityDelete.
From S2P Require Import EqualityDeleteHandler Json Literals ColumnReading StreamAssembly Execution Driver.

Local Open Scope Z_scope.

#[local] Existing Instance stable_path_sort.
#[local] Existing Instance stable_width_sort.
#[local] Existing Instance MemoryAccounting.swiss_table.
#[local] Existing Instance PlainBitmap.plain_bitmap.
#[local] Existing Instance JsonExample.binary_json.

Module TableExample.
(** Field 1 is column ["x"] of the file and column ["id"] of the table. *)
Definition fields : list FieldNode := [{| fn_field_id := 1; fn_name := "x"; fn_leaves := 1 |}].
Definition values : list cell :=
  [EqualityExample.int32 5; EqualityExample.int32 7; EqualityExample.int32 7; EqualityExample.int32 1].
Definition chunk : RecordBatch (list cell) := {| rb_rows := 4; rb_columns := [("x", values)] |}.
Definition data_file : FileReader (list cell) :=
  {| fr_fields := fields;
     fr_row_groups := [{| file_offset := 4; data_page_offset := 4; rg_num_rows := 4; rg_fields := fields; column_chunks := [] |}];
     GetRecordBatchReader := λ g cols,
       Ok (of_list [{| rb_rows := 4; rb_columns := omap (λ i, rb_columns chunk !! Z.to_nat i) cols |}]) |}.
Definition chunks (path : string) (g : Z) : list (RecordBatch (list cell)) := [chunk].

Definition files : IFileReaderProvider :=
  {| OpenData := λ path, if String.eqb path "a" then Ok data_file else Err (StatusError "no such file");
     OpenPositionDeletes := AppliersExample.OpenParquet;
     OpenEqualityDeletes := EqualityExample.OpenParquet;
     OpenDeletionVector := λ _ _ _, Err (StatusError "no such file") |}.

Definition table_schema : Schema :=
  {| Types.schema_id_ := 0;
     Types.fields_ := [{| nf_name := "id"; nf_field_id := 1; nf_is_required := true; nf_type := PrimitiveType kInt;
                    nf_initial_default := None; nf_write_default := None |}] |}.

(** ["p0"] lists row 1 of ["a"], ["e0"] deletes the value 5 of field 1. *)
Definition entries : list ManifestEntry :=
  [Example1.entry kAdded 1 (Example1.file kData "a" (Example1.day 10) None);
   Example1.entry kAdded 1 (Example1.file kPositionDeletes "p0" (Example1.day 10) None);
   Example1.entry kAdded 2 (Example1.file kEqualityDeletes "e0" (Example1.day 10) None)].

Definition planner : Planner :=
  match fold_ok (planner_AddEntry Example1.metadata Example1.sch) empty_planner entries with Ok p => p | Err _ => empty_planner end.
Definition plan : ScanMetadata :=
  {| schema := Example1.sch;
     partitions := [[{| l_data_entries_ := [{| de_path := "a"; parts := [{| offset := 4; length_ := 0 |}]; dv := None |}];
                        l_positional_delete_entries_ := [{| pd_path := "p0" |}];
                        l_equality_delete_entries_ := [EqualityExample.e0] |}]] |}.

Lemma table_added : fold_ok (planner_AddEntry Example1.metadata Example1.sch) empty_planner entries = Ok planner.
Proof. vm_compute. reflexivity. Qed.
Lemma table_planned : planner_GetResult Example1.sch planner = Ok plan.
Proof. vm_compute. reflexivity. Qed.

Definition no_scalars (_ : list Scalar) : list cell := [].
Definition every_row (_ : list (option (list cell))) (_ : Z) : bool := true.

Definition read : result (list DataBatch) :=
  let! s := plan_stream no_scalars files plan (Some eq_del_config) None None table_schema [1] None in run s.

(** Rows 2 and 3 are left. *)
Example read_rows : (let! out := read in Ok ((λ b, (selection_vector_ (place b), (record_batch b).*1)) <$> out))
  = Ok [([2; 3], ["id"])].
Proof. vm_compute. reflexivity. Qed.

Abbreviation builder := (scan_builder (eq_del_info plan) None None table_schema [1] None).
Definition path_a : AnnotatedDataPath :=
  {| adp_partition := 0; adp_layer := 0; adp_path := "a"; segments_ := [{| offset := 4; length_ := 0 |}]; dv_info_ := None |}.
Definition batch_a : ArrowBatch column := {| ab_position := 0; ab_rows := 4; ab_columns := [("x", values)] |}.

Lemma paths_read : InitializeAllEntries plan = [path_a].
Proof. reflexivity. Qed.

Lemma batches_read :
  scanned no_scalars files chunks builder every_row (InitializeAllEntries plan) = [(path_a, batch_a)].
Proof. vm_compute. reflexivity. Qed.

Lemma data_file_ok : reader_ok data_file (chunks "a").
Proof.
  split.
  - repeat constructor. apply not_elem_of_nil.
  - intros g c ->%list_elem_of_singleton. reflexivity.
  - intros _ g cols _ _ _. eexists. split; [reflexivity|]. constructor; [|constructor]. by split.
Qed.

Lemma table_files_ok : Forall (path_ok files chunks builder) (InitializeAllEntries plan).
Proof.
  rewrite paths_read. constructor; [|constructor]. split.
  - exists data_file, {[1 := 0%nat]}, [0]. split; [reflexivity|]. split; [exact data_file_ok|].
    split; [repeat constructor|]. split; reflexivity.
  - assert (path_batches files chunks builder path_a = [batch_a]) as -> by (vm_compute; reflexivity).
    constructor; [|constructor]. unfold rows_ok. vm_compute. split_and!; discriminate.
  - by exists None.
  - discriminate.
Qed.

Lemma filter_kept : row_filter_ok builder every_row.
Proof.
  intros b _. cbn [row_filter_ scan_builder make_FileReaderBuilder default PassThroughFilter row_ApplyFilter]. f_equal.
  generalize (Set_ (Z.to_nat (ab_rows b))) as l. induction l as [|i l IH]; [done|]. unfold every_row in *. cbn [List.filter]. f_equal. exact IH.
Qed.

Lemma positional_ok : DeleteAppliers.deletes_ok (OpenPositionDeletes files) (pos_del_info plan).
Proof.
  assert (pos_del_info plan = [(0, [(0, [{| pd_path := "p0" |}])])]) as -> by (vm_compute; reflexivity).
  intros partition layers l infos info Hm Hl Hi. apply mfind_elem_of in Hm; [|by repeat constructor].
  apply list_elem_of_singleton in Hm as [= -> ->]. apply list_elem_of_singleton in Hl as [= -> ->].
  apply list_elem_of_singleton in Hi as ->. eexists _, _. split; [reflexivity|]. split; [reflexivity|].
  pose proof PositionalDeleteExample.files_ok as Hf. rewrite Forall_forall in Hf. apply (Hf (0, _)). by left.
Qed.

Lemma partition_zero : partition_deletes (eq_del_info plan) 0 = [(0, EqualityExample.e0)].
Proof. vm_compute. reflexivity. Qed.

Lemma equality_ok :
  EqualityDeleteHandler.deletes_ok (OpenEqualityDeletes files) eq_del_config (eq_del_info plan) EqualityExample.ty 0.
Proof.
  unfold EqualityDeleteHandler.deletes_ok. rewrite partition_zero. split; [|by vm_compute].
  intros layer info [= -> ->]%list_elem_of_singleton. apply EqualityExample.e0_ok.
Qed.

Lemma batch_a_ok : let b := planned no_scalars files builder every_row path_a batch_a in
  data_ok eq_del_config (MakeMapper table_schema) EqualityExample.ty (deletes_of (eq_del_info plan) b) b.
Proof.
  assert (∀ i, i ∈ [0; 1; 2; 3] → i = 0 ∨ i = 1 ∨ i = 2 ∨ i = 3) as Hrows.
  { intros i. rewrite !elem_of_cons, elem_of_nil. tauto. }
  cbn zeta. unfold deletes_of. change (partition_ _) with 0. rewrite partition_zero. split.
  - intros layer info id [= -> ->]%list_elem_of_singleton ->%list_elem_of_singleton.
    exists values. split; [vm_compute; reflexivity|]. intros i [->|[->|[->| ->]]]%Hrows; by eexists.
  - intros layer info i [= -> ->]%list_elem_of_singleton [->|[->|[->| ->]]]%Hrows;
      first [apply (EqualityExample.row1_ok 5)|apply (EqualityExample.row1_ok 7)|apply (EqualityExample.row1_ok 1)];
      unfold_ints; lia.
  - intros layer info i _ _. by left.
Qed.

Lemma scan_is_ok :
  scan_ok no_scalars files chunks every_row EqualityExample.ty (InitializeAllEntries plan) (pos_del_info plan)
    (eq_del_info plan) (Some eq_del_config) None None table_schema [1] None None.
Proof.
  split.
  - repeat constructor. apply not_elem_of_nil.
  - reflexivity.
  - exact filter_kept.
  - exact table_files_ok.
  - rewrite paths_read. intros a a' ->%list_elem_of_singleton ->%list_elem_of_singleton _. reflexivity.
  - exact positional_ok.
  - intros _. exists eq_del_config. split; [reflexivity|]. split; [reflexivity|]. rewrite batches_read.
    intros a p [= -> ->]%list_elem_of_singleton. split; [exact equality_ok|exact batch_a_ok].
Qed.
End TableExample.

Import TableExample.



(** The final projection is computed and not used: of a query that asks for no
    field, the column that was read for the equality deletes is delivered. *)
Theorem unrequested_column_delivered :
  (let! out := (let! s := plan_stream no_scalars files plan (Some eq_del_config) None None table_schema [] None in run s) in
   Ok ((λ b, (record_batch b).*1) <$> out)) = Ok [["id"]].
Proof. vm_compute. reflexivity. Qed.
