(* ===== verification/Url.v ===== *)
(** * Url: the parts of an URL

    [SplitUrl] of [iceberg/common/fs/url.cpp], with the parameters of the query, and
    the function of the same name in [iceberg/tea_scan.cpp], with [UrlToPath]. *)

From stdpp Require Import base list strings.
From Stdlib Require Import Lia.
From Stdlib Require Import Strings.Ascii Strings.String.
From S2P Require Import Prelude Bytes.

(** ** [std::string_view] *)

Definition any_of (cs : string) (c : ascii) : bool := existsb (Ascii.eqb c) (list_ascii_of_string cs).

(** [find_first_of]; [npos] is [None]. *)
Fixpoint find_first_of (cs s : string) : option nat :=
  match s with
  | EmptyString => None
  | String c s => if any_of cs c then Some O else S <$> find_first_of cs s
  end.

(** [find] of a string. *)
Fixpoint find (p s : string) : option nat :=
  if String.prefix p s then Some O
  else match s with EmptyString => None | String _ s => S <$> find p s end.

Fixpoint remove_prefix (n : nat) (s : string) : string :=
  match n, s with
  | S n, String _ s => remove_prefix n s
  | _, _ => s
  end.
Fixpoint prefix_of (n : nat) (s : string) : string :=
  match n, s with
  | S n, String c s => String c (prefix_of n s)
  | _, _ => EmptyString
  end.

(** ** [common/fs/url.cpp] *)

Record UrlComponents := {
  url_schema : string;
  url_location : string;
  url_path : string;
  url_params : list (string * string);
}.

Definition ParseParam (param : string) : string * string :=
  match find_first_of "=" param with
  | Some pos => (prefix_of pos param, remove_prefix (pos + 1) param)
  | None => (param, "")
  end.

(** The loop over the query: [None] when the fuel does not suffice. *)
Fixpoint params_loop (fuel : nat) (url : string) (params : list (string * string)) : option (list (string * string)) :=
  match fuel with
  | O => None
  | S fuel =>
      match url with
      | EmptyString => Some params
      | String front _ =>
          if Ascii.eqb front "#" then Some params
          else
            match find_first_of "?&#" url with
            | Some pos =>
                let at_pos := default "#"%char (String.get pos url) in
                if Ascii.eqb at_pos "?" then params_loop fuel (remove_prefix 1 url) params
                else if Ascii.eqb at_pos "&"
                then params_loop fuel (remove_prefix (pos + 1) url) (params ++ [ParseParam (prefix_of pos url)])
                else params_loop fuel (remove_prefix pos url) (params ++ [ParseParam (prefix_of pos url)])
            | None => Some (params ++ [ParseParam url])
            end
      end
  end.

Definition kSchemaDelimiter : string := "://".

(** The schema and what follows it. *)
Definition split_schema (url : string) : string * string :=
  match find kSchemaDelimiter url with
  | Some pos => (prefix_of pos url, remove_prefix (pos + String.length kSchemaDelimiter) url)
  | None => ("", url)
  end.

Definition SplitUrl (url : string) : option UrlComponents :=
  let '(schema, url) := split_schema url in
  match find_first_of "/?#" url with
  | None => Some {| url_schema := schema; url_location := url; url_path := ""; url_params := [] |}
  | Some pos =>
      let location := prefix_of pos url in
      let url := remove_prefix pos url in
      match find_first_of "?#" url with
      | None => Some {| url_schema := schema; url_location := location; url_path := url; url_params := [] |}
      | Some pos =>
          let path := prefix_of pos url in
          let url := remove_prefix pos url in
          params ← params_loop (S (String.length url)) url [];
          Some {| url_schema := schema; url_location := location; url_path := path; url_params := params |}
      end
  end.

(** ** [tea_scan.cpp] *)

Module Scan.
Record UrlComponents := {
  schema : string;
  location : string;
  path : string;
}.

(** [find_first_of(cs, pos)]. *)
Definition find_first_of_from (cs s : string) (pos : nat) : option nat :=
  (λ k, (pos + k)%nat) <$> find_first_of cs (remove_prefix pos s).

(** [assign(s, first, last - first)]; [npos] takes what is left. *)
Definition assign (s : string) (first : nat) (last : option nat) : string :=
  let s := remove_prefix first s in
  match last with Some last => prefix_of (last - first) s | None => s end.

Definition SplitUrl (url : string) : UrlComponents :=
  let delimiter_pos := find kSchemaDelimiter url in
  let location_pos := match delimiter_pos with Some pos => (pos + String.length kSchemaDelimiter)%nat | None => O end in
  let non_location_pos := find_first_of_from "/?#" url location_pos in
  {| schema := match delimiter_pos with Some pos => assign url 0 (Some pos) | None => "" end;
     location := assign url location_pos non_location_pos;
     path := match non_location_pos with
             | Some pos =>
                 if bool_decide (String.get pos url = Some "/"%char)
                 then assign url pos (find_first_of_from "?#" url (pos + 1)) else ""
             | None => ""
             end |}.

Definition IsKnownPrefix (prefix : string) : bool :=
  String.eqb prefix "s3a" || String.eqb prefix "s3" || String.eqb prefix "file".

Definition UrlToPath (url : string) : string :=
  let components := SplitUrl url in
  if IsKnownPrefix (schema components) then (location components ++ path components)%string else "".
End Scan.

(** ** Lemmas on strings *)

(** Strings without the characters [cs]. *)
Fixpoint free (cs s : string) : bool :=
  match s with EmptyString => true | String c s => negb (any_of cs c) && free cs s end.

Lemma prefix_of_app a b : prefix_of (String.length a) (a ++ b) = a.
Proof. induction a as [|c a IH]; [by destruct b|]. cbn. f_equal. exact IH. Qed.
Lemma remove_prefix_app a b : remove_prefix (String.length a) (a ++ b) = b.
Proof. induction a as [|c a IH]; [by destruct b|]. exact IH. Qed.
Lemma remove_prefix_add a k b : remove_prefix (String.length a + k) (a ++ b) = remove_prefix k b.
Proof. induction a as [|c a IH]; [done|]. exact IH. Qed.
Lemma get_app a c b : String.get (String.length a) (a ++ String c b) = Some c.
Proof. by induction a. Qed.

Lemma find_first_of_app cs a c b :
  free cs a = true → any_of cs c = true → find_first_of cs (a ++ String c b) = Some (String.length a).
Proof.
  intros Ha Hc. induction a as [|x a IH]; [change ("" ++ String c b)%string with (String c b); cbn; by rewrite Hc|].
  rewrite append_cons. cbn [find_first_of].
  cbn in Ha. apply andb_true_iff in Ha as [Hx Ha]. apply negb_true_iff in Hx. rewrite Hx, IH by done. done.
Qed.
Lemma find_first_of_free cs s : free cs s = true → find_first_of cs s = None.
Proof.
  induction s as [|c s IH]; [done|]. cbn. rewrite andb_true_iff, negb_true_iff. intros [-> H]. by rewrite IH.
Qed.

(** What a found position says. *)
Lemma find_first_of_Some cs s n :
  find_first_of cs s = Some n → ∃ a c b, s = (a ++ String c b)%string ∧ String.length a = n ∧ free cs a = true ∧ any_of cs c = true.
Proof.
  revert n. induction s as [|c s IH]; intros n E; [done|]. cbn in E. destruct (any_of cs c) eqn:Hc.
  - injection E as <-. by exists "", c, s.
  - destruct (find_first_of cs s) as [k|]; [|done]. injection E as <-.
    destruct (IH k eq_refl) as (a & d & b & -> & <- & Ha & Hd). exists (String c a), d, b. cbn. by rewrite Hc.
Qed.

Lemma remove_prefix_length n s : String.length (remove_prefix n s) = (String.length s - n)%nat.
Proof. revert n. induction s as [|c s IH]; intros [|n]; try done. exact (IH n). Qed.

Lemma prefix_app p s : String.prefix p s = true → ∃ b, s = (p ++ b)%string.
Proof.
  revert s. induction p as [|c p IH]; intros s E; [by exists s|]. destruct s as [|d s]; [done|]. cbn in E.
  destruct (ascii_dec c d) as [->|]; [|done]. destruct (IH s E) as [b ->]. by exists b.
Qed.

Lemma find_Some p s n : find p s = Some n → ∃ a b, s = (a ++ p ++ b)%string ∧ String.length a = n.
Proof.
  revert n. induction s as [|c s IH]; intros n E; cbn [find] in E.
  - destruct (String.prefix p "") eqn:Hp; [|discriminate E]. injection E as <-. apply prefix_app in Hp as [b ->]. by exists "", b.
  - destruct (String.prefix p (String c s)) eqn:Hp.
    + injection E as <-. apply prefix_app in Hp as [b Hb]. by exists "", b.
    + destruct (find p s) as [k|]; [|done]. injection E as <-. destruct (IH k eq_refl) as (a & b & -> & <-).
      by exists (String c a), b.
Qed.

(** ** The loop over the query ends *)

Lemma params_loop_total fuel url ps : (String.length url < fuel)%nat → ∃ ps', params_loop fuel url ps = Some ps'.
Proof.
  revert url ps. induction fuel as [|fuel IH]; intros url ps Hf; [lia|]. cbn [params_loop].
  destruct url as [|c url]; [by eexists|]. destruct (Ascii.eqb_spec c "#") as [->|Hc]; [by eexists|].
  destruct (find_first_of "?&#" (String c url)) as [pos|] eqn:E; [|by eexists].
  assert (∀ n ps, (0 < n)%nat → ∃ ps', params_loop fuel (remove_prefix n (String c url)) ps = Some ps') as Hn.
  { intros n ps' ?. apply IH. rewrite remove_prefix_length. cbn [String.length] in *. lia. }
  destruct (any_of "?&#" c) eqn:Hac.
  - cbn [find_first_of] in E. rewrite Hac in E. injection E as <-. cbn [String.get default from_option id].
    unfold any_of in Hac. cbn in Hac. rewrite !orb_true_iff, !Ascii.eqb_eq in Hac.
    destruct Hac as [->|[->|[->|?]]]; [apply Hn; lia|apply Hn; lia|done|done].
  - cbn [find_first_of] in E. rewrite Hac in E. destruct (find_first_of "?&#" url) as [k|]; [|done]. injection E as <-.
    repeat case_match; apply Hn; lia.
Qed.

(** ** The two functions agree *)

Lemma any_of_slash c : any_of "/?#" c = true → c = "/"%char ∨ any_of "?#" c = true.
Proof. unfold any_of. cbn. rewrite !orb_true_iff, !Ascii.eqb_eq. intuition. Qed.
Lemma any_of_query c : any_of "?#" c = true → c ≠ "/"%char.
Proof. intros H ->. by vm_compute in H. Qed.
Lemma any_of_slash_query : any_of "?#" "/" = false.
Proof. done. Qed.

(** The prefix that is the schema, and the rest. *)
Lemma split_schema_app url :
  ∃ a rest, url = (a ++ rest)%string ∧ split_schema url = (Scan.schema (Scan.SplitUrl url), rest) ∧
    match find kSchemaDelimiter url with Some pos => (pos + String.length kSchemaDelimiter)%nat | None => O end = String.length a.
Proof.
  unfold split_schema. cbn [Scan.SplitUrl Scan.schema]. destruct (find kSchemaDelimiter url) as [pos|] eqn:E.
  - apply find_Some in E as (a & rest & -> & <-). exists (a ++ kSchemaDelimiter)%string, rest.
    rewrite append_assoc, append_length. split; [done|]. split; [|done]. f_equal.
    + unfold Scan.assign. by rewrite Nat.sub_0_r.
    + rewrite remove_prefix_add. apply remove_prefix_app.
  - by exists "", url.
Qed.

Lemma find_first_of_from_app cs a s : Scan.find_first_of_from cs (a ++ s) (String.length a) = (λ k, (String.length a + k)%nat) <$> find_first_of cs s.
Proof. unfold Scan.find_first_of_from. by rewrite remove_prefix_app. Qed.
Lemma assign_app a s last : Scan.assign (a ++ s) (String.length a) ((λ k, (String.length a + k)%nat) <$> last) =
  match last with Some k => prefix_of k s | None => s end.
Proof. unfold Scan.assign. rewrite remove_prefix_app. destruct last as [k|]; [|done]. cbn. f_equal. lia. Qed.

(** The path from a delimiter on. *)
Lemma path_app a c p :
  any_of "/?#" c = true →
  (if bool_decide (String.get (String.length a) (a ++ String c p) = Some "/"%char)
   then Scan.assign (a ++ String c p) (String.length a)
          (Scan.find_first_of_from "?#" (a ++ String c p) (String.length a + 1)) else "") =
  match find_first_of "?#" (String c p) with Some k => prefix_of k (String c p) | None => String c p end.
Proof.
  intros Hc. rewrite get_app. cbn [find_first_of]. destruct (any_of_slash c Hc) as [->|Hq].
  - rewrite bool_decide_true, any_of_slash_query by done. unfold Scan.find_first_of_from, Scan.assign.
    rewrite remove_prefix_add, remove_prefix_app. cbn [remove_prefix]. destruct (find_first_of "?#" p) as [k|]; [|done].
    cbn [fmap option_fmap option_map]. by replace (String.length a + 1 + k - String.length a)%nat with (S k) by lia.
  - rewrite bool_decide_false, Hq; [done|]. intros [= ->]. by apply any_of_query in Hq.
Qed.

(** The two functions that split an URL, for every URL: the one of the file systems
    returns, with the schema, the location and the path that the one of the scan finds. *)
Theorem split_url_agree url :
  ∃ params, SplitUrl url =
    Some {| url_schema := Scan.schema (Scan.SplitUrl url); url_location := Scan.location (Scan.SplitUrl url);
            url_path := Scan.path (Scan.SplitUrl url); url_params := params |}.
Proof.
  destruct (split_schema_app url) as (a & rest & Hu & Es & Hl). unfold SplitUrl. rewrite Es. clear Es.
  unfold Scan.SplitUrl. cbn [Scan.location Scan.path Scan.schema]. rewrite Hl. clear Hl.
  set (schema := match find _ _ with Some _ => _ | None => _ end). clearbody schema. subst url.
  rewrite find_first_of_from_app, assign_app.
  destruct (find_first_of "/?#" rest) as [pos|] eqn:E; [|by eexists]. cbn [fmap option_fmap option_map].
  apply find_first_of_Some in E as (l & c & p & -> & <- & _ & Hc). rewrite remove_prefix_app, prefix_of_app.
  rewrite <- append_length, <- append_assoc, path_app by done.
  destruct (find_first_of "?#" (String c p)) as [k|]; [|by eexists].
  destruct (params_loop_total (S (String.length (remove_prefix k (String c p)))) (remove_prefix k (String c p)) []) as [ps ->];
    [lia|]. by exists ps.
Qed.

(** ** URLs from their parts *)

Definition param_text (p : string * string) : string := p.1 ++ "=" ++ p.2.
Fixpoint query_text (params : list (string * string)) : string :=
  match params with
  | [] => ""
  | [p] => param_text p
  | p :: ps => param_text p ++ "&" ++ query_text ps
  end.
Definition tail_text (query : option (list (string * string))) (fragment : option string) : string :=
  match query with Some ps => "?" ++ query_text ps | None => "" end ++ match fragment with Some f => "#" ++ f | None => "" end.

(** What may stand in each part. *)
Definition params_ok (params : list (string * string)) : bool := forallb (λ p, free "=?&#" p.1 && free "?&#" p.2) params.
Definition path_ok (path : string) : bool :=
  match path with EmptyString => true | String c _ => Ascii.eqb c "/" && free "?#" path end.

Lemma free_app cs a b : free cs (a ++ b) = free cs a && free cs b.
Proof. induction a as [|c a IH]; [done|]. rewrite append_cons. cbn. by rewrite IH, andb_assoc. Qed.
Lemma free_weaken cs cs' s : (∀ c, any_of cs c = true → any_of cs' c = true) → free cs' s = true → free cs s = true.
Proof.
  intros Hw. induction s as [|c s IH]; [done|]. cbn. rewrite !andb_true_iff, !negb_true_iff. intros [Hc Hs].
  split; [|auto]. destruct (any_of cs c) eqn:E; [|done]. by rewrite Hw in Hc.
Qed.

Lemma find_schema s rest : free ":" s = true → find kSchemaDelimiter (s ++ kSchemaDelimiter ++ rest) = Some (String.length s).
Proof.
  intros Hs. induction s as [|c s IH]; [by destruct rest|]. rewrite append_cons. cbn [free] in Hs.
  apply andb_true_iff in Hs as [Hc Hs]. apply negb_true_iff in Hc. cbn [find]. rewrite IH by done.
  unfold kSchemaDelimiter. cbn [String.prefix]. destruct (ascii_dec ":" c) as [<-|]; [done|]. done.
Qed.

Lemma ParseParam_text k v : free "=" k = true → ParseParam (param_text (k, v)) = (k, v).
Proof.
  intros Hk. unfold ParseParam, param_text. cbn [fst snd]. change ("=" ++ v)%string with (String "=" v).
  rewrite find_first_of_app, prefix_of_app, remove_prefix_add by done. done.
Qed.

Lemma param_free p : free "=?&#" p.1 && free "?&#" p.2 = true → free "?&#" (param_text p) = true ∧ free "=" p.1 = true.
Proof.
  rewrite andb_true_iff. intros [Hk Hv]. unfold param_text. rewrite !free_app, Hv, !andb_true_iff.
  split; [split; [|done]|]; (eapply free_weaken; [|exact Hk]); intros c; unfold any_of; cbn;
    rewrite !orb_true_iff; tauto.
Qed.

(** One turn of the loop over a parameter and its delimiter. *)
Lemma params_loop_param fuel p d rest acc :
  free "=?&#" p.1 && free "?&#" p.2 = true → d = "&"%char ∨ d = "#"%char →
  params_loop (S fuel) (param_text p ++ String d rest) acc =
  params_loop fuel (if Ascii.eqb d "&" then rest else String d rest) (acc ++ [p]).
Proof.
  intros Hp Hd. destruct (param_free p Hp) as [Hf Hk].
  assert (∃ c s, param_text p = String c s ∧ c ≠ "#"%char) as (c & s & Ep & Hc).
  { destruct (param_text p) as [|c s] eqn:E; [by destruct p as [[|] ?]|]. exists c, s. split; [done|]. intros ->. done. }
  cbn [params_loop]. rewrite Ep, append_cons. destruct (Ascii.eqb_spec c "#"); [done|].
  rewrite <- append_cons, <- Ep. rewrite find_first_of_app; [|done|by destruct Hd as [-> | ->]].
  rewrite get_app, prefix_of_app, remove_prefix_app, remove_prefix_add. cbn [default from_option id remove_prefix].
  destruct p as [k v]. rewrite ParseParam_text by done. by destruct Hd as [-> | ->].
Qed.

Lemma params_loop_exact fuel ps fragment acc :
  params_ok ps = true → (String.length (query_text ps ++ tail_text None fragment) < fuel)%nat →
  params_loop fuel (query_text ps ++ tail_text None fragment) acc = Some (acc ++ ps).
Proof.
  revert fuel acc. induction ps as [|p ps IH]; intros fuel acc Hp Hf.
  - rewrite app_nil_r. destruct fuel as [|fuel]; [lia|]. by destruct fragment.
  - cbn [params_ok forallb] in Hp. apply andb_true_iff in Hp as [Hp Hps]. destruct fuel as [|fuel]; [lia|].
    destruct ps as [|q ps].
    + cbn [query_text] in *. destruct fragment as [f|].
      * change (tail_text None (Some f)) with (String "#" f) in *. rewrite params_loop_param by auto. cbn [Ascii.eqb].
        destruct fuel; [|done]. rewrite append_length in Hf. cbn in Hf. lia.
      * change (tail_text None None) with "" in *. rewrite append_nil_r in *. cbn [params_loop].
        destruct (param_free p Hp) as [Hn Hk].
        destruct (param_text p) as [|c s] eqn:E; [by destruct p as [[|] ?]|].
        destruct (Ascii.eqb_spec c "#") as [->|]; [done|]. rewrite find_first_of_free, <- E by done. destruct p.
        by rewrite ParseParam_text.
    + set (w := q :: ps) in *. change (query_text (p :: w)) with (param_text p ++ String "&" (query_text w))%string in *.
      rewrite append_assoc, append_cons in *. rewrite params_loop_param by auto. cbn [Ascii.eqb].
      change (if Ascii.eqb "&" "&" then _ else _) with (query_text w ++ tail_text None fragment)%string.
      rewrite IH; [by rewrite <- app_assoc|done|]. rewrite !append_length in *. cbn [String.length] in Hf.
      rewrite append_length in Hf. lia.
Qed.

(** A query or a fragment starts with its delimiter. *)
Lemma tail_text_head query fragment :
  from_option params_ok true query = true →
  tail_text query fragment = "" ∧ query = None ∨
  ∃ c t, tail_text query fragment = String c t ∧ any_of "?#" c = true ∧ any_of "/?#" c = true ∧
    params_loop (S (String.length (tail_text query fragment))) (tail_text query fragment) [] = Some (default [] query).
Proof.
  intros Hq. destruct query as [ps|].
  - right. exists "?"%char, (query_text ps ++ tail_text None fragment)%string.
    assert (tail_text (Some ps) fragment = String "?" (query_text ps ++ tail_text None fragment)) as -> by done.
    split; [done|]. split; [done|]. split; [done|].
    set (q := (query_text ps ++ tail_text None fragment)%string). cbn [params_loop].
    change (Ascii.eqb "?" "#") with false. cbn [find_first_of remove_prefix String.get default from_option id].
    apply params_loop_exact; [done|]. fold q. cbn [String.length]. lia.
  - destruct fragment as [f|]; [|by left]. right. by exists "#"%char, f.
Qed.

(** An URL that is made of a schema, a location, a path, the parameters of a query and
    a fragment, each without the delimiters that end it, is split into just these parts;
    the fragment is dropped, and a missing query has no parameters. *)
Theorem split_url_exact schema location path query fragment :
  free ":" schema = true → free "/?#" location = true → path_ok path = true → from_option params_ok true query = true →
  SplitUrl (schema ++ kSchemaDelimiter ++ location ++ path ++ tail_text query fragment) =
  Some {| url_schema := schema; url_location := location; url_path := path; url_params := default [] query |}.
Proof.
  intros Hs Hl Hp Hq. unfold SplitUrl, split_schema. rewrite find_schema, prefix_of_app, remove_prefix_add, remove_prefix_app by done.
  assert (free "?#" path = true) as Hpf by (destruct path; [done|]; by apply andb_true_iff in Hp as [_ ?]).
  set (rest := (path ++ tail_text query fragment)%string).
  assert (rest = "" ∧ path = "" ∧ query = None ∨ ∃ c t, rest = String c t ∧ any_of "/?#" c = true) as [(Hr & -> & ->)|(c & t & Hr & Hc)].
  { unfold rest. destruct path as [|c path].
    - destruct (tail_text_head query fragment Hq) as [[-> ->]|(c & t & -> & _ & Hc & _)]; [by left|right; by exists c, t].
    - right. exists c, (path ++ tail_text query fragment)%string. apply andb_true_iff in Hp as [Hc _].
      apply Ascii.eqb_eq in Hc as ->. done. }
  - rewrite Hr, append_nil_r. by rewrite find_first_of_free.
  - rewrite Hr, find_first_of_app, prefix_of_app, remove_prefix_app by done. rewrite <- Hr. unfold rest.
    destruct (tail_text_head query fragment Hq) as [[-> ->]|(d & u & E & Hd & _ & Hloop)].
    + by rewrite append_nil_r, find_first_of_free.
    + rewrite E in *. rewrite find_first_of_app, prefix_of_app, remove_prefix_app by done. by rewrite Hloop.
Qed.

Lemma split_url_exact_witness :
  SplitUrl "s3://bucket/warehouse/t?versionId=7&a=#frag" =
  Some {| url_schema := "s3"; url_location := "bucket"; url_path := "/warehouse/t"; url_params := [("versionId", "7"); ("a", "")] |}.
Proof.
  apply (split_url_exact "s3" "bucket" "/warehouse/t" (Some [("versionId", "7"); ("a", "")]) (Some "frag")); reflexivity.
Defined.

(** A question mark in a value drops the parameter it stands in. *)
Lemma question_mark_drops_param :
  url_params <$> SplitUrl "t://h/p?a=1?b=2" = Some [("b", "2")].
Proof. reflexivity. Qed.
