(* ===== verification/PartitionTransforms.v ===== *)
(** * PartitionTransforms: partition transforms of the writer

    [iceberg/transforms.h], [iceberg/transforms.cpp] and, of [iceberg/hash_utils.h],
    the hashes of the scalars that the transforms take.  [MurmurHash3_x86_32] (the
    SMHasher library, which the build uses) and [ComputeStringHash] of Arrow are
    parameters.  Where the program divides by zero, reads a scalar of another type or
    overflows, the model has an error whose message starts with "undefined". *)

From stdpp Require Import base list strings pretty.
From Stdlib Require Import ZArith Lia.
From S2P Require Import Prelude Calendar Bytes CxxText Types ScanTypes Url ManifestFilter.

Local Open Scope Z_scope.

(** ** Scalars *)

(** An [arrow::Scalar] has a type and a value, which also a NULL has.  Floating
    numbers are their bits. *)
Inductive scalar_value :=
| S_bool (v : bool)
| S_int (bits v : Z)
| S_uint (bits v : Z)
| S_float (bits : Z)
| S_double (bits : Z)
| S_string (v : string)
| S_date64 (millis : Z).

#[global] Instance scalar_value_eq_dec : EqDecision scalar_value.
Proof. solve_decision. Defined.

Record scalar := { value : scalar_value; is_valid : bool }.

#[global] Instance scalar_eq_dec : EqDecision scalar.
Proof. solve_decision. Defined.

Definition make_scalar (v : scalar_value) : scalar := {| value := v; is_valid := true |}.
Definition Int32Scalar (v : Z) : scalar := make_scalar (S_int 32 v).
(** [MakeNullScalar(arrow::int32())]. *)
Definition null_int32 : scalar := {| value := S_int 32 0; is_valid := false |}.

(** ** Hashes *)

Section hash.
Context (MurmurHash3_x86_32 : bytes → Z) (ComputeStringHash : bytes → Z).

(** [MurMurHasher::operator()]: the 64-bit image of an integer; the overload for
    floating numbers cannot be deduced, and every other type is refused. *)
Definition MurMurHasher (v : scalar_value) : result Z :=
  match v with
  | S_int bits v | S_uint bits v =>
      if (bits =? 32) || (bits =? 64) then Ok (wrap_s 32 (MurmurHash3_x86_32 (le_encode 8 v)))
      else Err (Exn "Unsupported type")
  | S_date64 v => Ok (wrap_s 32 (MurmurHash3_x86_32 (le_encode 8 v)))
  | _ => Err (Exn "Unsupported type")
  end.

(** [MurMurScalarHashImpl]: [hash_] for a scalar; a NULL leaves it 0. *)
Definition MurMurScalarHashImpl (s : scalar) : result Z :=
  if is_valid s then
    match value s with
    | S_string v => Ok (wrap_s 64 (Z.lxor 0 (ComputeStringHash (bytes_of_string v))))
    | v => let! h := MurMurHasher v in Ok (Z.lxor 0 h)
    end
  else Ok 0.

(** ** Transforms *)

Inductive TransformType :=
| kIdentityTransform | kVoidTransform | kBucketTransform | kTruncateTransform
| kYearTransform | kDayTransform | kMonthTransform | kHourTransform.

(** [ITransform]: the classes that implement it. *)
Inductive ITransform :=
| IdentityTransform
| VoidTransform
| BucketTransform (num_buckets : Z)
| TruncateTransform (width : Z)
| MonthTransform
| YearTransform
| DayTransform
| HourTransform.

Definition GetTransformNameByType (type : TransformType) : string :=
  match type with
  | kBucketTransform => "bucket"
  | kDayTransform => "day"
  | kHourTransform => "hour"
  | kIdentityTransform => "identity"
  | kTruncateTransform => "truncate"
  | kVoidTransform => "void"
  | kYearTransform => "year"
  | kMonthTransform => "month"
  end.

(** *** Buckets *)

Definition bucket (num_buckets : Z) (src : scalar) : result scalar :=
  let! hash := MurMurScalarHashImpl src in
  if num_buckets =? 0 then Err (Exn "undefined: division by zero")
  else Ok (Int32Scalar (Z.rem (Z.land hash int32_max) num_buckets)).

(** *** Truncation *)

(** [hash - (((hash % width) + width) % width)]. *)
Definition truncated (width hash : Z) : result Z :=
  if width =? 0 then Err (Exn "undefined: division by zero")
  else Ok (wrap_s 64 (hash - Z.rem (Z.rem hash width + width) width)).

Definition ApplyTruncate (width representation : Z) : result Z :=
  let! hash := MurMurScalarHashImpl (make_scalar (S_int 64 representation)) in truncated width hash.

Definition TruncateNumeric (width : Z) (src : scalar) (make : Z → scalar_value) : result scalar :=
  let! hash := MurMurScalarHashImpl src in
  let! cur_value := truncated width hash in
  Ok (make_scalar (make cur_value)).

(** [substr(0, width_)] of the text of the scalar; a negative width takes all of it. *)
Definition TruncateString (width : Z) (v : string) (is_valid : bool) : scalar :=
  let text := if is_valid then v else "null"%string in
  make_scalar (S_string (if width <? 0 then text else prefix_of (Z.to_nat width) text)).

Definition truncate (width : Z) (src : scalar) : result scalar :=
  match value src with
  | S_bool _ => TruncateNumeric width src (λ v, S_bool (negb (v =? 0)))
  | S_int bits _ => TruncateNumeric width src (λ v, S_int bits (wrap_s bits v))
  | S_uint bits _ => TruncateNumeric width src (λ v, S_uint bits (wrap_u bits v))
  | S_string v => Ok (TruncateString width v (is_valid src))
  | S_float bits => let! r := ApplyTruncate width (wrap_s 32 bits) in Ok (make_scalar (S_float (wrap_u 32 r)))
  | S_double bits => let! r := ApplyTruncate width (wrap_s 64 bits) in Ok (make_scalar (S_double (wrap_u 64 r)))
  | S_date64 _ => Err (Exn "Unsupported type")
  end.

End hash.

(** *** Dates *)

(** The fields of [std::tm] that the transforms read. *)
Record tm := { tm_year : Z; tm_mon : Z; tm_mday : Z; tm_hour : Z }.

(** [std::gmtime]. *)
Definition gmtime (time : Z) : tm :=
  let '(y, m, d) := civil_from_days (time / 86400) in
  {| tm_year := y - 1900; tm_mon := m - 1; tm_mday := d; tm_hour := time mod 86400 / 3600 |}.

(** [system_clock::to_time_t]: the clock counts nanoseconds, of which whole seconds are
    kept. *)
Definition to_time_t (millis : Z) : result Z :=
  let nanos := millis * 1000000 in
  if (int64_min <=? nanos) && (nanos <=? int64_max) then Ok (Z.quot nanos 1000000000)
  else Err (Exn "undefined: nanoseconds overflow").

(** The scalar is taken for a [Date64Scalar]. *)
Definition date_tm (src : scalar) : result tm :=
  match value src with
  | S_date64 millis => let! time := to_time_t millis in Ok (gmtime time)
  | _ => Err (Exn "undefined: not a Date64Scalar")
  end.

Section transform.
Context (MurmurHash3_x86_32 : bytes → Z) (ComputeStringHash : bytes → Z).

(** [ITransform::Transform]. *)
Definition Transform (t : ITransform) (src : scalar) : result scalar :=
  match t with
  | IdentityTransform => Ok src
  | VoidTransform => Ok null_int32
  | BucketTransform n => bucket MurmurHash3_x86_32 ComputeStringHash n src
  | TruncateTransform w => truncate MurmurHash3_x86_32 ComputeStringHash w src
  | MonthTransform => let! tm := date_tm src in Ok (Int32Scalar (tm_mon tm + 1))
  | YearTransform => let! tm := date_tm src in Ok (Int32Scalar (tm_year tm + 1900))
  | DayTransform => let! tm := date_tm src in Ok (Int32Scalar (tm_mday tm))
  | HourTransform => let! tm := date_tm src in Ok (Int32Scalar (tm_hour tm))
  end.
End transform.

Definition CanTransform (t : ITransform) (src : Type_) : bool :=
  match t with
  | IdentityTransform | VoidTransform => true
  | BucketTransform _ => bool_decide (TypeId src ∈ [kBoolean; kBinary; kDouble; kFloat; kInt; kLong])
  | TruncateTransform _ => bool_decide (TypeId src ∈ [kBoolean; kInt; kLong; kString; kDouble; kFloat])
  | MonthTransform | YearTransform | DayTransform | HourTransform => bool_decide (TypeId src = kDate)
  end.

Definition ToString (t : ITransform) : string :=
  match t with
  | IdentityTransform => "identity"
  | VoidTransform => "void"
  | BucketTransform n => "bucket" +:+ "[" +:+ pretty n +:+ "]"
  | TruncateTransform w => "truncate" +:+ "[" +:+ pretty w +:+ "]"
  | MonthTransform => "month"
  | YearTransform => "year"
  | DayTransform => "day"
  | HourTransform => "hour"
  end.

(** [ResultType]; the null pointer is [None]. *)
Definition ResultType (t : ITransform) (src : Type_) : option Type_ :=
  match t with
  | IdentityTransform => Some src
  | VoidTransform => None
  | BucketTransform _ | TruncateTransform _ => Some (PrimitiveType kInt)
  | MonthTransform | YearTransform | DayTransform | HourTransform => Some (PrimitiveType kDate)
  end.

(** ** [TransformParser] *)

Definition substr (s : string) (pos count : nat) : string := prefix_of count (remove_prefix pos s).

(** The order of the tests in [GetTransformType]. *)
Definition transform_types : list TransformType :=
  [kIdentityTransform; kVoidTransform; kBucketTransform; kTruncateTransform; kYearTransform; kDayTransform;
   kMonthTransform; kHourTransform].

Definition GetTransformType (current_transform : string) : result TransformType :=
  match List.find (λ t, let p := GetTransformNameByType t in String.eqb (substr current_transform 0 (String.length p)) p)
          transform_types with
  | Some t => Ok t
  | None => Err (Exn "Unknown transform type")
  end.

Definition GetTransformParam (current_transform : string) : result (option Z) :=
  let! type := GetTransformType current_transform in
  let prefix_size := String.length (GetTransformNameByType type) in
  if (String.length current_transform =? prefix_size)%nat then Ok None
  else
    let! param := stoi (substr current_transform (prefix_size + 1) (String.length current_transform - 2 - prefix_size)) in
    Ok (Some param).

Definition GetTransform (name : string) : result ITransform :=
  let! type := GetTransformType name in
  match type with
  | kIdentityTransform => Ok IdentityTransform
  | kVoidTransform => Ok VoidTransform
  | kBucketTransform =>
      let! param := GetTransformParam name in
      match param with Some n => Ok (BucketTransform n) | None => Err (Exn "undefined: no parameter") end
  | kTruncateTransform =>
      let! param := GetTransformParam name in
      match param with Some n => Ok (TruncateTransform n) | None => Err (Exn "undefined: no parameter") end
  | kMonthTransform => Ok MonthTransform
  | kYearTransform => Ok YearTransform
  | kHourTransform => Ok HourTransform
  | kDayTransform => Ok HourTransform
  end.

(** ** Dates *)

Definition date64 (millis : Z) : scalar := make_scalar (S_date64 millis).
Definition kMillisPerDay : Z := 86400000.

Lemma to_time_t_ok millis :
  in_i64 (millis * 1000000) → 0 ≤ millis ∨ millis mod 1000 = 0 → to_time_t millis = Ok (millis / 1000).
Proof.
  intros [Hlo Hhi] Hm. unfold to_time_t. apply Z.leb_le in Hlo, Hhi. rewrite Hlo, Hhi. cbn [andb]. f_equal.
  replace 1000000000 with (1000 * 1000000) by lia. rewrite Z.quot_mul_cancel_r by lia.
  destruct Hm as [Hm|Hm]; [apply Z.quot_div_nonneg; lia|].
  apply Z.mod_divide in Hm as [k ->]; [|lia]. by rewrite Z.quot_mul, Z.div_mul by lia.
Qed.

Lemma date_tm_ok y m d t :
  valid_date y m d → 0 ≤ t < kMillisPerDay →
  let millis := days_from_civil y m d * kMillisPerDay + t in
  in_i64 (millis * 1000000) → 0 ≤ millis ∨ millis mod 1000 = 0 →
  date_tm (date64 millis) = Ok {| tm_year := y - 1900; tm_mon := m - 1; tm_mday := d; tm_hour := t / 3600000 |}.
Proof.
  intros Hv Ht millis Hr Hm. unfold date_tm. cbn [value date64 make_scalar]. rewrite to_time_t_ok by done. cbn [rbind].
  unfold gmtime. set (day := days_from_civil y m d) in *. unfold kMillisPerDay in *.
  assert (millis / 1000 = day * 86400 + t / 1000) as ->.
  { unfold millis. replace (day * 86400000 + t) with (t + day * 86400 * 1000) by lia. rewrite Z_div_plus_full by lia. lia. }
  assert (0 ≤ t / 1000 < 86400) as Hs by (split; [apply Z.div_pos; lia|apply Z.div_lt_upper_bound; lia]).
  assert ((day * 86400 + t / 1000) / 86400 = day) as -> by (symmetry; apply (Z.div_unique _ _ _ (t / 1000)); lia).
  assert ((day * 86400 + t / 1000) mod 86400 = t / 1000) as -> by (symmetry; apply (Z.mod_unique _ _ day); lia).
  unfold day. rewrite day_of_civil by done. rewrite Z.div_div by lia. done.
Qed.

(** The transforms of dates: of a point of time in a day of the calendar, at or after
    the epoch or on a whole second, they return the year, the month of the year, the day of
    the month and the hour of the day, for every date whose nanoseconds fit the clock. *)
Lemma date_transforms_exact murmur hash_string y m d t :
  valid_date y m d → 0 ≤ t < kMillisPerDay →
  in_i64 ((days_from_civil y m d * kMillisPerDay + t) * 1000000) →
  0 ≤ days_from_civil y m d * kMillisPerDay + t ∨ t mod 1000 = 0 →
  let src := date64 (days_from_civil y m d * kMillisPerDay + t) in
  let transform := λ t, Transform murmur hash_string t src in
  transform YearTransform = Ok (Int32Scalar y) ∧ transform MonthTransform = Ok (Int32Scalar m) ∧
  transform DayTransform = Ok (Int32Scalar d) ∧ transform HourTransform = Ok (Int32Scalar (t / 3600000)).
Proof.
  intros Hv Ht Hr Hm src transform. unfold transform, Transform. unfold src. rewrite (date_tm_ok y m d t); [|done|done|done|].
  - cbn [rbind tm_year tm_mon tm_mday tm_hour].
    replace (y - 1900 + 1900) with y by lia. by replace (m - 1 + 1) with m by lia.
  - destruct Hm as [?|Hm]; [by left|right]. unfold kMillisPerDay.
    replace (days_from_civil y m d * 86400000 + t) with (t + days_from_civil y m d * 86400 * 1000) by lia.
    by rewrite Z_mod_plus_full.
Qed.

(** ** Bounds *)

(** The fields of a point of time that the clock can represent. *)
Lemma date_tm_bounds src r :
  date_tm src = Ok r →
  1677 ≤ tm_year r + 1900 ≤ 2262 ∧ 1 ≤ tm_mon r + 1 ≤ 12 ∧ 1 ≤ tm_mday r ≤ 31 ∧ 0 ≤ tm_hour r < 24.
Proof.
  unfold date_tm. destruct (value src) as [| | | | | |millis]; try discriminate. intros E.
  apply rbind_Ok_inv in E as (time & Et & E). injection E as <-. unfold to_time_t in Et.
  destruct (_ && _) eqn:Hr; [|discriminate]. injection Et as <-. apply andb_true_iff in Hr as [Hlo Hhi].
  apply Z.leb_le in Hlo, Hhi. set (time := Z.quot (millis * 1000000) 1000000000).
  assert (-9223372036 ≤ time ≤ 9223372036) as Htime.
  { unfold time. unfold_ints. split; [|].
    - change (-9223372036) with (Z.quot int64_min 1000000000). apply Z.quot_le_mono; [lia|]. exact Hlo.
    - change 9223372036 with (Z.quot int64_max 1000000000). apply Z.quot_le_mono; [lia|]. exact Hhi. }
  assert (-106752 ≤ time / 86400 ≤ 106751) as Hday by (Z.to_euclidean_division_equations; lia).
  unfold gmtime. pose proof (civil_of_day (time / 86400)) as Hc. destruct (civil_from_days (time / 86400)) as [[y m] d].
  destruct Hc as [Hv Hd]. cbn [tm_year tm_mon tm_mday tm_hour]. pose proof (year_bounds y m d Hv) as Hy. rewrite Hd in Hy.
  destruct Hv as [Hm Hdm]. assert (d ≤ 31) by (unfold days_in_month in Hdm; repeat case_match; lia).
  pose proof (Z.mod_pos_bound time 86400 ltac:(lia)) as Hs.
  assert (0 ≤ time mod 86400 / 3600 < 24) by (split; [apply Z.div_pos; lia|apply Z.div_lt_upper_bound; lia]).
  split; [|lia]. split.
  - destruct (decide (y < 1677)); [|lia]. pose proof (new_year_mono (y + 1) 1677 ltac:(lia)) as Hf.
    change (days_from_civil 1677 1 1) with (-107015) in Hf. lia.
  - destruct (decide (2262 < y)); [|lia]. pose proof (new_year_mono 2263 y ltac:(lia)) as Hf.
    change (days_from_civil 2263 1 1) with 107016 in Hf. lia.
Qed.

(** *** Truncation *)

Lemma floor_rem h w : 0 < w → Z.rem (Z.rem h w + w) w = h mod w.
Proof.
  intros Hw. pose proof (Z.rem_bound_abs h w ltac:(lia)) as Hb. rewrite Z.rem_mod_nonneg by lia.
  replace (Z.rem h w + w) with (Z.rem h w + 1 * w) by lia. rewrite Z_mod_plus_full.
  pose proof (Z.quot_rem h w ltac:(lia)) as Hq. rewrite Hq at 2.
  replace (w * (h ÷ w) + Z.rem h w) with (Z.rem h w + (h ÷ w) * w) by lia. by rewrite Z_mod_plus_full.
Qed.

Lemma int64_hash_range murmur hash_string src v h :
  value src = S_int 64 v → MurMurScalarHashImpl murmur hash_string src = Ok h → in_i32 h.
Proof.
  unfold MurMurScalarHashImpl. intros ->. destruct (is_valid src); [|intros [= <-]; unfold_ints; lia].
  cbn. intros [= <-]. apply wrap_s_32_range.
Qed.

Lemma truncated_spec w h u : in_i32 h → 0 < w ≤ int32_max → truncated w h = Ok u → (w | u) ∧ u ≤ h < u + w ∧ in_i64 u.
Proof.
  intros Hh Hw. unfold truncated. rewrite (proj2 (Z.eqb_neq w 0)), floor_rem by lia.
  pose proof (Z.mod_pos_bound h w ltac:(lia)) as Hm. intros [= <-]. rewrite wrap_s_64_id; [|unfold_ints; lia].
  split; [exists (h / w); pose proof (Z.div_mod h w); lia|]. unfold_ints; lia.
Qed.

(** Bounds of the values of a partition: a positive number of buckets bounds the bucket of every
    scalar that is hashed, a NULL included; the transforms of dates return a year that the
    clock can represent, a month of 1 to 12, a day of 1 to 31 and an hour below 24; a
    truncation of 64-bit integers is a multiple of its width at most the width below the
    hash. *)
Theorem transform_bounds murmur hash_string t src r :
  Transform murmur hash_string t src = Ok r →
  match t with
  | BucketTransform n => 0 < n → ∃ v, r = Int32Scalar v ∧ 0 ≤ v < n
  | YearTransform => ∃ v, r = Int32Scalar v ∧ 1677 ≤ v ≤ 2262
  | MonthTransform => ∃ v, r = Int32Scalar v ∧ 1 ≤ v ≤ 12
  | DayTransform => ∃ v, r = Int32Scalar v ∧ 1 ≤ v ≤ 31
  | HourTransform => ∃ v, r = Int32Scalar v ∧ 0 ≤ v < 24
  | TruncateTransform w =>
      ∀ v, value src = S_int 64 v → 0 < w ≤ int32_max →
      ∃ h u, MurMurScalarHashImpl murmur hash_string src = Ok h ∧ r = make_scalar (S_int 64 u) ∧ (w | u) ∧ u ≤ h < u + w
  | IdentityTransform => r = src
  | VoidTransform => is_valid r = false
  end.
Proof.
  destruct t as [| |n|w| | | |]; cbn [Transform]; intros E.
  - by injection E.
  - by injection E as <-.
  - intros Hn. apply rbind_Ok_inv in E as (h & Hh & E). rewrite (proj2 (Z.eqb_neq n 0)) in E by lia. injection E as <-.
    eexists. split; [done|]. apply Z.rem_bound_pos; [|done]. apply Z.land_nonneg. right. done.
  - intros v Hv Hw. unfold truncate in E. rewrite Hv in E. apply rbind_Ok_inv in E as (h & Hh & E).
    apply rbind_Ok_inv in E as (u & Hu & E). injection E as <-. exists h, u. split; [done|].
    pose proof (int64_hash_range _ _ _ _ _ Hv Hh) as Hr. destruct (truncated_spec w h u Hr Hw Hu) as (? & ? & ?).
    by rewrite wrap_s_64_id.
  - apply rbind_Ok_inv in E as (tm & Ht & E). injection E as <-. apply date_tm_bounds in Ht as (? & ? & ? & ?). by eexists.
  - apply rbind_Ok_inv in E as (tm & Ht & E). injection E as <-. apply date_tm_bounds in Ht as (? & ? & ? & ?). by eexists.
  - apply rbind_Ok_inv in E as (tm & Ht & E). injection E as <-. apply date_tm_bounds in Ht as (? & ? & ? & ?). by eexists.
  - apply rbind_Ok_inv in E as (tm & Ht & E). injection E as <-. apply date_tm_bounds in Ht as (? & ? & ? & ?). by eexists.
Qed.

Definition int64_scalar (v : Z) : scalar := make_scalar (S_int 64 v).

Lemma land_int32_max h : Z.land h int32_max = h mod 2 ^ 31.
Proof. change int32_max with (Z.ones 31). by apply Z.land_ones. Qed.

Lemma bucket_value murmur hash_string n v : 0 < n →
  Transform murmur hash_string (BucketTransform n) (int64_scalar v) =
  Ok (Int32Scalar ((wrap_s 32 (murmur (le_encode 8 v)) mod 2 ^ 31) mod n)).
Proof.
  intros Hn. cbn [Transform]. unfold bucket. cbn. rewrite (proj2 (Z.eqb_neq n 0)) by lia.
  change 2147483647 with int32_max. rewrite land_int32_max. f_equal. f_equal.
  apply Z.rem_mod_nonneg; [|done]. by apply Z.mod_pos_bound.
Qed.

Lemma truncate_value murmur hash_string w v : 0 < w ≤ int32_max →
  Transform murmur hash_string (TruncateTransform w) (int64_scalar v) =
  Ok (int64_scalar (w * (wrap_s 32 (murmur (le_encode 8 v)) / w))).
Proof.
  intros Hw. cbn [Transform]. unfold truncate, TruncateNumeric. cbn [value int64_scalar make_scalar].
  change (MurMurScalarHashImpl murmur hash_string _) with (Ok (wrap_s 32 (murmur (le_encode 8 v)))). cbn [rbind].
  set (h := wrap_s 32 (murmur (le_encode 8 v))). pose proof (wrap_s_32_range (murmur (le_encode 8 v))) as Hh. fold h in Hh.
  unfold truncated. rewrite (proj2 (Z.eqb_neq w 0)), floor_rem by lia. cbn [rbind]. unfold int64_scalar. do 3 f_equal.
  pose proof (Z.mod_pos_bound h w ltac:(lia)). pose proof (Z.div_mod h w ltac:(lia)).
  rewrite !wrap_s_64_id; [lia|unfold_ints; lia|rewrite wrap_s_64_id; unfold_ints; lia].
Qed.

Lemma prefix_of_substring k text : prefix_of k text = String.substring 0 k text.
Proof. revert k. induction text as [|c text IH]; intros [|k]; cbn; [done|done|done|by rewrite IH]. Qed.

(** C33: the values that the transforms of the writer return.  Of a point of time [t]
    milliseconds into a day of the calendar, at or after the epoch or on a whole second,
    whose nanoseconds fit the clock: the year, the month of the year, the day of the month
    and the hour of the day (fields of the calendar; the specification and the reader of
    partition summaries count from 1970 instead).  Of a 64-bit integer, with the 32-bit
    Murmur hash of its eight bytes: the low 31 bits of the hash modulo a positive number of
    buckets; and for a truncation to a positive width the largest multiple of the width
    that is not above the hash (the specification truncates the number itself).  Of a
    string: its first bytes up to the width.  The identity returns the scalar, the void
    transform a NULL. *)
Theorem transforms_exact murmur hash_string y m d t v n w (text : string) src :
  valid_date y m d → 0 ≤ t < kMillisPerDay →
  in_i64 ((days_from_civil y m d * kMillisPerDay + t) * 1000000) →
  0 ≤ days_from_civil y m d * kMillisPerDay + t ∨ t mod 1000 = 0 →
  0 < n → 0 < w ≤ int32_max →
  let date := date64 (days_from_civil y m d * kMillisPerDay + t) in
  let hash := wrap_s 32 (murmur (le_encode 8 v)) in
  let transform := Transform murmur hash_string in
  transform YearTransform date = Ok (Int32Scalar y) ∧
  transform MonthTransform date = Ok (Int32Scalar m) ∧
  transform DayTransform date = Ok (Int32Scalar d) ∧
  transform HourTransform date = Ok (Int32Scalar (t / 3600000)) ∧
  transform (BucketTransform n) (int64_scalar v) = Ok (Int32Scalar ((hash mod 2 ^ 31) mod n)) ∧
  transform (TruncateTransform w) (int64_scalar v) = Ok (int64_scalar (w * (hash / w))) ∧
  transform (TruncateTransform w) (make_scalar (S_string text)) =
    Ok (make_scalar (S_string (String.substring 0 (Z.to_nat w) text))) ∧
  transform IdentityTransform src = Ok src ∧
  transform VoidTransform src = Ok null_int32.
Proof.
  intros Hd Ht Hi He Hn Hw date hash transform.
  destruct (date_transforms_exact murmur hash_string y m d t Hd Ht Hi He) as (H1 & H2 & H3 & H4).
  split; [exact H1|]. split; [exact H2|]. split; [exact H3|]. split; [exact H4|].
  split; [by apply bucket_value|]. split; [by apply truncate_value|]. split; [|done].
  unfold transform. cbn [Transform]. unfold truncate, TruncateString. cbn [value make_scalar is_valid].
  destruct (Z.ltb_spec w 0); [lia|]. do 3 f_equal. apply prefix_of_substring.
Qed.

(** With the length of its argument for the hash: 29 February 2024, 12:34:56.789. *)
Lemma transforms_exact_witness :
  let transform := Transform (λ b, Z.of_nat (length b)) (λ _, 0) in
  transform YearTransform (date64 1709210096789) = Ok (Int32Scalar 2024) ∧
  transform MonthTransform (date64 1709210096789) = Ok (Int32Scalar 2) ∧
  transform DayTransform (date64 1709210096789) = Ok (Int32Scalar 29) ∧
  transform HourTransform (date64 1709210096789) = Ok (Int32Scalar 12) ∧
  transform (BucketTransform 5) (int64_scalar 34) = Ok (Int32Scalar 3) ∧
  transform (TruncateTransform 3) (int64_scalar 34) = Ok (int64_scalar 6).
Proof.
  destruct (transforms_exact (λ b, Z.of_nat (length b)) (λ _, 0) 2024 2 29 45296789 34 5 3 "" (Int32Scalar 0))
    as (H1 & H2 & H3 & H4 & H5 & H6 & _);
    [vm_compute; repeat split; discriminate|vm_compute; split; [discriminate|reflexivity]|
     vm_compute; split; discriminate|left; vm_compute; discriminate|lia|unfold_ints; lia|].
  split; [exact H1|]. split; [exact H2|]. split; [exact H3|]. split; [exact H4|]. split; [exact H5|exact H6].
Defined.

(** ** Names *)

Definition is_int_param (t : ITransform) : Prop :=
  match t with BucketTransform n | TruncateTransform n => in_i32 n | _ => True end.

(** [substr] of the parameter between the brackets. *)
Lemma param_text_read (p : string) z :
  in_i32 z →
  stoi (substr (p +:+ "[" +:+ pretty z +:+ "]") (String.length p + 1)
          (String.length (p +:+ "[" +:+ pretty z +:+ "]") - 2 - String.length p)) = Ok z.
Proof.
  intros Hz. unfold substr. rewrite remove_prefix_add. rewrite !append_length.
  replace (String.length p + (String.length "[" + (String.length (pretty z) + String.length "]")) - 2 - String.length p)%nat
    with (String.length (pretty z)) by (cbn [String.length]; lia).
  change (remove_prefix 1 ("[" +:+ pretty z +:+ "]")) with (pretty z +:+ "]"). rewrite prefix_of_app. by apply stoi_pretty.
Qed.

(** The name of a transform is read back as the transform, for every parameter of a
    bucket or truncate transform, except that the name of the day transform is read as the
    hour transform. *)
Theorem transform_name_roundtrip t :
  is_int_param t → GetTransform (ToString t) = Ok (match t with DayTransform => HourTransform | t => t end).
Proof.
  destruct t as [| |n|w| | | |]; intros Hp; try reflexivity.
  - assert (GetTransformType (ToString (BucketTransform n)) = Ok kBucketTransform) as E by reflexivity.
    unfold GetTransform, GetTransformParam. rewrite E. cbn [rbind GetTransformNameByType ToString].
    rewrite (proj2 (Nat.eqb_neq _ _)); [|rewrite !append_length; cbn [String.length]; lia].
    by rewrite param_text_read.
  - assert (GetTransformType (ToString (TruncateTransform w)) = Ok kTruncateTransform) as E by reflexivity.
    unfold GetTransform, GetTransformParam. rewrite E. cbn [rbind GetTransformNameByType ToString].
    rewrite (proj2 (Nat.eqb_neq _ _)); [|rewrite !append_length; cbn [String.length]; lia].
    by rewrite param_text_read.
Qed.

Lemma transform_name_roundtrip_witness : GetTransform "bucket[16]" = Ok (BucketTransform 16).
Proof. apply (transform_name_roundtrip (BucketTransform 16)). vm_compute. split; discriminate. Defined.

(** ** What differs from the readers of partition values *)

(** The month of the writer counts from the start of the year, that of the filter of
    manifests from 1970: the value of a day in March 2024 is April 1970 for the filter. *)
Lemma month_of_writer :
  Transform (λ _, 0) (λ _, 0) MonthTransform (date64 (days_from_civil 2024 3 15 * kMillisPerDay)) = Ok (Int32Scalar 3) ∧
  first_day PartitionSpecs.Transforms.kMonth 3 = days_from_civil 1970 4 1.
Proof. split; vm_compute; reflexivity. Qed.

(** Types that [CanTransform] accepts and the hash does not. *)
Lemma bucket_of_double_fails murmur hash_string bits :
  CanTransform (BucketTransform 4) (PrimitiveType kDouble) = true ∧
  Transform murmur hash_string (BucketTransform 4) (make_scalar (S_double bits)) = Err (Exn "Unsupported type").
Proof. split; reflexivity. Qed.

(** A millisecond before the epoch is taken for the epoch. *)
Lemma before_epoch_rounds_up :
  Transform (λ _, 0) (λ _, 0) YearTransform (date64 (-1)) = Ok (Int32Scalar 1970).
Proof. vm_compute. reflexivity. Qed.
