(* ===== verification/SchemaValidation.v ===== *)
(** * SchemaValidation: columns of a schema and their Parquet representation

    [iceberg/schema.cpp] and the searches of [iceberg/schema.h]: columns by name, their
    removal, and [IcebergToParquetSchemaValidator].  The texts of the messages in the
    error log are the arguments they are made of; evaluating a message can throw. *)

From stdpp Require Import base list strings gmap.
From Stdlib Require Import ZArith Lia.
From Stdlib Require Import Strings.Ascii.
From S2P Require Import Prelude CxxText Scalars Parquet Types.

Local Open Scope Z_scope.

(** ** Columns by name *)

Definition tolower (c : ascii) : ascii :=
  if (65 <=? code c) && (code c <=? 90) then ascii_of_N (Z.to_N (code c + 32)) else c.

Definition EqualCharIgnoreCase (a b : ascii) : bool := Ascii.eqb (tolower a) (tolower b).

Fixpoint EqualIgnoreCase (a b : string) : bool :=
  match a, b with
  | EmptyString, EmptyString => true
  | String x a, String y b => EqualCharIgnoreCase x y && EqualIgnoreCase a b
  | _, _ => false
  end.

Definition FindMatchingColumn (s : Schema) (predicate : NestedField → bool) : option Z :=
  nf_field_id <$> List.find predicate (fields_ s).

Definition FindColumn (s : Schema) (column_name : string) : option Z :=
  FindMatchingColumn s (λ field, String.eqb (nf_name field) column_name).

Definition FindColumnIgnoreCase (s : Schema) (column_name : string) : option Z :=
  FindMatchingColumn s (λ field, EqualIgnoreCase (nf_name field) column_name).

Definition FilterColumns (s : Schema) (ids_to_remove : gset Z) : Schema :=
  if bool_decide (ids_to_remove = ∅) then s
  else {| schema_id_ := schema_id_ s;
          fields_ := List.filter (λ field, negb (bool_decide (nf_field_id field ∈ ids_to_remove))) (fields_ s) |}.

Definition MaxColumnId (s : Schema) : Z :=
  fold_left (λ id field, if id <? nf_field_id field then nf_field_id field else id) (fields_ s) (-1).

Definition FindColumnIds (s : Schema) (filter : list string) : gset Z :=
  fold_left (λ ids col_name, match FindColumnIgnoreCase s col_name with Some id => {[id]} ∪ ids | None => ids end) filter ∅.

(** [TableMetadataV2::FilterSchemaColumns] on its schemas. *)
Definition FilterSchemaColumns (schemas : list Schema) (filter : list string) : list Schema :=
  List.map (λ s, FilterColumns s (FindColumnIds s filter)) schemas.

(** ** Nodes of a Parquet schema *)

(** [parquet::schema::Node]; [utf8] says that [converted_type()] is [UTF8]. *)
Inductive node :=
| PrimitiveNode (field_id : Z) (physical_type : PhysicalType) (type_length : Z) (logical_type : LogicalType) (utf8 : bool)
| GroupNode (field_id : Z) (logical_type : LogicalType) (utf8 : bool) (fields : list node).

Definition field_id (n : node) : Z := match n with PrimitiveNode i _ _ _ _ | GroupNode i _ _ _ => i end.
Definition node_logical (n : node) : LogicalType := match n with PrimitiveNode _ _ _ l _ | GroupNode _ l _ _ => l end.
Definition node_utf8 (n : node) : bool := match n with PrimitiveNode _ _ _ _ u | GroupNode _ _ u _ => u end.

Definition HasPhysicalType (n : node) (type : PhysicalType) : bool :=
  match n with PrimitiveNode _ t _ _ _ => bool_decide (t = type) | GroupNode _ _ _ _ => false end.

(** Of a primitive node. *)
Definition GetTypeLength (n : node) : Z := match n with PrimitiveNode _ _ l _ _ => l | GroupNode _ _ _ _ => 0 end.

Fixpoint leaves (n : node) : nat :=
  match n with
  | PrimitiveNode _ _ _ _ _ => 1
  | GroupNode _ _ _ fields => list_sum (List.map leaves fields)
  end.

(** [SchemaDescriptor::GetColumnRoot] for all leaf columns: the field of the root group
    that the leaf lies in. *)
Definition column_roots (roots : list node) : list node := flat_map (λ n, replicate (leaves n) n) roots.

(** ** The validator *)

Inductive schema_error :=
| PhysicalTypeError (iceberg_type : string) (parquet_type : PhysicalType) (type_length : option Z)
| LogicalTypeError (iceberg_type : string) (parquet_type : LogicalType)
| MinimalLengthError (iceberg_type : string)
| EncodingError (iceberg_type : string)
| ThreeLevelListError (iceberg_type : string)
| UnsupportedType.
#[export] Instance schema_error_eq_dec : EqDecision schema_error.
Proof. solve_decision. Defined.

(** [Ensure]: what it appends to the log. *)
Definition log_unless (cond : bool) (message : schema_error) : list schema_error := if cond then [] else [message].

(** [parquet::LogicalType::Decimal]. *)
Definition make_DecimalLogical (precision scale : Z) : result LogicalType :=
  let! _ := Ensure (1 <=? precision) "Precision must be greater than or equal to 1 for Decimal logical type" in
  let! _ := Ensure ((0 <=? scale) && (scale <=? precision))
              "Scale must be a non-negative integer that does not exceed precision for Decimal logical type" in
  Ok (DecimalLogical precision scale).

Definition map_ : list (TypeID * PhysicalType) :=
  [(kBoolean, BOOLEAN); (kInt, INT32); (kLong, INT64); (kFloat, FLOAT); (kDouble, DOUBLE); (kDate, INT32); (kTime, INT64);
   (kTimestamp, INT64); (kTimestamptz, INT64); (kTimestampNs, INT64); (kTimestamptzNs, INT64); (kString, BYTE_ARRAY);
   (kBinary, BYTE_ARRAY)].

Definition is_decimal (l : LogicalType) : bool := match l with DecimalLogical _ _ => true | _ => false end.
Definition is_time (l : LogicalType) : bool := match l with TimeLogical _ _ => true | _ => false end.
Definition is_timestamp (l : LogicalType) : bool := match l with TimestampLogical _ _ => true | _ => false end.

(** A logical type of a kind, with its parameters checked when the kind is right. *)
Definition validate_parameters (kind : LogicalType → bool) (expected : LogicalType) (name : string) (n : node) : list schema_error :=
  if kind (node_logical n) then log_unless (bool_decide (node_logical n = expected)) (LogicalTypeError name expected)
  else [LogicalTypeError name expected].

Definition validate_decimal (precision scale : Z) (name : string) (n : node) : list schema_error :=
  validate_parameters is_decimal (DecimalLogical precision scale) name n ++
  (if precision <=? 9 then log_unless (HasPhysicalType n INT32) (PhysicalTypeError name INT32 None)
   else if precision <=? 18 then log_unless (HasPhysicalType n INT64) (PhysicalTypeError name INT64 None)
   else if HasPhysicalType n FIXED_LEN_BYTE_ARRAY
   then log_unless (GetTypeLength n =? DecimalSize precision) (MinimalLengthError name)
   else [PhysicalTypeError name FIXED_LEN_BYTE_ARRAY None]).

Definition validate_fixed (size : Z) (name : string) (n : node) : list schema_error :=
  log_unless (HasPhysicalType n FIXED_LEN_BYTE_ARRAY && (GetTypeLength n =? size))
    (PhysicalTypeError name FIXED_LEN_BYTE_ARRAY (Some size)).

Definition validate_list (name : string) (n : node) : list schema_error :=
  log_unless (bool_decide (node_logical n = ListLogical)) (LogicalTypeError name ListLogical) ++
  match n with
  | GroupNode _ _ _ [GroupNode _ _ _ fields] => log_unless (length fields =? 1)%nat (ThreeLevelListError name)
  | _ => [ThreeLevelListError name]
  end.

(** The switch of [ValidateColumn]. *)
Definition validate_type (t : Type_) (n : node) : result (list schema_error) :=
  match TypeId t with
  | kBoolean | kInt | kLong | kFloat | kDouble | kBinary => Ok []
  | kDecimal =>
      match t with
      | DecimalType precision scale =>
          let! name := ToString t in
          let! _ := make_DecimalLogical precision scale in
          Ok (validate_decimal precision scale name n)
      | _ => Err (Exn "undefined: not a DecimalType")
      end
  | kDate =>
      let! name := ToString t in
      Ok (log_unless (bool_decide (node_logical n = DateLogical)) (LogicalTypeError name DateLogical))
  | kTime => let! name := ToString t in Ok (validate_parameters is_time (TimeLogical false MICROS) name n)
  | kTimestamp => let! name := ToString t in Ok (validate_parameters is_timestamp (TimestampLogical false MICROS) name n)
  | kTimestamptz => let! name := ToString t in Ok (validate_parameters is_timestamp (TimestampLogical true MICROS) name n)
  | kTimestampNs => let! name := ToString t in Ok (validate_parameters is_timestamp (TimestampLogical false NANOS) name n)
  | kTimestamptzNs => let! name := ToString t in Ok (validate_parameters is_timestamp (TimestampLogical true NANOS) name n)
  | kString =>
      let! name := ToString t in
      Ok (log_unless (bool_decide (node_logical n = StringLogical)) (LogicalTypeError name StringLogical) ++
          log_unless (node_utf8 n) (EncodingError name))
  | kUuid =>
      let! name := ToString t in
      Ok (log_unless (bool_decide (node_logical n = UUIDLogical)) (LogicalTypeError name UUIDLogical) ++ validate_fixed 16 name n)
  | kFixed =>
      match t with
      | FixedType size => let! name := ToString t in Ok (validate_fixed size name n)
      | _ => Err (Exn "undefined: not a FixedType")
      end
  | kList => let! name := ToString t in Ok (validate_list name n)
  | kStruct | kMap | kUnknown => Ok [UnsupportedType]
  end.

(** The loop over [map_]. *)
Definition validate_physical (t : Type_) (n : node) : result (list schema_error) :=
  fold_ok (λ log '(iceberg_type, parquet_type),
    if bool_decide (TypeId t = iceberg_type) then
      let! name := ToString t in
      Ok (log ++ log_unless (HasPhysicalType n parquet_type) (PhysicalTypeError name parquet_type None))
    else Ok log) [] map_.

Definition ValidateColumn (field : NestedField) (n : node) (error_log : list schema_error) : result (list schema_error) :=
  let! log := validate_type (nf_type field) n in
  let! log' := validate_physical (nf_type field) n in
  Ok (error_log ++ log ++ log').

(** [fieldid_to_index]: the last leaf column of every id that is not negative. *)
Definition index_step (acc : gmap Z nat * nat) (n : node) : gmap Z nat * nat :=
  (if 0 <=? field_id n then <[field_id n := acc.2]> acc.1 else acc.1, S acc.2).
Definition fieldid_to_index (roots : list node) : gmap Z nat := fst (fold_left index_step (column_roots roots) (∅, O)).

(** A column of the table schema, which the file may not have. *)
Definition validate_step (index : gmap Z nat) (roots : list node) (error_log : list schema_error) (ice_col : NestedField) :
    result (list schema_error) :=
  match index !! nf_field_id ice_col with
  | Some i =>
      match column_roots roots !! i with
      | Some n => ValidateColumn ice_col n error_log
      | None => Err (Exn "undefined: column index")
      end
  | None => Ok error_log
  end.

Definition Validate (iceberg_schema : Schema) (roots : list node) (throws_on_error : bool) : result bool :=
  let! error_log := fold_ok (validate_step (fieldid_to_index roots) roots) [] (Columns iceberg_schema) in
  if bool_decide (error_log = []) then Ok true
  else if throws_on_error then Err (Exn "error log") else Ok false.

(** ** How Parquet represents a type *)

Definition represents (t : Type_) (n : node) : Prop :=
  match t with
  | PrimitiveType kBoolean => HasPhysicalType n BOOLEAN = true
  | PrimitiveType kInt => HasPhysicalType n INT32 = true
  | PrimitiveType kLong => HasPhysicalType n INT64 = true
  | PrimitiveType kFloat => HasPhysicalType n FLOAT = true
  | PrimitiveType kDouble => HasPhysicalType n DOUBLE = true
  | PrimitiveType kBinary => HasPhysicalType n BYTE_ARRAY = true
  | PrimitiveType kDate => node_logical n = DateLogical ∧ HasPhysicalType n INT32 = true
  | PrimitiveType kTime => node_logical n = TimeLogical false MICROS ∧ HasPhysicalType n INT64 = true
  | PrimitiveType kTimestamp => node_logical n = TimestampLogical false MICROS ∧ HasPhysicalType n INT64 = true
  | PrimitiveType kTimestamptz => node_logical n = TimestampLogical true MICROS ∧ HasPhysicalType n INT64 = true
  | PrimitiveType kTimestampNs => node_logical n = TimestampLogical false NANOS ∧ HasPhysicalType n INT64 = true
  | PrimitiveType kTimestamptzNs => node_logical n = TimestampLogical true NANOS ∧ HasPhysicalType n INT64 = true
  | PrimitiveType kString => node_logical n = StringLogical ∧ node_utf8 n = true ∧ HasPhysicalType n BYTE_ARRAY = true
  | PrimitiveType kUuid => node_logical n = UUIDLogical ∧ HasPhysicalType n FIXED_LEN_BYTE_ARRAY = true ∧ GetTypeLength n = 16
  | PrimitiveType _ => False
  | DecimalType p s =>
      node_logical n = DecimalLogical p s ∧
      (p ≤ 9 ∧ HasPhysicalType n INT32 = true ∨ 9 < p ≤ 18 ∧ HasPhysicalType n INT64 = true ∨
       18 < p ∧ HasPhysicalType n FIXED_LEN_BYTE_ARRAY = true ∧ GetTypeLength n = DecimalSize p)
  | FixedType size => HasPhysicalType n FIXED_LEN_BYTE_ARRAY = true ∧ GetTypeLength n = size
  | ListType _ _ _ => ∃ i u j l v x, n = GroupNode i ListLogical u [GroupNode j l v [x]]
  end.

(** Types whose messages can be made. *)
Definition type_ok (t : Type_) : Prop :=
  match t with
  | PrimitiveType id => id ∉ [kDecimal; kFixed; kList]
  | DecimalType p s => 1 ≤ p ∧ 0 ≤ s ≤ p
  | FixedType _ => True
  | ListType _ _ e => ∃ name, ToString e = Ok name
  end.

Lemma log_unless_nil cond message : log_unless cond message = [] ↔ cond = true.
Proof. by destruct cond. Qed.
Lemma validate_parameters_nil kind expected name n :
  kind expected = true → validate_parameters kind expected name n = [] ↔ node_logical n = expected.
Proof.
  intros Hk. unfold validate_parameters. destruct (kind (node_logical n)) eqn:E.
  - by rewrite log_unless_nil, bool_decide_eq_true.
  - split; [done|]. intros Hn. by rewrite Hn, Hk in E.
Qed.
Lemma validate_fixed_nil size name n :
  validate_fixed size name n = [] ↔ HasPhysicalType n FIXED_LEN_BYTE_ARRAY = true ∧ GetTypeLength n = size.
Proof. unfold validate_fixed. by rewrite log_unless_nil, andb_true_iff, Z.eqb_eq. Qed.

Lemma validate_decimal_nil p s name n : validate_decimal p s name n = [] ↔ represents (DecimalType p s) n.
Proof.
  unfold validate_decimal. cbn [represents]. rewrite app_nil, validate_parameters_nil by done.
  apply and_iff_compat_l. destruct (Z.leb_spec p 9); [rewrite log_unless_nil; lia || intuition lia|].
  destruct (Z.leb_spec p 18); [rewrite log_unless_nil; intuition lia|].
  destruct (HasPhysicalType n FIXED_LEN_BYTE_ARRAY); [rewrite log_unless_nil, Z.eqb_eq; intuition lia|].
  split; [done|]. intros [?|[?|?]]; [lia|lia|by destruct H1 as (_ & ? & _)].
Qed.

Lemma validate_list_nil name n e r t : validate_list name n = [] ↔ represents (ListType e r t) n.
Proof.
  unfold validate_list. cbn [represents]. rewrite app_nil, log_unless_nil, bool_decide_eq_true. split.
  - intros [Hl Hn]. destruct n as [|i l u [|[|j l' v fields] [|]]]; try done. cbn in Hl. subst l.
    apply log_unless_nil, Nat.eqb_eq in Hn. destruct fields as [|x [|]]; try done. by exists i, u, j, l', v, x.
  - intros (i & u & j & l & v & x & ->). done.
Qed.

(** The log of a column is empty exactly when its type is represented. *)
Lemma column_validated field n log :
  type_ok (nf_type field) →
  ∃ errors, ValidateColumn field n log = Ok (log ++ errors) ∧ (errors = [] ↔ represents (nf_type field) n).
Proof.
  unfold ValidateColumn. destruct (nf_type field) as [id|p s|size|e r t]; intros Hok.
  - destruct id; try (exfalso; apply Hok; set_solver); eexists; (split; [reflexivity|]);
      cbn [represents]; rewrite ?app_nil, ?log_unless_nil, ?validate_parameters_nil, ?bool_decide_eq_true, ?validate_fixed_nil by done;
      intuition done.
  - destruct Hok as (Hp & Hs0 & Hs). apply Z.leb_le in Hp, Hs0, Hs. eexists. split.
    + cbn [validate_type TypeId ToString rbind]. unfold make_DecimalLogical. rewrite Hp, Hs0, Hs. reflexivity.
    + rewrite app_nil_r. apply validate_decimal_nil.
  - eexists. split; [reflexivity|]. rewrite app_nil_r. apply validate_fixed_nil.
  - destruct Hok as [name E]. eexists. split; [cbn [validate_type TypeId ToString]; rewrite E; reflexivity|].
    rewrite app_nil_r. apply validate_list_nil.
Qed.

(** The root of the last leaf column with an id. *)
Definition root_of (roots : list node) (id : Z) : option node :=
  if 0 <=? id then List.find (λ n, field_id n =? id) (rev (column_roots roots)) else None.

Lemma index_loop l :
  (fold_left index_step l (∅, O)).2 = length l ∧
  ∀ id, match (if 0 <=? id then List.find (λ n, field_id n =? id) (rev l) else None) with
        | Some n => ∃ k, (fold_left index_step l (∅, O)).1 !! id = Some k ∧ l !! k = Some n
        | None => (fold_left index_step l (∅, O)).1 !! id = None
        end.
Proof.
  induction l as [|x l [IHn IH]] using rev_ind; [split; [done|]; intros id; by destruct (0 <=? id)|].
  rewrite fold_left_app. cbn [fold_left index_step fst snd]. rewrite IHn, length_app, rev_unit. split; [cbn; lia|].
  intros id. specialize (IH id). cbn [List.find].
  assert ((l ++ [x]) !! length l = Some x) as Hx by (rewrite lookup_app_r, Nat.sub_diag by lia; done).
  destruct (Z.leb_spec 0 id) as [Hid|Hid].
  - destruct (Z.eqb_spec (field_id x) id) as [->|Hne].
    + rewrite (proj2 (Z.leb_le 0 id)) by done. exists (length l). by rewrite lookup_insert_eq.
    + assert ((if 0 <=? field_id x then <[field_id x := length l]> (fold_left index_step l (∅, O)).1
               else (fold_left index_step l (∅, O)).1) !! id = (fold_left index_step l (∅, O)).1 !! id) as ->
        by (destruct (0 <=? field_id x); [by rewrite lookup_insert_ne|done]).
      destruct (List.find _ (rev l)) as [n|]; [|done]. destruct IH as (k & -> & Hk). exists k. split; [done|].
      by apply lookup_app_l_Some.
  - destruct (Z.leb_spec 0 (field_id x)); [|done]. by rewrite lookup_insert_ne by lia.
Qed.

Lemma fieldid_to_index_root roots id :
  match fieldid_to_index roots !! id with
  | Some i => ∃ n, column_roots roots !! i = Some n ∧ root_of roots id = Some n
  | None => root_of roots id = None
  end.
Proof.
  destruct (index_loop (column_roots roots)) as [_ H]. specialize (H id). unfold fieldid_to_index, root_of.
  destruct (if 0 <=? id then _ else _) as [n|]; [|by rewrite H]. destruct H as (k & -> & Hk). by exists n.
Qed.

Definition column_represented (roots : list node) (c : NestedField) : Prop :=
  ∀ n, root_of roots (nf_field_id c) = Some n → represents (nf_type c) n.

Lemma validate_loop roots cols log :
  Forall (λ c, type_ok (nf_type c)) cols →
  ∃ errors, fold_ok (validate_step (fieldid_to_index roots) roots) log cols = Ok (log ++ errors) ∧
    (errors = [] ↔ Forall (column_represented roots) cols).
Proof.
  intros Hok. revert log. induction Hok as [|c cols Hc _ IH]; intros log; [exists []; by rewrite app_nil_r|].
  assert (∃ errors, validate_step (fieldid_to_index roots) roots log c = Ok (log ++ errors) ∧
            (errors = [] ↔ column_represented roots c)) as (errors & E & Hrep).
  { unfold validate_step, column_represented. pose proof (fieldid_to_index_root roots (nf_field_id c)) as Hi.
    destruct (fieldid_to_index roots !! nf_field_id c) as [i|].
    - destruct Hi as (n & -> & ->). destruct (column_validated c n log Hc) as (errors & E & Hn). exists errors.
      split; [done|]. rewrite Hn. split; [by intros ? ? [= <-]|intros H; by apply H].
    - exists []. rewrite app_nil_r, Hi. split; [done|]. split; [by intros _ ?|done]. }
  cbn [fold_ok]. rewrite E. cbn [rbind]. destruct (IH (log ++ errors)) as (errors' & -> & Hrest).
  exists (errors ++ errors'). rewrite app_assoc. split; [done|]. by rewrite app_nil, Hrep, Hrest, Forall_cons.
Qed.

(** A decimal type that [parquet::LogicalType::Decimal] does not make. *)
Definition decimal_refused (t : Type_) : Prop :=
  match t with DecimalType p s => ¬ (1 ≤ p ∧ 0 ≤ s ≤ p) | _ => False end.

Lemma fold_ok_fails {A S} (f : S → A → result S) l x :
  x ∈ l → (∀ s, ∃ e, f s x = Err e) → ∀ s, ∃ e, fold_ok f s l = Err e.
Proof.
  intros Hx Hf. induction l as [|y l IH]; intros s; [by apply elem_of_nil in Hx|]. cbn [fold_ok].
  apply elem_of_cons in Hx as [->|Hx]; [destruct (Hf s) as [e ->]; by exists e|].
  destruct (f s y) as [s'|e]; cbn [rbind]; [by apply IH|by exists e].
Qed.

Lemma refused_step roots c n log :
  root_of roots (nf_field_id c) = Some n → decimal_refused (nf_type c) →
  ∃ e, validate_step (fieldid_to_index roots) roots log c = Err e.
Proof.
  intros Hn Hd. unfold validate_step. pose proof (fieldid_to_index_root roots (nf_field_id c)) as Hi.
  destruct (fieldid_to_index roots !! nf_field_id c) as [i|]; [|congruence]. destruct Hi as (n' & -> & _).
  unfold ValidateColumn. destruct (nf_type c) as [|p s| |]; [done| |done|done]. cbn [decimal_refused] in Hd.
  cbn [validate_type TypeId ToString rbind]. unfold make_DecimalLogical, Ensure.
  destruct (Z.leb_spec 1 p); cbn [rbind]; [|by eexists].
  destruct (Z.leb_spec 0 s), (Z.leb_spec s p); cbn [andb rbind]; try (by eexists). lia.
Qed.

(** C34: what [Validate] decides of a table schema and a Parquet schema.  Where the types of
    the table's columns are such that their Parquet types and messages can be made
    ([type_ok]: no bare decimal, fixed or list type, decimals of a precision of at least 1
    and a scale between 0 and the precision, lists whose element type has a name), it
    accepts exactly when every column of the table schema that the file has is
    represented the way its type requires, and otherwise throws, or returns false where it
    is not to throw.  A decimal column that the file has, of a precision or scale outside
    these limits, makes it throw in both modes. *)
Theorem validator_exact s roots throws :
  (Forall (λ c, type_ok (nf_type c)) (Columns s) →
   (Validate s roots throws = Ok true ↔ Forall (column_represented roots) (Columns s)) ∧
   (Validate s roots throws = Ok true ∨ Validate s roots throws = if throws then Err (Exn "error log") else Ok false)) ∧
  (∀ c n, c ∈ Columns s → root_of roots (nf_field_id c) = Some n → decimal_refused (nf_type c) →
   ∃ e, Validate s roots throws = Err e).
Proof.
  split.
  - intros Hok. unfold Validate. destruct (validate_loop roots (Columns s) [] Hok) as (log & -> & Hlog).
    cbn [rbind app]. rewrite <- Hlog. destruct log as [|x log]; [rewrite bool_decide_true by done; by split; [|left]|].
    rewrite bool_decide_false by done. destruct throws; (split; [split; discriminate|by right]).
  - intros c n Hc Hn Hd. unfold Validate.
    destruct (fold_ok_fails _ _ c Hc (λ log, refused_step roots c n log Hn Hd) []) as [e ->]. by exists e.
Qed.

(** A file with a date and an id column, of which the date is stored as a string. *)
Module ValidatorExample.
Definition column (name : string) (id : Z) (t : Type_) : NestedField :=
  {| nf_name := name; nf_field_id := id; nf_is_required := false; nf_type := t; nf_initial_default := None; nf_write_default := None |}.
Definition schema : Schema := {| schema_id_ := 0; fields_ := [column "id" 1 (PrimitiveType kLong); column "day" 2 (PrimitiveType kDate)] |}.
Definition roots : list node :=
  [PrimitiveNode 1 INT64 0 NoneLogical false; PrimitiveNode 2 BYTE_ARRAY 0 StringLogical true].
End ValidatorExample.

Lemma validator_exact_witness :
  ((Validate ValidatorExample.schema ValidatorExample.roots false = Ok true ↔
      Forall (column_represented ValidatorExample.roots) (Columns ValidatorExample.schema)) ∧
   Validate ValidatorExample.schema ValidatorExample.roots false = Ok false) ∧
  ∃ e, Validate {| schema_id_ := 0; fields_ := [ValidatorExample.column "id" 1 (DecimalType 2 3)] |}
         ValidatorExample.roots false = Err e.
Proof.
  destruct (validator_exact ValidatorExample.schema ValidatorExample.roots false) as [Hv _]. split.
  - destruct Hv as [H _]; [repeat constructor; set_solver|]. split; [exact H|reflexivity].
  - destruct (validator_exact {| schema_id_ := 0; fields_ := [ValidatorExample.column "id" 1 (DecimalType 2 3)] |}
      ValidatorExample.roots false) as [_ Hd].
    apply (Hd (ValidatorExample.column "id" 1 (DecimalType 2 3)) (PrimitiveNode 1 INT64 0 NoneLogical false));
      [by left|reflexivity|cbn; lia].
Defined.

(** ** Columns by name *)

(** Columns whose names differ in case: the first one is removed, whichever is asked for. *)
Lemma filter_ignores_case :
  let s := {| schema_id_ := 0; fields_ := [ValidatorExample.column "a" 1 (PrimitiveType kLong);
                                           ValidatorExample.column "A" 2 (PrimitiveType kLong)] |} in
  (List.map nf_name (fields_ (FilterColumns s (FindColumnIds s ["A"])))) = ["A"].
Proof. reflexivity. Qed.

Lemma tolower_idem c : tolower (tolower c) = tolower c.
Proof. destruct c as [[] [] [] [] [] [] [] []]; reflexivity. Qed.

Lemma FindColumnIgnoreCase_refines s name id : FindColumn s name = Some id → is_Some (FindColumnIgnoreCase s name).
Proof.
  assert (∀ a, EqualIgnoreCase a a = true) as Hrefl.
  { induction a as [|c a IH]; [done|]. cbn. unfold EqualCharIgnoreCase. by rewrite Ascii.eqb_refl. }
  unfold FindColumn, FindColumnIgnoreCase, FindMatchingColumn. induction (fields_ s) as [|f fs IH]; [done|]. cbn [List.find].
  destruct (String.eqb_spec (nf_name f) name) as [->|].
  - rewrite Hrefl. by eexists.
  - intros Hid. destruct (EqualIgnoreCase (nf_name f) name); [by eexists|]. by apply IH.
Qed.

(** The largest id bounds every id, and is -1 or that of a column. *)
Lemma MaxColumnId_bound s :
  Forall (λ f, nf_field_id f ≤ MaxColumnId s) (fields_ s) ∧
  (MaxColumnId s = -1 ∨ ∃ f, f ∈ fields_ s ∧ nf_field_id f = MaxColumnId s).
Proof.
  unfold MaxColumnId. induction (fields_ s) as [|f fs [IH1 IH2]] using rev_ind; [by split; [|left]|].
  rewrite fold_left_app. cbn [fold_left]. set (id := fold_left _ fs (-1)) in *. destruct (Z.ltb_spec id (nf_field_id f)).
  - split; [apply Forall_app; split; [eapply Forall_impl; [exact IH1|]; cbn; lia|by constructor]|].
    right. exists f. split; [set_solver|done].
  - split; [apply Forall_app; split; [done|by constructor]|].
    destruct IH2 as [?|(g & ? & ?)]; [by left|right]. exists g. split; [set_solver|done].
Qed.

(** The removal of columns keeps the others in order. *)
Lemma FilterColumns_spec s ids : fields_ (FilterColumns s ids) = List.filter (λ f, negb (bool_decide (nf_field_id f ∈ ids))) (fields_ s).
Proof.
  unfold FilterColumns. case_bool_decide as E; [|done]. subst ids. induction (fields_ s) as [|f fs IH]; [done|].
  cbn. by rewrite <- IH.
Qed.
