(* ===== verification/Uuid.v ===== *)
(** * Uuid: reading, printing and making UUIDs

    [Uuid] and [UuidGenerator] of [iceberg/uuid.cpp].  A string is the list of its
    characters, an iterator what is left of it.  The clock, the random generator
    and the MAC address of the host are parameters. *)

From stdpp Require Import base list strings.
From Stdlib Require Import ZArith Lia.
From Stdlib Require Import Strings.Ascii Strings.String.
From S2P Require Import Prelude CxxText.

Local Open Scope Z_scope.

(** ** Uuid *)

Record Uuid := {
  time_low_ : Z;                 (** 32 bits *)
  time_mid_ : Z;                 (** 16 bits *)
  time_hi_and_version_ : Z;      (** 16 bits *)
  clock_seq_ : Z;                (** 16 bits *)
  node_ : list Z;                (** 6 bytes *)
}.

Definition null_uuid : Uuid :=
  {| time_low_ := 0; time_mid_ := 0; time_hi_and_version_ := 0; clock_seq_ := 0; node_ := replicate 6 0 |}.

(** The constructor from parts, of which the middle ones are narrowed. *)
Definition make_Uuid (time_low time_mid time_hi_and_version clock_seq : Z) (node : list Z) : Uuid :=
  {| time_low_ := wrap_u 32 time_low; time_mid_ := wrap_u 16 time_mid;
     time_hi_and_version_ := wrap_u 16 time_hi_and_version; clock_seq_ := wrap_u 16 clock_seq; node_ := node |}.

Definition kSeparateIndices : list nat := [8; 13; 18; 23]%nat.
Definition kMinUuidLength : nat := 32.
Definition kMaxUuidLength : nat := 36.

Definition hyphen : ascii := ascii_of_N 45.

Definition nibble (hex : ascii) : Z :=
  let h := code hex in
  if (97 <=? h) && (h <=? 102) then h - 97 + 10
  else if (65 <=? h) && (h <=? 70) then h - 65 + 10
  else if (48 <=? h) && (h <=? 57) then h - 48
  else -1.

(** The loop of [setField]: [n] digits into a field of [w] bits. *)
Fixpoint read_digits (n : nat) (w field : Z) (it : list ascii) : result (Z * list ascii) :=
  match n with
  | O => Ok (field, it)
  | S n =>
      match it with
      | [] => Err (Exn "read past the end of the string")
      | c :: it =>
          if nibble c <? 0 then Err (Exn "Incorrect uuid: error while parsing field")
          else read_digits n w (wrap_u w (Z.lor (Z.shiftl field 4) (nibble c))) it
      end
  end.

Definition setField (haveHyphens : bool) (bytes : nat) (it : list ascii) : result (Z * list ascii) :=
  let! '(field, it) := read_digits (2 * bytes) (8 * Z.of_nat bytes) 0 it in
  Ok (field, if haveHyphens then tail it else it).

(** The loop over [node_]. *)
Fixpoint read_node (n : nat) (it : list ascii) : result (list Z) :=
  match n with
  | O => Ok []
  | S n =>
      match it with
      | c1 :: c2 :: it =>
          if nibble c1 <? 0 then Err (Exn "Incorrect uuid: incorrect mac address")
          else if nibble c2 <? 0 then Err (Exn "Incorrect uuid: incorrect mac address")
          else let! node := read_node n it in
               Ok (wrap_u 8 (Z.lor (Z.shiftl (nibble c1) 4) (nibble c2)) :: node)
      | _ => Err (Exn "read past the end of the string")
      end
  end.

(** The fields in their order, with [it] passed from one to the next. *)
Definition read_fields (haveHyphens : bool) (it : list ascii) : result Uuid :=
  let! '(time_low, it) := setField haveHyphens 4 it in
  let! '(time_mid, it) := setField haveHyphens 2 it in
  let! '(time_hi_and_version, it) := setField haveHyphens 2 it in
  let! '(clock_seq, it) := setField haveHyphens 2 it in
  let! node := read_node 6 it in
  Ok {| time_low_ := time_low; time_mid_ := time_mid; time_hi_and_version_ := time_hi_and_version;
        clock_seq_ := clock_seq; node_ := node |}.

Definition is_hyphen (uuid : list ascii) (ind : nat) : bool := bool_decide (uuid !! ind = Some hyphen).

Definition Parse (text : string) : result Uuid :=
  let uuid := String.list_ascii_of_string text in
  let! _ := Ensure (bool_decide (kMinUuidLength ≤ List.length uuid)%nat) "Incorrect uuid: length" in
  let all_hyphens := forallb (is_hyphen uuid) kSeparateIndices in
  let! _ := Ensure (negb all_hyphens || bool_decide (kMaxUuidLength ≤ List.length uuid)%nat)
              "Incorrect uuid: incorrect separators positions" in
  read_fields all_hyphens uuid.

(** [kDigits[d]]. *)
Definition kDigits : list ascii := String.list_ascii_of_string "0123456789abcdef".
Definition digit (d : Z) : ascii := nth (Z.to_nat d) kDigits Ascii.zero.

Definition AppendHex8 (n : Z) : list ascii := [digit (Z.land (Z.shiftr n 4) 15); digit (Z.land n 15)].
Definition AppendHex16 (n : Z) : list ascii :=
  AppendHex8 (wrap_u 8 (Z.shiftr n 8)) ++ AppendHex8 (wrap_u 8 (Z.land n 255)).
Definition AppendHex32 (n : Z) : list ascii :=
  AppendHex16 (wrap_u 16 (Z.shiftr n 16)) ++ AppendHex16 (wrap_u 16 (Z.land n 65535)).

Definition ToString (u : Uuid) : string :=
  String.string_of_list_ascii
    (AppendHex32 (time_low_ u) ++ [hyphen] ++ AppendHex16 (time_mid_ u) ++ [hyphen] ++
     AppendHex16 (time_hi_and_version_ u) ++ [hyphen] ++ AppendHex16 (clock_seq_ u) ++ [hyphen] ++
     flat_map AppendHex8 (node_ u)).

Definition IsNull (u : Uuid) : bool :=
  (time_low_ u =? 0) && (time_mid_ u =? 0) && (time_hi_and_version_ u =? 0) && (clock_seq_ u =? 0) &&
  forallb (λ n, n =? 0) (node_ u).

Definition GetVersion (u : Uuid) : Z := Z.shiftr (time_hi_and_version_ u) 12.

(** ** UuidGenerator *)

Record UuidGenerator := {
  version_ : Z;
  timestamp_ : Z;                (** in nanoseconds, as [system_clock] counts *)
  ticks_ : Z;
  gen_node_ : list Z;
}.

Definition kMacless : Z := 6.
Definition kMaxTicks : Z := 100.

Definition make_UuidGenerator (mac_address : option (list Z)) (version : Z) : result UuidGenerator :=
  let make node := {| version_ := version; timestamp_ := 0; ticks_ := 0; gen_node_ := node |} in
  if version =? kMacless then Ok (make (replicate 6 0))
  else match mac_address with
       | Some node => Ok (make node)
       | None => Err (Exn "Error while getting mac address of node")
       end.

(** [GetTimestamp] on the readings of the clock it takes.  The loop reads on
    until the clock moves or there is a tick left; the value comes from one more
    reading. *)
Fixpoint timestamp_loop (now : Z) (clock : list Z) (g : UuidGenerator) : option (UuidGenerator * list Z) :=
  if negb (now =? timestamp_ g) then
    Some ({| version_ := version_ g; timestamp_ := now; ticks_ := 0; gen_node_ := gen_node_ g |}, clock)
  else if ticks_ g <? kMaxTicks then
    Some ({| version_ := version_ g; timestamp_ := timestamp_ g; ticks_ := ticks_ g + 1; gen_node_ := gen_node_ g |}, clock)
  else match clock with
       | [] => None                      (** still waiting for the clock *)
       | now :: clock => timestamp_loop now clock g
       end.

Definition GetTimestamp (clock : list Z) (g : UuidGenerator) : option (Z * UuidGenerator * list Z) :=
  match clock with
  | [] => None
  | now :: clock =>
      match timestamp_loop now clock g with
      | Some (g, now :: clock) => Some (wrap_u 64 (Z.quot now 1000 + ticks_ g), g, clock)
      | _ => None
      end
  end.

(** [random] is what [rng_()] returns. *)
Definition CreateRandom (clock : list Z) (random : Z) (g : UuidGenerator) : option (Uuid * UuidGenerator * list Z) :=
  match GetTimestamp clock g with
  | None => None
  | Some (tv, g, clock) =>
      let time_low := Z.land tv 0xFFFFFFFF in
      let time_mid := Z.land (Z.shiftr tv 32) 0xFFFF in
      let time_hi_and_version := Z.land (Z.shiftr tv 48) 0x0FFF + Z.shiftl (version_ g) 12 in
      let clock_seq := Z.lor (Z.land (wrap_u 16 (Z.shiftr random 4)) 0x3FFF) 0x8000 in
      Some (make_Uuid time_low time_mid time_hi_and_version clock_seq (gen_node_ g), g, clock)
  end.

(** ** Hexadecimal digits *)

Fixpoint hex (n : nat) (v : Z) : list ascii :=
  match n with
  | O => []
  | S n => digit (v / 16 ^ Z.of_nat n mod 16) :: hex n v
  end.

(** A letter as [kDigits] has it. *)
Definition lower (c : ascii) : ascii :=
  if (65 <=? code c) && (code c <=? 70) then ascii_of_N (N_of_ascii c + 32) else c.

Lemma nibble_digit_lower c : 0 ≤ nibble c → digit (nibble c) = lower c.
Proof. destruct c as [[] [] [] [] [] [] [] []]; vm_compute; congruence. Qed.

Lemma nibble_range c : -1 ≤ nibble c < 16.
Proof. destruct c as [[] [] [] [] [] [] [] []]; vm_compute; split; congruence. Qed.

Lemma digit_cases (P : Z → Prop) d : 0 ≤ d < 16 → Forall P (seqZ 0 16) → P d.
Proof. intros Hd HP. rewrite Forall_forall in HP. apply HP, elem_of_seqZ. lia. Qed.

Lemma nibble_digit d : 0 ≤ d < 16 → nibble (digit d) = d.
Proof. intros Hd. apply (digit_cases (λ d, nibble (digit d) = d) _ Hd). repeat constructor. Qed.

Lemma nibble_lower c : nibble (lower c) = nibble c.
Proof. destruct c as [[] [] [] [] [] [] [] []]; reflexivity. Qed.

Lemma lower_hyphen c : lower c = hyphen ↔ c = hyphen.
Proof. destruct c as [[] [] [] [] [] [] [] []]; vm_compute; split; congruence. Qed.

Lemma uuid_hex_length n v : List.length (hex n v) = n.
Proof. induction n; simpl; congruence. Qed.

Lemma hex_app m n v : hex (m + n) v = hex m (v / 16 ^ Z.of_nat n) ++ hex n v.
Proof.
  induction m as [|m IH]; [reflexivity|]. simpl. rewrite IH, Z.div_div by lia.
  by rewrite <- Z.pow_add_r, Nat2Z.inj_add, (Z.add_comm (Z.of_nat m)) by lia.
Qed.

Lemma hex_mod n m v : (n ≤ m)%nat → hex n (v mod 16 ^ Z.of_nat m) = hex n v.
Proof.
  induction n as [|n IH]; intros Hnm; [reflexivity|]. simpl. rewrite IH by lia. do 2 f_equal.
  rewrite (Z.div_mod v (16 ^ Z.of_nat m)) at 2 by lia. set (x := v mod _). set (q := v / _).
  replace (16 ^ Z.of_nat m * q + x) with (x + (16 * 16 ^ Z.of_nat (m - n - 1) * q) * 16 ^ Z.of_nat n);
    [by rewrite Z.div_add, <- Z.mul_assoc, Z.mul_comm, Z.mod_add by lia|].
  replace (Z.of_nat m) with (Z.of_nat n + 1 + Z.of_nat (m - n - 1)) by lia.
  rewrite !Z.pow_add_r, Z.pow_1_r by lia. lia.
Qed.

(** Any two values that agree on the digits printed print alike. *)
Lemma AppendHex8_hex n : AppendHex8 n = hex 2 n.
Proof.
  unfold AppendHex8. change 15 with (Z.ones 4). rewrite !Z.land_ones, Z.shiftr_div_pow2 by lia.
  simpl. by rewrite Z.div_1_r.
Qed.

Lemma AppendHex16_hex n : AppendHex16 n = hex 4 n.
Proof.
  unfold AppendHex16, wrap_u. rewrite !AppendHex8_hex, Z.shiftr_div_pow2 by lia.
  change 255 with (Z.ones 8). rewrite Z.land_ones, Zmod_mod by lia.
  rewrite !(hex_mod 2 2) by lia. by rewrite (hex_app 2 2).
Qed.

Lemma AppendHex32_hex n : AppendHex32 n = hex 8 n.
Proof.
  unfold AppendHex32, wrap_u. rewrite !AppendHex16_hex, Z.shiftr_div_pow2 by lia.
  change 65535 with (Z.ones 16). rewrite Z.land_ones, Zmod_mod by lia.
  rewrite !(hex_mod 4 4) by lia. by rewrite (hex_app 4 4).
Qed.

(** ** Reading digits *)

(** [cs] are digits that print as [n] digits of [v], in either case. *)
Definition digits_of (n : nat) (v : Z) (cs : list ascii) : Prop := lower <$> cs = hex n v.

Lemma lor_digit f d : 0 ≤ f → 0 ≤ d < 16 → Z.lor (Z.shiftl f 4) d = f * 16 + d.
Proof.
  intros Hf Hd. rewrite Z.shiftl_mul_pow2 by lia. symmetry. apply Z.add_nocarry_lor.
  apply Z.bits_inj'. intros i Hi. rewrite Z.land_spec, Z.bits_0.
  destruct (decide (i < 4)) as [Hlt|Hge]; [by rewrite Z.mul_pow2_bits_low|].
  replace (Z.testbit d i) with false; [apply andb_false_r|]. symmetry.
  destruct (decide (d = 0)) as [->|Hd0]; [apply Z.bits_0|].
  apply Z.bits_above_log2; [lia|]. apply Z.log2_lt_pow2; [lia|].
  assert (2 ^ 4 ≤ 2 ^ i) by (apply Z.pow_le_mono_r; lia). lia.
Qed.

Lemma read_digits_step n k f d :
  0 ≤ f < 16 ^ Z.of_nat k → 0 ≤ d < 16 →
  wrap_u (4 * (Z.of_nat k + Z.of_nat (S n))) (Z.lor (Z.shiftl f 4) d) = f * 16 + d ∧
  0 ≤ f * 16 + d < 16 ^ Z.of_nat (S k).
Proof.
  intros Hf Hd. rewrite lor_digit by lia. rewrite (Nat2Z.inj_succ k), (Z.pow_succ_r 16 (Z.of_nat k)) by lia.
  split; [|lia]. unfold wrap_u. rewrite Z.pow_mul_r, Z.pow_add_r by lia. apply Z.mod_small. split; [lia|].
  assert (16 ≤ 16 ^ Z.of_nat (S n)) by (rewrite Nat2Z.inj_succ, Z.pow_succ_r by lia; lia).
  change (2 ^ 4) with 16. nia.
Qed.

Lemma read_digits_spec n k f it v rest :
  0 ≤ f < 16 ^ Z.of_nat k →
  read_digits n (4 * (Z.of_nat k + Z.of_nat n)) f it = Ok (v, rest) ↔
    v / 16 ^ Z.of_nat n = f ∧ ∃ cs, it = cs ++ rest ∧ digits_of n v cs.
Proof.
  revert k f it. induction n as [|n IH]; intros k f it Hf; simpl read_digits.
  - rewrite Z.div_1_r. split.
    + intros [= -> ->]. split; [done|]. by exists [].
    + intros (-> & [|] & -> & Hd); [done|]. inversion Hd.
  - destruct it as [|c it].
    { split; [done|]. intros (_ & [|] & E & Hd); [discriminate Hd|discriminate E]. }
    pose proof (nibble_range c) as Hr. destruct (Z.ltb_spec (nibble c) 0) as [Hlt|Hge].
    { split; [done|]. intros (_ & [|c' cs] & E & Hd); [discriminate Hd|]. injection E as -> ->. injection Hd as Hd _.
      rewrite <- nibble_lower, Hd, nibble_digit in Hlt by (apply Z.mod_pos_bound; lia).
      pose proof (Z.mod_pos_bound (v / 16 ^ Z.of_nat n) 16). lia. }
    destruct (read_digits_step n k f (nibble c) Hf) as [-> Hf']; [lia|].
    replace (Z.of_nat k + Z.of_nat (S n)) with (Z.of_nat (S k) + Z.of_nat n) by lia.
    rewrite IH by done. split.
    + intros (Hv & cs & -> & Hcs). rewrite Nat2Z.inj_succ, Z.pow_succ_r, Z.mul_comm, <- Z.div_div, Hv by lia.
      split; [rewrite Z.div_add_l by lia; rewrite Z.div_small; lia|].
      exists (c :: cs). split; [done|]. unfold digits_of in *. rewrite fmap_cons, Hcs. simpl.
      by rewrite Hv, <- nibble_digit_lower, Z.add_comm, Z.mod_add, Z.mod_small by lia.
    + intros (Hv & [|c' cs] & E & Hcs); [discriminate Hcs|].
      injection E as -> ->. injection Hcs as Hc Hcs. split; [|by exists cs].
      assert (nibble c' = v / 16 ^ Z.of_nat n mod 16) as ->.
      { rewrite <- nibble_lower, Hc. apply nibble_digit, Z.mod_pos_bound. lia. }
      rewrite Nat2Z.inj_succ, Z.pow_succ_r, Z.mul_comm, <- Z.div_div in Hv by lia.
      rewrite <- Hv. pose proof (Z.div_mod (v / 16 ^ Z.of_nat n) 16). lia.
Qed.

(** A separator, when there are any. *)
Definition sep (haveHyphens : bool) : list ascii := if haveHyphens then [hyphen] else [].

Lemma setField_spec hy b it v rest :
  setField hy b it = Ok (v, rest) ∧ (hy = true → it !! (2 * b)%nat = Some hyphen) ↔
    0 ≤ v < 2 ^ (8 * Z.of_nat b) ∧ ∃ cs, it = cs ++ sep hy ++ rest ∧ digits_of (2 * b) v cs.
Proof.
  assert (Hpow : 16 ^ Z.of_nat (2 * b) = 2 ^ (8 * Z.of_nat b)).
  { change 16 with (2 ^ 4). rewrite <- Z.pow_mul_r by lia. f_equal. lia. }
  assert (Hrd : ∀ v' rest', read_digits (2 * b) (8 * Z.of_nat b) 0 it = Ok (v', rest') ↔
            0 ≤ v' < 2 ^ (8 * Z.of_nat b) ∧ ∃ cs, it = cs ++ rest' ∧ digits_of (2 * b) v' cs).
  { intros v' rest'. replace (8 * Z.of_nat b) with (4 * (Z.of_nat 0 + Z.of_nat (2 * b))) by lia.
    rewrite read_digits_spec by (simpl; lia). rewrite Hpow, Z.div_small_iff by lia.
    replace (4 * (Z.of_nat 0 + Z.of_nat (2 * b))) with (8 * Z.of_nat b) by lia.
    split; intros [? ?]; split; try done; lia. }
  assert (Hlen : ∀ v' cs, digits_of (2 * b) v' cs → List.length cs = (2 * b)%nat).
  { intros v' cs Hcs. by rewrite <- (uuid_hex_length (2 * b) v'), <- Hcs, length_fmap. }
  unfold setField. split.
  - intros [E Hhy]. apply rbind_Ok_inv in E as ([v' r] & E & [= -> <-]).
    apply Hrd in E as (Hv & cs & -> & Hcs). split; [done|]. exists cs. split; [|done]. f_equal.
    destruct hy; [|done]. specialize (Hhy eq_refl).
    rewrite lookup_app_r, (Hlen _ _ Hcs), Nat.sub_diag in Hhy by (by rewrite (Hlen _ _ Hcs)).
    destruct r; [done|]. by injection Hhy as ->.
  - intros (Hv & cs & -> & Hcs). split.
    + destruct (Hrd v (sep hy ++ rest)) as [_ E]. rewrite E by eauto. cbn [rbind]. by destruct hy.
    + intros ->. rewrite lookup_app_r, (Hlen _ _ Hcs), Nat.sub_diag by (by rewrite (Hlen _ _ Hcs)). done.
Qed.

Lemma two_digits c1 c2 n :
  lower c1 = digit (n / 16) ∧ lower c2 = digit (n mod 16) ∧ 0 ≤ n < 256 ↔
  0 ≤ nibble c1 ∧ 0 ≤ nibble c2 ∧ n = wrap_u 8 (Z.lor (Z.shiftl (nibble c1) 4) (nibble c2)).
Proof.
  pose proof (nibble_range c1). pose proof (nibble_range c2). split.
  - intros (H1 & H2 & Hn). assert (0 ≤ n / 16 < 16) by (split; [apply Z.div_pos|apply Z.div_lt_upper_bound]; lia).
    pose proof (Z.mod_pos_bound n 16).
    rewrite <- (nibble_lower c1), <- (nibble_lower c2), H1, H2, !nibble_digit, lor_digit by lia.
    pose proof (Z.div_mod n 16). unfold wrap_u. rewrite (Z.mod_small (_ * 16 + _)); lia.
  - intros (H1 & H2 & ->). rewrite lor_digit by lia. unfold wrap_u. rewrite (Z.mod_small (_ * 16 + _)) by lia.
    rewrite Z.div_add_l, (Z.div_small (nibble c2)), Z.add_0_r by lia.
    rewrite (Z.add_comm (_ * 16)), Z.mod_add, (Z.mod_small (nibble c2)) by lia.
    rewrite <- !nibble_digit_lower by lia. split_and!; done || lia.
Qed.

Lemma read_node_spec n it node :
  read_node n it = Ok node ↔
    List.length node = n ∧ Forall (λ b, 0 ≤ b < 256) node ∧
    ∃ cs rest, it = cs ++ rest ∧ lower <$> cs = flat_map (hex 2) node.
Proof.
  revert it node. induction n as [|n IH]; intros it node; simpl read_node.
  - split.
    + intros [= <-]. repeat split; [constructor|]. by exists [], it.
    + intros (Hlen & _). by destruct node.
  - split.
    + intros E. destruct it as [|c1 [|c2 it]]; [done..|].
      destruct (Z.ltb_spec (nibble c1) 0) as [|H1]; [done|]. destruct (Z.ltb_spec (nibble c2) 0) as [|H2]; [done|].
      apply rbind_Ok_inv in E as (node' & E & [= <-]). apply IH in E as (<- & Hb & cs & rest & -> & Hcs).
      destruct (two_digits c1 c2 (wrap_u 8 (Z.lor (Z.shiftl (nibble c1) 4) (nibble c2)))) as [_ (D1 & D2 & Hr)]; [done|].
      split; [done|]. split; [by constructor|]. exists (c1 :: c2 :: cs), rest. split; [done|].
      rewrite !fmap_cons, Hcs. simpl. rewrite Z.div_1_r, D1, D2, (Z.mod_small (_ / 16)); [done|].
      split; [apply Z.div_pos|apply Z.div_lt_upper_bound]; lia.
    + intros (Hlen & Hb & cs & rest & -> & Hcs). destruct node as [|b node]; [done|].
      inversion Hb as [|? ? Hb1 Hb2]; subst. destruct cs as [|c1 [|c2 cs]]; [done..|].
      injection Hcs as H1 H2 Hcs. rewrite Z.div_1_r in H2.
      rewrite Z.mod_small in H1 by (split; [apply Z.div_pos|apply Z.div_lt_upper_bound]; lia).
      destruct (two_digits c1 c2 b) as [(N1 & N2 & ->) _]; [done|]. simpl.
      destruct (Z.ltb_spec (nibble c1) 0); [lia|]. destruct (Z.ltb_spec (nibble c2) 0); [lia|].
      destruct (IH (cs ++ rest) node) as [_ ->]; [done|]. injection Hlen as Hlen. eauto 6.
Qed.

(** ** Reading and printing *)

Definition uuid_ok (u : Uuid) : Prop :=
  0 ≤ time_low_ u < 2 ^ 32 ∧ 0 ≤ time_mid_ u < 2 ^ 16 ∧ 0 ≤ time_hi_and_version_ u < 2 ^ 16 ∧
  0 ≤ clock_seq_ u < 2 ^ 16 ∧ List.length (node_ u) = 6%nat ∧ Forall (λ b, 0 ≤ b < 256) (node_ u).

(** The digits of the fields, with or without the separators. *)
Definition layout (hy : bool) (u : Uuid) : list ascii :=
  hex 8 (time_low_ u) ++ sep hy ++ hex 4 (time_mid_ u) ++ sep hy ++ hex 4 (time_hi_and_version_ u) ++ sep hy ++
  hex 4 (clock_seq_ u) ++ sep hy ++ flat_map (hex 2) (node_ u).

Lemma ToString_layout u : String.list_ascii_of_string (ToString u) = layout true u.
Proof.
  unfold ToString. rewrite String.list_ascii_of_string_of_list_ascii, AppendHex32_hex, !AppendHex16_hex.
  unfold layout. do 8 f_equal. apply flat_map_ext, AppendHex8_hex.
Qed.

Lemma uuid_layout_length hy u : uuid_ok u → List.length (layout hy u) = if hy then 36%nat else 32%nat.
Proof.
  intros (_ & _ & _ & _ & Hlen & _). unfold layout. rewrite !length_app, !uuid_hex_length.
  destruct (node_ u) as [|? [|? [|? [|? [|? [|? [|]]]]]]]; try discriminate Hlen. by destruct hy.
Qed.

(** The places where the separators are looked for. *)
Definition hyphens_at (hy : bool) (it : list ascii) : Prop :=
  hy = true → it !! 8%nat = Some hyphen ∧ it !! 13%nat = Some hyphen ∧
              it !! 18%nat = Some hyphen ∧ it !! 23%nat = Some hyphen.

Lemma digits_of_length n v cs : digits_of n v cs → List.length cs = n.
Proof. intros Hcs. by rewrite <- (uuid_hex_length n v), <- Hcs, length_fmap. Qed.

Lemma lookup_next cs hy rest i n : List.length cs = n → hy = true → (cs ++ sep hy ++ rest) !! (n + S i)%nat = rest !! i.
Proof.
  intros <- ->. rewrite lookup_app_r by lia. replace (_ + S i - _)%nat with (S i) by lia. done.
Qed.

Lemma read_fields_sound hy it u :
  hyphens_at hy it → read_fields hy it = Ok u →
  uuid_ok u ∧ ∃ cs rest, it = cs ++ rest ∧ lower <$> cs = layout hy u.
Proof.
  intros Hhy E. unfold read_fields in E.
  apply rbind_Ok_inv in E as ([v1 r1] & E1 & E). apply rbind_Ok_inv in E as ([v2 r2] & E2 & E).
  apply rbind_Ok_inv in E as ([v3 r3] & E3 & E). apply rbind_Ok_inv in E as ([v4 r4] & E4 & E).
  apply rbind_Ok_inv in E as (node & E5 & [= <-]).
  destruct (setField_spec hy 4 it v1 r1) as [(V1 & c1 & -> & D1) _]; [split; [done|]; intros h; apply (Hhy h)|].
  pose proof (digits_of_length _ _ _ D1) as L1.
  destruct (setField_spec hy 2 r1 v2 r2) as [(V2 & c2 & -> & D2) _].
  { split; [done|]. intros h. destruct (Hhy h) as (_ & h2 & _). by rewrite (lookup_next c1 hy _ 4 8) in h2. }
  pose proof (digits_of_length _ _ _ D2) as L2.
  destruct (setField_spec hy 2 r2 v3 r3) as [(V3 & c3 & -> & D3) _].
  { split; [done|]. intros h. destruct (Hhy h) as (_ & _ & h3 & _).
    rewrite (lookup_next c1 hy _ 9 8) in h3 by done. by rewrite (lookup_next c2 hy _ 4 4) in h3. }
  pose proof (digits_of_length _ _ _ D3) as L3.
  destruct (setField_spec hy 2 r3 v4 r4) as [(V4 & c4 & -> & D4) _].
  { split; [done|]. intros h. destruct (Hhy h) as (_ & _ & _ & h4).
    rewrite (lookup_next c1 hy _ 14 8) in h4 by done. rewrite (lookup_next c2 hy _ 9 4) in h4 by done.
    by rewrite (lookup_next c3 hy _ 4 4) in h4. }
  apply read_node_spec in E5 as (Hlen & Hb & c5 & rest & -> & D5).
  split; [exact (conj V1 (conj V2 (conj V3 (conj V4 (conj Hlen Hb)))))|].
  exists (c1 ++ sep hy ++ c2 ++ sep hy ++ c3 ++ sep hy ++ c4 ++ sep hy ++ c5), rest.
  split; [by rewrite <- !app_assoc|]. unfold layout; simpl. rewrite !fmap_app, D1, D2, D3, D4, D5. by destruct hy.
Qed.

Lemma lower_sep hy l : lower <$> l = sep hy → l = sep hy.
Proof.
  destruct hy; simpl; intros E; [|by destruct l].
  destruct l as [|c [|]]; try discriminate E. injection E as E. by rewrite (proj1 (lower_hyphen c) E).
Qed.

(** The first field of a layout and what follows its separator. *)
Lemma layout_field hy n v k cs :
  lower <$> cs = hex n v ++ sep hy ++ k →
  ∃ c cs', cs = c ++ sep hy ++ cs' ∧ digits_of n v c ∧ lower <$> cs' = k.
Proof.
  intros E. apply fmap_app_inv in E as (c & k1 & D & E & ->). symmetry in E.
  apply fmap_app_inv in E as (s & k2 & S & E & ->). apply eq_sym, lower_sep in S as ->. by exists c, k2.
Qed.

Lemma setField_complete hy b v cs rest :
  0 ≤ v < 2 ^ (8 * Z.of_nat b) → digits_of (2 * b) v cs →
  setField hy b (cs ++ sep hy ++ rest) = Ok (v, rest).
Proof. intros. apply setField_spec. eauto. Qed.

Lemma lookup_sep cs hy rest n : List.length cs = n → hy = true → (cs ++ sep hy ++ rest) !! n = Some hyphen.
Proof. intros <- ->. by rewrite lookup_app_r, Nat.sub_diag by lia. Qed.

Lemma read_fields_complete hy cs rest u :
  uuid_ok u → lower <$> cs = layout hy u →
  read_fields hy (cs ++ rest) = Ok u ∧ hyphens_at hy (cs ++ rest).
Proof.
  intros (V1 & V2 & V3 & V4 & Hlen & Hb) E. unfold layout in E.
  apply layout_field in E as (c1 & ? & -> & D1 & E). apply layout_field in E as (c2 & ? & -> & D2 & E).
  apply layout_field in E as (c3 & ? & -> & D3 & E). apply layout_field in E as (c4 & c5 & -> & D4 & D5).
  rewrite <- !app_assoc. split.
  - unfold read_fields. rewrite (setField_complete hy 4 (time_low_ u)) by done. cbn [rbind].
    rewrite (setField_complete hy 2 (time_mid_ u)) by done. cbn [rbind].
    rewrite (setField_complete hy 2 (time_hi_and_version_ u)) by done. cbn [rbind].
    rewrite (setField_complete hy 2 (clock_seq_ u)) by done. cbn [rbind].
    destruct (read_node_spec 6 (c5 ++ rest) (node_ u)) as [_ ->]; [by destruct u|]. eauto 6.
  - apply digits_of_length in D1, D2, D3, D4. intros h.
    rewrite (lookup_next c1 hy _ 4 8), (lookup_next c1 hy _ 9 8), (lookup_next c1 hy _ 14 8) by done.
    rewrite (lookup_next c2 hy _ 4 4), (lookup_next c2 hy _ 9 4), (lookup_next c3 hy _ 4 4) by done.
    rewrite !lookup_sep by done. done.
Qed.

Lemma is_hyphens_spec l : forallb (is_hyphen l) kSeparateIndices = true ↔ hyphens_at true l.
Proof.
  unfold hyphens_at, is_hyphen. simpl. rewrite !andb_true_iff, !bool_decide_eq_true.
  split; [intros (? & ? & ? & ? & _); auto|intros [? (? & ? & ?)]; done].
Qed.

Lemma digit_not_hyphen v : digit (v mod 16) ≠ hyphen.
Proof.
  apply (digit_cases (λ d, digit d ≠ hyphen)); [apply Z.mod_pos_bound; lia|repeat constructor; discriminate].
Qed.

Lemma filter_hex n v : List.filter (λ c, bool_decide (c ≠ hyphen)) (hex n v) = hex n v.
Proof.
  induction n as [|n IH]; [done|]. simpl. rewrite bool_decide_eq_true_2; [by rewrite IH|]. apply digit_not_hyphen.
Qed.

Lemma filter_layout u : List.filter (λ c, bool_decide (c ≠ hyphen)) (layout true u) = layout false u.
Proof.
  assert (Hsep : List.filter (λ c, bool_decide (c ≠ hyphen)) (sep true) = sep false) by done.
  unfold layout. rewrite !List.filter_app, !filter_hex, Hsep. do 8 f_equal.
  induction (node_ u) as [|b node IH]; [done|]. cbn [flat_map]. by rewrite List.filter_app, filter_hex, IH.
Qed.

(** Digits alone have no separator where one is looked for. *)
Lemma compact_no_hyphens cs rest u : uuid_ok u → lower <$> cs = layout false u → ~ hyphens_at true (cs ++ rest).
Proof.
  intros Hu Hcs H. destruct (H eq_refl) as [H8 _].
  rewrite lookup_app_l in H8 by (rewrite <- (length_fmap lower), Hcs, uuid_layout_length by done; lia).
  assert (E : (lower <$> cs) !! 8%nat = Some hyphen) by (rewrite list_lookup_fmap, H8; done).
  rewrite Hcs in E. unfold layout in E. injection E as E. by apply digit_not_hyphen in E.
Qed.

(** Reading a UUID: [Parse] accepts a text when it starts, in letters of either
    case, with the 36 characters [ToString] prints for some UUID or with the same 32
    digits without the separators, and then it returns that UUID; any other text is
    an error.  What follows those characters is not looked at. *)
Theorem uuid_parse_exact text u :
  Parse text = Ok u ↔
    uuid_ok u ∧
    let printed := String.list_ascii_of_string (ToString u) in
    let given := lower <$> String.list_ascii_of_string text in
    printed `prefix_of` given ∨ List.filter (λ c, bool_decide (c ≠ hyphen)) printed `prefix_of` given.
Proof.
  cbv zeta. rewrite ToString_layout. unfold Parse. set (l := String.list_ascii_of_string text).
  split.
  - intros E. apply rbind_Ok_inv in E as (_ & _ & E). apply rbind_Ok_inv in E as (_ & _ & E).
    destruct (forallb _ _) eqn:Hhy.
    + apply read_fields_sound in E as (Hu & cs & rest & -> & Hcs); [|by apply is_hyphens_spec].
      split; [done|]. left. rewrite fmap_app, Hcs. by apply prefix_app_r.
    + apply read_fields_sound in E as (Hu & cs & rest & -> & Hcs); [|done].
      split; [done|]. right. rewrite filter_layout, fmap_app, Hcs. by apply prefix_app_r.
  - intros [Hu Hp]. 
    assert (∃ hy cs rest, l = cs ++ rest ∧ lower <$> cs = layout hy u) as (hy & cs & rest & -> & Hcs).
    { destruct Hp as [[k E]|[k E]]; [exists true|exists false; rewrite filter_layout in E];
        apply fmap_app_inv in E as (cs & rest & ? & ? & ->); eauto. }
    destruct (read_fields_complete hy cs rest u Hu Hcs) as [E Hhy].
    assert (Hlen : List.length cs = if hy then 36%nat else 32%nat).
    { by rewrite <- (uuid_layout_length hy u Hu), <- Hcs, length_fmap. }
    assert (forallb (is_hyphen (cs ++ rest)) kSeparateIndices = hy) as ->.
    { destruct hy; [by apply is_hyphens_spec|]. apply not_true_is_false. rewrite is_hyphens_spec.
      by eapply compact_no_hyphens. }
    rewrite !bool_decide_eq_true_2 by (unfold kMinUuidLength; rewrite length_app, Hlen; destruct hy; lia).
    replace (negb hy || _) with true; [done|].
    destruct hy; [|done]. symmetry. apply bool_decide_eq_true_2. unfold kMaxUuidLength. rewrite length_app. lia.
Qed.

Lemma uuid_parse_exact_witness :
  Parse "F81D4FAE-7DEC-11d0-A765-00a0C91e6bf6" =
  Ok {| time_low_ := 0xf81d4fae; time_mid_ := 0x7dec; time_hi_and_version_ := 0x11d0; clock_seq_ := 0xa765;
        node_ := [0x00; 0xa0; 0xc9; 0x1e; 0x6b; 0xf6] |}.
Proof.
  apply uuid_parse_exact. split; [vm_compute; repeat constructor; congruence|].
  left. exists []. vm_compute. reflexivity.
Defined.

(** ** Generated UUIDs *)

Lemma timestamp_loop_keeps now clock g g' rest :
  timestamp_loop now clock g = Some (g', rest) → version_ g' = version_ g ∧ gen_node_ g' = gen_node_ g.
Proof.
  revert now. induction clock as [|n clock IH]; intros now; simpl; repeat case_match; intros E;
    simplify_eq/=; eauto.
Qed.

(** The clock only has to move for [GetTimestamp] to return. *)
Lemma GetTimestamp_returns pre now next rest g :
  now ≠ timestamp_ g → is_Some (GetTimestamp (pre ++ now :: next :: rest) g).
Proof.
  intros Hnow. assert (Hloop : ∀ n pre, ∃ g' l, timestamp_loop n (pre ++ now :: next :: rest) g = Some (g', l) ∧ l ≠ []).
  { intros n pre'. revert n. induction pre' as [|m pre' IH]; intros n; simpl; repeat case_match; eauto.
    all: by apply negb_false_iff, Z.eqb_eq in H1 || (eexists _, _; split; [done|by destruct pre']). }
  destruct pre as [|n pre]; simpl.
  - destruct rest; simpl; rewrite (proj2 (Z.eqb_neq _ _) Hnow); simpl; eauto.
  - destruct (Hloop n pre) as (g' & [|m l] & -> & Hl); [done|eauto].
Qed.

Lemma land_bound x n : 0 ≤ n → 0 ≤ Z.land x (Z.ones n) < 2 ^ n.
Proof. intros Hn. rewrite Z.land_ones by done. apply Z.mod_pos_bound. lia. Qed.

Lemma lor_variant x : 0 ≤ x < 2 ^ 14 → Z.lor x 0x8000 = x + 0x8000.
Proof.
  intros Hx. symmetry. apply Z.add_nocarry_lor, Z.bits_inj'. intros i Hi. rewrite Z.land_spec, Z.bits_0.
  change 0x8000 with (2 ^ 15). rewrite Z.pow2_bits_eqb by lia. destruct (Z.eqb_spec 15 i) as [<-|]; [|apply andb_false_r].
  rewrite andb_true_r. destruct (decide (x = 0)) as [->|]; [done|].
  apply Z.bits_above_log2; [lia|]. apply Z.log2_lt_pow2; lia.
Qed.

(** A generated UUID: while the clock moves, [CreateRandom] returns; the UUID's
    fields are in their ranges, it says the version of the generator, has the variant
    bits of RFC 4122 and is not the null UUID. *)
Theorem generated_uuid_ok pre now next rest random g :
  1 ≤ version_ g ≤ 6 → List.length (gen_node_ g) = 6%nat → Forall (λ b, 0 ≤ b < 256) (gen_node_ g) →
  now ≠ timestamp_ g →
  ∃ u g' clock, CreateRandom (pre ++ now :: next :: rest) random g = Some (u, g', clock) ∧
    uuid_ok u ∧ GetVersion u = version_ g ∧ Z.shiftr (clock_seq_ u) 14 = 2 ∧ IsNull u = false.
Proof.
  intros Hv Hlen Hb Hnow. destruct (GetTimestamp_returns pre now next rest g Hnow) as [[[tv g'] clock] E].
  unfold CreateRandom. rewrite E. eexists _, _, _. split; [done|].
  assert (version_ g' = version_ g ∧ gen_node_ g' = gen_node_ g) as [-> ->].
  { unfold GetTimestamp in E. destruct (pre ++ _) as [|n l]; [done|].
    destruct (timestamp_loop n l g) as [[h [|m r]]|] eqn:El; [done| |done].
    injection E as _ <- _. by apply timestamp_loop_keeps in El. }
  unfold make_Uuid. change 0x0FFF with (Z.ones 12). change 0x3FFF with (Z.ones 14).
  pose proof (land_bound (Z.shiftr tv 48) 12). pose proof (land_bound (wrap_u 16 (Z.shiftr random 4)) 14).
  set (a := Z.land (Z.shiftr tv 48) _) in *. set (b := Z.land (wrap_u 16 _) _) in *.
  rewrite lor_variant, Z.shiftl_mul_pow2 by lia.
  assert (Ha : wrap_u 16 (a + version_ g * 2 ^ 12) = a + version_ g * 2 ^ 12) by (apply Z.mod_small; lia).
  assert (Hc : wrap_u 16 (b + 0x8000) = b + 0x8000) by (apply Z.mod_small; lia).
  unfold uuid_ok, GetVersion, IsNull. cbn [time_low_ time_mid_ time_hi_and_version_ clock_seq_ node_].
  rewrite Ha, Hc. rewrite !Z.shiftr_div_pow2 by lia. split_and!; try apply Z.mod_pos_bound; try lia; try done.
  - rewrite Z.div_add, Z.div_small by lia. lia.
  - replace (b + 0x8000) with (b + 2 * 2 ^ 14) by lia. rewrite Z.div_add, Z.div_small by lia. lia.
Qed.

Definition macless : UuidGenerator := {| version_ := 6; timestamp_ := 0; ticks_ := 0; gen_node_ := replicate 6 0 |}.

Lemma generated_uuid_ok_witness :
  ∃ u g' clock, CreateRandom [1700000000123456789; 1700000000123457000] 0 macless = Some (u, g', clock) ∧
    uuid_ok u ∧ GetVersion u = 6 ∧ Z.shiftr (clock_seq_ u) 14 = 2 ∧ IsNull u = false.
Proof.
  apply (generated_uuid_ok [] 1700000000123456789 1700000000123457000 [] 0 macless);
    [simpl; lia|done|repeat constructor; lia|done].
Defined.

(** The ticks do not keep the values apart: the value comes from a reading after the
    one that was compared, and in microseconds. *)
Lemma generator_repeats_timestamp :
  make_UuidGenerator None kMacless = Ok macless ∧
  ∃ g1 g2, GetTimestamp [1000; 1001] macless = Some (1, g1, []) ∧ GetTimestamp [1002; 1003] g1 = Some (1, g2, []).
Proof. split; [reflexivity|]. eexists _, _. split; reflexivity. Qed.
