(* ===== verification/Writing.v ===== *)
(** * Writing: tables to data files, and transactions

    [iceberg/parquet/io.cpp], the partition keys of [iceberg/transforms.cpp] and
    [iceberg/transaction.cpp].  A file system is the map from paths to files; the
    files, the record batches and the writers of the Parquet library are the class
    [ParquetLibrary], whose operations may fail, and [ParquetLaws] is what it promises.
    The equality, the hash and the text of Arrow scalars and the order in which
    [std::unordered_map] is walked are parameters.  Dereferencing a null pointer or
    indexing out of range is an error whose message starts with "undefined"; an
    exception thrown in a destructor is an error whose message starts with
    "terminate".  An error keeps no state: the files that a failed append leaves
    behind are not described. *)

From stdpp Require Import base list strings pretty gmap.
From Stdlib Require Import ZArith Lia.
From S2P Require Import Prelude Bytes CxxText Types ScanTypes Uuid PartitionTransforms.

Local Open Scope Z_scope.

(** ** Partition keys *)

(** [PartitionKey] of [transforms.h]; a null pointer is [None]. *)
Abbreviation PartitionKey := (list (option scalar)).

(** [WriteToFiles] sets these members of a [DataFile]. *)
Record WrittenFile := { wf_content : FileContent; wf_file_path : string; wf_file_format : string }.

(** ** The Parquet library and the file system *)

(** What [ParquetWriter] calls: [OpenOutputStream] of the file system (the message of
    its failure), the conversion of a schema, the two writers of the library
    and what their [Close] leaves in the file.  [parquet::ParquetFileWriter] throws,
    [parquet::arrow::FileWriter] returns a status. *)
Class ParquetLibrary (B : Type) := {
  Schema : Type;
  File : Type;
  ParquetFileWriter : Type;
  FileWriter : Type;
  schema_of : B → Schema;
  Slice : B → Z → B;
  Validate : B → bool;
  opened_file : File;
  OpenOutputStream : gmap string File → string → option string;
  ToParquetSchema : Schema → bool;
  parquet_Open : Schema → result ParquetFileWriter;
  parquet_Close : ParquetFileWriter → result File;
  FileWriter_Make : ParquetFileWriter → Schema → option FileWriter;
  FileWriter_WriteRecordBatch : FileWriter → B → option FileWriter;
  FileWriter_Close : FileWriter → File * bool;
  read_file : File → option (list B);
}.

Definition write_all `{ParquetLibrary B} (w : FileWriter) (batches : list B) : option FileWriter :=
  foldl (λ w batch, w ≫= λ w, FileWriter_WriteRecordBatch w batch) (Some w) batches.

(** A file that was closed successfully is read as the batches that were written to it, in
    order. *)
Class ParquetLaws (B : Type) `{ParquetLibrary B} := {
  read_unwritten : ∀ schema w f, parquet_Open schema = Ok w → parquet_Close w = Ok f → read_file f = Some [];
  read_written : ∀ schema schema' w a batches a' f,
    parquet_Open schema = Ok w → FileWriter_Make w schema' = Some a → write_all a batches = Some a' →
    FileWriter_Close a' = (f, true) → read_file f = Some batches;
}.

Section writing.
Context {B : Type} `{ParquetLibrary B}.
Context (Equals : scalar → scalar → bool) (scalar_hash : scalar → Z) (scalar_ToString : scalar → string).
Context (MurmurHash3_x86_32 ComputeStringHash : bytes → Z).

Definition null_pointer {A} : result A := Err (Exn "undefined: null pointer").

Definition ToPath (key : PartitionKey) : result string :=
  let! text := fold_ok (λ result elem,
      match elem with Some e => Ok (result +:+ scalar_ToString e +:+ "-") | None => null_pointer end) EmptyString key in
  if bool_decide (text = "") then Err (Exn "undefined: pop_back of an empty string")
  else Ok (String.substring 0 (String.length text - 1) text).

(** [operator==]. *)
Fixpoint keys_equal (a b : PartitionKey) : bool :=
  match a, b with
  | [], [] => true
  | Some x :: a, Some y :: b => Equals x y && keys_equal a b
  | _, _ => false
  end.

Definition PartitionKeyHasher (key : PartitionKey) : result Z :=
  fold_ok (λ result value,
    match value with
    | Some v =>
        Ok (Z.lxor result (Z.lxor (wrap_u 64 (scalar_hash v + wrap_u 64 (Z.shiftl result 2))) (Z.shiftr result 4)))
    | None => null_pointer
    end) 0 key.

(** ** Arrow tables *)

(** A table: its rows, its columns as scalars, its schema, and the batches a
    [TableBatchReader] returns one after the other (on a table in memory it returns no
    error). *)
Record ArrowTable := { num_rows : nat; columns : list (list scalar); table_schema : Schema; table_batches : list B }.

(** [FilterTable]: the slices are collected in [selected_batches], and [batches] is
    returned. *)
Definition FilterTable (table : ArrowTable) (row_indices : list Z) : result (list B) :=
  let batches : list B := [] in
  let! selected_batches := fold_ok (λ selected_batches index,
      let! _ := Ensure ((0 <=? index) && (index <? Z.of_nat (num_rows table))) "out of range" in
      match table_batches table with
      | batch :: _ => Ok (selected_batches ++ [Slice batch index])
      | [] => Ok selected_batches
      end) [] row_indices in
  Ok batches.

Definition GetRecordBatchesFromTable (table : ArrowTable) : list B := table_batches table.

(** ** Write tasks *)

Record WriteTask := {
  write_uuid : Uuid;
  task_id : Z;
  task_schema : Schema;
  record_batches : list B;
  partition_key : option PartitionKey;
}.

Definition GenerateDataFileName (task : WriteTask) (extension : string) : string :=
  "00000-" +:+ pretty (task_id task) +:+ "-" +:+ Uuid.ToString (write_uuid task) +:+ "." +:+ extension.

Definition GenerateDataFilePath (task : WriteTask) (prefix extension : string) : result string :=
  match partition_key task with
  | Some key => let! path := ToPath key in Ok (prefix +:+ "/" +:+ path +:+ "-" +:+ GenerateDataFileName task extension)
  | None => Ok (prefix +:+ "/" +:+ GenerateDataFileName task extension)
  end.

(** ** Partitions of rows *)

(** The value of one field of the specification for row [i]. *)
Definition partition_value (table : ArrowTable) (i : nat) (identifier : PartitionKey) (field : PartitionField) :
    result PartitionKey :=
  match columns table !! Z.to_nat (source_id field) with
  | Some column =>
      match column !! i with
      | Some value =>
          let! transform := GetTransform (transform field) in
          let! result_value := Transform MurmurHash3_x86_32 ComputeStringHash transform value in
          if (0 <=? pf_field_id field) && (pf_field_id field <? Z.of_nat (length identifier))
          then Ok (<[Z.to_nat (pf_field_id field) := Some result_value]> identifier)
          else Err (Exn "undefined: partition_values_[field_id] out of range")
      | None => Err (Exn "Incorrect value after transform")
      end
  | None => Err (Exn "undefined: column out of range")
  end.

Definition DeterminePartitions (partition_spec : PartitionSpec) (table : ArrowTable) : result (list PartitionKey) :=
  map_ok (λ i, fold_ok (partition_value table i) (replicate (length (spec_fields partition_spec)) None) (spec_fields partition_spec))
    (seq 0 (num_rows table)).

(** [partition_to_row_indices[key].push_back(i)]. *)
Fixpoint push_row (groups : list (PartitionKey * list Z)) (key : PartitionKey) (i : Z) : list (PartitionKey * list Z) :=
  match groups with
  | [] => [(key, [i])]
  | (k, rows) :: groups => if keys_equal k key then (k, rows ++ [i]) :: groups else (k, rows) :: push_row groups key i
  end.

Definition group_rows (partitions : list PartitionKey) : result (list (PartitionKey * list Z)) :=
  fold_ok (λ groups '(i, key), let! _ := PartitionKeyHasher key in Ok (push_row groups key (Z.of_nat i))) []
    (imap pair partitions).

(** ** Files *)

Abbreviation files := (gmap string File).

(** [ParquetWriter]: at most one of the two writers is there. *)
Record ParquetWriter := { parquet_writer_ : option ParquetFileWriter; arrow_writer_ : option FileWriter }.

Definition make_ParquetWriter (fs : files) (filename : string) (arrow_schema : Schema) : result ParquetWriter :=
  match OpenOutputStream fs filename with
  | Some message => Err (Exn message)
  | None =>
      if ToParquetSchema arrow_schema
      then let! w := parquet_Open arrow_schema in Ok {| parquet_writer_ := Some w; arrow_writer_ := None |}
      else Err (Exn "can not open file")
  end.

(** [ParquetWriter::WriteRecordBatch]; [None] is a status that is not OK.  The caller
    throws then, so the writer is not used again. *)
Definition WriteRecordBatch (w : ParquetWriter) (record_batch : B) : option ParquetWriter :=
  let arrow_writer :=
    match arrow_writer_ w, parquet_writer_ w with
    | Some a, _ => Some a
    | None, Some p => FileWriter_Make p (schema_of record_batch)
    | None, None => None
    end in
  a ← arrow_writer;
  if Validate record_batch
  then a ← FileWriter_WriteRecordBatch a record_batch; Some {| parquet_writer_ := None; arrow_writer_ := Some a |}
  else None.

(** [~ParquetWriter]: the file that is left.  The status of [Close] is dropped. *)
Definition destroy_ParquetWriter (w : ParquetWriter) : result File :=
  let! f :=
    match parquet_writer_ w with
    | Some p => match parquet_Close p with Ok f => Ok f | Err _ => Err (Exn "terminate: exception in a destructor") end
    | None => Ok opened_file
    end in
  match arrow_writer_ w with
  | Some a => Ok (FileWriter_Close a).1
  | None => Ok f
  end.

(** The [ParquetWriter] of one task, from its construction to its destruction. *)
Definition write_file (fs : files) (filename : string) (arrow_schema : Schema) (batches : list B) : result files :=
  let! writer := make_ParquetWriter fs filename arrow_schema in
  let! writer := fold_ok (λ writer batch,
      match WriteRecordBatch writer batch with
      | Some writer => Ok writer
      | None => Err (Exn "can not write batch")
      end) writer batches in
  let! file := destroy_ParquetWriter writer in
  Ok (<[filename := file]> fs).

Definition write_task (file_prefix : string) (acc : files * list WrittenFile) (task : WriteTask) :
    result (files * list WrittenFile) :=
  let! output_filename := GenerateDataFilePath task file_prefix "parquet" in
  let! fs := write_file acc.1 output_filename (task_schema task) (record_batches task) in
  Ok (fs, acc.2 ++ [{| wf_content := kData; wf_file_path := output_filename; wf_file_format := "parquet" |}]).

Definition WriteToFiles (fs : files) (file_prefix : string) (tasks : list WriteTask) : result (files * list WrittenFile) :=
  fold_ok (write_task file_prefix) (fs, []) tasks.

Context (walk : list (PartitionKey * list Z) → list (PartitionKey * list Z)).

(** The tasks of the partitions, numbered from [counter] on. *)
Definition partition_tasks (table : ArrowTable) (uuid : Uuid) (counter : Z) (groups : list (PartitionKey * list Z)) :
    result (list WriteTask) :=
  map_ok (λ '(n, (key, rows)),
    let! batches := FilterTable table rows in
    Ok {| write_uuid := uuid; task_id := counter + Z.of_nat n; task_schema := table_schema table; record_batches := batches; partition_key := Some key |})
    (imap pair groups).

Definition ArrowTableToDataFiles (fs : files) (table : ArrowTable) (file_prefix : string) (uuid : Uuid) (counter : Z)
    (partition_spec : option PartitionSpec) : result (files * list WrittenFile) :=
  let! write_tasks :=
    match partition_spec with
    | Some spec =>
        let! partitions := DeterminePartitions spec table in
        let! groups := group_rows partitions in
        partition_tasks table uuid counter (walk groups)
    | None =>
        Ok [{| write_uuid := uuid; task_id := counter; task_schema := table_schema table;
             record_batches := GetRecordBatchesFromTable table; partition_key := None |}]
    end in
  WriteToFiles fs file_prefix write_tasks.

(** ** Transactions *)

(** A transaction: [committed_files] is what [DoCommit] of the table was called with. *)
Record Transaction := {
  commited_ : bool;
  committed_files : list (list WrittenFile);
  data_files_ : list WrittenFile;
  auto_commit_ : bool;
  cnt_files_ : Z;
}.

Definition make_Transaction (auto_commit : bool) : Transaction :=
  {| commited_ := false; committed_files := []; data_files_ := []; auto_commit_ := auto_commit; cnt_files_ := 0 |}.

Definition Commit (t : Transaction) : result Transaction :=
  let! _ := Ensure (negb (commited_ t)) "Transaction can not be commited twice." in
  Ok {| commited_ := true; committed_files := committed_files t ++ [data_files_ t]; data_files_ := data_files_ t;
        auto_commit_ := auto_commit_ t; cnt_files_ := cnt_files_ t |}.

(** [AppendTable] for the location and the partition specifications of the table
    ([None] without metadata; without specifications there are no partitions either),
    and the UUID that the generator makes. *)
Definition AppendTable (location : string) (partition_specs : option (list PartitionSpec)) (uuid : Uuid) (table : ArrowTable)
    (s : files * Transaction) : result (files * Transaction) :=
  let '(fs, t) := s in
  let spec := match partition_specs with Some (spec :: _) => Some spec | _ => None end in
  let! '(fs, data_files) := ArrowTableToDataFiles fs table location uuid (cnt_files_ t) spec in
  let t := {| commited_ := commited_ t; committed_files := committed_files t; data_files_ := data_files_ t ++ data_files;
              auto_commit_ := auto_commit_ t; cnt_files_ := wrap_s 32 (cnt_files_ t + Z.of_nat (length data_files)) |} in
  if auto_commit_ t then let! t := Commit t in Ok (fs, t) else Ok (fs, t).
End writing.

(** ** Paths of files *)

Section suffix.
Context {A : Type}.
Implicit Types (u v : list A).
Lemma last_separator (c : A) u v u' v' : c ∉ v → c ∉ v' → u ++ c :: v = u' ++ c :: v' → v = v'.
Proof.
  revert u'. induction u as [|x u IH]; intros [|y u'] Hv Hv' E; cbn in E.
  - by injection E.
  - injection E as -> E. exfalso. apply Hv. rewrite E. set_solver.
  - injection E as -> E. exfalso. apply Hv'. rewrite <- E. set_solver.
  - injection E as _ E. by apply (IH u').
Qed.
End suffix.

Lemma list_ascii_app a b :
  String.list_ascii_of_string (a +:+ b) = String.list_ascii_of_string a ++ String.list_ascii_of_string b.
Proof. induction a as [|c a IH]; [done|]. rewrite append_cons. cbn. by rewrite IH. Qed.

Lemma decimal_not_hyphen d : (d < 10)%N → pretty_N_char d ≠ hyphen.
Proof. intros Hd E. pose proof (digit_value_char d Hd) as Hv. rewrite E in Hv. discriminate Hv. Qed.

Lemma pretty_no_hyphen z : 0 ≤ z → hyphen ∉ String.list_ascii_of_string (pretty z).
Proof.
  assert (∀ x s, hyphen ∉ String.list_ascii_of_string s → hyphen ∉ String.list_ascii_of_string (pretty_N_go x s)) as Hgo.
  { intros x. induction (N.lt_wf_0 x) as [x _ IH]; intros s Hs. destruct (decide (x = 0)%N) as [->|Hx].
    - by rewrite pretty_N_go_0.
    - rewrite pretty_N_go_step by lia. apply IH; [apply N.div_lt; lia|]. cbn. apply not_elem_of_cons.
      split; [|done]. intros E. symmetry in E. revert E. apply decimal_not_hyphen, N.mod_lt. lia. }
  intros Hz. destruct z as [|p|p]; [by apply (bool_decide_unpack _); vm_compute|  |lia].
  change (pretty (Z.pos p)) with (pretty (N.pos p)). unfold pretty, pretty_N. rewrite decide_False by done.
  apply Hgo. cbn. set_solver.
Qed.

Lemma uuid_text_length u : uuid_ok u → List.length (String.list_ascii_of_string (Uuid.ToString u)) = 36%nat.
Proof. intros Hu. rewrite ToString_layout. by apply (uuid_layout_length true). Qed.

(** The name of a file determines its number. *)
Lemma file_name_number p p' i j u u' :
  0 ≤ i → 0 ≤ j → uuid_ok u → uuid_ok u' →
  p +:+ ("00000-" +:+ pretty i +:+ "-" +:+ Uuid.ToString u +:+ "." +:+ "parquet") =
  p' +:+ ("00000-" +:+ pretty j +:+ "-" +:+ Uuid.ToString u' +:+ "." +:+ "parquet") → i = j.
Proof.
  intros Hi Hj Hu Hu' E. apply (f_equal String.list_ascii_of_string) in E. rewrite !list_ascii_app in E.
  set (pre := String.list_ascii_of_string "00000-") in E. set (dash := String.list_ascii_of_string "-") in E.
  rewrite !(app_assoc _ pre), !(app_assoc (_ ++ pre)) in E.
  apply app_inj_2 in E as [E _]; [|rewrite !length_app, !uuid_text_length by done; done].
  change pre with (String.list_ascii_of_string "00000" ++ [hyphen]) in E. rewrite !(app_assoc _ _ [hyphen]) in E.
  rewrite <- !(app_assoc _ [hyphen]) in E. apply last_separator in E; [|by apply pretty_no_hyphen..].
  apply (f_equal String.string_of_list_ascii) in E. rewrite !String.string_of_list_ascii_of_string in E.
  by apply (inj pretty) in E.
Qed.

(** ** One file *)

Section file.
Context {B : Type} `{ParquetLibrary B}.
Implicit Types (fs : gmap string File) (batches : list B).

(** Everything that the code checks: the file is opened, the schema is converted, the writer
    is made for the first batch, and all batches are valid and written; [f] is the file
    that is left then. *)
Definition accepted fs (path : string) (schema : Schema) batches (f : File) : Prop :=
  OpenOutputStream fs path = None ∧ ToParquetSchema schema = true ∧
  ∃ w, parquet_Open schema = Ok w ∧
    match batches with
    | [] => parquet_Close w = Ok f
    | first :: _ =>
        ∃ a a', FileWriter_Make w (schema_of first) = Some a ∧ Forall (λ b, Validate b = true) batches ∧
          write_all a batches = Some a' ∧ (FileWriter_Close a').1 = f
    end.

(** The one status that it drops: the writer is closed without an error. *)
Definition closed (schema : Schema) batches : Prop :=
  ∀ w first rest a a',
    batches = first :: rest → parquet_Open schema = Ok w → FileWriter_Make w (schema_of first) = Some a → write_all a batches = Some a' →
    (FileWriter_Close a').2 = true.

Let write_step (writer : ParquetWriter) (batch : B) : result ParquetWriter :=
  match WriteRecordBatch writer batch with Some writer => Ok writer | None => Err (Exn "can not write batch") end.

Lemma write_all_cons a b batches : write_all a (b :: batches) = FileWriter_WriteRecordBatch a b ≫= λ a, write_all a batches.
Proof using.
  unfold write_all. cbn [foldl mbind option_bind]. destruct (FileWriter_WriteRecordBatch a b) as [a'|]; cbn; [done|].
  induction batches as [|x batches IH]; [done|]. exact IH.
Qed.

(** With an arrow writer, the batches are validated and written one after the other. *)
Lemma write_steps a batches w :
  fold_ok write_step {| parquet_writer_ := None; arrow_writer_ := Some a |} batches = Ok w ↔
  Forall (λ b, Validate b = true) batches ∧
  ∃ a', write_all a batches = Some a' ∧ w = {| parquet_writer_ := None; arrow_writer_ := Some a' |}.
Proof using.
  revert a. induction batches as [|b batches IH]; intros a.
  - cbn. split; [intros [= <-]; eauto|]. by intros (_ & a' & [= <-] & ->).
  - cbn [fold_ok]. rewrite write_all_cons, Forall_cons. unfold write_step at 1, WriteRecordBatch. cbn [arrow_writer_ mbind option_bind].
    destruct (Validate b); cbn; [|split; [done|by intros [[? _] _]]].
    destruct (FileWriter_WriteRecordBatch a b) as [a1|]; cbn; [|split; [done|by intros (_ & ? & ? & _)]].
    fold (write_all a1 batches). rewrite IH. naive_solver.
Qed.

(** The first batch makes the arrow writer. *)
Lemma first_step p a b batches :
  FileWriter_Make p (schema_of b) = Some a →
  fold_ok write_step {| parquet_writer_ := Some p; arrow_writer_ := None |} (b :: batches) =
  fold_ok write_step {| parquet_writer_ := None; arrow_writer_ := Some a |} (b :: batches).
Proof using. intros E. cbn [fold_ok]. unfold write_step at 1 3, WriteRecordBatch. cbn [arrow_writer_ parquet_writer_]. by rewrite E. Qed.

Lemma first_step_refused p b batches :
  FileWriter_Make p (schema_of b) = None →
  fold_ok write_step {| parquet_writer_ := Some p; arrow_writer_ := None |} (b :: batches) = Err (Exn "can not write batch").
Proof using. intros E. cbn [fold_ok]. unfold write_step at 1, WriteRecordBatch. cbn [arrow_writer_ parquet_writer_]. by rewrite E. Qed.

(** A file is written exactly when everything that is checked succeeds, and only the file
    at the path changes. *)
Lemma write_file_iff fs path schema batches fs' :
  write_file fs path schema batches = Ok fs' ↔ ∃ f, accepted fs path schema batches f ∧ fs' = <[path := f]> fs.
Proof using.
  unfold write_file, make_ParquetWriter, accepted. destruct (OpenOutputStream fs path); cbn; [naive_solver|].
  destruct (ToParquetSchema schema); cbn; [|naive_solver]. destruct (parquet_Open schema) as [w|e]; cbn; [|naive_solver].
  fold write_step. destruct batches as [|b batches].
  - cbn. unfold destroy_ParquetWriter. cbn. destruct (parquet_Close w) as [f|e] eqn:Ew; cbn.
    + split; [intros [= <-]; eauto 10|]. by intros (f' & (_ & _ & w0 & [= <-] & [= <-]%(eq_trans (eq_sym Ew))) & ->).
    + split; [done|]. by intros (f' & (_ & _ & w0 & [= <-] & [=]%(eq_trans (eq_sym Ew))) & _).
  - destruct (FileWriter_Make w (schema_of b)) as [a|] eqn:Ea.
    + rewrite (first_step w a) by done. split.
      * intros (w' & (Hv & a' & Hw & ->)%write_steps & [= <-])%rbind_Ok_inv. eexists. split; [|reflexivity]. eauto 10.
      * intros (f & (_ & _ & w0 & [= <-] & a0 & a' & Ea0 & Hv & Hw & <-) & ->).
        assert (a0 = a) as -> by congruence.
        by rewrite (proj2 (write_steps a (b :: batches) _) (conj Hv (ex_intro _ a' (conj Hw eq_refl)))).
    + rewrite first_step_refused by done. split; [done|]. naive_solver.
Qed.

(** A file that was closed without an error is read as the batches. *)
Lemma accepted_read `{!ParquetLaws B} fs path schema batches f :
  accepted fs path schema batches f → closed schema batches → read_file f = Some batches.
Proof using.
  intros (_ & _ & w & Hw & Hf) Hc. destruct batches as [|b batches]; [by eapply read_unwritten|].
  destruct Hf as (a & a' & Ha & _ & Ha' & Hf). specialize (Hc w b batches a a' eq_refl Hw Ha Ha').
  eapply (read_written schema (schema_of b) w a (b :: batches) a'); [done..|]. rewrite <- Hf, <- Hc. by destruct (FileWriter_Close a').
Qed.
End file.

(** ** Appending tables without partitions *)

Section append.
Context {B : Type} `{ParquetLibrary B}.
Context (Equals : scalar → scalar → bool) (scalar_hash : scalar → Z) (scalar_ToString : scalar → string).
Context (murmur hash_string : bytes → Z) (walk : list (PartitionKey * list Z) → list (PartitionKey * list Z)).
Context (location : string).

(** An append to a table without metadata, or whose metadata has no specification. *)
Let append partition_specs (s : gmap string File * Transaction) (a : Uuid * ArrowTable (B := B)) :=
  AppendTable Equals scalar_hash scalar_ToString murmur hash_string walk location partition_specs a.1 a.2 s.

Definition file_path_of (j : Z) (u : Uuid) : string :=
  location +:+ "/" +:+ ("00000-" +:+ pretty j +:+ "-" +:+ Uuid.ToString u +:+ "." +:+ "parquet").
Definition file_of (j : Z) (u : Uuid) : WrittenFile :=
  {| wf_content := kData; wf_file_path := file_path_of j u; wf_file_format := "parquet" |}.

Lemma file_path_inj i j u u' : 0 ≤ i → 0 ≤ j → uuid_ok u → uuid_ok u' → file_path_of i u = file_path_of j u' → i = j.
Proof using.
  intros Hi Hj Hu Hu' E. unfold file_path_of in E. rewrite <- !(append_assoc location) in E.
  by apply file_name_number in E.
Qed.

(** An append succeeds exactly when the file of the table is accepted. *)
Lemma append_iff specs fs t u table s :
  specs = None ∨ specs = Some [] → auto_commit_ t = false →
  append specs (fs, t) (u, table) = Ok s ↔
  ∃ f, accepted fs (file_path_of (cnt_files_ t) u) (table_schema table) (table_batches table) f ∧
    s = (<[file_path_of (cnt_files_ t) u := f]> fs,
         {| commited_ := commited_ t; committed_files := committed_files t;
            data_files_ := data_files_ t ++ [file_of (cnt_files_ t) u];
            auto_commit_ := false; cnt_files_ := wrap_s 32 (cnt_files_ t + 1) |}).
Proof using.
  intros Hspecs Ha. unfold append, AppendTable. cbn [fst snd].
  replace (match specs with Some (spec :: _) => Some spec | _ => None end) with (@None PartitionSpec) by (by destruct Hspecs as [-> | ->]).
  unfold ArrowTableToDataFiles. cbn [rbind]. unfold WriteToFiles. cbn [fold_ok]. unfold write_task, GenerateDataFilePath.
  cbn [partition_key rbind task_schema record_batches fst snd].
  change (location +:+ "/" +:+ GenerateDataFileName _ _) with (file_path_of (cnt_files_ t) u). unfold GetRecordBatchesFromTable.
  destruct (write_file fs (file_path_of (cnt_files_ t) u) (table_schema table) (table_batches table)) as [fs'|e] eqn:E; cbn [rbind].
  - apply write_file_iff in E as (f & Hf & ->). cbn [auto_commit_]. rewrite Ha. split.
    + intros [= <-]. by exists f.
    + intros (g & Hg & ->). assert (Ok (<[file_path_of (cnt_files_ t) u := f]> fs) = Ok (<[file_path_of (cnt_files_ t) u := g]> fs)) as E.
      { rewrite <- (proj2 (write_file_iff fs _ _ _ _) (ex_intro _ f (conj Hf eq_refl))).
        by apply write_file_iff; exists g. }
      injection E as ->. reflexivity.
  - split; [done|]. intros (f & Hf & _). exfalso.
    assert (write_file fs (file_path_of (cnt_files_ t) u) (table_schema table) (table_batches table) =
      Ok (<[file_path_of (cnt_files_ t) u := f]> fs)) as E' by (by apply write_file_iff; exists f). congruence.
Qed.

(** The state after appending the tables [l]. *)
Definition appended (l : list (Uuid * ArrowTable (B := B))) (s : gmap string File * Transaction) : Prop :=
  s.2 = {| commited_ := false; committed_files := [];
           data_files_ := imap (λ j a, file_of (Z.of_nat j) a.1) l; auto_commit_ := false;
           cnt_files_ := Z.of_nat (length l) |} ∧
  ∀ j a, l !! j = Some a → ∃ f, s.1 !! file_path_of (Z.of_nat j) a.1 = Some f ∧ read_file f = Some (table_batches a.2).

(** The UUID is one that the generator makes, and the file of the table is accepted and
    closed without an error, whatever other files there are. *)
Definition input_ok (a : Uuid * ArrowTable (B := B)) : Prop :=
  uuid_ok a.1 ∧ (∀ fs j, ∃ f, accepted fs (file_path_of j a.1) (table_schema a.2) (table_batches a.2) f) ∧
  closed (table_schema a.2) (table_batches a.2).

Lemma append_step `{!ParquetLaws B} specs l s a :
  specs = None ∨ specs = Some [] → Z.of_nat (length l) < int32_max →
  appended l s → Forall input_ok l → input_ok a → ∃ s', append specs s a = Ok s' ∧ appended (l ++ [a]) s'.
Proof using.
  intros Hspecs Hn [Ht Hfs] Hl (Hu & Ha & Hc). destruct s as [fs t], a as [u table]. cbn [fst snd] in *.
  destruct (Ha fs (cnt_files_ t)) as [f Hf]. eexists. split; [apply append_iff; [done|by subst t|by exists f]|].
  subst t. cbn [cnt_files_ data_files_ commited_ committed_files] in *. split.
  - cbn [snd]. rewrite imap_app, (length_app l), Nat2Z.inj_add. cbn [length imap fst]. unfold compose. rewrite Nat.add_0_r.
    rewrite wrap_s_32_id; [done|]. unfold_ints. lia.
  - cbn [fst]. intros j a. intros [Ha'|[Hj Ha']]%lookup_app_Some.
    + rewrite lookup_insert_ne; [by apply Hfs|]. intros E.
      assert (j < length l)%nat by (by apply lookup_lt_Some in Ha').
      assert (input_ok a) as [Hua _] by (by eapply Forall_lookup_1).
      apply file_path_inj in E; [lia|lia|lia|done|done].
    + apply list_lookup_singleton_Some in Ha' as [Hk <-]. assert (j = length l) as -> by lia.
      exists f. split; [apply lookup_insert_eq|]. by eapply accepted_read.
Qed.

Lemma appends_ok `{!ParquetLaws B} specs l : specs = None ∨ specs = Some [] → Z.of_nat (length l) ≤ int32_max →
  ∀ fs, Forall input_ok l → ∃ s, fold_ok (append specs) (fs, make_Transaction false) l = Ok s ∧ appended l s.
Proof using.
  intros Hspecs Hn fs. induction l as [|a l IH] using rev_ind; intros Hl.
  - eexists. split; [reflexivity|]. split; [done|]. intros j a Ha. by rewrite lookup_nil in Ha.
  - rewrite length_app in Hn. cbn in Hn.
    apply Forall_app in Hl as [Hl Ha]. apply Forall_cons_1 in Ha as [Ha _]. destruct (IH ltac:(lia) Hl) as (s & E & Hs).
    destruct (append_step specs l s a Hspecs ltac:(lia) Hs Hl Ha) as (s' & E' & Hs'). exists s'. split; [|done].
    rewrite fold_ok_app, E. cbn [rbind fold_ok]. by rewrite E'.
Qed.
End append.


(** A Parquet library whose files are the batches; it refuses schema 0 and batch 0, and
    closing a file with batch 9 fails and leaves it unreadable. *)
Module WritingExample.
#[local] Instance library : ParquetLibrary nat := {|
  Schema := nat; File := option (list nat); ParquetFileWriter := unit; FileWriter := list nat;
  schema_of := λ _, 1%nat; Slice := λ b _, b; Validate := λ _, true;
  opened_file := None;
  OpenOutputStream := λ _ path, if bool_decide (path = "") then Some "no path"%string else None;
  ToParquetSchema := λ s, negb (Nat.eqb s 0);
  parquet_Open := λ _, Ok tt;
  parquet_Close := λ _, Ok (Some []);
  FileWriter_Make := λ _ _, Some [];
  FileWriter_WriteRecordBatch := λ w b, if Nat.eqb b 0 then None else Some (w ++ [b]);
  FileWriter_Close := λ w, if bool_decide (9%nat ∈ w) then (None, false) else (Some w, true);
  read_file := λ f, f;
|}.

Lemma written_batches batches : ∀ a a', write_all a batches = Some a' → a' = a ++ batches.
Proof.
  induction batches as [|b batches IH]; intros a a' E.
  - injection E as <-. by rewrite app_nil_r.
  - rewrite write_all_cons in E. cbn in E. destruct (Nat.eqb b 0); [done|]. cbn in E. rewrite (IH _ _ E), <- app_assoc. done.
Qed.

#[local] Instance laws : ParquetLaws nat.
Proof.
  split.
  - intros schema w f _ [= <-]. done.
  - intros schema schema' w a batches a' f _ [= <-] ->%written_batches Hc. cbn in *. case_bool_decide; congruence.
Qed.

Definition table (batches : list nat) : ArrowTable (B := nat) :=
  {| num_rows := length batches; columns := []; table_schema := 1%nat; table_batches := batches |}.
Definition tables : list (Uuid * ArrowTable (B := nat)) := [(null_uuid, table [3; 4]%nat); (null_uuid, table []); (null_uuid, table [5]%nat)].

Lemma tables_ok : Forall (input_ok "s3://b/t") tables.
Proof.
  repeat constructor; try (vm_compute; congruence); try (intros fs j; eexists; split; [reflexivity|]; repeat split; eexists; split;
    [reflexivity|]; cbn; first [reflexivity|eexists _, _; repeat split; repeat constructor]).
  all: intros w first rest a a' [= <- <-] _ [= <-] ->%written_batches; done.
Qed.
End WritingExample.


(** A file that is not closed successfully is part of the transaction all the same. *)
Lemma close_failure_unnoticed :
  ∃ fs t file,
    AppendTable (H := WritingExample.library) (λ _ _, true) (λ _, 0) (λ _, ""%string) (λ _, 0) (λ _, 0) (λ g, g) "s3://b/t" None null_uuid
      (WritingExample.table [9]%nat) (∅, make_Transaction false) = Ok (fs, t) ∧
    (fs !!.) <$> (wf_file_path <$> data_files_ t) = [Some file] ∧ read_file (ParquetLibrary := WritingExample.library) file = None.
Proof. eexists _, _, _. split; [vm_compute; reflexivity|]. split; vm_compute; reflexivity. Qed.

(** ** Rows of partitions *)

Section groups.
Context (Equals : scalar → scalar → bool) (scalar_hash : scalar → Z).
Context (Equals_refl : ∀ x, Equals x x = true).

Lemma keys_equal_refl key : Forall is_Some key → keys_equal Equals key key = true.
Proof using Equals_refl. induction 1 as [|v key [x ->] _ IH]; [done|]. cbn. by rewrite Equals_refl. Qed.

Lemma hasher_no_null key h : PartitionKeyHasher scalar_hash key = Ok h → Forall is_Some key.
Proof using.
  unfold PartitionKeyHasher. generalize 0 as acc. induction key as [|v key IH]; intros acc E; [done|]. cbn [fold_ok] in E.
  destruct v as [x|]; [|discriminate]. constructor; [by eexists|]. by eapply IH.
Qed.

Lemma push_row_rows groups key i : concat (push_row Equals groups key i).*2 ≡ₚ i :: concat groups.*2.
Proof using.
  induction groups as [|[k rows] groups IH]; [done|]. cbn [push_row]. destruct (keys_equal Equals k key); cbn.
  - rewrite <- app_assoc. cbn. symmetry. apply Permutation_middle.
  - rewrite IH. symmetry. apply Permutation_middle.
Qed.

(** The rows of a group have the key of the group. *)
Definition group_ok (partitions : list PartitionKey) (g : PartitionKey * list Z) : Prop :=
  ∀ i, i ∈ g.2 → ∃ key, partitions !! Z.to_nat i = Some key ∧ keys_equal Equals g.1 key = true.

Lemma push_row_ok partitions groups key i :
  partitions !! Z.to_nat i = Some key → Forall is_Some key →
  Forall (group_ok partitions) groups → Forall (group_ok partitions) (push_row Equals groups key i).
Proof using Equals_refl.
  intros Hi Hk. induction 1 as [|[k rows] groups Hg Hgs IH]; cbn [push_row].
  - constructor; [|done]. intros j ->%list_elem_of_singleton. exists key. split; [done|]. by apply keys_equal_refl.
  - destruct (keys_equal Equals k key) eqn:E; (constructor; [|done]); [|done].
    intros j [Hj| ->%list_elem_of_singleton]%elem_of_app; [by apply Hg|]. by exists key.
Qed.

(** Every row is in exactly one group, with rows of the same key. *)
Lemma group_rows_exact partitions groups :
  group_rows Equals scalar_hash partitions = Ok groups →
  concat groups.*2 ≡ₚ Z.of_nat <$> seq 0 (length partitions) ∧ Forall (group_ok partitions) groups.
Proof using Equals_refl.
  unfold group_rows. revert groups.
  enough (∀ done groups,
    fold_ok (λ groups '(i, key), let! _ := PartitionKeyHasher scalar_hash key in Ok (push_row Equals groups key (Z.of_nat i))) []
      (imap pair done) = Ok groups → ∀ rest, partitions = done ++ rest →
    concat groups.*2 ≡ₚ Z.of_nat <$> seq 0 (length done) ∧ Forall (group_ok partitions) groups) as H.
  { intros groups E. apply (H partitions groups E []). by rewrite app_nil_r. }
  intros done. induction done as [|key done IH] using rev_ind; intros groups E rest Hp.
  - cbn in E. injection E as <-. by split.
  - rewrite imap_app in E. rewrite fold_ok_app in E. apply rbind_Ok_inv in E as (gs & E1 & E2).
    cbn [imap fold_ok] in E2. apply rbind_Ok_inv in E2 as (? & E2 & [= <-]). apply rbind_Ok_inv in E2 as (h & Hh & [= <-]).
    destruct (IH gs E1 (key :: rest)) as [Hrows Hok]; [by rewrite Hp, <- app_assoc|].
    unfold compose. rewrite Nat.add_0_r. split.
    + rewrite push_row_rows, Hrows, length_app, seq_app, fmap_app. cbn. by rewrite Permutation_cons_append.
    + apply push_row_ok; [|by eapply hasher_no_null|done]. rewrite Nat2Z.id, Hp, <- app_assoc.
      by rewrite lookup_app_r, Nat.sub_diag by lia.
Qed.
End groups.

(** ** What a partitioned table leaves in its files *)

(** The tasks of partitions have no batches: [FilterTable] returns the vector that it does
    not fill. *)
Lemma filter_table_empty `{ParquetLibrary B} (table : ArrowTable (B := B)) rows batches : FilterTable table rows = Ok batches → batches = [].
Proof. unfold FilterTable. intros E. by apply rbind_Ok_inv in E as (s & _ & [= <-]). Qed.

Lemma partition_tasks_empty `{ParquetLibrary B} (table : ArrowTable (B := B)) uuid counter groups tasks :
  partition_tasks table uuid counter groups = Ok tasks → Forall (λ t, record_batches t = []) tasks.
Proof.
  unfold partition_tasks. generalize (imap pair groups) as l. intros l. revert tasks.
  induction l as [|[n [key rows]] l IH]; intros tasks E; cbn [map_ok] in E; [injection E as <-; done|].
  apply rbind_Ok_inv in E as (t & Et & E). apply rbind_Ok_inv in E as (ts & Ets & [= <-]).
  apply rbind_Ok_inv in Et as (batches & Hb & [= <-]). constructor; [by eapply filter_table_empty|by apply IH].
Qed.

Lemma written_files_empty `{ParquetLaws B} scalar_ToString fs prefix acc (tasks : list (WriteTask (B := B))) fs' written :
  let empty := λ fs f, ∃ file, fs !! wf_file_path f = Some file ∧ read_file file = Some [] in
  Forall (λ t, record_batches t = []) tasks → Forall (empty fs) acc →
  fold_ok (write_task scalar_ToString prefix) (fs, acc) tasks = Ok (fs', written) → Forall (empty fs') written.
Proof.
  intros empty Ht. revert fs acc. induction Ht as [|t tasks Ht _ IH]; intros fs acc H1 E; cbn [fold_ok] in E.
  - by injection E as <- <-.
  - apply rbind_Ok_inv in E as ([fs1 acc1] & E1 & E). apply rbind_Ok_inv in E1 as (p & _ & E1).
    apply rbind_Ok_inv in E1 as (fs2 & E2 & E1). injection E1 as <- <-.
    rewrite Ht in E2. apply write_file_iff in E2 as (file & Hf & ->). apply accepted_read in Hf; [|by intros ????? [=]].
    eapply IH; [|exact E]. apply Forall_app. split.
    + eapply Forall_impl; [exact H1|]. cbn. intros f Hfile. unfold empty. destruct (decide (wf_file_path f = p)) as [->|].
      * rewrite lookup_insert_eq. eauto.
      * by rewrite lookup_insert_ne.
    + constructor; [|done]. exists file. cbn. by rewrite lookup_insert_eq.
Qed.

(** Every file written for a partitioned table is without rows. *)
Lemma partitioned_rows_lost `{ParquetLaws B} Equals scalar_hash scalar_ToString murmur hash_string walk fs (table : ArrowTable (B := B))
    prefix uuid counter spec fs' written :
  ArrowTableToDataFiles Equals scalar_hash scalar_ToString murmur hash_string walk fs table prefix uuid counter
    (Some spec) = Ok (fs', written) →
  Forall (λ f, ∃ file, fs' !! wf_file_path f = Some file ∧ read_file file = Some []) written.
Proof.
  unfold ArrowTableToDataFiles. intros E. apply rbind_Ok_inv in E as (tasks & Et & E).
  apply rbind_Ok_inv in Et as (ps & _ & Et). apply rbind_Ok_inv in Et as (gs & _ & Et).
  eapply written_files_empty; [by eapply partition_tasks_empty|by apply Forall_nil_2|exact E].
Qed.

(** The field ids that the specification of the format assigns, from 1000 on, are out of
    range. *)
Lemma field_id_out_of_range `{ParquetLibrary B} murmur hash_string (table : ArrowTable (B := B)) column value :
  columns table = [column] → column !! 0%nat = Some value →
  partition_value murmur hash_string table 0 [None] {| source_id := 0; pf_field_id := 1000; pf_name := "p"; transform := "identity" |} =
  Err (Exn "undefined: partition_values_[field_id] out of range").
Proof. intros Hc Hv. unfold partition_value. cbn [source_id]. change (Z.to_nat 0) with 0%nat. rewrite Hc, lookup_cons, Hv. reflexivity. Qed.
