(* ===== verification/Avro.v ===== *)
(** * Avro: schemas, generic data and data files of the Avro library

    [avro::Node], [avro::GenericDatum] and the two ends of a data file, as far as
    [iceberg/manifest_entry.cpp] uses them.  The library is not part of the
    repository: its data types are written down as they are documented, and
    compiling a schema, writing a file and reading one are a class whose laws are
    those of the Avro specification: what a schema text means ([avro_schema]) and
    what a datum written with one schema is when it is read with another
    ([read_as]).  The laws say nothing about texts and data outside these. *)

From stdpp Require Import base list strings gmap countable.
From Stdlib Require Import ZArith Lia.
From S2P Require Import Prelude Bytes Json Streams.

Local Open Scope Z_scope.

(** [std::vector<uint8_t>]. *)
Abbreviation bytes := (list Byte.byte).

Inductive LogicalType :=
| LT_NONE | LT_DECIMAL (precision scale : Z) | LT_DATE | LT_TIME_MICROS | LT_TIMESTAMP_MICROS | LT_TIMESTAMP_NANOS
| LT_UUID.

Unset Elimination Schemes.
(** [avro::Node]. *)
Inductive avro_node :=
| SNull | SBool | SInt (lt : LogicalType) | SLong (lt : LogicalType) | SFloat | SDouble
| SString (lt : LogicalType) | SBytes (lt : LogicalType)
| SFixed (name : string) (size : Z) (lt : LogicalType)
| SArray (items : avro_node)
| SRecord (name : string) (fields : list (string * avro_node))
| SUnion (branches : list avro_node).

(** [avro::GenericDatum]: containers know their schema.  [float] and [double] as
    their bit patterns. *)
Inductive datum :=
| DNull | DBool (b : bool) | DInt (lt : LogicalType) (v : Z) | DLong (lt : LogicalType) (v : Z)
| DFloat (bits : Z) | DDouble (bits : Z) | DString (lt : LogicalType) (s : string)
| DBytes (lt : LogicalType) (b : bytes)
| DFixed (lt : LogicalType) (b : bytes)
| DArray (items : avro_node) (l : list datum)
| DRecord (fields : list (string * datum))
| DUnion (branches : list avro_node) (branch : nat) (d : datum).
Set Elimination Schemes.

#[export] Instance LogicalType_eq_dec : EqDecision LogicalType.
Proof. solve_decision. Defined.

(** ** Schema texts *)

Definition is_letter (c : Ascii.ascii) : bool :=
  let n := Z.of_N (Ascii.N_of_ascii c) in
  ((65 <=? n) && (n <=? 90)) || ((97 <=? n) && (n <=? 122)) || (n =? 95).
Definition is_digit (c : Ascii.ascii) : bool :=
  let n := Z.of_N (Ascii.N_of_ascii c) in (48 <=? n) && (n <=? 57).

(** Names start with a letter or underscore and go on with these and digits. *)
Fixpoint name_chars (s : string) : bool :=
  match s with
  | EmptyString => true
  | String c s => (is_letter c || is_digit c) && name_chars s
  end.
Definition valid_name (s : string) : bool :=
  match s with
  | EmptyString => false
  | String c s => is_letter c && name_chars s
  end.

Definition str_member (m : list (string * json)) (name : string) : option string := find_member name m ≫= as_string.
Definition int_member (m : list (string * json)) (name : string) : option Z := find_member name m ≫= as_int64.

Definition avro_primitive (type : string) (logical : option string) : option avro_node :=
  if String.eqb type "null" then Some SNull
  else if String.eqb type "boolean" then Some SBool
  else if String.eqb type "int" then
    Some (SInt (if decide (logical = Some "date"%string) then LT_DATE else LT_NONE))
  else if String.eqb type "long" then
    Some (SLong (if decide (logical = Some "time-micros"%string) then LT_TIME_MICROS
                 else if decide (logical = Some "timestamp-micros"%string) then LT_TIMESTAMP_MICROS
                 else if decide (logical = Some "timestamp-nanos"%string) then LT_TIMESTAMP_NANOS
                 else LT_NONE))
  else if String.eqb type "float" then Some SFloat
  else if String.eqb type "double" then Some SDouble
  else if String.eqb type "string" then
    Some (SString (if decide (logical = Some "uuid"%string) then LT_UUID else LT_NONE))
  else if String.eqb type "bytes" then
    if decide (logical = Some "decimal"%string) then None else Some (SBytes LT_NONE)
  else None.

(** A named type must have its name, a fixed its size. *)
Definition avro_fixed (m : list (string * json)) : option avro_node :=
  name ← str_member m "name";
  size ← int_member m "size";
  if valid_name name then
    let logical := str_member m "logicalType" in
    if decide (logical = Some "decimal"%string) then
      precision ← int_member m "precision";
      scale ← int_member m "scale";
      Some (SFixed name size (LT_DECIMAL precision scale))
    else if decide (logical = Some "uuid"%string) then Some (SFixed name size LT_UUID)
    else Some (SFixed name size LT_NONE)
  else None.

(** The meaning of a schema document: a name of a primitive type, a union (of types
    that are no unions), or an object with a member [type]. *)
Fixpoint avro_schema (fuel : nat) (d : json) : option avro_node :=
  match fuel with
  | O => None
  | S fuel =>
      match d with
      | JString type => avro_primitive type None
      | JArray l => if existsb IsArray l then None else SUnion <$> mapM (avro_schema fuel) l
      | JObject m =>
          type ← str_member m "type";
          if String.eqb type "fixed" then avro_fixed m
          else if String.eqb type "array" then items ← find_member "items" m; SArray <$> avro_schema fuel items
          else if String.eqb type "record" then
            name ← str_member m "name";
            fields ← find_member "fields" m;
            match fields with
            | JArray l =>
                fs ← mapM (λ f, match f with
                                | JObject fm =>
                                    n ← str_member fm "name";
                                    t ← find_member "type" fm;
                                    s ← avro_schema fuel t;
                                    if valid_name n then Some (n, s) else None
                                | _ => None
                                end) l;
                if valid_name name && bool_decide (NoDup fs.*1) then Some (SRecord name fs) else None
            | _ => None
            end
          else avro_primitive type (str_member m "logicalType")
      | _ => None
      end
  end.

(** The named types a schema defines; each may be defined once. *)
Fixpoint defined_names (s : avro_node) : list string :=
  match s with
  | SFixed name _ _ => [name]
  | SArray items => defined_names items
  | SRecord name fields => name :: flat_map (λ f, defined_names f.2) fields
  | SUnion branches => flat_map defined_names branches
  | _ => []
  end.

(** A fixed without a name where a schema is expected. *)
Fixpoint nameless_fixed (d : json) : bool :=
  match d with
  | JObject m =>
      let type := str_member m "type" in
      (bool_decide (type = Some "fixed"%string) && bool_decide (find_member "name" m = None)) ||
      existsb (λ e, (String.eqb e.1 "type" || (String.eqb e.1 "items" && bool_decide (type = Some "array"%string)) ||
                     (String.eqb e.1 "fields" && bool_decide (type = Some "record"%string))) && nameless_fixed e.2) m
  | JArray l => existsb nameless_fixed l
  | _ => false
  end.

(** ** Data *)

(** [GenericDatum(schema)]: the first value of the type; a union starts with its
    first branch. *)
Fixpoint GenericDatum (s : avro_node) : datum :=
  match s with
  | SNull => DNull
  | SBool => DBool false
  | SInt lt => DInt lt 0
  | SLong lt => DLong lt 0
  | SFloat => DFloat 0
  | SDouble => DDouble 0
  | SString lt => DString lt ""
  | SBytes lt => DBytes lt []
  | SFixed _ size lt => DFixed lt (replicate (Z.to_nat size) Byte.x00)
  | SArray items => DArray items []
  | SRecord _ fields => DRecord (List.map (λ f, (f.1, GenericDatum f.2)) fields)
  | SUnion branches => DUnion branches 0 match branches with b :: _ => GenericDatum b | [] => DNull end
  end.

(** [type()] and [value()] look through a union. *)
Definition content_of (d : datum) : datum := match d with DUnion _ _ d => d | _ => d end.

Definition selectBranch (k : nat) (d : datum) : result datum :=
  match d with
  | DUnion branches cur x =>
      if decide (k = cur) then Ok d
      else match branches !! k with
           | Some b => Ok (DUnion branches k (GenericDatum b))
           | None => Err (Exn "leafAt: no such branch")
           end
  | _ => Err (Exn "selectBranch: not a union")
  end.

(** [value<T>() = ...], through a union. *)
Definition set_value (f : datum → result datum) (d : datum) : result datum :=
  match d with
  | DUnion branches k x => let! x := f x in Ok (DUnion branches k x)
  | _ => f d
  end.

Definition find_field {A} (name : string) (fields : list (string * A)) : option A :=
  snd <$> List.find (λ f, String.eqb f.1 name) fields.

(** [GenericRecord::field]. *)
Definition record_field (fields : list (string * datum)) (name : string) : result datum :=
  match find_field name fields with Some d => Ok d | None => Err (Exn "Invalid field name: ") end.

(** ** Reading data with a schema *)

(** [d], written with schema [w], as a reader with schema [r] gets it: records by
    the names of the fields, optional values as such, the logical types those of
    the reader. *)
Fixpoint read_as (d : datum) (w r : avro_node) : option datum :=
  match d, w, r with
  | DNull, SNull, SNull => Some DNull
  | DBool b, SBool, SBool => Some (DBool b)
  | DInt _ v, SInt _, SInt lt => if is_i32 v then Some (DInt lt v) else None
  | DLong _ v, SLong _, SLong lt => if is_i64 v then Some (DLong lt v) else None
  | DFloat v, SFloat, SFloat => Some (DFloat v)
  | DDouble v, SDouble, SDouble => Some (DDouble v)
  | DString _ s, SString _, SString lt => Some (DString lt s)
  | DBytes _ b, SBytes _, SBytes lt => Some (DBytes lt b)
  | DFixed _ b, SFixed wn ws _, SFixed rn rs lt =>
      if bool_decide (wn = rn ∧ ws = rs ∧ Z.of_nat (length b) = ws) then Some (DFixed lt b) else None
  | DArray _ l, SArray wi, SArray ri => DArray ri <$> mapM (λ x, read_as x wi ri) l
  | DRecord fs, SRecord wn wfs, SRecord rn rfs =>
      if bool_decide (wn = rn ∧ fs.*1 = wfs.*1) then
        let parts := List.map (λ f, (f.1, read_as f.2)) fs in
        if forallb (λ p, match p with ((_, rd), (_, s)) => bool_decide (is_Some (rd s s)) end) (zip parts wfs) then
          DRecord <$> mapM (λ rf, rd ← find_field rf.1 parts; s ← find_field rf.1 wfs;
                                  y ← rd s rf.2; Some (rf.1, y)) rfs
        else None
      else None
  | DUnion _ 0 DNull, SUnion [SNull; _], SUnion [SNull; rb] => Some (DUnion [SNull; rb] 0 DNull)
  | DUnion _ 1 x, SUnion [SNull; wb], SUnion [SNull; rb] => DUnion [SNull; rb] 1 <$> read_as x wb rb
  | _, _, _ => None
  end.

(** ** The library *)

(** An open [DataFileReader]. *)
Record avro_reader := {
  dataSchema : avro_node;
  readerSchema : avro_node;
  file_metadata : gmap string bytes;
  datums : stream datum;
}.

(** The entries a writer adds to the metadata. *)
Definition own_metadata (m : gmap string bytes) : Prop :=
  ∀ k, is_Some (m !! k) → k = "avro.schema"%string ∨ k = "avro.codec"%string.

Class Avro `{RapidJson} := {
  compileJsonSchemaFromString : string → result avro_node;
  DataFileWriter : avro_node → gmap string bytes → list datum → string;      (** the whole file *)
  DataFileReader : string → option avro_node → result avro_reader;
  compile_meaning : ∀ text s,
    avro_schema (json_depth (Parse text)) (Parse text) = Some s → NoDup (defined_names s) →
    compileJsonSchemaFromString text = Ok s;
  compile_nameless : ∀ text,
    avro_schema (json_depth (Parse text)) (Parse text) = None → nameless_fixed (Parse text) = true →
    ∃ e, compileJsonSchemaFromString text = Err e;
  read_written : ∀ w md ds r ds',
    mapM (λ d, read_as d w (default w r)) ds = Some ds' →
    ∃ own, own_metadata own ∧
      DataFileReader (DataFileWriter w md ds) r =
      Ok {| dataSchema := w; readerSchema := default w r; file_metadata := own ∪ md; datums := of_list ds' |};
}.
