(* ===== verification/AvroSchema.v ===== *)
(** * AvroSchema: schemas the program builds, and their text

    [iceavro::Node] and [iceavro::ToJsonString] of [iceberg/avro_schema.cpp]: a
    schema under construction, printed as JSON for the Avro library to compile.
    The theorems relate the text to the schema it means to Avro ([schema_of]). *)

From stdpp Require Import base list strings pretty.
From Stdlib Require Import ZArith Lia.
From S2P Require Import Prelude Bytes CxxText Scalars Json Avro.

Local Open Scope Z_scope.

(** The nodes, with their optional field ids (which are not printed). *)
Unset Elimination Schemes.
Inductive Node :=
| BoolNode (field_id : option Z) | IntNode (field_id : option Z) | LongNode (field_id : option Z)
| FloatNode (field_id : option Z) | DoubleNode (field_id : option Z) | DateNode (field_id : option Z)
| TimeNode (field_id : option Z) | TimestampNode (field_id : option Z) | TimestamptzNode (field_id : option Z)
| TimestampNsNode (field_id : option Z) | TimestamptzNsNode (field_id : option Z)
| DecimalNode (precision scale : Z) (field_id : option Z)
| StringNode (field_id : option Z) | BytesNode (field_id : option Z)
| FixedNode (size : Z) (field_id : option Z) | UuidNode (field_id : option Z)
| OptionalNode (child : Node) (field_id : option Z)
| ArrayNode (element : Node) (field_id element_id : option Z)
| RecordNode (name : string) (field_id : option Z) (fields : list (string * Node)).
Set Elimination Schemes.

(** [RecordNode::AddField]. *)
Definition AddField (node : Node) (name : string) (field : Node) : Node :=
  match node with
  | RecordNode n id fields => RecordNode n id (fields ++ [(name, field)])
  | _ => node
  end.

Definition MinimumBytesToStoreDecimal (precision : Z) : result Z :=
  let! _ := Ensure (precision <=? 38) "MinimumBytesToStoreDecimal: precision is greater than 38 is not supported" in
  let! _ := Ensure (0 <? precision) "MinimumBytesToStoreDecimal: precision is less than or equal to 0 is not supported" in
  Ok (DecimalSize precision).

(** ** The serializer *)

(** [AddMember] on an object; names and strings go through [c_str]. *)
Definition AddMember (result : json) (name : string) (value : json) : json :=
  match result with
  | JObject m => JObject (m ++ [(c_str name, value)])
  | _ => result
  end.

Definition EraseMember (d : json) (name : string) : json :=
  match d with
  | JObject m =>
      JObject ((fix erase m := match m with
                               | [] => []
                               | e :: m => if String.eqb e.1 name then m else e :: erase m
                               end) m)
  | _ => d
  end.

Definition object : json := JObject [].
Definition str (s : string) : json := Serialize_string s.

(** The object [{"type": value}]. *)
Definition typed (value : json) : json := AddMember object "type" value.

Definition logical (type name : string) : json :=
  AddMember (AddMember object "type" (str type)) "logicalType" (str name).

Fixpoint Serialize (node : Node) : result json :=
  match node with
  | BoolNode _ => Ok (typed (str "boolean"))
  | IntNode _ => Ok (typed (str "int"))
  | FloatNode _ => Ok (typed (str "float"))
  | DoubleNode _ => Ok (typed (str "double"))
  | DateNode _ => Ok (typed (logical "int" "date"))
  | FixedNode size _ => Ok (typed (AddMember (AddMember object "type" (str "fixed")) "size" (JInt size)))
  | UuidNode _ =>
      Ok (typed (AddMember (AddMember (AddMember (AddMember object "type" (str "fixed")) "name" (str "uuid_fixed"))
                              "size" (JInt 16)) "logicalType" (str "uuid")))
  | TimeNode _ => Ok (typed (logical "long" "time-micros"))
  | TimestampNode _ => Ok (typed (AddMember (logical "long" "timestamp-micros") "adjust-to-utc" (JBool false)))
  | TimestamptzNode _ => Ok (typed (AddMember (logical "long" "timestamp-micros") "adjust-to-utc" (JBool true)))
  | TimestampNsNode _ => Ok (typed (AddMember (logical "long" "timestamp-nanos") "adjust-to-utc" (JBool false)))
  | TimestamptzNsNode _ => Ok (typed (AddMember (logical "long" "timestamp-nanos") "adjust-to-utc" (JBool true)))
  | DecimalNode precision scale _ =>
      let! size := MinimumBytesToStoreDecimal precision in
      let t := AddMember object "type" (str "fixed") in
      let t := AddMember t "size" (JInt size) in
      let t := AddMember t "name" (str ("decimal_" ++ pretty precision ++ "_" ++ pretty scale)) in
      let t := AddMember t "logicalType" (str "decimal") in
      let t := AddMember t "precision" (JInt precision) in
      let t := AddMember t "scale" (JInt scale) in
      Ok (typed t)
  | LongNode _ => Ok (typed (str "long"))
  | StringNode _ => Ok (typed (str "string"))
  | BytesNode _ => Ok (typed (str "bytes"))
  | RecordNode name _ fields =>
      let! fs := map_ok (λ f,
                   let! field_value := Serialize f.2 in
                   let! _ := Ensure (IsObject field_value) "internal error. Field must be an object" in
                   Ok (AddMember field_value "name" (str f.1))) fields in
      let t := AddMember object "type" (str "record") in
      let t := AddMember t "name" (str name) in
      Ok (typed (AddMember t "fields" (JArray fs)))
  | OptionalNode child _ =>
      let! result := Serialize child in
      let! _ := Ensure (IsObject result) "internal error. OptionalNode child must be an object" in
      let! has := HasMember result "type" in
      let! _ := Ensure has "internal error. OptionalNode child must has field 'type'" in
      let! type := get_member result "type" in
      let possible_types := JArray [JString "null"; type] in
      let result := EraseMember result "type" in
      Ok (AddMember (AddMember result "type" possible_types) "default" JNull)
  | ArrayNode element _ _ =>
      let! element := Serialize element in
      let! _ := Ensure (IsObject element) "internal error. ArrayNode element must be an object" in
      let! has := HasMember element "type" in
      let! _ := Ensure has "internal error. ArrayNode element must has field 'type'" in
      let! items := get_member element "type" in
      Ok (typed (AddMember (AddMember object "items" items) "type" (str "array")))
  end.

Definition ToJsonString `{RapidJson} (node : Node) : result string :=
  let! json_node := Serialize node in
  let! _ := Ensure (IsObject json_node) "internal error. Node must be an object" in
  let! has := HasMember json_node "type" in
  let! _ := Ensure has "internal error. Node must has field 'type'" in
  let! val := get_member json_node "type" in
  Ok (PrettyWrite val).

(** ** What the nodes stand for *)

Definition decimal_name (precision scale : Z) : string := "decimal_" ++ pretty precision ++ "_" ++ pretty scale.

Fixpoint schema_of (node : Node) : avro_node :=
  match node with
  | BoolNode _ => SBool
  | IntNode _ => SInt LT_NONE
  | LongNode _ => SLong LT_NONE
  | FloatNode _ => SFloat
  | DoubleNode _ => SDouble
  | DateNode _ => SInt LT_DATE
  | TimeNode _ => SLong LT_TIME_MICROS
  | TimestampNode _ | TimestamptzNode _ => SLong LT_TIMESTAMP_MICROS
  | TimestampNsNode _ | TimestamptzNsNode _ => SLong LT_TIMESTAMP_NANOS
  | DecimalNode p s _ => SFixed (decimal_name p s) (DecimalSize p) (LT_DECIMAL p s)
  | StringNode _ => SString LT_NONE
  | BytesNode _ => SBytes LT_NONE
  | FixedNode size _ => SFixed "" size LT_NONE
  | UuidNode _ => SFixed "uuid_fixed" 16 LT_UUID
  | OptionalNode child _ => SUnion [SNull; schema_of child]
  | ArrayNode element _ _ => SArray (schema_of element)
  | RecordNode name _ fields => SRecord name (List.map (λ f, (f.1, schema_of f.2)) fields)
  end.

(** Nodes whose text is a schema: decimals of a supported precision, valid and
    distinct names, no option of an option, no fixed type (which is printed without a name). *)
Fixpoint node_ok (node : Node) : bool :=
  match node with
  | DecimalNode p s _ => (0 <? p) && (p <=? 38) && (0 <=? s) && is_i32 s
  | FixedNode _ _ => false
  | OptionalNode child _ => node_ok child && match child with OptionalNode _ _ => false | _ => true end
  | ArrayNode element _ _ => node_ok element
  | RecordNode name _ fields =>
      valid_name name && forallb (λ f, valid_name f.1) fields && bool_decide (NoDup fields.*1) &&
      forallb (λ f, node_ok f.2) fields
  | _ => true
  end.

(** ** Names *)

Lemma name_chars_app s t : name_chars (s +:+ t) = name_chars s && name_chars t.
Proof. induction s as [|c s IH]; [done|]. rewrite append_cons. cbn [name_chars]. by rewrite IH, andb_assoc. Qed.

Lemma digit_char d : (d < 10)%N → is_digit (pretty_N_char d) = true.
Proof.
  intros Hd. assert (Hin : d ∈ [0;1;2;3;4;5;6;7;8;9]%N) by (rewrite !elem_of_cons; lia).
  repeat (apply elem_of_cons in Hin as [->|Hin]; [done|]). by apply elem_of_nil in Hin.
Qed.

Lemma name_chars_go x : ∀ s, name_chars s = true → name_chars (pretty_N_go x s) = true.
Proof.
  induction (N.lt_wf_0 x) as [x _ IH]. intros s Hs.
  destruct (decide (x = 0)%N) as [->|Hx]; [by rewrite pretty_N_go_0|].
  rewrite pretty_N_go_step by lia. pose proof (N.div_lt x 10 ltac:(lia) ltac:(lia)).
  apply IH; [done|]. cbn [name_chars]. pose proof (N.mod_lt x 10 ltac:(lia)).
  by rewrite digit_char, orb_true_r, Hs.
Qed.

Lemma name_chars_pretty z : 0 ≤ z → name_chars (pretty z) = true.
Proof.
  intros Hz. assert (Hn : ∀ n : N, name_chars (pretty n) = true).
  { intros n. unfold pretty, pretty_N. case_decide; [done|]. by apply name_chars_go. }
  destruct z as [|p|p]; [apply (Hn 0%N)|apply (Hn (Npos p))|lia].
Qed.

Lemma valid_decimal_name p s : 0 ≤ p → 0 ≤ s → valid_name (decimal_name p s) = true.
Proof.
  intros Hp Hs. unfold decimal_name. change (valid_name ("decimal_" +:+ ?t)) with (name_chars ("ecimal_" +:+ t)).
  rewrite !name_chars_app, !name_chars_pretty by done. done.
Qed.

Lemma name_chars_c_str s : name_chars s = true → c_str s = s.
Proof.
  induction s as [|c s IH]; [done|]. cbn [name_chars c_str]. intros [Hc Hs]%andb_true_iff.
  destruct (Ascii.eqb_spec c Ascii.zero) as [->|_]; [done|]. by rewrite IH.
Qed.

Lemma valid_name_c_str s : valid_name s = true → c_str s = s.
Proof.
  intros Hs. apply name_chars_c_str. destruct s as [|c s]; [done|]. simpl in *.
  apply andb_true_iff in Hs as [-> ->]. done.
Qed.

(** ** Induction on nodes *)

Definition is_leaf (node : Node) : bool :=
  match node with OptionalNode _ _ | ArrayNode _ _ _ | RecordNode _ _ _ => false | _ => true end.

Section Node_ind.
Context (P : Node → Prop)
  (Hleaf : ∀ node, is_leaf node = true → P node)
  (Hoptional : ∀ child id, P child → P (OptionalNode child id))
  (Harray : ∀ element id eid, P element → P (ArrayNode element id eid))
  (Hrecord : ∀ name id fields, Forall (λ f, P f.2) fields → P (RecordNode name id fields)).

Fixpoint Node_ind (node : Node) : P node :=
  match node with
  | OptionalNode child id => Hoptional child id (Node_ind child)
  | ArrayNode element id eid => Harray element id eid (Node_ind element)
  | RecordNode name id fields =>
      Hrecord name id fields
        ((fix go fields : Forall (λ f, P f.2) fields :=
            match fields with
            | [] => Forall_nil_2 _
            | f :: fields => Forall_cons_2 _ _ _ (Node_ind f.2) (go fields)
            end) fields)
  | node => Hleaf node eq_refl
  end.
End Node_ind.

(** ** The text means the schema *)

Lemma avro_schema_S f d :
  avro_schema (S f) d =
  match d with
  | JString type => avro_primitive type None
  | JArray l => if existsb IsArray l then None else SUnion <$> mapM (avro_schema f) l
  | JObject m =>
      type ← str_member m "type";
      if String.eqb type "fixed" then avro_fixed m
      else if String.eqb type "array" then items ← find_member "items" m; SArray <$> avro_schema f items
      else if String.eqb type "record" then
        name ← str_member m "name";
        fields ← find_member "fields" m;
        match fields with
        | JArray l =>
            fs ← mapM (λ x, match x with
                            | JObject fm =>
                                n ← str_member fm "name"; t ← find_member "type" fm; s ← avro_schema f t;
                                if valid_name n then Some (n, s) else None
                            | _ => None
                            end) l;
            if valid_name name && bool_decide (NoDup fs.*1) then Some (SRecord name fs) else None
        | _ => None
        end
      else avro_primitive type (str_member m "logicalType")
  | _ => None
  end.
Proof. reflexivity. Qed.

(** [d] means [s], whatever the fuel from its depth on. *)
Definition means (d : json) (s : avro_node) : Prop := ∀ fuel, (json_depth d ≤ fuel)%nat → avro_schema fuel d = Some s.

(** A printed node: an object with one member [type], and [default] for an option. *)
Definition printed (d : json) (node : Node) : Prop :=
  ∃ t, d = JObject (("type"%string, t) :: match node with OptionalNode _ _ => [("default"%string, JNull)] | _ => [] end) ∧
       exact t = true ∧ means t (schema_of node) ∧ (IsArray t = match node with OptionalNode _ _ => true | _ => false end).

Lemma means_S d s : (∀ f, avro_schema (S f) d = Some s) → means d s.
Proof. intros H [|f] Hf; [destruct d; simpl in Hf; lia|done]. Qed.

Lemma decimal_size_range p : 0 < p → p ≤ 38 → 1 ≤ DecimalSize p ≤ 16.
Proof.
  intros H1 H2. assert (Hin : p ∈ seqZ 1 38) by (apply elem_of_seqZ; lia).
  assert (Hall : forallb (λ p, (1 <=? DecimalSize p) && (DecimalSize p <=? 16)) (seqZ 1 38) = true) by reflexivity.
  rewrite forallb_forall in Hall. specialize (Hall p). rewrite andb_true_iff, !Z.leb_le in Hall.
  apply Hall. by apply list_elem_of_In.
Qed.

(** Primitive and fixed types. *)
Lemma leaf_printed node : is_leaf node = true → node_ok node = true → ∃ d, Serialize node = Ok d ∧ printed d node.
Proof.
  destruct node; try discriminate; intros _ Hok;
    try (eexists; split; [reflexivity|]; eexists; split; [reflexivity|]; split; [reflexivity|];
         split; [apply means_S; intros; reflexivity|reflexivity]).
  cbn [node_ok] in Hok. rewrite !andb_true_iff in Hok. destruct Hok as [[[Hp1 Hp2] Hs] Hs2].
  apply Z.ltb_lt in Hp1. apply Z.leb_le in Hp2, Hs.
  pose proof (decimal_size_range precision Hp1 Hp2) as Hsize. pose proof (valid_decimal_name precision scale) as Hname.
  cbn [Serialize]. unfold MinimumBytesToStoreDecimal.
  rewrite (proj2 (Z.leb_le _ _) Hp2), (proj2 (Z.ltb_lt _ _) Hp1). cbn [Ensure rbind].
  change ("decimal_" +:+ pretty precision +:+ "_" +:+ pretty scale) with (decimal_name precision scale).
  specialize (Hname ltac:(lia) Hs). unfold str, Serialize_string at 2. rewrite (valid_name_c_str _ Hname).
  assert (Hi : ∀ v, 0 ≤ v ≤ 16 ∨ v = precision ∨ v = scale → is_i64 v = true).
  { intros v Hv. unfold is_i32, is_i64 in *. unfold_ints. rewrite andb_true_iff, !Z.leb_le in *. lia. }
  eexists. split; [reflexivity|]. eexists. split; [reflexivity|]. cbn [node_ok schema_of].
  split; [|split; [|reflexivity]].
  - assert (Hx : ∀ v, 0 ≤ v ≤ 16 ∨ v = precision ∨ v = scale → (int64_min <=? v) && (v <=? uint64_max) = true).
    { intros v Hv. apply Hi in Hv. unfold is_i64 in Hv. unfold_ints. unfold uint64_max. rewrite andb_true_iff, !Z.leb_le in *. lia. }
    cbn -[Z.leb int64_min uint64_max decimal_name DecimalSize]. rewrite !Hx by lia. done.
  - apply means_S. intros f. rewrite avro_schema_S. unfold avro_fixed, str_member, int_member. cbn -[decimal_name is_i64 DecimalSize].
    rewrite Hname, !Hi by lia. done.
Qed.

Lemma json_depth_pos d : (1 ≤ json_depth d)%nat.
Proof. destruct d; simpl; lia. Qed.

Lemma optional_printed d child id :
  match child with OptionalNode _ _ => false | _ => true end = true →
  Serialize child = Ok d → printed d child →
  ∃ d', Serialize (OptionalNode child id) = Ok d' ∧ printed d' (OptionalNode child id).
Proof.
  intros Hc E (t & -> & Hx & Hm & Ha). cbn [Serialize]. rewrite E. cbn [rbind].
  destruct child; try discriminate Hc; change (IsArray t = false) in Ha; eexists; (split; [reflexivity|]);
    exists (JArray [JString "null"; t]); (split; [reflexivity|]);
    (split; [cbn; by rewrite Hx|]); (split; [|reflexivity]); intros [|f] Hf; try (simpl in Hf; lia);
    rewrite avro_schema_S; cbn [existsb]; rewrite Ha; cbn [orb IsArray];
    pose proof (json_depth_pos t); (destruct f as [|f]; [simpl in Hf; lia|]);
    cbn [mapM mbind option_bind]; rewrite (Hm (S f)) by (simpl in Hf; lia); reflexivity.
Qed.

Lemma array_printed d element id eid :
  Serialize element = Ok d → printed d element →
  ∃ d', Serialize (ArrayNode element id eid) = Ok d' ∧ printed d' (ArrayNode element id eid).
Proof.
  intros E (t & -> & Hx & Hm & _). cbn [Serialize]. rewrite E. cbn [rbind].
  exists (typed (JObject [("items"%string, t); ("type"%string, JString "array")])). split; [by destruct element|].
  eexists. split; [reflexivity|]. split; [cbn; by rewrite Hx|]. split; [|reflexivity]. intros [|f] Hf; [simpl in Hf; lia|].
  rewrite avro_schema_S. cbn -[avro_schema]. rewrite Hm by (simpl in Hf; lia). done.
Qed.

Lemma field_printed n node d :
  valid_name n = true → printed d node →
  ∃ fm t, AddMember d "name" (str n) = JObject fm ∧ str_member fm "name" = Some n ∧ find_member "type" fm = Some t ∧
    exact (JObject fm) = true ∧ means t (schema_of node) ∧ (json_depth t < json_depth (JObject fm))%nat.
Proof.
  intros Hn (t & -> & Hx & Hm & _). unfold str, Serialize_string. rewrite valid_name_c_str by done.
  eexists _, t. split; [reflexivity|]. destruct node; cbn -[json_depth foldr]; rewrite ?Hx;
    (repeat split; [done|simpl; lia]).
Qed.

(** The fields of a record, printed and read back. *)
Lemma fields_printed (fields : list (string * Node)) :
  forallb (λ f, valid_name f.1) fields = true →
  Forall (λ f, ∃ d, Serialize f.2 = Ok d ∧ printed d f.2) fields →
  ∃ fs, map_ok (λ f, let! field_value := Serialize f.2 in
                     let! _ := Ensure (IsObject field_value) "internal error. Field must be an object" in
                     Ok (AddMember field_value "name" (str f.1))) fields = Ok fs ∧
    exact (JArray fs) = true ∧
    ∀ fuel, (json_depth (JArray fs) ≤ S fuel)%nat →
      mapM (λ x, match x with
                 | JObject fm =>
                     n ← str_member fm "name"; t ← find_member "type" fm; s ← avro_schema fuel t;
                     if valid_name n then Some (n, s) else None
                 | _ => None
                 end) fs = Some (List.map (λ f, (f.1, schema_of f.2)) fields).
Proof.
  intros Hv H. induction H as [|[n node] fields (d & Ed & Hd) _ IH]; [by exists []|]. cbn [snd] in Ed, Hd.
  cbn [forallb fst] in Hv. apply andb_true_iff in Hv as [Hn Hv]. destruct (IH Hv) as (fs & Efs & Hx & Hm).
  destruct (field_printed n node d Hn Hd) as (fm & t & Ea & E1 & E2 & Hxm & Ht & Hdepth).
  exists (JObject fm :: fs). cbn [map_ok snd fst]. rewrite Ed. cbn [rbind].
  assert (IsObject d = true) as -> by (by destruct Hd as (? & -> & _)). cbn [Ensure rbind].
  rewrite Efs. cbn [rbind]. rewrite Ea. split; [done|]. split; [cbn [exact forallb]; apply andb_true_iff; done|].
  intros fuel Hf. cbn [mapM]. rewrite E1, E2. cbn [mbind option_bind].
  assert (json_depth (JObject fm) ≤ fuel ∧ json_depth (JArray fs) ≤ S fuel)%nat as [H1 H2].
  { change (json_depth (JArray (JObject fm :: fs))) with (S (max (json_depth (JObject fm)) (pred (json_depth (JArray fs))))) in Hf.
    pose proof (json_depth_pos (JArray fs)). lia. }
  rewrite (Ht fuel) by lia. cbn [mbind option_bind]. rewrite Hn. rewrite (Hm fuel H2). done.
Qed.

Lemma node_printed node : node_ok node = true → ∃ d, Serialize node = Ok d ∧ printed d node.
Proof.
  induction node as [node Hl|child id IH|element id eid IH|name id fields IH] using Node_ind.
  - by apply leaf_printed.
  - cbn [node_ok]. intros [Hok Hc]%andb_true_iff. destruct (IH Hok) as (d & E & Hd). by eapply optional_printed.
  - cbn [node_ok]. intros Hok. destruct (IH Hok) as (d & E & Hd). by eapply array_printed.
  - cbn [node_ok]. rewrite !andb_true_iff. intros [[[Hn Hfn] Hnd] Hok]. apply bool_decide_eq_true in Hnd.
    rewrite forallb_forall in Hok.
    destruct (fields_printed fields Hfn) as (fs & E & Hx & Hm).
    { apply Forall_forall. intros f Hf. rewrite Forall_forall in IH. apply IH; [done|].
      apply Hok. by apply list_elem_of_In. }
    cbn [Serialize]. rewrite E. cbn [rbind]. unfold str, Serialize_string. rewrite (valid_name_c_str name) by done.
    pose (m := [("type", JString "record"); ("name", JString name); ("fields", JArray fs)]%string).
    exists (JObject [("type"%string, JObject m)]). split; [reflexivity|]. exists (JObject m). split; [reflexivity|].
    split; [|split; [|done]].
    + change (true && (true && (exact (JArray fs) && true)) = true). by rewrite Hx.
    + intros [|f] Hf; [simpl in Hf; lia|]. rewrite avro_schema_S.
      assert (str_member m "type" = Some "record"%string ∧ str_member m "name" = Some name ∧
              find_member "fields" m = Some (JArray fs)) as (-> & -> & ->) by done.
      cbn [mbind option_bind String.eqb Ascii.eqb Bool.eqb]. rewrite Hm; [|simpl in Hf; simpl; lia].
      cbn [mbind option_bind]. rewrite Hn, bool_decide_eq_true_2; [done|].
      replace (List.map _ fields).*1 with fields.*1; [done|]. clear. induction fields; simpl; by f_equal.
Qed.

(** The text of a node that is well-formed: the Avro specification gives it the
    meaning the node stands for. *)
Theorem ToJsonString_means `{RapidJson} node :
  node_ok node = true →
  ∃ text, ToJsonString node = Ok text ∧ avro_schema (json_depth (Parse text)) (Parse text) = Some (schema_of node).
Proof.
  intros Hok. destruct (node_printed node Hok) as (d & E & t & -> & Hx & Hm & _). unfold ToJsonString. rewrite E.
  cbn [rbind IsObject Ensure HasMember find_member]. exists (PrettyWrite t).
  split; [by destruct node|]. rewrite parse_pretty by done. by apply Hm.
Qed.

(** A fixed type is printed without the name that Avro requires. *)
Lemma fixed_nameless size id : ∃ t, Serialize (FixedNode size id) = Ok (typed t) ∧ nameless_fixed t = true.
Proof. by eexists. Qed.
