(* ===== verification/AvroFacts.v ===== *)
(** * AvroFacts: reading back what was written

    Lemmas on [Avro.read_as]: a datum that is [canon] for its schema is read back
    as it is, and with a record schema of fewer fields the fields of that schema. *)

From stdpp Require Import base list strings gmap.
From Stdlib Require Import ZArith Lia.
From S2P Require Import Prelude Bytes Json Streams Avro.

Local Open Scope Z_scope.

(** ** Fields *)

Lemma find_field_cons {A} name n (a : A) l :
  find_field name ((n, a) :: l) = if String.eqb n name then Some a else find_field name l.
Proof. unfold find_field. simpl. by destruct (String.eqb n name). Qed.

Lemma find_field_app {A} name (l1 l2 : list (string * A)) :
  find_field name (l1 ++ l2) = match find_field name l1 with Some a => Some a | None => find_field name l2 end.
Proof.
  induction l1 as [|[n a] l1 IH]; [done|]. rewrite <- app_comm_cons, !find_field_cons. by destruct (String.eqb n name).
Qed.

Lemma find_field_elem {A} name (l : list (string * A)) a : find_field name l = Some a → (name, a) ∈ l.
Proof.
  induction l as [|[n b] l IH]; [done|]. rewrite find_field_cons. destruct (String.eqb_spec n name) as [->|].
  - intros [= ->]. apply elem_of_cons. by left.
  - intros. apply elem_of_cons. auto.
Qed.

Lemma find_field_NoDup {A} name (l : list (string * A)) a :
  NoDup l.*1 → (name, a) ∈ l → find_field name l = Some a.
Proof.
  induction l as [|[n b] l IH]; simpl; [intros _ H; by apply elem_of_nil in H|].
  rewrite NoDup_cons, elem_of_cons, find_field_cons. intros [Hn Hnd] [[= -> ->]|Hin].
  - by rewrite String.eqb_refl.
  - destruct (String.eqb_spec n name) as [->|]; [|by apply IH].
    destruct Hn. apply list_elem_of_fmap. by exists (name, a).
Qed.

Lemma find_field_map {A B} (f : string → A → B) name (l : list (string * A)) :
  find_field name (List.map (λ e, (e.1, f e.1 e.2)) l) = f name <$> find_field name l.
Proof.
  induction l as [|[n a] l IH]; [done|]. cbn [List.map fst snd]. rewrite !find_field_cons.
  destruct (String.eqb_spec n name) as [->|]; done.
Qed.

Lemma find_field_names {A B} name (l : list (string * A)) (l' : list (string * B)) :
  l.*1 = l'.*1 → is_Some (find_field name l) ↔ is_Some (find_field name l').
Proof.
  revert l'. induction l as [|[n a] l IH]; intros [|[n' b] l']; simpl; try done; [split; intros [? [=]]|].
  intros [= <- E]. rewrite !find_field_cons. destruct (String.eqb n name); [split; eauto|]. by apply IH.
Qed.

(** ** Reading *)

(** A datum that the reader gets back unchanged. *)
Definition canon (d : datum) (s : avro_node) : Prop := read_as d s s = Some d.

(** The fields of a record, each canonical for the schema of its name. *)
Definition canon_fields (fs : list (string * datum)) (ss : list (string * avro_node)) : Prop :=
  Forall2 (λ f s, f.1 = s.1 ∧ canon f.2 s.2) fs ss.

Lemma canon_fields_names fs ss : canon_fields fs ss → fs.*1 = ss.*1.
Proof. induction 1 as [|f s fs ss [E _] _ IH]; [done|]. simpl. rewrite E. f_equal. exact IH. Qed.

Lemma canon_fields_find fs ss name s :
  canon_fields fs ss → find_field name ss = Some s → ∃ x, find_field name fs = Some x ∧ canon x s.
Proof.
  induction 1 as [|[n x] [n' s'] fs ss [E Hc] _ IH]; [done|]. simpl in E, Hc. subst n'. rewrite !find_field_cons.
  destruct (String.eqb n name); [|done]. intros [= ->]. eauto.
Qed.

(** What is read of the fields [fs], written with [ss], by a reader with [rfs]. *)
Definition read_fields (fs : list (string * datum)) (ss rfs : list (string * avro_node)) : option (list (string * datum)) :=
  mapM (λ rf, x ← find_field rf.1 fs; s ← find_field rf.1 ss; y ← read_as x s rf.2; Some (rf.1, y)) rfs.

Lemma read_as_record fs n ss rfs :
  canon_fields fs ss → read_as (DRecord fs) (SRecord n ss) (SRecord n rfs) = DRecord <$> read_fields fs ss rfs.
Proof.
  intros Hc. cbn [read_as]. rewrite bool_decide_eq_true_2 by (split; [done|by apply canon_fields_names]).
  assert (forallb (λ p, match p with ((_, rd), (_, s)) => bool_decide (is_Some (rd s s)) end)
            (zip (List.map (λ f : string * datum, (f.1, read_as f.2)) fs) ss) = true) as ->.
  { induction Hc as [|[n1 x] [n2 s] fs ss [_ Hx] _ IH]; [done|]. simpl. rewrite bool_decide_eq_true_2; [done|].
    by exists x. }
  f_equal. unfold read_fields. induction rfs as [|[m r] rfs IH]; [done|]. cbn [mapM fst snd].
  rewrite IH. rewrite (find_field_map (λ _, read_as)). by destruct (find_field m fs).
Qed.

(** The fields of [fs] that [rfs] names. *)
Definition restrict (rfs : list (string * avro_node)) (fs : list (string * datum)) : list (string * datum) :=
  omap (λ rf, pair rf.1 <$> find_field rf.1 fs) rfs.

Lemma read_fields_sub fs ss rfs :
  canon_fields fs ss → NoDup ss.*1 → rfs ⊆ ss → read_fields fs ss rfs = Some (restrict rfs fs).
Proof.
  intros Hc Hnd. unfold read_fields. induction rfs as [|[m r] rfs IH]; intros Hsub; [done|]. cbn [mapM].
  assert (Hm : find_field m ss = Some r) by (apply find_field_NoDup; [done|apply Hsub, elem_of_cons; by left]).
  destruct (canon_fields_find fs ss m r Hc Hm) as (x & Hx & Hcx). cbn [fst snd]. rewrite Hx, Hm. cbn [mbind option_bind].
  rewrite Hcx. cbn [mbind option_bind]. rewrite IH by (intros e He; apply Hsub, elem_of_cons; by right).
  unfold restrict. cbn [omap list_omap fst]. by rewrite Hx.
Qed.

Lemma find_field_restrict name rfs fs :
  find_field name (restrict rfs fs) = match find_field name rfs with Some _ => find_field name fs | None => None end.
Proof.
  induction rfs as [|[m r] rfs IH]; [done|]. unfold restrict in *. cbn [omap list_omap fst].
  rewrite find_field_cons. destruct (find_field m fs) as [x|] eqn:Hm; cbn [fmap option_fmap option_map].
  - change (fmap (M := option) ?f (Some ?x)) with (Some (f x)). cbv iota. rewrite find_field_cons. destruct (String.eqb_spec m name) as [->|]; done.
  - destruct (String.eqb_spec m name) as [->|]; [|done]. rewrite IH, Hm. by destruct (find_field name rfs).
Qed.

Lemma restrict_self fs ss : canon_fields fs ss → NoDup ss.*1 → restrict ss fs = fs.
Proof.
  intros Hc. induction Hc as [|[n x] [n' s] fs ss [E Hx] Hc IH]; [done|]. simpl in E. subst n'.
  cbn [fmap list_fmap]. rewrite NoDup_cons. intros [Hn Hnd]. unfold restrict. cbn [omap list_omap fst].
  rewrite find_field_cons, String.eqb_refl.
  change (fmap (M := option) ?f (Some ?x)) with (Some (f x)). cbv iota. f_equal. trans (restrict ss fs); [|by apply IH]. unfold restrict.
  clear -Hn. induction ss as [|[m r] ss IH]; [done|]. cbn [omap list_omap fst].
  rewrite find_field_cons. destruct (String.eqb_spec n m) as [->|]; [by destruct Hn; left|].
  rewrite IH; [done|]. intros Hin. apply Hn. by right.
Qed.

(** A record of canonical fields is canonical. *)
Lemma canon_record fs n ss : canon_fields fs ss → NoDup ss.*1 → canon (DRecord fs) (SRecord n ss).
Proof.
  intros Hc Hnd. unfold canon. rewrite read_as_record, read_fields_sub by done. cbn. by rewrite restrict_self with (ss := ss).
Qed.

Lemma canon_array l s : Forall (λ x, canon x s) l → canon (DArray s l) (SArray s).
Proof.
  intros Hl. unfold canon. cbn [read_as]. replace (mapM _ l) with (Some l); [done|].
  induction Hl as [|x l Hx _ IH]; [done|]. cbn [mapM]. rewrite Hx. cbn [mbind option_bind]. by rewrite <- IH.
Qed.

Lemma canon_none s : canon (DUnion [SNull; s] 0 DNull) (SUnion [SNull; s]).
Proof. done. Qed.
Lemma canon_some d s : canon d s → canon (DUnion [SNull; s] 1 d) (SUnion [SNull; s]).
Proof. unfold canon. cbn [read_as]. by intros ->. Qed.

Lemma canon_int lt v : in_i32 v → canon (DInt lt v) (SInt lt).
Proof.
  intros Hv. pose proof (as_int32_ok v Hv) as E. unfold as_int32 in E. unfold canon. cbn [read_as].
  by destruct (is_i32 v).
Qed.
Lemma canon_long lt v : in_i64 v → canon (DLong lt v) (SLong lt).
Proof.
  intros Hv. pose proof (as_int64_ok v Hv) as E. unfold as_int64 in E. unfold canon. cbn [read_as].
  by destruct (is_i64 v).
Qed.
Lemma canon_fixed lt b name size : Z.of_nat (length b) = size → canon (DFixed lt b) (SFixed name size lt).
Proof. intros Hb. unfold canon. cbn [read_as]. by rewrite bool_decide_eq_true_2. Qed.

Create HintDb avro.
#[export] Hint Resolve canon_none canon_some canon_int canon_long canon_fixed canon_array : avro.
#[export] Hint Extern 1 (canon (DBool _) SBool) => reflexivity : avro.
#[export] Hint Extern 1 (canon (DFloat _) SFloat) => reflexivity : avro.
#[export] Hint Extern 1 (canon (DDouble _) SDouble) => reflexivity : avro.
#[export] Hint Extern 1 (canon (DString _ _) (SString _)) => reflexivity : avro.
#[export] Hint Extern 1 (canon (DBytes _ _) (SBytes _)) => reflexivity : avro.
