(* ===== verification/ManifestAvro.v ===== *)
(** * ManifestAvro: manifests as Avro files

    [iceberg/manifest_entry.cpp]: manifest entries to and from Avro data, the
    schema of a manifest, its validation against the partition fields, and whole
    manifests.  A [Deserialize<T>] takes a datum; [Extract] one field of a record,
    where a field that is missing is an error for plain values and the empty value
    for optional ones, vectors and maps. *)

From stdpp Require Import base list sorting strings gmap pretty.
From Stdlib Require Import ZArith Lia.
From S2P Require Import Prelude OrderedMap Bytes Types ScanTypes PartitionSpecs Json Streams Avro AvroSchema.

Local Open Scope Z_scope.

(** ** Reading *)

(** The two overloads of [Extract]. *)
Definition Extract {A} (Deserialize : datum → result A) (fields : list (string * datum)) (name : string) : result A :=
  let! field := record_field fields name in
  Deserialize field.

Definition Extract_or {A} (empty : A) (Deserialize : datum → result A) (fields : list (string * datum)) (name : string) :
    result A :=
  match find_field name fields with
  | Some field => Deserialize field
  | None => Ok empty
  end.

Definition Deserialize_int (d : datum) : result Z :=
  match content_of d with DInt _ v => Ok v | _ => Err (Exn "Deserialize<int>: unexpected datum type") end.
Definition Deserialize_long (d : datum) : result Z :=
  match content_of d with DLong _ v => Ok v | _ => Err (Exn "Deserialize<int64_t>: unexpected datum type") end.
Definition Deserialize_string (d : datum) : result string :=
  match content_of d with DString _ s => Ok s | _ => Err (Exn "Deserialize<std::string>: unexpected datum type") end.
Definition Deserialize_bytes (d : datum) : result bytes :=
  match content_of d with DBytes _ b => Ok b | _ => Ok [] end.

Definition Deserialize_vector {A} (de : datum → result A) (d : datum) : result (list A) :=
  match content_of d with DArray _ l => map_ok de l | _ => Ok [] end.

Definition Deserialize_optional {A} (de : datum → result A) (d : datum) : result (option A) :=
  match content_of d with DNull => Ok None | _ => let! a := de d in Ok (Some a) end.

Definition Deserialize_pair {A B} (first : list (string * datum) → string → result A)
    (second : list (string * datum) → string → result B) (d : datum) : result (A * B) :=
  match content_of d with
  | DRecord fields =>
      let! a := first fields "key" in
      let! b := second fields "value" in
      Ok (a, b)
  | _ => Err (Exn "Deserialize<std::pair>: unexpected datum type")
  end.

(** [result.emplace]: the first entry of a key stays. *)
Definition emplace {A} (m : gmap Z A) (e : Z * A) : gmap Z A :=
  match m !! e.1 with Some _ => m | None => <[e.1 := e.2]> m end.

Definition Deserialize_map {A} (second : list (string * datum) → string → result A) (d : datum) : result (gmap Z A) :=
  let! vec := Deserialize_vector (Deserialize_pair (Extract Deserialize_int) second) d in
  Ok (foldl emplace ∅ vec).

Definition Deserialize_map_long := Deserialize_map (Extract Deserialize_long).
Definition Deserialize_map_bytes := Deserialize_map (Extract_or [] Deserialize_bytes).

(** One field of a partition tuple, from its Avro type and logical type. *)
Definition Deserialize_key (name : string) (d : datum) : result PartitionKey :=
  match content_of d with
  | DNull => Ok (null_PartitionKey name)
  | DInt lt v =>
      match lt with
      | LT_NONE => make_PartitionKey name (AV_int v) (PrimitiveType kInt)
      | LT_DATE => make_PartitionKey name (AV_int v) (PrimitiveType kDate)
      | _ => Err (Exn "Unexpected logical type in avro for int")
      end
  | DLong lt v =>
      match lt with
      | LT_NONE => make_PartitionKey name (AV_int64 v) (PrimitiveType kLong)
      | LT_TIMESTAMP_MICROS => make_PartitionKey name (AV_int64 v) (PrimitiveType kTimestamp)
      | LT_TIMESTAMP_NANOS => make_PartitionKey name (AV_int64 v) (PrimitiveType kTimestampNs)
      | LT_TIME_MICROS => make_PartitionKey name (AV_int64 v) (PrimitiveType kTime)
      | _ => Err (Exn "Unexpected logical type in avro for long")
      end
  | DFixed lt b =>
      match lt with
      | LT_DECIMAL precision scale =>
          let! t := make_DecimalType precision scale in make_PartitionKey name (AV_Fixed b) t
      | LT_UUID => make_PartitionKey name (AV_Fixed b) (PrimitiveType kUuid)
      | _ => let! t := make_FixedType (Z.of_nat (length b)) in make_PartitionKey name (AV_Fixed b) t
      end
  | DString lt s =>
      let! _ := Ensure (bool_decide (lt = LT_NONE)) "Unexpected logical type in avro" in
      make_PartitionKey name (AV_string s) (PrimitiveType kString)
  | DBool b => make_PartitionKey name (AV_bool b) (PrimitiveType kBoolean)
  | DBytes lt b =>
      let! _ := Ensure (bool_decide (lt = LT_NONE)) "Unexpected logical type in avro" in
      make_PartitionKey name (AV_bytes b) (PrimitiveType kBinary)
  | DFloat v => make_PartitionKey name (AV_float v) (PrimitiveType kFloat)
  | DDouble v => make_PartitionKey name (AV_double v) (PrimitiveType kDouble)
  | _ => Err (Exn "Deserialize<PartitionTuple>: unexpected avro type")
  end.

Definition name_le (a b : PartitionKey) : Prop := String.le (pk_name a) (pk_name b).
#[export] Instance name_le_dec : RelDecision name_le.
Proof. intros a b. unfold name_le. apply _. Defined.

Definition Deserialize_partition (d : datum) : result PartitionTuple :=
  match content_of d with
  | DRecord fields =>
      let! keys := map_ok (λ f, let! field := record_field fields f.1 in Deserialize_key f.1 field) fields in
      Ok (merge_sort name_le keys)
  | _ => Err (Exn "Deserialize<PartitionTuple>: unexpected datum type")
  end.

(** *** The deserializers *)

Record DataFileDeserializerConfig := {
  extract_content : bool;
  extract_file_path : bool;
  extract_file_format : bool;
  extract_partition_tuple : bool;
  extract_record_count : bool;
  extract_file_size_in_bytes : bool;
  extract_column_sizes : bool;
  extract_value_counts : bool;
  extract_null_value_counts : bool;
  extract_nan_value_counts : bool;
  extract_distinct_counts : bool;
  extract_lower_bounds : bool;
  extract_upper_bounds : bool;
  extract_split_offsets : bool;
  extract_equality_ids : bool;
  extract_sort_order_id : bool;
  extract_referenced_data_file : bool;
  extract_content_offset : bool;
  extract_content_size_in_bytes : bool;
}.

Record ManifestEntryDeserializerConfig := {
  extract_status : bool;
  extract_snapshot_id : bool;
  extract_sequence_number : bool;
  extract_file_sequence_number : bool;
  datafile_config : DataFileDeserializerConfig;
}.

(** The default member initializers. *)
Definition default_datafile_config : DataFileDeserializerConfig :=
  Build_DataFileDeserializerConfig true true true true true true true true true true true true true true true true true true true.
Definition default_config : ManifestEntryDeserializerConfig :=
  Build_ManifestEntryDeserializerConfig true true true true default_datafile_config.

(** [ExtractIf]: a field that is not extracted keeps its initial value. *)
Definition ExtractIf {A} (extract : list (string * datum) → string → result A) (fields : list (string * datum))
    (name : string) (value : A) (cond : bool) : result A :=
  if cond then extract fields name else Ok value.

(** Numbers of the enumerations.  A number outside of them is cast to an enumerator
    the program has no case for; here it is an error. *)
Definition to_FileContent (v : Z) : result FileContent :=
  if v =? 0 then Ok kData else if v =? 1 then Ok kPositionDeletes else if v =? 2 then Ok kEqualityDeletes
  else Err (Exn "FileContent: not an enumerator").
Definition of_FileContent (c : FileContent) : Z :=
  match c with kData => 0 | kPositionDeletes => 1 | kEqualityDeletes => 2 end.
Definition to_Status (v : Z) : result EntryStatus :=
  if v =? 0 then Ok kExisting else if v =? 1 then Ok kAdded else if v =? 2 then Ok kDeleted
  else Err (Exn "Status: not an enumerator").
Definition of_Status (s : EntryStatus) : Z := match s with kExisting => 0 | kAdded => 1 | kDeleted => 2 end.

Definition DataFile_Deserialize (cfg : DataFileDeserializerConfig) (d : datum) : result DataFile :=
  match content_of d with
  | DRecord r =>
      let! path := ExtractIf (Extract Deserialize_string) r "file_path" "" (extract_file_path cfg) in
      let! content := (if extract_content cfg then let! v := Extract Deserialize_int r "content" in to_FileContent v
                       else Ok kData) in
      let! format := ExtractIf (Extract Deserialize_string) r "file_format" "" (extract_file_format cfg) in
      let! records := ExtractIf (Extract Deserialize_long) r "record_count" 0 (extract_record_count cfg) in
      let! size := ExtractIf (Extract Deserialize_long) r "file_size_in_bytes" 0 (extract_file_size_in_bytes cfg) in
      let! order := ExtractIf (Extract_or None (Deserialize_optional Deserialize_int)) r "sort_order_id" None
                      (extract_sort_order_id cfg) in
      let! referenced := ExtractIf (Extract_or None (Deserialize_optional Deserialize_string)) r "referenced_data_file"
                           None (extract_referenced_data_file cfg) in
      let! offset := ExtractIf (Extract_or None (Deserialize_optional Deserialize_long)) r "content_offset" None
                       (extract_content_offset cfg) in
      let! csize := ExtractIf (Extract_or None (Deserialize_optional Deserialize_long)) r "content_size_in_bytes" None
                      (extract_content_size_in_bytes cfg) in
      let! sizes := ExtractIf (Extract_or ∅ Deserialize_map_long) r "column_sizes" ∅ (extract_column_sizes cfg) in
      let! values := ExtractIf (Extract_or ∅ Deserialize_map_long) r "value_counts" ∅ (extract_value_counts cfg) in
      let! splits := ExtractIf (Extract_or [] (Deserialize_vector Deserialize_long)) r "split_offsets" []
                       (extract_split_offsets cfg) in
      let! nulls := ExtractIf (Extract_or ∅ Deserialize_map_long) r "null_value_counts" ∅
                      (extract_null_value_counts cfg) in
      let! lower := ExtractIf (Extract_or ∅ Deserialize_map_bytes) r "lower_bounds" ∅ (extract_lower_bounds cfg) in
      let! upper := ExtractIf (Extract_or ∅ Deserialize_map_bytes) r "upper_bounds" ∅ (extract_upper_bounds cfg) in
      let! tuple := ExtractIf (Extract Deserialize_partition) r "partition" [] (extract_partition_tuple cfg) in
      let! nans := ExtractIf (Extract_or ∅ Deserialize_map_long) r "nan_value_counts" ∅ (extract_nan_value_counts cfg) in
      let! distinct := ExtractIf (Extract_or ∅ Deserialize_map_long) r "distinct_counts" ∅
                         (extract_distinct_counts cfg) in
      let! ids := ExtractIf (Extract_or [] (Deserialize_vector Deserialize_int)) r "equality_ids" []
                    (extract_equality_ids cfg) in
      Ok {| content := content; file_path := path; file_format := format; partition_tuple := tuple;
            record_count := records; file_size_in_bytes := size; column_sizes := sizes; value_counts := values;
            null_value_counts := nulls; nan_value_counts := nans; distinct_counts := distinct;
            lower_bounds := lower; upper_bounds := upper; key_metadata := []; split_offsets := splits;
            equality_ids := ids; sort_order_id := order; referenced_data_file := referenced;
            content_offset := offset; content_size_in_bytes := csize |}
  | _ => Err (Exn "DataFileDeserializer: data.type() is not record")
  end.

(** [DataFile{}]: every field value-initialized. *)
Definition empty_DataFile : DataFile :=
  {| content := kData; file_path := ""; file_format := ""; partition_tuple := []; record_count := 0;
     file_size_in_bytes := 0; column_sizes := ∅; value_counts := ∅; null_value_counts := ∅; nan_value_counts := ∅;
     distinct_counts := ∅; lower_bounds := ∅; upper_bounds := ∅; key_metadata := []; split_offsets := [];
     equality_ids := []; sort_order_id := None; referenced_data_file := None; content_offset := None;
     content_size_in_bytes := None |}.

Definition ManifestEntry_Deserialize (cfg : ManifestEntryDeserializerConfig) (d : datum) : result ManifestEntry :=
  match content_of d with
  | DRecord r =>
      let! file := match find_field "data_file" r with
                   | Some field => DataFile_Deserialize (datafile_config cfg) field
                   | None => Ok empty_DataFile
                   end in
      let! status := (if extract_status cfg then let! v := Extract Deserialize_int r "status" in to_Status v
                      else Ok kExisting) in
      let! snapshot := ExtractIf (Extract_or None (Deserialize_optional Deserialize_long)) r "snapshot_id" None
                         (extract_snapshot_id cfg) in
      let! seq := ExtractIf (Extract_or None (Deserialize_optional Deserialize_long)) r "sequence_number" None
                    (extract_sequence_number cfg) in
      let! file_seq := ExtractIf (Extract_or None (Deserialize_optional Deserialize_long)) r "file_sequence_number" None
                         (extract_file_sequence_number cfg) in
      Ok {| status := status; entry_snapshot_id := snapshot; sequence_number := seq; file_sequence_number := file_seq;
            data_file := file |}
  | _ => Err (Exn "ManifestEntryDeserializer: datum.type() is not record")
  end.

(** ** The schema of a manifest *)

(** The node of a partition field; all of them are optional. *)
Definition partition_node (t : Type_) : result Node :=
  match TypeId t, t with
  | kBoolean, _ => Ok (BoolNode None)
  | kInt, _ => Ok (IntNode None)
  | kLong, _ => Ok (LongNode None)
  | kDate, _ => Ok (DateNode None)
  | kTime, _ => Ok (TimeNode None)
  | kTimestamp, _ => Ok (TimestampNode None)
  | kTimestamptz, _ => Ok (TimestamptzNode None)
  | kTimestampNs, _ => Ok (TimestampNsNode None)
  | kTimestamptzNs, _ => Ok (TimestamptzNsNode None)
  | kDecimal, DecimalType precision scale => Ok (DecimalNode precision scale None)
  | kFixed, FixedType size => Ok (FixedNode size None)
  | kUuid, _ => Ok (UuidNode None)
  | kString, _ => Ok (StringNode None)
  | kBinary, _ => Ok (BytesNode None)
  | kFloat, _ => Ok (FloatNode None)
  | kDouble, _ => Ok (DoubleNode None)
  | _, _ => Err (Exn "Unexpected data iceberg::TypeID in partitioning")
  end.

Definition MakeSchemaPartition (partition_spec : list PartitionKeyField) : result Node :=
  fold_ok (λ result field,
             match pkf_type field with
             | None => Err (Exn "null pointer")
             | Some t => let! node := partition_node t in Ok (AddField result (pkf_name field) (OptionalNode node None))
             end) (RecordNode "r102" (Some 102) []) partition_spec.

(** An entry of a map: a record of a key and a value. *)
Definition entry_node (name : string) (value : Node) : Node :=
  AddField (AddField (RecordNode name None []) "key" (IntNode None)) "value" value.

Definition opt (node : Node) : Node := OptionalNode node None.
Definition arr (node : Node) : Node := ArrayNode node None None.

(** A field of the statistics, left out when it is not to be extracted. *)
Definition AddFieldIf (cond : bool) (result : Node) (name entry : string) (value : Node) : Node :=
  if cond then AddField result name (opt (arr (entry_node entry value))) else result.

Definition MakeSchemaDataFile (partition_spec : list PartitionKeyField) (cfg : ManifestEntryDeserializerConfig) : result Node :=
  let c := datafile_config cfg in
  let r := RecordNode "r2" None [] in
  let r := AddField r "content" (IntNode None) in
  let r := AddField r "file_path" (StringNode None) in
  let r := AddField r "file_format" (StringNode None) in
  let r := AddField r "record_count" (LongNode None) in
  let r := AddField r "file_size_in_bytes" (LongNode None) in
  let r := AddField r "equality_ids" (opt (arr (IntNode None))) in
  let r := AddField r "referenced_data_file" (opt (StringNode None)) in
  let r := AddField r "content_offset" (opt (LongNode None)) in
  let r := AddField r "content_size_in_bytes" (opt (LongNode None)) in
  let r := AddFieldIf (extract_column_sizes c) r "column_sizes" "k117_v118" (LongNode None) in
  let r := AddFieldIf (extract_value_counts c) r "value_counts" "k119_v120" (LongNode None) in
  let r := AddFieldIf (extract_null_value_counts c) r "null_value_counts" "k121_v122" (LongNode None) in
  let r := AddFieldIf (extract_lower_bounds c) r "lower_bounds" "k126_v127" (BytesNode None) in
  let r := AddFieldIf (extract_upper_bounds c) r "upper_bounds" "k129_v130" (BytesNode None) in
  let r := AddFieldIf (extract_nan_value_counts c) r "nan_value_counts" "k138_v139" (LongNode None) in
  let r := AddFieldIf (extract_distinct_counts c) r "distinct_counts" "k123_v124" (LongNode None) in
  let r := AddField r "split_offsets" (opt (arr (LongNode None))) in
  let r := AddField r "sort_order_id" (opt (IntNode None)) in
  let! partition := MakeSchemaPartition partition_spec in
  Ok (AddField r "partition" partition).

Definition MakeSchemaManifestEntry (partition_spec : list PartitionKeyField) (cfg : ManifestEntryDeserializerConfig) :
    result Node :=
  let r := RecordNode "manifest_entry" None [] in
  let r := AddField r "status" (IntNode (Some 0)) in
  let r := AddField r "snapshot_id" (opt (LongNode (Some 1))) in
  let r := AddField r "sequence_number" (opt (LongNode (Some 3))) in
  let r := AddField r "file_sequence_number" (opt (LongNode (Some 4))) in
  let! data_file := MakeSchemaDataFile partition_spec cfg in
  Ok (AddField r "data_file" data_file).

(** ** Writing *)

(** [f(..., GetMember(record, key))]: the field is changed in place. *)
Fixpoint update_field (key : string) (f : datum → result datum) (fields : list (string * datum)) :
    result (list (string * datum)) :=
  match fields with
  | [] => Err (Exn "Invalid field name: ")
  | e :: fields =>
      if String.eqb e.1 key then let! d := f e.2 in Ok ((e.1, d) :: fields)
      else let! fields := update_field key f fields in Ok (e :: fields)
  end.

(** [result = GenericDatum(value)]. *)
Definition assign (value : datum) (_ : datum) : result datum := Ok value.
Definition SerializeInt (value : Z) := assign (DInt LT_NONE value).
Definition SerializeLong (value : Z) := assign (DLong LT_NONE value).
Definition SerializeString (value : string) := assign (DString LT_NONE value).
Definition SerializeBytes (value : bytes) := assign (DBytes LT_NONE value).

(** [result.value<T>() = value], which keeps the logical type. *)
Definition put_bool (v : bool) (d : datum) : result datum :=
  match d with DBool _ => Ok (DBool v) | _ => Err (Exn "value<bool>: wrong type") end.
Definition put_int (v : Z) (d : datum) : result datum :=
  match d with DInt lt _ => Ok (DInt lt v) | _ => Err (Exn "value<int32_t>: wrong type") end.
Definition put_long (v : Z) (d : datum) : result datum :=
  match d with DLong lt _ => Ok (DLong lt v) | _ => Err (Exn "value<int64_t>: wrong type") end.
Definition put_float (v : Z) (d : datum) : result datum :=
  match d with DFloat _ => Ok (DFloat v) | _ => Err (Exn "value<float>: wrong type") end.
Definition put_double (v : Z) (d : datum) : result datum :=
  match d with DDouble _ => Ok (DDouble v) | _ => Err (Exn "value<double>: wrong type") end.
Definition put_string (v : string) (d : datum) : result datum :=
  match d with DString lt _ => Ok (DString lt v) | _ => Err (Exn "value<std::string>: wrong type") end.
Definition put_bytes (v : bytes) (d : datum) : result datum :=
  match d with DBytes lt _ => Ok (DBytes lt v) | _ => Err (Exn "value<std::vector<uint8_t>>: wrong type") end.
Definition put_fixed (v : bytes) (d : datum) : result datum :=
  match d with DFixed lt _ => Ok (DFixed lt v) | _ => Err (Exn "value<GenericFixed>: wrong type") end.

(** The shape of the [SerializeOptional] functions. *)
Definition SerializeOptional {A} (put : A → datum → result datum) (value : option A) (d : datum) : result datum :=
  match value with
  | Some v => let! d := selectBranch 1 d in set_value (put v) d
  | None => selectBranch 0 d
  end.
Definition SerializeOptionalBool := SerializeOptional put_bool.
Definition SerializeOptionalInt := SerializeOptional put_int.
Definition SerializeOptionalLong := SerializeOptional put_long.
Definition SerializeOptionalFloat := SerializeOptional put_float.
Definition SerializeOptionalDouble := SerializeOptional put_double.
Definition SerializeOptionalFixed := SerializeOptional put_fixed.
Definition SerializeOptionalString := SerializeOptional put_string.
Definition SerializeOptionalBytes := SerializeOptional put_bytes.

(** Elements are appended to the array of the branch. *)
Definition push_all (make : avro_node → result (list datum)) (d : datum) : result datum :=
  match d with
  | DArray items l => let! ds := make items in Ok (DArray items (l ++ ds))
  | _ => Err (Exn "value<GenericArray>: wrong type")
  end.

Definition SerializeOptionalVector (make : Z → datum) (value : list Z) (d : datum) : result datum :=
  if is_nil value then selectBranch 0 d
  else let! d := selectBranch 1 d in set_value (push_all (λ _, Ok (List.map make value))) d.
Definition SerializeOptionalVectorInt := SerializeOptionalVector (DInt LT_NONE).
Definition SerializeOptionalVectorLong := SerializeOptionalVector (DLong LT_NONE).

Definition key_le {A} (a b : Z * A) : Prop := a.1 ≤ b.1.
#[export] Instance key_le_dec {A} : RelDecision (@key_le A).
Proof. intros a b. unfold key_le. apply _. Defined.

(** An entry of a map, made from the schema of the elements. *)
Definition map_entry {A} (put : A → datum → result datum) (items : avro_node) (e : Z * A) : result datum :=
  match GenericDatum items with
  | DRecord fields =>
      let! fields := update_field "key" (SerializeInt e.1) fields in
      let! fields := update_field "value" (put e.2) fields in
      Ok (DRecord fields)
  | _ => Err (Exn "value<GenericRecord>: wrong type")
  end.

Definition SerializeOptionalMap {A} (put : A → datum → result datum) (map : gmap Z A) (d : datum) : result datum :=
  let entries := merge_sort key_le (map_to_list map) in
  if is_nil entries then selectBranch 0 d
  else let! d := selectBranch 1 d in set_value (push_all (λ items, map_ok (map_entry put items) entries)) d.
Definition SerializeOptionalMapIntLong := SerializeOptionalMap SerializeLong.
Definition SerializeOptionalMapIntBytes := SerializeOptionalMap SerializeBytes.

Definition ExtractTypeFromPartitionSpec (partition_spec : list PartitionKeyField) (name : string) : option Type_ :=
  List.find (λ elem, String.eqb (pkf_name elem) name) partition_spec ≫= pkf_type.

(** [is_null ? std::nullopt : std::optional(std::get<T>(info.value))]. *)
Definition nullable {A} (get : AvroValueHolder → option A) (value : AvroValueHolder) : result (option A) :=
  match value with
  | AV_monostate => Ok None
  | _ => match get value with Some a => Ok (Some a) | None => Err (Exn "bad_variant_access") end
  end.

Definition SerializePartitionValue (type : Type_) (value : AvroValueHolder) (d : datum) : result datum :=
  match TypeId type with
  | kBoolean => let! v := nullable (λ x, match x with AV_bool b => Some b | _ => None end) value in SerializeOptionalBool v d
  | kInt | kDate => let! v := nullable (λ x, match x with AV_int b => Some b | _ => None end) value in SerializeOptionalInt v d
  | kFloat => let! v := nullable (λ x, match x with AV_float b => Some b | _ => None end) value in SerializeOptionalFloat v d
  | kDouble => let! v := nullable (λ x, match x with AV_double b => Some b | _ => None end) value in SerializeOptionalDouble v d
  | kBinary => let! v := nullable (λ x, match x with AV_bytes b => Some b | _ => None end) value in SerializeOptionalBytes v d
  | kString => let! v := nullable (λ x, match x with AV_string b => Some b | _ => None end) value in SerializeOptionalString v d
  | kLong | kTime | kTimestamp | kTimestamptz | kTimestampNs | kTimestamptzNs =>
      let! v := nullable (λ x, match x with AV_int64 b => Some b | _ => None end) value in SerializeOptionalLong v d
  | kDecimal | kFixed | kUuid =>
      let! v := nullable (λ x, match x with AV_Fixed b => Some b | _ => None end) value in SerializeOptionalFixed v d
  | _ => Err (Exn "SerializePartition: internal error. Field has unexpected type")
  end.

(** A field of the tuple the schema does not have is skipped. *)
Definition SerializePartition (partition_spec : list PartitionKeyField) (partition : PartitionTuple) (d : datum) :
    result datum :=
  set_value (λ d,
    match d with
    | DRecord record =>
        let! record := fold_ok (λ record info,
            match find_field (pk_name info) record with
            | None => Ok record
            | Some _ =>
                match ExtractTypeFromPartitionSpec partition_spec (pk_name info) with
                | None => Err (Exn "SerializePartition: internal error. Field not found in partition_spec")
                | Some type => update_field (pk_name info) (SerializePartitionValue type (pk_value info)) record
                end
            end) record partition in
        Ok (DRecord record)
    | _ => Err (Exn "value<GenericRecord>: wrong type")
    end) d.

(** The fields of a record, changed one after the other. *)
Definition in_record (f : list (string * datum) → result (list (string * datum))) (d : datum) : result datum :=
  set_value (λ d, match d with
                  | DRecord record => let! record := f record in Ok (DRecord record)
                  | _ => Err (Exn "value<GenericRecord>: wrong type")
                  end) d.

Definition SerializeDataFile (partition_spec : list PartitionKeyField) (f : DataFile) : datum → result datum :=
  in_record (λ r,
    let! r := update_field "record_count" (SerializeLong (record_count f)) r in
    let! r := update_field "file_size_in_bytes" (SerializeLong (file_size_in_bytes f)) r in
    let! r := update_field "split_offsets" (SerializeOptionalVectorLong (split_offsets f)) r in
    let! r := update_field "equality_ids" (SerializeOptionalVectorInt (equality_ids f)) r in
    let! r := update_field "file_format" (SerializeString (file_format f)) r in
    let! r := update_field "file_path" (SerializeString (file_path f)) r in
    let! r := update_field "content" (SerializeInt (of_FileContent (content f))) r in
    let! r := update_field "referenced_data_file" (SerializeOptionalString (referenced_data_file f)) r in
    let! r := update_field "content_offset" (SerializeOptionalLong (content_offset f)) r in
    let! r := update_field "content_size_in_bytes" (SerializeOptionalLong (content_size_in_bytes f)) r in
    let! r := update_field "sort_order_id" (SerializeOptionalInt (sort_order_id f)) r in
    let! r := update_field "column_sizes" (SerializeOptionalMapIntLong (column_sizes f)) r in
    let! r := update_field "value_counts" (SerializeOptionalMapIntLong (value_counts f)) r in
    let! r := update_field "null_value_counts" (SerializeOptionalMapIntLong (null_value_counts f)) r in
    let! r := update_field "lower_bounds" (SerializeOptionalMapIntBytes (lower_bounds f)) r in
    let! r := update_field "upper_bounds" (SerializeOptionalMapIntBytes (upper_bounds f)) r in
    let! r := update_field "distinct_counts" (SerializeOptionalMapIntLong (distinct_counts f)) r in
    let! r := update_field "nan_value_counts" (SerializeOptionalMapIntLong (nan_value_counts f)) r in
    update_field "partition" (SerializePartition partition_spec (partition_tuple f)) r).

Definition SerializeManifestEntry (partition_spec : list PartitionKeyField) (entry : ManifestEntry) : datum → result datum :=
  in_record (λ r,
    let! r := update_field "status" (SerializeInt (of_Status (status entry))) r in
    let! r := update_field "snapshot_id" (SerializeOptionalLong (entry_snapshot_id entry)) r in
    let! r := update_field "sequence_number" (SerializeOptionalLong (sequence_number entry)) r in
    let! r := update_field "file_sequence_number" (SerializeOptionalLong (file_sequence_number entry)) r in
    update_field "data_file" (SerializeDataFile partition_spec (data_file entry)) r).

(** ** Manifests *)

Record Manifest := {
  metadata : gmap string bytes;
  entries : list ManifestEntry;
}.

(** [Find]: the child of that name. *)
Definition Find (root : avro_node) (name : string) : option avro_node :=
  match root with SRecord _ fields => find_field name fields | _ => None end.

Definition leaves (node : avro_node) : nat :=
  match node with
  | SRecord _ fields => length fields
  | SUnion branches => length branches
  | SArray _ => 1
  | _ => 0
  end.
Definition names (node : avro_node) : list string := match node with SRecord _ fields => fields.*1 | _ => [] end.

Definition ValidatePartitionSpec (partition_spec : list PartitionKeyField) (root : avro_node) : result unit :=
  match Find root "data_file" with
  | None => Err (Exn "ValidatePartitionSpec: data_file is not found in avro.schema")
  | Some data_file =>
      match Find data_file "partition" with
      | None => Err (Exn "ValidatePartitionSpec: partition is not found in avro.schema")
      | Some partition =>
          let! _ := Ensure (bool_decide (length partition_spec = leaves partition)) "ValidatePartitionSpec: number of fields" in
          Ensure (forallb (λ f, bool_decide (pkf_name f ∈ names partition)) partition_spec)
            "ValidatePartitionSpec: partition_spec has a field that partition in avro does not"
      end
  end.

Section files.
Context `{Avro}.

Definition AvroSchemaFromNode (node : Node) : result avro_node :=
  let! text := ToJsonString node in compileJsonSchemaFromString text.

Definition reader_schema (partition_spec : list PartitionKeyField) (cfg : ManifestEntryDeserializerConfig)
    (use_reader_schema : bool) : result (option avro_node) :=
  if use_reader_schema then
    let! node := MakeSchemaManifestEntry partition_spec cfg in
    let! schema := AvroSchemaFromNode node in Ok (Some schema)
  else Ok None.

(** [ManifestEntryStream]: the stream of the entries of a manifest. *)
Definition ManifestEntriesStream (content : string) (partition_spec : list PartitionKeyField)
    (cfg : ManifestEntryDeserializerConfig) (use_reader_schema validate_partition_spec : bool) :
    result (stream ManifestEntry) :=
  let! schema := reader_schema partition_spec cfg use_reader_schema in
  let! reader := DataFileReader content schema in
  let! _ := (if validate_partition_spec || extract_partition_tuple (datafile_config cfg)
             then ValidatePartitionSpec partition_spec (dataSchema reader) else Ok ()) in
  Ok (smap (λ _ d, let! e := ManifestEntry_Deserialize cfg d in Ok (e, ())) () (datums reader)).

(** The id of the schema in the metadata, for writers that leave it out. *)
Definition add_schema_id (m : gmap string bytes) : result (gmap string bytes) :=
  match m !! "schema-id"%string, m !! "schema"%string with
  | None, Some schema =>
      let document := Parse (c_str (string_of_bytes schema)) in
      if IsObject document then
        let! v := get_member document "schema-id" in
        match as_int32 v with
        | Some id => Ok (<["schema-id"%string := bytes_of_string (pretty id)]> m)
        | None => Err (Exn "assertion failed: IsInt()")
        end
      else Ok m
  | _, _ => Ok m
  end.

Definition ReadManifestEntries (input : string) (partition_spec : list PartitionKeyField)
    (cfg : ManifestEntryDeserializerConfig) (use_reader_schema : bool) : result Manifest :=
  let! schema := reader_schema partition_spec cfg use_reader_schema in
  let! reader := DataFileReader input schema in
  let! _ := ValidatePartitionSpec partition_spec (dataSchema reader) in
  let m := delete "avro.codec"%string (delete "avro.schema"%string (file_metadata reader)) in
  let! m := add_schema_id m in
  let! es := run (smap (λ _ d, let! e := ManifestEntry_Deserialize cfg d in Ok (e, ())) () (datums reader)) in
  Ok {| metadata := m; entries := es |}.

Definition WriteManifestEntries (manifest : Manifest) (partition_spec : list PartitionKeyField) : result string :=
  let! node := MakeSchemaManifestEntry partition_spec default_config in
  let! schema := AvroSchemaFromNode node in
  let! data := map_ok (λ e, SerializeManifestEntry partition_spec e (GenericDatum schema)) (entries manifest) in
  Ok (DataFileWriter schema (metadata manifest) data).
End files.
