(* ===== verification/ManifestRoundtrip.v ===== *)
(** * ManifestRoundtrip: manifests are read back as they were written

    The data that [WriteManifestEntries] hands to Avro, in closed form, and what
    [ReadManifestEntries] and [ManifestEntriesStream] make of it. *)

From stdpp Require Import base list sorting strings gmap pretty.
From Stdlib Require Import ZArith Lia.
From S2P Require Import Prelude OrderedMap Bytes Types ScanTypes PartitionSpecs Json Streams.
From S2P Require Import Avro AvroSchema AvroFacts ManifestAvro.

Local Open Scope Z_scope.

(** ** Optional values *)

Definition opt_datum (s : avro_node) (o : option datum) : datum :=
  match o with Some d => DUnion [SNull; s] 1 d | None => DUnion [SNull; s] 0 DNull end.

Lemma canon_opt s o : optional_ok (λ d, canon d s) o → canon (opt_datum s o) (SUnion [SNull; s]).
Proof. destruct o as [d|]; [intros H; apply canon_some, H; done|done]. Qed.

(** [put] writes [mk v] over any datum of the kind [fits]. *)
Definition puts {A} (put : A → datum → result datum) (mk : A → datum) (fits : datum → Prop) : Prop :=
  ∀ v d, fits d → put v d = Ok (mk v).

Lemma SerializeOptional_ok {A} (put : A → datum → result datum) mk fits s (v : option A) o :
  puts put mk fits → fits (GenericDatum s) → optional_ok fits o →
  SerializeOptional put v (opt_datum s o) = Ok (opt_datum s (mk <$> v)).
Proof.
  intros Hput Hs Ho. destruct v as [v|], o as [d|]; try done; cbn [SerializeOptional opt_datum].
  - change (selectBranch 1 (DUnion ?b 1 d)) with (@Ok datum (DUnion b 1 d)). cbn [rbind set_value].
    by rewrite (Hput v d) by (by apply Ho).
  - change (selectBranch 1 (DUnion [SNull; s] 0 DNull)) with (Ok (DUnion [SNull; s] 1 (GenericDatum s))).
    cbn [rbind set_value]. by rewrite (Hput v _ Hs).
Qed.

Definition fits_bool (d : datum) : Prop := ∃ v, d = DBool v.
Definition fits_int (lt : LogicalType) (d : datum) : Prop := ∃ v, d = DInt lt v.
Definition fits_long (lt : LogicalType) (d : datum) : Prop := ∃ v, d = DLong lt v.
Definition fits_float (d : datum) : Prop := ∃ v, d = DFloat v.
Definition fits_double (d : datum) : Prop := ∃ v, d = DDouble v.
Definition fits_string (d : datum) : Prop := ∃ v, d = DString LT_NONE v.
Definition fits_bytes (d : datum) : Prop := ∃ v, d = DBytes LT_NONE v.
Definition fits_fixed (lt : LogicalType) (d : datum) : Prop := ∃ v, d = DFixed lt v.

Lemma puts_bool : puts put_bool DBool fits_bool.
Proof. by intros v d [v' ->]. Qed.
Lemma puts_int lt : puts put_int (DInt lt) (fits_int lt).
Proof. by intros v d [v' ->]. Qed.
Lemma puts_long lt : puts put_long (DLong lt) (fits_long lt).
Proof. by intros v d [v' ->]. Qed.
Lemma puts_float : puts put_float DFloat fits_float.
Proof. by intros v d [v' ->]. Qed.
Lemma puts_double : puts put_double DDouble fits_double.
Proof. by intros v d [v' ->]. Qed.
Lemma puts_string : puts put_string (DString LT_NONE) fits_string.
Proof. by intros v d [v' ->]. Qed.
Lemma puts_bytes : puts put_bytes (DBytes LT_NONE) fits_bytes.
Proof. by intros v d [v' ->]. Qed.
Lemma puts_fixed lt : puts put_fixed (DFixed lt) (fits_fixed lt).
Proof. by intros v d [v' ->]. Qed.

(** The start of an optional field. *)
Lemma GenericDatum_opt s : GenericDatum (SUnion [SNull; s]) = opt_datum s None.
Proof. done. Qed.

Lemma optional_int v : SerializeOptionalInt v (opt_datum (SInt LT_NONE) None) = Ok (opt_datum (SInt LT_NONE) (DInt LT_NONE <$> v)).
Proof. eapply SerializeOptional_ok; [apply puts_int|by eexists|done]. Qed.
Lemma optional_long v : SerializeOptionalLong v (opt_datum (SLong LT_NONE) None) = Ok (opt_datum (SLong LT_NONE) (DLong LT_NONE <$> v)).
Proof. eapply SerializeOptional_ok; [apply puts_long|by eexists|done]. Qed.
Lemma optional_string v :
  SerializeOptionalString v (opt_datum (SString LT_NONE) None) = Ok (opt_datum (SString LT_NONE) (DString LT_NONE <$> v)).
Proof. eapply SerializeOptional_ok; [apply puts_string|by eexists|done]. Qed.

Lemma Deserialize_optional_ok {A} (de : datum → result A) (mk : A → datum) s (v : option A) :
  (∀ a, match mk a with DNull => False | _ => True end) → (∀ a, de (DUnion [SNull; s] 1 (mk a)) = Ok a) →
  Deserialize_optional de (opt_datum s (mk <$> v)) = Ok v.
Proof.
  intros Hn Hde. destruct v as [v|]; [|done]. change (opt_datum s (mk <$> Some v)) with (DUnion [SNull; s] 1 (mk v)).
  unfold Deserialize_optional. specialize (Hn v). specialize (Hde v). cbn [content_of].
  destruct (mk v); [done|..]; by rewrite Hde.
Qed.

(** ** Vectors *)

(** An array that is left out when it is empty. *)
Definition vector_datum (s : avro_node) (l : list datum) : datum :=
  opt_datum (SArray s) (if is_nil l then None else Some (DArray s l)).

Lemma is_nil_map {A B} (f : A → B) l : is_nil (List.map f l) = is_nil l.
Proof. by destruct l. Qed.

Lemma vector_ok make (l : list Z) s :
  SerializeOptionalVector make l (opt_datum (SArray s) None) = Ok (vector_datum s (List.map make l)).
Proof. unfold SerializeOptionalVector, vector_datum. rewrite is_nil_map. by destruct l. Qed.

Lemma canon_vector s l : Forall (λ d, canon d s) l → canon (vector_datum s l) (SUnion [SNull; SArray s]).
Proof. intros Hl. apply canon_opt. intros d. destruct l; [done|]. intros [= <-]. by apply canon_array. Qed.

Lemma Deserialize_vector_datum {A} (de : datum → result A) s l l' :
  map_ok de l = Ok l' → Deserialize_vector de (vector_datum s l) = Ok l'.
Proof. intros E. by destruct l. Qed.

Lemma map_ok_inv {A} (de : datum → result A) mk l : (∀ a, de (mk a) = Ok a) → map_ok de (List.map mk l) = Ok l.
Proof. intros Hde. induction l as [|a l IH]; [done|]. cbn [List.map map_ok]. by rewrite Hde, IH. Qed.

(** ** Maps *)

Definition entry_datum {A} (mk : A → datum) (e : Z * A) : datum := DRecord [("key", DInt LT_NONE e.1); ("value", mk e.2)]%string.
Definition entry_schema (name : string) (value : avro_node) : avro_node :=
  SRecord name [("key", SInt LT_NONE); ("value", value)]%string.
Definition sorted_entries {A} (m : gmap Z A) : list (Z * A) := merge_sort key_le (map_to_list m).

Definition map_datum {A} (mk : A → datum) (name : string) (value : avro_node) (m : gmap Z A) : datum :=
  vector_datum (entry_schema name value) (List.map (entry_datum mk) (sorted_entries m)).

Lemma map_serialized {A} (mk : A → datum) name value (m : gmap Z A) :
  SerializeOptionalMap (λ v, assign (mk v)) m (opt_datum (SArray (entry_schema name value)) None) =
  Ok (map_datum mk name value m).
Proof.
  unfold SerializeOptionalMap, map_datum, vector_datum, sorted_entries. rewrite is_nil_map.
  destruct (merge_sort key_le (map_to_list m)) as [|e l]; [done|]. cbn [is_nil selectBranch rbind set_value].
  cbn [opt_datum]. cbn [selectBranch]. rewrite decide_False by done. cbn [lookup list_lookup nth_error].
  change ([SNull; ?x] !! 1%nat) with (Some x). cbn [rbind set_value GenericDatum push_all].
  assert (E : ∀ l, map_ok (map_entry (λ v, assign (mk v)) (entry_schema name value)) l = Ok (List.map (entry_datum mk) l)).
  { clear. intros l. induction l as [|e l IH]; [done|]. cbn [map_ok List.map]. rewrite IH. done. }
  rewrite E. done.
Qed.

Lemma canon_map {A} (mk : A → datum) name value (m : gmap Z A) :
  map_Forall (λ k v, in_i32 k ∧ canon (mk v) value) m →
  canon (map_datum mk name value m) (SUnion [SNull; SArray (entry_schema name value)]).
Proof.
  intros Hm. apply canon_vector, Forall_map. apply Forall_forall. intros [k v] Hin.
  unfold sorted_entries in Hin. rewrite merge_sort_Permutation in Hin. apply elem_of_map_to_list in Hin.
  destruct (Hm k v Hin) as [Hk Hv]. apply canon_record.
  - repeat constructor; simpl; [by apply canon_int|done].
  - simpl. apply NoDup_ListNoDup. repeat constructor; simpl; intuition discriminate.
Qed.

Lemma emplace_all {A} (l : list (Z * A)) m :
  NoDup l.*1 → (∀ k, k ∈ l.*1 → m !! k = None) → foldl emplace m l = list_to_map l ∪ m.
Proof.
  revert m. induction l as [|[k v] l IH]; intros m; simpl; [by rewrite map_empty_union|].
  rewrite NoDup_cons. intros [Hk Hnd] Hm. unfold emplace at 2. cbn [fst snd].
  rewrite (Hm k) by (by left). rewrite IH; [|done|].
  - rewrite <- insert_union_l, <- insert_union_r; [done|]. by apply not_elem_of_list_to_map_1.
  - intros j Hj. rewrite lookup_insert_ne; [by apply Hm; right|]. by intros ->.
Qed.

Lemma sorted_entries_map {A} (m : gmap Z A) : foldl emplace ∅ (sorted_entries m) = m.
Proof.
  pose proof (merge_sort_Permutation key_le (map_to_list m)) as Hp. fold (sorted_entries m) in Hp.
  assert (NoDup (sorted_entries m).*1) as Hnd by (rewrite Hp; apply NoDup_fst_map_to_list).
  rewrite emplace_all by (done || (intros; apply lookup_empty)). rewrite map_union_empty.
  rewrite (list_to_map_proper _ _ Hnd Hp). apply list_to_map_to_list.
Qed.

Lemma Deserialize_map_datum {A} (second : list (string * datum) → string → result A) mk name value (m : gmap Z A) :
  (∀ k v, second [("key", DInt LT_NONE k); ("value", mk v)]%string "value" = Ok v) →
  Deserialize_map second (map_datum mk name value m) = Ok m.
Proof.
  intros Hv. unfold Deserialize_map, map_datum.
  rewrite (Deserialize_vector_datum _ _ _ (sorted_entries m)).
  - cbn [rbind]. by rewrite sorted_entries_map.
  - apply map_ok_inv. intros [k v]. unfold Deserialize_pair, entry_datum. cbn [content_of fst snd].
    unfold Extract, record_field. rewrite find_field_cons. cbn. by rewrite Hv.
Qed.

(** ** Partition values *)

(** The types a partition field can be written with. *)
Definition type_ok (t : Type_) : bool :=
  match t with
  | PrimitiveType id =>
      bool_decide (id ∈ [kBoolean; kInt; kLong; kFloat; kDouble; kDate; kTime; kTimestamp; kTimestamptz; kTimestampNs;
                         kTimestamptzNs; kString; kUuid; kBinary])
  | DecimalType p s => (0 <? p) && (p <=? 38) && (0 <=? s) && is_i32 s
  | _ => false
  end.

Definition type_schema (t : Type_) : avro_node :=
  match partition_node t with Ok node => schema_of node | Err _ => SNull end.

(** What a value comes back with: Avro has no time zones. *)
Definition avro_type (t : Type_) : Type_ :=
  match t with
  | PrimitiveType kTimestamptz => PrimitiveType kTimestamp
  | PrimitiveType kTimestamptzNs => PrimitiveType kTimestampNs
  | _ => t
  end.

(** A value of the type: of its variant, in range, of its length. *)
Definition value_ok (t : Type_) (v : AvroValueHolder) : Prop :=
  match v with
  | AV_monostate => True
  | AV_int z => Validate v t = Ok () ∧ in_i32 z
  | AV_int64 z => Validate v t = Ok () ∧ in_i64 z
  | AV_Fixed b => Validate v t = Ok () ∧ match type_schema t with SFixed _ size _ => Z.of_nat (length b) = size | _ => False end
  | _ => Validate v t = Ok ()
  end.

Definition logical_of (s : avro_node) : LogicalType :=
  match s with SInt lt | SLong lt | SFixed _ _ lt => lt | _ => LT_NONE end.

Definition value_datum (s : avro_node) (v : AvroValueHolder) : option datum :=
  match v with
  | AV_monostate => None
  | AV_bool b => Some (DBool b)
  | AV_int z => Some (DInt (logical_of s) z)
  | AV_int64 z => Some (DLong (logical_of s) z)
  | AV_float z => Some (DFloat z)
  | AV_double z => Some (DDouble z)
  | AV_string x => Some (DString LT_NONE x)
  | AV_bytes b => Some (DBytes LT_NONE b)
  | AV_Fixed b => Some (DFixed (logical_of s) b)
  end.

(** Cases by the type and the variant. *)
Ltac by_type t v :=
  destruct t as [id|p sc|sz|? ? ?]; [destruct id| | |]; try discriminate; destruct v; try discriminate; cbn [value_ok] in *;
  repeat match goal with H : _ ∧ _ |- _ => destruct H end; try discriminate; try contradiction.

Lemma value_serialized t v v0 :
  type_ok t = true → value_ok t v → value_ok t v0 →
  SerializePartitionValue t v (opt_datum (type_schema t) (value_datum (type_schema t) v0)) =
  Ok (opt_datum (type_schema t) (value_datum (type_schema t) v)).
Proof.
  intros Ht Hv H0. by_type t v; destruct v0; cbn [value_ok] in *; repeat match goal with H : _ ∧ _ |- _ => destruct H end;
    try discriminate; try contradiction; reflexivity.
Qed.

Lemma value_canon t v :
  type_ok t = true → value_ok t v →
  canon (opt_datum (type_schema t) (value_datum (type_schema t) v)) (SUnion [SNull; type_schema t]).
Proof.
  intros Ht Hv. apply canon_opt. intros d. by_type t v; intros [= <-]; cbn in *; auto with avro.
Qed.

(** The key a value is read back as. *)
Definition read_key (name : string) (t : option Type_) (v : AvroValueHolder) : PartitionKey :=
  {| pk_name := name; pk_value := v;
     pk_type := match v with AV_monostate => None | _ => avro_type <$> t end |}.

Lemma value_read name t v :
  type_ok t = true → value_ok t v →
  Deserialize_key name (opt_datum (type_schema t) (value_datum (type_schema t) v)) = Ok (read_key name (Some t) v).
Proof.
  intros Ht Hv. by_type t v; try reflexivity.
  - cbn in Ht. rewrite !andb_true_iff, Z.ltb_lt, !Z.leb_le in Ht. destruct Ht as [[[Hp1 Hp2] Hs] _].
    unfold Deserialize_key. cbn -[Z.ltb]. unfold make_DecimalType. by rewrite !bool_decide_eq_true_2.
Qed.

(** ** Partition tuples *)

Definition field_type (f : PartitionKeyField) : Type_ := default (PrimitiveType kUnknown) (pkf_type f).
Definition field_schema (f : PartitionKeyField) : avro_node := type_schema (field_type f).
Definition field_ok (f : PartitionKeyField) : bool :=
  valid_name (pkf_name f) && bool_decide (is_Some (pkf_type f)) && type_ok (field_type f).

(** Partition fields a manifest can be written with: valid and distinct names,
    supported types, of which those with a name of their own (decimals, UUIDs) are
    distinct. *)
Definition spec_ok (spec : list PartitionKeyField) : bool :=
  forallb field_ok spec && bool_decide (NoDup (pkf_name <$> spec)) &&
  bool_decide (NoDup (flat_map (λ f, defined_names (field_schema f)) spec)).

Definition schema_fields (spec : list PartitionKeyField) : list (string * avro_node) :=
  List.map (λ f, (pkf_name f, SUnion [SNull; field_schema f])) spec.

(** The record with the values that [σ] gives to the names. *)
Definition record_of (σ : string → AvroValueHolder) (spec : list PartitionKeyField) : list (string * datum) :=
  List.map (λ f, (pkf_name f, opt_datum (field_schema f) (value_datum (field_schema f) (σ (pkf_name f))))) spec.

Definition set_key (σ : string → AvroValueHolder) (k : PartitionKey) : string → AvroValueHolder :=
  λ n, if String.eqb n (pk_name k) then pk_value k else σ n.

Lemma field_ok_type f : field_ok f = true → pkf_type f = Some (field_type f) ∧ type_ok (field_type f) = true.
Proof.
  unfold field_ok, field_type. rewrite !andb_true_iff, bool_decide_eq_true. intros [[_ [t ->]] Ht]. done.
Qed.

Lemma find_record σ spec n :
  find_field n (record_of σ spec) =
  (λ f, opt_datum (field_schema f) (value_datum (field_schema f) (σ (pkf_name f)))) <$>
    List.find (λ f, String.eqb (pkf_name f) n) spec.
Proof.
  induction spec as [|f spec IH]; [done|]. cbn [record_of List.map]. rewrite find_field_cons. cbn [List.find].
  by destruct (String.eqb (pkf_name f) n).
Qed.

Lemma record_of_ext σ σ' spec :
  (∀ f, f ∈ spec → σ (pkf_name f) = σ' (pkf_name f)) → record_of σ spec = record_of σ' spec.
Proof. intros H. apply map_ext_in. intros f Hf. by rewrite H by (by apply list_elem_of_In). Qed.

(** One field of the tuple is written. *)
Lemma update_record σ spec k f t :
  NoDup (pkf_name <$> spec) → f ∈ spec → pkf_name f = pk_name k → t = field_type f → type_ok t = true →
  value_ok t (σ (pk_name k)) → value_ok t (pk_value k) →
  update_field (pk_name k) (SerializePartitionValue t (pk_value k)) (record_of σ spec) = Ok (record_of (set_key σ k) spec).
Proof.
  intros Hnd Hf Hn -> Ht H0 Hv. induction spec as [|g spec IH]; [by apply elem_of_nil in Hf|].
  cbn [fmap list_fmap] in Hnd. apply NoDup_cons in Hnd as [Hg Hnd]. cbn [record_of List.map update_field fst snd].
  apply elem_of_cons in Hf as [->|Hf].
  - rewrite Hn, String.eqb_refl. unfold field_schema at 1 2. rewrite value_serialized by done. cbn [rbind].
    f_equal. f_equal.
    + unfold set_key. by rewrite String.eqb_refl.
    + apply record_of_ext. intros f Hf. unfold set_key. destruct (String.eqb_spec (pkf_name f) (pk_name k)) as [E|]; [|done].
      destruct Hg. rewrite Hn, <- E. by apply list_elem_of_fmap_2.
  - destruct (String.eqb_spec (pkf_name g) (pk_name k)) as [E|Hne].
    { destruct Hg. rewrite E, <- Hn. by apply list_elem_of_fmap_2. }
    fold (record_of σ spec). rewrite IH by done. cbn [rbind]. unfold set_key at 2.
    by destruct (String.eqb_spec (pkf_name g) (pk_name k)).
Qed.

Lemma find_name spec f :
  NoDup (pkf_name <$> spec) → f ∈ spec → List.find (λ g, String.eqb (pkf_name g) (pkf_name f)) spec = Some f.
Proof.
  induction spec as [|g spec IH]; [intros _ H; by apply elem_of_nil in H|]. cbn [fmap list_fmap List.find].
  rewrite NoDup_cons, elem_of_cons. intros [Hg Hnd] [->|Hf]; [by rewrite String.eqb_refl|].
  destruct (String.eqb_spec (pkf_name g) (pkf_name f)) as [E|]; [|by apply IH].
  destruct Hg. rewrite E. by apply list_elem_of_fmap_2.
Qed.

(** A tuple for the fields: sorted by name, one value of the right type for each. *)
Definition tuple_ok (spec : list PartitionKeyField) (t : PartitionTuple) : Prop :=
  StronglySorted name_le t ∧ pk_name <$> t ≡ₚ pkf_name <$> spec ∧
  Forall (λ k, ∃ f, f ∈ spec ∧ pkf_name f = pk_name k ∧ value_ok (field_type f) (pk_value k)) t.

Definition no_values : string → AvroValueHolder := λ _, AV_monostate.
Definition values (t : PartitionTuple) : string → AvroValueHolder := foldl set_key no_values t.

(** The loop of [SerializePartition]. *)
Lemma partition_loop spec t σ :
  forallb field_ok spec = true → NoDup (pkf_name <$> spec) →
  (∀ f, f ∈ spec → value_ok (field_type f) (σ (pkf_name f))) →
  Forall (λ k, ∃ f, f ∈ spec ∧ pkf_name f = pk_name k ∧ value_ok (field_type f) (pk_value k)) t →
  fold_ok (λ record info,
      match find_field (pk_name info) record with
      | None => Ok record
      | Some _ =>
          match ExtractTypeFromPartitionSpec spec (pk_name info) with
          | None => Err (Exn "SerializePartition: internal error. Field not found in partition_spec")
          | Some type => update_field (pk_name info) (SerializePartitionValue type (pk_value info)) record
          end
      end) (record_of σ spec) t = Ok (record_of (foldl set_key σ t) spec).
Proof.
  intros Hok Hnd Hσ Ht. revert σ Hσ. induction Ht as [|k t (f & Hf & Hn & Hv) _ IH]; intros σ Hσ; [done|].
  cbn [fold_ok foldl]. rewrite find_record, <- Hn, find_name by done. cbn [fmap option_fmap option_map].
  change (fmap (M := option) ?g (Some ?x)) with (Some (g x)). cbv iota.
  unfold ExtractTypeFromPartitionSpec. rewrite find_name by done. cbn [mbind option_bind].
  rewrite forallb_forall in Hok. destruct (field_ok_type f) as [-> Htype]; [by apply Hok, list_elem_of_In|].
  rewrite Hn, (update_record σ spec k f) by (done || (rewrite <- Hn; by apply Hσ)). cbn [rbind].
  apply IH. intros g Hg. unfold set_key. destruct (String.eqb_spec (pkf_name g) (pk_name k)) as [E|]; [|by apply Hσ].
  assert (g = f) as ->; [|done].
  pose proof (find_name spec g Hnd Hg) as E1. pose proof (find_name spec f Hnd Hf) as E2.
  rewrite E, <- Hn in E1. congruence.
Qed.

Lemma foldl_set_key t σ k : NoDup (pk_name <$> t) → k ∈ t → foldl set_key σ t (pk_name k) = pk_value k.
Proof.
  revert σ. induction t as [|j t IH]; intros σ; [intros _ H; by apply elem_of_nil in H|].
  cbn [fmap list_fmap foldl]. rewrite NoDup_cons, elem_of_cons. intros [Hj Hnd] [->|Hk]; [|by apply IH].
  assert (Hkeep : ∀ t σ n, n ∉ pk_name <$> t → foldl set_key σ t n = σ n).
  { clear. intros t. induction t as [|j t IH]; intros σ n Hn; [done|]. cbn [foldl]. rewrite IH by (intros H; apply Hn; by right).
    unfold set_key. destruct (String.eqb_spec n (pk_name j)) as [->|]; [|done]. destruct Hn. by left. }
  rewrite Hkeep by done. unfold set_key. by rewrite String.eqb_refl.
Qed.

(** The tuple as it is read back. *)
Definition read_tuple (spec : list PartitionKeyField) (t : PartitionTuple) : PartitionTuple :=
  (λ k, read_key (pk_name k) (ExtractTypeFromPartitionSpec spec (pk_name k)) (pk_value k)) <$> t.

Definition partition_schema (spec : list PartitionKeyField) : avro_node := SRecord "r102" (schema_fields spec).
Definition partition_datum (spec : list PartitionKeyField) (t : PartitionTuple) : datum := DRecord (record_of (values t) spec).

Lemma schema_fields_names spec : (schema_fields spec).*1 = pkf_name <$> spec.
Proof. induction spec; [done|]. cbn. by f_equal. Qed.
Lemma record_of_names σ spec : (record_of σ spec).*1 = pkf_name <$> spec.
Proof. induction spec; [done|]. cbn. by f_equal. Qed.

Section tuple.
Context (spec : list PartitionKeyField) (t : PartitionTuple).
Context (Hok : forallb field_ok spec = true) (Hnd : NoDup (pkf_name <$> spec)) (Ht : tuple_ok spec t).

Lemma spec_field f : f ∈ spec → pkf_type f = Some (field_type f) ∧ type_ok (field_type f) = true.
Proof using Hok. intros Hf. apply field_ok_type. rewrite forallb_forall in Hok. by apply Hok, list_elem_of_In. Qed.

Lemma values_ok f : f ∈ spec → value_ok (field_type f) (values t (pkf_name f)).
Proof using Hnd Ht.
  intros Hf. destruct Ht as (_ & Hp & Hall). assert (Hin : pkf_name f ∈ pk_name <$> t) by (rewrite Hp; by apply list_elem_of_fmap_2).
  apply list_elem_of_fmap in Hin as (k & E & Hk). rewrite Forall_forall in Hall. destruct (Hall k Hk) as (g & Hg & Eg & Hv).
  unfold values. rewrite E, foldl_set_key by (done || (rewrite Hp; done)).
  assert (g = f) as <-; [|done]. pose proof (find_name spec g Hnd Hg) as E1. pose proof (find_name spec f Hnd Hf) as E2.
  rewrite Eg, <- E in E1. congruence.
Qed.

Lemma partition_serialized :
  SerializePartition spec t (GenericDatum (partition_schema spec)) = Ok (partition_datum spec t).
Proof using Hok Hnd Ht.
  unfold SerializePartition, partition_schema, partition_datum. cbn [GenericDatum set_value].
  replace (List.map _ (schema_fields spec)) with (record_of no_values spec).
  - rewrite partition_loop; [done|done|done|done|apply Ht].
  - unfold record_of, schema_fields. rewrite map_map. done.
Qed.

Lemma partition_canon : canon (partition_datum spec t) (partition_schema spec).
Proof using Hok Hnd Ht.
  apply canon_record.
  - unfold canon_fields, record_of, schema_fields. apply Forall2_fmap_2, Forall_Forall2_diag, Forall_forall.
    intros f Hf. split; [done|]. apply value_canon; [by apply spec_field|by apply values_ok].
  - by rewrite schema_fields_names.
Qed.

Lemma partition_keys :
  map_ok (λ f, let! field := record_field (record_of (values t) spec) f.1 in Deserialize_key f.1 field)
    (record_of (values t) spec) =
  Ok ((λ f, read_key (pkf_name f) (pkf_type f) (values t (pkf_name f))) <$> spec).
Proof using Hok Hnd Ht.
  assert (Hstep : ∀ fs, fs ⊆ spec →
    map_ok (λ f, let! field := record_field (record_of (values t) spec) f.1 in Deserialize_key f.1 field)
      (record_of (values t) fs) = Ok ((λ f, read_key (pkf_name f) (pkf_type f) (values t (pkf_name f))) <$> fs));
    [|by apply Hstep].
  induction fs as [|f fs IH]; intros Hsub; [done|]. cbn [record_of List.map map_ok fst].
  assert (Hf : f ∈ spec) by (apply Hsub; by left). destruct (spec_field f Hf) as [Et Hty].
  unfold record_field at 1. rewrite find_record, find_name by done.
  change (fmap (M := option) ?g (Some ?x)) with (Some (g x)). cbv beta iota. cbn [rbind].
  unfold field_schema at 1 2. rewrite value_read by (done || by apply values_ok). cbn [rbind].
  fold (record_of (values t) fs). rewrite IH by (intros g Hg; apply Hsub; by right). cbn [rbind fmap list_fmap].
  by rewrite Et.
Qed.

Lemma read_tuple_perm : (λ f, read_key (pkf_name f) (pkf_type f) (values t (pkf_name f))) <$> spec ≡ₚ read_tuple spec t.
Proof using Hnd Ht.
  destruct Ht as (_ & Hp & _).
  pose (g n := read_key n (ExtractTypeFromPartitionSpec spec n) (values t n)).
  assert (E1 : (λ f, read_key (pkf_name f) (pkf_type f) (values t (pkf_name f))) <$> spec = g <$> (pkf_name <$> spec)).
  { rewrite <- list_fmap_compose. apply list_fmap_ext. intros i f Hf. apply list_elem_of_lookup_2 in Hf.
    unfold g, ExtractTypeFromPartitionSpec. cbn. by rewrite find_name. }
  assert (E2 : read_tuple spec t = g <$> (pk_name <$> t)).
  { unfold read_tuple. rewrite <- list_fmap_compose. apply list_fmap_ext. intros i k Hk. apply list_elem_of_lookup_2 in Hk.
    unfold g, values. cbn. rewrite foldl_set_key by (done || by rewrite Hp). done. }
  by rewrite E1, E2, Hp.
Qed.

Lemma partition_read : Deserialize_partition (partition_datum spec t) = Ok (read_tuple spec t).
Proof using Hok Hnd Ht.
  unfold Deserialize_partition, partition_datum. cbn [content_of]. rewrite partition_keys. cbn [rbind]. f_equal.
  destruct Ht as (Hs & Hp & _).
  apply (StronglySorted_unique_strong name_le).
  - intros x y Hx Hy Hxy Hyx. rewrite merge_sort_Permutation, read_tuple_perm in Hx.
    unfold read_tuple in Hx, Hy. apply list_elem_of_fmap in Hx as (k1 & -> & H1). apply list_elem_of_fmap in Hy as (k2 & -> & H2).
    assert (En : pk_name k1 = pk_name k2) by (by apply (anti_symm String.le)).
    assert (pk_value k1 = pk_value k2) as Ev.
    { pose proof (foldl_set_key t no_values k1) as F1. pose proof (foldl_set_key t no_values k2) as F2.
      rewrite <- F1, <- F2, En; by rewrite ?Hp. }
    by rewrite En, Ev.
  - apply StronglySorted_merge_sort.
    + intros a b c. unfold name_le. by trans (pk_name b).
    + intros a b. unfold name_le. apply (total String.le).
  - unfold read_tuple. clear -Hs. induction Hs as [|k t Hs IH Hk]; [constructor|]. cbn. constructor; [done|].
    rewrite Forall_fmap. done.
  - by rewrite merge_sort_Permutation, read_tuple_perm.
Qed.
End tuple.

(** ** The schema of a manifest *)

(** [MakeSchemaPartition] as a list of fields. *)
Definition partition_field_node (f : PartitionKeyField) : string * Node :=
  (pkf_name f, OptionalNode (match partition_node (field_type f) with Ok node => node | Err _ => BoolNode None end) None).

Lemma MakeSchemaPartition_eq spec :
  forallb field_ok spec = true → MakeSchemaPartition spec = Ok (RecordNode "r102" (Some 102) (List.map partition_field_node spec)).
Proof.
  unfold MakeSchemaPartition. change (List.map partition_field_node spec) with ([] ++ List.map partition_field_node spec).
  generalize (@nil (string * Node)) as acc. induction spec as [|f spec IH]; intros acc; [by rewrite app_nil_r|].
  cbn [forallb fold_ok]. intros [Hf Hok]%andb_true_iff. destruct (field_ok_type f Hf) as [-> Ht].
  assert (∃ node, partition_node (field_type f) = Ok node) as [node E].
  { destruct (field_type f) as [id|p s|sz|? ? ?]; [destruct id| | |]; try discriminate Ht; by eexists. }
  assert (Hp : partition_field_node f = (pkf_name f, OptionalNode node None)) by (unfold partition_field_node; by rewrite E).
  rewrite E. cbn [rbind AddField List.map]. rewrite IH, Hp by done. by rewrite <- app_assoc.
Qed.

Lemma partition_node_schema f :
  field_ok f = true → schema_of (partition_field_node f).2 = SUnion [SNull; field_schema f] ∧
                      node_ok (partition_field_node f).2 = true.
Proof.
  intros Hf. apply field_ok_type in Hf as [_ Ht]. unfold partition_field_node, field_schema, type_schema. cbn [snd].
  destruct (field_type f) as [id|p s|sz|? ? ?]; [destruct id| | |]; try discriminate Ht; try (split; reflexivity).
  cbn in Ht. split; [done|]. cbn. by rewrite Ht.
Qed.

Lemma partition_schema_of spec :
  forallb field_ok spec = true →
  schema_of (RecordNode "r102" (Some 102) (List.map partition_field_node spec)) = partition_schema spec.
Proof.
  intros Hok. cbn [schema_of]. unfold partition_schema, schema_fields. f_equal. rewrite map_map. apply map_ext_in.
  intros f Hf. rewrite forallb_forall in Hok. destruct (partition_node_schema f (Hok f Hf)) as [-> _]. done.
Qed.

(** The nodes of a data file, and their schemas. *)
Definition stat_node (cond : bool) (name entry : string) (value : Node) : list (string * Node) :=
  if cond then [(name, opt (arr (entry_node entry value)))] else [].

Definition file_nodes (partition : Node) (c : DataFileDeserializerConfig) : list (string * Node) :=
  [("content", IntNode None); ("file_path", StringNode None); ("file_format", StringNode None);
   ("record_count", LongNode None); ("file_size_in_bytes", LongNode None); ("equality_ids", opt (arr (IntNode None)));
   ("referenced_data_file", opt (StringNode None)); ("content_offset", opt (LongNode None));
   ("content_size_in_bytes", opt (LongNode None))]%string ++
  stat_node (extract_column_sizes c) "column_sizes" "k117_v118" (LongNode None) ++
  stat_node (extract_value_counts c) "value_counts" "k119_v120" (LongNode None) ++
  stat_node (extract_null_value_counts c) "null_value_counts" "k121_v122" (LongNode None) ++
  stat_node (extract_lower_bounds c) "lower_bounds" "k126_v127" (BytesNode None) ++
  stat_node (extract_upper_bounds c) "upper_bounds" "k129_v130" (BytesNode None) ++
  stat_node (extract_nan_value_counts c) "nan_value_counts" "k138_v139" (LongNode None) ++
  stat_node (extract_distinct_counts c) "distinct_counts" "k123_v124" (LongNode None) ++
  [("split_offsets", opt (arr (LongNode None))); ("sort_order_id", opt (IntNode None)); ("partition", partition)]%string.

Lemma AddFieldIf_node cond n id fs name entry value :
  AddFieldIf cond (RecordNode n id fs) name entry value = RecordNode n id (fs ++ stat_node cond name entry value).
Proof. unfold AddFieldIf, stat_node. destruct cond; [done|]. by rewrite app_nil_r. Qed.

Lemma MakeSchemaDataFile_eq spec cfg p :
  MakeSchemaPartition spec = Ok p →
  MakeSchemaDataFile spec cfg = Ok (RecordNode "r2" None (file_nodes p (datafile_config cfg))).
Proof.
  intros E. unfold MakeSchemaDataFile. rewrite E. cbn [AddField]. rewrite !AddFieldIf_node. cbn [AddField rbind].
  do 2 f_equal. unfold file_nodes. by rewrite <- !app_assoc.
Qed.

Definition stat_field (cond : bool) (name entry : string) (value : avro_node) : list (string * avro_node) :=
  if cond then [(name, SUnion [SNull; SArray (entry_schema entry value)])] else [].

Definition optional (s : avro_node) : avro_node := SUnion [SNull; s].

Definition file_fields (spec : list PartitionKeyField) (c : DataFileDeserializerConfig) : list (string * avro_node) :=
  [("content", SInt LT_NONE); ("file_path", SString LT_NONE); ("file_format", SString LT_NONE);
   ("record_count", SLong LT_NONE); ("file_size_in_bytes", SLong LT_NONE);
   ("equality_ids", optional (SArray (SInt LT_NONE))); ("referenced_data_file", optional (SString LT_NONE));
   ("content_offset", optional (SLong LT_NONE)); ("content_size_in_bytes", optional (SLong LT_NONE))]%string ++
  stat_field (extract_column_sizes c) "column_sizes" "k117_v118" (SLong LT_NONE) ++
  stat_field (extract_value_counts c) "value_counts" "k119_v120" (SLong LT_NONE) ++
  stat_field (extract_null_value_counts c) "null_value_counts" "k121_v122" (SLong LT_NONE) ++
  stat_field (extract_lower_bounds c) "lower_bounds" "k126_v127" (SBytes LT_NONE) ++
  stat_field (extract_upper_bounds c) "upper_bounds" "k129_v130" (SBytes LT_NONE) ++
  stat_field (extract_nan_value_counts c) "nan_value_counts" "k138_v139" (SLong LT_NONE) ++
  stat_field (extract_distinct_counts c) "distinct_counts" "k123_v124" (SLong LT_NONE) ++
  [("split_offsets", optional (SArray (SLong LT_NONE))); ("sort_order_id", optional (SInt LT_NONE));
   ("partition", partition_schema spec)]%string.

Definition entry_fields (spec : list PartitionKeyField) (c : DataFileDeserializerConfig) : list (string * avro_node) :=
  [("status", SInt LT_NONE); ("snapshot_id", optional (SLong LT_NONE)); ("sequence_number", optional (SLong LT_NONE));
   ("file_sequence_number", optional (SLong LT_NONE)); ("data_file", SRecord "r2" (file_fields spec c))]%string.

Definition manifest_schema (spec : list PartitionKeyField) (c : DataFileDeserializerConfig) : avro_node :=
  SRecord "manifest_entry" (entry_fields spec c).

Definition entry_nodes (partition : Node) (c : DataFileDeserializerConfig) : list (string * Node) :=
  [("status", IntNode (Some 0)); ("snapshot_id", opt (LongNode (Some 1))); ("sequence_number", opt (LongNode (Some 3)));
   ("file_sequence_number", opt (LongNode (Some 4))); ("data_file", RecordNode "r2" None (file_nodes partition c))]%string.

Lemma stat_node_schema cond name entry value :
  List.map (λ f, (f.1, schema_of f.2)) (stat_node cond name entry value) = stat_field cond name entry (schema_of value).
Proof. by destruct cond. Qed.

Lemma file_nodes_schema spec p c :
  schema_of p = partition_schema spec → List.map (λ f, (f.1, schema_of f.2)) (file_nodes p c) = file_fields spec c.
Proof.
  intros Hp. unfold file_nodes, file_fields. rewrite !map_app, !stat_node_schema. cbn [List.map fst snd]. by rewrite Hp.
Qed.

Lemma MakeSchemaManifestEntry_eq spec cfg :
  forallb field_ok spec = true →
  ∃ node, MakeSchemaManifestEntry spec cfg = Ok node ∧ schema_of node = manifest_schema spec (datafile_config cfg) ∧
    node = RecordNode "manifest_entry" None
             (entry_nodes (RecordNode "r102" (Some 102) (List.map partition_field_node spec)) (datafile_config cfg)).
Proof.
  intros Hok. unfold MakeSchemaManifestEntry. rewrite (MakeSchemaDataFile_eq spec cfg _ (MakeSchemaPartition_eq spec Hok)).
  cbn [AddField rbind app]. eexists. split; [reflexivity|]. split; [|done].
  cbn [schema_of List.map fst snd opt]. unfold manifest_schema, entry_fields.
  rewrite (file_nodes_schema spec) by (by apply partition_schema_of). done.
Qed.

(** *** The schema compiles *)

Lemma sublist_opt {A} (c : bool) (x : A) l1 l2 :
  l1 `sublist_of` l2 → (if c then [x] else []) ++ l1 `sublist_of` [x] ++ l2.
Proof. intros. apply sublist_app; [|done]. destruct c; [done|apply sublist_nil_l]. Qed.

Lemma file_nodes_sub p c : file_nodes p c `sublist_of` file_nodes p default_datafile_config.
Proof. unfold file_nodes. apply sublist_app; [done|]. by repeat apply sublist_opt. Qed.

Lemma file_fields_sub spec c : file_fields spec c `sublist_of` file_fields spec default_datafile_config.
Proof. unfold file_fields. apply sublist_app; [done|]. by repeat apply sublist_opt. Qed.

Lemma node_ok_sub n id fs fs' :
  fs `sublist_of` fs' → node_ok (RecordNode n id fs') = true → node_ok (RecordNode n id fs) = true.
Proof.
  intros Hsub. cbn [node_ok]. rewrite !andb_true_iff, !bool_decide_eq_true, !forallb_forall.
  intros [[[Hn Hv] Hnd] Hok].
  assert (Hin : ∀ f, In f fs → In f fs') by (intros f; rewrite <- !list_elem_of_In; intros; by eapply elem_of_sublist).
  repeat split; auto. eapply sublist_NoDup; [done|]. by apply fmap_sublist.
Qed.

Lemma flat_map_sublist {A B} (f : A → list B) l1 l2 : l1 `sublist_of` l2 → flat_map f l1 `sublist_of` flat_map f l2.
Proof.
  induction 1 as [|x l1 l2 _ IH|x l1 l2 _ IH]; cbn [flat_map]; [done|by apply sublist_app|]. by apply sublist_inserts_l.
Qed.

(** Names of the program, and of the types of partition fields. *)
Definition static_names : list string :=
  ["manifest_entry"; "r2"; "k117_v118"; "k119_v120"; "k121_v122"; "k126_v127"; "k129_v130"; "k138_v139"; "k123_v124"; "r102"].

Lemma manifest_names spec :
  defined_names (manifest_schema spec default_datafile_config) =
  static_names ++ flat_map (λ f, defined_names (field_schema f)) spec.
Proof.
  assert (E : flat_map (λ f, defined_names f.2) (schema_fields spec) = flat_map (λ f, defined_names (field_schema f)) spec).
  { induction spec as [|f spec IH]; [done|]. cbn [schema_fields List.map flat_map snd defined_names app].
    rewrite app_nil_r. f_equal. exact IH. }
  unfold static_names. cbn -[schema_fields]. rewrite E, !app_nil_r. done.
Qed.

Lemma type_names_static f n : field_ok f = true → n ∈ defined_names (field_schema f) → n ∉ static_names.
Proof.
  intros Hf. apply field_ok_type in Hf as [_ Ht]. unfold field_schema, type_schema.
  destruct (field_type f) as [id|p s|sz|? ? ?]; [destruct id| | |]; try discriminate Ht; cbn; rewrite ?elem_of_nil; try done;
    intros ->%list_elem_of_singleton; unfold static_names; rewrite !elem_of_cons, elem_of_nil; intuition discriminate.
Qed.

Lemma manifest_names_NoDup spec c : spec_ok spec = true → NoDup (defined_names (manifest_schema spec c)).
Proof.
  unfold spec_ok. rewrite !andb_true_iff, !bool_decide_eq_true. intros [[Hok _] Hnd].
  assert (Hfull : NoDup (defined_names (manifest_schema spec default_datafile_config))).
  { rewrite manifest_names. apply NoDup_app. split; [|split; [|done]].
    - apply (bool_decide_unpack _). vm_compute. exact I.
    - intros n Hs Hin. apply elem_of_flat_map in Hin as (f & Hf & Hin). rewrite forallb_forall in Hok.
      by apply (type_names_static f n) in Hin; [|by apply Hok, list_elem_of_In]. }
  eapply sublist_NoDup; [exact Hfull|]. unfold manifest_schema, entry_fields. cbn [defined_names flat_map snd app].
  do 2 apply sublist_skip. rewrite !app_nil_r. apply flat_map_sublist, file_fields_sub.
Qed.

Lemma partition_node_ok spec :
  forallb field_ok spec = true → NoDup (pkf_name <$> spec) →
  node_ok (RecordNode "r102" (Some 102) (List.map partition_field_node spec)) = true.
Proof.
  intros Hok Hnd. cbn [node_ok]. rewrite !andb_true_iff, bool_decide_eq_true, !forallb_forall.
  rewrite forallb_forall in Hok. repeat split.
  - intros g (f & <- & Hf)%in_map_iff. specialize (Hok f Hf). unfold field_ok in Hok.
    rewrite !andb_true_iff in Hok. apply Hok.
  - replace (List.map partition_field_node spec).*1 with (pkf_name <$> spec); [done|].
    clear. induction spec; [done|]. cbn. by f_equal.
  - intros g (f & <- & Hf)%in_map_iff. by apply partition_node_schema, Hok.
Qed.

Lemma file_nodes_ok p c : node_ok p = true → node_ok (RecordNode "r2" None (file_nodes p c)) = true.
Proof.
  intros Hp. eapply node_ok_sub; [apply file_nodes_sub|]. cbn [node_ok].
  assert (bool_decide (NoDup (file_nodes p default_datafile_config).*1) = true) as -> by (vm_compute; reflexivity).
  cbn [file_nodes app stat_node default_datafile_config extract_column_sizes extract_value_counts extract_null_value_counts
       extract_lower_bounds extract_upper_bounds extract_nan_value_counts extract_distinct_counts].
  assert (∀ l, forallb (λ f : string * Node, node_ok f.2) (l ++ [("partition"%string, p)]) =
               forallb (λ f, node_ok f.2) l) as Hl.
  { intros l. rewrite forallb_app. cbn [forallb snd]. by rewrite Hp, !andb_true_r. }
  change (?a :: ?b :: ?c :: ?d :: ?e :: ?f :: ?g :: ?h :: ?i :: ?j :: ?k :: ?l :: ?m :: ?n :: ?o :: ?q :: ?r :: ?s :: [("partition"%string, p)])
    with ([a;b;c;d;e;f;g;h;i;j;k;l;m;n;o;q;r;s] ++ [("partition"%string, p)]).
  rewrite Hl. vm_compute. reflexivity.
Qed.

Lemma entry_nodes_ok p c : node_ok p = true → node_ok (RecordNode "manifest_entry" None (entry_nodes p c)) = true.
Proof.
  intros Hp. pose proof (file_nodes_ok p c Hp) as Hq. unfold entry_nodes. revert Hq.
  generalize (RecordNode "r2" None (file_nodes p c)). intros q Hq. cbn [node_ok forallb fst snd opt]. rewrite Hq.
  vm_compute. reflexivity.
Qed.

Lemma manifest_schema_compiles `{Avro} spec cfg :
  spec_ok spec = true →
  ∃ node, MakeSchemaManifestEntry spec cfg = Ok node ∧
          AvroSchemaFromNode node = Ok (manifest_schema spec (datafile_config cfg)).
Proof.
  intros Hspec. pose proof (manifest_names_NoDup spec (datafile_config cfg) Hspec) as Hnames.
  unfold spec_ok in Hspec. rewrite !andb_true_iff, !bool_decide_eq_true in Hspec. destruct Hspec as [[Hok Hnd] _].
  destruct (MakeSchemaManifestEntry_eq spec cfg Hok) as (node & E & Hs & ->). eexists. split; [exact E|].
  edestruct ToJsonString_means as (text & Et & Hm); cycle 1.
  - unfold AvroSchemaFromNode. rewrite Et. cbn [rbind]. rewrite Hs in Hm. by apply compile_meaning.
  - by apply entry_nodes_ok, partition_node_ok.
Qed.

(** ** The data of an entry *)

Fixpoint set_field (key : string) (d : datum) (fs : list (string * datum)) : list (string * datum) :=
  match fs with
  | [] => []
  | e :: fs => if String.eqb e.1 key then (e.1, d) :: fs else e :: set_field key d fs
  end.

Lemma update_set key f fs d d' :
  find_field key fs = Some d → f d = Ok d' → update_field key f fs = Ok (set_field key d' fs).
Proof.
  intros Hf E. induction fs as [|[n x] fs IH]; [done|]. rewrite find_field_cons in Hf. cbn [update_field set_field fst snd].
  destruct (String.eqb n key).
  - injection Hf as ->. by rewrite E.
  - by rewrite IH.
Qed.

Definition long_map (name : string) (m : gmap Z Z) : datum := map_datum (DLong LT_NONE) name (SLong LT_NONE) m.
Definition bytes_map (name : string) (m : gmap Z bytes) : datum := map_datum (DBytes LT_NONE) name (SBytes LT_NONE) m.
Definition opt_long (v : option Z) : datum := opt_datum (SLong LT_NONE) (DLong LT_NONE <$> v).

Definition file_data (spec : list PartitionKeyField) (f : DataFile) : list (string * datum) :=
  [("content", DInt LT_NONE (of_FileContent (content f))); ("file_path", DString LT_NONE (file_path f));
   ("file_format", DString LT_NONE (file_format f)); ("record_count", DLong LT_NONE (record_count f));
   ("file_size_in_bytes", DLong LT_NONE (file_size_in_bytes f));
   ("equality_ids", vector_datum (SInt LT_NONE) (List.map (DInt LT_NONE) (equality_ids f)));
   ("referenced_data_file", opt_datum (SString LT_NONE) (DString LT_NONE <$> referenced_data_file f));
   ("content_offset", opt_long (content_offset f)); ("content_size_in_bytes", opt_long (content_size_in_bytes f));
   ("column_sizes", long_map "k117_v118" (column_sizes f)); ("value_counts", long_map "k119_v120" (value_counts f));
   ("null_value_counts", long_map "k121_v122" (null_value_counts f));
   ("lower_bounds", bytes_map "k126_v127" (lower_bounds f)); ("upper_bounds", bytes_map "k129_v130" (upper_bounds f));
   ("nan_value_counts", long_map "k138_v139" (nan_value_counts f));
   ("distinct_counts", long_map "k123_v124" (distinct_counts f));
   ("split_offsets", vector_datum (SLong LT_NONE) (List.map (DLong LT_NONE) (split_offsets f)));
   ("sort_order_id", opt_datum (SInt LT_NONE) (DInt LT_NONE <$> sort_order_id f));
   ("partition", partition_datum spec (partition_tuple f))]%string.

Definition entry_data (spec : list PartitionKeyField) (e : ManifestEntry) : list (string * datum) :=
  [("status", DInt LT_NONE (of_Status (status e))); ("snapshot_id", opt_long (entry_snapshot_id e));
   ("sequence_number", opt_long (sequence_number e)); ("file_sequence_number", opt_long (file_sequence_number e));
   ("data_file", DRecord (file_data spec (data_file e)))]%string.

Section entry.
Context (spec : list PartitionKeyField).
Context (Hok : forallb field_ok spec = true) (Hnd : NoDup (pkf_name <$> spec)).

Definition file_start : list (string * datum) :=
  [("content", DInt LT_NONE 0); ("file_path", DString LT_NONE ""); ("file_format", DString LT_NONE "");
   ("record_count", DLong LT_NONE 0); ("file_size_in_bytes", DLong LT_NONE 0);
   ("equality_ids", opt_datum (SArray (SInt LT_NONE)) None); ("referenced_data_file", opt_datum (SString LT_NONE) None);
   ("content_offset", opt_datum (SLong LT_NONE) None); ("content_size_in_bytes", opt_datum (SLong LT_NONE) None);
   ("column_sizes", opt_datum (SArray (entry_schema "k117_v118" (SLong LT_NONE))) None);
   ("value_counts", opt_datum (SArray (entry_schema "k119_v120" (SLong LT_NONE))) None);
   ("null_value_counts", opt_datum (SArray (entry_schema "k121_v122" (SLong LT_NONE))) None);
   ("lower_bounds", opt_datum (SArray (entry_schema "k126_v127" (SBytes LT_NONE))) None);
   ("upper_bounds", opt_datum (SArray (entry_schema "k129_v130" (SBytes LT_NONE))) None);
   ("nan_value_counts", opt_datum (SArray (entry_schema "k138_v139" (SLong LT_NONE))) None);
   ("distinct_counts", opt_datum (SArray (entry_schema "k123_v124" (SLong LT_NONE))) None);
   ("split_offsets", opt_datum (SArray (SLong LT_NONE)) None); ("sort_order_id", opt_datum (SInt LT_NONE) None);
   ("partition", GenericDatum (partition_schema spec))]%string.

Lemma file_start_eq : GenericDatum (SRecord "r2" (file_fields spec default_datafile_config)) = DRecord file_start.
Proof using. reflexivity. Qed.

Lemma data_file_serialized f :
  tuple_ok spec (partition_tuple f) →
  SerializeDataFile spec f (GenericDatum (SRecord "r2" (file_fields spec default_datafile_config))) =
  Ok (DRecord (file_data spec f)).
Proof using Hok Hnd.
  intros Ht. rewrite file_start_eq. unfold SerializeDataFile, in_record. cbn [set_value].
  do 18 (erewrite update_set by (reflexivity || apply vector_ok || apply optional_string || apply optional_long ||
                                  apply optional_int || apply map_serialized); cbn [rbind]).
  erewrite update_set by (reflexivity || by apply partition_serialized). reflexivity.
Qed.

Lemma entry_serialized e :
  tuple_ok spec (partition_tuple (data_file e)) →
  SerializeManifestEntry spec e (GenericDatum (manifest_schema spec default_datafile_config)) =
  Ok (DRecord (entry_data spec e)).
Proof using Hok Hnd.
  intros Ht. unfold SerializeManifestEntry, in_record.
  change (GenericDatum (manifest_schema spec default_datafile_config)) with
    (DRecord [("status", DInt LT_NONE 0); ("snapshot_id", opt_datum (SLong LT_NONE) None);
              ("sequence_number", opt_datum (SLong LT_NONE) None); ("file_sequence_number", opt_datum (SLong LT_NONE) None);
              ("data_file", GenericDatum (SRecord "r2" (file_fields spec default_datafile_config)))]%string).
  cbn [set_value]. do 4 (erewrite update_set by (reflexivity || apply optional_long); cbn [rbind]).
  erewrite update_set by (reflexivity || by apply data_file_serialized). reflexivity.
Qed.

(** *** What a written entry is read back as *)

(** Values in the ranges of their C++ types, a tuple for the partition fields. *)
Definition counts_ok (m : gmap Z Z) : Prop := map_Forall (λ k v, in_i32 k ∧ in_i64 v) m.
Definition bounds_ok (m : gmap Z bytes) : Prop := map_Forall (λ k _, in_i32 k) m.

Record data_file_ok (f : DataFile) : Prop := {
  fo_records : in_i64 (record_count f);
  fo_size : in_i64 (file_size_in_bytes f);
  fo_ids : Forall in_i32 (equality_ids f);
  fo_splits : Forall in_i64 (split_offsets f);
  fo_order : optional_ok in_i32 (sort_order_id f);
  fo_offset : optional_ok in_i64 (content_offset f);
  fo_csize : optional_ok in_i64 (content_size_in_bytes f);
  fo_sizes : counts_ok (column_sizes f);
  fo_values : counts_ok (value_counts f);
  fo_nulls : counts_ok (null_value_counts f);
  fo_nans : counts_ok (nan_value_counts f);
  fo_distinct : counts_ok (distinct_counts f);
  fo_lower : bounds_ok (lower_bounds f);
  fo_upper : bounds_ok (upper_bounds f);
  fo_tuple : tuple_ok spec (partition_tuple f);
}.

Lemma canon_opt_long v : optional_ok in_i64 v → canon (opt_long v) (optional (SLong LT_NONE)).
Proof using. intros Hv. apply canon_opt. intros d. destruct v as [v|]; [|done]. intros [= <-]. apply canon_long. by apply Hv. Qed.

Lemma canon_counts name m : counts_ok m → canon (long_map name m) (optional (SArray (entry_schema name (SLong LT_NONE)))).
Proof using.
  intros Hm. apply canon_map. intros k v Hkv. destruct (Hm k v Hkv). split; [done|by apply canon_long].
Qed.
Lemma canon_bounds name m : bounds_ok m → canon (bytes_map name m) (optional (SArray (entry_schema name (SBytes LT_NONE)))).
Proof using. intros Hm. apply canon_map. intros k v Hkv. split; [by apply (Hm k v)|done]. Qed.

Lemma file_canon f : data_file_ok f → canon_fields (file_data spec f) (file_fields spec default_datafile_config).
Proof using Hok Hnd.
  intros [].
  unfold canon_fields, file_data, file_fields, stat_field. cbn [default_datafile_config app extract_column_sizes
    extract_value_counts extract_null_value_counts extract_lower_bounds extract_upper_bounds extract_nan_value_counts
    extract_distinct_counts].
  repeat (apply Forall2_cons; split; [split; [done|]; cbn [snd]|]); try apply Forall2_nil_2; auto using canon_opt_long, canon_counts, canon_bounds with avro.
  - apply canon_int. by destruct (content f).
  - apply canon_vector, Forall_map. eapply Forall_impl; [done|]. intros v Hv. by apply canon_int.
  - apply canon_opt. intros d. destruct (referenced_data_file f); [|done]. by intros [= <-].
  - apply canon_vector, Forall_map. eapply Forall_impl; [done|]. intros v Hv. by apply canon_long.
  - apply canon_opt. intros d. destruct (sort_order_id f) as [v|]; [|done]. intros [= <-]. apply canon_int. by apply fo_order0.
  - by apply partition_canon.
Qed.

(** The fields a configuration takes from a file. *)
Definition extracted (c : DataFileDeserializerConfig) (f : DataFile) : DataFile :=
  {| content := if extract_content c then content f else kData;
     file_path := if extract_file_path c then file_path f else "";
     file_format := if extract_file_format c then file_format f else "";
     partition_tuple := if extract_partition_tuple c then read_tuple spec (partition_tuple f) else [];
     record_count := if extract_record_count c then record_count f else 0;
     file_size_in_bytes := if extract_file_size_in_bytes c then file_size_in_bytes f else 0;
     column_sizes := if extract_column_sizes c then column_sizes f else ∅;
     value_counts := if extract_value_counts c then value_counts f else ∅;
     null_value_counts := if extract_null_value_counts c then null_value_counts f else ∅;
     nan_value_counts := if extract_nan_value_counts c then nan_value_counts f else ∅;
     distinct_counts := if extract_distinct_counts c then distinct_counts f else ∅;
     lower_bounds := if extract_lower_bounds c then lower_bounds f else ∅;
     upper_bounds := if extract_upper_bounds c then upper_bounds f else ∅;
     key_metadata := [];
     split_offsets := if extract_split_offsets c then split_offsets f else [];
     equality_ids := if extract_equality_ids c then equality_ids f else [];
     sort_order_id := if extract_sort_order_id c then sort_order_id f else None;
     referenced_data_file := if extract_referenced_data_file c then referenced_data_file f else None;
     content_offset := if extract_content_offset c then content_offset f else None;
     content_size_in_bytes := if extract_content_size_in_bytes c then content_size_in_bytes f else None |}.

Lemma ExtractIf_ok {A} (extract : list (string * datum) → string → result A) r name (v a : A) cond :
  (cond = true → extract r name = Ok a) → ExtractIf extract r name v cond = Ok (if cond then a else v).
Proof using. unfold ExtractIf. destruct cond; [intros ->|]; done. Qed.

Lemma Extract_find {A} (de : datum → result A) r name d a : find_field name r = Some d → de d = Ok a → Extract de r name = Ok a.
Proof using. unfold Extract, record_field. intros -> E. exact E. Qed.
Lemma Extract_or_find {A} empty (de : datum → result A) r name d a :
  find_field name r = Some d → de d = Ok a → Extract_or empty de r name = Ok a.
Proof using. unfold Extract_or. intros -> E. exact E. Qed.

Lemma read_opt_long v : Deserialize_optional Deserialize_long (opt_long v) = Ok v.
Proof using. by apply Deserialize_optional_ok. Qed.
Lemma read_opt_int v : Deserialize_optional Deserialize_int (opt_datum (SInt LT_NONE) (DInt LT_NONE <$> v)) = Ok v.
Proof using. by apply Deserialize_optional_ok. Qed.
Lemma read_opt_string v : Deserialize_optional Deserialize_string (opt_datum (SString LT_NONE) (DString LT_NONE <$> v)) = Ok v.
Proof using. by apply Deserialize_optional_ok. Qed.
Lemma read_longs l : Deserialize_vector Deserialize_long (vector_datum (SLong LT_NONE) (List.map (DLong LT_NONE) l)) = Ok l.
Proof using. by apply Deserialize_vector_datum, map_ok_inv. Qed.
Lemma read_ints l : Deserialize_vector Deserialize_int (vector_datum (SInt LT_NONE) (List.map (DInt LT_NONE) l)) = Ok l.
Proof using. by apply Deserialize_vector_datum, map_ok_inv. Qed.
Lemma read_counts name m : Deserialize_map_long (long_map name m) = Ok m.
Proof using. by apply Deserialize_map_datum. Qed.
Lemma read_bounds name m : Deserialize_map_bytes (bytes_map name m) = Ok m.
Proof using. by apply Deserialize_map_datum. Qed.

(** The statistics that [c'] extracts are in the schema for [c]. *)
Definition covered (c' c : DataFileDeserializerConfig) : Prop :=
  (extract_column_sizes c' = true → extract_column_sizes c = true) ∧
  (extract_value_counts c' = true → extract_value_counts c = true) ∧
  (extract_null_value_counts c' = true → extract_null_value_counts c = true) ∧
  (extract_lower_bounds c' = true → extract_lower_bounds c = true) ∧
  (extract_upper_bounds c' = true → extract_upper_bounds c = true) ∧
  (extract_nan_value_counts c' = true → extract_nan_value_counts c = true) ∧
  (extract_distinct_counts c' = true → extract_distinct_counts c = true).

Lemma find_app_none {A} name (l1 l2 : list (string * A)) :
  find_field name l1 = None → find_field name (l1 ++ l2) = find_field name l2.
Proof using. intros E. by rewrite find_field_app, E. Qed.

Lemma find_stat_none cond n entry v name : String.eqb n name = false → find_field name (stat_field cond n entry v) = None.
Proof using. intros E. destruct cond; [|done]. cbn [stat_field]. by rewrite find_field_cons, E. Qed.

Lemma file_find name c d f :
  find_field name (file_data spec f) = Some d → is_Some (find_field name (file_fields spec c)) →
  find_field name (restrict (file_fields spec c) (file_data spec f)) = Some d.
Proof using. intros Hd [s Hs]. by rewrite find_field_restrict, Hs. Qed.

(** Find a field of the schema behind the statistics, given what [H] says of them. *)
Ltac in_schema H :=
  unfold file_fields;
  repeat (rewrite find_app_none by (reflexivity || (apply find_stat_none; reflexivity)));
  try rewrite H; eexists; reflexivity.

(** One [ExtractIf] of the deserializer. *)
Ltac take Hr C lem :=
  erewrite ExtractIf_ok; [cbn [rbind]|
    let H := fresh in intros H; try apply C in H;
    (eapply Extract_find || eapply Extract_or_find); [apply Hr; [reflexivity|in_schema H]|lem]].

Lemma file_read c' c f :
  data_file_ok f → covered c' c →
  DataFile_Deserialize c' (DRecord (restrict (file_fields spec c) (file_data spec f))) = Ok (extracted c' f).
Proof using Hok Hnd.
  intros Hf (C1 & C2 & C3 & C4 & C5 & C6 & C7). unfold DataFile_Deserialize. cbn [content_of].
  set (r := restrict (file_fields spec c) (file_data spec f)).
  assert (Hr : ∀ name d, find_field name (file_data spec f) = Some d → is_Some (find_field name (file_fields spec c)) →
            find_field name r = Some d) by (intros; by apply file_find).
  assert (Hcontent : (if extract_content c' then let! v := Extract Deserialize_int r "content" in to_FileContent v
                      else Ok kData) = Ok (if extract_content c' then content f else kData)).
  { destruct (extract_content c'); [|done].
    erewrite Extract_find; [|apply Hr; [reflexivity|in_schema Hf]|reflexivity]. by destruct (content f). }
  rewrite Hcontent. clear Hcontent.
  take Hr Hf ltac:(reflexivity). take Hr Hf ltac:(reflexivity). take Hr Hf ltac:(reflexivity). take Hr Hf ltac:(reflexivity).
  take Hr Hf ltac:(apply read_opt_int). take Hr Hf ltac:(apply read_opt_string).
  take Hr Hf ltac:(apply read_opt_long). take Hr Hf ltac:(apply read_opt_long).
  take Hr C1 ltac:(apply read_counts). take Hr C2 ltac:(apply read_counts). take Hr Hf ltac:(apply read_longs).
  take Hr C3 ltac:(apply read_counts). take Hr C4 ltac:(apply read_bounds). take Hr C5 ltac:(apply read_bounds).
  take Hr Hf ltac:(apply partition_read; [done|done|apply Hf]).
  take Hr C6 ltac:(apply read_counts). take Hr C7 ltac:(apply read_counts). take Hr Hf ltac:(apply read_ints).
  reflexivity.
Qed.

(** *** Entries *)

Record entry_ok (e : ManifestEntry) : Prop := {
  eo_snapshot : optional_ok in_i64 (entry_snapshot_id e);
  eo_seq : optional_ok in_i64 (sequence_number e);
  eo_file_seq : optional_ok in_i64 (file_sequence_number e);
  eo_file : data_file_ok (data_file e);
}.

Definition extracted_entry (cfg : ManifestEntryDeserializerConfig) (e : ManifestEntry) : ManifestEntry :=
  {| status := if extract_status cfg then status e else kExisting;
     entry_snapshot_id := if extract_snapshot_id cfg then entry_snapshot_id e else None;
     sequence_number := if extract_sequence_number cfg then sequence_number e else None;
     file_sequence_number := if extract_file_sequence_number cfg then file_sequence_number e else None;
     data_file := extracted (datafile_config cfg) (data_file e) |}.

Lemma file_fields_NoDup c : NoDup (file_fields spec c).*1.
Proof using.
  eapply sublist_NoDup; [|apply fmap_sublist, file_fields_sub].
  apply (bool_decide_unpack _). vm_compute. exact I.
Qed.

Lemma entry_canon e : entry_ok e → canon_fields (entry_data spec e) (entry_fields spec default_datafile_config).
Proof using Hok Hnd.
  intros [H1 H2 H3 H4]. unfold canon_fields, entry_data, entry_fields.
  repeat (apply Forall2_cons; split; [split; [done|]; cbn [snd]|]); try apply Forall2_nil_2; auto using canon_opt_long.
  - apply canon_int. by destruct (status e).
  - apply canon_record; [by apply file_canon|apply file_fields_NoDup].
Qed.

(** A written entry, as a reader with the schema for [c] gets it. *)
Definition entry_seen (c : DataFileDeserializerConfig) (e : ManifestEntry) : datum :=
  DRecord [("status", DInt LT_NONE (of_Status (status e))); ("snapshot_id", opt_long (entry_snapshot_id e));
           ("sequence_number", opt_long (sequence_number e)); ("file_sequence_number", opt_long (file_sequence_number e));
           ("data_file", DRecord (restrict (file_fields spec c) (file_data spec (data_file e))))]%string.

Lemma read_field_one n (fs : list (string * datum)) ss x s r y :
  find_field n fs = Some x → find_field n ss = Some s → read_as x s r = Some y →
  (x ← find_field n fs; s ← find_field n ss; y ← read_as x s r; Some (n, y)) = Some (n, y).
Proof using. intros -> -> E. cbn [mbind option_bind]. by rewrite E. Qed.

Lemma entry_read_as c e :
  entry_ok e →
  read_as (DRecord (entry_data spec e)) (manifest_schema spec default_datafile_config) (manifest_schema spec c) =
  Some (entry_seen c e).
Proof using Hok Hnd.
  intros He. unfold manifest_schema. rewrite read_as_record by (by apply entry_canon).
  destruct He as [H1 H2 H3 H4].
  assert (Hfile : read_as (DRecord (file_data spec (data_file e))) (SRecord "r2" (file_fields spec default_datafile_config))
                    (SRecord "r2" (file_fields spec c)) =
                  Some (DRecord (restrict (file_fields spec c) (file_data spec (data_file e))))).
  { rewrite read_as_record by (by apply file_canon).
    rewrite read_fields_sub; [reflexivity|by apply file_canon|apply file_fields_NoDup|].
    intros x Hx. eapply elem_of_sublist; [done|apply file_fields_sub]. }
  unfold read_fields, entry_fields at 2. cbn [mapM fst snd].
  erewrite (read_field_one "status") by (reflexivity || (apply canon_int; by destruct (status e))).
  erewrite (read_field_one "snapshot_id") by (reflexivity || by apply canon_opt_long).
  erewrite (read_field_one "sequence_number") by (reflexivity || by apply canon_opt_long).
  erewrite (read_field_one "file_sequence_number") by (reflexivity || by apply canon_opt_long).
  erewrite (read_field_one "data_file") by (reflexivity || exact Hfile). reflexivity.
Qed.

Lemma entry_read cfg c e :
  entry_ok e → covered (datafile_config cfg) c →
  ManifestEntry_Deserialize cfg (entry_seen c e) = Ok (extracted_entry cfg e).
Proof using Hok Hnd.
  intros [H1 H2 H3 H4] Hc. unfold ManifestEntry_Deserialize, entry_seen. cbn [content_of].
  change (find_field "data_file" _) with (Some (DRecord (restrict (file_fields spec c) (file_data spec (data_file e))))).
  cbv iota beta. rewrite file_read by done. cbn [rbind].
  match goal with |- context [Extract Deserialize_int ?r "status"] => set (rec := r) end.
  assert (Hstatus : (if extract_status cfg then let! v := Extract Deserialize_int rec "status" in to_Status v
                     else Ok kExisting) = Ok (if extract_status cfg then status e else kExisting)).
  { destruct (extract_status cfg); [|done].
    erewrite Extract_find; [|reflexivity|reflexivity]. by destruct (status e). }
  rewrite Hstatus. cbn [rbind].
  do 3 (erewrite ExtractIf_ok; [cbn [rbind]|intros _; eapply Extract_or_find; [reflexivity|apply read_opt_long]]).
  reflexivity.
Qed.
End entry.

(** ** Manifests *)

(** The fields [other] against those a manifest was written with: as many, and each
    of them by name. *)
Definition fields_match (other spec : list PartitionKeyField) : bool :=
  bool_decide (length other = length spec) && forallb (λ f, bool_decide (pkf_name f ∈ pkf_name <$> spec)) other.

Lemma ValidatePartitionSpec_other other spec :
  match ValidatePartitionSpec other (manifest_schema spec default_datafile_config) with
  | Ok _ => fields_match other spec = true
  | Err _ => fields_match other spec = false
  end.
Proof.
  unfold ValidatePartitionSpec, fields_match.
  change (Find (manifest_schema spec default_datafile_config) "data_file") with
    (Some (SRecord "r2" (file_fields spec default_datafile_config))). cbv iota beta.
  change (Find (SRecord "r2" (file_fields spec default_datafile_config)) "partition") with (Some (partition_schema spec)).
  cbv iota beta. assert (names (partition_schema spec) = pkf_name <$> spec) as -> by apply schema_fields_names.
  cbn [leaves partition_schema]. unfold schema_fields. rewrite length_map.
  destruct (bool_decide (length other = length spec)); [|done]. cbn [Ensure rbind andb].
  by destruct (forallb _ other).
Qed.

Lemma ValidatePartitionSpec_ok spec :
  ValidatePartitionSpec spec (manifest_schema spec default_datafile_config) = Ok ().
Proof.
  pose proof (ValidatePartitionSpec_other spec spec) as Hv. destruct (ValidatePartitionSpec _ _) as [[]|e]; [done|].
  unfold fields_match in Hv. rewrite bool_decide_eq_true_2 in Hv by done. exfalso. apply not_true_iff_false in Hv. apply Hv.
  apply forallb_forall. intros f Hf. apply bool_decide_eq_true_2, list_elem_of_fmap_2. by apply list_elem_of_In.
Qed.

Lemma covered_refl c : covered c c.
Proof. repeat split; auto. Qed.
Lemma covered_default c : covered c default_datafile_config.
Proof. repeat split; auto. Qed.

Lemma map_ok_pure {A B} (f : A → result B) (g : A → B) (l : list A) :
  Forall (λ a, f a = Ok (g a)) l → map_ok f l = Ok (g <$> l).
Proof. induction 1 as [|a l Ha _ IH]; [done|]. cbn [map_ok]. rewrite Ha. cbn [rbind]. by rewrite IH. Qed.

Lemma run_pure {A B C} (f : B → result C) (h : A → B) (g : A → C) (l : list A) :
  Forall (λ a, f (h a) = Ok (g a)) l →
  run (smap (λ _ b, let! c := f b in Ok (c, ())) () (of_list (h <$> l))) = Ok (g <$> l).
Proof.
  induction 1 as [|a l Ha _ IH]; [done|]. cbn [fmap list_fmap of_list smap]. rewrite Ha. cbn [rbind run].
  change (list_fmap A B h l) with (h <$> l). rewrite IH. done.
Qed.

Lemma mapM_pure {A B C} (f : B → option C) (h : A → B) (g : A → C) (l : list A) :
  Forall (λ a, f (h a) = Some (g a)) l → mapM f (h <$> l) = Some (g <$> l).
Proof. intros Hl. apply mapM_Some. by apply Forall2_fmap_2, Forall_Forall2_diag. Qed.

Lemma delete_own (own md : gmap string bytes) :
  own_metadata own → md !! "avro.schema"%string = None → md !! "avro.codec"%string = None →
  delete "avro.codec"%string (delete "avro.schema"%string (own ∪ md)) = md.
Proof.
  intros Hown H1 H2. apply map_eq. intros k. destruct (decide (k = "avro.codec"%string)) as [->|N1].
  { by rewrite lookup_delete_eq. }
  rewrite lookup_delete_ne by done. destruct (decide (k = "avro.schema"%string)) as [->|N2].
  { by rewrite lookup_delete_eq. }
  rewrite lookup_delete_ne by done. apply lookup_union_r. destruct (own !! k) eqn:E; [|done].
  destruct (Hown k) as [?|?]; done.
Qed.

Section manifests.
Context `{Avro} (spec : list PartitionKeyField) (m : Manifest).
Context (Hspec : spec_ok spec = true) (Hentries : Forall (entry_ok spec) (entries m)).

Lemma spec_ok_inv : forallb field_ok spec = true ∧ NoDup (pkf_name <$> spec).
Proof using Hspec. unfold spec_ok in Hspec. by rewrite !andb_true_iff, !bool_decide_eq_true in Hspec; destruct Hspec as [[? ?] _]. Qed.

Lemma manifest_written :
  WriteManifestEntries m spec =
  Ok (DataFileWriter (manifest_schema spec default_datafile_config) (metadata m)
        ((λ e, DRecord (entry_data spec e)) <$> entries m)).
Proof using Hspec Hentries.
  destruct spec_ok_inv as [Hok Hnd]. unfold WriteManifestEntries.
  destruct (manifest_schema_compiles spec default_config Hspec) as (node & -> & E). cbn [rbind]. rewrite E. cbn [rbind].
  rewrite (map_ok_pure _ (λ e, DRecord (entry_data spec e))); [done|].
  eapply Forall_impl; [exact Hentries|]. intros e [_ _ _ He]. apply entry_serialized; [done|done|apply He].
Qed.

(** The open file, with or without a reader schema. *)
Lemma manifest_opened cfg use_reader_schema text :
  WriteManifestEntries m spec = Ok text →
  ∃ schema own c, own_metadata own ∧ covered (datafile_config cfg) c ∧
    reader_schema spec cfg use_reader_schema = Ok schema ∧
    DataFileReader text schema =
    Ok {| dataSchema := manifest_schema spec default_datafile_config; readerSchema := manifest_schema spec c;
          file_metadata := own ∪ metadata m; datums := of_list (entry_seen spec c <$> entries m) |}.
Proof using Hspec Hentries.
  rewrite manifest_written. intros [= <-]. destruct spec_ok_inv as [Hok Hnd].
  pose (c := if use_reader_schema then datafile_config cfg else default_datafile_config).
  pose (schema := if use_reader_schema then Some (manifest_schema spec c) else None).
  assert (Hd : default (manifest_schema spec default_datafile_config) schema = manifest_schema spec c)
    by (by destruct use_reader_schema).
  destruct (read_written (manifest_schema spec default_datafile_config) (metadata m)
              ((λ e, DRecord (entry_data spec e)) <$> entries m) schema (entry_seen spec c <$> entries m)) as (own & Hown & E).
  { rewrite Hd. apply mapM_pure. eapply Forall_impl; [exact Hentries|]. intros e He. by apply entry_read_as. }
  exists schema, own, c. split; [done|]. split; [by destruct use_reader_schema; [apply covered_refl|apply covered_default]|].
  split; [|by rewrite E, Hd]. unfold reader_schema, schema, c. destruct use_reader_schema; [|done].
  destruct (manifest_schema_compiles spec cfg Hspec) as (node & -> & E'). cbn [rbind]. by rewrite E'.
Qed.

Lemma entries_read cfg c :
  covered (datafile_config cfg) c →
  run (smap (λ _ d, let! e := ManifestEntry_Deserialize cfg d in Ok (e, ())) () (of_list (entry_seen spec c <$> entries m))) =
  Ok (extracted_entry spec cfg <$> entries m).
Proof using Hspec Hentries.
  intros Hc. destruct spec_ok_inv as [Hok Hnd].
  apply run_pure. eapply Forall_impl; [exact Hentries|]. intros e He. by apply entry_read.
Qed.
End manifests.

(** The metadata with the id of the schema: it is there already, or there is no schema to
    take it from, or it is the number under "schema-id" in the JSON text of the schema. *)
Inductive with_schema_id `{RapidJson} (m : gmap string bytes) : gmap string bytes → Prop :=
| id_given id : m !! "schema-id"%string = Some id → with_schema_id m m
| no_schema : m !! "schema"%string = None → with_schema_id m m
| no_object schema :
    m !! "schema"%string = Some schema → IsObject (Parse (c_str (string_of_bytes schema))) = false → with_schema_id m m
| id_of_schema schema members id :
    m !! "schema-id"%string = None → m !! "schema"%string = Some schema →
    Parse (c_str (string_of_bytes schema)) = JObject members → find_member "schema-id" members = Some (JInt id) →
    in_i32 id → with_schema_id m (<["schema-id"%string := bytes_of_string (pretty id)]> m).

Lemma add_schema_id_with `{RapidJson} m md : with_schema_id m md → add_schema_id m = Ok md.
Proof.
  unfold add_schema_id. intros [id E|E|schema E Eo|schema members id E Es Ej Ef Hid]; [by rewrite E| | |].
  - rewrite E. by destruct (m !! "schema-id"%string).
  - rewrite E, Eo. by destruct (m !! "schema-id"%string).
  - rewrite E, Es, Ej. cbn [IsObject get_member]. rewrite Ef. cbn [rbind]. by rewrite as_int32_ok.
Qed.

(** An entry of which nothing is lost: no key metadata, and partition values that have the
    types of their fields, none with a time zone, and nulls no type. *)
Definition plain_key (spec : list PartitionKeyField) (k : PartitionKey) : Prop :=
  ∃ f t, f ∈ spec ∧ pkf_name f = pk_name k ∧ pkf_type f = Some t ∧
    t ≠ PrimitiveType kTimestamptz ∧ t ≠ PrimitiveType kTimestamptzNs ∧
    pk_type k = match pk_value k with AV_monostate => None | _ => Some t end.
Record plain_entry (spec : list PartitionKeyField) (e : ManifestEntry) : Prop := {
  pe_key : key_metadata (data_file e) = [];
  pe_tuple : Forall (plain_key spec) (partition_tuple (data_file e));
}.

Lemma read_tuple_plain spec t : NoDup (pkf_name <$> spec) → Forall (plain_key spec) t → read_tuple spec t = t.
Proof.
  intros Hnd. induction 1 as [|k t (f & ty & Hf & Hn & Ht & N1 & N2 & Hk) _ IH]; [done|].
  unfold read_tuple in *. rewrite fmap_cons, IH. f_equal. unfold read_key, ExtractTypeFromPartitionSpec.
  rewrite <- Hn, find_name by done. cbn [mbind option_bind]. rewrite Ht. change (avro_type <$> Some ty) with (Some (avro_type ty)).
  assert (avro_type ty = ty) as -> by (destruct ty as [[]| | |]; done). rewrite Hn. destruct k as [n v ty']; cbn in *. by rewrite Hk.
Qed.

Lemma extracted_plain spec e : NoDup (pkf_name <$> spec) → plain_entry spec e → extracted_entry spec default_config e = e.
Proof.
  intros Hnd [Hk Ht]. destruct e as [st sn sq fs f]. unfold extracted_entry, extracted. cbn in *.
  rewrite read_tuple_plain by done. destruct f; cbn in *. by rewrite Hk.
Qed.

(** C27: a manifest read back.  What [WriteManifestEntries] writes, for supported partition
    fields ([spec_ok]: valid, distinct names; no type that has no Avro form) and entries
    in the ranges of their types with a tuple for these fields ([entry_ok]), is read by
    [ReadManifestEntries] and by the stream, with any configuration and with or without a
    reader schema, as one entry for each entry, in order, with the fields that the
    configuration extracts and initial values for the others ([extracted_entry]).  The
    fields are those that were written, but for two: the key metadata, which is never read,
    and the types of partition values, which are those of the partition fields without
    their time zones, and none for a null.  With the default configuration entries that
    these two do not concern ([plain_entry]) are read back unchanged.  The metadata is the
    same, with the id of the schema added where it is missing and the schema has one; the
    claim leaves out metadata under Avro's own keys, and the case that
    the schema has none, in which the reader fails. *)
Theorem manifest_roundtrip `{Avro} spec m cfg use_reader_schema validate :
  spec_ok spec = true → Forall (entry_ok spec) (entries m) →
  metadata m !! "avro.schema"%string = None → metadata m !! "avro.codec"%string = None →
  ∃ text, WriteManifestEntries m spec = Ok text ∧
    (∀ md, with_schema_id (metadata m) md →
       ReadManifestEntries text spec cfg use_reader_schema =
       Ok {| metadata := md; entries := extracted_entry spec cfg <$> entries m |}) ∧
    (∃ s, ManifestEntriesStream text spec cfg use_reader_schema validate = Ok s ∧
          run s = Ok (extracted_entry spec cfg <$> entries m)) ∧
    (cfg = default_config → Forall (plain_entry spec) (entries m) → extracted_entry spec cfg <$> entries m = entries m).
Proof.
  intros Hspec He H1 H2. eexists. split; [by apply manifest_written|].
  destruct (manifest_opened spec m Hspec He cfg use_reader_schema _ (manifest_written spec m Hspec He))
    as (schema & own & c & Hown & Hc & Es & Er). split; [|split].
  - intros md Hmd. unfold ReadManifestEntries. rewrite Es. cbn [rbind]. rewrite Er. cbn [rbind dataSchema file_metadata datums].
    rewrite ValidatePartitionSpec_ok, delete_own by done. cbn [rbind]. rewrite (add_schema_id_with _ _ Hmd). cbn [rbind].
    by rewrite entries_read by done.
  - unfold ManifestEntriesStream. rewrite Es. cbn [rbind]. rewrite Er. cbn [rbind dataSchema datums].
    rewrite ValidatePartitionSpec_ok. eexists. split; [by destruct (validate || _)|]. by apply entries_read.
  - intros -> Hp. rewrite <- (list_fmap_id (entries m)) at 2. apply list_fmap_ext. intros i e Hi.
    apply extracted_plain; [by apply spec_ok_inv|]. by eapply Forall_lookup_1.
Qed.

(** C28: a manifest opened with the fields of another specification, and with the schema
    of the file (no reader schema): both the stream and [ReadManifestEntries] refuse it if
    the fields are not as many, or one of them is not by its name a field of the manifest.
    Otherwise both accept it, and deliver the entries with the partition values of the file
    (for [ReadManifestEntries], where the id of the schema is known or there is none to be
    added).  The types of the fields are not compared. *)
Theorem other_fields_refused `{Avro} spec other m cfg text :
  spec_ok spec = true → Forall (entry_ok spec) (entries m) → WriteManifestEntries m spec = Ok text →
  metadata m !! "avro.schema"%string = None → metadata m !! "avro.codec"%string = None →
  if fields_match other spec
  then (∃ s, ManifestEntriesStream text other cfg false true = Ok s ∧ run s = Ok (extracted_entry spec cfg <$> entries m)) ∧
       ∀ md, with_schema_id (metadata m) md →
         ReadManifestEntries text other cfg false = Ok {| metadata := md; entries := extracted_entry spec cfg <$> entries m |}
  else (∃ e, ManifestEntriesStream text other cfg false true = Err e) ∧ ∃ e, ReadManifestEntries text other cfg false = Err e.
Proof.
  intros Hspec He Hw H1 H2. destruct (manifest_opened spec m Hspec He cfg false text Hw) as (schema & own & c & Hown & Hc & Es & Er).
  unfold reader_schema in Es. injection Es as <-. pose proof (ValidatePartitionSpec_other other spec) as Hv.
  unfold ManifestEntriesStream, ReadManifestEntries. cbn [reader_schema rbind]. rewrite Er. cbn [rbind dataSchema datums file_metadata orb].
  destruct (ValidatePartitionSpec other _) as [[]|e]; rewrite Hv; [|by eauto]. cbn [rbind]. split.
  - eexists. split; [done|]. by apply entries_read.
  - intros md Hmd. rewrite delete_own by done. rewrite (add_schema_id_with _ _ Hmd). cbn [rbind]. by rewrite entries_read by done.
Qed.
