(* ===== verification/AvroExample.v ===== *)
(** * AvroExample: an implementation of the class [Avro], for examples

    Texts of schemas mean what [Avro.avro_schema] says; a data file is its schema,
    metadata and data as one number in binary. *)

From stdpp Require Import base list strings gmap countable.
From Stdlib Require Import ZArith Lia.
From S2P Require Import Prelude Bytes Json Streams Avro.

Local Open Scope Z_scope.

Definition leaf : Type := Z + string.
Abbreviation tree := (gen_tree leaf).
Definition num (z : Z) : tree := GenLeaf (inl z).
Definition txt (s : string) : tree := GenLeaf (inr s).

Definition lt_tree (lt : LogicalType) : tree :=
  match lt with
  | LT_NONE => GenNode 0 [] | LT_DECIMAL p s => GenNode 1 [num p; num s] | LT_DATE => GenNode 2 []
  | LT_TIME_MICROS => GenNode 3 [] | LT_TIMESTAMP_MICROS => GenNode 4 [] | LT_TIMESTAMP_NANOS => GenNode 5 []
  | LT_UUID => GenNode 6 []
  end.
Definition of_lt (t : tree) : LogicalType :=
  match t with
  | GenNode 1 [GenLeaf (inl p); GenLeaf (inl s)] => LT_DECIMAL p s
  | GenNode 2 _ => LT_DATE | GenNode 3 _ => LT_TIME_MICROS | GenNode 4 _ => LT_TIMESTAMP_MICROS
  | GenNode 5 _ => LT_TIMESTAMP_NANOS | GenNode 6 _ => LT_UUID
  | _ => LT_NONE
  end.

Fixpoint node_tree (s : avro_node) : tree :=
  match s with
  | SNull => GenNode 0 [] | SBool => GenNode 1 [] | SInt lt => GenNode 2 [lt_tree lt] | SLong lt => GenNode 3 [lt_tree lt]
  | SFloat => GenNode 4 [] | SDouble => GenNode 5 [] | SString lt => GenNode 6 [lt_tree lt]
  | SBytes lt => GenNode 7 [lt_tree lt] | SFixed n z lt => GenNode 8 [txt n; num z; lt_tree lt]
  | SArray i => GenNode 9 [node_tree i]
  | SRecord n fs => GenNode 10 (txt n :: List.map (λ f, GenNode 0 [txt f.1; node_tree f.2]) fs)
  | SUnion bs => GenNode 11 (List.map node_tree bs)
  end.
Fixpoint of_node (t : tree) : avro_node :=
  match t with
  | GenNode 1 _ => SBool | GenNode 2 [lt] => SInt (of_lt lt) | GenNode 3 [lt] => SLong (of_lt lt)
  | GenNode 4 _ => SFloat | GenNode 5 _ => SDouble | GenNode 6 [lt] => SString (of_lt lt)
  | GenNode 7 [lt] => SBytes (of_lt lt) | GenNode 8 [GenLeaf (inr n); GenLeaf (inl z); lt] => SFixed n z (of_lt lt)
  | GenNode 9 [i] => SArray (of_node i)
  | GenNode 10 (GenLeaf (inr n) :: fs) =>
      SRecord n (List.map (λ f, match f with GenNode _ [GenLeaf (inr m); x] => (m, of_node x) | _ => (""%string, SNull) end) fs)
  | GenNode 11 bs => SUnion (List.map of_node bs)
  | _ => SNull
  end.

Lemma of_lt_tree lt : of_lt (lt_tree lt) = lt.
Proof. by destruct lt. Qed.

Fixpoint of_node_tree (s : avro_node) : of_node (node_tree s) = s.
Proof.
  destruct s as [| |lt|lt| | |lt|lt|n z lt|i|n fs|bs]; cbn; rewrite ?of_lt_tree, ?of_node_tree; try reflexivity.
  - f_equal. rewrite map_map. induction fs as [|[m x] fs IH]; [reflexivity|]. cbn [List.map].
    f_equal; [cbn; by rewrite of_node_tree|exact IH].
  - f_equal. rewrite map_map. induction bs as [|x bs IH]; [reflexivity|]. cbn [List.map]. f_equal; [apply of_node_tree|exact IH].
Qed.

Fixpoint datum_tree (d : datum) : tree :=
  match d with
  | DNull => GenNode 0 [] | DBool b => GenNode 1 [num (Z.b2z b)] | DInt lt v => GenNode 2 [lt_tree lt; num v]
  | DLong lt v => GenNode 3 [lt_tree lt; num v] | DFloat v => GenNode 4 [num v] | DDouble v => GenNode 5 [num v]
  | DString lt s => GenNode 6 [lt_tree lt; txt s] | DBytes lt b => GenNode 7 [lt_tree lt; txt (string_of_bytes b)]
  | DFixed lt b => GenNode 8 [lt_tree lt; txt (string_of_bytes b)]
  | DArray i l => GenNode 9 (node_tree i :: List.map datum_tree l)
  | DRecord fs => GenNode 10 (List.map (λ f, GenNode 0 [txt f.1; datum_tree f.2]) fs)
  | DUnion bs k x => GenNode 11 [GenNode 0 (List.map node_tree bs); num (Z.of_nat k); datum_tree x]
  end.
Fixpoint of_datum (t : tree) : datum :=
  match t with
  | GenNode 1 [GenLeaf (inl z)] => DBool (bool_decide (z = 1)) | GenNode 2 [lt; GenLeaf (inl v)] => DInt (of_lt lt) v
  | GenNode 3 [lt; GenLeaf (inl v)] => DLong (of_lt lt) v | GenNode 4 [GenLeaf (inl v)] => DFloat v
  | GenNode 5 [GenLeaf (inl v)] => DDouble v | GenNode 6 [lt; GenLeaf (inr s)] => DString (of_lt lt) s
  | GenNode 7 [lt; GenLeaf (inr s)] => DBytes (of_lt lt) (bytes_of_string s)
  | GenNode 8 [lt; GenLeaf (inr s)] => DFixed (of_lt lt) (bytes_of_string s)
  | GenNode 9 (i :: l) => DArray (of_node i) (List.map of_datum l)
  | GenNode 10 fs =>
      DRecord (List.map (λ f, match f with GenNode _ [GenLeaf (inr m); x] => (m, of_datum x) | _ => (""%string, DNull) end) fs)
  | GenNode 11 [GenNode _ bs; GenLeaf (inl k); x] => DUnion (List.map of_node bs) (Z.to_nat k) (of_datum x)
  | _ => DNull
  end.

Lemma bytes_of_string_of_bytes b : bytes_of_string (string_of_bytes b) = b.
Proof. unfold bytes_of_string, string_of_bytes. apply String.list_byte_of_string_of_list_byte. Qed.

Fixpoint of_datum_tree (d : datum) : of_datum (datum_tree d) = d.
Proof.
  destruct d as [|b|lt v|lt v|v|v|lt s|lt b|lt b|i l|fs|bs k x]; cbn;
    rewrite ?of_lt_tree, ?of_node_tree, ?bytes_of_string_of_bytes, ?of_datum_tree; try reflexivity.
  - by destruct b.
  - f_equal. rewrite map_map. induction l as [|x l IH]; [reflexivity|]. cbn [List.map]. f_equal; [apply of_datum_tree|exact IH].
  - f_equal. rewrite map_map. induction fs as [|[m x] fs IH]; [reflexivity|]. cbn [List.map].
    f_equal; [cbn; by rewrite of_datum_tree|exact IH].
  - rewrite Nat2Z.id, map_map. f_equal. induction bs as [|y bs IH]; [reflexivity|]. cbn [List.map].
    f_equal; [apply of_node_tree|exact IH].
Qed.

Definition metadata_tree (m : gmap string bytes) : tree :=
  GenNode 0 (List.map (λ e, GenNode 0 [txt e.1; txt (string_of_bytes e.2)]) (map_to_list m)).
Definition of_metadata (t : tree) : gmap string bytes :=
  match t with
  | GenNode _ l =>
      list_to_map (List.map (λ e, match e with
                                  | GenNode _ [GenLeaf (inr k); GenLeaf (inr v)] => (k, bytes_of_string v)
                                  | _ => (""%string, [])
                                  end) l)
  | _ => ∅
  end.

Lemma of_metadata_tree m : of_metadata (metadata_tree m) = m.
Proof.
  unfold of_metadata, metadata_tree. rewrite map_map.
  replace (List.map _ (map_to_list m)) with (map_to_list m); [apply list_to_map_to_list|].
  induction (map_to_list m) as [|[k v] l IH]; [done|]. cbn [List.map]. f_equal; [|exact IH].
  change ((k, v) = (k, bytes_of_string (string_of_bytes v))). by rewrite bytes_of_string_of_bytes.
Qed.

Definition file_text (w : avro_node) (md : gmap string bytes) (ds : list datum) : string :=
  JsonExample.bits (encode (GenNode 0 [node_tree w; metadata_tree md; GenNode 0 (List.map datum_tree ds)] : tree)).

Definition parse_file (text : string) : option (avro_node * gmap string bytes * list datum) :=
  match JsonExample.of_bits text ≫= decode with
  | Some (GenNode _ [w; md; GenNode _ ds]) => Some (of_node w, of_metadata md, List.map of_datum ds)
  | _ => None
  end.

Lemma parse_file_text w md ds : parse_file (file_text w md ds) = Some (w, md, ds).
Proof.
  unfold parse_file, file_text. rewrite JsonExample.of_bits_bits. cbn [mbind option_bind]. rewrite decode_encode.
  rewrite of_node_tree, of_metadata_tree, map_map. do 2 f_equal.
  induction ds as [|d ds IH]; [done|]. cbn [List.map]. by rewrite of_datum_tree, IH.
Qed.

Definition read_file (text : string) (r : option avro_node) : result avro_reader :=
  match parse_file text with
  | Some (w, md, ds) =>
      match mapM (λ d, read_as d w (default w r)) ds with
      | Some ds' => Ok {| dataSchema := w; readerSchema := default w r; file_metadata := ∅ ∪ md; datums := of_list ds' |}
      | None => Err (Exn "schema mismatch")
      end
  | None => Err (Exn "not an Avro file")
  end.

Program Definition tree_avro `{RapidJson} : Avro :=
  {| compileJsonSchemaFromString := λ text,
       match avro_schema (json_depth (Parse text)) (Parse text) with Some s => Ok s | None => Err (Exn "no schema") end;
     DataFileWriter := file_text; DataFileReader := read_file |}.
Next Obligation. intros ? text s Hs _. cbn beta. by rewrite Hs. Qed.
Next Obligation. intros ? text Hs _. cbn beta. rewrite Hs. eauto. Qed.
Next Obligation.
  intros ? w md ds r ds' E. exists ∅. split; [intros k [v Hk]; by rewrite lookup_empty in Hk|].
  unfold read_file. by rewrite parse_file_text, E.
Qed.
