(* ===== verification/ManifestList.v ===== *)
(** * ManifestList: manifest lists as Avro files

    [iceberg/tea_manifest_metadata.cpp] and the structures it writes
    ([iceberg/generated/manifest_file.hh]).  The coder of a structure is its
    record of data, field by field in the order of the schema. *)

From stdpp Require Import base list strings gmap.
From Stdlib Require Import ZArith Lia.
From S2P Require Import Prelude Bytes Types ScanTypes Json Streams Avro AvroFacts ManifestAvro ManifestRoundtrip.

Local Open Scope Z_scope.

(** ** The generated structures: a union with null is an option *)

Record r508 := {
  r_contains_null : bool;
  r_contains_nan : option bool;
  r_lower_bound : option bytes;
  r_upper_bound : option bytes;
}.

Record manifest_file := {
  a_manifest_path : string;
  a_manifest_length : Z;
  a_partition_spec_id : Z;
  a_content : Z;
  a_sequence_number : Z;
  a_min_sequence_number : Z;
  a_added_snapshot_id : Z;
  a_added_files_count : Z;
  a_added_data_files_count : Z;
  a_existing_files_count : Z;
  a_existing_data_files_count : Z;
  a_deleted_files_count : Z;
  a_deleted_data_files_count : Z;
  a_added_rows_count : Z;
  a_existing_rows_count : Z;
  a_deleted_rows_count : Z;
  a_partitions : option (list r508);
  a_key_metadata : option bytes;
}.

(** *** [kManifestListSchemaJson] *)

Definition r508_fields : list (string * avro_node) :=
  [("contains_null", SBool); ("contains_nan", SUnion [SNull; SBool]);
   ("lower_bound", SUnion [SNull; SBytes LT_NONE]); ("upper_bound", SUnion [SNull; SBytes LT_NONE])]%string.

Definition ManifestListSchema : avro_node :=
  SRecord "manifest_file"
    [("manifest_path", SString LT_NONE); ("manifest_length", SLong LT_NONE); ("partition_spec_id", SInt LT_NONE);
     ("content", SInt LT_NONE); ("sequence_number", SLong LT_NONE); ("min_sequence_number", SLong LT_NONE);
     ("added_snapshot_id", SLong LT_NONE); ("added_files_count", SInt LT_NONE); ("added_data_files_count", SInt LT_NONE);
     ("existing_files_count", SInt LT_NONE); ("existing_data_files_count", SInt LT_NONE);
     ("deleted_files_count", SInt LT_NONE); ("deleted_data_files_count", SInt LT_NONE);
     ("added_rows_count", SLong LT_NONE); ("existing_rows_count", SLong LT_NONE); ("deleted_rows_count", SLong LT_NONE);
     ("partitions", SUnion [SNull; SArray (SRecord "r508" r508_fields)]);
     ("key_metadata", SUnion [SNull; SBytes LT_NONE])]%string.

(** *** The coders *)

Definition encode_r508 (v : r508) : datum :=
  DRecord [("contains_null", DBool (r_contains_null v));
           ("contains_nan", opt_datum SBool (DBool <$> r_contains_nan v));
           ("lower_bound", opt_datum (SBytes LT_NONE) (DBytes LT_NONE <$> r_lower_bound v));
           ("upper_bound", opt_datum (SBytes LT_NONE) (DBytes LT_NONE <$> r_upper_bound v))]%string.

Definition encode_manifest_file (v : manifest_file) : datum :=
  DRecord [("manifest_path", DString LT_NONE (a_manifest_path v)); ("manifest_length", DLong LT_NONE (a_manifest_length v));
           ("partition_spec_id", DInt LT_NONE (a_partition_spec_id v)); ("content", DInt LT_NONE (a_content v));
           ("sequence_number", DLong LT_NONE (a_sequence_number v));
           ("min_sequence_number", DLong LT_NONE (a_min_sequence_number v));
           ("added_snapshot_id", DLong LT_NONE (a_added_snapshot_id v));
           ("added_files_count", DInt LT_NONE (a_added_files_count v));
           ("added_data_files_count", DInt LT_NONE (a_added_data_files_count v));
           ("existing_files_count", DInt LT_NONE (a_existing_files_count v));
           ("existing_data_files_count", DInt LT_NONE (a_existing_data_files_count v));
           ("deleted_files_count", DInt LT_NONE (a_deleted_files_count v));
           ("deleted_data_files_count", DInt LT_NONE (a_deleted_data_files_count v));
           ("added_rows_count", DLong LT_NONE (a_added_rows_count v));
           ("existing_rows_count", DLong LT_NONE (a_existing_rows_count v));
           ("deleted_rows_count", DLong LT_NONE (a_deleted_rows_count v));
           ("partitions", opt_datum (SArray (SRecord "r508" r508_fields))
                            ((λ l, DArray (SRecord "r508" r508_fields) (List.map encode_r508 l)) <$> a_partitions v));
           ("key_metadata", opt_datum (SBytes LT_NONE) (DBytes LT_NONE <$> a_key_metadata v))]%string.

Definition decode_bool (d : datum) : result bool :=
  match d with DBool b => Ok b | _ => Err (Exn "decode: not a bool") end.
Definition decode_int (d : datum) : result Z := match d with DInt _ v => Ok v | _ => Err (Exn "decode: not an int") end.
Definition decode_long (d : datum) : result Z := match d with DLong _ v => Ok v | _ => Err (Exn "decode: not a long") end.
Definition decode_string (d : datum) : result string :=
  match d with DString _ s => Ok s | _ => Err (Exn "decode: not a string") end.
Definition decode_bytes (d : datum) : result bytes :=
  match d with DBytes _ b => Ok b | _ => Err (Exn "decode: not bytes") end.
Definition decode_array {A} (de : datum → result A) (d : datum) : result (list A) :=
  match d with DArray _ l => map_ok de l | _ => Err (Exn "decode: not an array") end.

(** [decodeUnionIndex]: null or the value. *)
Definition decode_union {A} (de : datum → result A) (d : datum) : result (option A) :=
  match d with
  | DUnion _ 0 _ => Ok None
  | DUnion _ 1 x => let! a := de x in Ok (Some a)
  | _ => Err (Exn "Union index too big")
  end.

Definition decode_r508 (d : datum) : result r508 :=
  match d with
  | DRecord r =>
      let! null := Extract decode_bool r "contains_null" in
      let! nan := Extract (decode_union decode_bool) r "contains_nan" in
      let! lower := Extract (decode_union decode_bytes) r "lower_bound" in
      let! upper := Extract (decode_union decode_bytes) r "upper_bound" in
      Ok {| r_contains_null := null; r_contains_nan := nan; r_lower_bound := lower; r_upper_bound := upper |}
  | _ => Err (Exn "decode: not a record")
  end.

Definition decode_manifest_file (d : datum) : result manifest_file :=
  match d with
  | DRecord r =>
      let! path := Extract decode_string r "manifest_path" in
      let! length := Extract decode_long r "manifest_length" in
      let! spec_id := Extract decode_int r "partition_spec_id" in
      let! content := Extract decode_int r "content" in
      let! seq := Extract decode_long r "sequence_number" in
      let! min_seq := Extract decode_long r "min_sequence_number" in
      let! snapshot := Extract decode_long r "added_snapshot_id" in
      let! added := Extract decode_int r "added_files_count" in
      let! added_data := Extract decode_int r "added_data_files_count" in
      let! existing := Extract decode_int r "existing_files_count" in
      let! existing_data := Extract decode_int r "existing_data_files_count" in
      let! deleted := Extract decode_int r "deleted_files_count" in
      let! deleted_data := Extract decode_int r "deleted_data_files_count" in
      let! added_rows := Extract decode_long r "added_rows_count" in
      let! existing_rows := Extract decode_long r "existing_rows_count" in
      let! deleted_rows := Extract decode_long r "deleted_rows_count" in
      let! partitions := Extract (decode_union (decode_array decode_r508)) r "partitions" in
      let! key := Extract (decode_union decode_bytes) r "key_metadata" in
      Ok {| a_manifest_path := path; a_manifest_length := length; a_partition_spec_id := spec_id; a_content := content;
            a_sequence_number := seq; a_min_sequence_number := min_seq; a_added_snapshot_id := snapshot;
            a_added_files_count := added; a_added_data_files_count := added_data; a_existing_files_count := existing;
            a_existing_data_files_count := existing_data; a_deleted_files_count := deleted;
            a_deleted_data_files_count := deleted_data; a_added_rows_count := added_rows;
            a_existing_rows_count := existing_rows; a_deleted_rows_count := deleted_rows; a_partitions := partitions;
            a_key_metadata := key |}
  | _ => Err (Exn "decode: not a record")
  end.

(** ** Conversions *)

Definition ConvertPartitions (partitions : option (list r508)) : list PartitionFieldSummary :=
  match partitions with
  | None => []
  | Some src => List.map (λ p, {| contains_null_ := r_contains_null p; contains_nan := r_contains_nan p;
                                  lower_bound := default [] (r_lower_bound p);
                                  upper_bound := default [] (r_upper_bound p) |}) src
  end.

(** Summaries back; an empty bound is left null. *)
Definition bound_or_null (b : bytes) : option bytes := if is_nil b then None else Some b.
Definition ConvertPartitionsBack (partitions : list PartitionFieldSummary) : option (list r508) :=
  if is_nil partitions then None
  else Some (List.map (λ p, {| r_contains_null := contains_null_ p; r_contains_nan := contains_nan p;
                               r_lower_bound := bound_or_null (lower_bound p);
                               r_upper_bound := bound_or_null (upper_bound p) |}) partitions).

(** [a ? a : b]. *)
Definition or_else (a b : Z) : Z := if a =? 0 then b else a.

Definition Convert (f : manifest_file) : ManifestFile :=
  {| mf_added_files_count := or_else (a_added_files_count f) (a_added_data_files_count f);
     mf_added_rows_count := a_added_rows_count f;
     mf_content := if a_content f =? 0 then kContentData else kContentDeletes;
     mf_deleted_files_count := or_else (a_deleted_files_count f) (a_deleted_data_files_count f);
     mf_deleted_rows_count := a_deleted_rows_count f;
     mf_existing_files_count := or_else (a_existing_files_count f) (a_existing_data_files_count f);
     mf_existing_rows_count := a_existing_rows_count f;
     mf_length := a_manifest_length f;
     mf_min_sequence_number := a_min_sequence_number f;
     mf_partition_spec_id := a_partition_spec_id f;
     mf_path := a_manifest_path f;
     mf_sequence_number := a_sequence_number f;
     mf_snapshot_id := a_added_snapshot_id f;
     mf_partitions := ConvertPartitions (a_partitions f) |}.

Definition ConvertBack (m : ManifestFile) : manifest_file :=
  {| a_manifest_path := mf_path m; a_manifest_length := mf_length m; a_partition_spec_id := mf_partition_spec_id m;
     a_content := match mf_content m with kContentData => 0 | kContentDeletes => 1 end;
     a_sequence_number := mf_sequence_number m; a_min_sequence_number := mf_min_sequence_number m;
     a_added_snapshot_id := mf_snapshot_id m; a_added_files_count := mf_added_files_count m;
     a_existing_files_count := mf_existing_files_count m; a_deleted_files_count := mf_deleted_files_count m;
     a_added_rows_count := mf_added_rows_count m; a_existing_rows_count := mf_existing_rows_count m;
     a_deleted_rows_count := mf_deleted_rows_count m; a_added_data_files_count := mf_added_files_count m;
     a_existing_data_files_count := mf_existing_files_count m; a_deleted_data_files_count := mf_deleted_files_count m;
     a_partitions := ConvertPartitionsBack (mf_partitions m); a_key_metadata := None |}.

Section files.
Context `{Avro}.

Definition ReadManifestList (input : string) : result (list ManifestFile) :=
  let! reader := DataFileReader input (Some ManifestListSchema) in
  run (smap (λ _ d, let! f := (let! f := decode_manifest_file d in Ok (Convert f)) in Ok (f, ())) () (datums reader)).

Definition WriteManifestList (manifest_list : list ManifestFile) : string :=
  DataFileWriter ManifestListSchema ∅ (List.map (λ m, encode_manifest_file (ConvertBack m)) manifest_list).
End files.

(** ** Round trip *)

(** Numbers in the ranges of their C++ types. *)
Definition manifest_file_ok (m : ManifestFile) : Prop :=
  Forall in_i32 [mf_partition_spec_id m; mf_added_files_count m; mf_existing_files_count m; mf_deleted_files_count m] ∧
  Forall in_i64 [mf_length m; mf_sequence_number m; mf_min_sequence_number m; mf_snapshot_id m; mf_added_rows_count m;
                 mf_existing_rows_count m; mf_deleted_rows_count m].

Lemma canon_opt_bytes (b : option bytes) :
  canon (opt_datum (SBytes LT_NONE) (DBytes LT_NONE <$> b)) (SUnion [SNull; SBytes LT_NONE]).
Proof. by destruct b. Qed.

Lemma r508_canon v : canon (encode_r508 v) (SRecord "r508" r508_fields).
Proof.
  apply canon_record.
  - repeat (apply Forall2_cons; split; [split; [done|]|]); try apply Forall2_nil_2; try apply canon_opt_bytes; [done|].
    cbn [snd]. by destruct (r_contains_nan v).
  - apply (bool_decide_unpack _). vm_compute. exact I.
Qed.

Lemma manifest_file_canon m : manifest_file_ok m → canon (encode_manifest_file (ConvertBack m)) ManifestListSchema.
Proof.
  intros [H32 H64]. destruct m as [? ? c ? ? ? ? ? ? ? ? ? ? ps].
  cbn in H32, H64.
  repeat match goal with H : Forall _ (_ :: _) |- _ => apply Forall_cons in H as [? H] end. apply canon_record.
  - unfold ConvertBack, canon_fields.
    repeat (apply Forall2_cons; split; [split; [done|]; cbn [snd]|]); try apply Forall2_nil_2; try (by apply canon_long);
      try (by apply canon_int); try (by destruct c); try apply canon_opt_bytes.
    apply canon_opt. intros d. cbn [a_partitions ScanTypes.mf_partitions]. destruct (ConvertPartitionsBack ps) as [l|]; [|done].
    intros [= <-]. apply canon_array, Forall_map, Forall_true. intros v. apply r508_canon.
  - apply (bool_decide_unpack _). vm_compute. exact I.
Qed.

Lemma decode_union_ok {A} (de : datum → result A) mk s (v : option A) :
  (∀ a, de (mk a) = Ok a) → decode_union de (opt_datum s (mk <$> v)) = Ok v.
Proof.
  intros Hde. destruct v as [v|]; [|done]. change (opt_datum s (mk <$> Some v)) with (DUnion [SNull; s] 1 (mk v)).
  cbn [decode_union]. by rewrite Hde.
Qed.

Lemma r508_read v : decode_r508 (encode_r508 v) = Ok v.
Proof.
  unfold decode_r508, encode_r508.
  erewrite Extract_find by reflexivity. cbn [rbind].
  do 3 (erewrite Extract_find by (reflexivity || by apply decode_union_ok); cbn [rbind]).
  by destruct v.
Qed.

Lemma manifest_file_read v : decode_manifest_file (encode_manifest_file v) = Ok v.
Proof.
  unfold decode_manifest_file, encode_manifest_file.
  do 16 (erewrite Extract_find by reflexivity; cbn [rbind]).
  erewrite Extract_find; [|reflexivity|apply (decode_union_ok (decode_array decode_r508)
    (λ l, DArray (SRecord "r508" r508_fields) (List.map encode_r508 l)))].
  - cbn [rbind]. erewrite Extract_find by (reflexivity || by apply decode_union_ok). by destruct v.
  - intros l. cbn [decode_array]. apply map_ok_inv, r508_read.
Qed.

Lemma or_else_same a : or_else a a = a.
Proof. unfold or_else. by destruct (Z.eqb_spec a 0). Qed.

Lemma Convert_back m : Convert (ConvertBack m) = m.
Proof.
  unfold Convert, ConvertBack. cbn. rewrite !or_else_same. destruct m as [? ? c ? ? ? ? ? ? ? ? ? ? ps]. cbn. f_equal.
  - by destruct c.
  - unfold ConvertPartitionsBack. destruct ps as [|p ps]; [done|]. cbn [is_nil ConvertPartitions]. rewrite map_map.
    rewrite <- (map_id (p :: ps)) at 2. apply map_ext. intros [nl nn lo up]. cbn. by destruct lo, up.
Qed.

Lemma manifest_list_read `{Avro} l : Forall manifest_file_ok l → ReadManifestList (WriteManifestList l) = Ok l.
Proof.
  intros Hl. unfold ReadManifestList, WriteManifestList.
  destruct (read_written ManifestListSchema ∅ (List.map (λ m, encode_manifest_file (ConvertBack m)) l)
              (Some ManifestListSchema) ((λ m, encode_manifest_file (ConvertBack m)) <$> l)) as (own & _ & E).
  { apply mapM_pure. eapply Forall_impl; [exact Hl|]. intros m Hm. by apply manifest_file_canon. }
  rewrite E. cbn [rbind datums].
  rewrite (run_pure (λ d, let! f := decode_manifest_file d in Ok (Convert f)) _ (λ m, m)).
  - by rewrite list_fmap_id.
  - apply Forall_true. intros m. rewrite manifest_file_read. cbn [rbind]. by rewrite Convert_back.
Qed.

(** C29: a manifest list read back: [ReadManifestList] of what [WriteManifestList] writes
    returns the same manifests in the same order, with all counters, summaries of
    partition fields and absent bounds. *)
Theorem manifest_list_roundtrip `{Avro} l :
  Forall manifest_file_ok l → ReadManifestList (WriteManifestList l) = Ok l.
Proof. apply manifest_list_read. Qed.
