(* ===== verification/ManifestExample.v ===== *)
(** * ManifestExample: a manifest written and read

    A manifest with a date, a string and a decimal partition field, written and read
    back; partition fields that cannot be written or come back with another type. *)

From stdpp Require Import base list sorting strings gmap.
From Stdlib Require Import ZArith Lia.
From S2P Require Import Prelude Bytes Types ScanTypes PartitionSpecs Json Streams Avro AvroSchema AvroFacts.
From S2P Require Import ManifestAvro ManifestRoundtrip AvroExample.

Local Open Scope Z_scope.

Definition key (n : string) (t : Type_) : PartitionKeyField := {| pkf_name := n; pkf_type := Some t |}.
Definition spec : list PartitionKeyField :=
  [key "region" (PrimitiveType kString); key "day" (PrimitiveType kDate); key "amount" (DecimalType 9 2)].

Definition tuple : PartitionTuple :=
  [{| pk_name := "amount"; pk_value := AV_Fixed [Byte.x00; Byte.x00; Byte.x30; Byte.x39]; pk_type := Some (DecimalType 9 2) |};
   {| pk_name := "day"; pk_value := AV_int 20000; pk_type := Some (PrimitiveType kDate) |};
   {| pk_name := "region"; pk_value := AV_monostate; pk_type := None |}].

Definition file : DataFile :=
  {| content := kData; file_path := "s3://b/f.parquet"; file_format := "PARQUET"; partition_tuple := tuple;
     record_count := 100; file_size_in_bytes := 4096; column_sizes := {[1 := 800]}; value_counts := {[1 := 100; 2 := 100]};
     null_value_counts := ∅; nan_value_counts := ∅; distinct_counts := ∅; lower_bounds := {[1 := [Byte.x01]]};
     upper_bounds := {[1 := [Byte.x7f]]}; key_metadata := []; split_offsets := [4; 2048]; equality_ids := [];
     sort_order_id := Some 0; referenced_data_file := None; content_offset := None; content_size_in_bytes := None |}.

Definition entry : ManifestEntry :=
  {| status := kAdded; entry_snapshot_id := Some 7; sequence_number := None; file_sequence_number := None; data_file := file |}.

Definition manifest : Manifest := {| metadata := {["schema-id"%string := bytes_of_string "0"]}; entries := [entry] |}.

Lemma tuple_valid : tuple_ok spec tuple.
Proof.
  split; [|split].
  - repeat constructor; vm_compute; reflexivity.
  - vm_compute. apply Permutation_sym. eapply perm_trans; [apply perm_skip, perm_swap|].
    eapply perm_trans; [apply perm_swap|]. eapply perm_trans; [apply perm_skip, perm_swap|]. reflexivity.
  - repeat constructor.
    + exists (key "amount" (DecimalType 9 2)). split; [by right; right; left|]. split; [done|]. split; reflexivity.
    + exists (key "day" (PrimitiveType kDate)). split; [by right; left|]. split; [done|]. split; [reflexivity|vm_compute; split; discriminate].
    + exists (key "region" (PrimitiveType kString)). split; [by left|]. split; done.
Qed.

Lemma is_i64_in v : is_i64 v = true → in_i64 v.
Proof. unfold is_i64. by rewrite andb_true_iff, !Z.leb_le. Qed.
Lemma is_i32_in v : is_i32 v = true → in_i32 v.
Proof. unfold is_i32. by rewrite andb_true_iff, !Z.leb_le. Qed.
Lemma counts_okb (m : gmap Z Z) : forallb (λ e, is_i32 e.1 && is_i64 e.2) (map_to_list m) = true → counts_ok m.
Proof.
  intros Hm k v Hkv. rewrite forallb_forall in Hm. specialize (Hm (k, v)). cbn [fst snd] in Hm.
  rewrite andb_true_iff in Hm. destruct Hm as [Hk Hv]; [by apply list_elem_of_In, elem_of_map_to_list|].
  split; [by apply is_i32_in|by apply is_i64_in].
Qed.

Lemma entry_valid : entry_ok spec entry.
Proof.
  constructor; [intros v [= <-]; by apply is_i64_in|intros v [=]|intros v [=]|].
  constructor; [by apply is_i64_in|by apply is_i64_in|constructor|repeat constructor; by apply is_i64_in|
    intros v [= <-]; by apply is_i32_in|intros v [=]|intros v [=]|by apply counts_okb..|
    apply map_Forall_singleton; by apply is_i32_in|apply map_Forall_singleton; by apply is_i32_in|apply tuple_valid].
Qed.

#[local] Existing Instance JsonExample.binary_json.
#[local] Existing Instance tree_avro.

Lemma example_plain : plain_entry spec entry.
Proof.
  split; [done|]. constructor; [|constructor; [|constructor; [|constructor]]]; eexists _, _.
  - split; [by right; right; left|]. done.
  - split; [by right; left|]. done.
  - split; [by left|]. done.
Qed.

Lemma manifest_roundtrip_witness :
  ∃ text, WriteManifestEntries manifest spec = Ok text ∧
    ReadManifestEntries text spec default_config true = Ok manifest ∧
    ∃ s, ManifestEntriesStream text spec default_config true true = Ok s ∧ run s = Ok (entries manifest).
Proof.
  destruct (manifest_roundtrip spec manifest default_config true true) as (text & Hw & Hr & Hs & Hp);
    [reflexivity|constructor; [apply entry_valid|constructor]|reflexivity|reflexivity|].
  exists text. split; [exact Hw|]. assert (Forall (plain_entry spec) (entries manifest)) as Hplain by (constructor; [apply example_plain|constructor]).
  specialize (Hp eq_refl Hplain). rewrite Hp in Hr, Hs.
  split; [|exact Hs]. apply (Hr (metadata manifest)). apply no_schema. reflexivity.
Defined.

(** Two fields in another order are accepted, a field of another name is refused. *)
Lemma other_fields_refused_witness :
  ∃ text, WriteManifestEntries manifest spec = Ok text ∧
    ReadManifestEntries text [key "amount" (PrimitiveType kLong); key "region" (PrimitiveType kString); key "day" (PrimitiveType kDate)]
      default_config false = Ok {| metadata := metadata manifest; entries := extracted_entry spec default_config <$> entries manifest |} ∧
    (∃ e, ManifestEntriesStream text [key "region" (PrimitiveType kString); key "day" (PrimitiveType kDate); key "x" (PrimitiveType kInt)]
            default_config false true = Err e) ∧
    ∃ e, ReadManifestEntries text [key "region" (PrimitiveType kString); key "day" (PrimitiveType kDate); key "x" (PrimitiveType kInt)]
           default_config false = Err e.
Proof.
  assert (Forall (entry_ok spec) (entries manifest)) as He by (constructor; [apply entry_valid|constructor]).
  eexists. split; [by apply manifest_written|]. split.
  - apply (other_fields_refused spec [key "amount" (PrimitiveType kLong); key "region" (PrimitiveType kString); key "day" (PrimitiveType kDate)]
             manifest default_config _ eq_refl He (manifest_written spec manifest eq_refl He) eq_refl eq_refl).
    apply no_schema. reflexivity.
  - apply (other_fields_refused spec [key "region" (PrimitiveType kString); key "day" (PrimitiveType kDate); key "x" (PrimitiveType kInt)]
             manifest default_config); [reflexivity|exact He|by apply manifest_written|reflexivity|reflexivity].
Defined.

(** The extracted entry is the entry itself. *)
Lemma example_read_back : extracted_entry spec default_config entry = entry.
Proof. reflexivity. Qed.

(** A fixed-size partition field: its node is printed without the name that Avro
    requires, so nothing can be written. *)
Lemma fixed_partition_unwritable `{Avro} m : ∃ e, WriteManifestEntries m [key "f" (FixedType 4)] = Err e.
Proof.
  unfold WriteManifestEntries. destruct (MakeSchemaManifestEntry _ _) as [node|e] eqn:E; [|by exists e]. cbn [rbind].
  unfold AvroSchemaFromNode. destruct (ToJsonString node) as [text|e] eqn:Et; [|by exists e]. cbn [rbind].
  assert (Hd : ∃ d, text = PrettyWrite d ∧ exact d = true ∧ nameless_fixed d = true ∧ avro_schema (json_depth d) d = None).
  { vm_compute in E. injection E as <-. unfold ToJsonString in Et. cbn -[PrettyWrite] in Et. injection Et as <-.
    eexists. split; [reflexivity|]. by vm_compute. }
  destruct Hd as (d & -> & Hx & Hn & Ha).
  destruct (compile_nameless (PrettyWrite d)) as [e ->]; [by rewrite parse_pretty..|]. by exists e.
Qed.

(** A partition value with a time zone comes back without it. *)
Lemma timestamptz_read_as_timestamp :
  read_tuple [key "t" (PrimitiveType kTimestamptz)]
    [{| pk_name := "t"; pk_value := AV_int64 0; pk_type := Some (PrimitiveType kTimestamptz) |}] =
  [{| pk_name := "t"; pk_value := AV_int64 0; pk_type := Some (PrimitiveType kTimestamp) |}].
Proof. reflexivity. Qed.
