(* ===== verification/ManifestScan.v ===== *)
(** * ManifestScan: planning a scan from the files of a table

    The entry stream of [Entries] over the Avro readers: [GetManifestFiles] and
    [GetManifestEntryStream] of [iceberg/tea_scan.cpp] read their files and decode
    them with [ManifestList] and [ManifestAvro].  A file system is the map of the
    contents by path, which is taken from an URL. *)

From stdpp Require Import base list strings gmap.
From Stdlib Require Import ZArith Lia.
From S2P Require Import Prelude OrderedMap Types ScanTypes PartitionSpecs TableMetadata ScanBuilder PartitionRules ScanSpec Planner Entries.
From S2P Require Import Json Streams Url Avro ManifestAvro ManifestRoundtrip ManifestList.

Local Open Scope Z_scope.

Section scan.
Context `{Avro} (fs : gmap string string).

(** [OpenFile] and [ReadFile]: the whole contents at the path of an URL. *)
Definition ReadFile (url : string) : result string :=
  let path := Url.Scan.UrlToPath url in
  if bool_decide (path = "") then Err (Exn "bad url")
  else match fs !! path with Some buffer => Ok buffer | None => Err (Exn "no such file") end.

(** [GetManifestFiles]. *)
Definition GetManifestFiles (manifest_list_path : string) : result (list ManifestFile) :=
  let! text := ReadFile manifest_list_path in
  ReadManifestList text.

(** The contents of one manifest; [validate_partition_spec] has its default. *)
Definition read_entries (path : string) (fields : list PartitionKeyField) (cfg : ManifestEntryDeserializerConfig)
    (use_reader_schema : bool) : result (list ManifestEntry) :=
  let! content := ReadFile path in
  let! s := ManifestEntriesStream content fields cfg use_reader_schema true in
  run s.

(** ** Tables that were written by the program *)

(** A manifest file, its partition fields and what was written to it. *)
Record written := {
  wr_file : ManifestFile;
  wr_fields : list PartitionKeyField;
  wr_manifest : Manifest;
}.

Definition written_ok (schema : Schema) (specs : list PartitionSpec) (w : written) : Prop :=
  (∃ spec, GetPartitionSpecById specs (mf_partition_spec_id (wr_file w)) = Ok spec ∧
           GetFieldsFromPartitionSpec (spec_fields spec) schema = Some (wr_fields w)) ∧
  spec_ok (wr_fields w) = true ∧ Forall (entry_ok (wr_fields w)) (entries (wr_manifest w)) ∧
  manifest_file_ok (wr_file w) ∧
  ∃ text, WriteManifestEntries (wr_manifest w) (wr_fields w) = Ok text ∧ ReadFile (mf_path (wr_file w)) = Ok text.

(** The live entries of a manifest, as they are read. *)
Definition delivered (config : ManifestEntryDeserializerConfig) (w : written) : result (list ManifestEntry) :=
  let cfg := match mf_content (wr_file w) with kContentDeletes => default_config | kContentData => config end in
  live_entries (wr_file w) (extracted_entry (wr_fields w) cfg <$> entries (wr_manifest w)).

Lemma read_entries_written cfg use schema specs w :
  written_ok schema specs w →
  read_entries (mf_path (wr_file w)) (wr_fields w) cfg use = Ok (extracted_entry (wr_fields w) cfg <$> entries (wr_manifest w)).
Proof using.
  intros (_ & Hspec & He & _ & text & Ew & Ef). unfold read_entries. rewrite Ef. cbn [rbind].
  destruct (manifest_opened (wr_fields w) (wr_manifest w) Hspec He cfg use text Ew) as (schema' & own & c & _ & Hc & Es & Er).
  unfold ManifestEntriesStream. rewrite Es. cbn [rbind]. rewrite Er. cbn [rbind dataSchema datums orb].
  rewrite ValidatePartitionSpec_ok. cbn [rbind]. by apply entries_read.
Qed.

Lemma manifest_entries_written schema specs use config w :
  written_ok schema specs w →
  manifest_entries default_config read_entries schema specs use config (wr_file w) = delivered config w.
Proof using.
  intros Hw. pose proof Hw as ((spec & Es & Ef) & _). unfold manifest_entries, GetManifestEntryStream, delivered.
  rewrite Es. cbn [rbind]. rewrite Ef.
  destruct (mf_content (wr_file w)); erewrite read_entries_written by done; reflexivity.
Qed.

Lemma map_ok_written schema specs use config ws :
  Forall (written_ok schema specs) ws →
  map_ok (manifest_entries default_config read_entries schema specs use config) (wr_file <$> ws) = map_ok (delivered config) ws.
Proof using.
  induction 1 as [|w ws Hw _ IH]; [done|]. cbn [fmap list_fmap map_ok]. rewrite manifest_entries_written by done.
  destruct (delivered config w); [|done]. cbn [rbind]. fold (fmap (M := list) wr_file ws). by rewrite IH.
Qed.

End scan.

(** ** The entries of a table

    An entry has its own sequence number or, when the manifest adds the file, that of the
    manifest. *)
Definition sequenced (e : ManifestEntry) : Prop := is_Some (sequence_number e) ∨ status e = kAdded.
Definition numbered (mf : ManifestFile) (e : ManifestEntry) : ManifestEntry :=
  {| status := status e; entry_snapshot_id := entry_snapshot_id e;
     sequence_number := Some (default (mf_sequence_number mf) (sequence_number e));
     file_sequence_number := file_sequence_number e; data_file := data_file e |}.

(** The entries of the manifests that are not deleted, in order. *)
Definition table_entries (ws : list written) : list ManifestEntry :=
  flat_map (λ w, numbered (wr_file w) <$> filter (λ e, status e ≠ kDeleted) (entries (wr_manifest w))) ws.

Definition entries_plain (w : written) : Prop :=
  Forall (λ e, plain_entry (wr_fields w) e ∧ sequenced e) (entries (wr_manifest w)).

Lemma live_entries_numbered mf es : Forall sequenced es →
  live_entries mf es = Ok (numbered mf <$> filter (λ e, status e ≠ kDeleted) es).
Proof.
  intros Hs. assert (map_ok (AddSequenceNumberOrFail mf) es = Ok (numbered mf <$> es)) as E.
  { apply map_ok_pure. eapply Forall_impl; [exact Hs|]. intros e He. unfold AddSequenceNumberOrFail, numbered.
    destruct (sequence_number e) as [v|] eqn:Es; cbn; [done|]. destruct He as [He|He]; [rewrite Es in He; by destruct He|].
    rewrite (bool_decide_true (status e = kAdded)) by done. done. }
  unfold live_entries. rewrite E. cbn [rbind]. f_equal. clear. induction es as [|e es IH]; [done|]. rewrite fmap_cons. cbn [List.filter].
  rewrite filter_cons. unfold live at 1. cbn [numbered status]. rewrite IH.
  case_bool_decide as Hd; cbn [negb]; [by rewrite decide_False by tauto|by rewrite decide_True].
Qed.

Lemma delivered_plain w : spec_ok (wr_fields w) = true → entries_plain w →
  delivered default_config w = Ok (numbered (wr_file w) <$> filter (λ e, status e ≠ kDeleted) (entries (wr_manifest w))).
Proof.
  intros Hspec Hp. unfold delivered.
  assert (extracted_entry (wr_fields w) default_config <$> entries (wr_manifest w) = entries (wr_manifest w)) as E.
  { rewrite <- (list_fmap_id (entries (wr_manifest w))) at 2. apply list_fmap_ext. intros i e Hi.
    pose proof (Forall_lookup_1 _ _ _ _ Hp Hi) as [He _]. apply extracted_plain; [by apply spec_ok_inv|done]. }
  destruct (mf_content (wr_file w)); rewrite E; apply live_entries_numbered;
    (eapply Forall_impl; [exact Hp|]; by intros e [_ ?]).
Qed.

