(* ===== verification/FileWriting.v ===== *)
(** * FileWriting: metadata files

    [iceberg/write.cpp]: table metadata, manifest lists and manifests written to a file
    system, which is the map of the contents by path.  That a file cannot be opened,
    written or closed is outside the model. *)

From stdpp Require Import base list strings gmap.
From Stdlib Require Import ZArith Lia.
From S2P Require Import Prelude Types ScanTypes PartitionSpecs TableMetadata Json Literals Streams Url Avro MetadataJson.
From S2P Require Import ManifestAvro ManifestRoundtrip ManifestList ManifestScan.

Section write.
Context `{Avro} `{ArrowText}.

(** [WriteSerialized], and the stream that the local variants write to. *)
Definition WriteSerialized (fs : gmap string string) (path serialized_data : string) : gmap string string :=
  <[path := serialized_data]> fs.

Definition WriteMetadataFile (fs : gmap string string) (out_path : string) (table_metadata : TableMetadataV2) :
    result (gmap string string) :=
  let! serialized := WriteTableMetadataV2 table_metadata true in
  Ok (WriteSerialized fs out_path serialized).

Definition WriteManifestListFile (fs : gmap string string) (out_path : string) (manifests : list ManifestFile) :
    gmap string string :=
  WriteSerialized fs out_path (WriteManifestList manifests).

(** The partition fields have their default: there are none. *)
Definition WriteManifest (fs : gmap string string) (out_path : string) (manifest : Manifest) : result (gmap string string) :=
  let! serialized := WriteManifestEntries manifest [] in
  Ok (WriteSerialized fs out_path serialized).

(** The manifests of a table and then the list of them, each at the path of its URL. *)
Definition write_manifests (fs : gmap string string) (ws : list written) : result (gmap string string) :=
  fold_ok (λ fs w, WriteManifest fs (Scan.UrlToPath (mf_path (wr_file w))) (wr_manifest w)) fs ws.
Definition write_table (fs : gmap string string) (list_url : string) (ws : list written) : result (gmap string string) :=
  let! fs := write_manifests fs ws in
  Ok (WriteManifestListFile fs (Scan.UrlToPath list_url) (wr_file <$> ws)).

(** ** Tables without partitions *)

(** What is written of a manifest: entries without partition values, numbers in range, and
    a specification without fields. *)
Definition unpartitioned_ok (schema : Schema) (specs : list PartitionSpec) (w : written) : Prop :=
  wr_fields w = [] ∧ Forall (entry_ok []) (entries (wr_manifest w)) ∧ manifest_file_ok (wr_file w) ∧
  ∃ spec, GetPartitionSpecById specs (mf_partition_spec_id (wr_file w)) = Ok spec ∧
          GetFieldsFromPartitionSpec (spec_fields spec) schema = Some [].

Lemma empty_spec_ok : spec_ok [] = true.
Proof using. vm_compute. reflexivity. Qed.

Definition manifest_text (w : written) : string :=
  match WriteManifestEntries (wr_manifest w) [] with Ok text => text | Err _ => "" end.

Lemma manifest_text_ok w : Forall (entry_ok []) (entries (wr_manifest w)) → WriteManifestEntries (wr_manifest w) [] = Ok (manifest_text w).
Proof using. intros He. unfold manifest_text. by rewrite (manifest_written [] (wr_manifest w) empty_spec_ok He). Qed.

Lemma write_manifests_ok ws fs :
  Forall (λ w, Forall (entry_ok []) (entries (wr_manifest w))) ws → NoDup ((λ w, Scan.UrlToPath (mf_path (wr_file w))) <$> ws) →
  ∃ fs', write_manifests fs ws = Ok fs' ∧ Forall (λ w, fs' !! Scan.UrlToPath (mf_path (wr_file w)) = Some (manifest_text w)) ws ∧
    ∀ p, p ∉ (λ w, Scan.UrlToPath (mf_path (wr_file w))) <$> ws → fs' !! p = fs !! p.
Proof using.
  intros He. revert fs. induction He as [|w ws Hw He IH]; intros fs Hnd; [by eexists|].
  cbn [fmap list_fmap] in Hnd. apply NoDup_cons in Hnd as [Hp Hnd].
  destruct (IH (<[Scan.UrlToPath (mf_path (wr_file w)) := manifest_text w]> fs) Hnd) as (fs' & E & Hws & Hother).
  exists fs'. split; [|split].
  - unfold write_manifests. cbn [fold_ok]. unfold WriteManifest at 1. rewrite manifest_text_ok by done. exact E.
  - constructor; [|done]. rewrite Hother by done. by rewrite lookup_insert_eq.
  - intros p [Hne Hp']%not_elem_of_cons. rewrite Hother by done. by rewrite lookup_insert_ne.
Qed.

(** A table written with [WriteManifest] and [WriteManifestList] is one that can be planned
    from its files ([ManifestScan.written_ok]). *)
Lemma write_table_ok schema specs fs list_url ws :
  Forall (unpartitioned_ok schema specs) ws →
  NoDup (Scan.UrlToPath list_url :: ((λ w, Scan.UrlToPath (mf_path (wr_file w))) <$> ws)) →
  Forall (λ p, p ≠ ""%string) (Scan.UrlToPath list_url :: ((λ w, Scan.UrlToPath (mf_path (wr_file w))) <$> ws)) →
  ∃ fs', write_table fs list_url ws = Ok fs' ∧ ReadFile fs' list_url = Ok (WriteManifestList (wr_file <$> ws)) ∧
    Forall (written_ok fs' schema specs) ws.
Proof using.
  intros Hws [Hl Hnd]%NoDup_cons [Hle Hne]%Forall_cons.
  destruct (write_manifests_ok ws fs) as (fs1 & E & Hfs & _); [eapply Forall_impl; [exact Hws|]; by intros w (_ & ? & _)|done|].
  eexists. split; [unfold write_table; rewrite E; reflexivity|]. split.
  - unfold ReadFile. rewrite bool_decide_false by done. unfold WriteManifestListFile, WriteSerialized. by rewrite lookup_insert_eq.
  - rewrite Forall_forall in Hws, Hfs. apply Forall_forall. intros w Hw. destruct (Hws w Hw) as (Hf & He & Hm & spec & Hs & Hfields).
    assert (Scan.UrlToPath (mf_path (wr_file w)) ∈ (λ w, Scan.UrlToPath (mf_path (wr_file w))) <$> ws) as Hin
      by (apply list_elem_of_fmap; by exists w).
    split; [exists spec; by rewrite Hf|]. rewrite Hf. split; [exact empty_spec_ok|]. split; [done|]. split; [done|].
    exists (manifest_text w). split; [by apply manifest_text_ok|]. unfold ReadFile.
    rewrite Forall_forall in Hne. rewrite bool_decide_false by (by apply Hne).
    unfold WriteManifestListFile, WriteSerialized. rewrite lookup_insert_ne by (intros Eq; apply Hl; by rewrite Eq).
    by rewrite (Hfs w Hw).
Qed.

(** A manifest of a partitioned table cannot be written with [WriteManifest]: what it writes
    is refused by the reader of any fields. *)
Lemma partitioned_manifest_refused fields m cfg text :
  Forall (entry_ok []) (entries m) → fields ≠ [] → WriteManifestEntries m [] = Ok text →
  ∃ e, ManifestEntriesStream text fields cfg false true = Err e.
Proof using.
  intros He Hf Hw. destruct (manifest_opened [] m empty_spec_ok He cfg false text Hw) as (s & own & c & _ & _ & Es & Er).
  unfold reader_schema in Es. injection Es as <-. pose proof (ValidatePartitionSpec_other fields []) as Hv.
  unfold ManifestEntriesStream. cbn [reader_schema rbind]. rewrite Er. cbn [rbind dataSchema orb].
  destruct (ValidatePartitionSpec fields _) as [u|e]; [|by exists e]. destruct fields; [done|discriminate Hv].
Qed.
End write.
