(* ===== verification/ScanFilesExample.v ===== *)
(** * ScanFilesExample: a table in files

    A data manifest and a delete manifest in a manifest list, written to a map of
    files and planned from it. *)

From stdpp Require Import base list strings gmap.
From Stdlib Require Import ZArith Lia.
From S2P Require Import Prelude Bytes Types ScanTypes PartitionSpecs TableMetadata ScanBuilder PartitionRules ScanSpec Planner Entries.
From S2P Require Import Json Streams Avro ManifestAvro ManifestRoundtrip AvroExample ManifestList ManifestExample ManifestScan.

Local Open Scope Z_scope.

#[local] Existing Instance JsonExample.binary_json.
#[local] Existing Instance tree_avro.

Module WrittenExample.

Definition fields : list PartitionKeyField := [key "d" (PrimitiveType kDate)].
Definition data_manifest : ManifestFile := ScanTypes.manifest_file kContentData 1 "s3://bucket/data.avro" 7 [].
Definition delete_manifest : ManifestFile := ScanTypes.manifest_file kContentDeletes 1 "s3://bucket/deletes.avro" 8 [].
Definition data_w : written :=
  {| wr_file := data_manifest; wr_fields := fields;
     wr_manifest := {| metadata := ∅; entries := [Example1.gone; StreamExample.inherits Example1.data_a; Example1.data_b] |} |}.
Definition delete_w : written :=
  {| wr_file := delete_manifest; wr_fields := fields;
     wr_manifest := {| metadata := ∅; entries := [StreamExample.inherits Example1.pos_any] |} |}.

Definition text (w : written) : string :=
  match WriteManifestEntries (wr_manifest w) (wr_fields w) with Ok t => t | Err _ => "" end.

Definition fs : gmap string string :=
  {["bucket/data.avro" := text data_w; "bucket/deletes.avro" := text delete_w;
    "bucket/list.avro" := WriteManifestList (wr_file <$> [data_w; delete_w])]}.

Lemma day_ok d : in_i32 d → tuple_ok fields (Example1.day d).
Proof.
  intros Hd. split; [|split].
  - repeat constructor.
  - reflexivity.
  - repeat constructor. exists (key "d" (PrimitiveType kDate)). split; [by left|]. split; [done|]. split; [reflexivity|exact Hd].
Qed.

Lemma file_entry_ok st s c path d :
  from_option is_i64 true s = true → in_i32 d →
  entry_ok fields {| status := st; entry_snapshot_id := None; sequence_number := s; file_sequence_number := None;
                     data_file := Example1.file c path (Example1.day d) None |}.
Proof.
  intros Hs Hd. constructor; [intros v [=]|intros v [= ->]; by apply is_i64_in|intros v [=]|].
  constructor; try (by apply is_i64_in); try (by apply counts_okb); try (intros v [=]); try apply map_Forall_empty;
    [repeat constructor; by apply is_i32_in|constructor|by apply day_ok].
Qed.

Lemma entries_valid w : w ∈ [data_w; delete_w] → Forall (entry_ok fields) (entries (wr_manifest w)).
Proof.
  assert (in_i32 10) by by apply is_i32_in.
  intros [->|[->|[]%elem_of_nil]%elem_of_cons]%elem_of_cons; repeat (apply Forall_cons; split); try apply Forall_nil_2; by apply file_entry_ok.
Qed.

Lemma wr_fields_eq w : w ∈ [data_w; delete_w] → wr_fields w = fields.
Proof. by intros [->|[->|[]%elem_of_nil]%elem_of_cons]%elem_of_cons. Qed.
Lemma fields_ok : spec_ok fields = true.
Proof. vm_compute. reflexivity. Qed.

Lemma text_written w : w ∈ [data_w; delete_w] → WriteManifestEntries (wr_manifest w) fields = Ok (text w).
Proof.
  intros Hw. pose proof (manifest_written fields (wr_manifest w) fields_ok (entries_valid w Hw)) as Et.
  unfold text. rewrite wr_fields_eq by done. by rewrite Et.
Qed.

Lemma valid w : w ∈ [data_w; delete_w] → written_ok fs Example1.sch (partition_specs Example1.metadata) w.
Proof.
  intros Hw. pose proof (wr_fields_eq w Hw) as E. split.
  { eexists. rewrite E. by repeat (apply elem_of_cons in Hw as [->|Hw]); [split; reflexivity..|apply elem_of_nil in Hw]. }
  rewrite E. split; [exact fields_ok|]. split; [by apply entries_valid|]. split.
  - repeat (apply elem_of_cons in Hw as [->|Hw]); [| |by apply elem_of_nil in Hw];
      (split; repeat constructor; first [by apply is_i32_in|by apply is_i64_in]).
  - exists (text w). split; [by apply text_written|].
    by repeat (apply elem_of_cons in Hw as [->|Hw]); [..|apply elem_of_nil in Hw].
Qed.

Definition written_entries : list ManifestEntry := table_entries [data_w; delete_w].
Lemma written_ranges : entry_ranges_valid written_entries.
Proof.
  intros e lo hi He Hp Hr. vm_compute in He.
  repeat (apply elem_of_cons in He as [->|He]); try by apply elem_of_nil in He.
  all: vm_compute in Hr; discriminate Hr.
Qed.

Lemma written_readable : partitions_readable written_entries.
Proof.
  exists [("d", Some (PrimitiveType kDate))]. intros e He _. unfold written_entries in He. cbn in He.
  repeat (apply elem_of_cons in He as [->|He]); try by apply elem_of_nil in He.
  all: right; split; [reflexivity|by apply Example1.day_readable].
Qed.

Lemma day_plain d : Forall (plain_key fields) (Example1.day d).
Proof.
  repeat constructor. exists (key "d" (PrimitiveType kDate)), (PrimitiveType kDate). split; [by left|]. done.
Qed.

Lemma written_plain : Forall entries_plain [data_w; delete_w].
Proof.
  assert (∀ st s c path d, is_Some s ∨ st = kAdded →
    plain_entry fields {| status := st; entry_snapshot_id := None; sequence_number := s; file_sequence_number := None;
                          data_file := Example1.file c path (Example1.day d) None |} ∧
    sequenced {| status := st; entry_snapshot_id := None; sequence_number := s; file_sequence_number := None;
                 data_file := Example1.file c path (Example1.day d) None |}) as Hone.
  { intros st s c path d Hs. split; [|exact Hs]. split; [done|apply day_plain]. }
  repeat (apply Forall_cons; split); try apply Forall_nil_2; unfold entries_plain; cbn [wr_manifest wr_fields entries data_w delete_w];
    repeat (apply Forall_cons; split); try apply Forall_nil_2; apply Hone; first [by left; eexists|by right].
Qed.

End WrittenExample.

Import WrittenExample.

Lemma manifest_list_roundtrip_witness :
  ReadManifestList (WriteManifestList [data_manifest; delete_manifest]) =
  Ok [data_manifest; delete_manifest].
Proof.
  apply (manifest_list_roundtrip [data_manifest; delete_manifest]).
  repeat constructor; apply is_i32_in || apply is_i64_in; reflexivity.
Defined.


(** The plan of the example exists. *)
Lemma written_plan_exists :
  ∃ plan, (let! p := fold_ok (planner_AddEntry Example1.metadata Example1.sch) empty_planner written_entries in
           planner_GetResult Example1.sch p) = Ok plan.
Proof. vm_compute. eexists. reflexivity. Qed.
