(* ===== verification/ThreadPool.v ===== *)
(** * ThreadPool: tasks on a pool of threads

    [iceberg/common/threadpool.h].  The critical sections of the pool's mutex are the
    steps of a transition system: a worker that enters [GetTask] waits, takes the first
    task or leaves its loop; a worker that waits can wake up at any time, as a condition
    variable allows.  Every run keeps the order of the tasks, loses none and does not get
    stuck.  A task that runs can always end: tasks that block for ever are not modelled,
    and neither are calls of [Invoke] and [Stop] from a thread of the pool. *)

From stdpp Require Import base list sorting strings.
From Stdlib Require Import ZArith Lia.
From S2P Require Import Prelude.

Lemma flat_map_insert {A B} (f : A → list B) i x y l :
  l !! i = Some x → flat_map f (<[i := y]> l) ++ f x ≡ₚ flat_map f l ++ f y.
Proof.
  intros Hi. rewrite (insert_take_drop _ _ _ ltac:(by eapply lookup_lt_Some)).
  rewrite <- (take_drop_middle l i x Hi) at 3. rewrite !flat_map_app. cbn [flat_map]. solve_Permutation.
Qed.

Lemma sum_list_insert {A} (f : A → nat) i x y l :
  l !! i = Some x → (sum_list_with f (<[i := y]> l) + f x = sum_list_with f l + f y)%nat.
Proof.
  intros Hi. rewrite (insert_take_drop _ _ _ ltac:(by eapply lookup_lt_Some)).
  rewrite <- (take_drop_middle l i x Hi) at 3. rewrite !sum_list_with_app. cbn [sum_list_with]. lia.
Qed.

Section pool.
Context {T : Type}.

(** ** The pool *)

Inductive Status := kRunning | kWaitPending | kCancelPending.

(** A thread is about to lock the mutex in [GetTask], waits for [has_work_], runs a task,
    or has left [RunLoop]. *)
Inductive worker := Entering | Waiting | Running (t : T) | Exited.

Record ThreadPool := { pool_status : Status; tasks_to_do_ : list T; threads_ : list worker }.

Definition make_ThreadPool (threads_count : nat) : ThreadPool :=
  {| pool_status := kRunning; tasks_to_do_ := []; threads_ := replicate threads_count Entering |}.

Definition set_thread (i : nat) (w : worker) (p : ThreadPool) : ThreadPool :=
  {| pool_status := pool_status p; tasks_to_do_ := tasks_to_do_ p; threads_ := <[i := w]> (threads_ p) |}.
Definition set_status (s : Status) (p : ThreadPool) : ThreadPool :=
  {| pool_status := s; tasks_to_do_ := tasks_to_do_ p; threads_ := threads_ p |}.
Definition set_tasks (l : list T) (p : ThreadPool) : ThreadPool :=
  {| pool_status := pool_status p; tasks_to_do_ := l; threads_ := threads_ p |}.

#[export] Instance Status_eq_dec : EqDecision Status.
Proof. solve_decision. Defined.

(** [tasks_to_do_.empty() && status == Status::kRunning]. *)
Definition WaitUntilStoppedOrHasTask (p : ThreadPool) : bool :=
  match tasks_to_do_ p with [] => bool_decide (pool_status p = kRunning) | _ => false end.

(** What the caller does after the critical section; [TaskTaken] has the task. *)
Inductive got := MustWait | TaskTaken (t : T) | NoTask | EmptyFront.

Definition GetTask (p : ThreadPool) : got * ThreadPool :=
  if WaitUntilStoppedOrHasTask p then (MustWait, p)
  else
    let p := if bool_decide (pool_status p = kWaitPending) && match tasks_to_do_ p with [] => true | _ => false end then set_status kCancelPending p else p in
    if bool_decide (pool_status p = kCancelPending) then (NoTask, p)
    else match tasks_to_do_ p with
         | t :: tasks => (TaskTaken t, set_tasks tasks p)
         | [] => (EmptyFront, p)
         end.

Definition is_waiting (w : worker) : bool := match w with Waiting => true | _ => false end.

(** [notify_one]: some waiting thread wakes up, if there is one. *)
Inductive notify_one (p : ThreadPool) : ThreadPool → Prop :=
| notify_some i : threads_ p !! i = Some Waiting → notify_one p (set_thread i Entering p)
| notify_none : forallb (λ w, negb (is_waiting w)) (threads_ p) = true → notify_one p p.

Definition notify_all (p : ThreadPool) : ThreadPool :=
  {| pool_status := pool_status p; tasks_to_do_ := tasks_to_do_ p;
     threads_ := (λ w, match w with Waiting => Entering | w => w end) <$> threads_ p |}.

(** The pool that [Submit] notifies. *)
Definition Submit (t : T) (p : ThreadPool) : result ThreadPool :=
  let! _ := Ensure (bool_decide (pool_status p = kRunning)) "Submit is impossible, thread pool is stopped" in
  Ok (set_tasks (tasks_to_do_ p ++ [t]) p).

(** The critical section of [Stop]; it joins the threads after it. *)
Definition Stop (wait_for_remaining_tasks : bool) (p : ThreadPool) : ThreadPool :=
  if bool_decide (pool_status p = kRunning)
  then notify_all (set_status (if wait_for_remaining_tasks then kWaitPending else kCancelPending) p)
  else p.

(** ** Steps *)

Inductive event :=
| ESubmit (t : T) | EStop (wait : bool)
| EWait (i : nat) | ETake (i : nat) (t : T) | EExit (i : nat) | EWake (i : nat) | EFinish (i : nat) (t : T).

Inductive step (p : ThreadPool) : event → ThreadPool → Prop :=
| step_submit t p1 p2 : Submit t p = Ok p1 → notify_one p1 p2 → step p (ESubmit t) p2
| step_stop b : step p (EStop b) (Stop b p)
| step_wait i p1 : threads_ p !! i = Some Entering → GetTask p = (MustWait, p1) → step p (EWait i) (set_thread i Waiting p1)
| step_take i t p1 : threads_ p !! i = Some Entering → GetTask p = (TaskTaken t, p1) → step p (ETake i t) (set_thread i (Running t) p1)
| step_exit i p1 : threads_ p !! i = Some Entering → GetTask p = (NoTask, p1) → step p (EExit i) (set_thread i Exited p1)
| step_wake i : threads_ p !! i = Some Waiting → step p (EWake i) (set_thread i Entering p)
| step_finish i t : threads_ p !! i = Some (Running t) → step p (EFinish i t) (set_thread i Entering p).

(** Runs, with the events in order. *)
Inductive run (p : ThreadPool) : list event → ThreadPool → Prop :=
| run_nil : run p [] p
| run_snoc tr p1 e p2 : run p tr p1 → step p1 e p2 → run p (tr ++ [e]) p2.

Definition submitted (tr : list event) : list T := flat_map (λ e, match e with ESubmit t => [t] | _ => [] end) tr.
Definition started (tr : list event) : list T := flat_map (λ e, match e with ETake _ t => [t] | _ => [] end) tr.
Definition finished (tr : list event) : list T := flat_map (λ e, match e with EFinish _ t => [t] | _ => [] end) tr.

Definition running (p : ThreadPool) : list T := flat_map (λ w, match w with Running t => [t] | _ => [] end) (threads_ p).

(** ** [GetTask] *)

Lemma GetTask_cases p :
  (tasks_to_do_ p = [] ∧ pool_status p = kRunning ∧ GetTask p = (MustWait, p)) ∨
  (∃ t ts, tasks_to_do_ p = t :: ts ∧ pool_status p ≠ kCancelPending ∧ GetTask p = (TaskTaken t, set_tasks ts p)) ∨
  (pool_status p = kCancelPending ∧ GetTask p = (NoTask, p)) ∨
  (tasks_to_do_ p = [] ∧ pool_status p = kWaitPending ∧ GetTask p = (NoTask, set_status kCancelPending p)).
Proof. destruct p as [[] [|t ts] w]; unfold GetTask; cbn; naive_solver. Qed.

Lemma GetTask_threads p g p' : GetTask p = (g, p') → threads_ p' = threads_ p.
Proof.
  intros Hg. destruct (GetTask_cases p) as [(_ & _ & E)|[(? & ? & _ & _ & E)|[(_ & E)|(_ & _ & E)]]]; rewrite E in Hg; by injection Hg as _ <-.
Qed.

(** The queue and the running tasks after a step. *)
Lemma step_effect p e p' :
  step p e p' →
  match e with
  | ESubmit t => tasks_to_do_ p' = tasks_to_do_ p ++ [t] ∧ ∀ w t, threads_ p' !! w = Some (Running t) ↔ threads_ p !! w = Some (Running t)
  | ETake w t => tasks_to_do_ p = t :: tasks_to_do_ p' ∧ threads_ p' = <[w := Running t]> (threads_ p) ∧ threads_ p !! w = Some Entering
  | EFinish w t => tasks_to_do_ p' = tasks_to_do_ p ∧ threads_ p' = <[w := Entering]> (threads_ p) ∧ threads_ p !! w = Some (Running t)
  | EStop _ => True
  | _ => tasks_to_do_ p' = tasks_to_do_ p ∧ ∀ w t, threads_ p' !! w = Some (Running t) ↔ threads_ p !! w = Some (Running t)
  end.
Proof.
  assert (∀ p i w w', threads_ p !! i = Some w → (∀ t, w ≠ Running t) → (∀ t, w' ≠ Running t) →
    ∀ j t, threads_ (set_thread i w' p) !! j = Some (Running t) ↔ threads_ p !! j = Some (Running t)) as Hset.
  { intros q i w w' Hi Hw Hw' j t. cbn. destruct (decide (i = j)) as [<-|]; [|by rewrite list_lookup_insert_ne].
    rewrite list_lookup_insert_eq by by eapply lookup_lt_Some. rewrite Hi. naive_solver. }
  intros Hs. destruct Hs as [t p1 p2 H1 H2|b|i p1 Hi Hg|i t p1 Hi Hg|i p1 Hi Hg|i Hi|i t Hi]; try done.
  - unfold Submit in H1. case_bool_decide; [|done]. cbn in H1. injection H1 as <-. destruct H2 as [i Hi|]; [|done].
    split; [done|]. by eapply (Hset (set_tasks _ p)).
  - destruct (GetTask_cases p) as [(_ & _ & E)|[(? & ? & _ & _ & E)|[(_ & E)|(_ & _ & E)]]]; rewrite E in Hg; simplify_eq.
    split; [done|]. by eapply Hset.
  - destruct (GetTask_cases p) as [(_ & _ & E)|[(? & ? & ? & _ & E)|[(_ & E)|(_ & _ & E)]]]; rewrite E in Hg; by simplify_eq.
  - destruct (GetTask_cases p) as [(_ & _ & E)|[(? & ? & _ & _ & E)|[(_ & E)|(_ & _ & E)]]]; rewrite E in Hg; simplify_eq;
      (split; [done|]); [by eapply Hset|by eapply (Hset (set_status kCancelPending p))].
  - split; [done|]. by eapply Hset.
Qed.

Lemma step_length p e p' : step p e p' → length (threads_ p') = length (threads_ p).
Proof.
  intros Hs. destruct Hs as [t p1 p2 H1 H2|b|i p1 Hi E|i t p1 Hi E|i p1 Hi E|i Hi|i t Hi]; cbn; rewrite ?length_insert; try done.
  2:{ unfold Stop. case_bool_decide; [|done]. cbn. by rewrite length_fmap. }
  2-4: by rewrite (GetTask_threads _ _ _ E).
  unfold Submit in H1. case_bool_decide; [|done]. cbn in H1. injection H1 as <-. destruct H2; cbn; by rewrite ?length_insert.
Qed.

(** ** Invariants *)

(** The state of the pool after the events [tr]. *)
Record pool_ok (n : nat) (tr : list event) (p : ThreadPool) : Prop := {
  ok_threads : length (threads_ p) = n;
  ok_order : submitted tr = started tr ++ tasks_to_do_ p;
  ok_finished : started tr ≡ₚ finished tr ++ running p;
  ok_awake : pool_status p = kRunning → tasks_to_do_ p ≠ [] → n ≠ 0%nat → ∃ w, w ∈ threads_ p ∧ is_waiting w = false;
  ok_stopped : pool_status p ≠ kRunning → Waiting ∉ threads_ p;
  ok_exited : Exited ∈ threads_ p → pool_status p = kCancelPending;
  ok_drained : EStop false ∉ tr → pool_status p = kCancelPending → tasks_to_do_ p = [];
}.

Lemma running_set i w w' p :
  threads_ p !! i = Some w →
  running (set_thread i w' p) ++ (match w with Running t => [t] | _ => [] end)
  ≡ₚ running p ++ (match w' with Running t => [t] | _ => [] end).
Proof.
  intros Hi. exact (flat_map_insert (λ w : worker, match w with Running t => [t] | _ => [] end) i w w' (threads_ p) Hi).
Qed.

Lemma set_thread_elem i w p x : x ∈ threads_ (set_thread i w p) → x = w ∨ x ∈ threads_ p.
Proof.
  cbn [set_thread threads_]. intros (j & Hj)%list_elem_of_lookup. destruct (decide (i = j)) as [<-|Hne].
  - left. destruct (decide (i < length (threads_ p))%nat); [rewrite list_lookup_insert_eq in Hj by done; congruence|].
    apply lookup_lt_Some in Hj. rewrite length_insert in Hj. lia.
  - rewrite list_lookup_insert_ne in Hj by done. right. apply list_elem_of_lookup. by exists j.
Qed.

Lemma set_thread_in i w w' p : threads_ p !! i = Some w' → w ∈ threads_ (set_thread i w p).
Proof.
  intros Hi. apply list_elem_of_lookup. exists i. cbn [set_thread threads_]. apply list_lookup_insert_eq. by eapply lookup_lt_Some.
Qed.

Lemma submitted_snoc tr e : submitted (tr ++ [e]) = submitted tr ++ submitted [e].
Proof. apply flat_map_app. Qed.
Lemma started_snoc tr e : started (tr ++ [e]) = started tr ++ started [e].
Proof. apply flat_map_app. Qed.
Lemma finished_snoc tr e : finished (tr ++ [e]) = finished tr ++ finished [e].
Proof. apply flat_map_app. Qed.

Lemma make_ok n : pool_ok n [] (make_ThreadPool n).
Proof.
  assert (running (make_ThreadPool n) = []) as Hr by (unfold running; cbn; by induction n).
  split; try done.
  - apply length_replicate.
  - by rewrite Hr.
  - cbn. by intros [_ [=]]%elem_of_replicate_inv || intros [=]%elem_of_replicate_inv.
Qed.

(** A submitted task wakes a thread. *)
Lemma submit_ok n tr p t p1 p2 :
  pool_ok n tr p → Submit t p = Ok p1 → notify_one p1 p2 → pool_ok n (tr ++ [ESubmit t]) p2.
Proof.
  intros [Hn Ho Hf Ha Hs He Hd] H1 H2. unfold Submit in H1. case_bool_decide as Hrun; [|done]. cbn in H1. injection H1 as <-.
  assert (running p2 ≡ₚ running p) as Hr.
  { destruct H2 as [i Hi|]; [|done]. pose proof (running_set i _ Entering _ Hi) as Hp. rewrite !app_nil_r in Hp. exact Hp. }
  assert (pool_status p2 = kRunning ∧ tasks_to_do_ p2 = tasks_to_do_ p ++ [t] ∧ length (threads_ p2) = n) as (Hst & Htk & Hlen).
  { destruct H2; cbn; by rewrite ?length_insert. }
  split; rewrite ?submitted_snoc, ?started_snoc, ?finished_snoc; cbn [submitted started finished flat_map].
  - done.
  - rewrite Htk, Ho, !app_nil_r. by rewrite app_assoc.
  - by rewrite !app_nil_r, Hf, Hr.
  - intros _ _ Hnz. destruct H2 as [i Hi|Hall]; [by exists Entering; split; [eapply set_thread_in|]|].
    destruct (threads_ (set_tasks (tasks_to_do_ p ++ [t]) p)) as [|w ws] eqn:Ew; [cbn in Ew; rewrite Ew in Hn; cbn in Hn; congruence|].
    exists w. split; [left|]. cbn in Hall. apply andb_true_iff in Hall as [Hw _]. by destruct (is_waiting w).
  - by rewrite Hst.
  - intros Hex. exfalso. destruct H2 as [i Hi|]; [apply set_thread_elem in Hex as [?|Hex]; [done|]|]; apply He in Hex; congruence.
  - congruence.
Qed.

Lemma stop_ok n tr p b : pool_ok n tr p → pool_ok n (tr ++ [EStop b]) (Stop b p).
Proof.
  intros [Hn Ho Hf Ha Hs He Hd]. unfold Stop. case_bool_decide as Hrun.
  - assert (running (notify_all (set_status (if b then kWaitPending else kCancelPending) p)) = running p) as Hr.
    { unfold running, notify_all. cbn [threads_ set_status]. clear. induction (threads_ p) as [|[] l IH]; cbn; by rewrite ?IH. }
    split; rewrite ?submitted_snoc, ?started_snoc, ?finished_snoc; cbn [submitted started finished flat_map]; rewrite ?app_nil_r.
    + cbn. by rewrite length_fmap.
    + done.
    + by rewrite Hr.
    + by destruct b.
    + intros _ (w & Ew & _)%list_elem_of_fmap. by destruct w.
    + intros (w & Ew & Hw)%list_elem_of_fmap. destruct w; try done. apply He in Hw. congruence.
    + intros Hin. destruct b; [done|]. exfalso. apply Hin, elem_of_app. right. left.
  - split; rewrite ?submitted_snoc, ?started_snoc, ?finished_snoc; cbn [submitted started finished flat_map]; rewrite ?app_nil_r; try done.
    intros Hin. apply Hd. intros H. apply Hin, elem_of_app. by left.
Qed.

(** Steps of a thread that take no task and leave the pool running. *)
Lemma thread_ok n tr p i w w' e s :
  pool_ok n tr p → threads_ p !! i = Some w → submitted [e] = [] → started [e] = [] →
  (match w with Running t => [t] | _ => [] end) = finished [e] → (match w' with Running t => [t] | _ => [] end) = [] →
  (∀ b, e ≠ EStop b) → (w' = Waiting → tasks_to_do_ p = [] ∧ s = kRunning) → (w' = Exited → s = kCancelPending) →
  (s = pool_status p ∨ s = kCancelPending ∧ pool_status p = kWaitPending ∧ tasks_to_do_ p = []) →
  pool_ok n (tr ++ [e]) (set_thread i w' (set_status s p)).
Proof.
  intros [Hn Ho Hf Ha Hs He Hd] Hi Es Et Ef Er Hstop Hwait Hexit Hst.
  pose proof (running_set i w w' (set_status s p) Hi) as Hr. rewrite Ef, Er, app_nil_r in Hr.
  assert (pool_status p = kRunning ↔ s = kRunning) as Hsr by (destruct Hst as [->|(-> & -> & _)]; done).
  split; rewrite ?submitted_snoc, ?started_snoc, ?finished_snoc, ?Es, ?Et, ?app_nil_r.
  - cbn. by rewrite length_insert.
  - done.
  - rewrite Hf. rewrite <- app_assoc. f_equiv. by rewrite <- Hr, (Permutation_app_comm (running _)).
  - cbn [set_thread set_status pool_status tasks_to_do_]. intros Hs1 Ht Hnz. exists w'. split; [by eapply set_thread_in|].
    destruct w'; try done. by destruct (Hwait eq_refl).
  - cbn [set_thread set_status pool_status]. intros Hs1 [Hw|Hw]%set_thread_elem; [by destruct (Hwait (eq_sym Hw))|].
    apply Hs; [by rewrite Hsr|done].
  - cbn [set_thread set_status pool_status]. intros [Hw|Hw]%set_thread_elem; [by apply Hexit|].
    apply He in Hw. destruct Hst as [->|(-> & _)]; done.
  - cbn [set_thread set_status pool_status tasks_to_do_]. intros Hin Hc.
    destruct Hst as [->|(_ & _ & ?)]; [|done]. apply Hd; [|done]. intros H. apply Hin, elem_of_app. by left.
Qed.

Lemma take_ok n tr p i t ts :
  pool_ok n tr p → threads_ p !! i = Some Entering → tasks_to_do_ p = t :: ts → pool_status p ≠ kCancelPending →
  pool_ok n (tr ++ [ETake i t]) (set_thread i (Running t) (set_tasks ts p)).
Proof.
  intros [Hn Ho Hf Ha Hs He Hd] Hi Ht Hst.
  pose proof (running_set i Entering (Running t) (set_tasks ts p) Hi) as Hr. rewrite app_nil_r in Hr.
  split; rewrite ?submitted_snoc, ?started_snoc, ?finished_snoc; cbn [submitted started finished flat_map]; rewrite ?app_nil_r.
  - cbn. by rewrite length_insert.
  - cbn. rewrite Ho, Ht. by rewrite <- app_assoc.
  - rewrite Hf, Hr. by rewrite <- app_assoc.
  - intros _ _ _. exists (Running t). split; [by eapply set_thread_in|done].
  - cbn [set_thread set_tasks pool_status]. intros Hs1 [Hw|Hw]%set_thread_elem; [done|]. by apply Hs.
  - cbn [set_thread set_tasks pool_status]. intros [Hw|Hw]%set_thread_elem; [done|]. by apply He.
  - done.
Qed.

Lemma set_status_same p : set_status (pool_status p) p = p.
Proof. by destruct p. Qed.

Lemma step_ok n tr p e p' : pool_ok n tr p → step p e p' → pool_ok n (tr ++ [e]) p'.
Proof.
  intros Hok Hstep. destruct Hstep as [t p1 p2 H1 H2|b|i p1 Hi Hg|i t p1 Hi Hg|i p1 Hi Hg|i Hi|i t Hi].
  - by eapply submit_ok.
  - by apply stop_ok.
  - destruct (GetTask_cases p) as [(Ht & Hr & E)|[(? & ? & _ & _ & E)|[(_ & E)|(_ & _ & E)]]]; rewrite E in Hg; simplify_eq.
    rewrite <- (set_status_same p1). eapply thread_ok; [done|done|done|done|done|done|done|done|done|by left].
  - destruct (GetTask_cases p) as [(_ & _ & E)|[(? & ? & Ht & Hs & E)|[(_ & E)|(_ & _ & E)]]]; rewrite E in Hg; simplify_eq.
    by eapply take_ok.
  - destruct (GetTask_cases p) as [(_ & _ & E)|[(? & ? & _ & _ & E)|[(Hs & E)|(Ht & Hs & E)]]]; rewrite E in Hg; simplify_eq.
    + rewrite <- (set_status_same p1). eapply thread_ok; [done|done|done|done|done|done|done|done|done|by left].
    + eapply thread_ok; [done|done|done|done|done|done|done|done|done|by right].
  - rewrite <- (set_status_same p). eapply thread_ok; [done|done|done|done|done|done|done|done|done|by left].
  - rewrite <- (set_status_same p). eapply thread_ok; [done|done|done|done|done|done|done|done|done|by left].
Qed.

Lemma run_ok n tr p : run (make_ThreadPool n) tr p → pool_ok n tr p.
Proof. induction 1 as [|tr p1 e p2 _ IH Hs]; [apply make_ok|by eapply step_ok]. Qed.

(** ** Progress *)

(** What the threads of the pool do by themselves, without spurious wake-ups. *)
Definition worker_event (e : event) : bool :=
  match e with EWait _ | ETake _ _ | EExit _ | EFinish _ _ => true | _ => false end.

Definition is_idle (w : worker) : bool := match w with Waiting | Exited => true | _ => false end.
Definition idle (p : ThreadPool) : Prop := Forall (λ w, is_idle w = true) (threads_ p).

(** A bound on the steps that are left. *)
Definition worker_weight (w : worker) : nat := match w with Entering => 1 | Running _ => 2 | _ => 0 end.
Definition weight (p : ThreadPool) : nat := 2 * length (tasks_to_do_ p) + sum_list_with worker_weight (threads_ p).

Lemma weight_set i w w' p :
  threads_ p !! i = Some w → (weight (set_thread i w' p) + worker_weight w = weight p + worker_weight w')%nat.
Proof.
  intros Hi. unfold weight, set_thread. cbn [threads_ tasks_to_do_].
  pose proof (sum_list_insert worker_weight i w w' (threads_ p) Hi). lia.
Qed.

Lemma step_weight p e p' : worker_event e = true → step p e p' → (weight p' < weight p)%nat.
Proof.
  intros He Hs. destruct Hs as [t p1 p2 H1 H2|b|i p1 Hi Hg|i t p1 Hi Hg|i p1 Hi Hg|i Hi|i t Hi]; try discriminate He.
  - destruct (GetTask_cases p) as [(_ & _ & E)|[(? & ? & _ & _ & E)|[(_ & E)|(_ & _ & E)]]]; rewrite E in Hg; simplify_eq.
    pose proof (weight_set i _ Waiting _ Hi). cbn in *. lia.
  - destruct (GetTask_cases p) as [(_ & _ & E)|[(? & ts & Ht & _ & E)|[(_ & E)|(_ & _ & E)]]]; rewrite E in Hg; simplify_eq.
    assert (weight p = 2 + weight (set_tasks ts p))%nat by (unfold weight; rewrite Ht; cbn; lia).
    pose proof (weight_set i _ (Running t) (set_tasks ts p) Hi). cbn in *. lia.
  - assert (weight p1 = weight p ∧ threads_ p1 = threads_ p) as [Hw Ht].
    { destruct (GetTask_cases p) as [(_ & _ & E)|[(? & ? & _ & _ & E)|[(_ & E)|(_ & _ & E)]]]; rewrite E in Hg; by simplify_eq. }
    rewrite <- Ht in Hi. pose proof (weight_set i _ Exited _ Hi). cbn in *. lia.
  - pose proof (weight_set i _ Entering _ Hi). cbn in *. lia.
Qed.

(** The weight of the threads alone. *)
Definition threads_weight (p : ThreadPool) : nat := sum_list_with worker_weight (threads_ p).

Lemma step_threads_weight p e p' :
  step p e p' →
  match e with
  | ESubmit _ => (threads_weight p' ≤ threads_weight p + 1)%nat
  | ETake _ _ => threads_weight p' = (threads_weight p + 1)%nat
  | EWait _ | EExit _ | EFinish _ _ => (threads_weight p' + 1)%nat = threads_weight p
  | EStop _ | EWake _ => True
  end.
Proof.
  intros Hs. destruct Hs as [t p1 p2 H1 H2|b|i p1 Hi Hg|i t p1 Hi Hg|i p1 Hi Hg|i Hi|i t Hi]; try done.
  - unfold Submit in H1. case_bool_decide; [|done]. cbn in H1. injection H1 as <-. destruct H2 as [i Hi|]; [|unfold threads_weight; cbn; lia].
    pose proof (sum_list_insert worker_weight i _ Entering _ Hi) as E. unfold threads_weight. cbn in *. lia.
  - pose proof (sum_list_insert worker_weight i _ Waiting _ Hi) as E. unfold threads_weight. cbn [set_thread threads_]. rewrite (GetTask_threads _ _ _ Hg). cbn in *. lia.
  - pose proof (sum_list_insert worker_weight i _ (Running t) _ Hi) as E. unfold threads_weight. cbn [set_thread threads_]. rewrite (GetTask_threads _ _ _ Hg). cbn in *. lia.
  - pose proof (sum_list_insert worker_weight i _ Exited _ Hi) as E. unfold threads_weight. cbn [set_thread threads_]. rewrite (GetTask_threads _ _ _ Hg). cbn in *. lia.
  - pose proof (sum_list_insert worker_weight i _ Entering _ Hi) as E. unfold threads_weight. cbn in *. lia.
Qed.

(** A running pool takes every task, and stays running until [Stop]. *)
Lemma submit_step p t : pool_status p = kRunning → ∃ p', step p (ESubmit t) p'.
Proof.
  intros Hr. assert (Submit t p = Ok (set_tasks (tasks_to_do_ p ++ [t]) p)) as Hs by (unfold Submit; by rewrite bool_decide_true).
  destruct (forallb (λ w, negb (is_waiting w)) (threads_ p)) eqn:E.
  - eexists. eapply step_submit; [done|]. by apply notify_none.
  - assert (∃ w, w ∈ threads_ p ∧ is_waiting w = true) as (w & Hw & Ew).
    { clear -E. induction (threads_ p) as [|w l IH]; [done|]. cbn in E. destruct (is_waiting w) eqn:Ew; [by exists w; split; [left|]|].
      destruct (IH E) as (x & Hx & ?). exists x. split; [by right|done]. }
    destruct w; try done. apply list_elem_of_lookup in Hw as (i & Hi). eexists. eapply step_submit; [done|]. by apply (notify_some _ i).
Qed.

Lemma step_running p e p' : step p e p' → (∀ b, e ≠ EStop b) → pool_status p = kRunning → pool_status p' = kRunning.
Proof.
  intros Hs He Hr. destruct Hs as [t p1 p2 H1 H2|b|i p1 Hi Hg|i t p1 Hi Hg|i p1 Hi Hg|i Hi|i t Hi]; cbn; try done.
  1:{ unfold Submit in H1. case_bool_decide; [|done]. cbn in H1. injection H1 as <-. by destruct H2. }
  1:{ by destruct (He b). }
  all: destruct (GetTask_cases p) as [(_ & _ & E)|[(? & ? & _ & _ & E)|[(_ & E)|(_ & ? & E)]]]; rewrite E in Hg; simplify_eq; cbn; congruence.
Qed.

(** A thread that neither waits nor has left can make a step. *)
Lemma busy_step p i w : threads_ p !! i = Some w → is_idle w = false → ∃ e p', worker_event e = true ∧ step p e p'.
Proof.
  intros Hi Hb. destruct w as [| |t|]; try done.
  - destruct (GetTask_cases p) as [(_ & _ & E)|[(t & ? & _ & _ & E)|[(_ & E)|(_ & _ & E)]]];
      [exists (EWait i)|exists (ETake i t)|exists (EExit i)|exists (EExit i)]; eexists; (split; [done|]).
    + by apply step_wait.
    + by eapply step_take.
    + by eapply step_exit.
    + by eapply step_exit.
  - exists (EFinish i t). eexists. split; [done|]. by apply step_finish.
Qed.

Lemma not_idle_step p : ¬ idle p → ∃ e p', worker_event e = true ∧ step p e p'.
Proof.
  intros Hn. unfold idle in Hn. rewrite Forall_lookup in Hn.
  destruct (decide (Exists (λ w, is_idle w = false) (threads_ p))) as [He|He].
  - apply Exists_exists in He as (w & (i & Hi)%list_elem_of_lookup & Hw). by eapply busy_step.
  - exfalso. apply Hn. intros i w Hi. destruct (is_idle w) eqn:E; [done|]. exfalso. apply He, Exists_exists.
    exists w. split; [|done]. by eapply list_elem_of_lookup_2.
Qed.

(** An idle pool has run every task, unless it was stopped without waiting. *)
Lemma idle_done n tr p :
  pool_ok n tr p → n ≠ 0%nat → EStop false ∉ tr → idle p →
  finished tr ≡ₚ submitted tr ∧ tasks_to_do_ p = [] ∧ (pool_status p ≠ kRunning → Forall (λ w, w = Exited) (threads_ p)).
Proof.
  intros [Hn Ho Hf Ha Hs He Hd] Hnz Hstop Hidle. unfold idle in Hidle.
  assert (running p = []) as Hr.
  { unfold running. clear -Hidle. induction Hidle as [|w l Hw _ IH]; [done|]. cbn. rewrite IH. by destruct w. }
  assert (pool_status p ≠ kRunning → Forall (λ w, w = Exited) (threads_ p)) as Hex.
  { intros Hst. specialize (Hs Hst). rewrite Forall_lookup in *. intros i w Hi. specialize (Hidle i w Hi).
    destruct w; try done. exfalso. apply Hs. by eapply list_elem_of_lookup_2. }
  assert (tasks_to_do_ p = []) as Ht.
  { destruct (decide (pool_status p = kRunning)) as [Hst|Hst].
    - destruct (decide (tasks_to_do_ p = [])) as [|Hne]; [done|]. destruct (Ha Hst Hne Hnz) as (w & Hw & Hnw).
      rewrite Forall_forall in Hidle. specialize (Hidle w Hw). destruct w; try done. apply He in Hw. congruence.
    - apply Hd; [done|]. apply He. specialize (Hex Hst). destruct (threads_ p) as [|w ws]; [done|].
      apply Forall_cons in Hex as [-> _]. left. }
  split; [|done]. by rewrite Ho, Ht, Hf, Hr, !app_nil_r.
Qed.

Lemma pool_run_app p tr p1 tr' p2 : run p tr p1 → run p1 tr' p2 → run p (tr ++ tr') p2.
Proof.
  intros H1. induction 1 as [|tr' p3 e p4 _ IH Hs]; [by rewrite app_nil_r|]. rewrite app_assoc. by eapply run_snoc.
Qed.

Lemma worker_run_weight p tr p' : run p tr p' → Forall (λ e, worker_event e = true) tr → (length tr + weight p' ≤ weight p)%nat.
Proof.
  induction 1 as [|tr p1 e p2 _ IH Hs]; intros Hw; [cbn [length]; lia|]. apply Forall_app in Hw as [Hw [He _]%Forall_cons].
  specialize (IH Hw). pose proof (step_weight p1 e p2 He Hs). rewrite length_app. cbn [length]. lia.
Qed.

Lemma worker_submits_nothing tr : Forall (λ e, worker_event e = true) tr → submitted tr = [].
Proof. induction 1 as [|e tr He _ IH]; [done|]. unfold submitted in *. cbn [flat_map]. rewrite IH. by destruct e. Qed.

Lemma worker_step_stopped p e p' : worker_event e = true → step p e p' → pool_status p ≠ kRunning → pool_status p' ≠ kRunning.
Proof.
  intros He Hs Hst. destruct Hs as [| |i p1 Hi Hg|i t p1 Hi Hg|i p1 Hi Hg| |]; try done.
  all: destruct (GetTask_cases p) as [(_ & _ & E)|[(? & ? & _ & _ & E)|[(_ & E)|(_ & _ & E)]]]; rewrite E in Hg; by simplify_eq.
Qed.

Lemma worker_run_stopped p tr p' : run p tr p' → Forall (λ e, worker_event e = true) tr → pool_status p ≠ kRunning → pool_status p' ≠ kRunning.
Proof.
  induction 1 as [|tr p1 e p2 _ IH Hs]; intros Hw Hst; [done|]. apply Forall_app in Hw as [Hw [He _]%Forall_cons].
  by eapply worker_step_stopped, IH.
Qed.

Lemma drain p : ∃ tr p', run p tr p' ∧ Forall (λ e, worker_event e = true) tr ∧ idle p'.
Proof.
  remember (weight p) as k eqn:Hk. revert p Hk. induction (lt_wf k) as [k _ IH]. intros p ->.
  destruct (decide (idle p)) as [Hi|Hi]; [by exists [], p; split; [apply run_nil|]|].
  destruct (not_idle_step p Hi) as (e & p1 & He & Hs).
  destruct (IH (weight p1) (step_weight _ _ _ He Hs) p1 eq_refl) as (tr & p2 & Hr & Hw & Hd).
  exists ([e] ++ tr), p2. split; [|by split; [apply Forall_app; split; [by apply Forall_singleton|]|]].
  eapply pool_run_app; [|done]. apply (run_snoc p [] p e p1); [apply run_nil|done].
Qed.

(** C23: a pool of at least one thread that was not stopped without waiting starts the
    tasks in the order of their submission, each once; its threads make only finitely many
    steps until they all wait or have left, whatever their order, and can always get there;
    then every submitted task has been run to its end, and after [Stop] every thread has
    left its loop, so that the joins of [Stop] return. *)
Theorem pool_runs_every_task n tr p :
  run (make_ThreadPool n) tr p → n ≠ 0%nat → EStop false ∉ tr →
  submitted tr = started tr ++ tasks_to_do_ p ∧
  (∀ tr' p', run p tr' p' → Forall (λ e, worker_event e = true) tr' →
     (length tr' ≤ weight p)%nat ∧
     (idle p' → started (tr ++ tr') = submitted tr ∧ finished (tr ++ tr') ≡ₚ submitted tr ∧
                (pool_status p ≠ kRunning → Forall (λ w, w = Exited) (threads_ p')))) ∧
  (∃ tr' p', run p tr' p' ∧ Forall (λ e, worker_event e = true) tr' ∧ idle p').
Proof.
  intros Hr Hn Hs. split; [apply (ok_order _ _ _ (run_ok n tr p Hr))|]. split; [|apply drain].
  intros tr' p' Hr' Hw. pose proof (worker_run_weight _ _ _ Hr' Hw) as Hlen. split; [lia|]. intros Hi.
  pose proof (run_ok n _ _ (pool_run_app _ _ _ _ _ Hr Hr')) as Hok.
  destruct (idle_done n (tr ++ tr') p' Hok Hn) as (Hf & Ht & Hex); [|done|].
  { intros [H|H]%elem_of_app; [done|]. rewrite Forall_forall in Hw. by specialize (Hw _ H). }
  assert (submitted (tr ++ tr') = submitted tr) as Hsub by (unfold submitted; rewrite flat_map_app; fold (submitted tr) (submitted tr'); by rewrite (worker_submits_nothing tr' Hw), app_nil_r).
  rewrite <- Hsub. split; [by rewrite (ok_order _ _ _ Hok), Ht, app_nil_r|]. split; [done|].
  intros Hst. apply Hex. by apply (worker_run_stopped p tr').
Qed.

End pool.

Arguments ThreadPool : clear implicits.
Arguments worker : clear implicits.
Arguments event : clear implicits.

(** Two threads, two tasks and [Stop] while the first task runs. *)
Definition example_events : list (event nat) := [ESubmit 7; ETake 1 7; ESubmit 8; EStop true]%nat.
Definition example_pool : ThreadPool nat :=
  {| pool_status := kWaitPending; tasks_to_do_ := [8]%nat; threads_ := [Entering; Running 7%nat] |}.

Lemma example_run : run (make_ThreadPool 2) example_events example_pool.
Proof.
  apply (run_snoc _ [ESubmit 7; ETake 1 7; ESubmit 8]%nat {| pool_status := kRunning; tasks_to_do_ := [8]%nat; threads_ := [Entering; Running 7%nat] |}); [|exact (step_stop _ true)].
  apply (run_snoc _ [ESubmit 7; ETake 1 7]%nat {| pool_status := kRunning; tasks_to_do_ := []; threads_ := [Entering; Running 7%nat] |}).
  2:{ eapply step_submit; [reflexivity|]. by apply notify_none. }
  apply (run_snoc _ [ESubmit 7]%nat {| pool_status := kRunning; tasks_to_do_ := [7]%nat; threads_ := [Entering; Entering] |}).
  2:{ by apply (step_take _ 1 7%nat {| pool_status := kRunning; tasks_to_do_ := []; threads_ := [Entering; Entering] |}). }
  apply (run_snoc _ [] (make_ThreadPool 2)); [apply run_nil|]. eapply step_submit; [reflexivity|]. by apply notify_none.
Qed.

Lemma pool_runs_every_task_witness :
  submitted example_events = [7; 8]%nat ∧
  ∃ tr' p', run example_pool tr' p' ∧ Forall (λ e, worker_event e = true) tr' ∧ (length tr' ≤ 5)%nat ∧
    finished (example_events ++ tr') ≡ₚ [7; 8]%nat ∧ Forall (λ w, w = Exited) (threads_ p').
Proof.
  split; [reflexivity|].
  destruct (pool_runs_every_task 2 example_events example_pool example_run) as (_ & Hall & tr' & p' & Hr & Hw & Hi).
  - discriminate.
  - unfold example_events. rewrite !not_elem_of_cons. repeat split; try discriminate. apply not_elem_of_nil.
  - destruct (Hall tr' p' Hr Hw) as (Hl & Hd). destruct (Hd Hi) as (_ & Hf & Hx).
    exists tr', p'. split; [exact Hr|]. split; [exact Hw|]. split; [exact Hl|]. split; [exact Hf|].
    apply Hx. discriminate.
Defined.
