(* ===== verification/MultiThreaded.v ===== *)
(** * MultiThreaded: planning a scan on a pool of threads

    [GetScanMetadataMultiThreaded], [ManifestFileTask], [ManifestEntryTask] and
    [GetManifest] of [iceberg/tea_scan.cpp] over the pool of [ThreadPool] and the planner
    of [Planner].  The body of a task is the list of what it does to shared state: it
    submits tasks, passes the critical sections of the planner and makes its future ready.
    The calling thread submits the manifests, waits for their futures, then for the
    futures of their entries, and takes the plan.

    A critical section that fails ends its task, whose future gets the error, and leaves
    the planner as it was: the call then returns no
    plan, whatever the section has changed.  The release of the pool at the end of the
    call is not a step; [pool_refs] says who makes it. *)

From stdpp Require Import base list sorting strings gmap.
From Stdlib Require Import ZArith Lia.
From S2P Require Import Prelude OrderedMap Types ScanTypes PartitionSpecs TableMetadata ScanBuilder ScanSpec Planner Entries.
From S2P Require Import Json Streams Avro ManifestAvro ManifestList ManifestScan ThreadPool.

(** A future is named by its manifest and, for an entry, by its index in it. *)
Abbreviation future_id := (nat * option nat)%type.

Inductive task :=
| ManifestFileTask (k : nat) (manifest_file : ManifestFile)
| ManifestEntryTask (k i : nat) (entry : ManifestEntry).

Definition future_of (t : task) : future_id :=
  match t with ManifestFileTask k _ => (k, None) | ManifestEntryTask k i _ => (k, Some i) end.

(** The value of a ready future: the futures of the entries for a manifest. *)
Abbreviation outcome := (result (list future_id)).

Inductive action :=
| ASubmit (t : task)
| ASection (c : critical_section)
| AReady (r : outcome).

(** The calling thread. *)
Inductive main :=
| MSubmit (k : nat) (manifests : list ManifestFile) (futures : list future_id)
| MCollect (futures statuses : list future_id)
| MStatuses (statuses : list future_id)
| MReturn (r : result ScanMetadata).

(** [jobs] has, for each thread of the pool that runs a task, what is left of its body. *)
Record system := {
  pool : ThreadPool task;
  jobs : list (option (task * list action));
  planner : Planner;
  ready : gmap future_id outcome;
  main_ : main;
}.

Section mt.
Context `{Avro} (fs : gmap string string) (m : TableMetadataV2) (sch : Schema).
Context (use_reader_schema : bool) (config : ManifestEntryDeserializerConfig).

(** The entries of the manifest that [GetManifest] returns. *)
Definition GetManifest (manifest_file : ManifestFile) : result (list ManifestEntry) :=
  let! entries_content := ReadFile fs (mf_path manifest_file) in
  let! spec := GetPartitionSpecById (partition_specs m) (mf_partition_spec_id manifest_file) in
  match GetFieldsFromPartitionSpec (spec_fields spec) sch with
  | None => Err (Exn "GetManifest: failed to parse partition_spec_id")
  | Some fields =>
      let! manifest := ReadManifestEntries entries_content fields config use_reader_schema in
      Ok (entries manifest)
  end.

(** ** The bodies of the tasks *)

(** The loop of [ManifestFileTask] from the entry with index [i]. *)
Fixpoint submit_entries (k i : nat) (manifest_file : ManifestFile) (es : list ManifestEntry) (statuses : list future_id) :
    list action :=
  match es with
  | [] => [AReady (Ok statuses)]
  | e :: es =>
      match AddSequenceNumberOrFail manifest_file e with
      | Err x => [AReady (Err x)]
      | Ok e => ASubmit (ManifestEntryTask k i e) :: submit_entries k (S i) manifest_file es (statuses ++ [(k, Some i)])
      end
  end.

(** The two critical sections of [AddEntry]. *)
Definition add_entry (entry : ManifestEntry) : list action :=
  if bool_decide (status entry = kDeleted) then [AReady (Ok [])]
  else [ASection (NoteStep entry); ASection (StoreStep entry); AReady (Ok [])].

Definition body (t : task) : list action :=
  match t with
  | ManifestFileTask k manifest_file =>
      match GetManifest manifest_file with
      | Err x => [AReady (Err x)]
      | Ok es => submit_entries k 0 manifest_file es []
      end
  | ManifestEntryTask _ _ entry => add_entry entry
  end.

(** ** Steps *)

Definition set_main (x : main) (s : system) : system :=
  {| pool := pool s; jobs := jobs s; planner := planner s; ready := ready s; main_ := x |}.
Definition set_pool (p : ThreadPool task) (s : system) : system :=
  {| pool := p; jobs := jobs s; planner := planner s; ready := ready s; main_ := main_ s |}.
Definition set_job (w : nat) (j : option (task * list action)) (s : system) : system :=
  {| pool := pool s; jobs := <[w := j]> (jobs s); planner := planner s; ready := ready s; main_ := main_ s |}.
Definition set_planner (p : Planner) (s : system) : system :=
  {| pool := pool s; jobs := jobs s; planner := p; ready := ready s; main_ := main_ s |}.
Definition set_ready (f : future_id) (r : outcome) (s : system) : system :=
  {| pool := pool s; jobs := jobs s; planner := planner s; ready := <[f := r]> (ready s); main_ := main_ s |}.

(** The calling thread: submits, waits, returns. *)
Inductive main_step (s : system) : option (event task) → system → Prop :=
| main_submit k mf mfs fut p :
    main_ s = MSubmit k (mf :: mfs) fut → step (pool s) (ESubmit (ManifestFileTask k mf)) p →
    main_step s (Some (ESubmit (ManifestFileTask k mf))) (set_main (MSubmit (S k) mfs (fut ++ [(k, None)])) (set_pool p s))
| main_submitted k fut :
    main_ s = MSubmit k [] fut → main_step s None (set_main (MCollect fut []) s)
| main_get f fut sts l :
    main_ s = MCollect (f :: fut) sts → ready s !! f = Some (Ok l) → main_step s None (set_main (MCollect fut (sts ++ l)) s)
| main_get_error f fut sts e :
    main_ s = MCollect (f :: fut) sts → ready s !! f = Some (Err e) → main_step s None (set_main (MReturn (Err e)) s)
| main_collected sts :
    main_ s = MCollect [] sts → main_step s None (set_main (MStatuses sts) s)
| main_status f sts l :
    main_ s = MStatuses (f :: sts) → ready s !! f = Some (Ok l) → main_step s None (set_main (MStatuses sts) s)
| main_status_error f sts e :
    main_ s = MStatuses (f :: sts) → ready s !! f = Some (Err e) → main_step s None (set_main (MReturn (Err e)) s)
| main_result :
    main_ s = MStatuses [] → main_step s None (set_main (MReturn (planner_GetResult sch (planner s))) s).

(** A thread of the pool takes a task, does what its body says and finishes it. *)
Inductive worker_step (s : system) : option (event task) → system → Prop :=
| worker_take w t p :
    step (pool s) (ETake w t) p → worker_step s (Some (ETake w t)) (set_job w (Some (t, body t)) (set_pool p s))
| worker_finish w t p :
    jobs s !! w = Some (Some (t, [])) → step (pool s) (EFinish w t) p →
    worker_step s (Some (EFinish w t)) (set_job w None (set_pool p s))
| worker_other e p :
    (match e with EWait _ | EExit _ | EWake _ => true | _ => false end) = true → step (pool s) e p →
    worker_step s (Some e) (set_pool p s)
| worker_submit w t t' rest p :
    jobs s !! w = Some (Some (t, ASubmit t' :: rest)) → step (pool s) (ESubmit t') p →
    worker_step s (Some (ESubmit t')) (set_job w (Some (t, rest)) (set_pool p s))
| worker_section w t c rest p :
    jobs s !! w = Some (Some (t, ASection c :: rest)) → run_step m sch (planner s) c = Ok p →
    worker_step s None (set_job w (Some (t, rest)) (set_planner p s))
| worker_section_error w t c rest e :
    jobs s !! w = Some (Some (t, ASection c :: rest)) → run_step m sch (planner s) c = Err e →
    worker_step s None (set_job w (Some (t, [])) (set_ready (future_of t) (Err e) s))
| worker_ready w t r rest :
    jobs s !! w = Some (Some (t, AReady r :: rest)) →
    worker_step s None (set_job w (Some (t, rest)) (set_ready (future_of t) r s)).

Definition sys_step (s : system) (e : option (event task)) (s' : system) : Prop :=
  main_step s e s' ∨ worker_step s e s'.

Inductive sys_run (s : system) : list (option (event task)) → system → Prop :=
| sys_nil : sys_run s [] s
| sys_snoc tr s1 e s2 : sys_run s tr s1 → sys_step s1 e s2 → sys_run s (tr ++ [e]) s2.

Definition init (threads_num : nat) (manifests : list ManifestFile) : system :=
  {| pool := make_ThreadPool threads_num; jobs := replicate threads_num None; planner := empty_planner;
     ready := ∅; main_ := MSubmit 0 manifests [] |}.

(** The call up to the first [Submit]. *)
Definition GetScanMetadataMultiThreaded (threads_num : nat) : result system :=
  let! manifest_list_path := GetCurrentManifestListPathOrFail m in
  let! manifest_metadatas := GetManifestFiles fs manifest_list_path in
  Ok (init threads_num manifest_metadatas).

(** ** What the tasks are *)

Definition submits (b : list action) : list task := omap (λ a, match a with ASubmit t => Some t | _ => None end) b.
Definition sections (b : list action) : list critical_section := omap (λ a, match a with ASection c => Some c | _ => None end) b.
Definition subtasks (t : task) : list task := submits (body t).

(** The manifests from index [k] on. *)
Fixpoint manifest_tasks (k : nat) (mfs : list ManifestFile) : list task :=
  match mfs with [] => [] | mf :: mfs => ManifestFileTask k mf :: manifest_tasks (S k) mfs end.

Definition all_tasks (mfs : list ManifestFile) : list task :=
  manifest_tasks 0 mfs ++ flat_map subtasks (manifest_tasks 0 mfs).

(** The live entries of a manifest, as they reach the planner. *)
Definition planned_entries (mf : ManifestFile) : result (list ManifestEntry) :=
  let! es := GetManifest mf in live_entries mf es.

Lemma submit_entries_submits k i mf es sts t :
  t ∈ submits (submit_entries k i mf es sts) → ∃ j e, t = ManifestEntryTask k j e ∧ (i ≤ j)%nat.
Proof.
  revert i sts. induction es as [|e es IH]; intros i sts; cbn; [by intros ?%elem_of_nil|].
  destruct (AddSequenceNumberOrFail mf e) as [e'|]; cbn; [|by intros ?%elem_of_nil].
  intros [->|Ht]%elem_of_cons; [by exists i, e'|]. destruct (IH _ _ Ht) as (j & x & -> & Hj). exists j, x. split; [done|lia].
Qed.

Lemma subtasks_entry t t' : t' ∈ subtasks t → ∃ k j e, t' = ManifestEntryTask k j e ∧ (future_of t).1 = k ∧ (future_of t).2 = None.
Proof.
  destruct t as [k mf|k i e]; unfold subtasks; cbn.
  - destruct (GetManifest mf); [|by intros ?%elem_of_nil]. intros (j & e & -> & _)%submit_entries_submits. by exists k, j, e.
  - unfold add_entry. case_bool_decide; by intros ?%elem_of_nil.
Qed.

Lemma entry_subtasks k i e : subtasks (ManifestEntryTask k i e) = [].
Proof. unfold subtasks, body, add_entry. by case_bool_decide. Qed.

(** A manifest that is read to its end submits a task for each entry. *)
Lemma submit_entries_read k i mf es sts l :
  AReady (Ok l) ∈ submit_entries k i mf es sts →
  ∃ es', map_ok (AddSequenceNumberOrFail mf) es = Ok es' ∧
    submits (submit_entries k i mf es sts) = imap (λ j e, ManifestEntryTask k (i + j) e) es' ∧
    l = sts ++ (future_of <$> submits (submit_entries k i mf es sts)).
Proof.
  revert i sts. induction es as [|e es IH]; intros i sts; cbn.
  - intros [=->]%list_elem_of_singleton. exists []. by rewrite app_nil_r.
  - destruct (AddSequenceNumberOrFail mf e) as [e'|]; cbn; [|by intros ?%list_elem_of_singleton].
    intros [?|Hin]%elem_of_cons; [done|]. destruct (IH _ _ Hin) as (es' & E & Es & ->). exists (e' :: es'). rewrite E. split; [done|].
    split; [|by rewrite <- app_assoc]. cbn. rewrite Nat.add_0_r. f_equal. unfold submits in Es. rewrite Es. apply imap_ext.
    intros j x _. unfold compose. by rewrite Nat.add_succ_r.
Qed.

Lemma subtasks_read k mf l :
  AReady (Ok l) ∈ body (ManifestFileTask k mf) →
  ∃ es, (let! es := GetManifest mf in map_ok (AddSequenceNumberOrFail mf) es) = Ok es ∧
    subtasks (ManifestFileTask k mf) = imap (ManifestEntryTask k) es ∧ l = future_of <$> subtasks (ManifestFileTask k mf).
Proof.
  unfold subtasks. cbn. destruct (GetManifest mf) as [es|]; cbn; [|by intros ?%list_elem_of_singleton].
  intros (es' & E & Es & ->)%submit_entries_read. exists es'. split; [exact E|]. split; [exact Es|reflexivity].
Qed.

(** ** No two tasks share a future *)

Lemma manifest_tasks_elem k mfs t : t ∈ manifest_tasks k mfs → ∃ j mf, t = ManifestFileTask j mf ∧ (k ≤ j)%nat.
Proof.
  revert k. induction mfs as [|mf mfs IH]; intros k; cbn; [by intros ?%elem_of_nil|].
  intros [->|Ht]%elem_of_cons; [by exists k, mf|]. destruct (IH _ Ht) as (j & x & -> & ?). exists j, x. split; [done|lia].
Qed.

Lemma manifest_tasks_nodup k mfs : NoDup (future_of <$> manifest_tasks k mfs).
Proof.
  revert k. induction mfs as [|mf mfs IH]; intros k; cbn; [constructor|]. constructor; [|apply IH].
  intros (t & E & (j & x & -> & ?)%manifest_tasks_elem)%list_elem_of_fmap. cbn in E. injection E as ->. lia.
Qed.

Lemma submit_entries_nodup k i mf es sts : NoDup (future_of <$> submits (submit_entries k i mf es sts)).
Proof.
  revert i sts. induction es as [|e es IH]; intros i sts; cbn; [constructor|].
  destruct (AddSequenceNumberOrFail mf e) as [e'|]; cbn; [|constructor]. constructor; [|apply IH].
  intros (t & E & (j & x & -> & ?)%submit_entries_submits)%list_elem_of_fmap. cbn in E. injection E as ->. lia.
Qed.

Lemma subtasks_nodup t : NoDup (future_of <$> subtasks t).
Proof.
  destruct t; [|rewrite entry_subtasks; constructor]. unfold subtasks. cbn.
  destruct (GetManifest _); [apply submit_entries_nodup|constructor].
Qed.

Lemma subtasks_of_manifests k mfs f :
  f ∈ future_of <$> flat_map subtasks (manifest_tasks k mfs) → ∃ j i, f = (j, Some i) ∧ (k ≤ j)%nat.
Proof.
  intros (t & -> & Ht)%list_elem_of_fmap. rewrite list_elem_of_In, in_flat_map in Ht. destruct Ht as (x & Hx & Ht).
  rewrite <- list_elem_of_In in *. destruct (manifest_tasks_elem _ _ _ Hx) as (j & mf & -> & ?).
  destruct (subtasks_entry _ _ Ht) as (j' & i & e & -> & <- & _). by exists j, i.
Qed.

Lemma all_tasks_nodup mfs : NoDup (future_of <$> all_tasks mfs).
Proof.
  unfold all_tasks. rewrite fmap_app. apply NoDup_app. split; [apply manifest_tasks_nodup|]. split.
  - intros f (t & -> & (j & x & -> & _)%manifest_tasks_elem)%list_elem_of_fmap (? & ? & ? & _)%subtasks_of_manifests. done.
  - generalize 0%nat. induction mfs as [|mf mfs IH]; intros k; cbn [manifest_tasks flat_map]; [constructor|].
    rewrite fmap_app. apply NoDup_app. split; [apply subtasks_nodup|]. split; [|apply IH].
    intros f (t & -> & (j & i & e & -> & <- & _)%subtasks_entry)%list_elem_of_fmap (? & ? & E & ?)%subtasks_of_manifests.
    cbn in E. injection E as <- _. lia.
Qed.

Lemma all_tasks_unique mfs t t' l l' :
  l ++ l' ≡ₚ all_tasks mfs → t ∈ l → t' ∈ l' → future_of t ≠ future_of t'.
Proof.
  intros Hp Ht Ht' E. pose proof (all_tasks_nodup mfs) as Hn. rewrite <- Hp, fmap_app in Hn. apply NoDup_app in Hn as (_ & Hd & _).
  apply (Hd (future_of t)); [by apply list_elem_of_fmap_2|]. rewrite E. by apply list_elem_of_fmap_2.
Qed.

(** ** The shape of a body *)

Fixpoint shape (b : list action) : Prop :=
  match b with
  | [] => False
  | [AReady _] => True
  | AReady _ :: _ => False
  | ASubmit t :: b => subtasks t = [] ∧ shape b
  | ASection _ :: b => submits b = [] ∧ shape b
  end.

Lemma body_shape t : shape (body t).
Proof.
  destruct t as [k mf|k i e]; cbn; [|unfold add_entry; by case_bool_decide].
  destruct (GetManifest mf) as [es|]; [|done]. generalize 0%nat, (@nil future_id).
  induction es as [|e es IH]; intros i sts; cbn; [done|]. destruct (AddSequenceNumberOrFail mf e); cbn; [|done].
  split; [unfold subtasks, body, add_entry; by case_bool_decide|apply IH].
Qed.

(** ** The state of a call *)

Definition todo (s : system) : list task := match main_ s with MSubmit k mfs _ => manifest_tasks k mfs | _ => [] end.

(** Tasks that have started and whose future is not ready. *)
Definition job_active (j : option (task * list action)) : list task := match j with Some (t, _ :: _) => [t] | _ => [] end.
Definition job_submits (j : option (task * list action)) : list task := match j with Some (_, b) => submits b | None => [] end.
Definition job_sections (j : option (task * list action)) : list critical_section := match j with Some (_, b) => sections b | None => [] end.

(** Tasks whose future is not ready. *)
Definition outstanding (s : system) : list task :=
  todo s ++ tasks_to_do_ (pool s) ++ flat_map job_active (jobs s) ++
  flat_map subtasks (todo s ++ tasks_to_do_ (pool s)) ++ flat_map job_submits (jobs s).

Definition no_error (s : system) : Prop := ∀ f r, ready s !! f = Some r → ∃ l, r = Ok l.

(** The tasks [ended] have a ready future, the others are outstanding; without an error,
    the critical sections that have run and those that are left in the jobs are the ones
    of the tasks that have started. *)
Record tasks_ok (mfs : list ManifestFile) (s : system) (ended : list task) : Prop := {
  tk_all : ended ++ outstanding s ≡ₚ all_tasks mfs;
  tk_ready t : t ∈ ended → is_Some (ready s !! future_of t);
  tk_ended f r : ready s !! f = Some r → ∃ t, t ∈ ended ∧ future_of t = f ∧ ∀ l, r = Ok l → AReady r ∈ body t;
  tk_log : no_error s → ∃ log, fold_ok (run_step m sch) empty_planner log = Ok (planner s) ∧
    log ++ flat_map job_sections (jobs s) ≡ₚ flat_map (sections ∘ body) (ended ++ flat_map job_active (jobs s));
}.

Record jobs_ok (s : system) : Prop := {
  jb_length : length (jobs s) = length (threads_ (pool s));
  jb_thread w t : threads_ (pool s) !! w = Some (Running t) ↔ ∃ b, jobs s !! w = Some (Some (t, b));
  jb_shape w t b : jobs s !! w = Some (Some (t, b)) → b = [] ∨ shape b;
  jb_ready w t b l : jobs s !! w = Some (Some (t, b)) → AReady (Ok l) ∈ b → AReady (Ok l) ∈ body t;
}.

(** What the calling thread has seen. *)
Definition got (s : system) (f : future_id) (l : list future_id) : Prop := ready s !! f = Some (Ok l).

Definition main_ok (mfs : list ManifestFile) (s : system) : Prop :=
  let futures := future_of <$> manifest_tasks 0 mfs in
  match main_ s with
  | MSubmit k mfs' fut => ∃ pre, mfs = pre ++ mfs' ∧ k = length pre ∧ fut = future_of <$> manifest_tasks 0 pre
  | MCollect fut sts => ∃ pre ls, futures = pre ++ fut ∧ Forall2 (got s) pre ls ∧ sts = concat ls
  | MStatuses sts => ∃ ls pre, Forall2 (got s) futures ls ∧ concat ls = pre ++ sts ∧ Forall (λ f, ∃ l, got s f l) pre
  | MReturn (Ok plan) => ∃ ess, map_ok planned_entries mfs = Ok ess ∧ (entry_ranges_valid (concat ess) → plan_ok (concat ess) plan)
  | MReturn (Err _) => True
  end.

Record sys_ok (mfs : list ManifestFile) (s : system) : Prop := {
  so_jobs : jobs_ok s;
  so_tasks : ∃ ended, tasks_ok mfs s ended;
  so_main : main_ok mfs s;
}.

Lemma init_ok n mfs : sys_ok mfs (init n mfs).
Proof.
  assert (∀ {B} (f : option (task * list action) → list B), f None = [] → flat_map f (replicate n None) = []) as Hf.
  { intros B f E. induction n as [|n IH]; [done|]. cbn. by rewrite E. }
  split.
  - split; cbn.
    + by rewrite !length_replicate.
    + intros w t. split; [intros (? & _)%lookup_replicate_1; done|intros (b & (? & _)%lookup_replicate_1); done].
    + intros w t b (? & _)%lookup_replicate_1. done.
    + intros w t b l (? & _)%lookup_replicate_1. done.
  - exists []. split; cbn.
    + unfold outstanding, todo, all_tasks. cbn. by rewrite !Hf, !app_nil_r.
    + by intros t ?%elem_of_nil.
    + done.
    + intros _. exists []. split; [done|]. by rewrite !Hf.
  - by exists [].
Qed.

(** ** The jobs follow the threads *)

Definition same_running (s s' : system) : Prop :=
  length (threads_ (pool s')) = length (threads_ (pool s)) ∧
  ∀ w t, threads_ (pool s') !! w = Some (Running t) ↔ threads_ (pool s) !! w = Some (Running t).

Lemma jobs_ok_same s s' : jobs_ok s → jobs s' = jobs s → same_running s s' → jobs_ok s'.
Proof. intros [Hl Ht Hs Hr] E [Hl' Hp]. split; rewrite E; [by rewrite Hl'|intros w t; by rewrite Hp|done|done]. Qed.

Lemma jobs_ok_job s s' w t b b' :
  jobs_ok s → jobs s !! w = Some (Some (t, b)) → jobs s' = <[w := Some (t, b')]> (jobs s) → same_running s s' →
  (b' = [] ∨ shape b') → (∀ l, AReady (Ok l) ∈ b' → AReady (Ok l) ∈ body t) → jobs_ok s'.
Proof.
  intros [Hl Ht Hs Hr] Hw E [Hl' Hp] Hsh Hrd. pose proof (lookup_lt_Some _ _ _ Hw) as Hlt.
  split; rewrite E; [by rewrite length_insert, Hl'|..]; intros w' t'.
  - rewrite Hp, Ht. destruct (decide (w = w')) as [<-|]; [|by rewrite list_lookup_insert_ne].
    rewrite list_lookup_insert_eq, Hw by done. naive_solver.
  - intros c. destruct (decide (w = w')) as [<-|]; [rewrite list_lookup_insert_eq by done; naive_solver|rewrite list_lookup_insert_ne by done; apply Hs].
  - intros c l. destruct (decide (w = w')) as [<-|]; [rewrite list_lookup_insert_eq by done; naive_solver|rewrite list_lookup_insert_ne by done; apply Hr].
Qed.

Lemma jobs_ok_take s w t p : jobs_ok s → step (pool s) (ETake w t) p → jobs_ok (set_job w (Some (t, body t)) (set_pool p s)).
Proof.
  intros [Hl Ht Hs Hr] Hst. pose proof (step_length _ _ _ Hst) as Hl'. destruct (step_effect _ _ _ Hst) as (_ & E & Hw).
  pose proof (lookup_lt_Some _ _ _ Hw) as Hlt. split; cbn; [by rewrite length_insert, Hl'|..]; intros w' t'.
  - rewrite E. destruct (decide (w = w')) as [<-|]; [rewrite !list_lookup_insert_eq by lia; naive_solver|by rewrite !list_lookup_insert_ne].
  - intros c. destruct (decide (w = w')) as [<-|]; [rewrite list_lookup_insert_eq by lia|rewrite list_lookup_insert_ne by done; apply Hs].
    intros [= <- <-]. right. apply body_shape.
  - intros c l. destruct (decide (w = w')) as [<-|]; [rewrite list_lookup_insert_eq by lia; naive_solver|rewrite list_lookup_insert_ne by done; apply Hr].
Qed.

Lemma jobs_ok_finish s w t p : jobs_ok s → step (pool s) (EFinish w t) p → jobs_ok (set_job w None (set_pool p s)).
Proof.
  intros [Hl Ht Hs Hr] Hst. pose proof (step_length _ _ _ Hst) as Hl'. destruct (step_effect _ _ _ Hst) as (_ & E & Hw).
  pose proof (lookup_lt_Some _ _ _ Hw) as Hlt. split; cbn; [by rewrite length_insert, Hl'|..]; intros w' t'.
  - rewrite E. destruct (decide (w = w')) as [<-|]; [rewrite !list_lookup_insert_eq by lia; naive_solver|by rewrite !list_lookup_insert_ne].
  - intros c. destruct (decide (w = w')) as [<-|]; [by rewrite list_lookup_insert_eq by lia|rewrite list_lookup_insert_ne by done; apply Hs].
  - intros c l. destruct (decide (w = w')) as [<-|]; [by rewrite list_lookup_insert_eq by lia|rewrite list_lookup_insert_ne by done; apply Hr].
Qed.

Lemma step_same_running s s' e :
  step (pool s) e (pool s') → match e with ESubmit _ | EWait _ | EExit _ | EWake _ => True | _ => False end → same_running s s'.
Proof.
  intros Hs He. split; [by eapply step_length|]. pose proof (step_effect _ _ _ Hs) as H'. destruct e; try done; by destruct H'.
Qed.

Lemma same_running_refl s s' : pool s' = pool s → same_running s s'.
Proof. intros E. unfold same_running. by rewrite E. Qed.

Lemma shape_tail a b : shape (a :: b) → b = [] ∨ shape b.
Proof. destruct a, b as [|]; cbn; naive_solver. Qed.

Lemma worker_jobs_ok s e s' : jobs_ok s → worker_step s e s' → jobs_ok s'.
Proof.
  intros Hok Hstep. assert (∀ w t a b, jobs s !! w = Some (Some (t, a :: b)) →
    (b = [] ∨ shape b) ∧ ∀ l, AReady (Ok l) ∈ b → AReady (Ok l) ∈ body t) as Htail.
  { intros w t a b Hw. split; [|intros l Hl; eapply (jb_ready s Hok); [done|by right]].
    destruct (jb_shape s Hok _ _ _ Hw) as [?|Hs]; [done|by eapply shape_tail]. }
  destruct Hstep as [w t p Hs|w t p Hw Hs|e p He Hs|w t t' b p Hw Hs|w t c b p Hw Hs|w t c b x Hw Hs|w t r b Hw].
  - by apply jobs_ok_take.
  - by eapply jobs_ok_finish.
  - eapply jobs_ok_same; [done|done|]. eapply step_same_running; [done|by destruct e].
  - destruct (Htail _ _ _ _ Hw). eapply jobs_ok_job; try done. by eapply step_same_running.
  - destruct (Htail _ _ _ _ Hw). eapply jobs_ok_job; try done.
  - eapply jobs_ok_job; try done; [by left|]. by intros l ?%elem_of_nil.
  - destruct (Htail _ _ _ _ Hw). eapply jobs_ok_job; try done.
Qed.

Lemma main_jobs_ok s e s' : jobs_ok s → main_step s e s' → jobs_ok s'.
Proof.
  intros Hok Hs. destruct Hs; (eapply jobs_ok_same; [done|done|]); try by apply same_running_refl.
  by eapply step_same_running.
Qed.

(** ** The tasks of a step *)

Lemma jobs_same {B} (f : option (task * list action) → list B) w x y l :
  l !! w = Some x → f x = f y → flat_map f (<[w := y]> l) ≡ₚ flat_map f l.
Proof. intros Hw E. apply (Permutation_app_inv_r (f x)). rewrite (flat_map_insert f w x y l Hw), E. done. Qed.

Lemma jobs_add {B} (f : option (task * list action) → list B) w x y l a :
  l !! w = Some x → f y = a ++ f x → flat_map f (<[w := y]> l) ≡ₚ flat_map f l ++ a.
Proof. intros Hw E. apply (Permutation_app_inv_r (f x)). rewrite (flat_map_insert f w x y l Hw), E. by rewrite app_assoc. Qed.

Lemma jobs_del {B} (f : option (task * list action) → list B) w x y l a :
  l !! w = Some x → f x = a ++ f y → flat_map f l ≡ₚ flat_map f (<[w := y]> l) ++ a.
Proof. intros Hw E. apply (Permutation_app_inv_r (f y)). rewrite <- (flat_map_insert f w x y l Hw), E. by rewrite app_assoc. Qed.

Lemma job_active_elem s w t a b : jobs s !! w = Some (Some (t, a :: b)) → t ∈ flat_map job_active (jobs s).
Proof.
  intros Hw. rewrite list_elem_of_In, in_flat_map. exists (Some (t, a :: b)). rewrite <- list_elem_of_In. split; [by eapply list_elem_of_lookup_2|by left].
Qed.

Lemma active_fresh mfs s ended w t a b :
  tasks_ok mfs s ended → jobs s !! w = Some (Some (t, a :: b)) → ready s !! future_of t = None.
Proof.
  intros Hok Hw. destruct (ready s !! future_of t) as [r|] eqn:E; [|done]. exfalso.
  destruct (tk_ended _ _ _ Hok _ _ E) as (t' & Ht' & Ef & _). eapply (all_tasks_unique mfs t' t); [exact (tk_all _ _ _ Hok)|done| |done].
  unfold outstanding. rewrite !elem_of_app. right. right. left. by eapply job_active_elem.
Qed.

(** A step that makes no future ready. *)
Lemma tasks_ok_step mfs s s' ended log' :
  tasks_ok mfs s ended → ready s' = ready s → outstanding s' ≡ₚ outstanding s →
  (∀ log, fold_ok (run_step m sch) empty_planner log = Ok (planner s) → fold_ok (run_step m sch) empty_planner (log ++ log') = Ok (planner s')) →
  (∃ new, flat_map job_active (jobs s') ≡ₚ flat_map job_active (jobs s) ++ new ∧
     log' ++ flat_map job_sections (jobs s') ≡ₚ flat_map job_sections (jobs s) ++ flat_map (sections ∘ body) new) →
  tasks_ok mfs s' ended.
Proof.
  intros [Ha Hr He Hl] Er Ho Hlog (new & Hact & Hsec). split; rewrite ?Er; [by rewrite Ho|done|done|].
  intros Hn. destruct Hl as (log & Hf & Hp); [unfold no_error in *; by rewrite Er in Hn|].
  exists (log ++ log'). split; [by apply Hlog|]. rewrite <- app_assoc, Hsec, app_assoc, Hp.
  rewrite (Permutation_flat_map _ (Permutation_app_head ended Hact)). rewrite !flat_map_app. by rewrite app_assoc.
Qed.

(** A step that ends the task [t]. *)
Lemma tasks_ok_end mfs s ended w t a b b' r :
  tasks_ok mfs s ended → jobs s !! w = Some (Some (t, a :: b)) → b' = [] →
  submits (a :: b) = [] → (∀ l, r = Ok l → AReady r ∈ body t ∧ sections (a :: b) = []) →
  tasks_ok mfs (set_job w (Some (t, b')) (set_ready (future_of t) r s)) (ended ++ [t]).
Proof.
  intros Hok Hw -> Hsub Hres. pose proof (active_fresh _ _ _ _ _ _ _ Hok Hw) as Hfresh. destruct Hok as [Ha Hr He Hl].
  pose proof (jobs_del job_active w _ (Some (t, [])) _ [t] Hw eq_refl) as Hact.
  split; cbn [set_job set_ready ready planner].
  - rewrite <- Ha. unfold outstanding, todo. cbn [set_job set_ready main_ pool jobs]. rewrite (jobs_same job_submits w _ (Some (t, [])) _ Hw Hsub), Hact. solve_Permutation.
  - intros t' [Ht| ->%list_elem_of_singleton]%elem_of_app; [|by rewrite lookup_insert_eq].
    destruct (decide (future_of t = future_of t')) as [->|]; [by rewrite lookup_insert_eq|rewrite lookup_insert_ne by done; by apply Hr].
  - intros f r' Hf. destruct (decide (future_of t = f)) as [<-|].
    + rewrite lookup_insert_eq in Hf. injection Hf as <-. exists t. split; [apply elem_of_app; right; by left|]. split; [done|]. intros l E. by apply (Hres l).
    + rewrite lookup_insert_ne in Hf by done. destruct (He _ _ Hf) as (t' & Ht' & ?). exists t'. split; [apply elem_of_app; by left|done].
  - intros Hn. destruct (Hn (future_of t) r) as (l & El); [cbn; by rewrite lookup_insert_eq|]. destruct (Hres l El) as [_ Hs].
    destruct Hl as (log & Hf & Hp).
    { intros f r' Hf. apply (Hn f). cbn. rewrite lookup_insert_ne; [done|]. intros <-. congruence. }
    exists log. split; [done|]. cbn [set_job jobs]. rewrite (jobs_same job_sections w _ (Some (t, [])) _ Hw Hs), Hp.
    rewrite (Permutation_flat_map _ (Permutation_app_head ended Hact)). rewrite !flat_map_app. solve_Permutation.
Qed.

Lemma job_none s w : jobs_ok s → threads_ (pool s) !! w = Some Entering → jobs s !! w = Some None.
Proof.
  intros [Hl Ht _ _] Hw. destruct (jobs s !! w) as [[[t b]|]|] eqn:E; [|done|].
  - assert (threads_ (pool s) !! w = Some (Running t)) by (apply Ht; by exists b). congruence.
  - apply lookup_ge_None in E. apply lookup_lt_Some in Hw. lia.
Qed.

Lemma take_tasks_ok mfs s ended w t p :
  jobs_ok s → tasks_ok mfs s ended → step (pool s) (ETake w t) p →
  tasks_ok mfs (set_job w (Some (t, body t)) (set_pool p s)) ended.
Proof.
  intros Hj Hok Hs. destruct (step_effect _ _ _ Hs) as (Eq & _ & Hw%(job_none s w Hj)).
  pose proof (body_shape t) as Hsh. destruct (body t) as [|a b] eqn:Eb; [done|].
  pose proof (jobs_add job_active w _ (Some (t, a :: b)) _ [t] Hw eq_refl) as Hact.
  pose proof (jobs_add job_submits w _ (Some (t, a :: b)) _ (subtasks t) Hw ltac:(cbn; unfold subtasks; by rewrite Eb, app_nil_r)) as Hsub.
  pose proof (jobs_add job_sections w _ (Some (t, a :: b)) _ (sections (body t)) Hw ltac:(cbn [job_sections]; by rewrite Eb, app_nil_r)) as Hsec.
  eapply (tasks_ok_step _ _ _ _ []); [done|done| |intros log Hlog; by rewrite app_nil_r|].
  - unfold outstanding, todo. cbn [set_job set_pool main_ pool jobs]. rewrite Hact, Hsub, Eq, !flat_map_app. cbn [flat_map]. solve_Permutation.
  - exists [t]. cbn [set_job set_pool jobs app flat_map compose]. split; [exact Hact|]. by rewrite Hsec, app_nil_r.
Qed.

Lemma submit_tasks_ok mfs s ended w t t' b p :
  tasks_ok mfs s ended → jobs s !! w = Some (Some (t, ASubmit t' :: b)) → shape (ASubmit t' :: b) → step (pool s) (ESubmit t') p →
  tasks_ok mfs (set_job w (Some (t, b)) (set_pool p s)) ended.
Proof.
  intros Hok Hw [Hsub Hsh] Hs. destruct (step_effect _ _ _ Hs) as (Eq & _). destruct b as [|a b]; [done|].
  pose proof (jobs_same job_active w _ (Some (t, a :: b)) _ Hw eq_refl) as Hact.
  pose proof (jobs_del job_submits w _ (Some (t, a :: b)) _ [t'] Hw eq_refl) as Hs'.
  pose proof (jobs_same job_sections w _ (Some (t, a :: b)) _ Hw eq_refl) as Hsec.
  eapply (tasks_ok_step _ _ _ _ []); [done|done| |intros log Hlog; by rewrite app_nil_r|].
  - unfold outstanding, todo. cbn [set_job set_pool main_ pool jobs]. rewrite Hact, Hs', Eq, !flat_map_app. cbn [flat_map]. rewrite Hsub. solve_Permutation.
  - exists []. cbn [set_job set_pool jobs app flat_map]. rewrite !app_nil_r. done.
Qed.

Lemma section_tasks_ok mfs s ended w t c b p :
  tasks_ok mfs s ended → jobs s !! w = Some (Some (t, ASection c :: b)) → shape (ASection c :: b) → run_step m sch (planner s) c = Ok p →
  tasks_ok mfs (set_job w (Some (t, b)) (set_planner p s)) ended.
Proof.
  intros Hok Hw [_ Hsh] Hp. destruct b as [|a b]; [done|].
  pose proof (jobs_same job_active w _ (Some (t, a :: b)) _ Hw eq_refl) as Hact.
  pose proof (jobs_same job_submits w _ (Some (t, a :: b)) _ Hw eq_refl) as Hs'.
  pose proof (jobs_del job_sections w _ (Some (t, a :: b)) _ [c] Hw eq_refl) as Hsec.
  eapply (tasks_ok_step _ _ _ _ [c]); [done|done| | |].
  - unfold outstanding, todo. cbn [set_job set_planner main_ pool jobs]. by rewrite Hact, Hs'.
  - intros log Hlog. rewrite fold_ok_app, Hlog. cbn. by rewrite Hp.
  - exists []. cbn [set_job set_planner jobs flat_map]. rewrite !app_nil_r. split; [exact Hact|]. rewrite Hsec. solve_Permutation.
Qed.

(** Steps of the pool that change no task. *)
Lemma pool_tasks_ok mfs s ended p x :
  tasks_ok mfs s ended → todo (set_main x s) ++ tasks_to_do_ p ≡ₚ todo s ++ tasks_to_do_ (pool s) →
  tasks_ok mfs (set_main x (set_pool p s)) ended.
Proof.
  intros Hok E. eapply (tasks_ok_step _ _ _ _ []); [done|done| |intros log Hlog; by rewrite app_nil_r|].
  - unfold outstanding. cbn [set_main set_pool pool jobs]. change (todo (set_main x (set_pool p s))) with (todo (set_main x s)).
    rewrite !(app_assoc (todo _)). by rewrite E.
  - exists []. by rewrite !app_nil_r.
Qed.

Lemma finish_tasks_ok mfs s ended w t p :
  tasks_ok mfs s ended → jobs s !! w = Some (Some (t, [])) → tasks_to_do_ p = tasks_to_do_ (pool s) →
  tasks_ok mfs (set_job w None (set_pool p s)) ended.
Proof.
  intros Hok Hw E.
  pose proof (jobs_same job_active w _ None _ Hw eq_refl) as Hact.
  pose proof (jobs_same job_submits w _ None _ Hw eq_refl) as Hs'.
  pose proof (jobs_same job_sections w _ None _ Hw eq_refl) as Hsec.
  eapply (tasks_ok_step _ _ _ _ []); [done|done| |intros log Hlog; by rewrite app_nil_r|].
  - unfold outstanding, todo. cbn [set_job set_pool main_ pool jobs]. by rewrite Hact, Hs', E.
  - exists []. cbn [set_job set_pool jobs flat_map app]. rewrite !app_nil_r. done.
Qed.

Lemma set_main_same s : set_main (main_ s) s = s.
Proof. by destruct s. Qed.

Lemma job_shape s w t a b : jobs_ok s → jobs s !! w = Some (Some (t, a :: b)) → shape (a :: b).
Proof. intros Hj Hw. by destruct (jb_shape s Hj _ _ _ Hw) as [?|?]. Qed.

Lemma worker_tasks_ok mfs s e s' ended :
  jobs_ok s → tasks_ok mfs s ended → worker_step s e s' →
  ∃ ended', tasks_ok mfs s' ended' ∧ main_ s' = main_ s ∧ ∀ f r, ready s !! f = Some r → ready s' !! f = Some r.
Proof.
  intros Hj Hok Hs. assert (∀ w t a b r f r', jobs s !! w = Some (Some (t, a :: b)) → ready s !! f = Some r' →
    <[future_of t := r]> (ready s) !! f = Some r') as Hkeep.
  { intros w t a b r f r' Hw Hf. rewrite lookup_insert_ne; [done|]. intros <-. by rewrite (active_fresh _ _ _ _ _ _ _ Hok Hw) in Hf. }
  destruct Hs as [w t p Hs|w t p Hw Hs|e p He Hs|w t t' b p Hw Hs|w t c b p Hw Hs|w t c b x Hw Hs|w t r b Hw].
  - exists ended. split; [by apply take_tasks_ok|done].
  - exists ended. split; [|done]. eapply finish_tasks_ok; [done|done|]. by destruct (step_effect _ _ _ Hs) as (-> & _).
  - exists ended. split; [|done]. rewrite <- (set_main_same s) at 1. apply (pool_tasks_ok mfs s ended p (main_ s) Hok). rewrite set_main_same.
    f_equiv. pose proof (step_effect _ _ _ Hs) as Heff. destruct e; try done; by destruct Heff as (-> & _).
  - exists ended. split; [|done]. eapply submit_tasks_ok; [done|done|by eapply job_shape|done].
  - exists ended. split; [|done]. eapply section_tasks_ok; [done|done|by eapply job_shape|done].
  - exists (ended ++ [t]). pose proof (job_shape _ _ _ _ _ Hj Hw) as [Hsub _]. split; [|split; [done|intros f r0; by eapply Hkeep]].
    by eapply tasks_ok_end.
  - exists (ended ++ [t]). pose proof (job_shape _ _ _ _ _ Hj Hw) as Hsh. destruct b; [|done]. split; [|split; [done|intros f r0; by eapply Hkeep]].
    eapply tasks_ok_end; [done|done|done|done|]. intros l ->. split; [|done]. eapply (jb_ready s Hj); [done|by left].
Qed.

(** ** The calling thread *)

Lemma all_tasks_key mfs t t' : t ∈ all_tasks mfs → t' ∈ all_tasks mfs → future_of t = future_of t' → t = t'.
Proof.
  intros Ht Ht' E. pose proof (all_tasks_nodup mfs) as Hn. apply list_elem_of_lookup in Ht as (i & Hi). apply list_elem_of_lookup in Ht' as (j & Hj).
  assert (i = j) as ->; [|congruence]. eapply NoDup_lookup; [exact Hn| |]; rewrite list_lookup_fmap, ?Hi, ?Hj; cbn; by rewrite ?E.
Qed.

Lemma manifest_tasks_snoc k mfs mf : manifest_tasks k (mfs ++ [mf]) = manifest_tasks k mfs ++ [ManifestFileTask (k + length mfs) mf].
Proof. revert k. induction mfs as [|x mfs IH]; intros k; cbn; [by rewrite Nat.add_0_r|]. by rewrite IH, Nat.add_succ_r. Qed.

(** The manifest that every future of the list comes from was read. *)
Lemma manifests_read mfs s ended k mfs' ls :
  tasks_ok mfs s ended → (∀ t, t ∈ manifest_tasks k mfs' → t ∈ all_tasks mfs) →
  Forall2 (got s) (future_of <$> manifest_tasks k mfs') ls →
  ∃ ess, map_ok (λ mf, let! es := GetManifest mf in map_ok (AddSequenceNumberOrFail mf) es) mfs' = Ok ess ∧
    concat ls = future_of <$> flat_map subtasks (manifest_tasks k mfs') ∧
    flat_map subtasks (manifest_tasks k mfs') = concat (imap (λ j es, imap (ManifestEntryTask (k + j)) es) ess).
Proof.
  intros Hok. revert k ls. induction mfs' as [|mf mfs' IH]; intros k ls Hin Hg; cbn in Hg.
  { apply Forall2_nil_inv_l in Hg as ->. by exists []. }
  apply Forall2_cons_inv_l in Hg as (l & ls' & Hl & Hls & ->).
  destruct (IH (S k) ls') as (ess & E & Ec & Ef); [intros t Ht; apply Hin; by right|done|].
  destruct (tk_ended _ _ _ Hok _ _ Hl) as (t & Ht & Ek & Hb).
  assert (t = ManifestFileTask k mf) as ->.
  { apply (all_tasks_key mfs); [rewrite <- (tk_all _ _ _ Hok); apply elem_of_app; by left|apply Hin; by left|done]. }
  destruct (subtasks_read k mf l (Hb l eq_refl)) as (es & Er & Es & ->). exists (es :: ess). cbn [map_ok]. rewrite Er. cbn [rbind]. rewrite E.
  split; [done|]. cbn [manifest_tasks flat_map concat imap]. split; [by rewrite Ec, fmap_app|]. rewrite Es, Ef. rewrite Nat.add_0_r. f_equal. f_equal.
  apply imap_ext. intros j x _. unfold compose. by rewrite Nat.add_succ_r.
Qed.

Lemma entry_sections k g es :
  flat_map (sections ∘ body) (imap (λ j, ManifestEntryTask k (g j)) es) = flat_map (λ e, [NoteStep e; StoreStep e]) (List.filter live es).
Proof.
  revert g. induction es as [|e es IH]; intros g; [done|]. cbn [imap flat_map List.filter].
  change ((λ j, ManifestEntryTask k (g j)) ∘ S) with (λ j, ManifestEntryTask k ((g ∘ S) j)). rewrite (IH (g ∘ S)).
  cbn [compose body]. unfold live, add_entry. by case_bool_decide.
Qed.

Lemma manifest_sections k mfs : flat_map (sections ∘ body) (manifest_tasks k mfs) = [].
Proof.
  revert k. induction mfs as [|mf mfs IH]; intros k; [done|]. cbn [manifest_tasks flat_map]. rewrite IH, app_nil_r. cbn [compose body].
  destruct (GetManifest mf) as [es|]; [|done]. generalize 0%nat, (@nil future_id). induction es as [|e es IH']; intros i sts; [done|].
  cbn [submit_entries]. destruct (AddSequenceNumberOrFail mf e); [|done]. apply IH'.
Qed.

Lemma planned_sections k ess :
  flat_map (sections ∘ body) (concat (imap (λ j es, imap (ManifestEntryTask (k + j)) es) ess))
  = flat_map (λ e, [NoteStep e; StoreStep e]) (concat (List.filter live <$> ess)).
Proof.
  revert k. induction ess as [|es ess IH]; intros k; [done|]. cbn [imap concat fmap list_fmap]. rewrite !flat_map_app. f_equal.
  - apply (entry_sections _ id).
  - rewrite <- (IH (S k)). f_equal. f_equal. apply imap_ext. intros j x _. unfold compose. by rewrite Nat.add_succ_r.
Qed.

Lemma sections_schedule es log : log ≡ₚ flat_map (λ e, [NoteStep e; StoreStep e]) es → schedule_of es log.
Proof.
  intros Hp. unfold schedule_of, notes, stores. rewrite !(Permutation_flat_map _ Hp).
  split; clear; (induction es as [|e es IH]; [done|]); cbn; by rewrite IH.
Qed.

Lemma entries_planned mfs ess :
  map_ok (λ mf, let! es := GetManifest mf in map_ok (AddSequenceNumberOrFail mf) es) mfs = Ok ess →
  map_ok planned_entries mfs = Ok (List.filter live <$> ess).
Proof.
  revert ess. induction mfs as [|mf mfs IH]; intros ess; cbn [map_ok]; [by intros [= <-]|]. unfold planned_entries at 1, live_entries.
  destruct (GetManifest mf) as [es|]; cbn [rbind]; [|done]. destruct (map_ok _ es) as [es'|]; cbn [rbind]; [|done].
  destruct (map_ok _ mfs) as [ess'|] eqn:E; cbn [rbind]; [|done]. intros [= <-]. by rewrite (IH _ eq_refl).
Qed.

(** Once every future is ready with a value, nothing is outstanding. *)
Lemma all_ready mfs s ended ls :
  tasks_ok mfs s ended → Forall2 (got s) (future_of <$> manifest_tasks 0 mfs) ls → Forall (λ f, ∃ l, got s f l) (concat ls) →
  outstanding s = [] ∧ no_error s ∧
  ∃ ess, map_ok (λ mf, let! es := GetManifest mf in map_ok (AddSequenceNumberOrFail mf) es) mfs = Ok ess ∧
    flat_map (sections ∘ body) (all_tasks mfs) = flat_map (λ e, [NoteStep e; StoreStep e]) (concat (List.filter live <$> ess)).
Proof.
  intros Hok Hm Hst. destruct (manifests_read mfs s ended 0 mfs ls Hok) as (ess & E & Ec & Ef); [intros t Ht; apply elem_of_app; by left|done|].
  assert (∀ t, t ∈ all_tasks mfs → ∃ l, got s (future_of t) l) as Hall.
  { intros t [Ht|Ht]%elem_of_app.
    - apply (list_elem_of_fmap_2 future_of) in Ht. apply list_elem_of_lookup in Ht as (i & Hi).
      destruct (Forall2_lookup_l _ _ _ _ _ Hm Hi) as (l & _ & Hl). by exists l.
    - rewrite Forall_forall in Hst. apply Hst. rewrite Ec. by apply list_elem_of_fmap_2. }
  split; [|split].
  - destruct (outstanding s) as [|t o] eqn:Eo; [done|]. exfalso. pose proof (tk_all _ _ _ Hok) as Hp. rewrite Eo in Hp.
    destruct (Hall t) as (l & Hl); [rewrite <- Hp; apply elem_of_app; right; by left|].
    destruct (tk_ended _ _ _ Hok _ _ Hl) as (t' & Ht' & Ek & _). by eapply (all_tasks_unique mfs t' t); [exact Hp| |left|].
  - intros f r Hf. destruct (tk_ended _ _ _ Hok _ _ Hf) as (t & Ht & <- & _).
    destruct (Hall t) as (l & Hl); [rewrite <- (tk_all _ _ _ Hok); apply elem_of_app; by left|]. exists l. unfold got in Hl. congruence.
  - exists ess. split; [done|]. unfold all_tasks. rewrite flat_map_app, manifest_sections, Ef. apply (planned_sections 0).
Qed.

Lemma idle_jobs (l : list (option (task * list action))) : flat_map job_active l = [] → flat_map job_sections l = [].
Proof.
  induction l as [|[[t [|a b]]|] l IH]; cbn; try done; apply IH.
Qed.

Lemma result_ok mfs s ended ls plan :
  tasks_ok mfs s ended → Forall2 (got s) (future_of <$> manifest_tasks 0 mfs) ls → Forall (λ f, ∃ l, got s f l) (concat ls) →
  planner_GetResult sch (planner s) = Ok plan →
  ∃ ess, map_ok planned_entries mfs = Ok ess ∧ (entry_ranges_valid (concat ess) → plan_ok (concat ess) plan).
Proof.
  intros Hok Hm Hst Hres. destruct (all_ready mfs s ended ls Hok Hm Hst) as (Ho & Hne & ess & E & Es).
  exists (List.filter live <$> ess). split; [by apply entries_planned|]. intros Hv.
  destruct (tk_log _ _ _ Hok Hne) as (log & Hf & Hp). pose proof (tk_all _ _ _ Hok) as Hall. rewrite Ho, app_nil_r in Hall.
  unfold outstanding in Ho. apply app_eq_nil in Ho as (_ & (_ & (Hact & _)%app_eq_nil)%app_eq_nil).
  rewrite (idle_jobs _ Hact), Hact, !app_nil_r, (Permutation_flat_map _ Hall), Es in Hp.
  destruct (schedule_planner_of m sch _ log (planner s) (sections_schedule _ _ Hp) Hf) as [Hs Hof].
  eapply plan_ok_perm; [exact Hs|]. eapply planner_of_plan_ok; [done|done|]. by eapply entry_ranges_valid_perm.
Qed.

Lemma main_ok_ready mfs s s' :
  main_ s' = main_ s → (∀ f r, ready s !! f = Some r → ready s' !! f = Some r) → main_ok mfs s → main_ok mfs s'.
Proof.
  intros Em Hr Hok. assert (∀ f l, got s f l → got s' f l) as Hg by (intros f l; apply Hr).
  unfold main_ok in *. rewrite Em. destruct (main_ s) as [k mfs' fut|fut sts|sts|[plan|]]; try done.
  - destruct Hok as (pre & ls & ? & H2 & ?). exists pre, ls. split; [done|]. split; [|done]. by eapply Forall2_impl.
  - destruct Hok as (ls & pre & H2 & ? & H3). exists ls, pre. split; [by eapply Forall2_impl|]. split; [done|].
    eapply Forall_impl; [done|]. intros f (l & Hl). exists l. by apply Hg.
Qed.

Lemma main_step_ok mfs s e s' : sys_ok mfs s → main_step s e s' → sys_ok mfs s'.
Proof.
  intros [Hj (ended & Ht) Hm] Hs. split; [by eapply main_jobs_ok|exists ended|].
  - destruct Hs as [k mf mfs' fut p E Hp|k fut E|f fut sts l E _|f fut sts x E _|sts E|f sts l E _|f sts x E _|E].
    1:{ destruct (step_effect _ _ _ Hp) as (Eq & _). apply pool_tasks_ok; [done|]. rewrite Eq. unfold todo. rewrite E. cbn [set_main main_ manifest_tasks]. solve_Permutation. }
    all: apply (pool_tasks_ok mfs s ended (pool s)); [done|]; unfold todo; by rewrite E.
  - destruct Hs as [k mf mfs' fut p E Hp|k fut E|f fut sts l E Hf|f fut sts x E _|sts E|f sts l E Hf|f sts x E _|E];
      unfold main_ok in Hm; rewrite E in Hm; unfold main_ok; cbn [set_main main_]; try done.
    + destruct Hm as (pre & -> & -> & ->). exists (pre ++ [mf]). rewrite <- app_assoc, length_app, manifest_tasks_snoc, fmap_app. cbn.
      split; [done|]. split; [lia|done].
    + destruct Hm as (pre & -> & _ & ->). exists [], []. by rewrite app_nil_r.
    + destruct Hm as (pre & ls & Ef & Hg & ->). exists (pre ++ [f]), (ls ++ [l]). rewrite <- app_assoc, concat_app. cbn. rewrite app_nil_r.
      split; [done|]. split; [|done]. apply Forall2_app; [done|]. by repeat constructor.
    + destruct Hm as (pre & ls & Ef & Hg & ->). rewrite app_nil_r in Ef. exists ls, []. by rewrite Ef.
    + destruct Hm as (ls & pre & Hg & Ec & Hp). exists ls, (pre ++ [f]). rewrite <- app_assoc. split; [done|]. split; [done|].
      apply Forall_app. split; [done|]. apply Forall_singleton. by exists l.
    + destruct Hm as (ls & pre & Hg & Ec & Hp). destruct (planner_GetResult sch (planner s)) as [plan|] eqn:Er; [|done].
      rewrite app_nil_r in Ec. subst pre. by eapply result_ok.
Qed.

Lemma sys_step_ok mfs s e s' : sys_ok mfs s → sys_step s e s' → sys_ok mfs s'.
Proof.
  intros Hok [Hs|Hs]; [by eapply main_step_ok|]. destruct Hok as [Hj (ended & Ht) Hm].
  destruct (worker_tasks_ok mfs s e s' ended Hj Ht Hs) as (ended' & Ht' & Em & Hr).
  split; [by eapply worker_jobs_ok|by exists ended'|by eapply main_ok_ready].
Qed.

Lemma sys_run_ok n mfs tr s : sys_run (init n mfs) tr s → sys_ok mfs s.
Proof. induction 1 as [|tr s1 e s2 _ IH Hs]; [apply init_ok|by eapply sys_step_ok]. Qed.

(** ** The call ends *)

(** A bound on the steps that are left. *)
Definition action_weight (a : action) : nat := match a with ASubmit t => 4 + length (body t) | _ => 1 end.
Definition body_weight (b : list action) : nat := sum_list_with action_weight b.
Definition task_weight (t : task) : nat := 2 + body_weight (body t).
Definition job_weight (j : option (task * list action)) : nat := match j with Some (_, b) => body_weight b | None => 0 end.

Definition main_weight (mfs : list ManifestFile) (x : main) : nat :=
  match x with
  | MSubmit k mfs' _ => sum_list_with (λ t, 2 + task_weight t) (manifest_tasks k mfs') + length mfs + length (all_tasks mfs) + 3
  | MCollect fut _ => length fut + length (all_tasks mfs) + 2
  | MStatuses sts => length sts + 1
  | MReturn _ => 0
  end%nat.

Definition measure (mfs : list ManifestFile) (s : system) : nat :=
  threads_weight (pool s) + sum_list_with task_weight (tasks_to_do_ (pool s)) + sum_list_with job_weight (jobs s) + main_weight mfs (main_ s).

Lemma body_weight_length b : submits b = [] → body_weight b = length b.
Proof. unfold body_weight. induction b as [|[] b IH]; cbn; [done|done|intros E; by rewrite IH|intros E; by rewrite IH]. Qed.

Lemma body_weight_cons a b : body_weight (a :: b) = (action_weight a + body_weight b)%nat.
Proof. done. Qed.

Definition no_wake (e : option (event task)) : bool := match e with Some (EWake _) => false | _ => true end.

Lemma worker_measure mfs s e s' :
  jobs_ok s → worker_step s e s' → no_wake e = true → (measure mfs s' < measure mfs s)%nat.
Proof.
  intros Hj Hs He. destruct Hs as [w t p Hs|w t p Hw Hs|e p Ho Hs|w t t' b p Hw Hs|w t c b p Hw Hs|w t c b x Hw Hs|w t r b Hw];
    unfold measure; cbn [set_job set_pool set_planner set_ready pool jobs main_].
  - destruct (step_effect _ _ _ Hs) as (Eq & _ & Hw%(job_none s w Hj)). pose proof (step_threads_weight _ _ _ Hs) as Ht. cbn in Ht.
    pose proof (sum_list_insert job_weight w _ (Some (t, body t)) _ Hw) as E. rewrite Eq. cbn [sum_list_with job_weight] in *. unfold task_weight. lia.
  - destruct (step_effect _ _ _ Hs) as (-> & _). pose proof (step_threads_weight _ _ _ Hs) as Ht. cbn in Ht.
    pose proof (sum_list_insert job_weight w _ None _ Hw) as E. cbn in E. lia.
  - pose proof (step_effect _ _ _ Hs) as Eq. pose proof (step_threads_weight _ _ _ Hs) as Ht. destruct e; try done; destruct Eq as (-> & _); lia.
  - pose proof (job_shape _ _ _ _ _ Hj Hw) as [Hsub _]. destruct (step_effect _ _ _ Hs) as (-> & _). pose proof (step_threads_weight _ _ _ Hs) as Ht. cbn in Ht.
    pose proof (sum_list_insert job_weight w _ (Some (t, b)) _ Hw) as E. cbn [job_weight] in E. rewrite body_weight_cons in E. cbn [action_weight] in E.
    rewrite sum_list_with_app. cbn [sum_list_with]. unfold task_weight at 2. rewrite (body_weight_length _ Hsub). lia.
  - pose proof (sum_list_insert job_weight w _ (Some (t, b)) _ Hw) as E. cbn [job_weight] in E. rewrite body_weight_cons in E. cbn [action_weight] in E. lia.
  - pose proof (sum_list_insert job_weight w _ (Some (t, [])) _ Hw) as E. cbn [job_weight] in E. rewrite body_weight_cons in E. cbn [action_weight] in E.
    change (body_weight []) with 0%nat in E. lia.
  - pose proof (sum_list_insert job_weight w _ (Some (t, b)) _ Hw) as E. cbn [job_weight] in E. rewrite body_weight_cons in E. cbn [action_weight] in E. lia.
Qed.

Lemma manifest_tasks_length k mfs : length (manifest_tasks k mfs) = length mfs.
Proof. revert k. induction mfs as [|mf mfs IH]; intros k; cbn; by rewrite ?IH. Qed.

Lemma main_measure mfs s e s' :
  sys_ok mfs s → main_step s e s' → (measure mfs s' < measure mfs s)%nat.
Proof.
  intros [_ (ended & Hok) Hm] Hs.
  destruct Hs as [k mf mfs' fut p E Hp|k fut E|f fut sts l E Hf|f fut sts x E _|sts E|f sts l E Hf|f sts x E _|E];
    unfold main_ok in Hm; rewrite E in Hm; unfold measure; rewrite E; cbn [set_main set_pool pool jobs main_ main_weight length]; try lia.
  - destruct (step_effect _ _ _ Hp) as (-> & _). pose proof (step_threads_weight _ _ _ Hp) as Ht. cbn in Ht.
    rewrite sum_list_with_app. cbn [manifest_tasks sum_list_with]. lia.
  - destruct Hm as (pre & -> & _ & ->). rewrite length_fmap, manifest_tasks_length, app_nil_r. cbn [manifest_tasks sum_list_with]. lia.
  - destruct Hm as (pre & ls & Ef & Hg & ->). rewrite app_nil_r in Ef. rewrite <- Ef in Hg.
    destruct (manifests_read mfs s ended 0 mfs ls Hok) as (ess & _ & -> & _); [intros t Ht; apply elem_of_app; by left|done|].
    rewrite length_fmap. unfold all_tasks. rewrite length_app. lia.
Qed.

Lemma sys_run_measure mfs s tr s' :
  sys_ok mfs s → sys_run s tr s' → Forall (λ e, no_wake e = true) tr → sys_ok mfs s' ∧ (length tr + measure mfs s' ≤ measure mfs s)%nat.
Proof.
  intros Hok. induction 1 as [|tr s1 e s2 _ IH Hs]; intros Hw; [split; [done|cbn [length]; lia]|].
  apply Forall_app in Hw as [Hw [He _]%Forall_cons]. destruct (IH Hw) as [Hok1 Hlen]. split; [by eapply sys_step_ok|].
  assert (measure mfs s2 < measure mfs s1)%nat by (destruct Hs as [Hs|Hs]; [by eapply main_measure|eapply worker_measure; [apply Hok1|done|done]]).
  rewrite length_app. cbn [length]. lia.
Qed.

(** ** No deadlock *)

Definition pool_events (tr : list (option (event task))) : list (event task) := omap id tr.

Lemma sys_step_pool s e s' :
  sys_step s e s' → match e with Some e => step (pool s) e (pool s') ∧ (∀ b, e ≠ EStop b) | None => pool s' = pool s end.
Proof. intros [Hs|Hs]; destruct Hs as [|?? p|e p He| | | |] || destruct Hs; cbn; try done. split; [done|]. intros b ->. done. Qed.

Lemma sys_run_pool n mfs tr s :
  sys_run (init n mfs) tr s → run (make_ThreadPool n) (pool_events tr) (pool s) ∧ pool_status (pool s) = kRunning.
Proof.
  induction 1 as [|tr s1 e s2 _ [IH Hr] Hs]; [split; [apply run_nil|done]|]. apply sys_step_pool in Hs. unfold pool_events. rewrite omap_app.
  destruct e as [e|]; cbn.
  - destruct Hs as [Hs He]. split; [by eapply run_snoc|by eapply step_running].
  - rewrite app_nil_r, Hs. done.
Qed.

(** A thread that neither waits nor has left makes a step. *)
Lemma busy_worker s w x :
  jobs_ok s → pool_status (pool s) = kRunning → threads_ (pool s) !! w = Some x → is_idle x = false →
  ∃ e s', worker_step s e s' ∧ no_wake e = true.
Proof.
  intros Hj Hr Hw Hx. destruct x as [| |t|]; try done.
  - destruct (GetTask_cases (pool s)) as [(_ & _ & E)|[(t & ? & _ & _ & E)|[(Hc & _)|(_ & Hc & _)]]]; [| |congruence|congruence].
    + eexists _, _. split; [apply (worker_other s (EWait w)); [done|by apply step_wait]|done].
    + eexists _, _. split; [eapply worker_take; by eapply step_take|done].
  - pose proof Hw as (b & Hb)%(jb_thread s Hj). destruct b as [|[t'|c|r] b].
    + eexists _, _. split; [eapply worker_finish; [done|by apply step_finish]|done].
    + destruct (submit_step (pool s) t' Hr) as (p & Hp). eexists _, _. split; [by eapply worker_submit|done].
    + destruct (run_step m sch (planner s) c) as [p|x] eqn:E; eexists _, _; [split; [by eapply worker_section|done]|split; [by eapply worker_section_error|done]].
    + eexists _, _. split; [by eapply worker_ready|done].
Qed.

(** Tasks that are outstanding keep a thread busy. *)
Lemma outstanding_busy mfs n tr s :
  sys_run (init n mfs) tr s → n ≠ 0%nat → todo s = [] → outstanding s ≠ [] → ∃ e s', worker_step s e s' ∧ no_wake e = true.
Proof.
  intros Hrun Hn Htodo Hout. pose proof (sys_run_ok _ _ _ _ Hrun) as [Hj _ _]. destruct (sys_run_pool _ _ _ _ Hrun) as [Hpool Hr].
  assert (∃ w x, threads_ (pool s) !! w = Some x ∧ is_idle x = false) as (w & x & Hw & Hx); [|by eapply busy_worker].
  assert (∀ w t b, jobs s !! w = Some (Some (t, b)) → ∃ w x, threads_ (pool s) !! w = Some x ∧ is_idle x = false) as Hrunning.
  { intros w t b Hw. exists w, (Running t). split; [|done]. apply (jb_thread s Hj). by exists b. }
  destruct (decide (tasks_to_do_ (pool s) = [])) as [Hq|Hq].
  - destruct (decide (Exists (λ j, is_Some j) (jobs s))) as [He|He].
    + apply Exists_exists in He as ([[t b]|] & (w & Hw)%list_elem_of_lookup & [? [=]]). by eapply Hrunning.
    + exfalso. apply Hout. unfold outstanding. rewrite Htodo, Hq. cbn.
      assert (∀ {B} (f : option (task * list action) → list B), f None = [] → flat_map f (jobs s) = []) as Hf.
      { intros B f E. clear -He E. induction (jobs s) as [|[j|] l IH]; [done|exfalso; apply He; by left; eexists|].
        cbn. rewrite E. apply IH. intros H1. apply He. by right. }
      by rewrite !Hf.
  - destruct (ok_awake _ _ _ (run_ok _ _ _ Hpool) Hr Hq Hn) as (x & (w & Hw)%list_elem_of_lookup & Hx). exists w, x. split; [done|].
    destruct x; try done. apply list_elem_of_lookup_2 in Hw. apply (ok_exited _ _ _ (run_ok _ _ _ Hpool)) in Hw. congruence.
Qed.

(** A future that the calling thread waits for belongs to a task. *)
Lemma main_waits mfs s f :
  sys_ok mfs s → (∃ fut sts, main_ s = MCollect (f :: fut) sts) ∨ (∃ sts, main_ s = MStatuses (f :: sts)) →
  f ∈ future_of <$> all_tasks mfs.
Proof.
  intros [_ (ended & Hok) Hm] Hf. unfold main_ok in Hm. unfold all_tasks. rewrite fmap_app, elem_of_app. destruct Hf as [(fut & sts & E)|(sts & E)]; rewrite E in Hm.
  - left. destruct Hm as (pre & ls & -> & _). apply elem_of_app. right. by left.
  - right. destruct Hm as (ls & pre & Hg & Ec & _).
    destruct (manifests_read mfs s ended 0 mfs ls Hok) as (ess & _ & E' & _); [intros t Ht; apply elem_of_app; by left|done|].
    rewrite <- E', Ec. apply elem_of_app. right. by left.
Qed.

Lemma main_progress n mfs tr s :
  sys_run (init n mfs) tr s → n ≠ 0%nat → (∃ r, main_ s = MReturn r) ∨ ∃ e s', sys_step s e s' ∧ no_wake e = true.
Proof.
  intros Hrun Hn. pose proof (sys_run_ok _ _ _ _ Hrun) as Hok. destruct (sys_run_pool _ _ _ _ Hrun) as [_ Hr].
  assert (∀ f, f ∈ future_of <$> all_tasks mfs → todo s = [] → ready s !! f = None → ∃ e s', sys_step s e s' ∧ no_wake e = true) as Hblock.
  { intros f Hf Htodo Hnone. destruct (outstanding_busy mfs n tr s Hrun Hn Htodo) as (e & s' & Hs & He); [|exists e, s'; by split; [right|]].
    intros Ho. destruct (so_tasks _ _ Hok) as (ended & Ht). pose proof (tk_all _ _ _ Ht) as Hp. rewrite Ho, app_nil_r in Hp.
    apply list_elem_of_fmap in Hf as (t & -> & Hin). rewrite <- Hp in Hin. destruct (tk_ready _ _ _ Ht t Hin) as [r E]. congruence. }
  destruct (main_ s) as [k [|mf mfs'] fut|[|f fut] sts|[|f sts]|r] eqn:E; [right..|left; by exists r].
  - eexists _, _. split; [left; by eapply main_submitted|done].
  - destruct (submit_step (pool s) (ManifestFileTask k mf) Hr) as (p & Hp). eexists _, _. split; [left; by eapply main_submit|done].
  - eexists _, _. split; [left; by eapply main_collected|done].
  - destruct (ready s !! f) as [[l|x]|] eqn:Er.
    + eexists _, _. split; [left; by eapply main_get|done].
    + eexists _, _. split; [left; by eapply main_get_error|done].
    + apply (Hblock f); [|unfold todo; by rewrite E|done]. eapply main_waits; [done|]. left. by exists fut, sts.
  - eexists _, _. split; [left; by eapply main_result|done].
  - destruct (ready s !! f) as [[l|x]|] eqn:Er.
    + eexists _, _. split; [left; by eapply main_status|done].
    + eexists _, _. split; [left; by eapply main_status_error|done].
    + apply (Hblock f); [|unfold todo; by rewrite E|done]. eapply main_waits; [done|]. right. by exists sts.
Qed.

(** ** A scheduler

    Runs the call under a list of choices of the thread that moves next; a thread that
    cannot move is passed over. *)

Definition notify_first (p : ThreadPool task) : ThreadPool task :=
  match list_find (λ w, is_waiting w = true) (threads_ p) with Some (i, _) => set_thread i Entering p | None => p end.

Definition submit_next (t : task) (p : ThreadPool task) : option (ThreadPool task) :=
  match Submit t p with Ok p => Some (notify_first p) | Err _ => None end.

Definition main_next (s : system) : option system :=
  match main_ s with
  | MSubmit k (mf :: mfs) fut =>
      p ← submit_next (ManifestFileTask k mf) (pool s); Some (set_main (MSubmit (S k) mfs (fut ++ [(k, None)])) (set_pool p s))
  | MSubmit _ [] fut => Some (set_main (MCollect fut []) s)
  | MCollect (f :: fut) sts =>
      r ← ready s !! f; Some (set_main (match r with Ok l => MCollect fut (sts ++ l) | Err e => MReturn (Err e) end) s)
  | MCollect [] sts => Some (set_main (MStatuses sts) s)
  | MStatuses (f :: sts) =>
      r ← ready s !! f; Some (set_main (match r with Ok _ => MStatuses sts | Err e => MReturn (Err e) end) s)
  | MStatuses [] => Some (set_main (MReturn (planner_GetResult sch (planner s))) s)
  | MReturn _ => None
  end.

Definition job_next (w : nat) (t : task) (b : list action) (s : system) : option system :=
  match b with
  | [] => Some (set_job w None (set_pool (set_thread w Entering (pool s)) s))
  | ASubmit t' :: rest => p ← submit_next t' (pool s); Some (set_job w (Some (t, rest)) (set_pool p s))
  | ASection c :: rest =>
      match run_step m sch (planner s) c with
      | Ok p => Some (set_job w (Some (t, rest)) (set_planner p s))
      | Err e => Some (set_job w (Some (t, [])) (set_ready (future_of t) (Err e) s))
      end
  | AReady r :: rest => Some (set_job w (Some (t, rest)) (set_ready (future_of t) r s))
  end.

Definition worker_next (w : nat) (s : system) : option system :=
  match threads_ (pool s) !! w, jobs s !! w with
  | Some Entering, _ =>
      match GetTask (pool s) with
      | (MustWait, p) => Some (set_pool (set_thread w Waiting p) s)
      | (TaskTaken t, p) => Some (set_job w (Some (t, body t)) (set_pool (set_thread w (Running t) p) s))
      | (NoTask, p) => Some (set_pool (set_thread w Exited p) s)
      | (EmptyFront, _) => None
      end
  | Some (Running t), Some (Some (t', b)) => job_next w t' b s
  | _, _ => None
  end.

(** [None] is the calling thread, [Some w] a thread of the pool. *)
Definition next (c : option nat) (s : system) : option system :=
  match c with None => main_next s | Some w => worker_next w s end.

Definition exec (cs : list (option nat)) (s : system) : system := foldl (λ s c, default s (next c s)) s cs.

Lemma submit_next_step t p p' : submit_next t p = Some p' → step p (ESubmit t) p'.
Proof.
  unfold submit_next. destruct (Submit t p) as [p1|] eqn:E; [|done]. intros [= <-]. apply (step_submit p t p1 _ E). unfold notify_first.
  destruct (list_find _ _) as [[i w]|] eqn:El.
  - apply list_find_Some in El as (Hi & Hw & _). destruct w; try done. by apply notify_some.
  - apply list_find_None in El. apply notify_none. apply forallb_forall. intros w Hw. rewrite Forall_forall in El.
    specialize (El w ltac:(by apply list_elem_of_In)). by destruct (is_waiting w).
Qed.

Lemma main_next_step s s' : main_next s = Some s' → ∃ e, main_step s e s' ∧ no_wake e = true.
Proof.
  unfold main_next. destruct (main_ s) as [k [|mf mfs'] fut|[|f fut] sts|[|f sts]|r] eqn:E; try done.
  - intros [= <-]. exists None. by split; [eapply main_submitted|].
  - destruct (submit_next _ _) as [p|] eqn:Ep; cbn; [|done]. intros [= <-]. eexists. by split; [eapply main_submit, submit_next_step|].
  - intros [= <-]. exists None. by split; [eapply main_collected|].
  - destruct (ready s !! f) as [[l|x]|] eqn:Er; cbn; intros [= <-]; exists None; (split; [|done]); [by eapply main_get|by eapply main_get_error].
  - intros [= <-]. exists None. by split; [eapply main_result|].
  - destruct (ready s !! f) as [[l|x]|] eqn:Er; cbn; intros [= <-]; exists None; (split; [|done]); [by eapply main_status|by eapply main_status_error].
Qed.

Lemma worker_next_step w s s' : jobs_ok s → worker_next w s = Some s' → ∃ e, worker_step s e s' ∧ no_wake e = true.
Proof.
  unfold worker_next. intros Hj. destruct (threads_ (pool s) !! w) as [[| |t|]|] eqn:Et; try done.
  - destruct (GetTask (pool s)) as [[|t| |] p] eqn:Eg; intros [= <-].
    + exists (Some (EWait w)). split; [apply worker_other; [done|by apply step_wait]|done].
    + exists (Some (ETake w t)). split; [by eapply worker_take, step_take|done].
    + exists (Some (EExit w)). split; [apply worker_other; [done|by apply step_exit]|done].
  - destruct (jobs s !! w) as [[[t' b]|]|] eqn:Ej; try done.
    assert (t' = t) as ->. { assert (threads_ (pool s) !! w = Some (Running t')) by (apply (jb_thread s Hj); by exists b). congruence. }
    destruct b as [|[t'|c|r] b]; cbn.
    + intros [= <-]. exists (Some (EFinish w t)). split; [by eapply worker_finish, step_finish|done].
    + destruct (submit_next t' (pool s)) as [p|] eqn:Ep; cbn; [|done]. intros [= <-]. exists (Some (ESubmit t')). split; [by eapply worker_submit, submit_next_step|done].
    + destruct (run_step m sch (planner s) c) eqn:E; intros [= <-]; exists None; (split; [|done]); [by eapply worker_section|by eapply worker_section_error].
    + intros [= <-]. exists None. split; [by eapply worker_ready|done].
Qed.

(** The scheduler makes runs of the call. *)
Lemma exec_run mfs s0 tr s cs :
  sys_run s0 tr s → sys_ok mfs s → ∃ tr', sys_run s0 (tr ++ tr') (exec cs s) ∧ Forall (λ e, no_wake e = true) tr'.
Proof.
  revert tr s. induction cs as [|c cs IH]; intros tr s Hr Hok; [exists []; by rewrite app_nil_r|]. cbn [exec foldl].
  destruct (next c s) as [s1|] eqn:E; cbn [default]; [|by apply IH].
  assert (∃ e, sys_step s e s1 ∧ no_wake e = true) as (e & Hs & He).
  { destruct c as [w|]; [destruct (worker_next_step w s s1 (so_jobs _ _ Hok) E) as (e & ? & ?)|destruct (main_next_step s s1 E) as (e & ? & ?)];
      exists e; (split; [|done]); [by right|by left]. }
  destruct (IH (tr ++ [e]) s1) as (tr' & Hr' & Hw); [by eapply sys_snoc|by eapply sys_step_ok|]. exists (e :: tr').
  split; [by rewrite <- app_assoc in Hr'|by constructor].
Qed.

End mt.

(** ** The release of the pool

    A [ManifestFileTask] holds a pointer to the pool while it is in the queue and while it
    runs, the calling thread until it returns. *)

Definition holds_pool (t : task) : bool := match t with ManifestFileTask _ _ => true | _ => false end.
Definition pool_refs (s : system) : nat :=
  (match main_ s with MReturn _ => 0 | _ => 1 end) + length (List.filter holds_pool (tasks_to_do_ (pool s) ++ running (pool s))).

(** C21: whatever the threads of the pool do and in whatever order, a plan that the
    multi-threaded planning returns keeps the contract for the live entries of all
    manifests of the list: every manifest was read and every entry was added, and the
    calling thread did not take the plan before the last of them. *)
Theorem multi_threaded_plan_exact `{Avro} (fs : gmap string string) (m : TableMetadataV2) (sch : Schema)
    (use_reader_schema : bool) (config : ManifestEntryDeserializerConfig) (threads_num : nat)
    (list_path : string) (manifests : list ManifestFile) (s0 s : system) tr plan :
  GetCurrentManifestListPathOrFail m = Ok list_path → GetManifestFiles fs list_path = Ok manifests →
  GetScanMetadataMultiThreaded fs m threads_num = Ok s0 →
  sys_run fs m sch use_reader_schema config s0 tr s → main_ s = MReturn (Ok plan) →
  ∃ ess, map_ok (planned_entries fs m sch use_reader_schema config) manifests = Ok ess ∧
    (entry_ranges_valid (concat ess) → plan_ok (concat ess) plan).
Proof.
  intros Hp Hm Hs Hr Er. unfold GetScanMetadataMultiThreaded in Hs. rewrite Hp in Hs. cbn [rbind] in Hs. rewrite Hm in Hs. injection Hs as <-.
  pose proof (so_main _ _ _ _ _ _ _ (sys_run_ok _ _ _ _ _ _ _ _ _ Hr)) as Hok. unfold main_ok in Hok. by rewrite Er in Hok.
Qed.

(** C22: with at least one thread, the calling thread of the multi-threaded planning never
    waits for ever: from every state the system reaches, the threads make a bounded number
    of steps besides spurious wake-ups, whatever their order, and as long as the calling
    thread has not come to one of its return statements, with a plan or an error, one of
    the threads can make a step.  (The claim ends at the return statement: the release of
    the pool when the call's scope is left, by whichever thread drops the last pointer to
    it, is not a step of the system.) *)
Theorem multi_threaded_result_reached `{Avro} (fs : gmap string string) (m : TableMetadataV2) (sch : Schema)
    (use_reader_schema : bool) (config : ManifestEntryDeserializerConfig) (threads_num : nat) (s0 s : system) tr :
  threads_num ≠ 0%nat → GetScanMetadataMultiThreaded fs m threads_num = Ok s0 →
  sys_run fs m sch use_reader_schema config s0 tr s →
  (∃ bound, ∀ tr' s', sys_run fs m sch use_reader_schema config s tr' s' → Forall (λ e, no_wake e = true) tr' → (length tr' ≤ bound)%nat) ∧
  ((∃ r, main_ s = MReturn r) ∨ ∃ e s', sys_step fs m sch use_reader_schema config s e s' ∧ no_wake e = true).
Proof.
  intros Hn Hs Hr. unfold GetScanMetadataMultiThreaded in Hs. apply rbind_Ok_inv in Hs as (path & _ & Hs). apply rbind_Ok_inv in Hs as (mfs & _ & [= <-]).
  split; [|by eapply main_progress].
  exists (measure fs m sch use_reader_schema config mfs s). intros tr' s' Hr' Hw.
  destruct (sys_run_measure fs m sch use_reader_schema config mfs s tr' s' (sys_run_ok _ _ _ _ _ _ _ _ _ Hr) Hr' Hw). lia.
Qed.
