(* ===== verification/MultiThreadedExample.v ===== *)
(** * MultiThreadedExample: runs of the multi-threaded planning

    The table of [ScanFilesExample] planned by two threads, and a table with a manifest
    that cannot be read, where a thread of the pool holds the last pointer to it. *)

From stdpp Require Import base list strings gmap.
From Stdlib Require Import ZArith Lia.
From S2P Require Import Prelude Bytes Types ScanTypes PartitionSpecs TableMetadata ScanBuilder ScanSpec Planner Entries.
From S2P Require Import Json Streams Avro ManifestAvro ManifestRoundtrip AvroExample ManifestList ManifestExample ManifestScan ScanFilesExample ThreadPool MultiThreaded.

#[local] Existing Instance JsonExample.binary_json.
#[local] Existing Instance tree_avro.

Module ThreadsExample.
Import WrittenExample.

Definition metadata : TableMetadataV2 :=
  {| table_uuid := "u"; location := "l"; last_sequence_number := 8; last_updated_ms := 0; last_column_id := 1;
     schemas := [Example1.sch]; current_schema_id := 0; partition_specs := TableMetadata.partition_specs Example1.metadata;
     default_spec_id := 1; last_partition_id := 1000; table_properties := []; current_snapshot_id := Some 5%Z;
     snapshots := [{| snapshot_id := 5; parent_snapshot_id := None; snap_sequence_number := 8; snap_timestamp_ms := 0;
                      manifest_list_location := "s3://bucket/list.avro"; summary := []; snap_schema_id := None |}];
     snapshot_log := []; metadata_log := []; sort_orders := []; default_sort_order_id := 0; refs := []; statistics := [] |}.

Definition manifests : list ManifestFile := [data_manifest; delete_manifest].
Definition start : system := MultiThreaded.init 2 manifests.

(** The threads move in turn. *)
Definition schedule : list (option nat) := concat (replicate 30 [None; Some 0; Some 1])%nat.
Definition final (files : gmap string string) : system := exec files metadata Example1.sch true default_config schedule start.

Lemma list_path : GetCurrentManifestListPathOrFail metadata = Ok "s3://bucket/list.avro"%string.
Proof. reflexivity. Qed.
Lemma list_read : GetManifestFiles fs "s3://bucket/list.avro" = Ok manifests.
Proof.
  unfold GetManifestFiles. replace (ReadFile fs "s3://bucket/list.avro") with (Ok (WriteManifestList manifests) : result string) by reflexivity.
  cbn [rbind]. apply manifest_list_read. repeat constructor; apply is_i32_in || apply is_i64_in; reflexivity.
Qed.
Lemma started_call : GetScanMetadataMultiThreaded fs metadata 2 = Ok start.
Proof. unfold GetScanMetadataMultiThreaded. rewrite list_path. cbn [rbind]. rewrite list_read. reflexivity. Qed.

Lemma scheduled files : ∃ tr, sys_run files metadata Example1.sch true default_config start tr (final files).
Proof.
  destruct (exec_run files metadata Example1.sch true default_config manifests start [] start schedule) as (tr & Hr & _);
    [apply sys_nil|apply init_ok|by exists tr].
Qed.

Definition result_of (s : system) : option (result ScanMetadata) := match main_ s with MReturn r => Some r | _ => None end.
Lemma final_plan : ∃ plan, main_ (final fs) = MReturn (Ok plan).
Proof. vm_compute. eexists. reflexivity. Qed.

(** ** A manifest that cannot be read *)

Definition files : gmap string string := delete "bucket/data.avro"%string fs.
Definition start1 : system := MultiThreaded.init 1 manifests.
(** The call fails while the thread still has the second manifest to do. *)
Definition until_failure : list (option nat) := [None; None; None; Some 0; Some 0; None]%nat.
Definition until_release : list (option nat) := until_failure ++ [Some 0; Some 0; Some 0; Some 0]%nat.
Definition failed (cs : list (option nat)) : system := exec files metadata Example1.sch true default_config cs start1.

Lemma failed_run cs : ∃ tr, sys_run files metadata Example1.sch true default_config start1 tr (failed cs).
Proof.
  destruct (exec_run files metadata Example1.sch true default_config manifests start1 [] start1 cs) as (tr & Hr & _);
    [apply sys_nil|apply init_ok|by exists tr].
Qed.

Lemma release_next : pool_refs <$> worker_next files metadata Example1.sch true default_config 0 (failed until_release) = Some 0%nat.
Proof. vm_compute. reflexivity. Qed.

(** The calling thread has returned the error, with a task in the queue; then a step of
    the thread of the pool drops the last pointer to the pool. *)
Lemma thread_releases_pool :
  (∃ e, result_of (failed until_failure) = Some (Err e)) ∧ pool_refs (failed until_failure) = 2%nat ∧ pool_refs (failed until_release) = 1%nat ∧
  ∃ tr e s', sys_run files metadata Example1.sch true default_config start1 tr (failed until_release) ∧
    worker_step files metadata Example1.sch true default_config (failed until_release) e s' ∧ pool_refs s' = 0%nat.
Proof.
  split; [vm_compute; by eexists|]. split; [vm_compute; reflexivity|]. split; [vm_compute; reflexivity|].
  pose proof release_next as E. destruct (failed_run until_release) as (tr & Hr). revert E Hr. generalize (failed until_release). intros s E Hr.
  destruct (worker_next _ _ _ _ _ 0 s) as [s'|] eqn:En; [|done]. injection E as E.
  destruct (worker_next_step files metadata Example1.sch true default_config 0 s s' (so_jobs _ _ _ _ _ _ _ (sys_run_ok _ _ _ _ _ _ _ _ _ Hr)) En) as (e & He & _).
  by exists tr, e, s'.
Qed.
End ThreadsExample.

Import ThreadsExample.

Lemma multi_threaded_plan_exact_witness :
  ∃ plan ess, main_ (final WrittenExample.fs) = MReturn (Ok plan) ∧
    map_ok (planned_entries WrittenExample.fs metadata Example1.sch true default_config) manifests = Ok ess ∧
    (entry_ranges_valid (concat ess) → plan_ok (concat ess) plan).
Proof.
  destruct final_plan as (plan & Hp). destruct (scheduled WrittenExample.fs) as (tr & Hr). exists plan.
  destruct (multi_threaded_plan_exact WrittenExample.fs metadata Example1.sch true default_config 2 "s3://bucket/list.avro" manifests start
              (final WrittenExample.fs) tr plan list_path list_read started_call Hr Hp) as (ess & E & Hok).
  exists ess. exact (conj Hp (conj E Hok)).
Defined.

Lemma multi_threaded_result_reached_witness :
  (∃ bound, ∀ tr' s', sys_run WrittenExample.fs metadata Example1.sch true default_config start tr' s' →
     Forall (λ e, no_wake e = true) tr' → (length tr' ≤ bound)%nat) ∧
  ((∃ r, main_ start = MReturn r) ∨ ∃ e s', sys_step WrittenExample.fs metadata Example1.sch true default_config start e s' ∧ no_wake e = true).
Proof.
  apply (multi_threaded_result_reached WrittenExample.fs metadata Example1.sch true default_config 2 start start []).
  - discriminate.
  - exact started_call.
  - apply sys_nil.
Defined.
