(* ===== verification/MetadataValidation.v ===== *)
(** * MetadataValidation: restrictions on tables

    [tools/validation.cpp] and [tools/validation.h]: the restrictions that a table and its
    manifests have to keep, read from JSON, and class [IcebergMetadataValidator].

    Where the code indexes a vector out of its range, which C++ leaves undefined, the model
    fails with [out_of_range]. *)

From stdpp Require Import base list sorting strings gmap pretty.
From Stdlib Require Import ZArith Lia.
From S2P Require Import Prelude OrderedMap Types ScanTypes TableMetadata Json.

Local Open Scope Z_scope.

Record RestrictionsTableMetadata := {
  max_array_dimensionality : Z;
  partitioned : gset string;
  sorted : gset string;
  required_tags : list string;
  properties : list (string * option string);
  forbidden_types : list TypeID;
}.

Definition default_RestrictionsTableMetadata : RestrictionsTableMetadata :=
  {| max_array_dimensionality := int32_max; partitioned := ∅; sorted := ∅; required_tags := []; properties := []; forbidden_types := [] |}.

Record RestrictionsManifests := {
  max_equality_deletes_count : Z;
  max_position_deletes_count : Z;
  max_data_files_count : Z;
  max_delete_files_count : Z;
  max_row_groups_per_file : Z;
  max_row_group_size_percentile : Z;
  min_row_group_size_percentile : Z;
  max_row_group_size_bytes : Z;
  min_row_group_size_bytes : Z;
}.

Definition default_RestrictionsManifests : RestrictionsManifests :=
  {| max_equality_deletes_count := int32_max; max_position_deletes_count := int32_max; max_data_files_count := int32_max;
     max_delete_files_count := int32_max; max_row_groups_per_file := int32_max; max_row_group_size_percentile := 100;
     min_row_group_size_percentile := 0; max_row_group_size_bytes := int64_max; min_row_group_size_bytes := int64_min |}.

(** ** [ErrorLog] *)

Record ErrorLog := { errors_ : string; was_ : gset string }.
Definition empty_log : ErrorLog := {| errors_ := ""; was_ := ∅ |}.

Definition Add (message : string) (log : ErrorLog) : ErrorLog := {| errors_ := errors_ log +:+ message; was_ := was_ log |}.

Definition Check_ (condition : bool) (message : string) (log : ErrorLog) : bool * ErrorLog :=
  if condition then (true, log) else (false, Add message log).

Definition CheckOnce (condition : bool) (message : string) (log : ErrorLog) : bool * ErrorLog :=
  if negb condition && bool_decide (message ∉ was_ log)
  then (false, {| errors_ := errors_ log +:+ message; was_ := {[message]} ∪ was_ log |})
  else (true, log).

Definition ThrowIfWasError (log : ErrorLog) : result unit :=
  Ensure (bool_decide (errors_ log = "")) "The following restrictions have been violated".

Definition newline : string := String (Ascii.ascii_of_nat 10) "".

(** ** [ValidateTableMetadata] *)

(** The element type after [dim] steps, or earlier when it is no list. *)
Fixpoint element_type (dim : nat) (t : Type_) : Type_ :=
  match dim, t with S dim, ListType _ _ e => element_type dim e | _, _ => t end.

Definition validate_property (m : TableMetadataV2) (log : ErrorLog) (p : string * option string) : ErrorLog :=
  let '(found, log) := Check_ (bool_decide (is_Some (mfind p.1 (table_properties m)))) ("Missing required properties: " +:+ p.1 +:+ newline) log in
  match found, mfind p.1 (table_properties m), p.2 with
  | true, Some v, Some required => (Check_ (bool_decide (v = required)) ("Wrong required properties: " +:+ required +:+ newline) log).2
  | _, _, _ => log
  end.

Definition validate_column (r : RestrictionsTableMetadata) (log : ErrorLog) (column : NestedField) : result ErrorLog :=
  let cur_type := nf_type column in
  match PrimitiveTypeToName (TypeId cur_type) with
  | None => Err (Exn "bad_optional_access")
  | Some name =>
      let '(_, log) := CheckOnce (negb (bool_decide (TypeId cur_type ∈ forbidden_types r))) ("Forbidden type: " +:+ name +:+ newline) log in
      let cur_type := element_type (Z.to_nat (max_array_dimensionality r)) cur_type in
      Ok (CheckOnce (negb (IsListType cur_type))
            ("Array must contain no more than " +:+ pretty (max_array_dimensionality r) +:+ " dimensions" +:+ newline) log).2
  end.

Definition validate_tag (m : TableMetadataV2) (log : ErrorLog) (name : string) : ErrorLog :=
  (Check_ (bool_decide (is_Some (mfind name (refs m)))) ("Required tag/branch is missed: " +:+ name +:+ newline) log).2.

(** [IcebergMetadataValidator]: the restrictions that are assigned. *)
Record IcebergMetadataValidator := {
  restrictions_table_metadata_ : option RestrictionsTableMetadata;
  restrictions_manifests_ : option RestrictionsManifests;
}.

Definition SetRestrictionsTableMetadata (r : RestrictionsTableMetadata) (v : IcebergMetadataValidator) : IcebergMetadataValidator :=
  {| restrictions_table_metadata_ := Some r; restrictions_manifests_ := restrictions_manifests_ v |}.
Definition SetRestrictionsManifests (r : RestrictionsManifests) (v : IcebergMetadataValidator) : IcebergMetadataValidator :=
  {| restrictions_table_metadata_ := restrictions_table_metadata_ v; restrictions_manifests_ := Some r |}.
Definition GetRestrictionsTableMetadata (v : IcebergMetadataValidator) : result RestrictionsTableMetadata :=
  match restrictions_table_metadata_ v with Some r => Ok r | None => Err (Exn "Restrictions Table metadata are not assigned yet") end.
Definition GetRestrictionsManifests (v : IcebergMetadataValidator) : result RestrictionsManifests :=
  match restrictions_manifests_ v with Some r => Ok r | None => Err (Exn "Restrictions Manifests are not assigned yet") end.

Definition ValidateTableMetadata (v : IcebergMetadataValidator) (m : TableMetadataV2) : result unit :=
  let! r := GetRestrictionsTableMetadata v in
  let '(_, log) := Check_ (negb (bool_decide (partition_specs m = [])) || negb (bool_decide (table_uuid m ∈ partitioned r)))
                     ("No partition spec" +:+ newline) empty_log in
  let log := foldl (validate_property m) log (properties r) in
  let '(_, log) := Check_ (bool_decide (is_Some (GetSortOrder m)) || negb (bool_decide (table_uuid m ∈ sorted r)))
                     ("No sort order" +:+ newline) log in
  let! log := fold_ok (validate_column r) log (flat_map fields_ (schemas m)) in
  let log := foldl (validate_tag m) log (required_tags r) in
  ThrowIfWasError log.

(** ** [ValidateManifests] *)

Definition out_of_range : failure := Exn "index out of range".

Record counters := { equality_deletes_count : Z; position_deletes_count : Z; data_files_count : Z; delete_files_count : Z }.
Definition no_files : counters := {| equality_deletes_count := 0; position_deletes_count := 0; data_files_count := 0; delete_files_count := 0 |}.
Definition inc (v : Z) : Z := wrap_s 32 (v + 1).

Definition count_entry (c : counters) (e : ManifestEntry) : counters :=
  match content (data_file e) with
  | kEqualityDeletes =>
      {| equality_deletes_count := inc (equality_deletes_count c); position_deletes_count := position_deletes_count c;
         data_files_count := data_files_count c; delete_files_count := inc (delete_files_count c) |}
  | kPositionDeletes =>
      {| equality_deletes_count := equality_deletes_count c; position_deletes_count := inc (position_deletes_count c);
         data_files_count := data_files_count c; delete_files_count := inc (delete_files_count c) |}
  | kData =>
      {| equality_deletes_count := equality_deletes_count c; position_deletes_count := position_deletes_count c;
         data_files_count := inc (data_files_count c); delete_files_count := delete_files_count c |}
  end.

(** [offsets[i + 1] - offsets[i]] for each but the last. *)
Fixpoint differences (offsets : list Z) : list Z :=
  match offsets with
  | x :: ((y :: _) as rest) => wrap_s 64 (y - x) :: differences rest
  | _ => []
  end.

Definition row_group_sizes (f : DataFile) : result (list Z) :=
  match head (split_offsets f), last (split_offsets f) with
  | Some first, Some final => Ok (differences (split_offsets f) ++ [wrap_s 64 (ScanTypes.file_size_in_bytes f - wrap_s 64 (final - first))])
  | _, _ => Err out_of_range
  end.

(** [percentile * (num_row_groups - 1) / 100] in [size_t]. *)
Definition percentile_index (percentile : Z) (num_row_groups : nat) : Z :=
  wrap_u 64 (wrap_u 64 percentile * wrap_u 64 (Z.of_nat num_row_groups - 1)) / 100.

Definition size_at (sizes : list Z) (i : Z) : result Z :=
  match sizes !! Z.to_nat i with Some v => Ok v | None => Err out_of_range end.

Definition validate_entry (r : RestrictionsManifests) (st : counters * ErrorLog) (e : ManifestEntry) : result (counters * ErrorLog) :=
  let f := data_file e in
  let '(_, log) := CheckOnce (bool_decide (file_format f = "PARQUET")) ("Unsupported file format" +:+ newline) st.2 in
  let num_row_groups := length (split_offsets f) in
  let '(_, log) := CheckOnce (Z.of_nat num_row_groups <=? wrap_u 64 (max_row_groups_per_file r)) ("Too many row groups" +:+ newline) log in
  let! sizes := row_group_sizes f in
  let sizes := merge_sort Z.le sizes in
  let! low := size_at sizes (percentile_index (min_row_group_size_percentile r) num_row_groups) in
  let '(_, log) := CheckOnce (min_row_group_size_bytes r <=? low) ("row group size is too small" +:+ newline) log in
  let! high := size_at sizes (percentile_index (max_row_group_size_percentile r) num_row_groups) in
  let '(_, log) := CheckOnce (high <=? max_row_group_size_bytes r) ("row group size is too big" +:+ newline) log in
  Ok (count_entry st.1 e, log).

Definition too_many (what : string) (actual max : Z) (log : ErrorLog) : ErrorLog :=
  (Check_ (actual <=? max) ("Too many " +:+ what +:+ " : expected no more than " +:+ pretty max +:+ ", actual is " +:+ pretty actual +:+ newline) log).2.

Definition ValidateManifests (v : IcebergMetadataValidator) (manifests : list (list ManifestEntry)) : result unit :=
  let! r := GetRestrictionsManifests v in
  let! st := fold_ok (validate_entry r) (no_files, empty_log) (concat manifests) in
  let c := st.1 in
  let log := too_many "equality deletes" (equality_deletes_count c) (max_equality_deletes_count r) st.2 in
  let log := too_many "position deletes" (position_deletes_count c) (max_position_deletes_count r) log in
  let log := too_many "delete files" (delete_files_count c) (max_delete_files_count r) log in
  let log := too_many "data files" (data_files_count c) (max_data_files_count r) log in
  ThrowIfWasError log.

(** ** The log

    It ends empty exactly when every condition held. *)

(** Once something is logged, something stays logged. *)
Definition well (log : ErrorLog) : Prop := errors_ log = "" → was_ log = ∅.

Record step_log (c : Prop) (log log' : ErrorLog) : Prop := {
  sl_well : well log → well log';
  sl_clean : well log → errors_ log = "" → c → log' = log;
  sl_error : well log → errors_ log = "" → errors_ log' = "" → c;
  sl_keep : errors_ log ≠ "" → errors_ log' ≠ "";
}.

Lemma append_nonempty s t : t ≠ "" → s +:+ t ≠ "".
Proof. destruct s; [done|]. done. Qed.
Lemma append_nonempty_l s t : s ≠ "" → s +:+ t ≠ "".
Proof. by destruct s. Qed.

Lemma Check_log c msg log : msg ≠ "" → step_log (c = true) log (Check_ c msg log).2.
Proof.
  intros Hm. unfold Check_, Add. destruct c; cbn; [by split|]. split; cbn.
  - intros _ E. by destruct (append_nonempty (errors_ log) msg Hm).
  - done.
  - intros _ _ E. by destruct (append_nonempty (errors_ log) msg Hm).
  - intros H. by apply append_nonempty_l.
Qed.

Lemma CheckOnce_log c msg log : msg ≠ "" → step_log (c = true) log (CheckOnce c msg log).2.
Proof.
  intros Hm. unfold CheckOnce. destruct c; cbn; [by split|]. case_bool_decide as Hin; cbn; split; cbn; try done.
  - intros _ E. by destruct (append_nonempty (errors_ log) msg Hm).
  - intros _ _ E. by destruct (append_nonempty (errors_ log) msg Hm).
  - intros H. by apply append_nonempty_l.
  - intros Hw E. rewrite (Hw E) in Hin. set_solver.
Qed.

Lemma step_log_trans c1 c2 log log1 log2 : step_log c1 log log1 → step_log c2 log1 log2 → step_log (c1 ∧ c2) log log2.
Proof.
  intros [W1 C1 E1 K1] [W2 C2 E2 K2]. split.
  - auto.
  - intros Hw He [H1 H2]. assert (log1 = log) as -> by auto. auto.
  - intros Hw He He2. destruct (decide (errors_ log1 = "")) as [He1|He1]; [|by destruct (K2 He1)].
    split; [by apply E1|]. by apply E2; [apply W1|..].
  - auto.
Qed.

Lemma step_log_iff c c' log log' : (c ↔ c') → step_log c log log' → step_log c' log log'.
Proof. intros Hc [W C E K]. split; [done| | |done]; naive_solver. Qed.

Lemma step_log_foldl {A} (f : ErrorLog → A → ErrorLog) (c : A → Prop) l log :
  (∀ log x, step_log (c x) log (f log x)) → step_log (∀ x, x ∈ l → c x) log (foldl f log l).
Proof.
  intros Hf. revert log. induction l as [|x l IH]; intros log; cbn.
  - split; try done. by intros _ _ _ y ?%elem_of_nil.
  - eapply step_log_iff; [|eapply step_log_trans; [apply Hf|apply IH]]. setoid_rewrite elem_of_cons. naive_solver.
Qed.

Lemma throw_if c log : step_log c empty_log log → ThrowIfWasError log = Ok () ↔ c.
Proof.
  intros [W C E K]. unfold ThrowIfWasError, Ensure. case_bool_decide as He; split; try done; [intros _; by apply E|].
  intros Hc. by rewrite (C ltac:(done) ltac:(done) Hc) in He.
Qed.

(** ** What is accepted *)

Definition property_kept (m : TableMetadataV2) (p : string * option string) : Prop :=
  ∃ v, mfind p.1 (table_properties m) = Some v ∧ ∀ required, p.2 = Some required → v = required.

Lemma validate_property_log m log p : step_log (property_kept m p) log (validate_property m log p).
Proof.
  unfold validate_property, property_kept. destruct (mfind p.1 (table_properties m)) as [v|] eqn:E; cbn.
  - destruct p.2 as [required|]; cbn.
    + eapply step_log_iff; [|apply Check_log; done]. rewrite bool_decide_eq_true. naive_solver.
    + split; try done. naive_solver.
  - eapply (step_log_iff (false = true)); [naive_solver|]. apply (Check_log false). done.
Qed.

(** A column whose type has a name in the table of primitive types. *)
Definition named_type (t : Type_) : Prop := is_Some (PrimitiveTypeToName (TypeId t)).

Lemma named_not_list t n : named_type t → IsListType (element_type n t) = false.
Proof. intros [s Hs]. destruct t; try done; by destruct n. Qed.

Lemma validate_columns r log columns :
  (∀ c, c ∈ columns → named_type (nf_type c)) →
  ∃ log', fold_ok (validate_column r) log columns = Ok log' ∧
    step_log (∀ c, c ∈ columns → TypeId (nf_type c) ∉ forbidden_types r) log log'.
Proof.
  revert log. induction columns as [|c columns IH]; intros log Hn; cbn.
  { exists log. split; [done|]. split; try done. by intros _ _ _ x ?%elem_of_nil. }
  pose proof (Hn c ltac:(by left)) as Hc. unfold validate_column at 1. rewrite (named_not_list _ _ Hc). destruct Hc as [name ->].
  destruct (CheckOnce _ _ log) as [b log1] eqn:E1. cbn.
  assert (step_log (TypeId (nf_type c) ∉ forbidden_types r) log log1) as H1.
  { replace log1 with (CheckOnce (negb (bool_decide (TypeId (nf_type c) ∈ forbidden_types r))) ("Forbidden type: " +:+ name +:+ newline) log).2 by by rewrite E1.
    eapply step_log_iff; [|by apply CheckOnce_log]. case_bool_decide; cbn; naive_solver. }
  destruct (IH log1) as (log' & El & Hl); [intros x Hx; apply Hn; by right|]. exists log'. split; [done|].
  eapply step_log_iff; [|by eapply step_log_trans]. setoid_rewrite elem_of_cons. naive_solver.
Qed.

Lemma unnamed_column r log columns c : c ∈ columns → ¬ named_type (nf_type c) → is_ok (fold_ok (validate_column r) log columns) = false.
Proof.
  revert log. induction columns as [|x columns IH]; intros log [->|Hin]%elem_of_cons Hn || (intros log Hin; by apply elem_of_nil in Hin); cbn.
  - unfold validate_column at 1. unfold named_type in Hn. destruct (PrimitiveTypeToName (TypeId (nf_type x))); [|done]. by destruct Hn.
  - destruct (validate_column r log x); cbn; [|done]. by apply IH.
Qed.

(** What [ValidateTableMetadata] accepts. *)
Record table_kept (r : RestrictionsTableMetadata) (m : TableMetadataV2) : Prop := {
  tb_partitioned : table_uuid m ∈ partitioned r → partition_specs m ≠ [];
  tb_properties : ∀ p, p ∈ properties r → property_kept m p;
  tb_sorted : table_uuid m ∈ sorted r → is_Some (GetSortOrder m);
  tb_named : ∀ c, c ∈ flat_map fields_ (schemas m) → named_type (nf_type c);
  tb_allowed : ∀ c, c ∈ flat_map fields_ (schemas m) → TypeId (nf_type c) ∉ forbidden_types r;
  tb_tags : ∀ tag, tag ∈ required_tags r → is_Some (mfind tag (refs m));
}.

(** The validator accepts the metadata of a table exactly when the restrictions hold
    and the type of every column has a name in the table of primitive types; a column of
    another type, such as a list or a decimal, makes it throw, so that the limit on the
    dimensions of arrays is never reached. *)
Theorem table_validated_exact v r m :
  restrictions_table_metadata_ v = Some r → ValidateTableMetadata v m = Ok () ↔ table_kept r m.
Proof.
  intros Hv. unfold ValidateTableMetadata, GetRestrictionsTableMetadata. rewrite Hv. cbn [rbind].
  destruct (Check_ _ ("No partition spec" +:+ newline) empty_log) as [b1 log1] eqn:E1.
  destruct (Check_ _ ("No sort order" +:+ newline) _) as [b2 log2] eqn:E2.
  destruct (decide (Forall (λ c, is_Some (PrimitiveTypeToName (TypeId (nf_type c)))) (flat_map fields_ (schemas m)))) as [Hn|Hn].
  2:{ split; [|intros Hk; destruct Hn; apply Forall_forall; apply (tb_named _ _ Hk)].
      apply not_Forall_Exists in Hn; [|apply _]. apply Exists_exists in Hn as (c & Hc & Hn).
      pose proof (unnamed_column r log2 _ c Hc Hn) as Hu. destruct (fold_ok _ log2 _); done. }
  rewrite Forall_forall in Hn. destruct (validate_columns r log2 (flat_map fields_ (schemas m)) Hn) as (log3 & -> & H3). cbn [rbind].
  assert (step_log (table_uuid m ∈ partitioned r → partition_specs m ≠ []) empty_log log1) as H1.
  { replace log1 with (Check_ (negb (bool_decide (partition_specs m = [])) || negb (bool_decide (table_uuid m ∈ partitioned r)))
      ("No partition spec" +:+ newline) empty_log).2 by by rewrite E1.
    eapply step_log_iff; [|by apply Check_log]. rewrite orb_true_iff, !negb_true_iff, !bool_decide_eq_false. destruct (decide (table_uuid m ∈ partitioned r)); tauto. }
  assert (step_log (table_uuid m ∈ sorted r → is_Some (GetSortOrder m)) (foldl (validate_property m) log1 (properties r)) log2) as H2.
  { replace log2 with (Check_ (bool_decide (is_Some (GetSortOrder m)) || negb (bool_decide (table_uuid m ∈ sorted r)))
      ("No sort order" +:+ newline) (foldl (validate_property m) log1 (properties r))).2 by by rewrite E2.
    eapply step_log_iff; [|by apply Check_log]. rewrite orb_true_iff, negb_true_iff, bool_decide_eq_true, bool_decide_eq_false.
    destruct (decide (table_uuid m ∈ sorted r)); tauto. }
  assert (∀ log tag, step_log (is_Some (mfind tag (refs m))) log (validate_tag m log tag)) as Htag.
  { intros log tag. eapply step_log_iff; [|by apply Check_log]. apply bool_decide_eq_true. }
  erewrite throw_if; [|eapply step_log_trans; [exact H1|eapply step_log_trans; [by eapply step_log_foldl, validate_property_log|
    eapply step_log_trans; [exact H2|eapply step_log_trans; [exact H3|exact (step_log_foldl _ _ _ _ Htag)]]]]].
  split; [intros (K1 & K2 & K3 & K4 & K5); exact (Build_table_kept r m K1 K2 K3 Hn K4 K5)|]. intros [K1 K2 K3 _ K5 K6]. exact (conj K1 (conj K2 (conj K3 (conj K5 K6)))).
Qed.

(** ** Percentiles *)

(** In a sorted list, the element of index [k] is at least [v] exactly when at most [k]
    elements are below [v]. *)
Lemma sorted_at_least l k x v :
  StronglySorted Z.le l → l !! k = Some x → v ≤ x ↔ (count (λ y, Z.ltb y v) l ≤ k)%nat.
Proof.
  intros Hs. revert k. induction Hs as [|y l _ IH Hy]; intros k Hk; [done|]. rewrite count_cons. destruct k as [|k]; cbn in Hk.
  - injection Hk as ->. destruct (Z.ltb_spec x v); [lia|]. split; [|lia]. intros _. rewrite (count_zero _ l); [lia|].
    intros z Hz. rewrite Forall_forall in Hy. specialize (Hy z Hz). apply Z.ltb_ge. lia.
  - rewrite (IH k Hk). destruct (Z.ltb_spec y v); [lia|]. split; [lia|]. intros _.
    rewrite (count_zero _ l); [lia|]. intros z Hz. rewrite Forall_forall in Hy. specialize (Hy z Hz). apply Z.ltb_ge. lia.
Qed.

(** It is at most [v] exactly when more than [k] elements are. *)
Lemma sorted_at_most l k x v :
  StronglySorted Z.le l → l !! k = Some x → x ≤ v ↔ (k < count (λ y, Z.leb y v) l)%nat.
Proof.
  intros Hs Hk. pose proof (sorted_at_least l k x (v + 1) Hs Hk) as H1.
  assert (count (λ y, y <? v + 1) l = count (λ y, y <=? v) l) as E.
  { unfold count. f_equal. apply filter_ext. intros y. destruct (Z.ltb_spec y (v + 1)), (Z.leb_spec y v); lia. }
  rewrite E in H1. lia.
Qed.

(** ** Manifests *)

Definition has_content (c : FileContent) (e : ManifestEntry) : bool := bool_decide (content (data_file e) = c).

(** The bytes of row group [i]: to the offset of the next one; of the last, what the
    others leave of the size of the file. *)
Definition group_size (f : DataFile) (i : nat) : Z :=
  let offset j := default 0 (split_offsets f !! j) in
  if bool_decide (S i = length (split_offsets f)) then ScanTypes.file_size_in_bytes f - (offset i - offset 0%nat)
  else offset (S i) - offset i.

(** What is required of one entry.  The size at a percentile is large enough when no more
    row groups than the percentile's rank are smaller, and small enough when more row
    groups than the rank do not exceed the limit. *)
Definition entry_kept (r : RestrictionsManifests) (e : ManifestEntry) : Prop :=
  let f := data_file e in let n := Z.of_nat (length (split_offsets f)) in
  file_format f = "PARQUET" ∧ n ≤ max_row_groups_per_file r ∧
  let sizes := group_size f <$> seq 0 (length (split_offsets f)) in
  Z.of_nat (count (λ s, s <? min_row_group_size_bytes r) sizes) ≤ min_row_group_size_percentile r * (n - 1) / 100 ∧
  max_row_group_size_percentile r * (n - 1) / 100 < Z.of_nat (count (λ s, s <=? max_row_group_size_bytes r) sizes).

Record manifests_kept (r : RestrictionsManifests) (es : list ManifestEntry) : Prop := {
  mk_entries : ∀ e, e ∈ es → entry_kept r e;
  mk_equality : Z.of_nat (count (has_content kEqualityDeletes) es) ≤ max_equality_deletes_count r;
  mk_position : Z.of_nat (count (has_content kPositionDeletes) es) ≤ max_position_deletes_count r;
  mk_deletes : Z.of_nat (count (has_content kEqualityDeletes) es + count (has_content kPositionDeletes) es) ≤ max_delete_files_count r;
  mk_data : Z.of_nat (count (has_content kData) es) ≤ max_data_files_count r;
}.

Record restrictions_ok (r : RestrictionsManifests) : Prop := {
  ro_min : 0 ≤ min_row_group_size_percentile r ≤ 100;
  ro_max : 0 ≤ max_row_group_size_percentile r ≤ 100;
  ro_groups : 0 ≤ max_row_groups_per_file r ≤ int32_max;
}.

(** Files with at least one row group, and fewer than [2^31], with ascending offsets
    and a size that are not negative. *)
Record groups_ok (e : ManifestEntry) : Prop := {
  go_count : 0 < Z.of_nat (length (split_offsets (data_file e))) ≤ int32_max;
  go_offsets : Forall (λ o, 0 ≤ o ≤ int64_max) (split_offsets (data_file e));
  go_ascending : StronglySorted Z.le (split_offsets (data_file e));
  go_size : 0 ≤ ScanTypes.file_size_in_bytes (data_file e) ≤ int64_max;
}.

Lemma differences_spec l : Forall (λ o, 0 ≤ o ≤ int64_max) l →
  differences l = (λ i, default 0 (l !! S i) - default 0 (l !! i)) <$> seq 0 (pred (length l)).
Proof.
  induction l as [|x [|y l] IH]; intros Hl; [done|done|]. apply Forall_cons in Hl as [Hx Hl].
  pose proof Hl as [Hy _]%Forall_cons. change (differences (x :: y :: l)) with (wrap_s 64 (y - x) :: differences (y :: l)).
  rewrite (IH Hl). cbn [length pred seq fmap list_fmap].
  rewrite wrap_s_64_id by (unfold_ints; lia). f_equal. rewrite <- fmap_S_seq, <- list_fmap_compose. done.
Qed.

Lemma row_group_sizes_spec e : groups_ok e →
  row_group_sizes (data_file e) = Ok (group_size (data_file e) <$> seq 0 (length (split_offsets (data_file e)))).
Proof.
  intros [Hn Ho Ha Hs]. unfold row_group_sizes. rewrite differences_spec by done.
  destruct (split_offsets (data_file e)) as [|x l] eqn:El; [cbn in Hn; lia|].
  assert (∃ z, last (x :: l) = Some z) as [z Ez] by (destruct (last (x :: l)) eqn:E; [by eexists|by apply last_None in E]).
  rewrite Ez. cbn [head]. f_equal. rewrite last_lookup in Ez. cbn [length pred] in *.
  rewrite seq_S, fmap_app. cbn [fmap list_fmap]. f_equal.
  - apply list_fmap_ext. intros j i Hi. apply lookup_seq in Hi as [-> Hi]. unfold group_size. rewrite El.
    rewrite bool_decide_false; [done|cbn; lia].
  - unfold group_size. rewrite El. rewrite bool_decide_true by done. rewrite Nat.add_0_l, Ez. cbn [default lookup list_lookup].
    pose proof (Forall_lookup_1 _ _ _ _ Ho Ez) as Hz. apply Forall_cons in Ho as [Hx _]. cbn beta in Hz.
    assert (x ≤ z) as Hxz.
    { apply SSorted_cons in Ha as [Ha _]. apply list_elem_of_lookup_2, elem_of_cons in Ez as [->|Ez]; [done|by apply Ha]. }
    rewrite (wrap_s_64_id (z - x)) by (unfold_ints; lia). f_equal. unfold id. apply wrap_s_64_id. unfold_ints. lia.
Qed.

Lemma percentile_index_ok p n : 0 ≤ p ≤ 100 → 0 < Z.of_nat n ≤ int32_max →
  percentile_index p n = p * (Z.of_nat n - 1) / 100 ∧ 0 ≤ p * (Z.of_nat n - 1) / 100 < Z.of_nat n.
Proof.
  intros Hp Hn. unfold percentile_index, wrap_u. unfold_ints. change (2 ^ 64) with 18446744073709551616.
  set (k := Z.of_nat n - 1). assert (0 ≤ k < 2147483647) as Hk by lia. assert (0 ≤ p * k ≤ 100 * k) as Hpk by nia.
  rewrite (Z.mod_small p), (Z.mod_small k) by lia. rewrite (Z.mod_small (p * k)) by lia.
  split; [done|]. split; [apply Z.div_pos; lia|]. apply Z.div_lt_upper_bound; lia.
Qed.

Lemma validate_entry_log r c log e :
  restrictions_ok r → groups_ok e →
  ∃ log', validate_entry r (c, log) e = Ok (count_entry c e, log') ∧ step_log (entry_kept r e) log log'.
Proof.
  intros [Hmin Hmax Hgr] Hgo. pose proof (row_group_sizes_spec e Hgo) as Es. pose proof (go_count _ Hgo) as Hg.
  unfold validate_entry, entry_kept. cbn [fst snd].
  set (sizes := group_size (data_file e) <$> seq 0 (length (split_offsets (data_file e)))) in *.
  assert (length sizes = length (split_offsets (data_file e))) as Hl by (unfold sizes; by rewrite length_fmap, length_seq).
  clearbody sizes. destruct (percentile_index_ok _ _ Hmin Hg) as [Ei1 Hi1], (percentile_index_ok _ _ Hmax Hg) as [Ei2 Hi2].
  rewrite Es. cbn [rbind]. rewrite Ei1, Ei2. clear Ei1 Ei2.
  assert (wrap_u 64 (max_row_groups_per_file r) = max_row_groups_per_file r) as -> by (apply Z.mod_small; unfold_ints; lia).
  assert (StronglySorted Z.le (merge_sort Z.le sizes)) as Hs by (apply StronglySorted_merge_sort; apply _).
  pose proof (merge_sort_Permutation Z.le sizes) as Hp. pose proof (Permutation_length Hp) as Hlen. rewrite Hl in Hlen.
  set (sorted := merge_sort Z.le sizes) in *. unfold size_at.
  destruct (lookup_lt_is_Some_2 sorted (Z.to_nat (min_row_group_size_percentile r * (Z.of_nat (length (split_offsets (data_file e))) - 1) / 100))) as [low Elow]; [lia|].
  destruct (lookup_lt_is_Some_2 sorted (Z.to_nat (max_row_group_size_percentile r * (Z.of_nat (length (split_offsets (data_file e))) - 1) / 100))) as [high Ehigh]; [lia|].
  pose proof (sorted_at_least _ _ _ (min_row_group_size_bytes r) Hs Elow) as Rlow. pose proof (sorted_at_most _ _ _ (max_row_group_size_bytes r) Hs Ehigh) as Rhigh.
  rewrite (count_perm _ _ _ Hp) in Rlow. rewrite (count_perm _ _ _ Hp) in Rhigh.
  destruct (CheckOnce _ ("Unsupported file format" +:+ newline) log) as [b1 log1] eqn:E1.
  destruct (CheckOnce _ ("Too many row groups" +:+ newline) log1) as [b2 log2] eqn:E2.
  rewrite Elow. cbn [rbind]. destruct (CheckOnce _ ("row group size is too small" +:+ newline) log2) as [b3 log3] eqn:E3.
  rewrite Ehigh. cbn [rbind]. destruct (CheckOnce _ ("row group size is too big" +:+ newline) log3) as [b4 log4] eqn:E4.
  exists log4. split; [done|].
  assert (∀ c msg log b log', CheckOnce c msg log = (b, log') → msg ≠ "" → step_log (c = true) log log') as Hstep.
  { intros c0 msg log0 b log' E Hm. replace log' with (CheckOnce c0 msg log0).2 by by rewrite E. by apply CheckOnce_log. }
  apply Hstep in E1, E2, E3, E4; try done.
  eapply step_log_iff; [|eapply step_log_trans; [exact E1|eapply step_log_trans; [exact E2|eapply step_log_trans; [exact E3|exact E4]]]].
  rewrite bool_decide_eq_true, !Z.leb_le, Rlow, Rhigh. intuition lia.
Qed.

Lemma validate_entries_log r c log es :
  restrictions_ok r → (∀ e, e ∈ es → groups_ok e) →
  ∃ log', fold_ok (validate_entry r) (c, log) es = Ok (foldl count_entry c es, log') ∧ step_log (∀ e, e ∈ es → entry_kept r e) log log'.
Proof.
  intros Hr. revert c log. induction es as [|e es IH]; intros c log Hg; cbn.
  { exists log. split; [done|]. split; try done. by intros _ _ _ x ?%elem_of_nil. }
  destruct (validate_entry_log r c log e Hr (Hg e ltac:(by left))) as (log1 & -> & H1). cbn [rbind].
  destruct (IH (count_entry c e) log1) as (log' & -> & H2); [intros x Hx; apply Hg; by right|]. exists log'. split; [done|].
  eapply step_log_iff; [|by eapply step_log_trans]. setoid_rewrite elem_of_cons. naive_solver.
Qed.

Lemma inc_small v : 0 ≤ v < int32_max → inc v = v + 1.
Proof. intros Hv. unfold inc. apply wrap_s_32_id. unfold_ints. lia. Qed.

(** Counters that [n] more entries do not overflow. *)
Definition room (n : nat) (c : counters) : Prop :=
  Forall (λ v, 0 ≤ v ∧ v + Z.of_nat n ≤ int32_max) [equality_deletes_count c; position_deletes_count c; data_files_count c; delete_files_count c].

Lemma counted c es :
  room (length es) c →
  foldl count_entry c es =
  {| equality_deletes_count := equality_deletes_count c + Z.of_nat (count (has_content kEqualityDeletes) es);
     position_deletes_count := position_deletes_count c + Z.of_nat (count (has_content kPositionDeletes) es);
     data_files_count := data_files_count c + Z.of_nat (count (has_content kData) es);
     delete_files_count := delete_files_count c + Z.of_nat (count (has_content kEqualityDeletes) es + count (has_content kPositionDeletes) es) |}.
Proof.
  revert c. induction es as [|e es IH]; intros c Hr; unfold room in *; rewrite !Forall_cons in *; cbn [length] in *.
  - destruct c. cbn. by rewrite !Z.add_0_r.
  - destruct Hr as (H1 & H2 & H3 & H4 & _). cbn [foldl]. rewrite IH.
    2:{ rewrite !Forall_cons. unfold count_entry. destruct (content (data_file e)); cbn; rewrite ?inc_small by lia; repeat split; try lia; constructor. }
    rewrite !count_cons. assert (∀ c, has_content c e = bool_decide (content (data_file e) = c)) as Hc by done. rewrite !Hc. unfold count_entry.
    destruct (content (data_file e)); cbn [equality_deletes_count position_deletes_count data_files_count delete_files_count]; rewrite ?inc_small by lia;
      repeat first [rewrite bool_decide_eq_true_2 by done|rewrite bool_decide_eq_false_2 by done]; cbv iota; f_equal; lia.
Qed.

Lemma too_many_log what actual max log : step_log (actual ≤ max) log (too_many what actual max log).
Proof. unfold too_many. eapply step_log_iff; [|by apply Check_log]. apply Z.leb_le. Qed.

(** C40: what the validator accepts of manifests, for percentiles between 0 and 100, a
    limit of row groups that is not negative, at most [2^31 - 1] entries, and files that
    have ascending split offsets, with neither these nor the size of the file negative: exactly
    the manifests in which every file is Parquet, has no more row groups than allowed and
    has the sizes of its row groups at the two percentiles within the limits, and in which
    the numbers of equality deletes, position deletes, delete files and data files are
    within theirs.  The size of a row group is the distance to the next split offset, and
    of the last one what the others leave of the size of the file. *)
Theorem manifests_validated_exact v r manifests :
  restrictions_manifests_ v = Some r → restrictions_ok r → Forall groups_ok (concat manifests) →
  Z.of_nat (length (concat manifests)) ≤ int32_max →
  ValidateManifests v manifests = Ok () ↔ manifests_kept r (concat manifests).
Proof.
  intros Hv Hr Hg Hn. unfold ValidateManifests, GetRestrictionsManifests. rewrite Hv. cbn [rbind]. rewrite Forall_forall in Hg.
  destruct (validate_entries_log r no_files empty_log (concat manifests) Hr Hg) as (log & -> & Hl). cbn [rbind fst snd].
  rewrite counted by (unfold room; rewrite !Forall_cons; cbn; repeat split; try lia; constructor).
  cbn [equality_deletes_count position_deletes_count data_files_count delete_files_count no_files]. rewrite !Z.add_0_l.
  erewrite throw_if; [|eapply step_log_trans; [exact Hl|eapply step_log_trans; [apply too_many_log|eapply step_log_trans; [apply too_many_log|
    eapply step_log_trans; [apply too_many_log|apply too_many_log]]]]].
  split; [intros (K1 & K2 & K3 & K4 & K5); by split|]. intros [K1 K2 K3 K4 K5]. exact (conj K1 (conj K2 (conj K3 (conj K4 K5)))).
Qed.

(** ** Reading restrictions *)

Section reading.
Context `{RapidJson}.

(** [GetIntArg], [GetInt64Arg]: [keep] is the value that is left when there is no such member. *)
Definition GetArg (get : json → option Z) (members : list (string * json)) (keep : Z) (log : ErrorLog) (name : string) : result (Z * ErrorLog) :=
  match find_member name members with
  | Some d => match get d with Some v => Ok (v, log) | None => Err (Exn ("Wrong argument type: " +:+ name)) end
  | None => Ok (keep, Add ("Argument is missed: " +:+ name +:+ newline) log)
  end.
Definition GetIntArg := GetArg as_int32.
Definition GetInt64Arg := GetArg as_int64.

(** The loops over an array of strings. *)
Definition string_elements {A} (convert : string → result A) (name : string) (d : json) : result (list A) :=
  match d with
  | JArray l => map_ok (λ e, match e with JString s => convert (c_str s) | _ => Err (Exn ("Wrong argument type: " +:+ name)) end) l
  | _ => Err (Exn ("Wrong argument type: " +:+ name))
  end.

Definition string_arg (members : list (string * json)) (log : ErrorLog) (name missed : string) : result (list string * ErrorLog) :=
  match find_member name members with
  | Some d => let! l := string_elements Ok name d in Ok (l, log)
  | None => Ok ([], Add (missed +:+ newline) log)
  end.

Definition property_elements (d : json) : result (list (string * option string)) :=
  match d with
  | JObject members =>
      map_ok (λ m, match m.2 with
                   | JString s => Ok (c_str m.1, if bool_decide (s = "") then None else Some (c_str s))
                   | _ => Err (Exn "Wrong argument type: properties")
                   end) members
  | _ => Err (Exn "Wrong argument type: properties")
  end.

Definition forbidden_type (name : string) : result TypeID :=
  match NameToPrimitiveType name with Some t => Ok t | None => Err (Exn ("In forbidden_types: Unknown type: " +:+ name)) end.

Definition Read_RestrictionsTableMetadata (text : string) (expect_all_params : bool) : result RestrictionsTableMetadata :=
  match Parse text with
  | JObject members =>
      let d := default_RestrictionsTableMetadata in
      let! ' (dim, log) := GetIntArg members (max_array_dimensionality d) empty_log "max_array_dimensionality" in
      let! ' (part, log) := string_arg members log "partitioned" "Argument is missed: partitioned" in
      let! ' (sort, log) := string_arg members log "sorted" "Argument sorted is missed" in
      let! ' (tags, log) := string_arg members log "required_tags" "Argument is missed: required_tags" in
      let! ' (props, log) :=
        match find_member "properties" members with
        | Some d => let! l := property_elements d in Ok (l, log)
        | None => Ok ([], Add ("Argument is missed: properties" +:+ newline) log)
        end in
      let! ' (forbidden, log) :=
        match find_member "forbidden_types" members with
        | Some d => let! l := string_elements forbidden_type "forbidden_types" d in Ok (l, log)
        | None => Ok ([], Add ("Argument is missed: forbidden_types" +:+ newline) log)
        end in
      let! _ := if expect_all_params then ThrowIfWasError log else Ok () in
      Ok {| max_array_dimensionality := dim; partitioned := list_to_set part; sorted := list_to_set sort; required_tags := tags;
            properties := props; forbidden_types := forbidden |}
  | _ => Err (Exn "Invalid JSON")
  end.

Definition Read_RestrictionsManifests (text : string) (expect_all_params : bool) : result RestrictionsManifests :=
  match Parse text with
  | JObject members =>
      let d := default_RestrictionsManifests in
      let! ' (a1, log) := GetIntArg members (max_equality_deletes_count d) empty_log "max_equality_deletes_count" in
      let! ' (a2, log) := GetIntArg members (max_position_deletes_count d) log "max_position_deletes_count" in
      let! ' (a3, log) := GetIntArg members (max_data_files_count d) log "max_data_files_count" in
      let! ' (a4, log) := GetIntArg members (max_delete_files_count d) log "max_delete_files_count" in
      let! ' (a5, log) := GetIntArg members (max_row_groups_per_file d) log "max_row_groups_per_file" in
      let! ' (a6, log) := GetIntArg members (max_row_group_size_percentile d) log "max_row_group_size_percentile" in
      let! ' (a7, log) := GetIntArg members (min_row_group_size_percentile d) log "min_row_group_size_percentile" in
      let! ' (a8, log) := GetInt64Arg members (max_row_group_size_bytes d) log "max_row_group_size_bytes" in
      let! ' (a9, log) := GetInt64Arg members (min_row_group_size_bytes d) log "min_row_group_size_bytes" in
      let! _ := if expect_all_params then ThrowIfWasError log else Ok () in
      Ok {| max_equality_deletes_count := a1; max_position_deletes_count := a2; max_data_files_count := a3; max_delete_files_count := a4;
            max_row_groups_per_file := a5; max_row_group_size_percentile := a6; min_row_group_size_percentile := a7;
            max_row_group_size_bytes := a8; min_row_group_size_bytes := a9 |}
  | _ => Err (Exn "Invalid JSON")
  end.

Lemma GetArg_log get members keep log name v log' :
  GetArg get members keep log name = Ok (v, log') →
  step_log (is_Some (find_member name members)) log log' ∧ v = default keep (find_member name members ≫= get).
Proof.
  unfold GetArg. destruct (find_member name members) as [d|]; cbn.
  - destruct (get d) as [x|]; [|done]. intros [= <- <-]. split; [|done]. split; try done.
  - intros [= <- <-]. split; [|done]. apply (step_log_iff (false = true)); [split; [done|intros [? [=]]]|]. by apply (Check_log false).
Qed.

(** Restrictions that are read with all parameters expected have all of them. *)
Definition manifest_parameters : list string :=
  ["max_equality_deletes_count"; "max_position_deletes_count"; "max_data_files_count"; "max_delete_files_count"; "max_row_groups_per_file";
   "max_row_group_size_percentile"; "min_row_group_size_percentile"; "max_row_group_size_bytes"; "min_row_group_size_bytes"].

Lemma missing_parameter_refused text members r :
  Parse text = JObject members → Read_RestrictionsManifests text true = Ok r →
  Forall (λ name, is_Some (find_member name members)) manifest_parameters.
Proof.
  intros Hp. unfold Read_RestrictionsManifests. rewrite Hp. unfold GetIntArg, GetInt64Arg. intros Hr.
  repeat match goal with
  | Hx : rbind (GetArg ?g ?m ?k ?l ?n) _ = Ok _ |- _ =>
      let v := fresh "v" in let lg := fresh "lg" in let E := fresh "E" in
      apply rbind_Ok_inv in Hx as ([v lg] & E & Hx); apply GetArg_log in E as [E _]
  end.
  apply rbind_Ok_inv in Hr as (u & Ht & _). unfold ThrowIfWasError in Ht. apply Ensure_Ok_inv, bool_decide_eq_true in Ht.
  pose proof (step_log_trans _ _ _ _ _ E (step_log_trans _ _ _ _ _ E0 (step_log_trans _ _ _ _ _ E1 (step_log_trans _ _ _ _ _ E2
    (step_log_trans _ _ _ _ _ E3 (step_log_trans _ _ _ _ _ E4 (step_log_trans _ _ _ _ _ E5 (step_log_trans _ _ _ _ _ E6 E7)))))))) as Hall.
  destruct (sl_error _ _ _ Hall ltac:(done) eq_refl Ht) as (? & ? & ? & ? & ? & ? & ? & ? & ?). by repeat constructor.
Qed.
End reading.

(** ** Examples *)
Module ValidationExample.

Definition column (name : string) (t : Type_) : NestedField :=
  {| nf_name := name; nf_field_id := 1; nf_is_required := false; nf_type := t; nf_initial_default := None; nf_write_default := None |}.
Definition with_columns (columns : list NestedField) : TableMetadataV2 :=
  {| table_uuid := "u"; location := "l"; last_sequence_number := 0; last_updated_ms := 0; last_column_id := 1;
     schemas := [{| schema_id_ := 0; fields_ := columns |}]; current_schema_id := 0; partition_specs := []; default_spec_id := 0;
     last_partition_id := 0; table_properties := []; current_snapshot_id := None; snapshots := []; snapshot_log := []; metadata_log := [];
     sort_orders := []; default_sort_order_id := 0; refs := []; statistics := [] |}.

Definition validator : IcebergMetadataValidator :=
  {| restrictions_table_metadata_ := Some default_RestrictionsTableMetadata; restrictions_manifests_ := Some default_RestrictionsManifests |}.

(** Without any restriction, a table with a decimal column is refused. *)
Lemma decimal_column_refused : ValidateTableMetadata validator (with_columns [column "price" (DecimalType 9 2)]) = Err (Exn "bad_optional_access").
Proof. reflexivity. Qed.

Definition data_entry (offsets : list Z) : ManifestEntry :=
  {| status := kAdded; entry_snapshot_id := None; sequence_number := None; file_sequence_number := None;
     data_file := {| content := kData; file_path := "f"; file_format := "PARQUET"; partition_tuple := []; record_count := 0;
       ScanTypes.file_size_in_bytes := 1000; column_sizes := ∅; value_counts := ∅; null_value_counts := ∅; nan_value_counts := ∅;
       distinct_counts := ∅; lower_bounds := ∅; upper_bounds := ∅; ScanTypes.key_metadata := []; split_offsets := offsets; equality_ids := [];
       sort_order_id := None; referenced_data_file := None; content_offset := None; content_size_in_bytes := None |} |}.

(** A file without split offsets, as a delete file or an empty file has, is indexed out of range. *)
Lemma no_offsets_undefined : ValidateManifests validator [[data_entry []]] = Err out_of_range.
Proof. reflexivity. Qed.

Definition sizes_limited : RestrictionsManifests :=
  {| max_equality_deletes_count := 0; max_position_deletes_count := 0; max_data_files_count := 1; max_delete_files_count := 0;
     max_row_groups_per_file := 3; max_row_group_size_percentile := 50; min_row_group_size_percentile := 50;
     max_row_group_size_bytes := 400; min_row_group_size_bytes := 300 |}.
End ValidationExample.

Import ValidationExample.

Lemma table_validated_exact_witness :
  ValidateTableMetadata validator (with_columns [column "id" (PrimitiveType kLong)]) = Ok () ∧
  table_kept default_RestrictionsTableMetadata (with_columns [column "id" (PrimitiveType kLong)]).
Proof.
  assert (ValidateTableMetadata validator (with_columns [column "id" (PrimitiveType kLong)]) = Ok ()) as E by reflexivity.
  split; [exact E|].
  apply (table_validated_exact validator default_RestrictionsTableMetadata (with_columns [column "id" (PrimitiveType kLong)])); [reflexivity|exact E].
Defined.

Lemma manifests_validated_exact_witness :
  let v := {| restrictions_table_metadata_ := None; restrictions_manifests_ := Some sizes_limited |} in
  ValidateManifests v [[data_entry [4; 104; 404]]] = Ok () ∧ manifests_kept sizes_limited [data_entry [4; 104; 404]].
Proof.
  intros v. assert (ValidateManifests v [[data_entry [4; 104; 404]]] = Ok ()) as E by reflexivity. split; [exact E|].
  apply (manifests_validated_exact v sizes_limited [[data_entry [4; 104; 404]]]).
  - reflexivity.
  - split; vm_compute; split; discriminate.
  - apply Forall_singleton. split; [vm_compute; split; [reflexivity|discriminate]| |repeat constructor; lia|vm_compute; split; discriminate].
    repeat (apply Forall_cons; split); try apply Forall_nil; vm_compute; split; discriminate.
  - vm_compute. discriminate.
  - exact E.
Defined.
