(* ===== verification/MetadataTree.v ===== *)
(** * MetadataTree: the metadata files of a table as a tree

    [tools/metadata_tree.cpp]: class [MetadataTree] loads the manifest lists and manifests
    of the snapshots of a metadata file, keeps one snapshot of it, or moves the table to
    another location.

    The files are those of one directory, by name.  A manifest list or manifest is found by
    the last part of its path, which is the name of a file and not empty. *)

From stdpp Require Import base list strings gmap.
From Stdlib Require Import ZArith Lia.
From S2P Require Import Prelude OrderedMap Types SchemaValidation ScanTypes PartitionSpecs TableMetadata Json Literals MetadataJson.
From S2P Require Import Streams Avro ManifestAvro ManifestList FileWriting.

(** ** Replacing in strings *)

Record StringFix := { from : string; to : string }.
Definition NeedFix (fix_ : StringFix) : bool := negb (String.eqb (from fix_) (to fix_)).

(** The first occurrence is replaced, wherever it is. *)
Definition ReplacePattern (str from to : string) : option string :=
  match String.index 0 from str with
  | None => None
  | Some pos =>
      Some (String.substring 0 pos str +:+ to +:+
            String.substring (pos + String.length from) (String.length str - (pos + String.length from)) str)
  end.

Abbreviation renames := (gmap string string).

(** The new string, and the renamed ones. *)
Definition FixString (str : string) (fix_ : StringFix) (rs : renames) : string * renames :=
  match ReplacePattern str (from fix_) (to fix_) with
  | Some s => (s, <[str := s]> rs)
  | None => (str, rs)
  end.

(** A loop that fixes one string of each element. *)
Definition fix_all {A} (get : A → string) (set_ : string → A → A) (fix_ : StringFix) (l : list A) (rs : renames) : list A * renames :=
  foldl (λ '(l, rs) x, let '(s, rs) := FixString (get x) fix_ rs in (l ++ [set_ s x], rs)) ([], rs) l.

(** ** [RemoveOtherSnapshots] *)

Definition set_snapshot (id : Z) (snaps : list Snapshot) (schema_id : Z) (m : TableMetadataV2) : TableMetadataV2 :=
  {| table_uuid := table_uuid m; location := location m; last_sequence_number := last_sequence_number m;
     last_updated_ms := last_updated_ms m; last_column_id := last_column_id m; schemas := schemas m;
     current_schema_id := schema_id; partition_specs := partition_specs m; default_spec_id := default_spec_id m;
     last_partition_id := last_partition_id m; table_properties := table_properties m; current_snapshot_id := Some id;
     snapshots := snaps; snapshot_log := snapshot_log m; metadata_log := metadata_log m; sort_orders := sort_orders m;
     default_sort_order_id := default_sort_order_id m; refs := refs m; statistics := statistics m |}.

Definition set_history (ss : list Schema) (log : list SnapshotLog) (rs : list (string * SnapshotRef)) (m : TableMetadataV2) : TableMetadataV2 :=
  {| table_uuid := table_uuid m; location := location m; last_sequence_number := last_sequence_number m;
     last_updated_ms := last_updated_ms m; last_column_id := last_column_id m; schemas := ss;
     current_schema_id := current_schema_id m; partition_specs := partition_specs m; default_spec_id := default_spec_id m;
     last_partition_id := last_partition_id m; table_properties := table_properties m; current_snapshot_id := current_snapshot_id m;
     snapshots := snapshots m; snapshot_log := log; metadata_log := metadata_log m; sort_orders := sort_orders m;
     default_sort_order_id := default_sort_order_id m; refs := rs; statistics := statistics m |}.

Definition main_ref (id : Z) : SnapshotRef :=
  {| ref_snapshot_id := id; ref_type := "branch"; min_snapshots_to_keep := None; max_snapshot_age_ms := None; max_ref_age_ms := None |}.

(** [refs.emplace]: a name that is there keeps its reference. *)
Definition emplace_ref (name : string) (r : SnapshotRef) (rs : list (string * SnapshotRef)) : list (string * SnapshotRef) :=
  match mfind name rs with Some _ => rs | None => minsert name r rs end.

Definition RemoveOtherSnapshots (id : Z) (switch_main : bool) (m : TableMetadataV2) : result TableMetadataV2 :=
  match List.find (λ s, bool_decide (snapshot_id s = id)) (snapshots m) with
  | None => Err (Exn "no snapshot")
  | Some snapshot =>
      match snap_schema_id snapshot with
      | None => Err (Exn "snapshot has no schema_id")
      | Some schema_id =>
          let m := set_snapshot id [snapshot] schema_id m in
          match List.find (λ s, bool_decide (current_schema_id m = schema_id_ s)) (schemas m) with
          | None => Err (Exn "no schema needed for snapshot")
          | Some schema =>
              let log := match List.find (λ e, bool_decide (log_snapshot_id e = id)) (snapshot_log m) with
                         | Some e => [e]
                         | None => snapshot_log m
                         end in
              let rs := List.filter (λ r, bool_decide (ref_snapshot_id r.2 = id)) (refs m) in
              let rs := if switch_main then emplace_ref "main" (main_ref id) rs else rs in
              Ok (set_history [schema] log rs m)
          end
      end
  end.

(** ** The tree *)

Definition slash : Ascii.ascii := Ascii.ascii_of_nat 47.

(** [std::filesystem::path::filename]: what follows the last slash. *)
Fixpoint filename (path : string) : string :=
  match path with
  | EmptyString => EmptyString
  | String c rest => if existsb (Ascii.eqb slash) (String.list_ascii_of_string path) then filename rest else path
  end.

Record tree := {
  metadata_file_name : string;
  table_metadata : TableMetadataV2;
  manifests_lists : gmap string (list ManifestFile);
  manifests : gmap string Manifest;
}.

Section tree.
Context `{Avro} `{ArrowText} (uninitialized : Z).

Definition ReadMetadataFile (dir : gmap string string) (name : string) : result TableMetadataV2 :=
  match dir !! name with
  | None => Err (Exn "No metadata file")
  | Some text =>
      let! m := ReadTableMetadataV2 uninitialized text in
      match m with Some m => Ok m | None => Err (Exn "Cannot read metadata file") end
  end.

(** The lists and manifests that are loaded so far. *)
Definition loaded : Type := gmap string (list ManifestFile) * gmap string Manifest.

(** The loop over the manifests of a list; [None] when one is missing and that is ignored. *)
Fixpoint add_manifests (dir : gmap string string) (ignore_missing : bool) (list_ : list ManifestFile) (ms : gmap string Manifest) :
    result (bool * gmap string Manifest) :=
  match list_ with
  | [] => Ok (true, ms)
  | man_file :: rest =>
      let name := filename (mf_path man_file) in
      match ms !! name with
      | Some _ => add_manifests dir ignore_missing rest ms
      | None =>
          match dir !! name with
          | None => if ignore_missing then Ok (false, ms) else Err (Exn "No manifest file")
          | Some text =>
              let! man := ReadManifestEntries text [] default_config true in
              add_manifests dir ignore_missing rest (<[name := man]> ms)
          end
      end
  end.

Definition AddSnapshot (dir : gmap string string) (ignore_missing_snapshots : bool) (snap : Snapshot) (st : loaded) : result (bool * loaded) :=
  let name := filename (manifest_list_location snap) in
  match dir !! name with
  | None => if ignore_missing_snapshots then Ok (false, st) else Err (Exn "No manifests list file")
  | Some text =>
      let! list_ := ReadManifestList text in
      match st.1 !! name with
      | Some _ => Ok (true, st)
      | None =>
          let! ' (b, ms) := add_manifests dir ignore_missing_snapshots list_ st.2 in
          Ok (b, (<[name := list_]> st.1, ms))
      end
  end.

(** The snapshots that could be added. *)
Fixpoint add_snapshots (dir : gmap string string) (ignore_missing_snapshots : bool) (snaps : list Snapshot) (st : loaded) :
    result (list Snapshot * loaded) :=
  match snaps with
  | [] => Ok ([], st)
  | snap :: snaps =>
      let! ' (b, st) := AddSnapshot dir ignore_missing_snapshots snap st in
      let! ' (actual, st) := add_snapshots dir ignore_missing_snapshots snaps st in
      Ok (if b : bool then snap :: actual else actual, st)
  end.

Definition set_snapshots (snaps : list Snapshot) (m : TableMetadataV2) : TableMetadataV2 :=
  {| table_uuid := table_uuid m; location := location m; last_sequence_number := last_sequence_number m;
     last_updated_ms := last_updated_ms m; last_column_id := last_column_id m; schemas := schemas m;
     current_schema_id := current_schema_id m; partition_specs := partition_specs m; default_spec_id := default_spec_id m;
     last_partition_id := last_partition_id m; table_properties := table_properties m; current_snapshot_id := current_snapshot_id m;
     snapshots := snaps; snapshot_log := snapshot_log m; metadata_log := metadata_log m; sort_orders := sort_orders m;
     default_sort_order_id := default_sort_order_id m; refs := refs m; statistics := statistics m |}.

(** The three constructors. *)
Definition MetadataTree (dir : gmap string string) (name : string) (ignore_missing_snapshots : bool) : result tree :=
  let! m := ReadMetadataFile dir name in
  let! ' (actual, st) := add_snapshots dir ignore_missing_snapshots (snapshots m) (∅, ∅) in
  Ok {| metadata_file_name := name; table_metadata := set_snapshots actual m; manifests_lists := st.1; manifests := st.2 |}.

Definition keep_snapshot (dir : gmap string string) (name : string) (m : TableMetadataV2) (id : Z) : result tree :=
  let! m := RemoveOtherSnapshots id true m in
  match snapshots m with
  | snap :: _ =>
      let! ' (_, st) := AddSnapshot dir false snap (∅, ∅) in
      Ok {| metadata_file_name := name; table_metadata := m; manifests_lists := st.1; manifests := st.2 |}
  | [] => Err (Exn "index out of range")
  end.

Definition MetadataTree_snapshot (dir : gmap string string) (name : string) (id : Z) : result tree :=
  let! m := ReadMetadataFile dir name in
  keep_snapshot dir name m id.

Definition MetadataTree_ref (dir : gmap string string) (name ref : string) : result tree :=
  let! m := ReadMetadataFile dir name in
  match mfind ref (refs m) with
  | None => Err (Exn "No ref (branch or tag)")
  | Some r => keep_snapshot dir name m (ref_snapshot_id r)
  end.

(** [MetadataLog]: a map by time, the first file of a time. *)
Definition MetadataLog_ (t : tree) : list (Z * string) :=
  foldl (λ out e, match mfind (ml_timestamp_ms e) out with Some _ => out | None => minsert (ml_timestamp_ms e) (metadata_file e) out end)
    [] (metadata_log (table_metadata t)).

(** [LoadTree]: the trees of the earlier metadata files. *)
Definition LoadTree (dir : gmap string string) (ignore_missing_snapshots : bool) (t : tree) : result (list tree) :=
  fold_ok (λ prev e,
    match MetadataTree dir (filename e.2) false with
    | Ok old => Ok (prev ++ [old])
    | Err _ => if ignore_missing_snapshots then Ok prev else Err (Exn "Error while processing")
    end) [] (MetadataLog_ t).

(** ** [FixLocation] *)

Definition set_locations (loc : string) (snaps : list Snapshot) (log : list MetadataLog) (m : TableMetadataV2) : TableMetadataV2 :=
  {| table_uuid := table_uuid m; location := loc; last_sequence_number := last_sequence_number m;
     last_updated_ms := last_updated_ms m; last_column_id := last_column_id m; schemas := schemas m;
     current_schema_id := current_schema_id m; partition_specs := partition_specs m; default_spec_id := default_spec_id m;
     last_partition_id := last_partition_id m; table_properties := table_properties m; current_snapshot_id := current_snapshot_id m;
     snapshots := snaps; snapshot_log := snapshot_log m; metadata_log := log; sort_orders := sort_orders m;
     default_sort_order_id := default_sort_order_id m; refs := refs m; statistics := statistics m |}.

Definition set_list_location (s : string) (x : Snapshot) : Snapshot :=
  {| snapshot_id := snapshot_id x; parent_snapshot_id := parent_snapshot_id x; snap_sequence_number := snap_sequence_number x;
     snap_timestamp_ms := snap_timestamp_ms x; manifest_list_location := s; summary := summary x; snap_schema_id := snap_schema_id x |}.
Definition set_metadata_file (s : string) (x : MetadataLog) : MetadataLog := {| ml_timestamp_ms := ml_timestamp_ms x; metadata_file := s |}.

Definition set_path (s : string) (x : ManifestFile) : ManifestFile :=
  {| mf_added_files_count := mf_added_files_count x; mf_added_rows_count := mf_added_rows_count x; mf_content := mf_content x;
     mf_deleted_files_count := mf_deleted_files_count x; mf_deleted_rows_count := mf_deleted_rows_count x;
     mf_existing_files_count := mf_existing_files_count x; mf_existing_rows_count := mf_existing_rows_count x; mf_length := mf_length x;
     mf_min_sequence_number := mf_min_sequence_number x; mf_partition_spec_id := mf_partition_spec_id x; mf_path := s;
     mf_sequence_number := mf_sequence_number x; mf_snapshot_id := mf_snapshot_id x; mf_partitions := mf_partitions x |}.

Definition set_file_path (s : string) (x : ManifestEntry) : ManifestEntry :=
  let f := data_file x in
  {| status := status x; entry_snapshot_id := entry_snapshot_id x; sequence_number := sequence_number x;
     file_sequence_number := file_sequence_number x;
     data_file :=
       {| content := content f; file_path := s; file_format := file_format f; partition_tuple := partition_tuple f;
          record_count := record_count f; ScanTypes.file_size_in_bytes := ScanTypes.file_size_in_bytes f; column_sizes := column_sizes f;
          value_counts := value_counts f; null_value_counts := null_value_counts f; nan_value_counts := nan_value_counts f;
          distinct_counts := distinct_counts f; lower_bounds := lower_bounds f; upper_bounds := upper_bounds f;
          ScanTypes.key_metadata := ScanTypes.key_metadata f; split_offsets := split_offsets f; equality_ids := equality_ids f;
          sort_order_id := sort_order_id f; referenced_data_file := referenced_data_file f; content_offset := content_offset f;
          content_size_in_bytes := content_size_in_bytes f |} |}.

(** A loop over the values of a hash map; what is renamed does not depend on their order. *)
Definition fix_map {A} (fix_value : A → renames → A * renames) (m : gmap string A) (rs : renames) : gmap string A * renames :=
  foldl (λ '(out, rs) '(k, v), let '(v, rs) := fix_value v rs in (<[k := v]> out, rs)) (∅, rs) (map_to_list m).

Definition fix_manifest (fix_ : StringFix) (man : Manifest) (rs : renames) : Manifest * renames :=
  let '(es, rs) := fix_all (λ e, file_path (data_file e)) set_file_path fix_ (entries man) rs in
  ({| metadata := metadata man; entries := es |}, rs).

(** The renamed data files, metadata files and locations. *)
Record renamed := { renames_data : renames; renames_meta : renames; rename_locations : renames }.

Definition FixLocation (fix_ : StringFix) (t : tree) (r : renamed) : tree * renamed :=
  let m := table_metadata t in
  let '(loc, locations) := FixString (location m) fix_ (rename_locations r) in
  let '(snaps, meta) := fix_all manifest_list_location set_list_location fix_ (snapshots m) (renames_meta r) in
  let '(log, meta) := fix_all metadata_file set_metadata_file fix_ (metadata_log m) meta in
  let '(lists, meta) := fix_map (fix_all mf_path set_path fix_) (manifests_lists t) meta in
  let '(mans, data) := fix_map (fix_manifest fix_) (manifests t) (renames_data r) in
  ({| metadata_file_name := metadata_file_name t; table_metadata := set_locations loc snaps log m; manifests_lists := lists; manifests := mans |},
   {| renames_data := data; renames_meta := meta; rename_locations := locations |}).

(** [WriteFiles]: all files under their names in another directory. *)
Definition WriteFiles (out_dir : gmap string string) (t : tree) : result (gmap string string) :=
  let! out := WriteMetadataFile out_dir (metadata_file_name t) (table_metadata t) in
  let out := foldl (λ out '(path, l), WriteManifestListFile out (filename path) l) out (map_to_list (manifests_lists t)) in
  fold_ok (λ out '(path, man), WriteManifest out (filename path) man) out (map_to_list (manifests t)).

(** [SerializeMetadataFile]. *)
Definition SerializeMetadataFile (t : tree) : result string := WriteTableMetadataV2 (table_metadata t) true.

End tree.

(** [MakeEmptyMetadataFile]; a null schema is [None]. *)
Definition MakeEmptyMetadataFile (uuid loc : string) (schema : option Schema) : result TableMetadataV2 :=
  match schema with
  | None => Err (Exn "No schema")
  | Some schema =>
      let last_id := MaxColumnId schema in
      if (0 <=? last_id)%Z then
        Ok {| table_uuid := uuid; location := loc; last_sequence_number := 0; last_updated_ms := 0; last_column_id := last_id;
              schemas := [schema]; current_schema_id := 0; partition_specs := [{| spec_id := 0; spec_fields := [] |}]; default_spec_id := 0;
              last_partition_id := 0; table_properties := [("write.format.default", "PARQUET")]; current_snapshot_id := None;
              snapshots := []; snapshot_log := []; metadata_log := []; sort_orders := [{| order_id := 0; sort_fields := [] |}];
              default_sort_order_id := 0; refs := []; statistics := [] |}
      else Err (Exn "No columns in schema")
  end.

(** ** One snapshot *)

Lemma keys_sorted_filter {V} (p : string * V → bool) (m : list (string * V)) : keys_sorted m → keys_sorted (List.filter p m).
Proof.
  unfold keys_sorted. induction m as [|[k v] m IH]; [done|]. cbn. intros [Hk Hs]%SSorted_cons. destruct (p (k, v)); [|by apply IH].
  cbn. apply SSorted_cons. split; [|by apply IH]. intros k' (x & -> & Hx)%list_elem_of_fmap. apply Hk. apply list_elem_of_fmap_2.
  apply list_elem_of_In in Hx. apply filter_In in Hx as [Hx _]. by apply list_elem_of_In.
Qed.

Lemma emplace_elem name r rs x : keys_sorted rs → x ∈ emplace_ref name r rs → x ∈ rs ∨ x = (name, r).
Proof.
  intros Hs. unfold emplace_ref. destruct (mfind name rs) eqn:E; [by left|].
  rewrite (minsert_new _ _ _ E Hs). intros [->|Hx]%elem_of_cons; [by right|by left].
Qed.

Lemma emplace_found name r rs : ∃ r', mfind name (emplace_ref name r rs) = Some r'.
Proof. unfold emplace_ref. destruct (mfind name rs) eqn:E; [by eauto|]. exists r. unfold minsert. by rewrite mfind_mupdate_eq. Qed.

Lemma kept_refs id switch_main m name r :
  keys_sorted (refs m) →
  (name, r) ∈ (if switch_main : bool then emplace_ref "main" (main_ref id) (List.filter (λ r, bool_decide (ref_snapshot_id r.2 = id)) (refs m))
               else List.filter (λ r, bool_decide (ref_snapshot_id r.2 = id)) (refs m)) → ref_snapshot_id r = id.
Proof.
  intros Hs Hin. assert ((name, r) ∈ List.filter (λ r, bool_decide (ref_snapshot_id r.2 = id)) (refs m) ∨ (name, r) = ("main", main_ref id)) as Hc.
  { destruct switch_main; [|by left]. apply emplace_elem in Hin; [done|by apply keys_sorted_filter]. }
  destruct Hc as [Hc|[= -> ->]]; [|done]. apply list_elem_of_In in Hc. apply filter_In in Hc as [_ Hc]. by apply bool_decide_eq_true in Hc.
Qed.

(** Metadata with all but one snapshot removed is about that snapshot alone: it is
    the current one, with its schema, its entry of the log and the references to it, among
    them the main branch when asked for; valid metadata stays valid when the log has an
    entry of the snapshot. *)
Theorem remove_other_snapshots_exact (id : Z) (switch_main : bool) (m m' : TableMetadataV2) :
  RemoveOtherSnapshots id switch_main m = Ok m' → keys_sorted (refs m) →
  current_snapshot_id m' = Some id ∧
  (∃ s, s ∈ snapshots m ∧ snapshot_id s = id ∧ snapshots m' = [s] ∧
        GetCurrentManifestListPathOrFail m' = Ok (manifest_list_location s) ∧ Some (current_schema_id m') = snap_schema_id s) ∧
  (∀ name r, (name, r) ∈ refs m' → ref_snapshot_id r = id) ∧
  (switch_main = true → ∃ r, mfind "main" (refs m') = Some r) ∧
  (valid m → id ∈ log_snapshot_id <$> snapshot_log m → valid m').
Proof.
  unfold RemoveOtherSnapshots. intros E Hsort.
  destruct (List.find _ (snapshots m)) as [snap|] eqn:Es; [|done]. destruct (snap_schema_id snap) as [sid|] eqn:Eid; [|done].
  cbn [set_snapshot current_schema_id schemas] in E. destruct (List.find _ (schemas m)) as [schema|] eqn:Ec; [|done]. injection E as <-.
  apply find_Some_true in Es as [Hs Hid%bool_decide_eq_true]. apply find_Some_true in Ec as [Hc Hsid%bool_decide_eq_true].
  split; [done|]. split; [|split; [|split]].
  - exists snap. split; [done|]. split; [done|]. split; [done|]. split; [|by rewrite Eid].
    unfold GetCurrentManifestListPathOrFail, GetCurrentManifestListPath. cbn. by rewrite bool_decide_true.
  - intros name r. cbn [set_history refs set_snapshot]. apply kept_refs, Hsort.
  - intros ->. apply emplace_found.
  - intros [V1 V2 V3 V4 V5 V6 V7 V8 V9] Hlog. split; cbn [set_history set_snapshot table_uuid location sort_orders snapshots snapshot_log refs
      current_snapshot_id current_schema_id schemas default_spec_id partition_specs last_sequence_number]; try done.
    + intros s ->%list_elem_of_singleton. by apply V4.
    + destruct (find_by_id log_snapshot_id (snapshot_log m) id Hlog) as (e & -> & _ & He). intros x ->%list_elem_of_singleton.
      cbn. rewrite He, Hid. by left.
    + intros name r Hr. cbn. rewrite (kept_refs id switch_main m name r Hsort Hr), Hid. by left.
    + intros i [= <-]. cbn. rewrite Hid. by left.
    + cbn. rewrite <- Hsid. by left.
Qed.

(** A snapshot without an entry of the log, as a branch may have, leaves the log as it is:
    its entries name snapshots that are gone, and the metadata is no longer valid. *)
Lemma stale_log_invalid id switch_main m m' :
  RemoveOtherSnapshots id switch_main m = Ok m' → id ∉ log_snapshot_id <$> snapshot_log m → snapshot_log m ≠ [] → ¬ valid m'.
Proof.
  unfold RemoveOtherSnapshots. intros E Hlog Hne Hv.
  destruct (List.find _ (snapshots m)) as [snap|] eqn:Es; [|done]. destruct (snap_schema_id snap) as [sid|]; [|done].
  cbn [set_snapshot current_schema_id schemas] in E. destruct (List.find _ (schemas m)) as [schema|]; [|done]. injection E as <-.
  apply find_Some_true in Es as [_ Hid%bool_decide_eq_true].
  destruct (List.find (λ e, bool_decide (log_snapshot_id e = id)) (snapshot_log m)) as [e|] eqn:El.
  { apply find_Some_true in El as [He Hi%bool_decide_eq_true]. apply Hlog. rewrite <- Hi. by apply list_elem_of_fmap_2. }
  destruct (snapshot_log m) as [|e l] eqn:Em; [done|]. pose proof (va_log _ Hv e) as Hin. cbn [set_history set_snapshot snapshot_log snapshots] in Hin.
  specialize (Hin ltac:(by left)). apply list_elem_of_singleton in Hin. apply Hlog. cbn. rewrite Hin, Hid. by left.
Qed.

(** ** Loading *)

(** Every manifest of a loaded list is loaded. *)
Definition tree_closed (lists : gmap string (list ManifestFile)) (ms : gmap string Manifest) : Prop :=
  ∀ name l mf, lists !! name = Some l → mf ∈ l → is_Some (ms !! filename (mf_path mf)).

Section loading.
Context `{Avro} `{ArrowText} (uninitialized : Z) (dir : gmap string string).

Lemma add_manifests_ok l ms b ms' :
  add_manifests dir false l ms = Ok (b, ms') → b = true ∧ ms ⊆ ms' ∧ ∀ mf, mf ∈ l → is_Some (ms' !! filename (mf_path mf)).
Proof.
  revert ms. induction l as [|mf l IH]; intros ms E; cbn in E.
  { injection E as <- <-. split; [done|]. split; [done|]. by intros mf ?%elem_of_nil. }
  destruct (ms !! filename (mf_path mf)) as [man|] eqn:Em.
  - destruct (IH _ E) as (-> & Hsub & Hall). split; [done|]. split; [done|]. intros x [->|Hx]%elem_of_cons; [|by apply Hall].
    exists man. by eapply lookup_weaken.
  - destruct (dir !! filename (mf_path mf)) as [text|]; [|done]. apply rbind_Ok_inv in E as (man & _ & E).
    destruct (IH _ E) as (-> & Hsub & Hall). split; [done|]. split; [etrans; [by apply insert_subseteq|done]|].
    intros x [->|Hx]%elem_of_cons; [|by apply Hall]. exists man. eapply lookup_weaken; [|done]. apply lookup_insert_eq.
Qed.

Lemma AddSnapshot_closed snap st b st' :
  AddSnapshot dir false snap st = Ok (b, st') → tree_closed st.1 st.2 →
  b = true ∧ tree_closed st'.1 st'.2 ∧ is_Some (st'.1 !! filename (manifest_list_location snap)) ∧ st.1 ⊆ st'.1.
Proof.
  unfold AddSnapshot. intros E Hc. destruct (dir !! filename (manifest_list_location snap)) as [text|]; [|done].
  apply rbind_Ok_inv in E as (l & _ & E). destruct (st.1 !! filename (manifest_list_location snap)) as [l'|] eqn:El.
  { injection E as <- <-. split; [done|]. split; [done|]. split; [by eexists|done]. }
  apply rbind_Ok_inv in E as ([b' ms] & Em & [= <- <-]). destruct (add_manifests_ok _ _ _ _ Em) as (-> & Hsub & Hall). split; [done|]. cbn.
  split; [|split; [rewrite lookup_insert_eq; by eexists|by apply insert_subseteq]].
  intros name l0 mf Hl Hmf. destruct (decide (filename (manifest_list_location snap) = name)) as [<-|Hne].
  - rewrite lookup_insert_eq in Hl. injection Hl as <-. by apply Hall.
  - rewrite lookup_insert_ne in Hl by done. destruct (Hc name l0 mf Hl Hmf) as [man Hman]. exists man. by eapply lookup_weaken.
Qed.

Lemma add_snapshots_closed snaps st actual st' :
  add_snapshots dir false snaps st = Ok (actual, st') → tree_closed st.1 st.2 →
  actual = snaps ∧ tree_closed st'.1 st'.2 ∧ st.1 ⊆ st'.1 ∧ ∀ s, s ∈ snaps → is_Some (st'.1 !! filename (manifest_list_location s)).
Proof.
  revert st actual. induction snaps as [|s snaps IH]; intros st actual E Hc; cbn in E.
  { injection E as <- <-. split; [done|]. split; [done|]. split; [done|]. by intros s ?%elem_of_nil. }
  apply rbind_Ok_inv in E as ([b st1] & E1 & E). apply rbind_Ok_inv in E as ([rest st2] & E2 & [= <- <-]).
  destruct (AddSnapshot_closed _ _ _ _ E1 Hc) as (-> & Hc1 & Hs & Hsub). destruct (IH _ _ E2 Hc1) as (-> & Hc2 & Hsub2 & Hall).
  split; [done|]. split; [done|]. split; [by etrans|]. intros x [->|Hx]%elem_of_cons; [|by apply Hall].
  destruct Hs as [l Hl]. exists l. by eapply lookup_weaken.
Qed.

End loading.

(** A tree that is loaded with no file allowed to be missing is whole: it has all
    snapshots of the metadata file, the manifest list of each and every manifest of the
    lists. *)
Theorem loaded_tree_whole `{Avro} `{ArrowText} (uninitialized : Z) (dir : gmap string string) (name : string) (t : tree) :
  MetadataTree uninitialized dir name false = Ok t →
  ReadMetadataFile uninitialized dir name = Ok (table_metadata t) ∧ tree_closed (manifests_lists t) (manifests t) ∧
  ∀ s, s ∈ snapshots (table_metadata t) → is_Some (manifests_lists t !! filename (manifest_list_location s)).
Proof.
  unfold MetadataTree. intros E. apply rbind_Ok_inv in E as (m & Em & E). apply rbind_Ok_inv in E as ([actual st] & Ea & [= <-]). cbn.
  destruct (add_snapshots_closed dir _ _ _ _ Ea) as (-> & Hc & _ & Hall); [intros n l mf Hl; cbn [fst] in Hl; by rewrite lookup_empty in Hl|].
  assert (set_snapshots (snapshots m) m = m) as Es by by destruct m. rewrite Es. done.
Qed.

(** ** Locations *)

Definition fixed (fix_ : StringFix) (s : string) : string := default s (ReplacePattern s (from fix_) (to fix_)).
Definition renames_of (fix_ : StringFix) (paths : list string) (rs : renames) : renames :=
  foldl (λ rs s, (FixString s fix_ rs).2) rs paths.

Lemma FixString_fixed s fix_ rs : FixString s fix_ rs = (fixed fix_ s, renames_of fix_ [s] rs).
Proof. unfold renames_of, fixed. cbn. unfold FixString. by destruct (ReplacePattern _ _ _). Qed.

Lemma renames_of_app fix_ l1 l2 rs : renames_of fix_ (l1 ++ l2) rs = renames_of fix_ l2 (renames_of fix_ l1 rs).
Proof. apply foldl_app. Qed.

(** What was renamed is the old name to the new one, for the names that have the pattern. *)
Lemma renames_of_lookup fix_ paths rs s :
  renames_of fix_ paths rs !! s =
  if decide (s ∈ paths ∧ is_Some (ReplacePattern s (from fix_) (to fix_))) then Some (fixed fix_ s) else rs !! s.
Proof.
  induction paths as [|p paths IH] using rev_ind; [by rewrite decide_False by (intros [?%elem_of_nil _]; done)|].
  rewrite renames_of_app. unfold renames_of at 1. cbn [foldl]. unfold FixString at 1.
  destruct (ReplacePattern p (from fix_) (to fix_)) as [q|] eqn:E; cbn [snd].
  - destruct (decide (p = s)) as [->|Hne].
    + rewrite lookup_insert_eq, decide_True; [unfold fixed; by rewrite E|]. split; [apply elem_of_app; right; by left|by rewrite E].
    + rewrite lookup_insert_ne, IH by done. apply decide_ext. rewrite elem_of_app, list_elem_of_singleton. naive_solver.
  - rewrite IH. apply decide_ext. rewrite elem_of_app, list_elem_of_singleton. split; [naive_solver|].
    intros [[?| ->] Hs]; [done|]. rewrite E in Hs. by destruct Hs.
Qed.

Lemma fix_all_fixed {A} (get : A → string) set_ fix_ l rs :
  fix_all get set_ fix_ l rs = ((λ x, set_ (fixed fix_ (get x)) x) <$> l, renames_of fix_ (get <$> l) rs).
Proof.
  unfold fix_all. induction l as [|x l IH] using rev_ind; [done|].
  rewrite foldl_app, IH. cbn [foldl]. rewrite FixString_fixed, !fmap_app, renames_of_app. done.
Qed.

(** The values of a hash map, each fixed, and what they rename. *)
Section map_values.
Context {A : Type} (fix_value : A → renames → A * renames) (g : A → A) (paths : A → list string) (fix_ : StringFix).
Hypothesis fix_value_ok : ∀ v rs, fix_value v rs = (g v, renames_of fix_ (paths v) rs).

Definition map_paths (l : list (string * A)) : list string := List.flat_map (λ e, paths e.2) l.

Lemma fix_values_fixed (l : list (string * A)) : ∀ (out : gmap string A) rs,
  NoDup l.*1 →
  foldl (λ '(out, rs) '(k, v), let '(v, rs) := fix_value v rs in (<[k := v]> out, rs)) (out, rs) l =
  (list_to_map (prod_map id g <$> l) ∪ out, renames_of fix_ (map_paths l) rs).
Proof.
  induction l as [|[k v] l IH]; intros out rs' Hnd; [cbn; by rewrite (left_id_L ∅ (∪))|].
  apply NoDup_cons in Hnd as [Hk Hnd]. cbn [foldl]. rewrite fix_value_ok, IH by done.
  change (map_paths ((k, v) :: l)) with (paths v ++ map_paths l). rewrite renames_of_app. f_equal. cbn.
  rewrite <- insert_union_l. symmetry. apply insert_union_r, not_elem_of_list_to_map_1. by rewrite <- list_fmap_compose.
Qed.

Lemma fix_map_fixed (m : gmap string A) rs : fix_map fix_value m rs = (g <$> m, renames_of fix_ (map_paths (map_to_list m)) rs).
Proof.
  unfold fix_map. rewrite fix_values_fixed by apply NoDup_fst_map_to_list.
  by rewrite list_to_map_fmap, list_to_map_to_list, (right_id_L ∅ (∪)).
Qed.

Lemma elem_of_map_paths (m : gmap string A) s : s ∈ map_paths (map_to_list m) ↔ ∃ name v, m !! name = Some v ∧ s ∈ paths v.
Proof.
  unfold map_paths. rewrite list_elem_of_In, in_flat_map. split.
  - intros ([name v] & Hv%list_elem_of_In & Hs%list_elem_of_In). exists name, v. by rewrite elem_of_map_to_list in Hv.
  - intros (name & v & Hv & Hs). exists (name, v). by rewrite <- !list_elem_of_In, elem_of_map_to_list.
Qed.

End map_values.

(** The paths of the metadata files and of the data files that a tree names. *)
Definition meta_path (t : tree) (s : string) : Prop :=
  (∃ x, x ∈ snapshots (table_metadata t) ∧ manifest_list_location x = s) ∨
  (∃ x, x ∈ metadata_log (table_metadata t) ∧ metadata_file x = s) ∨
  (∃ name l x, manifests_lists t !! name = Some l ∧ x ∈ l ∧ mf_path x = s).
Definition data_path (t : tree) (s : string) : Prop :=
  ∃ name man e, manifests t !! name = Some man ∧ e ∈ entries man ∧ file_path (data_file e) = s.

(** *** What a moved path is *)

Definition occurs (pattern s : string) : Prop := ∃ pre post, s = pre +:+ pattern +:+ post.

(** The first occurrence of the pattern is replaced; a path without it stays. *)
Definition moved (fix_ : StringFix) (s s' : string) : Prop :=
  (∃ pre post, s = pre +:+ from fix_ +:+ post ∧ s' = pre +:+ to fix_ +:+ post ∧
     ∀ pre' post', s = pre' +:+ from fix_ +:+ post' → (String.length pre ≤ String.length pre')%nat) ∨
  (¬ occurs (from fix_) s ∧ s' = s).

Lemma substring_middle a b c : String.substring (String.length a) (String.length b) (a +:+ b +:+ c) = b.
Proof.
  induction a as [|x a IH]; [|exact IH]. change (String.substring 0 (String.length b) (b +:+ c) = b).
  induction b as [|y b IH]; [by destruct c|].
  change (String y (String.substring 0 (String.length b) (b +:+ c)) = String y b). by rewrite IH.
Qed.

Lemma substring_split s n : (n ≤ String.length s)%nat →
  s = String.substring 0 n s +:+ String.substring n (String.length s - n) s.
Proof.
  revert n. induction s as [|x s IH]; intros n Hn; [by destruct n|]. destruct n as [|n].
  - change (String x s = String.substring 0 (S (String.length s)) (String x s)). cbn. f_equal. clear.
    induction s as [|y s IH]; [done|]. cbn. by f_equal.
  - cbn in Hn. change (String x s = String x (String.substring 0 n s +:+ String.substring n (String.length s - n) s)).
    f_equal. apply IH. lia.
Qed.

Lemma substring_length s n m : (n + m ≤ String.length s)%nat → String.length (String.substring n m s) = m.
Proof.
  revert n m. induction s as [|x s IH]; intros n m Hl; cbn in *; [by destruct n, m; try lia|].
  destruct n as [|n]; [destruct m as [|m]; [done|]; cbn; f_equal; apply IH; lia|apply IH; lia].
Qed.

Lemma substring_full_length s n m : String.length (String.substring n m s) = m → (0 < m)%nat → (n + m ≤ String.length s)%nat.
Proof.
  revert n m. induction s as [|x s IH]; intros n m E Hm; cbn in *; [destruct n, m; cbn in E; lia|].
  destruct n as [|n]; [destruct m as [|m]; [lia|]; cbn in E; injection E as E; destruct m; [lia|apply (IH 0%nat) in E; lia]|].
  apply IH in E; lia.
Qed.

Lemma substring_0 n s : String.substring n 0 s = "".
Proof. revert n. induction s as [|x s IH]; intros [|n]; cbn; done. Qed.

Lemma substring_substring s pos n m k :
  String.substring n m (String.substring pos k s) = String.substring (pos + n) (Nat.min m (k - n)) s.
Proof.
  revert pos n m k. induction s as [|x s IH]; intros pos n m k.
  - destruct pos, k; cbn; by destruct n, m; cbn; try done; rewrite ?substring_0.
  - destruct pos as [|pos]; [|cbn; apply IH]. destruct k as [|k].
    + rewrite Nat.sub_0_l, Nat.min_0_r, !substring_0. by destruct n, m.
    + cbn [Nat.add]. destruct n as [|n]; cbn [String.substring Nat.sub].
      * destruct m as [|m]; [done|]. cbn. f_equal. rewrite (IH 0%nat 0%nat m k). by rewrite Nat.sub_0_r.
      * apply (IH 0%nat n m k).
Qed.

(** Where [String.index] finds the pattern. *)
Lemma index_occurrence pattern s pos : String.index 0 pattern s = Some pos →
  ∃ post, s = String.substring 0 pos s +:+ pattern +:+ post ∧ String.length (String.substring 0 pos s) = pos ∧
    post = String.substring (pos + String.length pattern) (String.length s - (pos + String.length pattern)) s.
Proof.
  intros Hi. pose proof (String.index_correct1 0 pos pattern s Hi) as Hs.
  assert (pos + String.length pattern ≤ String.length s)%nat as Hl.
  { destruct pattern as [|x pattern]; [|apply substring_full_length; [by rewrite Hs|cbn; lia]].
    assert (pos = 0%nat) as ->; [|cbn; lia]. destruct s; cbn in Hi; by injection Hi. }
  eexists. split; [|split; [by apply substring_length; lia|reflexivity]].
  rewrite (substring_split s pos) at 1 by lia. f_equal.
  assert (∀ t, String.length t = (String.length s - pos)%nat → t = String.substring pos (String.length s - pos) s →
    t = pattern +:+ String.substring (pos + String.length pattern) (String.length s - (pos + String.length pattern)) s) as Ht.
  { intros t Hlen Et. rewrite (substring_split t (String.length pattern)) by lia.
    assert (∀ n m k, String.substring n m (String.substring pos k s) = String.substring (pos + n) (Nat.min m (k - n)) s) as Hsub
      by (intros; apply substring_substring).
    rewrite Et, !Hsub. f_equal.
    - rewrite Nat.add_0_r, Nat.min_l by lia. exact Hs.
    - f_equal. rewrite substring_length by lia. lia. }
  apply Ht; [apply substring_length; lia|done].
Qed.

Lemma ReplacePattern_moved fix_ s : moved fix_ s (fixed fix_ s).
Proof.
  unfold fixed, ReplacePattern. destruct (String.index 0 (from fix_) s) as [pos|] eqn:Hi; cbn.
  - left. destruct (index_occurrence _ _ _ Hi) as (post & Es & Hl & Ep). exists (String.substring 0 pos s), post.
    split; [done|]. split; [by rewrite <- Ep|]. intros pre' post' Es'. rewrite Hl.
    destruct (le_lt_dec pos (String.length pre')) as [?|Hlt]; [done|].
    destruct (String.index_correct2 0 pos (from fix_) s Hi (String.length pre') ltac:(lia) Hlt). rewrite Es'. apply substring_middle.
  - right. split; [|done]. intros (pre & post & Es). destruct (from fix_) as [|x f] eqn:Ef; [by destruct s|].
    apply (String.index_correct3 0 (String.length pre) (String x f) s Hi); [done|lia|]. rewrite Es. apply substring_middle.
Qed.

Lemma replace_some fix_ s : is_Some (ReplacePattern s (from fix_) (to fix_)) ↔ occurs (from fix_) s.
Proof.
  pose proof (ReplacePattern_moved fix_ s) as Hm. unfold fixed, ReplacePattern in *.
  destruct (String.index 0 (from fix_) s) as [pos|] eqn:Hi; cbn in Hm.
  - split; [|by eexists]. intros _. destruct (index_occurrence _ _ _ Hi) as (post & Es & _). by eexists _, post.
  - split; [by intros []|]. intros Ho. destruct Hm as [(pre & post & Es & _ & _)|[Hn _]]; [|done].
    exfalso. destruct (from fix_) as [|x f] eqn:Ef; [by destruct s|].
    apply (String.index_correct3 0 (String.length pre) (String x f) s Hi); [done|lia|]. rewrite Es. apply substring_middle.
Qed.

(** The renames of [paths], added to [rs], are exactly those from old to new names. *)
Definition renamed_paths (fix_ : StringFix) (paths : string → Prop) (rs rs' : renames) : Prop :=
  ∀ s, (paths s ∧ occurs (from fix_) s → ∃ s', rs' !! s = Some s' ∧ moved fix_ s s') ∧
       (¬ (paths s ∧ occurs (from fix_) s) → rs' !! s = rs !! s).

Lemma renamed_paths_of fix_ (paths : string → Prop) l rs :
  (∀ s, s ∈ l ↔ paths s) → renamed_paths fix_ paths rs (renames_of fix_ l rs).
Proof.
  intros Hl s. rewrite renames_of_lookup, <- Hl. split; intros Hs.
  - exists (fixed fix_ s). split; [|apply ReplacePattern_moved]. rewrite decide_True; [done|]. by rewrite replace_some.
  - rewrite decide_False; [done|]. by rewrite replace_some.
Qed.

Lemma elem_of_get {A} (get : A → string) (l : list A) s : s ∈ get <$> l ↔ ∃ x, x ∈ l ∧ get x = s.
Proof. rewrite list_elem_of_fmap. split; intros (x & H1 & H2); exists x; by split. Qed.

Definition fixed_manifest (fix_ : StringFix) (man : Manifest) : Manifest :=
  {| metadata := metadata man; entries := (λ e, set_file_path (fixed fix_ (file_path (data_file e))) e) <$> entries man |}.

Lemma fix_manifest_fixed fix_ man rs :
  fix_manifest fix_ man rs = (fixed_manifest fix_ man, renames_of fix_ ((λ e, file_path (data_file e)) <$> entries man) rs).
Proof. unfold fix_manifest. by rewrite fix_all_fixed. Qed.

(** *** What a moved table is

    Every path is moved, and every other field is what it was. *)

Record snapshot_moved (fix_ : StringFix) (x x' : Snapshot) : Prop := {
  snm_path : moved fix_ (manifest_list_location x) (manifest_list_location x');
  snm_id : snapshot_id x' = snapshot_id x;
  snm_parent : parent_snapshot_id x' = parent_snapshot_id x;
  snm_sequence : snap_sequence_number x' = snap_sequence_number x;
  snm_time : snap_timestamp_ms x' = snap_timestamp_ms x;
  snm_summary : summary x' = summary x;
  snm_schema : snap_schema_id x' = snap_schema_id x;
}.

Record log_moved (fix_ : StringFix) (x x' : MetadataLog) : Prop := {
  lgm_path : moved fix_ (metadata_file x) (metadata_file x');
  lgm_time : ml_timestamp_ms x' = ml_timestamp_ms x;
}.

Record manifest_file_moved (fix_ : StringFix) (x x' : ManifestFile) : Prop := {
  mfm_path : moved fix_ (mf_path x) (mf_path x');
  mfm_counts : (mf_added_files_count x', mf_deleted_files_count x', mf_existing_files_count x') =
               (mf_added_files_count x, mf_deleted_files_count x, mf_existing_files_count x);
  mfm_rows : (mf_added_rows_count x', mf_deleted_rows_count x', mf_existing_rows_count x') =
             (mf_added_rows_count x, mf_deleted_rows_count x, mf_existing_rows_count x);
  mfm_content : mf_content x' = mf_content x;
  mfm_length : mf_length x' = mf_length x;
  mfm_sequence : (mf_min_sequence_number x', mf_sequence_number x') = (mf_min_sequence_number x, mf_sequence_number x);
  mfm_spec : mf_partition_spec_id x' = mf_partition_spec_id x;
  mfm_snapshot : mf_snapshot_id x' = mf_snapshot_id x;
  mfm_partitions : mf_partitions x' = mf_partitions x;
}.

Record data_file_moved (fix_ : StringFix) (f f' : DataFile) : Prop := {
  dfm_path : moved fix_ (file_path f) (file_path f');
  dfm_content : content f' = content f;
  dfm_format : file_format f' = file_format f;
  dfm_partition : partition_tuple f' = partition_tuple f;
  dfm_records : record_count f' = record_count f;
  dfm_size : ScanTypes.file_size_in_bytes f' = ScanTypes.file_size_in_bytes f;
  dfm_columns : column_sizes f' = column_sizes f;
  dfm_values : value_counts f' = value_counts f;
  dfm_nulls : null_value_counts f' = null_value_counts f;
  dfm_nans : nan_value_counts f' = nan_value_counts f;
  dfm_distinct : distinct_counts f' = distinct_counts f;
  dfm_lower : lower_bounds f' = lower_bounds f;
  dfm_upper : upper_bounds f' = upper_bounds f;
  dfm_key : ScanTypes.key_metadata f' = ScanTypes.key_metadata f;
  dfm_offsets : split_offsets f' = split_offsets f;
  dfm_ids : equality_ids f' = equality_ids f;
  dfm_order : sort_order_id f' = sort_order_id f;
  dfm_referenced : referenced_data_file f' = referenced_data_file f;
  dfm_blob : (content_offset f', content_size_in_bytes f') = (content_offset f, content_size_in_bytes f);
}.

Record entry_moved (fix_ : StringFix) (e e' : ManifestEntry) : Prop := {
  enm_file : data_file_moved fix_ (data_file e) (data_file e');
  enm_status : status e' = status e;
  enm_snapshot : entry_snapshot_id e' = entry_snapshot_id e;
  enm_sequence : (sequence_number e', file_sequence_number e') = (sequence_number e, file_sequence_number e);
}.

Record manifest_moved (fix_ : StringFix) (x x' : Manifest) : Prop := {
  mam_metadata : metadata x' = metadata x;
  mam_entries : Forall2 (entry_moved fix_) (entries x) (entries x');
}.

Record metadata_moved (fix_ : StringFix) (m m' : TableMetadataV2) : Prop := {
  mem_location : moved fix_ (location m) (location m');
  mem_snapshots : Forall2 (snapshot_moved fix_) (snapshots m) (snapshots m');
  mem_log : Forall2 (log_moved fix_) (metadata_log m) (metadata_log m');
  mem_uuid : table_uuid m' = table_uuid m;
  mem_sequence : last_sequence_number m' = last_sequence_number m;
  mem_updated : last_updated_ms m' = last_updated_ms m;
  mem_column : last_column_id m' = last_column_id m;
  mem_schemas : (schemas m', current_schema_id m') = (schemas m, current_schema_id m);
  mem_specs : (partition_specs m', default_spec_id m', last_partition_id m') =
              (partition_specs m, default_spec_id m, last_partition_id m);
  mem_properties : table_properties m' = table_properties m;
  mem_current : current_snapshot_id m' = current_snapshot_id m;
  mem_history : snapshot_log m' = snapshot_log m;
  mem_orders : (sort_orders m', default_sort_order_id m') = (sort_orders m, default_sort_order_id m);
  mem_refs : refs m' = refs m;
  mem_statistics : statistics m' = statistics m;
}.

Record tree_moved (fix_ : StringFix) (t t' : tree) : Prop := {
  trm_name : metadata_file_name t' = metadata_file_name t;
  trm_metadata : metadata_moved fix_ (table_metadata t) (table_metadata t');
  trm_lists : ∀ name, option_Forall2 (Forall2 (manifest_file_moved fix_)) (manifests_lists t !! name) (manifests_lists t' !! name);
  trm_manifests : ∀ name, option_Forall2 (manifest_moved fix_) (manifests t !! name) (manifests t' !! name);
}.

Lemma Forall2_fmap_moved {A} (R : A → A → Prop) (g : A → A) l : (∀ x, R x (g x)) → Forall2 R l (g <$> l).
Proof. intros Hg. induction l; cbn; by constructor. Qed.

Lemma fixed_list_moved fix_ l : Forall2 (manifest_file_moved fix_) l ((λ x, set_path (fixed fix_ (mf_path x)) x) <$> l).
Proof. apply Forall2_fmap_moved. intros x. split; try done. apply ReplacePattern_moved. Qed.

Lemma fixed_manifest_moved fix_ man : manifest_moved fix_ man (fixed_manifest fix_ man).
Proof.
  split; [done|]. apply Forall2_fmap_moved. intros e. split; try done. split; try done. apply ReplacePattern_moved.
Qed.

Lemma fixed_metadata_moved fix_ m :
  metadata_moved fix_ m (set_locations (fixed fix_ (location m))
    ((λ x, set_list_location (fixed fix_ (manifest_list_location x)) x) <$> snapshots m)
    ((λ x, set_metadata_file (fixed fix_ (metadata_file x)) x) <$> metadata_log m) m).
Proof.
  split; try done; [apply ReplacePattern_moved| |].
  - apply Forall2_fmap_moved. intros x. split; try done. apply ReplacePattern_moved.
  - apply Forall2_fmap_moved. intros x. split; try done. apply ReplacePattern_moved.
Qed.

Lemma fmap_moved {A} (R : A → A → Prop) (g : A → A) (m : gmap string A) name :
  (∀ x, R x (g x)) → option_Forall2 R (m !! name) ((g <$> m) !! name).
Proof. intros Hg. rewrite lookup_fmap. destruct (m !! name); constructor. apply Hg. Qed.

(** C39: moving a table replaces the first occurrence of the pattern in its location and
    in every path of a manifest list, an earlier metadata file, a manifest and a data
    file; a path without the pattern stays, and so does every other field of the table
    metadata, the manifest lists and the manifests.  The recorded renames are exactly
    those of the paths that have the pattern, each to the path that is now in its
    place. *)
Theorem fix_location_exact (fix_ : StringFix) (t t' : tree) (r r' : renamed) :
  FixLocation fix_ t r = (t', r') →
  tree_moved fix_ t t' ∧
  renamed_paths fix_ (λ s, s = location (table_metadata t)) (rename_locations r) (rename_locations r') ∧
  renamed_paths fix_ (meta_path t) (renames_meta r) (renames_meta r') ∧
  renamed_paths fix_ (data_path t) (renames_data r) (renames_data r').
Proof.
  unfold FixLocation. rewrite FixString_fixed, !fix_all_fixed.
  rewrite (fix_map_fixed _ (λ l, (λ x, set_path (fixed fix_ (mf_path x)) x) <$> l) (λ l, mf_path <$> l) fix_ (fix_all_fixed mf_path set_path fix_)).
  rewrite (fix_map_fixed _ _ _ fix_ (fix_manifest_fixed fix_)). intros [<- <-]%pair_equal_spec. split.
  { split; cbn [metadata_file_name table_metadata manifests_lists manifests]; [done|apply fixed_metadata_moved| |]; intros name.
    - apply fmap_moved, fixed_list_moved.
    - apply fmap_moved, fixed_manifest_moved. }
  cbn [rename_locations renames_meta renames_data].
  rewrite <- !renames_of_app. split; [|split]; apply renamed_paths_of; intros s.
  - by rewrite list_elem_of_singleton.
  - rewrite !elem_of_app, elem_of_map_paths, !elem_of_get. unfold meta_path. setoid_rewrite elem_of_get. naive_solver.
  - rewrite elem_of_map_paths. unfold data_path. setoid_rewrite elem_of_get. naive_solver.
Qed.

(** What a delete file says of its data file is not moved with the data file. *)
Lemma references_not_moved fix_ e :
  let f := data_file (set_file_path (fixed fix_ (file_path (data_file e))) e) in
  referenced_data_file f = referenced_data_file (data_file e) ∧ lower_bounds f = lower_bounds (data_file e) ∧
  upper_bounds f = upper_bounds (data_file e).
Proof. done. Qed.

(** Metadata made for a schema is valid when the schema's identifier is zero: the current
    schema is zero whatever the schema's own identifier is. *)
Lemma empty_metadata_valid uuid loc schema m :
  MakeEmptyMetadataFile uuid loc (Some schema) = Ok m → uuid ≠ EmptyString → loc ≠ EmptyString → (valid m ↔ schema_id_ schema = 0%Z).
Proof.
  unfold MakeEmptyMetadataFile. destruct (0 <=? MaxColumnId schema)%Z; [|done]. intros [= <-] Hu Hl. split.
  - intros Hv. pose proof (va_schema _ Hv) as Hs. cbn in Hs. by apply list_elem_of_singleton in Hs.
  - intros Hs. split; cbn; try done.
    + by intros s ?%elem_of_nil.
    + by intros s ?%elem_of_nil.
    + by intros name r ?%elem_of_nil.
    + rewrite Hs. by left.
    + by left.
Qed.

(** ** Examples *)

Module TreeExample.
Definition snap (id : Z) (path : string) : Snapshot :=
  {| snapshot_id := id; parent_snapshot_id := None; snap_sequence_number := id; snap_timestamp_ms := 0;
     manifest_list_location := path; summary := []; snap_schema_id := Some 0%Z |}.
Definition table (ids : list Z) : TableMetadataV2 :=
  {| table_uuid := "u"; location := "s3://old/t"; last_sequence_number := 3; last_updated_ms := 0; last_column_id := 1;
     schemas := [{| schema_id_ := 0; fields_ := [] |}]; current_schema_id := 0;
     partition_specs := [{| spec_id := 0; spec_fields := [] |}];
     default_spec_id := 0; last_partition_id := 1000; table_properties := []; current_snapshot_id := Some 2%Z;
     snapshots := [snap 1 "s3://old/t/metadata/a.avro"; snap 2 "s3://old/t/metadata/b.avro"];
     snapshot_log := (λ id, {| log_timestamp_ms := 0; log_snapshot_id := id |}) <$> ids; metadata_log := [];
     sort_orders := [{| order_id := 1; sort_fields := [] |}]; default_sort_order_id := 1;
     refs := [("dev", main_ref 1); ("main", main_ref 2)]; statistics := [] |}.
Definition kept : TableMetadataV2 :=
  match RemoveOtherSnapshots 1 true (table [1; 2]%Z) with Ok m => m | Err _ => table [] end.
Definition to_new : StringFix := {| from := "s3://old/"; to := "file:///new/" |}.
Definition tree1 : tree := {| metadata_file_name := "v1.json"; table_metadata := table [2%Z]; manifests_lists := ∅; manifests := ∅ |}.
Definition moved : tree * renamed := FixLocation to_new tree1 {| renames_data := ∅; renames_meta := ∅; rename_locations := ∅ |}.
End TreeExample.

(** The main branch of the snapshot's metadata is the snapshot, also when the table's was
    another one. *)
Lemma remove_other_snapshots_exact_witness :
  current_snapshot_id TreeExample.kept = Some 1%Z ∧ mfind "main" (refs TreeExample.kept) = Some (main_ref 1) ∧
  (∃ r, mfind "main" (refs TreeExample.kept) = Some r) ∧ (∀ name r, (name, r) ∈ refs TreeExample.kept → ref_snapshot_id r = 1%Z).
Proof.
  destruct (remove_other_snapshots_exact 1 true (TreeExample.table [1; 2]%Z) TreeExample.kept) as (H1 & _ & H3 & H4 & _).
  - vm_compute. reflexivity.
  - by vm_compute; repeat constructor.
  - split; [exact H1|]. split; [vm_compute; reflexivity|]. split; [by apply H4|exact H3].
Defined.

(** A snapshot of a branch that the log does not have. *)
Lemma branch_snapshot_invalid : ∃ m, RemoveOtherSnapshots 1 true (TreeExample.table [2%Z]) = Ok m ∧ ¬ valid m.
Proof.
  eexists. split; [reflexivity|]. apply (stale_log_invalid 1 true (TreeExample.table [2%Z])); [reflexivity| |done].
  by intros ?%list_elem_of_singleton.
Qed.

Lemma fix_location_exact_witness :
  location (table_metadata TreeExample.moved.1) = "file:///new/t" ∧
  tree_moved TreeExample.to_new TreeExample.tree1 TreeExample.moved.1 ∧
  ∃ s', renames_meta TreeExample.moved.2 !! "s3://old/t/metadata/a.avro" = Some s' ∧
        moved TreeExample.to_new "s3://old/t/metadata/a.avro" s'.
Proof.
  destruct (fix_location_exact TreeExample.to_new TreeExample.tree1 TreeExample.moved.1
    {| renames_data := ∅; renames_meta := ∅; rename_locations := ∅ |} TreeExample.moved.2) as (H1 & _ & H3 & _).
  - by rewrite <- surjective_pairing.
  - split; [vm_compute; reflexivity|]. split; [exact H1|]. apply H3. split.
    + left. exists (TreeExample.snap 1 "s3://old/t/metadata/a.avro"). split; [by left|done].
    + exists "", "t/metadata/a.avro". vm_compute. reflexivity.
Defined.
